(* ===== verification/_CoqProject ===== *)
-Q . S2P
Prelude.v
JsValue.v
NumberText.v
Objects.v
Doubles.v
Rounding.v
RoundingFacts.v
Regex.v
Canonical.v
Hashing.v
Merkle.v
Receipt.v
PublicSafe.v
LaunchLedger.v
Dates.v
VaultPublic.v
Vault.v
Samples.v
MapFacts.v
VaultBundle.v
VaultSafety.v
VaultRecall.v
VaultRefinement.v
VaultReplay.v
VaultErasure.v
Boundary.v
Controller.v
ControllerSafety.v
Mesh.v
MeshSafety.v
Enterprise.v
EnterpriseSafety.v
Settlement.v
SettlementSafety.v
Optimizer.v
OptimizerSafety.v
Passport.v
PassportSafety.v
ContextPassport.v
ContextPassportSafety.v
Health.v
HealthSafety.v
HealthVault.v
ProofNetwork.v
ProofNetworkFields.v
ProofNetworkSafety.v
Metering.v
MeteringSafety.v
MeteringTotals.v
Connectors.v
ConnectorPublic.v
ConnectorFiles.v
ConnectorsSafety.v
ConnectorFilesSafety.v
ConnectorLifecycle.v
