(* ===== verification/Prelude.v ===== *)
(** * Enigma Memory: a verified model of the core packages

    Enigma Memory is a local memory store for assistants.  What a user's memories
    went through is recorded as signed receipts that form a hash chain; sets of
    addresses are published as Merkle roots; artifacts for the public are checked to
    carry no private data; and the use of a memory needs consent.  This development
    models the JavaScript packages that carry this logic as executable functions and
    proves what they promise each other and their users.

    ** How the parts fit together

    The core package gives canonical JSON, hashes, Merkle sets, receipts and
    checkpoints, and the public-safe scan.  The vault encrypts memories under keyed
    addresses and writes a receipt of the core package for every operation; it
    recomputes its Merkle roots after each.  The boundary package decides by a
    manifest whether a fact may cross a path and addresses facts with the core
    package.  The controller decides by consent grants whether a recall may happen and
    passes every artifact through the public-safe scan.
    The mesh signs capsules, witness checkpoints and federation grants with the keys of
    the core package and relays hashes of encrypted payloads between nodes.
    The enterprise package evaluates requests under a tenant's policy and signs the
    verdicts.  Settlement prices jobs and settles them with receipts that name job and quote by
    their hashes.  The optimizer plans which memories go into a prompt, by the hashes of
    their contents; the passport package decrypts the selected memories into a context pack
    and has the vault log a retrieval and an injection for each, and reports the health of a
    vault.  The proof network publishes
    roots, grants and attestations as hashed artifacts that are free of private data.
    Metering adds up token counts and estimated costs of usage events.  The connectors write
    the entry of the memory server into the configuration files of other programs.

    ** Files

    - [Prelude], [JsValue], [NumberText], [Objects], [Doubles], [Rounding], [RoundingFacts], [Regex], [Dates]: the language.  Strings are lists of
      16-bit units, [res] is a result or a thrown error, [jsval] is a JavaScript value
      with the property order of objects and the holes of arrays; regular-expression
      literals are syntax with a derivative matcher that is proved to decide their
      language; [Date.parse] and [toISOString] are proved inverse to each other;
      [NumberText] reads the printed texts of numbers back, so that a text names one number;
      [Doubles] adds, multiplies and divides doubles with the rounding of IEEE 754,
      [Rounding] subtracts and rounds them down, and [RoundingFacts] bounds what is computed.
    - [Canonical], [Hashing], [Merkle], [Receipt], [PublicSafe], [LaunchLedger]:
      [src/packages/core/src/index.js].  [canonicalize], [sha256Hex],
      [createMemoryAddress], [MerkleSet] and its proofs, [createReceipt],
      [verifyReceipt], [verifyReceiptChain], [createCheckpoint], [verifyCheckpoint],
      [scanPublicSafeFields] and the public launch ledger, under their own names.
    - [VaultPublic], [Vault], [VaultBundle]: [src/packages/vault/src/index.js].  The
      state is the record [Vault]; an operation is a function from a vault to a result
      and a vault, because it may throw after it has changed the vault.  [VaultPublic]
      has the sanitising helpers, [Vault] the operations on memories, [VaultBundle]
      the creation, export and import of vaults.
    - [MapFacts]: lemmas on the maps of the vault; [VaultSafety], [VaultRecall]: theorems on every sequence of operations;
      [VaultRefinement]: the abstract store that the vault implements; [VaultReplay]:
      the replay of its receipts; [VaultErasure]: how a vault is emptied.
    - [Boundary]: [src/packages/boundary/src/index.js] with its theorems.
    - [Controller] and its theorems in [ControllerSafety]:
      [src/packages/controller/src/index.js].
    - [Mesh] and its theorems in [MeshSafety]: [src/packages/mesh/src/index.js].
    - [Enterprise] and its theorems in [EnterpriseSafety]:
      [src/packages/enterprise/src/index.js].
    - [Settlement] and its theorems in [SettlementSafety]:
      [src/packages/settlement/src/index.js].
    - [Optimizer] and its theorems in [OptimizerSafety]:
      [src/packages/optimizer/src/index.js] and [text-estimate.js].

    - [Passport] and its theorems in [PassportSafety]: context packs;
      [ContextPassport] and its theorems in [ContextPassportSafety]: context passports and
      proofs of non-use; [Health]: the health reports of a memory drive, with their theorems
      in [HealthSafety] and, for a vault after its operations, [HealthVault]; all from
      [src/packages/passport/src/index.js].
    - [ProofNetwork]: [src/packages/proof-network/src/index.js]; [ProofNetworkFields]: its fields
      pass the checks that made them; [ProofNetworkSafety]: its theorems.
    - [Metering]: [src/packages/metering/src/index.js]; [MeteringSafety]: the groups of an
      aggregate; [MeteringTotals]: its totals.
    - [Connectors], [ConnectorPublic], [ConnectorFiles]: [src/packages/connectors/src/index.js].
      [Connectors] has the edits of a configuration and their plans, [ConnectorPublic] the
      wizard, the extension of Claude Desktop and the trust cards, [ConnectorFiles] what reads
      and writes files, over a disk whose calls may fail and whose states are recorded.
      [ConnectorsSafety]: theorems on configurations; [ConnectorFilesSafety]: on what a crash
      leaves; [ConnectorLifecycle]: on a connection and its inspection.

    ** What the theorems show

    - Canonical texts are equal exactly for values with one normal form, whatever numbers
      they hold, do not depend on property order, and exist exactly for JSON data.
    - A Merkle root determines its set and a membership proof accepted against it is
      about a member, unless SHA-256 collides: the collision is exhibited among the
      texts that were hashed.  Proofs are complete for members and non-members;
      accepted proofs of absence, however, can be forged ([nonmembership_forgery]).
    - [verifyReceiptChain] accepts exactly the chains whose receipts verify, are
      numbered in order and name their predecessor; the hash of the head determines
      the history, or a collision is exhibited.
    - Whatever operations are run on a vault, and whether or not they throw, its
      receipts verify as a chain; a deleted address never comes back; what is
      remembered is recalled unchanged until its address is touched; the active and
      the tombstoned addresses stay disjoint but for one kind of update, and that kind
      loses the memory ([no_op_update_loses_memory]).
    - The vault refines an abstract store of live texts and dead addresses.  The replay
      of its receipts gives its lifecycle state, as long as operations are logged under
      their own names; a recall logged as a deletion makes the log unacceptable
      ([recall_as_delete_breaks_replay]).  Deleting the active addresses one by one empties
      a vault, up to the addresses that are both active and tombstoned.
    - Boundary manifests are accepted exactly when they are complete and well formed;
      unknown paths fail closed; a simulation that passes gives no false assurance.
    - A consent grant is accepted exactly while it is live, which is exactly its time
      to live, and a recall is allowed exactly under a live grant that covers it; a
      bubble is closed once and its counts add up; a weather report says what its
      tiles say.
    - What a mesh node signs verifies under its key, up to what the verifier expects;
      the relay store keeps only hashes, and pushing the hash of a payload in its place
      leaves the same store; a pull gives what was pushed last.
    - An enterprise policy allows exactly the requests whose attributes it lists, and no
      deletion of an address under legal hold; gateway decisions verify.  An evaluation
      given by the caller is signed unchecked ([gateway_decision_verifies]).
    - The receipt of a settled quote verifies; when the job and the quote are passed on as
      they were created, what it settles is at most the quoted price, which is at most the
      maximal price of the job; the totals of a batch add up.
      A quote whose price was raised afterwards is settled all the same
      ([forged_quote_price_verifies]).
    - An optimisation plan has one item for every distinct content, its totals are the sums
      of its items and below the baseline, and only the hash and the token estimate of a
      content reach it.
    - A context pack holds exactly the live texts of the selected memories and verifies
      under the key of its vault; an accepted pack names only active memories, with receipts
      for the listed ones.  The contents play no part in the verification.
    - A context passport or a proof of non-use created for a pack verifies with it; one
      accepted against two contexts means the same in both, or a collision is exhibited; an
      active reference is in the pack or committed to as omitted, never both, as long as the
      caller gives no references explicitly.
    - A health report has scores from 0 to 100 in the bands of their statuses and the status
      of its worst metric; one that is eligible for an anchor batch shows nothing private and
      serves nothing that names a tombstone or a root other than the current one.  The
      receipts of a vault cover it, and an update of an address that no receipt says was
      deleted leaves it at risk for good ([update_leaves_risk]).
    - What the proof network creates, its validators accept; an accepted packet lists accepted
      artifacts with their hashes; nothing accepted looks private at any depth.  A property
      called [__proto__] escapes the hashes ([proto_property_not_hashed]).
    - An aggregate of usage events has one group for every pair of provider and model (for
      providers without a NUL, which separates the two in the key), whose totals are those of
      its events; for created events it always exists and its token
      totals are exact.
    - A change of a configuration file is atomic: whatever calls fail and wherever the process
      stops, the file is the old or the new one.  Connecting changes one entry, can be
      repeated without effect, is recognised by the inspection and undone by disconnecting, up
      to an empty list of servers where there was none.

    ** Parameters

    SHA-256, HMAC and Ed25519 are the class [Crypto]; that hashes are 64 hexadecimal
    digits and that what is signed verifies are its laws [CryptoLaws].  AES-GCM, base64,
    key derivation, [JSON.parse] and [Number(text)] are the class [Platform], with
    [AeadLaws] for opening what was sealed; [localeCompare] is [Locale], a total order
    of texts by [LocaleLaws]; what a host
    reads as a date beyond the format of the standard is [Host]; paths and the process are
    [Node], and a function given to read files is [Readers].  Every class has a
    concrete instance, in [Hashing], [Dates], [Samples] and [ConnectorLifecycle], at which the theorems are
    applied.

    ** Bounds

    Loops over data are structural recursions.  The binary search of [Merkle] has the
    length of the list as fuel, which [lowerBound_correct] proves to be enough.
    Its middle is a natural number, while the
    code shifts a 32-bit integer, which differs beyond 2^30 entries.  Sequence numbers and counts are exact below [2^53], where the theorems that need it
    say so; numbers of at least [2^53] are compared by their printed decimals.  The search
    for a free backup name has the 1000 turns of the code.

    ** What is not modelled

    Values are trees: two references to one array are two values, so that an exported
    bundle shares no array with its vault here, while it does in the program; a
    prototype is only known to be [Object.prototype] or not, and what is inherited from it
    is not read (a connector called [__proto__], for example, reads own properties only);
    the replay of receipts takes the addresses of an event as texts; a [Date] argument is given
    by its ISO text; one call reads the clock once.  In the file system of the connectors two
    paths are two files and directories are left out; a call fails with [ENOENT] only for want
    of the file, where a theorem needs it ([honest]).  The other packages (storage, adapters,
    hosted-cloud, importers, mcp-server) are not modelled;
    the applications under [src/apps], the scripts and the services under
    [src/cortex-v3] are front ends, I/O or programs in other languages. *)

From stdpp Require Export base list strings sorting pretty gmap.
From Stdlib Require Export ZArith Lia.

#[export] Set Default Proof Using "Type*".

(** ** JavaScript strings

    A JavaScript string is a sequence of 16-bit code units. *)
Abbreviation jstr := (list N).

Definition units_of_string (s : string) : jstr :=
  (λ a, Ascii.N_of_ascii a) <$> String.list_ascii_of_string s.

Coercion units_of_string : string >-> list.

Declare Scope js_scope.
Delimit Scope js_scope with js.
Open Scope js_scope.

(** String concatenation ([+] and template literals of the source). *)
Notation "a +s+ b" := (@app N a b) (at level 60, right associativity) : js_scope.

Definition str_eqb (a b : jstr) : bool := bool_decide (a = b).

Notation "a =s= b" := (str_eqb a b) (at level 70, no associativity) : js_scope.

Lemma str_eqb_eq a b : (a =s= b) = true <-> a = b.
Proof. apply bool_decide_eq_true. Qed.

Lemma str_eqb_neq a b : (a =s= b) = false <-> a <> b.
Proof. apply bool_decide_eq_false. Qed.

Lemma str_eqb_refl a : (a =s= a) = true.
Proof. by apply str_eqb_eq. Qed.

(** [a < b] on strings: the lexicographic order of code units. *)
Fixpoint str_ltb (a b : jstr) : bool :=
  match a, b with
  | [], [] => false
  | [], _ :: _ => true
  | _ :: _, [] => false
  | x :: a', y :: b' => if (x =? y)%N then str_ltb a' b' else (x <? y)%N
  end.

Definition str_le (a b : jstr) : Prop := str_ltb b a = false.

#[export] Instance str_le_dec : RelDecision str_le.
Proof. intros a b. unfold str_le. apply _. Defined.

Lemma str_ltb_irrefl a : str_ltb a a = false.
Proof. induction a as [|x a IH]; [done|]; simpl. by rewrite N.eqb_refl. Qed.

Lemma str_ltb_trans a b c :
  str_ltb a b = true -> str_ltb b c = true -> str_ltb a c = true.
Proof.
  revert b c. induction a as [|x a IH]; intros [|y b] [|z c]; simpl; try done.
  destruct (N.eqb_spec x y), (N.eqb_spec y z), (N.eqb_spec x z);
    subst; try done; intros; try (apply N.ltb_lt); rewrite ?N.ltb_lt in *; try lia.
  eauto.
Qed.

Lemma str_ltb_connex a b : str_ltb a b = false -> str_ltb b a = false -> a = b.
Proof.
  revert b. induction a as [|x a IH]; intros [|y b]; simpl; try done.
  destruct (N.eqb_spec x y), (N.eqb_spec y x); subst; try done.
  - intros. f_equal; auto.
  - rewrite !N.ltb_ge. lia.
Qed.

Lemma str_ltb_neq a b : str_ltb a b = true -> a <> b.
Proof. intros H ->. by rewrite str_ltb_irrefl in H. Qed.

Lemma str_ltb_asym a b : str_ltb a b = true -> str_ltb b a = false.
Proof.
  intros H. destruct (str_ltb b a) eqn:E; [|done].
  pose proof (str_ltb_trans _ _ _ H E) as Haa. by rewrite str_ltb_irrefl in Haa.
Qed.

#[export] Instance str_le_refl : Reflexive str_le.
Proof. intros a. apply str_ltb_irrefl. Qed.

#[export] Instance str_le_trans : Transitive str_le.
Proof.
  intros a b c Hab Hbc. unfold str_le in *.
  destruct (str_ltb c a) eqn:Hca; [|done].
  destruct (decide (a = b)) as [->|Hne]; [congruence|].
  destruct (str_ltb a b) eqn:E.
  - rewrite (str_ltb_trans _ _ _ Hca E) in Hbc. done.
  - by destruct Hne; apply str_ltb_connex.
Qed.

#[export] Instance str_le_antisymm : AntiSymm (=) str_le.
Proof. intros a b Hab Hba. by apply str_ltb_connex. Qed.

#[export] Instance str_le_total : Total str_le.
Proof.
  intros a b. unfold str_le. destruct (str_ltb b a) eqn:E; [|by left].
  right. by apply str_ltb_asym.
Qed.

(** [Array.prototype.sort()] on an array of strings. *)
Definition sort_strings (l : list jstr) : list jstr := merge_sort str_le l.

Lemma sort_strings_perm l : sort_strings l ≡ₚ l.
Proof. apply merge_sort_Permutation. Qed.

Lemma sort_strings_sorted l : StronglySorted str_le (sort_strings l).
Proof. apply StronglySorted_merge_sort; apply _. Qed.

Lemma sort_strings_proper l1 l2 : l1 ≡ₚ l2 -> sort_strings l1 = sort_strings l2.
Proof.
  intros H. apply (StronglySorted_unique str_le); [apply sort_strings_sorted..|].
  by rewrite !sort_strings_perm.
Qed.

Lemma sort_strings_id l : StronglySorted str_le l -> sort_strings l = l.
Proof.
  intros H. apply (StronglySorted_unique str_le); [apply sort_strings_sorted|done|].
  apply sort_strings_perm.
Qed.

Lemma elem_of_sort_strings x l : x ∈ sort_strings l <-> x ∈ l.
Proof. by rewrite sort_strings_perm. Qed.

Lemma NoDup_sort_strings l : NoDup (sort_strings l) <-> NoDup l.
Proof. by rewrite sort_strings_perm. Qed.

Lemma length_sort_strings l : length (sort_strings l) = length l.
Proof. by rewrite sort_strings_perm. Qed.

(** [s.includes(t)], [s.startsWith(t)], [s.endsWith(t)]. *)
Fixpoint starts_with (t s : jstr) : bool :=
  match t, s with
  | [], _ => true
  | _ :: _, [] => false
  | x :: t', y :: s' => (x =? y)%N && starts_with t' s'
  end.

Fixpoint includes_str (t s : jstr) : bool :=
  starts_with t s ||
  match s with
  | [] => false
  | _ :: s' => includes_str t s'
  end.

Definition ends_with (t s : jstr) : bool := starts_with (reverse t) (reverse s).

(** [s.slice(0, n)] and [s.slice(n)] for a non-negative [n]. *)
Definition slice_to (n : nat) (s : jstr) : jstr := take n s.

Definition slice_from (n : nat) (s : jstr) : jstr := drop n s.

(** [items.join(sep)]. *)
Fixpoint join (sep : jstr) (items : list jstr) : jstr :=
  match items with
  | [] => []
  | [x] => x
  | x :: items' => x +s+ sep +s+ join sep items'
  end.

(** Decimal text of a natural number (template literals with an index). *)
Definition nat_str (n : nat) : jstr := units_of_string (pretty (N.of_nat n)).

Definition mem_str (x : jstr) (l : list jstr) : bool := bool_decide (x ∈ l).

Lemma mem_str_true x l : mem_str x l = true <-> x ∈ l.
Proof. apply bool_decide_eq_true. Qed.

Lemma mem_str_false x l : mem_str x l = false <-> x ∉ l.
Proof. apply bool_decide_eq_false. Qed.

(** JavaScript [Set] of strings: insertion order, no duplicates. *)
Definition set_add (x : jstr) (s : list jstr) : list jstr :=
  if mem_str x s then s else s ++ [x].

Definition set_delete (x : jstr) (s : list jstr) : list jstr :=
  filter (λ y, y <> x) s.

Definition set_of_list (l : list jstr) : list jstr :=
  foldl (λ s x, set_add x s) [] l.

Lemma elem_of_set_add x y s : x ∈ set_add y s <-> x = y \/ x ∈ s.
Proof.
  unfold set_add. destruct (mem_str y s) eqn:E.
  - apply mem_str_true in E. naive_solver.
  - rewrite elem_of_app, list_elem_of_singleton. naive_solver.
Qed.

Lemma set_add_new x s : x ∉ s -> set_add x s = s ++ [x].
Proof. intros H%mem_str_false. unfold set_add. by rewrite H. Qed.

Lemma NoDup_set_add x s : NoDup s -> NoDup (set_add x s).
Proof.
  intros H. unfold set_add. destruct (mem_str x s) eqn:E; [done|].
  apply mem_str_false in E. apply NoDup_app. split_and!; [done| |apply NoDup_singleton].
  intros y Hy ->%list_elem_of_singleton. done.
Qed.

Lemma elem_of_set_delete x y s : x ∈ set_delete y s <-> x ∈ s /\ x <> y.
Proof. unfold set_delete. rewrite list_elem_of_filter. tauto. Qed.

Lemma NoDup_set_delete x s : NoDup s -> NoDup (set_delete x s).
Proof. apply NoDup_filter. Qed.

Lemma elem_of_foldl_set_add x l s :
  x ∈ foldl (λ s x, set_add x s) s l <-> x ∈ s \/ x ∈ l.
Proof.
  revert s. induction l as [|y l IH]; intros s; simpl.
  - rewrite elem_of_nil. naive_solver.
  - rewrite IH, elem_of_set_add, elem_of_cons. naive_solver.
Qed.

Lemma elem_of_set_of_list x l : x ∈ set_of_list l <-> x ∈ l.
Proof. unfold set_of_list. rewrite elem_of_foldl_set_add, elem_of_nil. naive_solver. Qed.

Lemma NoDup_foldl_set_add l s :
  NoDup s -> NoDup (foldl (λ s x, set_add x s) s l).
Proof. revert s. induction l; intros s Hs; simpl; [done|]. auto using NoDup_set_add. Qed.

Lemma NoDup_set_of_list l : NoDup (set_of_list l).
Proof. apply NoDup_foldl_set_add, NoDup_nil_2. Qed.

Lemma NoDup_same_elements_perm (l1 l2 : list jstr) :
  NoDup l1 -> NoDup l2 -> (forall x, x ∈ l1 <-> x ∈ l2) -> l1 ≡ₚ l2.
Proof. intros. by apply NoDup_Permutation. Qed.

Lemma flat_map_nil {A B} (f : A -> list B) l :
  flat_map f l = [] <-> (forall x, x ∈ l -> f x = []).
Proof.
  induction l as [|x l IH]; simpl.
  - split; [intros _ x Hx; by apply elem_of_nil in Hx|done].
  - rewrite app_nil, IH. setoid_rewrite elem_of_cons. naive_solver.
Qed.

(** ** Exceptions

    A function of the source that may [throw] returns a [res]. *)
Inductive exn :=
  | TypeError (msg : jstr)
  | RangeError (msg : jstr)
  | PlainError (msg : jstr).

#[export] Instance exn_eq_dec : EqDecision exn.
Proof. solve_decision. Defined.

Definition exn_message (e : exn) : jstr :=
  match e with TypeError m | RangeError m | PlainError m => m end.

Inductive res (A : Type) :=
  | Ok (a : A)
  | Throw (e : exn).
Arguments Ok {A} a.
Arguments Throw {A} e.

Definition res_bind {A B} (m : res A) (k : A -> res B) : res B :=
  match m with Ok a => k a | Throw e => Throw e end.

Notation "'let!' x ':=' m 'in' k" :=
  (res_bind m (λ x, k)) (at level 10, x pattern, m at level 100, k at level 200,
   format "'[v' 'let!'  x  ':='  m  'in' '/' k ']'") : js_scope.

(** [throw e] when [b] holds, otherwise go on. *)
Notation "'throw_if' b 'with' e ; k" :=
  (if b then Throw e else k) (at level 10, b at level 100, e at level 100,
   k at level 200, format "'[v' 'throw_if'  b  'with'  e ; '/' k ']'") : js_scope.

Definition is_ok {A} (m : res A) : bool := match m with Ok _ => true | Throw _ => false end.

(** [try { m } catch { h }]. *)
Definition catch {A} (m : res A) (h : exn -> res A) : res A :=
  match m with Ok a => Ok a | Throw e => h e end.

Fixpoint map_res {A B} (f : A -> res B) (l : list A) : res (list B) :=
  match l with
  | [] => Ok []
  | a :: l' => let! b := f a in let! bs := map_res f l' in Ok (b :: bs)
  end.

Fixpoint imap_res_from {A B} (i : nat) (f : nat -> A -> res B) (l : list A) : res (list B) :=
  match l with
  | [] => Ok []
  | a :: l' => let! b := f i a in let! bs := imap_res_from (S i) f l' in Ok (b :: bs)
  end.

Definition imap_res {A B} (f : nat -> A -> res B) (l : list A) : res (list B) :=
  imap_res_from 0 f l.

Fixpoint foldl_res {A S} (f : S -> A -> res S) (s : S) (l : list A) : res S :=
  match l with
  | [] => Ok s
  | a :: l' => let! s' := f s a in foldl_res f s' l'
  end.

Lemma res_bind_ok {A B} (m : res A) (k : A -> res B) b :
  res_bind m k = Ok b <-> exists a, m = Ok a /\ k a = Ok b.
Proof. destruct m; simpl; naive_solver. Qed.

Lemma Ok_inj {A} (a b : A) : Ok a = Ok b -> a = b.
Proof. by intros [= ->]. Qed.

Lemma map_res_ok {A B} (f : A -> res B) l bs :
  map_res f l = Ok bs <-> Forall2 (λ a b, f a = Ok b) l bs.
Proof.
  revert bs. induction l as [|a l IH]; intros bs; simpl.
  - split; [by intros [= <-]|by inversion 1].
  - rewrite res_bind_ok. split.
    + intros (b & Hb & (bs' & Hbs & [= <-])%res_bind_ok). constructor; naive_solver.
    + inversion 1; subst. eexists; split; [done|]. apply res_bind_ok. naive_solver.
Qed.

Lemma imap_res_from_ok {A B} i (f : nat -> A -> res B) l bs :
  imap_res_from i f l = Ok bs ->
  length bs = length l /\
  forall k a, l !! k = Some a -> exists b, bs !! k = Some b /\ f (i + k) a = Ok b.
Proof.
  revert i bs. induction l as [|a l IH]; intros i bs; simpl.
  - intros [= <-]. split; [done|]. intros k a; by rewrite lookup_nil.
  - intros (b & Hb & (bs' & Hbs & [= <-])%res_bind_ok)%res_bind_ok.
    apply IH in Hbs as [Hlen Hk]. split; [simpl; congruence|].
    intros [|k] a'; simpl.
    + intros [= <-]. exists b. by rewrite Nat.add_0_r.
    + intros Ha. apply Hk in Ha as (b' & ? & ?). exists b'.
      by replace (i + S k) with (S i + k) by lia.
Qed.

Lemma imap_res_Forall {A B} (f : nat -> A -> res B) (P : B -> Prop) l bs :
  (forall i a b, f i a = Ok b -> P b) -> imap_res f l = Ok bs -> Forall P bs.
Proof.
  intros HP [Hlen Hk]%imap_res_from_ok. apply Forall_lookup. intros k b Hb.
  destruct (lookup_lt_is_Some_2 l k) as [a Ha].
  { rewrite <- Hlen. by eapply lookup_lt_Some. }
  destruct (Hk k a Ha) as (b' & Hb' & Hf). simplify_eq. by eapply HP.
Qed.

Lemma filter_all {A} (f : A -> bool) l : Forall (λ x, f x = true) l -> List.filter f l = l.
Proof. intros H. induction H as [|x l Hx _ IH]; [done|]. cbn [List.filter]. by rewrite Hx, IH. Qed.

Lemma filter_none {A} (f : A -> bool) l : Forall (λ x, f x = false) l -> List.filter f l = [].
Proof. intros H. induction H as [|x l Hx _ IH]; [done|]. cbn [List.filter]. by rewrite Hx. Qed.

(** ** Proof automation

    [inv_res] decomposes every successful run among the hypotheses. *)
Ltac inv_res :=
  repeat match goal with
    | H : res_bind _ _ = Ok _ |- _ => apply res_bind_ok in H as (? & ? & H)
    | H : (if ?b then Throw _ else _) = Ok _ |- _ =>
        let E := fresh "E" in destruct b eqn:E; [discriminate H|]
    | H : (if ?b then _ else Throw _) = Ok _ |- _ =>
        let E := fresh "E" in destruct b eqn:E; [|discriminate H]
    | H : Ok _ = Ok _ |- _ => apply Ok_inj in H; subst
    | H : Throw _ = Ok _ |- _ => discriminate H
    end.

Create HintDb js.
Create Rewrite HintDb js.
#[export] Hint Resolve NoDup_set_add NoDup_set_delete NoDup_set_of_list : js.
#[export] Hint Rewrite elem_of_set_add elem_of_set_delete elem_of_set_of_list
  elem_of_sort_strings str_eqb_eq str_eqb_neq mem_str_true mem_str_false : js.

(** Decide an equality of two closed strings. *)
Ltac str_decide := by (vm_compute; intuition congruence).
