(* ===== verification/JsValue.v ===== *)
(** * JavaScript values

    The fragment of JavaScript the packages of [src/packages] compute with:
    numbers, strings, arrays, plain objects with their property order, property
    reads and writes, [??], truthiness, [===], [String(v)] and
    [JSON.stringify].  Values are finite trees: the source's circularity checks
    ([WeakSet] of the objects on the current path) never fire on a tree. *)

From S2P Require Import Prelude.

(** ** Numbers

    [NInt z] is an integer with [|z| < 2^53].  [NDec m e] is every other finite
    number that is not zero: the double whose shortest decimal is [m * 10^e]
    (the digits ECMAScript's Number::toString prints), so [m mod 10 <> 0] and
    [e < 0] or [2^53 <= |m * 10^e|]. *)
Inductive jsnum :=
  | NInt (z : Z)
  | NNegZero
  | NDec (m e : Z)
  | NInf (neg : bool)
  | NNaN.

#[export] Instance jsnum_eq_dec : EqDecision jsnum.
Proof. solve_decision. Defined.

Definition num_is_finite (n : jsnum) : bool :=
  match n with NInf _ | NNaN => false | _ => true end.

Definition num_is_integer (n : jsnum) : bool :=
  match n with
  | NInt _ | NNegZero => true
  | NDec _ e => (0 <=? e)%Z
  | _ => false
  end.

(** A finite number as a decimal [m * 10^e]. *)
Definition num_decimal (n : jsnum) : Z * Z :=
  match n with NInt z => (z, 0) | NDec m e => (m, e) | _ => (0, 0) end%Z.

(** [a < b] on finite decimals: both sides are scaled to the lower exponent. *)
Definition dec_ltb (a b : Z * Z) : bool :=
  let e := Z.min a.2 b.2 in
  (a.1 * 10 ^ (a.2 - e) <? b.1 * 10 ^ (b.2 - e))%Z.

Definition num_ltb (a b : jsnum) : bool :=
  match a, b with
  | NNaN, _ | _, NNaN => false
  | NInf na, NInf nb => na && negb nb
  | NInf na, _ => na
  | _, NInf nb => negb nb
  | _, _ => dec_ltb (num_decimal a) (num_decimal b)
  end.

(** [a === b] on numbers: [NaN] differs from itself and [-0] equals [0]. *)
Definition num_seq (a b : jsnum) : bool :=
  match a, b with
  | NNaN, _ | _, NNaN => false
  | NNegZero, NInt 0 | NInt 0, NNegZero => true
  | _, _ => bool_decide (a = b)
  end.

(** The integer [r] rounded to a double, for [|r| < 2^54]. *)
Definition round_even (r : Z) : Z :=
  if (r mod 2 =? 0)%Z then r else if (r mod 4 =? 1)%Z then (r - 1)%Z else (r + 1)%Z.

Fixpoint strip_zeros (fuel : nat) (m e : Z) : Z * Z :=
  match fuel with
  | 0 => (m, e)
  | S fuel' => if (m mod 10 =? 0)%Z then strip_zeros fuel' (m / 10)%Z (e + 1)%Z else (m, e)
  end.

Definition int_result (r : Z) : jsnum :=
  if (Z.abs r <? 2 ^ 53)%Z then NInt r
  else let '(m, e) := strip_zeros 20 (round_even r) 0 in NDec m e.

(** [n + d] for a small integer [d].  The sum with a fraction is exact as long as it
    has no more digits than a double, and a number of at least [2^53] is left as it
    is: the additions of the source are on counters and indices. *)
Definition num_add (n : jsnum) (d : Z) : jsnum :=
  match n with
  | NInt z => int_result (z + d)
  | NNegZero => int_result d
  | NDec m e => if (e <? 0)%Z then NDec (m + d * 10 ^ (- e)) e else n
  | _ => n
  end.

(** The number [m * 10^e]. *)
Definition dec_result (m e : Z) : jsnum :=
  if (0 <=? e)%Z && (Z.abs (m * 10 ^ e) <? 2 ^ 53)%Z then NInt (m * 10 ^ e)
  else let '(m', e') := strip_zeros 400 m e in
       if (0 <=? e')%Z && (Z.abs (m' * 10 ^ e') <? 2 ^ 53)%Z then NInt (m' * 10 ^ e') else NDec m' e'.

(** [a - b].  The difference of integers is rounded as a double is; with a fraction or
    a number of at least [2^53] it is the difference of the printed decimals. *)
Definition num_sub (a b : jsnum) : jsnum :=
  match a, b with
  | NNaN, _ | _, NNaN => NNaN
  | NInf na, NInf nb => if Bool.eqb na nb then NNaN else NInf na
  | NInf na, _ => NInf na
  | _, NInf nb => NInf (negb nb)
  | NNegZero, NInt 0 => NNegZero
  | NInt x, NInt y => int_result (x - y)
  | _, _ =>
      let da := num_decimal a in
      let db := num_decimal b in
      let e := Z.min da.2 db.2 in
      dec_result (da.1 * 10 ^ (da.2 - e) - db.1 * 10 ^ (db.2 - e)) e
  end.

(** [Math.max(a, b)]. *)
Definition num_max (a b : jsnum) : jsnum :=
  match a, b with
  | NNaN, _ | _, NNaN => NNaN
  | NNegZero, NInt 0 => NInt 0
  | _, _ => if num_ltb a b then b else a
  end.

(** Number::toString for finite numbers, with the cases of the specification. *)
Definition zeros (n : Z) : jstr := replicate (Z.to_nat n) 48%N.

Definition dec_text (m e : Z) : jstr :=
  let digits := units_of_string (pretty (Z.abs_N m)) in
  let k := Z.of_nat (length digits) in
  let n := (k + e)%Z in
  let exponent := if (0 <=? n - 1)%Z then ("+" : jstr) +s+ units_of_string (pretty (n - 1)%Z)
                  else units_of_string (pretty (n - 1)%Z) in
  let body :=
    if ((k <=? n) && (n <=? 21))%Z then digits +s+ zeros (n - k)
    else if ((0 <? n) && (n <=? 21))%Z then
      take (Z.to_nat n) digits +s+ "." +s+ drop (Z.to_nat n) digits
    else if ((-6 <? n) && (n <=? 0))%Z then "0." +s+ zeros (- n) +s+ digits
    else if (k =? 1)%Z then digits +s+ "e" +s+ exponent
    else take 1 digits +s+ "." +s+ drop 1 digits +s+ "e" +s+ exponent in
  if (m <? 0)%Z then ("-" : jstr) +s+ body else body.

Definition num_text (n : jsnum) : jstr :=
  match n with
  | NInt z => units_of_string (pretty z)
  | NNegZero => "0"
  | NDec m e => dec_text m e
  | NInf false => "Infinity"
  | NInf true => "-Infinity"
  | NNaN => "NaN"
  end.

(** ** Values

    [VObj] is an object whose prototype is [Object.prototype] or [null];
    [VInst] is an instance of another class, with its own properties and the
    text [String(v)] gives; [VMap] is a [Map] with string keys; [VHole] is a
    missing element of a sparse array and stands only inside [VArr]; [VBytes] is a
    [Buffer], with the text it decodes to; [VOpaque]
    is a function, symbol or bigint with its text. *)
Inductive opaque_kind := OFunction | OSymbol | OBigint.

#[export] Instance opaque_kind_eq_dec : EqDecision opaque_kind.
Proof. solve_decision. Defined.

Unset Elimination Schemes.
Inductive jsval :=
  | VUndef
  | VNull
  | VBool (b : bool)
  | VNum (n : jsnum)
  | VStr (s : jstr)
  | VHole
  | VArr (items : list jsval)
  | VObj (fields : list (jstr * jsval))
  | VInst (text : jstr) (fields : list (jstr * jsval))
  | VMap (entries : list (jstr * jsval))
  | VSet (elems : list jsval)
  | VBytes (text : jstr) (bytes : list N)
  | VOpaque (k : opaque_kind) (text : jstr).
Set Elimination Schemes.

Section jsval_ind.
Variable P : jsval -> Prop.
Hypothesis P_undef : P VUndef.
Hypothesis P_null : P VNull.
Hypothesis P_bool : forall b, P (VBool b).
Hypothesis P_num : forall n, P (VNum n).
Hypothesis P_str : forall s, P (VStr s).
Hypothesis P_hole : P VHole.
Hypothesis P_arr : forall l, Forall P l -> P (VArr l).
Hypothesis P_obj : forall fs, Forall (λ kv, P kv.2) fs -> P (VObj fs).
Hypothesis P_inst : forall t fs, Forall (λ kv, P kv.2) fs -> P (VInst t fs).
Hypothesis P_map : forall fs, Forall (λ kv, P kv.2) fs -> P (VMap fs).
Hypothesis P_set : forall l, Forall P l -> P (VSet l).
Hypothesis P_bytes : forall t b, P (VBytes t b).
Hypothesis P_opaque : forall k t, P (VOpaque k t).

Fixpoint jsval_ind (v : jsval) : P v :=
  let fix list_all (l : list jsval) : Forall P l :=
    match l with
    | [] => List.Forall_nil _
    | x :: l' => List.Forall_cons _ _ _ (jsval_ind x) (list_all l')
    end in
  let fix fields_all (l : list (jstr * jsval)) : Forall (λ kv, P kv.2) l :=
    match l with
    | [] => List.Forall_nil _
    | x :: l' => List.Forall_cons _ _ _ (jsval_ind x.2) (fields_all l')
    end in
  match v with
  | VUndef => P_undef
  | VNull => P_null
  | VBool b => P_bool b
  | VNum n => P_num n
  | VStr s => P_str s
  | VHole => P_hole
  | VArr l => P_arr l (list_all l)
  | VObj fs => P_obj fs (fields_all fs)
  | VInst t fs => P_inst t fs (fields_all fs)
  | VMap fs => P_map fs (fields_all fs)
  | VSet l => P_set l (list_all l)
  | VBytes t b => P_bytes t b
  | VOpaque k t => P_opaque k t
  end.
End jsval_ind.

(** A literal of the source: strings and small integers as values. *)
Definition vstr (s : string) : jsval := VStr s.

Definition vint (z : Z) : jsval := VNum (NInt z).

Definition vnat (n : nat) : jsval := VNum (NInt (Z.of_nat n)).

(** ** Objects

    The own enumerable string-keyed properties of an object, in property order. *)
Abbreviation obj := (list (jstr * jsval)).

(** [o.k]: [undefined] when the property is absent. *)
Fixpoint fget (fs : obj) (k : jstr) : jsval :=
  match fs with
  | [] => VUndef
  | (k', v) :: fs' => if k' =s= k then v else fget fs' k
  end.

(** [Object.prototype.hasOwnProperty.call(o, k)]. *)
Fixpoint fhas (fs : obj) (k : jstr) : bool :=
  match fs with
  | [] => false
  | (k', _) :: fs' => (k' =s= k) || fhas fs' k
  end.

Definition keys (fs : obj) : list jstr := fs.*1.

(** An array index used as a property key precedes the other keys, in numeric
    order (OrdinaryOwnPropertyKeys). *)
Definition is_digit (c : N) : bool := (48 <=? c)%N && (c <=? 57)%N.

Definition digits_value (s : jstr) : N := foldl (λ acc c, 10 * acc + (c - 48))%N 0%N s.

Definition array_index (k : jstr) : option N :=
  match k with
  | [] => None
  | c :: k' =>
      if forallb is_digit k && (negb (c =? 48)%N || bool_decide (k' = []))
         && (digits_value k <? 4294967295)%N
      then Some (digits_value k) else None
  end.

Definition key_precedes (k k' : jstr) : bool :=
  match array_index k, array_index k' with
  | Some i, Some j => (i <? j)%N
  | Some _, None => true
  | None, _ => false
  end.

(** [o[k] = v]: an existing property keeps its place. *)
Fixpoint freplace (fs : obj) (k : jstr) (v : jsval) : obj :=
  match fs with
  | [] => []
  | (k', v') :: fs' => if k' =s= k then (k', v) :: fs' else (k', v') :: freplace fs' k v
  end.

Fixpoint finsert (fs : obj) (k : jstr) (v : jsval) : obj :=
  match fs with
  | [] => [(k, v)]
  | (k', v') :: fs' => if key_precedes k k' then (k, v) :: fs else (k', v') :: finsert fs' k v
  end.

Definition fset (fs : obj) (k : jstr) (v : jsval) : obj :=
  if fhas fs k then freplace fs k v else finsert fs k v.

(** [delete o[k]]; also the rest object of [const { k, ...rest } = o]. *)
Definition fdelete (fs : obj) (k : jstr) : obj := filter (λ kv : jstr * jsval, kv.1 <> k) fs.

(** [{ ...a, ...b }]. *)
Definition spread (a b : obj) : obj := foldl (λ acc kv, fset acc kv.1 kv.2) a b.

(** The properties of a value ([{ ...v }] and [v.k] on any non-nullish [v]). *)
Definition own_fields (v : jsval) : obj :=
  match v with VObj fs | VInst _ fs => fs | _ => [] end.

Definition vget (v : jsval) (k : jstr) : jsval := fget (own_fields v) k.

(** [v.k] throws on [undefined] and [null]. *)
Definition getx (v : jsval) (k : jstr) : res jsval :=
  match v with
  | VUndef | VNull | VHole => Throw (TypeError ("cannot read properties of nullish: " +s+ k))
  | _ => Ok (vget v k)
  end.

(** The properties [{ ...v }] copies: strings, arrays and buffers give their
    elements under their indices, a hole is skipped. *)
Definition index_key (i : nat) : jstr := nat_str i.

Definition spread_of (v : jsval) : obj :=
  match v with
  | VStr s => imap (λ i c, (index_key i, VStr [c])) s
  | VArr l => flat_map (λ kv : jstr * jsval, match kv.2 with VHole => [] | _ => [kv] end)
                (imap (λ i x, (index_key i, x)) l)
  | VBytes _ b => imap (λ i n, (index_key i, VNum (NInt (Z.of_N n)))) b
  | _ => own_fields v
  end.

(** ** Operators *)
Definition is_nullish (v : jsval) : bool := match v with VUndef | VNull | VHole => true | _ => false end.

Definition is_undef (v : jsval) : bool := match v with VUndef | VHole => true | _ => false end.

Definition coalesce (a b : jsval) : jsval := if is_nullish a then b else a.
Notation "a ?? b" := (coalesce a b) (at level 65, right associativity) : js_scope.

(** [a ?? b] where computing [b] may throw. *)
Definition coalesce_res (a : jsval) (b : res jsval) : res jsval := if is_nullish a then b else Ok a.
Notation "a ??! b" := (coalesce_res a b) (at level 65, right associativity) : js_scope.

Definition truthy (v : jsval) : bool :=
  match v with
  | VUndef | VNull | VHole => false
  | VBool b => b
  | VNum n => match n with NInt 0 | NNegZero | NNaN => false | _ => true end
  | VStr s => negb (s =s= [])
  | VOpaque OBigint t => negb (t =s= "0")
  | _ => true
  end.

(** [a === b]; two objects of the model are never the same reference. *)
Definition seq (a b : jsval) : bool :=
  match a, b with
  | VUndef, VUndef | VNull, VNull => true
  | VBool x, VBool y => Bool.eqb x y
  | VNum x, VNum y => num_seq x y
  | VStr x, VStr y => x =s= y
  | VOpaque k x, VOpaque k' y => bool_decide (k = k') && (x =s= y)
  | _, _ => false
  end.
Notation "a === b" := (seq a b) (at level 70, no associativity) : js_scope.
Notation "a !== b" := (negb (seq a b)) (at level 70, no associativity) : js_scope.

(** [includes] on arrays and [has] on sets use SameValueZero. *)
Definition same_value_zero (a b : jsval) : bool :=
  match a, b with VNum NNaN, VNum NNaN => true | _, _ => seq a b end.

Definition arr_includes (l : list jsval) (x : jsval) : bool := existsb (λ y, same_value_zero y x) l.

(** [new Set(l).size === l.length]. *)
Fixpoint all_distinct (l : list jsval) : bool :=
  match l with
  | [] => true
  | x :: l' => negb (arr_includes l' x) && all_distinct l'
  end.

(** [value !== null && typeof value === 'object' && !Array.isArray(value)]. *)
Definition is_record (v : jsval) : bool :=
  match v with VObj _ | VInst _ _ | VMap _ | VSet _ | VBytes _ _ => true | _ => false end.

(** The same, with a prototype that is [Object.prototype] or [null]. *)
Definition is_plain (v : jsval) : bool := match v with VObj _ => true | _ => false end.

Definition is_array (v : jsval) : bool := match v with VArr _ => true | _ => false end.

Definition is_string (v : jsval) : bool := match v with VStr _ => true | _ => false end.

Definition is_bool (v : jsval) : bool := match v with VBool _ => true | _ => false end.

Definition is_number (v : jsval) : bool := match v with VNum _ => true | _ => false end.

(** [typeof value === 'object'] and not [null]. *)
Definition is_object (v : jsval) : bool := is_record v || is_array v.

Definition non_empty_string (v : jsval) : bool :=
  match v with VStr s => negb (s =s= []) | _ => false end.

(** [Number.isInteger(v) && v >= 0]. *)
Definition is_integer (v : jsval) : bool := match v with VNum n => num_is_integer n | _ => false end.

Definition is_nonneg_integer (v : jsval) : bool :=
  match v with VNum n => num_is_integer n && negb (num_ltb n (NInt 0)) | _ => false end.

Definition is_finite_number (v : jsval) : bool := match v with VNum n => num_is_finite n | _ => false end.

Definition str_of (v : jsval) : jstr := match v with VStr s => s | _ => [] end.

Definition items_of (v : jsval) : list jsval := match v with VArr l => l | _ => [] end.

(** [set.has(v)] on a set of strings. *)
Definition set_has (l : list jstr) (v : jsval) : bool :=
  match v with VStr s => mem_str s l | _ => false end.

(** Reading an element of an array: a hole reads as [undefined]. *)
Definition elem (v : jsval) : jsval := match v with VHole => VUndef | _ => v end.

(** [items.map((item, index) => f(item, index))]: holes stay holes. *)
Definition map_items (f : nat -> jsval -> res jsval) (items : list jsval) : res (list jsval) :=
  imap_res (λ index item, match item with VHole => Ok VHole | _ => f index item end) items.

(** The items [for (const x of v)] visits; a string gives its code points. *)
Fixpoint code_points (s : jstr) : list jstr :=
  match s with
  | [] => []
  | c :: s' =>
      match s' with
      | d :: s'' => if ((55296 <=? c) && (c <=? 56319) && (56320 <=? d) && (d <=? 57343))%N
                    then [c; d] :: code_points s'' else [c] :: code_points s'
      | [] => [[c]]
      end
  end.

Definition iterate (v : jsval) : res (list jsval) :=
  match v with
  | VArr l => Ok (map elem l)
  | VSet l => Ok l
  | VStr s => Ok (map VStr (code_points s))
  | VMap fs => Ok (map (λ kv : jstr * jsval, VArr [VStr kv.1; kv.2]) fs)
  | VBytes _ b => Ok (map (λ n, VNum (NInt (Z.of_N n))) b)
  | _ => Throw (TypeError "value is not iterable")
  end.

(** [typeof v]. *)
Definition typeof (v : jsval) : jstr :=
  match v with
  | VUndef | VHole => "undefined"
  | VBool _ => "boolean"
  | VNum _ => "number"
  | VStr _ => "string"
  | VOpaque OFunction _ => "function"
  | VOpaque OSymbol _ => "symbol"
  | VOpaque OBigint _ => "bigint"
  | _ => "object"
  end.

(** [String(v)]. *)
Fixpoint to_str (v : jsval) : jstr :=
  match v with
  | VUndef | VHole => "undefined"
  | VNull => "null"
  | VBool true => "true"
  | VBool false => "false"
  | VNum n => num_text n
  | VStr s => s
  | VArr l => join "," (map (λ x, if is_nullish x then [] else to_str x) l)
  | VObj _ => "[object Object]"
  | VInst t _ => t
  | VMap _ => "[object Map]"
  | VSet _ => "[object Set]"
  | VBytes t _ => t
  | VOpaque _ t => t
  end.

(** [v + n] for an index [n]: addition on numbers and booleans, concatenation on
    strings and objects. *)
Definition plus_index (v : jsval) (n : nat) : res jsval :=
  match v with
  | VNum x => Ok (VNum (num_add x (Z.of_nat n)))
  | VBool b => Ok (vint (Z.of_nat n + if b then 1 else 0))
  | VNull => Ok (vnat n)
  | VUndef | VHole => Ok (VNum NNaN)
  | VOpaque OBigint _ => Throw (TypeError "Cannot mix BigInt and other types")
  | VOpaque OSymbol _ => Throw (TypeError "Cannot convert a Symbol value to a number")
  | _ => Ok (VStr (to_str v +s+ nat_str n))
  end.

(** ** JSON text

    QuoteJSONString: control characters, quotes, backslashes and lone surrogates
    are escaped. *)
Definition hex_digit (n : N) : N := if (n <? 10)%N then (48 + n)%N else (87 + n)%N.

Definition unicode_escape (c : N) : jstr :=
  [92; 117; hex_digit (c / 4096 mod 16); hex_digit (c / 256 mod 16);
   hex_digit (c / 16 mod 16); hex_digit (c mod 16)]%N.

Definition is_high_surrogate (c : N) : bool := (55296 <=? c)%N && (c <=? 56319)%N.

Definition is_low_surrogate (c : N) : bool := (56320 <=? c)%N && (c <=? 57343)%N.

Definition quote_unit (c : N) : jstr :=
  if (c =? 8)%N then [92; 98]%N
  else if (c =? 9)%N then [92; 116]%N
  else if (c =? 10)%N then [92; 110]%N
  else if (c =? 12)%N then [92; 102]%N
  else if (c =? 13)%N then [92; 114]%N
  else if (c =? 34)%N then [92; 34]%N
  else if (c =? 92)%N then [92; 92]%N
  else if (c <? 32)%N then unicode_escape c
  else if is_high_surrogate c || is_low_surrogate c then unicode_escape c
  else [c].

Fixpoint quote_body (s : jstr) : jstr :=
  match s with
  | [] => []
  | c :: s' =>
      match s' with
      | d :: s'' =>
          if is_high_surrogate c && is_low_surrogate d then c :: d :: quote_body s''
          else quote_unit c ++ quote_body s'
      | [] => quote_unit c
      end
  end.

Definition json_quote (s : jstr) : jstr := 34%N :: quote_body s ++ [34%N].

(** [JSON.stringify(v)]; [None] is [undefined].  A bigint throws. *)
Definition stringify_member (kt : jstr * option jstr) : list jstr :=
  match kt.2 with Some t => [json_quote kt.1 +s+ ":" +s+ t] | None => [] end.

Fixpoint json_stringify (v : jsval) : res (option jstr) :=
  match v with
  | VUndef | VHole => Ok None
  | VNull => Ok (Some ("null" : jstr))
  | VBool true => Ok (Some ("true" : jstr))
  | VBool false => Ok (Some ("false" : jstr))
  | VNum n => Ok (Some (if num_is_finite n then num_text n else "null"))
  | VStr s => Ok (Some (json_quote s))
  | VOpaque OBigint _ => Throw (TypeError "Do not know how to serialize a BigInt")
  | VOpaque _ _ => Ok None
  | VArr l =>
      let! parts := (fix go (l : list jsval) : res (list jstr) :=
         match l with
         | [] => Ok []
         | x :: l' =>
             let! t := json_stringify x in
             let! ts := go l' in
             Ok (default ("null" : jstr) t :: ts)
         end) l in
      Ok (Some ("[" +s+ join "," parts +s+ "]"))
  | VObj fs | VInst _ fs =>
      let! parts := (fix go (fs : list (jstr * jsval)) : res (list jstr) :=
         match fs with
         | [] => Ok []
         | kv :: fs' =>
             let! t := json_stringify kv.2 in
             let! ts := go fs' in
             Ok (stringify_member (kv.1, t) ++ ts)
         end) fs in
      Ok (Some ("{" +s+ join "," parts +s+ "}"))
  | VMap _ | VSet _ => Ok (Some ("{}" : jstr))
  | VBytes _ b =>
      Ok (Some ("{" +s+ json_quote "type" +s+ ":" +s+ json_quote "Buffer" +s+ ","
                +s+ json_quote "data" +s+ ":[" +s+ join "," (map (λ n, units_of_string (pretty n)) b)
                +s+ "]}"))
  end.

(** ** Lemmas on properties *)
Lemma fget_nil k : fget [] k = VUndef.
Proof. done. Qed.

Lemma fget_cons k' v fs k : fget ((k', v) :: fs) k = if k' =s= k then v else fget fs k.
Proof. done. Qed.

Lemma fhas_elem fs k : fhas fs k = true <-> k ∈ keys fs.
Proof.
  induction fs as [|[k' v] fs IH]; csimpl.
  - split; [done|]. by intros ?%elem_of_nil.
  - unfold keys in *. csimpl. rewrite orb_true_iff, str_eqb_eq, IH, elem_of_cons. naive_solver.
Qed.

Lemma fhas_false_fget fs k : fhas fs k = false -> fget fs k = VUndef.
Proof.
  induction fs as [|[k' v] fs IH]; csimpl; [done|].
  intros [-> ?]%orb_false_iff. auto.
Qed.

Lemma fget_freplace fs k v k' :
  fhas fs k = true -> fget (freplace fs k v) k' = if k =s= k' then v else fget fs k'.
Proof.
  induction fs as [|[k0 v0] fs IH]; csimpl; [done|].
  destruct (k0 =s= k) eqn:E; csimpl.
  - apply str_eqb_eq in E as ->. intros _. by destruct (k =s= k').
  - intros H. rewrite IH by done. destruct (k =s= k') eqn:E'; [|done].
    apply str_eqb_eq in E' as ->. by rewrite E.
Qed.

Lemma fget_finsert fs k v k' :
  fhas fs k = false -> fget (finsert fs k v) k' = if k =s= k' then v else fget fs k'.
Proof.
  induction fs as [|[k0 v0] fs IH]; csimpl; [done|].
  intros [E H]%orb_false_iff. destruct (key_precedes k k0); csimpl; [done|].
  rewrite IH by done. destruct (k0 =s= k') eqn:E0; [|done].
  apply str_eqb_eq in E0 as ->. destruct (k =s= k') eqn:E'; [|done].
  apply str_eqb_eq in E' as ->. by rewrite str_eqb_refl in E.
Qed.

Lemma fget_fset fs k v k' : fget (fset fs k v) k' = if k =s= k' then v else fget fs k'.
Proof.
  unfold fset. destruct (fhas fs k) eqn:E; [by apply fget_freplace|by apply fget_finsert].
Qed.

Lemma keys_freplace fs k v : keys (freplace fs k v) = keys fs.
Proof.
  unfold keys. induction fs as [|[k0 v0] fs IH]; csimpl; [done|].
  destruct (k0 =s= k) eqn:E; csimpl; by rewrite ?IH.
Qed.

Lemma finsert_perm fs k v : finsert fs k v ≡ₚ (k, v) :: fs.
Proof.
  induction fs as [|[k0 v0] fs IH]; csimpl; [done|].
  destruct (key_precedes k k0); [done|]. rewrite IH. constructor.
Qed.

Lemma elem_of_keys_fset fs k v k' : k' ∈ keys (fset fs k v) <-> k' = k \/ k' ∈ keys fs.
Proof.
  unfold fset. destruct (fhas fs k) eqn:E.
  - rewrite keys_freplace. apply fhas_elem in E. naive_solver.
  - unfold keys. rewrite finsert_perm. csimpl. by rewrite elem_of_cons.
Qed.

Lemma NoDup_keys_fset fs k v : NoDup (keys fs) -> NoDup (keys (fset fs k v)).
Proof.
  intros H. unfold fset. destruct (fhas fs k) eqn:E; [by rewrite keys_freplace|].
  unfold keys. rewrite finsert_perm. csimpl. apply NoDup_cons. split; [|done].
  rewrite <- not_true_iff_false in E. by rewrite fhas_elem in E.
Qed.

Lemma fget_fdelete fs k k' : fget (fdelete fs k) k' = if k =s= k' then VUndef else fget fs k'.
Proof.
  unfold fdelete. induction fs as [|[k0 v0] fs IH]; [by destruct (k =s= k')|].
  rewrite filter_cons. case_decide as D; csimpl in *.
  - rewrite IH. destruct (k0 =s= k') eqn:E; [|done].
    apply str_eqb_eq in E as ->. destruct (k =s= k') eqn:E'; [|done].
    apply str_eqb_eq in E' as ->. done.
  - rewrite IH, D. by destruct (k =s= k').
Qed.

Lemma elem_of_keys_fdelete fs k k' : k' ∈ keys (fdelete fs k) <-> k' ∈ keys fs /\ k' <> k.
Proof.
  unfold keys, fdelete. rewrite !list_elem_of_fmap. split.
  - intros ([k0 v] & -> & [? ?]%list_elem_of_filter). csimpl in *. split; [by exists (k0, v)|done].
  - intros [([k0 v] & -> & ?) ?]. exists (k0, v). by rewrite list_elem_of_filter.
Qed.

Lemma NoDup_keys_fdelete fs k : NoDup (keys fs) -> NoDup (keys (fdelete fs k)).
Proof.
  unfold keys, fdelete. induction fs as [|[k0 v0] fs IH]; [done|].
  rewrite fmap_cons. intros [Hn Hd]%NoDup_cons. rewrite filter_cons.
  case_decide; csimpl in *; [|auto].
  apply NoDup_cons. split; [|auto]. intros (kv & Hk & ?)%list_elem_of_fmap.
  apply Hn. apply list_elem_of_fmap. exists kv. split; [done|].
  by apply list_elem_of_filter in H0 as [? ?].
Qed.

(** [spread a b] reads as the last of [b]'s bindings, then as [a]. *)
Fixpoint flast (fs : obj) (k : jstr) : option jsval :=
  match fs with
  | [] => None
  | (k', v) :: fs' =>
      match flast fs' k with
      | Some w => Some w
      | None => if k' =s= k then Some v else None
      end
  end.

Lemma fget_spread a b k : fget (spread a b) k = default (fget a k) (flast b k).
Proof.
  revert a. induction b as [|[k' v] b IH]; intros a; csimpl; [done|].
  unfold spread in *. csimpl. rewrite IH, fget_fset.
  by destruct (flast b k), (k' =s= k).
Qed.

Lemma fhas_false_flast fs k : fhas fs k = false -> flast fs k = None.
Proof.
  induction fs as [|[k' v] fs IH]; csimpl; [done|]. intros [-> ?]%orb_false_iff. by rewrite IH.
Qed.

Lemma NoDup_keys_spread a b : NoDup (keys a) -> NoDup (keys (spread a b)).
Proof.
  revert a. induction b as [|[k' v] b IH]; intros a H; [done|].
  unfold spread in *. csimpl. by apply IH, NoDup_keys_fset.
Qed.

Lemma elem_of_keys_spread a b k : k ∈ keys (spread a b) <-> k ∈ keys a \/ k ∈ keys b.
Proof.
  revert a. induction b as [|[k' v] b IH]; intros a; unfold spread in *; csimpl.
  - split; [by left|]. by intros [?|?%elem_of_nil].
  - rewrite IH, elem_of_keys_fset. unfold keys. csimpl. rewrite elem_of_cons. naive_solver.
Qed.

Lemma VStr_inj a b : VStr a = VStr b -> a = b.
Proof. by intros [= ->]. Qed.

Lemma seq_str v s : (v === VStr s) = true <-> v = VStr s.
Proof.
  destruct v; csimpl; try (split; [done|]; by intros [=]).
  rewrite str_eqb_eq. naive_solver.
Qed.

Lemma non_empty_string_spec v :
  non_empty_string v = true <-> exists s, v = VStr s /\ s <> [].
Proof.
  destruct v; csimpl; try (split; [done|naive_solver]).
  rewrite negb_true_iff, str_eqb_neq. naive_solver.
Qed.

#[export] Hint Rewrite fget_fset fget_fdelete fget_spread : js.

(** [simp_str] evaluates comparisons of closed strings; [simp_get] reads known
    properties. *)
Ltac simp_str :=
  repeat match goal with
    | |- context [str_eqb ?a ?b] =>
        first [ progress replace (str_eqb a b) with true by (vm_compute; reflexivity)
              | progress replace (str_eqb a b) with false by (vm_compute; reflexivity) ]
    end.

Ltac simp_get :=
  repeat (rewrite ?fget_fset, ?fget_fdelete, ?fget_cons, ?fget_nil; simp_str; cbn beta iota).
