(* ===== verification/NumberText.v ===== *)
(** * The texts of numbers

    [num_text] is Number::toString.  A reader of decimals gives back the digits and the
    exponent that a text was printed from, in each of the layouts, so that two numbers in
    the form of [jsnum] with one text are one number. *)

From S2P Require Import Prelude JsValue.

(** ** Units *)
Definition is_num_unit (c : N) : bool := is_digit c || (c =? 45)%N.

Lemma pretty_N_char_digit x : is_digit (Ascii.N_of_ascii (pretty_N_char x)) = true.
Proof. unfold pretty_N_char. by repeat case_match. Qed.

Lemma pretty_N_go_digits x s :
  Forall (λ c, is_digit c = true) (units_of_string s) ->
  Forall (λ c, is_digit c = true) (units_of_string (pretty_N_go x s)).
Proof.
  revert s. induction (N.lt_wf_0 x) as [x _ IH]; intros s Hs.
  destruct (decide (x = 0)%N) as [->|Hx]; [done|].
  rewrite pretty_N_go_step by lia. apply IH; [apply N.div_lt; lia|].
  unfold units_of_string. csimpl. constructor; [apply pretty_N_char_digit|done].
Qed.

Lemma pretty_N_digits (x : N) :
  Forall (λ c, is_digit c = true) (units_of_string (pretty x)).
Proof.
  unfold pretty, pretty_N. case_decide; [by repeat constructor|].
  apply pretty_N_go_digits. constructor.
Qed.

Lemma pretty_Z_units (z : Z) :
  Forall (λ c, is_num_unit c = true) (units_of_string (pretty z)).
Proof.
  assert (forall x : N, Forall (λ c, is_num_unit c = true) (units_of_string (pretty x))) as HN.
  { intros x. eapply Forall_impl; [apply pretty_N_digits|]. unfold is_num_unit. intros c ->. done. }
  unfold pretty, pretty_Z. destruct z as [|p|p]; [by repeat constructor|apply HN|].
  unfold units_of_string. csimpl. constructor; [done|apply HN].
Qed.

Lemma units_of_string_inj s1 s2 : units_of_string s1 = units_of_string s2 -> s1 = s2.
Proof.
  revert s2. induction s1 as [|a s1 IH]; intros [|b s2]; try done.
  unfold units_of_string in *. csimpl. intros [= Hab Hs]. f_equal; [|auto].
  by rewrite <- (Ascii.ascii_N_embedding a), <- (Ascii.ascii_N_embedding b), Hab.
Qed.

Lemma pretty_Z_nonempty (z : Z) : exists c s, units_of_string (pretty z) = c :: s.
Proof.
  destruct (units_of_string (pretty z)) as [|c s] eqn:E; [|eauto].
  exfalso. change ([] : jstr) with (units_of_string "") in E. apply units_of_string_inj in E.
  assert (forall x : N, pretty x <> "") as HN.
  { intros x Hx. assert (pretty 0%N <> "") as H0 by done.
    unfold pretty, pretty_N in Hx. case_decide; [done|].
    assert (forall y s, (s <> "" \/ (0 < y)%N) -> pretty_N_go y s <> "") as Hgo.
    { intros y. induction (N.lt_wf_0 y) as [y _ IH]; intros s Hs.
      destruct (decide (y = 0)%N) as [->|Hy]; [rewrite pretty_N_go_0; naive_solver lia|].
      rewrite pretty_N_go_step by lia. apply IH; [apply N.div_lt; lia|by left]. }
    eapply Hgo; [|exact Hx]. right. lia. }
  destruct z as [|p|p]; [done|by eapply HN|done].
Qed.

(** The units of a number with a fraction or an exponent. *)
Definition is_dec_unit (c : N) : bool := is_num_unit c || (c =? 46)%N || (c =? 101)%N || (c =? 43)%N.

Lemma app_split_units (P : N -> bool) (a b r1 r2 : jstr) :
  Forall (λ c, P c = true) a -> Forall (λ c, P c = true) b ->
  (forall c, head r1 = Some c -> P c = false) -> (forall c, head r2 = Some c -> P c = false) ->
  a ++ r1 = b ++ r2 -> a = b /\ r1 = r2.
Proof.
  revert b. induction a as [|x a IH]; intros [|y b] Ha Hb H1 H2 E; csimpl in *; try done.
  - apply Forall_cons in Hb as [Hy _]. rewrite E in H1. specialize (H1 y eq_refl). congruence.
  - apply Forall_cons in Ha as [Hx _]. rewrite <- E in H2. specialize (H2 x eq_refl). congruence.
  - injection E as -> E. apply Forall_cons in Ha as [_ Ha], Hb as [_ Hb].
    destruct (IH b Ha Hb H1 H2 E) as [-> ->]. done.
Qed.

(** ** The value of digits *)
Definition digits (n : N) : jstr := units_of_string (pretty n).

Definition all_digits (s : jstr) : Prop := Forall (λ c, is_digit c = true) s.

Lemma digits_all n : all_digits (digits n).
Proof. apply pretty_N_digits. Qed.

Lemma digits_value_from (s : jstr) (acc : N) :
  foldl (λ acc c, 10 * acc + (c - 48))%N acc s = (acc * 10 ^ N.of_nat (length s) + digits_value s)%N.
Proof.
  unfold digits_value. revert acc. induction s as [|c s IH]; intros acc; cbn [foldl length]; [rewrite N.pow_0_r; lia|].
  rewrite (IH (10 * acc + _)%N), (IH (10 * 0 + _)%N), Nat2N.inj_succ, N.pow_succ_r'. lia.
Qed.

Lemma digits_value_app a b : digits_value (a ++ b) = (digits_value a * 10 ^ N.of_nat (length b) + digits_value b)%N.
Proof. unfold digits_value at 1. rewrite foldl_app. apply digits_value_from. Qed.

Lemma digits_value_zeros n : digits_value (replicate n 48%N) = 0%N.
Proof. induction n as [|n IH]; [done|]. cbn [replicate]. change (48%N :: ?l) with ([48%N] ++ l). by rewrite digits_value_app, IH. Qed.

Lemma digit_value x : (x < 10)%N -> Ascii.N_of_ascii (pretty_N_char x) = (48 + x)%N.
Proof.
  intros H. assert (x = 0 \/ x = 1 \/ x = 2 \/ x = 3 \/ x = 4 \/ x = 5 \/ x = 6 \/ x = 7 \/ x = 8 \/ x = 9)%N as Hx by lia.
  by repeat destruct Hx as [->|Hx]; try subst.
Qed.

Lemma read_digit n : (10 * 0 + (48 + n - 48) = n)%N.
Proof. lia. Qed.

Lemma pretty_go_value x s :
  digits_value (units_of_string (pretty_N_go x s))
  = (x * 10 ^ N.of_nat (length (units_of_string s)) + digits_value (units_of_string s))%N.
Proof.
  revert s. induction (N.lt_wf_0 x) as [x _ IH]; intros s.
  destruct (decide (x = 0)%N) as [->|Hx]; [by rewrite pretty_N_go_0|].
  rewrite pretty_N_go_step by lia. rewrite IH by (apply N.div_lt; lia).
  unfold units_of_string. csimpl. fold (units_of_string s). rewrite digit_value by (apply N.mod_lt; lia).
  change (?c :: ?l) with ([c] ++ l). rewrite digits_value_app. unfold digits_value at 1. cbn [foldl app length].
  rewrite Nat2N.inj_succ, N.pow_succ_r'. pose proof (N.div_mod x 10) as Hd. revert Hd. rewrite read_digit. generalize (10 ^ N.of_nat (length (units_of_string s)))%N (digits_value (units_of_string s)).
  generalize (x / 10)%N (x mod 10)%N. intros q r p v Hd. rewrite Hd by discriminate. lia.
Qed.

Lemma digits_value_digits n : digits_value (digits n) = n.
Proof.
  unfold digits, pretty, pretty_N. case_decide; [by subst|]. rewrite pretty_go_value. cbn. lia.
Qed.

Lemma pretty_of_N n : pretty (Z.of_N n) = pretty n.
Proof. by destruct n. Qed.

Lemma digits_cons n : exists c s, digits n = c :: s.
Proof. destruct (pretty_Z_nonempty (Z.of_N n)) as (c & s & H). rewrite pretty_of_N in H. by exists c, s. Qed.

(** ** Reading *)
Fixpoint span_digits (s : jstr) : jstr * jstr :=
  match s with
  | c :: s' => if is_digit c then let '(a, b) := span_digits s' in (c :: a, b) else ([], s)
  | [] => ([], [])
  end.

Definition read_fraction (s : jstr) : jstr * jstr :=
  match s with c :: s' => if (c =? 46)%N then span_digits s' else ([], s) | [] => ([], []) end.

Definition read_exponent (s : jstr) : Z :=
  match s with
  | _ :: c :: s' =>
      let n := Z.of_N (digits_value s') in if (c =? 45)%N then (- n)%Z else n
  | _ => 0%Z
  end.

(** The digits of a decimal as an integer, and its power of ten. *)
Definition read_decimal (s : jstr) : Z * Z :=
  let '(i, s1) := span_digits s in
  let '(f, s2) := read_fraction s1 in
  (Z.of_N (digits_value (i ++ f)), read_exponent s2 - Z.of_nat (length f))%Z.

Definition read_number (s : jstr) : bool * (Z * Z) :=
  match s with c :: s' => if (c =? 45)%N then (true, read_decimal s') else (false, read_decimal s) | [] => (false, (0, 0)%Z) end.

Lemma span_app d r :
  all_digits d -> (forall c, head r = Some c -> is_digit c = false) -> span_digits (d ++ r) = (d, r).
Proof.
  intros Hd Hr. induction Hd as [|c d Hc _ IH]; cbn [app span_digits].
  - destruct r as [|c r]; [done|]. cbn [span_digits]. by rewrite (Hr c eq_refl).
  - by rewrite Hc, IH.
Qed.

(** The text of an exponent. *)
Definition exponent_text (x : Z) : jstr :=
  "e" +s+ (if (0 <=? x)%Z then ("+" : jstr) +s+ units_of_string (pretty x) else units_of_string (pretty x)).

Lemma read_exponent_text x : read_exponent (exponent_text x) = x.
Proof.
  unfold exponent_text. destruct (Z.leb_spec 0 x) as [H|H].
  - rewrite <- (Z2N.id x) by lia. generalize (Z.to_N x). intros n. rewrite pretty_of_N. change (units_of_string (pretty n)) with (digits n).
    change (read_exponent _) with (Z.of_N (digits_value (digits n))). by rewrite digits_value_digits.
  - destruct x as [|p|p]; [done..|]. change (pretty (Z.neg p)) with ("-" +:+ pretty (N.pos p)).
    change (read_exponent _) with (- Z.of_N (digits_value (digits (N.pos p))))%Z. by rewrite digits_value_digits.
Qed.

(** The layouts of a decimal. *)
Lemma read_plain d r : all_digits d -> r = [] \/ (exists x, r = exponent_text x) ->
  read_decimal (d ++ r) = (Z.of_N (digits_value d), read_exponent r).
Proof.
  intros Hd Hr. unfold read_decimal. rewrite span_app; [|done|].
  - destruct Hr as [->|[x ->]]; cbn [read_fraction]; [by rewrite app_nil_r|].
    change (read_fraction (exponent_text x)) with (([] : jstr), exponent_text x). cbn [length]. by rewrite app_nil_r, Z.sub_0_r.
  - destruct Hr as [->|[x ->]]; intros c; [done|]. by intros [= <-].
Qed.

Lemma read_point d f r : all_digits d -> all_digits f -> r = [] \/ (exists x, r = exponent_text x) ->
  read_decimal (d ++ "." +s+ f ++ r) = (Z.of_N (digits_value (d ++ f)), read_exponent r - Z.of_nat (length f))%Z.
Proof.
  intros Hd Hf Hr. unfold read_decimal. rewrite span_app; [|done|by intros c [= <-]].
  change (read_fraction ("." +s+ f ++ r)) with (span_digits (f ++ r)). rewrite span_app; [done|done|].
  destruct Hr as [->|[x ->]]; intros c; [done|]. by intros [= <-].
Qed.

Lemma zeros_all n : all_digits (zeros n).
Proof. unfold all_digits, zeros. by apply Forall_replicate. Qed.

Lemma take_all n d : all_digits d -> all_digits (take n d).
Proof. apply Forall_take. Qed.

Lemma drop_all n d : all_digits d -> all_digits (drop n d).
Proof. apply Forall_drop. Qed.

Lemma digits_value_padded n d : digits_value (zeros n ++ d) = digits_value d.
Proof. unfold zeros. by rewrite digits_value_app, digits_value_zeros. Qed.

(** ** The layouts of [dec_text] *)
Definition dec_body (m e : Z) : jstr :=
  let d := digits (Z.abs_N m) in
  let k := Z.of_nat (length d) in
  let n := (k + e)%Z in
  if ((k <=? n) && (n <=? 21))%Z then d ++ zeros (n - k)
  else if ((0 <? n) && (n <=? 21))%Z then take (Z.to_nat n) d ++ "." +s+ drop (Z.to_nat n) d ++ []
  else if ((-6 <? n) && (n <=? 0))%Z then "0" +s+ "." +s+ (zeros (- n) ++ d) ++ []
  else if (k =? 1)%Z then d ++ exponent_text (n - 1)
  else take 1 d ++ "." +s+ drop 1 d ++ exponent_text (n - 1).

Lemma dec_text_body m e : dec_text m e = (if (m <? 0)%Z then ("-" : jstr) else []) ++ dec_body m e.
Proof.
  assert (forall b : jstr, (if (m <? 0)%Z then ("-" : jstr) +s+ b else b) = (if (m <? 0)%Z then ("-" : jstr) else []) ++ b)
    as Hs by (intros b; by destruct (m <? 0)%Z).
  unfold dec_text. cbv zeta. rewrite Hs. f_equal. unfold dec_body, exponent_text. cbv zeta.
  rewrite !app_nil_r. done.
Qed.

Lemma digits_length n : (1 <= length (digits n))%nat.
Proof. destruct (digits_cons n) as (c & s & ->). simpl. lia. Qed.

Lemma read_dec_body m e :
  exists j, (0 <= j)%Z /\ read_decimal (dec_body m e) = ((Z.abs m * 10 ^ j)%Z, (e - j)%Z).
Proof.
  unfold dec_body. pose proof (digits_all (Z.abs_N m)) as Hd. pose proof (digits_value_digits (Z.abs_N m)) as Hv.
  pose proof (digits_length (Z.abs_N m)) as Hk. assert (Z.of_N (Z.abs_N m) = Z.abs m) as Ha by lia.
  revert Hd Hv Hk. generalize (digits (Z.abs_N m)). intros d Hd Hv Hk. cbv zeta.
  set (k := Z.of_nat (length d)). 
  destruct ((k <=? k + e) && (k + e <=? 21))%Z eqn:E1; [|destruct ((0 <? k + e) && (k + e <=? 21))%Z eqn:E2;
    [|destruct ((-6 <? k + e) && (k + e <=? 0))%Z eqn:E3; [|destruct (k =? 1)%Z eqn:E4]]].
  - apply andb_true_iff in E1 as [H1%Z.leb_le H2%Z.leb_le]. exists e. split; [lia|].
    rewrite <- (app_nil_r (d ++ _)). rewrite read_plain; [|by apply Forall_app_2, zeros_all|by left].
    rewrite digits_value_app, Hv. unfold zeros at 2. rewrite digits_value_zeros, N.add_0_r, N2Z.inj_mul, N2Z.inj_pow, Ha.
    unfold zeros. rewrite length_replicate. f_equal; [|simpl; lia]. do 2 f_equal. lia.
  - exists 0%Z. split; [lia|]. apply andb_true_iff in E2 as [H1%Z.ltb_lt H2%Z.leb_le].
    apply andb_false_iff in E1 as [E1%Z.leb_gt|E1%Z.leb_gt]; [|lia].
    rewrite read_point; [|by apply take_all|by apply drop_all|by left].
    rewrite take_drop, Hv, Ha, length_drop. f_equal; [lia|]. simpl. lia.
  - exists 0%Z. split; [lia|]. apply andb_true_iff in E3 as [H1%Z.ltb_lt H2%Z.leb_le].
    change ("0" +s+ ?r) with ("0" ++ r).
    rewrite read_point; [|by repeat constructor|by apply Forall_app_2; [apply zeros_all|]|by left].
    change ("0" ++ zeros ?x ++ d) with (([48%N] ++ zeros x) ++ d).
    rewrite digits_value_app, Hv. rewrite digits_value_app. unfold zeros at 2. rewrite digits_value_zeros. rewrite length_app.
    unfold zeros. rewrite length_replicate. change (digits_value [48%N]) with 0%N. rewrite !N.mul_0_l, !N.add_0_l, Ha.
    f_equal; [lia|]. simpl. lia.
  - exists 0%Z. split; [lia|]. rewrite read_plain; [|done|right; by eexists].
    rewrite read_exponent_text, Hv, Ha. apply Z.eqb_eq in E4. f_equal; lia.
  - exists 0%Z. split; [lia|]. rewrite read_point; [|by apply take_all|by apply drop_all|right; by eexists].
    rewrite read_exponent_text, take_drop, Hv, Ha, length_drop. f_equal; lia.
Qed.

(** A text of decimals starts with a digit and has the units of decimals only. *)
Lemma digits_units d : all_digits d -> Forall (λ c, is_dec_unit c = true) d.
Proof. intros H. eapply Forall_impl; [exact H|]. unfold is_dec_unit, is_num_unit. by intros c ->. Qed.

Lemma num_units s : Forall (λ c, is_num_unit c = true) s -> Forall (λ c, is_dec_unit c = true) s.
Proof. intros H. eapply Forall_impl; [exact H|]. unfold is_dec_unit. by intros c ->. Qed.

Lemma exponent_units x : Forall (λ c, is_dec_unit c = true) (exponent_text x).
Proof.
  unfold exponent_text. apply Forall_app_2; [by repeat constructor|].
  destruct (0 <=? x)%Z; [apply Forall_app_2; [by repeat constructor|]|]; apply num_units, pretty_Z_units.
Qed.

Lemma all_digits_head c s : all_digits (c :: s) -> is_digit c = true.
Proof. intros H. by apply Forall_cons in H as [H _]. Qed.

Lemma point_unit : Forall (λ c, is_dec_unit c = true) (".": jstr).
Proof. by repeat constructor. Qed.

Lemma dec_body_units m e : Forall (λ c, is_dec_unit c = true) (dec_body m e).
Proof.
  unfold dec_body. pose proof (digits_all (Z.abs_N m)) as Hd. revert Hd. generalize (digits (Z.abs_N m)). intros d Hd. cbv zeta.
  pose proof (zeros_all) as Hz. pose proof point_unit as Hp. pose proof exponent_units as He.
  revert He. generalize exponent_text. intros text He. repeat case_match; repeat apply Forall_app_2; auto using digits_units, take_all, drop_all;
    by repeat constructor.
Qed.

Lemma dec_body_head m e : exists c s, dec_body m e = c :: s /\ is_digit c = true.
Proof.
  unfold dec_body. pose proof (digits_all (Z.abs_N m)) as Hd. destruct (digits_cons (Z.abs_N m)) as (c & s & E).
  rewrite E in *. apply all_digits_head in Hd. cbv zeta.
  repeat case_match; try by (eexists _, _; split; [reflexivity|]).
  destruct (Z.to_nat (Z.of_nat (length (c :: s)) + e)) as [|n] eqn:En; [|by eexists _, _].
  exfalso. rewrite andb_true_iff, Z.ltb_lt in *. lia.
Qed.

(** ** A text names one number *)
Lemma read_signed (neg : bool) (b : jstr) c s :
  b = c :: s -> is_digit c = true -> read_number ((if neg then "-" : jstr else []) ++ b) = (neg, read_decimal b).
Proof.
  intros -> Hc. destruct neg; [done|]. cbn [app read_number]. destruct (N.eqb_spec c 45) as [->|]; done.
Qed.

Lemma pretty_Z_signed z :
  units_of_string (pretty z) = (if (z <? 0)%Z then "-" : jstr else []) ++ digits (Z.abs_N z).
Proof. by destruct z. Qed.

(** The number read from a text: the sign, and the digits with trailing zeros. *)
Lemma read_num_text n :
  num_is_finite n = true ->
  exists j, (0 <= j)%Z /\
    read_number (num_text n)
    = (((num_decimal n).1 <? 0)%Z, ((Z.abs (num_decimal n).1 * 10 ^ j)%Z, ((num_decimal n).2 - j)%Z)).
Proof.
  intros Hf. destruct n as [z| |m e|[]|]; try done.
  - exists 0%Z. split; [lia|]. cbn [num_text num_decimal fst snd]. rewrite pretty_Z_signed.
    destruct (digits_cons (Z.abs_N z)) as (c & s & E). pose proof (digits_all (Z.abs_N z)) as Hd. rewrite E in Hd.
    rewrite (read_signed _ _ _ _ E) by by eapply all_digits_head.
    rewrite <- (app_nil_r (digits _)), read_plain by (try apply digits_all; by left).
    rewrite digits_value_digits. simpl. do 2 f_equal; lia.
  - by exists 0%Z.
  - destruct (read_dec_body m e) as (j & Hj & E). exists j. split; [done|].
    cbn [num_text num_decimal fst snd]. rewrite dec_text_body. destruct (dec_body_head m e) as (c & s & Eb & Hc).
    by rewrite (read_signed _ _ _ _ Eb Hc), E.
Qed.

(** The form of a number: an integer below [2^53] as itself, and any other number as the
    digits without trailing zeros and the power of ten. *)
Definition num_ok (n : jsnum) : bool :=
  match n with
  | NInt z => (Z.abs z <? 2 ^ 53)%Z
  | NDec m e => negb (m mod 10 =? 0)%Z && ((e <? 0) || (2 ^ 53 <=? Z.abs m * 10 ^ e))%Z
  | _ => true
  end.

Lemma shifted_digits m m' j j' :
  (0 <= j)%Z -> (0 <= j')%Z -> (m mod 10 <> 0)%Z -> (m' mod 10 <> 0)%Z ->
  (Z.abs m * 10 ^ j = Z.abs m' * 10 ^ j')%Z -> j = j'.
Proof.
  assert (forall m m' j j', (0 <= j < j')%Z -> (m mod 10 <> 0)%Z -> (Z.abs m * 10 ^ j = Z.abs m' * 10 ^ j')%Z -> False) as H.
  { clear. intros m m' j j' Hj Hm E. replace j' with (j + 1 + (j' - j - 1))%Z in E by lia.
    rewrite !Z.pow_add_r, Z.pow_1_r in E by lia. pose proof (Z.pow_pos_nonneg 10 j ltac:(lia) ltac:(lia)) as Hp.
    revert E Hp. generalize (10 ^ j)%Z (10 ^ (j' - j - 1))%Z. intros p q E Hp. apply Hm.
    assert (Z.abs m = 10 * (Z.abs m' * q))%Z as Ha by nia.
    destruct (Z.abs_eq_or_opp m) as [Hs|Hs]; rewrite Hs in Ha; [|apply (f_equal Z.opp) in Ha; rewrite Z.opp_involutive in Ha].
    - rewrite Ha, Z.mul_comm. apply Z.mod_mul. lia.
    - rewrite Ha. replace (- _)%Z with ((- (Z.abs m' * q)) * 10)%Z by lia. apply Z.mod_mul. lia. }
  intros Hj Hj' Hm Hm' E. destruct (Z.lt_trichotomy j j') as [Hl|[Hl|Hl]]; [|done|]; exfalso.
  - by eapply (H m m' j j').
  - by eapply (H m' m j' j).
Qed.

Lemma int_not_decimal z m e j j' :
  num_ok (NInt z) = true -> num_ok (NDec m e) = true -> (0 <= j)%Z -> (0 <= j')%Z ->
  (Z.abs z * 10 ^ j = Z.abs m * 10 ^ j')%Z -> (e = j' - j)%Z -> False.
Proof.
  cbn [num_ok]. rewrite andb_true_iff, orb_true_iff, negb_true_iff, Z.eqb_neq, Z.leb_le, !Z.ltb_lt.
  intros Hz [Hm He] Hj Hj' E ->. destruct (Z.le_gt_cases j j') as [Hl|Hl].
  - destruct He as [He|He]; [lia|]. replace j' with (j' - j + j)%Z in E by lia. rewrite Z.pow_add_r, Z.mul_assoc in E by lia.
    apply Z.mul_cancel_r in E; [lia|]. by apply Z.pow_nonzero; lia.
  - replace j with (j - j' - 1 + 1 + j')%Z in E by lia. rewrite Z.pow_add_r, Z.mul_assoc in E by lia.
    apply Z.mul_cancel_r in E; [|by apply Z.pow_nonzero; lia]. rewrite Z.pow_add_r, Z.pow_1_r, Z.mul_assoc in E by lia.
    apply Hm, Z.mod_divide; [lia|]. apply Z.divide_abs_r. rewrite <- E. by eexists.
Qed.

Lemma num_text_inj n1 n2 :
  num_ok n1 = true -> num_ok n2 = true -> num_is_finite n1 = true -> num_is_finite n2 = true ->
  n1 <> NNegZero -> n2 <> NNegZero -> num_text n1 = num_text n2 -> n1 = n2.
Proof.
  intros O1 O2 F1 F2 Z1 Z2 E. destruct (read_num_text n1 F1) as (j1 & J1 & R1), (read_num_text n2 F2) as (j2 & J2 & R2).
  rewrite E, R2 in R1. injection R1 as Es Ed Ee.
  destruct n1 as [x| |m1 e1|[]|], n2 as [y| |m2 e2|[]|]; try done; cbn [num_decimal fst snd] in *.
  - f_equal. assert (j1 = j2) as <- by lia. apply Z.mul_cancel_r in Ed; [|by apply Z.pow_nonzero; lia].
    destruct (Z.ltb_spec x 0), (Z.ltb_spec y 0); try done; lia.
  - by destruct (int_not_decimal x m2 e2 j1 j2 O1 O2 J1 J2); lia.
  - by destruct (int_not_decimal y m1 e1 j2 j1 O2 O1 J2 J1); lia.
  - cbn [num_ok] in *. rewrite andb_true_iff, negb_true_iff, Z.eqb_neq in O1, O2. destruct O1 as [O1 _], O2 as [O2 _].
    assert (j1 = j2) as <- by (eapply (shifted_digits m1 m2); eauto; lia).
    apply Z.mul_cancel_r in Ed; [|by apply Z.pow_nonzero; lia]. f_equal; [|lia].
    assert (m1 <> 0)%Z by (by intros ->). destruct (Z.ltb_spec m1 0), (Z.ltb_spec m2 0); try done; lia.
Qed.
