(* ===== verification/Objects.v ===== *)
(** * Objects as lists of properties

    Lemmas on objects that are built by adding properties at the end, which is what
    [{ ...body, hash }] does when the new names are not there and are no array indices. *)

From S2P Require Import Prelude JsValue.

Lemma spread_snoc fs k v :
  forallb (λ k', negb (k' =s= k) && negb (key_precedes k k')) (keys fs) = true -> spread fs [(k, v)] = fs ++ [(k, v)].
Proof.
  unfold spread. cbn [foldl fst snd]. unfold fset. intros H. assert (fhas fs k = false) as ->.
  { induction fs as [|[k' v'] fs IH]; [done|]. cbn in *. apply andb_true_iff in H as [[H%negb_true_iff _]%andb_true_iff Hf].
    rewrite H. by apply IH. }
  induction fs as [|[k' v'] fs IH]; [done|]. cbn in *.
  apply andb_true_iff in H as [[_ H%negb_true_iff]%andb_true_iff Hf]. rewrite H. by rewrite IH.
Qed.

Lemma keys_app (a b : obj) : keys (a ++ b) = keys a ++ keys b.
Proof. apply fmap_app. Qed.

Lemma fget_app_absent a b k : k ∉ keys a -> fget (a ++ b) k = fget b k.
Proof.
  induction a as [|[k' v] a IH]; [done|]. cbn. intros [Hne Hn]%not_elem_of_cons.
  rewrite (proj2 (str_eqb_neq k' k)) by congruence. by apply IH.
Qed.

Lemma fget_app_present a b k : k ∈ keys a -> fget (a ++ b) k = fget a k.
Proof.
  induction a as [|[k' v] a IH]; [by intros ?%elem_of_nil|]. cbn. intros H. destruct (k' =s= k) eqn:E; [done|].
  apply str_eqb_neq in E. apply elem_of_cons in H as [->|H]; [done|]. by apply IH.
Qed.

Lemma fdelete_absent fields k : k ∉ keys fields -> fdelete fields k = fields.
Proof.
  unfold fdelete, keys. induction fields as [|[k' v] fields IH]; [done|]. csimpl.
  intros [Hn Hi]%not_elem_of_cons. rewrite filter_cons_True by (simpl; congruence).
  by rewrite IH.
Qed.

Lemma fdelete_app a b k : fdelete (a ++ b) k = fdelete a k ++ fdelete b k.
Proof. apply filter_app. Qed.

Lemma fdelete_last fs k v : k ∉ keys fs -> fdelete (fs ++ [(k, v)]) k = fs.
Proof.
  intros H. rewrite fdelete_app, (fdelete_absent _ _ H). unfold fdelete. rewrite filter_cons_False by (cbn; auto).
  apply app_nil_r.
Qed.

(** The names [names] do not occur in [ks] and sort last, one after the other. *)
Fixpoint appended_keys (ks names : list jstr) : bool :=
  match names with
  | [] => true
  | n :: names' => forallb (λ k, negb (k =s= n) && negb (key_precedes n k)) ks && appended_keys (ks ++ [n]) names'
  end.

Lemma spread_append fs extra : appended_keys (keys fs) (keys extra) = true -> spread fs extra = fs ++ extra.
Proof.
  revert fs. induction extra as [|[k v] extra IH]; intros fs H; [by rewrite app_nil_r|].
  cbn [keys fmap list_fmap fst appended_keys] in H. apply andb_true_iff in H as [Hk H].
  change (spread fs ((k, v) :: extra)) with (spread (spread fs [(k, v)]) extra). rewrite (spread_snoc _ _ _ Hk), IH.
  - by rewrite <- app_assoc.
  - by rewrite keys_app.
Qed.

Lemma appended_keys_sub ks ks' names :
  (forall k, k ∈ ks' -> k ∈ ks) -> appended_keys ks names = true -> appended_keys ks' names = true.
Proof.
  revert ks ks'. induction names as [|n names IH]; intros ks ks' Hs; [done|]. cbn [appended_keys].
  intros [Hf H]%andb_true_iff. apply andb_true_iff. split.
  - rewrite forallb_forall in Hf |- *. intros k Hk%list_elem_of_In. by apply Hf, list_elem_of_In, Hs.
  - apply (IH (ks ++ [n])); [|done]. intros k. rewrite !elem_of_app. intros [Hk|Hk]; [left; by apply Hs|by right].
Qed.

Lemma fget_app_left a b k : k ∉ keys b -> fget (a ++ b) k = fget a k.
Proof.
  intros Hb. induction a as [|[k' v] a IH].
  - cbn. apply fhas_false_fget. destruct (fhas b k) eqn:E; [|done]. by apply fhas_elem in E.
  - cbn. by rewrite IH.
Qed.

(** Deleting a name that only the end of an object has. *)
Lemma fdelete_app_right a b k : k ∉ keys a -> fdelete (a ++ b) k = a ++ fdelete b k.
Proof. intros H. by rewrite fdelete_app, (fdelete_absent _ _ H). Qed.
