(* ===== verification/Doubles.v ===== *)
(** * Arithmetic of doubles

    [a + b], [a * b], [a / b] and the roundings of [Math] on numbers as the language has
    them: both decimals are read as doubles, the exact result is rounded to a double,
    ties to even, and the number is the shortest decimal that reads as it. *)

From S2P Require Import Prelude JsValue.

Open Scope Z_scope.

(** [n / d] rounded to an integer, ties to even, for [0 <= n] and [0 < d]. *)
Definition round_div (n d : Z) : Z :=
  let q := n / d in
  let r := n mod d in
  if (2 * r <? d) || ((2 * r =? d) && Z.even q) then q else q + 1.

(** [floor(log2(n / d))] for positive [n] and [d]. *)
Definition log2_div (n d : Z) : Z :=
  let l := Z.log2 n - Z.log2 d in
  if (if 0 <=? l then n <? d * 2 ^ l else n * 2 ^ (- l) <? d) then l - 1 else l.

(** [n * 2^k / d] as a fraction of integers. *)
Definition scaled (n d k : Z) : Z * Z := if 0 <=? k then (n * 2 ^ k, d) else (n, d * 2 ^ (- k)).

(** The double [f * 2^q] nearest to the positive [n / d], with [f < 2^53] and
    [-1074 <= q].  The exponent of a number beyond the range is not bounded here. *)
Definition to_double (n d : Z) : Z * Z :=
  let q := Z.max (log2_div n d - 52) (-1074) in
  let '(a, b) := scaled n d (- q) in
  let f := round_div a b in
  if f =? 2 ^ 53 then (2 ^ 52, q + 1) else (f, q).

(** [|m| * 10^e] as a fraction. *)
Definition dec_fraction (m e : Z) : Z * Z :=
  if 0 <=? e then (Z.abs m * 10 ^ e, 1) else (Z.abs m, 10 ^ (- e)).

(** The double of a finite number with its sign in [f]. *)
Definition num_double (n : jsnum) : Z * Z :=
  let '(m, e) := num_decimal n in
  if m =? 0 then (0, 0)
  else let '(a, b) := dec_fraction m e in let '(f, q) := to_double a b in (Z.sgn m * f, q).

(** The decimals of [k] digits next to the positive [n / d], given [10^(p-1) <= n/d < 10^p],
    the nearer one first. *)
Definition near_decimals (n d p k : Z) : list (Z * Z) :=
  let e := p - k in
  let '(a, b) := if 0 <=? e then (n, d * 10 ^ e) else (n * 10 ^ (- e), d) in
  let s := a / b in
  if 2 * (a mod b) <? b then [(s, e); (s + 1, e)] else [(s + 1, e); (s, e)].

(** Whether a positive decimal reads as the double [f * 2^q]. *)
Definition reads_as (f q : Z) (me : Z * Z) : bool :=
  (0 <? me.1) &&
  (let '(a, b) := dec_fraction me.1 me.2 in bool_decide (to_double a b = (f, q))).

Fixpoint shortest_from (fuel : nat) (n d p k f q : Z) : Z * Z :=
  match fuel with
  | O => hd (0, 0) (near_decimals n d p 17)
  | S fuel' =>
      match List.filter (reads_as f q) (near_decimals n d p k) with
      | me :: _ => me
      | [] => shortest_from fuel' n d p (k + 1) f q
      end
  end.

(** The number of decimal digits before the point: [10^(p-1) <= n/d < 10^p]. *)
Definition dec_digits (n d : Z) : Z :=
  let guess := log2_div n d * 30103 / 100000 in
  let below p := if 0 <=? p then n <? d * 10 ^ p else n * 10 ^ (- p) <? d in
  if below guess then guess else if below (guess + 1) then guess + 1 else guess + 2.

(** The positive double [f * 2^q] as a shortest decimal. *)
Definition shortest (f q : Z) : Z * Z :=
  let '(n, d) := scaled f 1 q in shortest_from 17 n d (dec_digits n d) 1 f q.

(** The number of the double nearest to [n / d], negated if [neg]. *)
Definition ratio_num (neg : bool) (n d : Z) : jsnum :=
  if n =? 0 then (if neg then NNegZero else NInt 0)
  else
    let '(f, q) := to_double n d in
    if f =? 0 then (if neg then NNegZero else NInt 0)
    else if 1024 <=? log2_div f 1 + q then NInf neg
    else let '(m, e) := shortest f q in dec_result (if neg then - m else m) e.

(** The number of the double nearest to [s * 2^q]. *)
Definition double_num (s q : Z) : jsnum :=
  if s =? 0 then NInt 0 else let '(n, d) := scaled (Z.abs s) 1 q in ratio_num (s <? 0) n d.

Definition num_plus (a b : jsnum) : jsnum :=
  match a, b with
  | NNaN, _ | _, NNaN => NNaN
  | NInf na, NInf nb => if Bool.eqb na nb then NInf na else NNaN
  | NInf na, _ => NInf na
  | _, NInf nb => NInf nb
  | NNegZero, n | n, NNegZero => n
  | NInt x, NInt y => int_result (x + y)
  | _, _ =>
      let '(f1, q1) := num_double a in
      let '(f2, q2) := num_double b in
      let q := Z.min q1 q2 in
      double_num (f1 * 2 ^ (q1 - q) + f2 * 2 ^ (q2 - q)) q
  end.

Definition num_is_neg (n : jsnum) : bool :=
  match n with NInt z => z <? 0 | NNegZero => true | NDec m _ => m <? 0 | NInf neg => neg | NNaN => false end.

Definition num_is_zero (n : jsnum) : bool := match n with NInt z => z =? 0 | NNegZero => true | _ => false end.

Definition signed_zero (neg : bool) : jsnum := if neg then NNegZero else NInt 0.

(** [a * b]. *)
Definition num_times (a b : jsnum) : jsnum :=
  let neg := xorb (num_is_neg a) (num_is_neg b) in
  match a, b with
  | NNaN, _ | _, NNaN => NNaN
  | NInf _, _ => if num_is_zero b then NNaN else NInf neg
  | _, NInf _ => if num_is_zero a then NNaN else NInf neg
  | _, _ =>
      if num_is_zero a || num_is_zero b then signed_zero neg
      else
        let '(f1, q1) := num_double a in
        let '(f2, q2) := num_double b in
        let '(n, d) := scaled (Z.abs (f1 * f2)) 1 (q1 + q2) in ratio_num neg n d
  end.

(** [a / b]. *)
Definition num_quot (a b : jsnum) : jsnum :=
  let neg := xorb (num_is_neg a) (num_is_neg b) in
  match a, b with
  | NNaN, _ | _, NNaN => NNaN
  | NInf _, NInf _ => NNaN
  | NInf _, _ => NInf neg
  | _, NInf _ => signed_zero neg
  | _, _ =>
      if num_is_zero b then (if num_is_zero a then NNaN else NInf neg)
      else if num_is_zero a then signed_zero neg
      else
        let '(f1, q1) := num_double a in
        let '(f2, q2) := num_double b in
        let '(n, d) := scaled (Z.abs f1) (Z.abs f2) (q1 - q2) in ratio_num neg n d
  end.

(** [Math.min(a, b)]. *)
Definition num_min (a b : jsnum) : jsnum :=
  match a, b with
  | NNaN, _ | _, NNaN => NNaN
  | NInt 0, NNegZero => NNegZero
  | _, _ => if num_ltb b a then b else a
  end.

(** [Math.round(n)] and [Math.ceil(n)]: a number that is no integer has a double
    [f * 2^q] with [q < 0]. *)
Definition num_round (n : jsnum) : jsnum :=
  match n with
  | NDec m e =>
      if 0 <=? e then n
      else
        let '(f, q) := num_double n in
        let r := (2 * f + 2 ^ (- q)) / 2 ^ (1 - q) in
        if (r =? 0) && (m <? 0) then NNegZero else NInt r
  | _ => n
  end.

Definition num_ceil (n : jsnum) : jsnum :=
  match n with
  | NDec m e =>
      if 0 <=? e then n
      else
        let '(f, q) := num_double n in
        let r := - ((- f) / 2 ^ (- q)) in
        if (r =? 0) && (m <? 0) then NNegZero else NInt r
  | _ => n
  end.

(** [Number.EPSILON]. *)
Definition EPSILON : jsnum := NDec 2220446049250313 (-31).

Close Scope Z_scope.

Example plus_tenths : num_plus (NDec 1 (-1)) (NDec 2 (-1)) = NDec 30000000000000004 (-17).
Proof. vm_compute. reflexivity. Qed.

Example plus_cancels : num_plus (NDec 15 (-1)) (NDec 5 (-1)) = NInt 2.
Proof. vm_compute. reflexivity. Qed.

Example plus_absorbs : num_plus (NDec 1 21) (NDec 1 (-1)) = NDec 1 21.
Proof. vm_compute. reflexivity. Qed.

Example third : num_quot (NInt 1) (NInt 3) = NDec 3333333333333333 (-16).
Proof. vm_compute. reflexivity. Qed.

Example times_tenths : num_times (NDec 1 (-1)) (NInt 3) = NDec 30000000000000004 (-17).
Proof. vm_compute. reflexivity. Qed.

Example round_half : num_round (NDec 25 (-1)) = NInt 3 /\ num_ceil (NDec 1 (-1)) = NInt 1.
Proof. vm_compute. split; reflexivity. Qed.
