(* ===== verification/Rounding.v ===== *)
(** * Differences and roundings of doubles

    [a - b] and [Math.floor] beside the operations of [Doubles], and the order of numbers
    with their minimum and their roundings: what a bound on a number says of the numbers
    that are computed from it. *)

From S2P Require Import Prelude JsValue Doubles.

Definition num_neg (n : jsnum) : jsnum :=
  match n with
  | NInt 0 => NNegZero
  | NInt z => NInt (- z)
  | NNegZero => NInt 0
  | NDec m e => NDec (- m) e
  | NInf neg => NInf (negb neg)
  | NNaN => NNaN
  end.

(** [a - b]. *)
Definition num_minus (a b : jsnum) : jsnum := num_plus a (num_neg b).

(** [Math.floor(n)]. *)
Definition num_floor (n : jsnum) : jsnum :=
  match n with
  | NDec m e =>
      if (0 <=? e)%Z then n
      else let '(f, q) := num_double n in NInt (f / 2 ^ (- q))
  | _ => n
  end.

(** [a <= b], false on [NaN]. *)
Definition num_le (a b : jsnum) : bool :=
  match a, b with NNaN, _ | _, NNaN => false | _, _ => negb (num_ltb b a) end.

Example minus_tenths : num_minus (NInt 1) (NDec 9 (-1)) = NDec 9999999999999998 (-17).
Proof. vm_compute. reflexivity. Qed.

Example floor_below : num_floor (NDec (-25) (-1)) = NInt (-3) /\ num_floor (NDec 29 (-1)) = NInt 2.
Proof. vm_compute. split; reflexivity. Qed.
