(* ===== verification/RoundingFacts.v ===== *)
(** * Bounds of computed numbers

    What a double between two integers gives when it is printed as a decimal, multiplied
    and rounded: the logarithm and the rounding of a fraction depend on its value alone and
    are monotone, so that the shortest decimal of a double reads within the bounds of the
    double. *)

From S2P Require Import Prelude JsValue Doubles Rounding.

Open Scope Z_scope.

Lemma round_div_bounds a d lo hi :
  0 < d -> (lo * d <= a -> lo <= round_div a d) /\ (a <= hi * d -> round_div a d <= hi).
Proof.
  intros Hd. unfold round_div. pose proof (Z.div_mod a d ltac:(lia)). pose proof (Z.mod_pos_bound a d Hd).
  split; intros Hb.
  - assert (lo <= a / d) by (apply Z.div_le_lower_bound; lia). destruct (_ || _); lia.
  - destruct (Z.eq_dec (a / d) hi) as [E|Hne].
    + rewrite E in *. assert (a mod d = 0) as -> by lia. destruct (Z.ltb_spec (2 * 0) d); simpl; lia.
    + assert (a / d <= hi) by (apply Z.div_le_upper_bound; lia). destruct (_ || _); lia.
Qed.

Lemma round_div_scale a d c : 0 < d -> 0 < c -> round_div (a * c) (d * c) = round_div a d.
Proof.
  intros Hd Hc. unfold round_div. rewrite Z.div_mul_cancel_r, Z.mul_mod_distr_r by lia.
  replace (2 * (a mod d * c)) with (2 * (a mod d) * c) by lia.
  assert ((2 * (a mod d) * c <? d * c) = (2 * (a mod d) <? d)) as -> by (apply eq_true_iff_eq; rewrite !Z.ltb_lt; nia).
  assert ((2 * (a mod d) * c =? d * c) = (2 * (a mod d) =? d)) as -> by (apply eq_true_iff_eq; rewrite !Z.eqb_eq; nia).
  done.
Qed.

(** [2^l <= n / d < 2^(l+1)], both sides times [2^N]. *)
Definition log_of (n d l : Z) : Prop :=
  forall N, 0 <= N -> 0 <= l + N -> d * 2 ^ (l + N) <= n * 2 ^ N < d * 2 ^ (l + N) * 2.

Lemma pow2_pos x : 0 <= x -> 0 < 2 ^ x.
Proof. intros. by apply Z.pow_pos_nonneg. Qed.

Lemma pow2_add a b : 0 <= a -> 0 <= b -> 2 ^ (a + b) = 2 ^ a * 2 ^ b.
Proof. intros. by apply Z.pow_add_r. Qed.

Lemma between_mul a b c p : 0 < p -> a <= b < c <-> a * p <= b * p < c * p.
Proof. intros Hp. by rewrite <- Z.mul_le_mono_pos_r, <- Z.mul_lt_mono_pos_r by done. Qed.

Lemma log_of_one n d l N :
  0 <= N -> 0 <= l + N -> d * 2 ^ (l + N) <= n * 2 ^ N < d * 2 ^ (l + N) * 2 -> log_of n d l.
Proof.
  assert (forall N M, 0 <= N -> 0 <= l + N -> N <= M ->
            d * 2 ^ (l + N) <= n * 2 ^ N < d * 2 ^ (l + N) * 2 <-> d * 2 ^ (l + M) <= n * 2 ^ M < d * 2 ^ (l + M) * 2) as Hstep.
  { intros N' M ? ? ?. rewrite (between_mul _ _ _ (2 ^ (M - N'))) by (apply pow2_pos; lia).
    assert (2 ^ (l + M) = 2 ^ (l + N') * 2 ^ (M - N')) as -> by (rewrite <- pow2_add by lia; f_equal; lia).
    assert (2 ^ M = 2 ^ N' * 2 ^ (M - N')) as -> by (rewrite <- pow2_add by lia; f_equal; lia).
    rewrite !Z.mul_assoc. replace (d * 2 ^ (l + N') * 2 * 2 ^ (M - N')) with (d * 2 ^ (l + N') * 2 ^ (M - N') * 2) by ring.
    reflexivity. }
  intros HN Hl H M HM HlM. destruct (Z.le_ge_cases N M).
  - by apply (Hstep N M).
  - by apply (Hstep M N).
Qed.

Lemma log2_div_spec n d : 0 < n -> 0 < d -> log_of n d (log2_div n d).
Proof.
  intros Hn Hd. unfold log2_div. set (a := Z.log2 n). set (b := Z.log2 d). set (L := a - b). cbv zeta.
  pose proof (Z.log2_spec n Hn) as [An An']. pose proof (Z.log2_spec d Hd) as [Bd Bd'].
  fold a in An, An'. fold b in Bd, Bd'. pose proof (Z.log2_nonneg n). pose proof (Z.log2_nonneg d).
  fold a in H. fold b in H0.
  rewrite Z.pow_succ_r in An', Bd' by done.
  assert (forall N, 0 <= N -> 0 <= L - 1 + N -> d * 2 ^ (L - 1 + N) <= n * 2 ^ N < d * 2 ^ (L - 1 + N) * 4) as Hroom.
  { intros N HN HL. pose proof (pow2_pos N HN). pose proof (pow2_pos (L - 1 + N) HL).
    assert (2 ^ b * 2 ^ (L - 1 + N) * 2 = 2 ^ a * 2 ^ N) as E.
    { rewrite <- !pow2_add by lia. rewrite Z.mul_comm, <- Z.pow_succ_r by lia. f_equal. lia. }
    nia. }
  pose (N := Z.abs L + 1). assert (0 <= N /\ 0 <= L - 1 + N) as [HN HL] by lia.
  specialize (Hroom N HN HL).
  assert (2 ^ (L + N) = 2 * 2 ^ (L - 1 + N)) as E by (rewrite <- Z.pow_succ_r by lia; f_equal; lia).
  assert ((if 0 <=? L then n <? d * 2 ^ L else n * 2 ^ (- L) <? d) = (n * 2 ^ N <? d * 2 ^ (L + N))) as ->.
  { destruct (Z.leb_spec 0 L); apply eq_true_iff_eq; rewrite !Z.ltb_lt.
    - rewrite pow2_add by lia. pose proof (pow2_pos N HN). nia.
    - replace N with (- L + (L + N)) at 1 by lia. rewrite pow2_add by lia.
      pose proof (pow2_pos (L + N) ltac:(lia)). nia. }
  destruct (Z.ltb_spec (n * 2 ^ N) (d * 2 ^ (L + N))).
  - apply (log_of_one _ _ _ N); lia.
  - apply (log_of_one _ _ _ N); lia.
Qed.

Lemma log_of_le n d l l' : 0 < d -> log_of n d l -> (forall N, 0 <= N -> 0 <= l' + N -> n * 2 ^ N < d * 2 ^ (l' + N) * 2) -> l <= l'.
Proof.
  intros Hd H H'. destruct (Z.le_gt_cases l l') as [|Hlt]; [done|]. exfalso.
  set (N := Z.abs l + Z.abs l'). specialize (H N ltac:(lia) ltac:(lia)). specialize (H' N ltac:(lia) ltac:(lia)).
  replace (l + N) with ((l' + N) + 1 + (l - l' - 1)) in H by lia.
  rewrite !pow2_add in H by lia. change (2 ^ 1) with 2 in H.
  pose proof (pow2_pos (l - l' - 1) ltac:(lia)). pose proof (pow2_pos (l' + N) ltac:(lia)). 
  assert (0 < d * 2 ^ (l' + N)) by nia. nia.
Qed.

Lemma log2_div_unique n d l : 0 < n -> 0 < d -> log_of n d l -> log2_div n d = l.
Proof.
  intros Hn Hd H. pose proof (log2_div_spec n d Hn Hd) as H'.
  assert (l <= log2_div n d) by (apply (log_of_le n d); [done|done|]; intros N ? ?; by apply H').
  assert (log2_div n d <= l) by (apply (log_of_le n d); [done|done|]; intros N ? ?; by apply H). lia.
Qed.

Lemma log2_div_scale n d c : 0 < n -> 0 < d -> 0 < c -> log2_div (n * c) (d * c) = log2_div n d.
Proof.
  intros Hn Hd Hc. apply log2_div_unique; [nia|nia|]. intros N ? ?.
  pose proof (log2_div_spec n d Hn Hd N ltac:(done) ltac:(done)). nia.
Qed.

Lemma log2_div_le n d l : 0 < n -> 0 < d -> 0 <= l -> n < d * 2 ^ (l + 1) -> log2_div n d <= l.
Proof.
  intros Hn Hd Hl H. apply (log_of_le n d); [done|by apply log2_div_spec|]. intros N ? ?.
  rewrite pow2_add in * by lia. change (2 ^ 1) with 2 in H. pose proof (pow2_pos N ltac:(lia)). nia.
Qed.

(** ** Readings *)
Lemma to_double_scale n d c : 0 < n -> 0 < d -> 0 < c -> to_double (n * c) (d * c) = to_double n d.
Proof.
  intros Hn Hd Hc. unfold to_double. rewrite log2_div_scale by done. cbv zeta.
  set (q := Z.max _ _). unfold scaled. destruct (0 <=? - q) eqn:E.
  - replace (n * c * 2 ^ (- q)) with (n * 2 ^ (- q) * c) by lia. by rewrite round_div_scale.
  - replace (d * c * 2 ^ (- - q)) with (d * 2 ^ (- - q) * c) by lia. rewrite round_div_scale; [done| |done].
    apply Z.leb_gt in E. pose proof (pow2_pos (- - q) ltac:(lia)). nia.
Qed.

(** A double between two integers, zero or with digits after the point. *)
Definition double_in (lo hi : Z) (fq : Z * Z) : Prop :=
  (fq.2 < 0 \/ fq = (0, 0)) /\ lo * 2 ^ (- fq.2) <= fq.1 <= hi * 2 ^ (- fq.2).

Lemma to_double_bounds n d f q lo hi :
  0 < d -> to_double n d = (f, q) -> q < 0 ->
  (lo * d <= n -> lo * 2 ^ (- q) <= f) /\ (n <= hi * d -> f <= hi * 2 ^ (- q)).
Proof.
  intros Hd. unfold to_double. set (q0 := Z.max _ _). cbv zeta. intros H Hq.
  assert (q0 < 0) as Hq0.
  { destruct (scaled n d (- q0)). destruct (_ =? _); injection H; intros; lia. }
  unfold scaled in H. rewrite (proj2 (Z.leb_le 0 (- q0))) in H by lia.
  pose proof (pow2_pos (- q0) ltac:(lia)) as Hp.
  pose proof (round_div_bounds (n * 2 ^ (- q0)) d (lo * 2 ^ (- q0)) (hi * 2 ^ (- q0)) Hd) as [B1 B2].
  destruct (Z.eqb_spec (round_div (n * 2 ^ (- q0)) d) (2 ^ 53)) as [E|_]; injection H as <- <-.
  - rewrite E in B1, B2. replace (- q0) with (- (q0 + 1) + 1) in B1, B2, Hp by lia.
    rewrite pow2_add in B1, B2, Hp by lia. change (2 ^ 1) with 2 in *. change (2 ^ 53) with (2 ^ 52 * 2) in *.
    split; nia.
  - split; nia.
Qed.

Lemma to_double_exp n d f q : 0 < n -> 0 < d -> n < d * 2 ^ 50 -> to_double n d = (f, q) -> q < 0.
Proof.
  intros Hn Hd Hb. unfold to_double. set (q0 := Z.max _ _). cbv zeta.
  assert (q0 < -1) as Hq0. { pose proof (log2_div_le n d 49 Hn Hd ltac:(lia) Hb). lia. }
  destruct (scaled n d (- q0)). destruct (_ =? _); intros H; injection H; intros; lia.
Qed.

Lemma to_double_in n d lo hi :
  0 < n -> 0 < d -> hi < 2 ^ 50 -> lo * d <= n <= hi * d -> double_in lo hi (to_double n d).
Proof.
  intros Hn Hd Hhi [H1 H2]. destruct (to_double n d) as [f q] eqn:E.
  assert (q < 0) as Hq by (eapply to_double_exp; [exact Hn|exact Hd| |exact E]; nia).
  destruct (to_double_bounds n d f q lo hi Hd E Hq). split; simpl; [lia|]. split; auto.
Qed.

(** ** Decimals *)
Lemma pow10_pos e : 0 <= e -> 0 < 10 ^ e.
Proof. intros. by apply Z.pow_pos_nonneg. Qed.

Lemma dec_fraction_pos m e : 0 < m -> 0 < (dec_fraction m e).1 /\ 0 < (dec_fraction m e).2.
Proof.
  intros Hm. unfold dec_fraction. destruct (Z.leb_spec 0 e); simpl.
  - pose proof (pow10_pos e). rewrite Z.abs_eq by lia. nia.
  - pose proof (pow10_pos (- e)). lia.
Qed.

Lemma strip_zeros_value fuel m e m' e' :
  strip_zeros fuel m e = (m', e') -> exists k, 0 <= k /\ e' = e + k /\ m = m' * 10 ^ k.
Proof.
  revert m e. induction fuel as [|fuel IH]; intros m e H; simpl in H.
  - injection H as <- <-. exists 0. lia.
  - destruct (Z.eqb_spec (m mod 10) 0) as [E|_].
    + destruct (IH _ _ H) as (k & Hk & He & Hm). exists (k + 1). rewrite Z.pow_add_r by lia.
      pose proof (Z.div_mod m 10 ltac:(lia)). rewrite E, Hm in *. split; [lia|]. split; [lia|]. lia.
    + injection H as <- <-. exists 0. lia.
Qed.

(** The fraction of a decimal with zeros taken off. *)
Lemma to_double_stripped m k e : 0 < m -> 0 <= k ->
  (let '(a, b) := dec_fraction (m * 10 ^ k) e in to_double a b) = (let '(a, b) := dec_fraction m (e + k) in to_double a b).
Proof.
  intros Hm Hk. pose proof (pow10_pos k Hk). unfold dec_fraction. rewrite !Z.abs_eq by nia.
  destruct (Z.leb_spec 0 e), (Z.leb_spec 0 (e + k)); [|lia| |].
  - f_equal. rewrite <- Z.mul_assoc, <- Z.pow_add_r by lia. f_equal. f_equal. lia.
  - replace (m * 10 ^ k) with (m * 10 ^ (e + k) * 10 ^ (- e)).
    + rewrite <- (Z.mul_1_l (10 ^ (- e))) at 2. apply to_double_scale; [|lia|apply pow10_pos; lia].
      pose proof (pow10_pos (e + k) ltac:(lia)). nia.
    + rewrite <- Z.mul_assoc, <- Z.pow_add_r by lia. do 2 f_equal. lia.
  - replace (10 ^ (- e)) with (10 ^ (- (e + k)) * 10 ^ k) by (rewrite <- Z.pow_add_r by lia; f_equal; lia).
    apply to_double_scale; [lia|apply pow10_pos; lia|done].
Qed.

(** A number that is no integer reads as a double between the bounds. *)
Definition num_in (lo hi : Z) (n : jsnum) : Prop :=
  match n with
  | NInt z => lo <= z <= hi
  | NNegZero => lo <= 0 <= hi
  | NDec m e => e < 0 /\ 0 <= m /\ double_in lo hi (num_double n)
  | _ => False
  end.

Lemma read_integer z lo hi fq :
  0 < z -> fq.2 < 0 -> to_double z 1 = fq -> double_in lo hi fq -> lo <= z <= hi.
Proof.
  destruct fq as [f q]. simpl. intros Hz Hq E [_ Hf]. simpl in Hf.
  destruct (to_double_bounds z 1 f q (hi + 1) (lo - 1) ltac:(lia) E Hq) as [B1 B2].
  pose proof (pow2_pos (- q) ltac:(lia)). split.
  - destruct (Z.lt_ge_cases (lo - 1) z); [lia|]. assert (f <= (lo - 1) * 2 ^ (- q)) by (apply B2; lia). nia.
  - destruct (Z.le_gt_cases z hi); [done|]. assert ((hi + 1) * 2 ^ (- q) <= f) by (apply B1; lia). nia.
Qed.

Lemma small_integer z hi : 0 <= z <= hi -> hi < 2 ^ 50 -> (Z.abs z <? 2 ^ 53) = true.
Proof. intros ? ?. apply Z.ltb_lt. rewrite Z.abs_eq by lia. lia. Qed.

Lemma dec_result_in m e lo hi fq :
  0 < m -> fq.2 < 0 -> (let '(a, b) := dec_fraction m e in to_double a b) = fq -> double_in lo hi fq -> hi < 2 ^ 50 ->
  num_in lo hi (dec_result m e).
Proof.
  intros Hm Hq E Hin Hhi.
  assert (forall m e, 0 < m -> 0 <= e -> (let '(a, b) := dec_fraction m e in to_double a b) = fq -> lo <= m * 10 ^ e <= hi) as Hint.
  { intros m' e' Hm' He' E'. unfold dec_fraction in E'. rewrite (proj2 (Z.leb_le 0 e')) in E' by done.
    rewrite Z.abs_eq in E' by lia. pose proof (pow10_pos e' He').
    eapply read_integer; [nia|exact Hq|exact E'|exact Hin]. }
  unfold dec_result. destruct (Z.leb_spec 0 e) as [He|He]; cbn [andb].
  - specialize (Hint m e Hm He E). pose proof (pow10_pos e He).
    assert (0 <= m * 10 ^ e) by (apply Z.mul_nonneg_nonneg; lia).
    rewrite (small_integer (m * 10 ^ e) hi) by lia. exact Hint.
  - destruct (strip_zeros 400 m e) as [m' e'] eqn:Es.
    destruct (strip_zeros_value _ _ _ _ _ Es) as (k & Hk & -> & ->). pose proof (pow10_pos k Hk).
    assert (0 < m') as Hm' by nia. rewrite to_double_stripped in E by done.
    destruct (Z.leb_spec 0 (e + k)) as [He'|He']; cbn [andb].
    + specialize (Hint m' (e + k) Hm' He' E). pose proof (pow10_pos (e + k) He').
      assert (0 <= m' * 10 ^ (e + k)) by (apply Z.mul_nonneg_nonneg; lia).
      rewrite (small_integer (m' * 10 ^ (e + k)) hi) by lia. exact Hint.
    + split; [done|]. split; [lia|]. unfold num_double. simpl.
      rewrite (proj2 (Z.eqb_neq m' 0)) by lia. rewrite Z.sgn_pos by done.
      destruct (dec_fraction m' (e + k)) as [a b]. rewrite E. destruct fq as [f q]. by rewrite Z.mul_1_l.
Qed.

Lemma dec_result_zero e lo hi : lo <= 0 <= hi -> num_in lo hi (dec_result 0 e).
Proof.
  intros H. unfold dec_result. destruct (0 <=? e) eqn:E; [done|]. cbn [andb].
  destruct (strip_zeros 400 0 e) as [m' e'] eqn:Es.
  destruct (strip_zeros_value _ _ _ _ _ Es) as (k & Hk & -> & Hm). pose proof (pow10_pos k Hk).
  assert (m' = 0) as -> by (symmetry in Hm; apply Z.eq_mul_0 in Hm; lia). destruct (Z.leb_spec 0 (e + k)) as [He'|He']; [done|].
  simpl. split_and!; [done|done|]. split; [by right|]. simpl. lia.
Qed.

(** ** The shortest decimal *)
Lemma shortest_from_cases fuel n d p k f q :
  shortest_from fuel n d p k f q = hd (0, 0) (near_decimals n d p 17) \/
  reads_as f q (shortest_from fuel n d p k f q) = true.
Proof.
  revert k. induction fuel as [|fuel IH]; intros k; simpl; [by left|].
  destruct (List.filter _ _) as [|me rest] eqn:E; [apply IH|]. right.
  assert (In me (List.filter (reads_as f q) (near_decimals n d p k))) as Hin by (rewrite E; by left).
  by apply List.filter_In in Hin as [_ ?].
Qed.

Lemma dec_digits_le n d hi : 0 < n -> 0 < d -> n <= hi * d -> hi < 128 -> dec_digits n d <= 3.
Proof.
  intros Hn Hd Hb Hhi. unfold dec_digits. cbv zeta.
  assert (hi * d <= 127 * d) by (apply Z.mul_le_mono_nonneg_r; lia).
  assert (log2_div n d <= 6) as Hl by (apply log2_div_le; [done|done|done|]; change (2 ^ (6 + 1)) with 128; lia).
  assert (log2_div n d * 30103 / 100000 < 2) by (apply Z.div_lt_upper_bound; lia).
  destruct (if 0 <=? _ then _ else _); [lia|]. destruct (if 0 <=? _ then _ else _); lia.
Qed.

(** The nearer of two decimals with digits after the point is between the bounds. *)
Lemma near_in n d p lo hi m e :
  0 < d -> p <= 3 -> lo * d <= n <= hi * d -> hd (0, 0) (near_decimals n d p 17) = (m, e) ->
  e < 0 /\ lo * 10 ^ (- e) <= m <= hi * 10 ^ (- e).
Proof.
  intros Hd Hp [H1 H2] H. unfold near_decimals in H. set (e0 := p - 17) in H. 
  rewrite (proj2 (Z.leb_gt 0 e0)) in H by lia. cbv zeta beta iota in H.
  pose proof (pow10_pos (- e0) ltac:(lia)) as HP. set (P := 10 ^ (- e0)) in *.
  pose proof (Z.div_mod (n * P) d ltac:(lia)). pose proof (Z.mod_pos_bound (n * P) d Hd).
  assert (lo * P <= n * P / d) by (apply Z.div_le_lower_bound; nia).
  assert (n * P / d <= hi * P) by (apply Z.div_le_upper_bound; nia).
  destruct (Z.ltb_spec (2 * (n * P mod d)) d); simpl in H; injection H as <- <-; fold P; (split; [lia|]); [lia|].
  assert (n * P / d <> hi * P) by (intros E; rewrite E in *; nia). lia.
Qed.

Lemma shortest_in f q lo hi :
  0 < f -> q < 0 -> 0 <= lo -> hi < 128 -> double_in lo hi (f, q) ->
  num_in lo hi (let '(m, e) := shortest f q in dec_result m e).
Proof.
  intros Hf Hq Hlo Hhi Hin. destruct (shortest f q) as [m e] eqn:Es. unfold shortest in Es.
  unfold scaled in Es. rewrite (proj2 (Z.leb_gt 0 q)) in Es by done. rewrite Z.mul_1_l in Es.
  pose proof (pow2_pos (- q) ltac:(lia)) as HP. destruct Hin as [Hc [B1 B2]]. simpl in B1, B2.
  destruct (shortest_from_cases 17 f (2 ^ (- q)) (dec_digits f (2 ^ (- q))) 1 f q) as [E|E]; rewrite Es in E.
  - symmetry in E. apply (near_in _ _ _ lo hi) in E as [He Hm]; [|done|by apply (dec_digits_le _ _ hi)|lia].
    pose proof (pow10_pos (- e) ltac:(lia)). destruct (Z.eq_dec m 0) as [->|Hm0].
    + apply dec_result_zero. nia.
    + assert (0 < m) as Hmp by nia.
      assert (0 < 10 ^ (- e)) as Hd10 by (apply pow10_pos; lia).
      destruct (to_double_in m (10 ^ (- e)) lo hi Hmp Hd10 ltac:(lia) ltac:(lia)) as [Hq' Hb].
      destruct (to_double m (10 ^ (- e))) as [f' q'] eqn:Et.
      assert (q' < 0) by (eapply (to_double_exp m (10 ^ (- e))); [done|done| |exact Et]; nia).
      eapply (dec_result_in m e lo hi (f', q')); [done|done| |by split|lia].
      unfold dec_fraction. rewrite (proj2 (Z.leb_gt 0 e)) by done. by rewrite Z.abs_eq by lia.
  - unfold reads_as in E. apply andb_true_iff in E as [Hm E]. simpl in Hm. apply Z.ltb_lt in Hm.
    eapply (dec_result_in m e lo hi (f, q)); [done|done| |by split|lia].
    simpl in E. destruct (dec_fraction m e). by apply bool_decide_eq_true in E.
Qed.

(** ** Computed numbers *)
Lemma ratio_num_in n d lo hi :
  0 <= n -> 0 < d -> 0 <= lo -> hi < 128 -> lo * d <= n <= hi * d -> num_in lo hi (ratio_num false n d).
Proof.
  intros Hn Hd Hlo Hhi Hb. unfold ratio_num. destruct (Z.eqb_spec n 0) as [->|Hn0]; [simpl; nia|].
  destruct (to_double_in n d lo hi ltac:(lia) Hd ltac:(lia) Hb) as [Hc Hf].
  destruct (to_double n d) as [f q] eqn:E. simpl in Hf.
  assert (q < 0) as Hq.
  { eapply (to_double_exp n d); [lia|done| |exact E]. assert (hi * d <= 127 * d) by (apply Z.mul_le_mono_nonneg_r; lia). lia. }
  pose proof (pow2_pos (- q) ltac:(lia)) as HP. assert (0 <= lo * 2 ^ (- q)) by (apply Z.mul_nonneg_nonneg; lia).
  destruct (Z.eqb_spec f 0) as [->|Hf0]; [simpl; nia|].
  rewrite (proj2 (Z.leb_gt 1024 (log2_div f 1 + q))).
  - apply shortest_in; try lia. split; [exact Hc|exact Hf].
  - enough (log2_div f 1 <= 7 - q) by lia. apply log2_div_le; [lia|lia|lia|].
    replace (7 - q + 1) with (8 + - q) by lia. rewrite pow2_add by lia. change (2 ^ 8) with 256.
    assert (hi * 2 ^ (- q) <= 127 * 2 ^ (- q)) by (apply Z.mul_le_mono_nonneg_r; lia). lia.
Qed.

(** A number from [0] to an integer as a double. *)
Definition reads_to (hi : Z) (n : jsnum) : Prop :=
  num_is_finite n = true /\ (n = NNegZero \/ num_is_neg n = false) /\ double_in 0 hi (num_double n).

Lemma dec_fraction_in m e hi : 0 <= m -> hi < 2 ^ 50 ->
  (if 0 <=? e then m * 10 ^ e <= hi else m <= hi * 10 ^ (- e)) ->
  double_in 0 hi (if m =? 0 then (0, 0) else let '(a, b) := dec_fraction m e in to_double a b).
Proof.
  intros Hm Hhi Hb. destruct (Z.eqb_spec m 0) as [->|].
  - split; [by right|]. simpl. destruct (Z.leb_spec 0 e); [lia|]. pose proof (pow10_pos (- e) ltac:(lia)).
    split; [lia|]. destruct (Z.lt_ge_cases hi 0); nia.
  - destruct (dec_fraction_pos m e ltac:(lia)) as [Ha Hb']. destruct (dec_fraction m e) as [a b] eqn:E. simpl in *.
    apply to_double_in; try done. unfold dec_fraction in E. rewrite Z.abs_eq in E by done.
    destruct (0 <=? e); injection E as <- <-; lia.
Qed.

Lemma num_double_reads n : num_is_finite n = true -> (n = NNegZero \/ num_is_neg n = false) ->
  num_double n = (let '(m, e) := num_decimal n in
                  if m =? 0 then (0, 0) else let '(a, b) := dec_fraction m e in to_double a b).
Proof.
  intros Hf Hn. unfold num_double. destruct (num_decimal n) as [m e] eqn:E.
  destruct (Z.eqb_spec m 0); [done|]. assert (0 < m) as Hm.
  { destruct n; try done; simpl in E; injection E as <- <-; try lia;
      (destruct Hn as [?|Hn]; [done|]); simpl in Hn; apply Z.ltb_ge in Hn; lia. }
  rewrite (Z.sgn_pos m Hm). destruct (dec_fraction m e) as [a b]. destruct (to_double a b). by rewrite Z.mul_1_l.
Qed.

Lemma int_reads_to z hi : 0 <= z <= hi -> hi < 128 -> reads_to hi (NInt z).
Proof.
  intros Hz Hhi. assert (num_is_neg (NInt z) = false) as Hn by (simpl; apply Z.ltb_ge; lia).
  split; [done|]. split; [by right|]. rewrite num_double_reads by auto. apply (dec_fraction_in z 0); simpl; lia.
Qed.

(** An integer is its double. *)
Lemma int_double z : 0 < z < 2 ^ 50 -> exists q, q < 0 /\ num_double (NInt z) = (z * 2 ^ (- q), q).
Proof.
  intros Hz. unfold num_double. simpl. rewrite (proj2 (Z.eqb_neq z 0)) by lia. rewrite Z.sgn_pos by lia.
  unfold dec_fraction. simpl. rewrite Z.abs_eq, Z.mul_1_r by lia.
  destruct (to_double z 1) as [f q] eqn:E. rewrite Z.mul_1_l. exists q.
  assert (q < 0) as Hq by (apply (to_double_exp z 1 f); lia || done). split; [done|].
  destruct (to_double_bounds z 1 f q z z ltac:(lia) E Hq) as [H1 H2].
  specialize (H1 ltac:(lia)). specialize (H2 ltac:(lia)). f_equal. lia.
Qed.

Lemma num_times_in k n : 0 < k < 128 -> reads_to 1 n -> num_in 0 k (num_times (NInt k) n).
Proof.
  intros Hk (Hf & Hs & Hd). unfold num_times.
  assert (num_is_neg (NInt k) = false) as Hnk by (simpl; apply Z.ltb_ge; lia).
  destruct (num_is_zero n) eqn:Hz.
  { destruct n; try done; cbv beta iota zeta; rewrite orb_true_r; unfold signed_zero; destruct (xorb _ _); simpl; lia. }
  assert (num_is_neg n = false) as Hn by (destruct Hs as [->|]; [done|done]). rewrite Hnk, Hn.
  assert (num_is_zero (NInt k) || false = false) as E by (rewrite orb_false_r; apply Z.eqb_neq; lia).
  destruct (int_double k ltac:(lia)) as (q1 & Hq1 & E1). destruct Hd as [Hq2 Hf2].
  destruct (num_double n) as [f2 q2] eqn:E2. simpl in Hq2, Hf2.
  assert (num_in 0 k (let '(n0, d) := scaled (Z.abs (k * 2 ^ (- q1) * f2)) 1 (q1 + q2) in ratio_num false n0 d)) as Hin.
  { assert (q2 <= 0) as Hq2' by (destruct Hq2 as [|[= -> ->]]; lia).
    unfold scaled. rewrite (proj2 (Z.leb_gt 0 (q1 + q2))) by lia. rewrite Z.mul_1_l.
    pose proof (pow2_pos (- q1) ltac:(lia)). pose proof (pow2_pos (- q2) ltac:(lia)).
    replace (- (q1 + q2)) with (- q1 + - q2) by lia. rewrite pow2_add by lia.
    rewrite Z.abs_eq by nia. apply ratio_num_in; try lia; nia. }
  destruct n; try done; cbv beta iota zeta; rewrite E, E1; exact Hin.
Qed.

Lemma num_quot_in a b lo hi :
  0 <= a < 2 ^ 50 -> 0 < b < 2 ^ 50 -> 0 <= lo -> hi < 128 -> lo * b <= a <= hi * b ->
  num_in lo hi (num_quot (NInt a) (NInt b)).
Proof.
  intros Ha Hb Hlo Hhi Hab. unfold num_quot. cbv zeta.
  assert (num_is_neg (NInt a) = false) as -> by (simpl; apply Z.ltb_ge; lia).
  assert (num_is_neg (NInt b) = false) as -> by (simpl; apply Z.ltb_ge; lia).
  assert (num_is_zero (NInt b) = false) as -> by (simpl; apply Z.eqb_neq; lia).
  destruct (num_is_zero (NInt a)) eqn:Hz; [apply Z.eqb_eq in Hz as ->; simpl; nia|]. apply Z.eqb_neq in Hz.
  destruct (int_double a ltac:(lia)) as (q1 & Hq1 & ->). destruct (int_double b ltac:(lia)) as (q2 & Hq2 & ->).
  pose proof (pow2_pos (- q1) ltac:(lia)) as H1. pose proof (pow2_pos (- q2) ltac:(lia)) as H2.
  rewrite !Z.abs_eq by nia. unfold scaled. simpl xorb. destruct (Z.leb_spec 0 (q1 - q2)).
  - replace (a * 2 ^ (- q1) * 2 ^ (q1 - q2)) with (a * 2 ^ (- q2)).
    + apply ratio_num_in; nia.
    + rewrite <- Z.mul_assoc, <- pow2_add by lia. do 2 f_equal. lia.
  - replace (b * 2 ^ (- q2) * 2 ^ (- (q1 - q2))) with (b * 2 ^ (- q1)).
    + apply ratio_num_in; nia.
    + rewrite <- Z.mul_assoc, <- pow2_add by lia. do 2 f_equal. lia.
Qed.

(** The minimum with an integer bound. *)
Lemma num_min_in lo hi cap n :
  0 <= lo <= cap -> cap < 128 -> num_in lo hi n -> num_in lo cap (num_min n (NInt cap)).
Proof.
  intros Hlo Hcap H. destruct n as [z| |m e| |]; try done.
  - simpl in H. assert (num_min (NInt z) (NInt cap) = if cap <? z then NInt cap else NInt z) as ->.
    { destruct z; simpl; unfold num_ltb, dec_ltb; simpl; rewrite ?Z.mul_1_r; reflexivity. }
    destruct (Z.ltb_spec cap z); simpl; lia.
  - simpl in H. assert (num_min NNegZero (NInt cap) = if cap <? 0 then NInt cap else NNegZero) as ->.
    { simpl. unfold num_ltb, dec_ltb. simpl. by rewrite Z.mul_1_r. }
    destruct (Z.ltb_spec cap 0); simpl; lia.
  - destruct H as (He & Hm & Hd & Hf).
    assert (num_min (NDec m e) (NInt cap) = if num_ltb (NInt cap) (NDec m e) then NInt cap else NDec m e) as -> by done.
    destruct (num_ltb _ _) eqn:E; [simpl; lia|]. unfold num_ltb, dec_ltb in E. cbn [num_decimal fst snd] in E.
    apply Z.ltb_ge in E. rewrite Z.min_r, Z.sub_diag, Z.sub_0_l, Z.mul_1_r in E by lia.
    split; [done|]. split; [done|].
    destruct (num_double (NDec m e)) as [f q] eqn:Ed. split; [exact Hd|]. split; [apply Hf|].
    assert (num_is_neg (NDec m e) = false) as Hn by (by apply Z.ltb_ge).
    assert (double_in 0 cap (num_double (NDec m e))) as [_ Hc]; [|rewrite Ed in Hc; apply Hc].
    rewrite num_double_reads by auto. apply (dec_fraction_in m e); [done|lia|].
    by rewrite (proj2 (Z.leb_gt 0 e)).
Qed.

Lemma num_round_in lo hi n : 0 <= lo -> num_in lo hi n ->
  num_round n = NNegZero /\ lo = 0 /\ 0 <= hi \/ exists z, num_round n = NInt z /\ lo <= z <= hi.
Proof.
  intros Hlo H. destruct n as [z| |m e| |]; try done.
  - right. by exists z.
  - left. simpl in H. split; [done|lia].
  - destruct H as (He & Hm & Hq & Hf). unfold num_round. rewrite (proj2 (Z.leb_gt 0 e)) by done.
    destruct (num_double (NDec m e)) as [f q]. simpl in Hq, Hf.
    rewrite (proj2 (Z.ltb_ge m 0)), andb_false_r by done. right. eexists. split; [reflexivity|].
    assert (q <= 0) by (destruct Hq as [|[= -> ->]]; lia). pose proof (pow2_pos (- q) ltac:(lia)).
    replace (1 - q) with (1 + - q) by lia. rewrite pow2_add by lia. change (2 ^ 1) with 2.
    split; [apply Z.div_le_lower_bound; nia|].
    assert ((2 * f + 2 ^ (- q)) / (2 * 2 ^ (- q)) < hi + 1); [|lia]. apply Z.div_lt_upper_bound; nia.
Qed.

Close Scope Z_scope.
