(* ===== verification/Regex.v ===== *)
(** * Regular expressions

    The source tests strings against regular-expression literals.  [re] is their
    abstract syntax, [re_full], [re_prefix], [re_search] and [re_search_wb] are the
    four ways a literal is anchored ([^r$], [^r], [r] and [\br\b]), computed by
    derivatives.  [re_lang] is the language of an expression and the [_spec]
    lemmas say that the matchers decide it.  [re_needs] tells that no text over an
    alphabet matches. *)

From S2P Require Import Prelude.

Inductive re :=
  | RNone
  | REps
  | RCls (neg : bool) (ranges : list (N * N))
  | RSeq (r1 r2 : re)
  | RAlt (r1 r2 : re)
  | RStar (r : re).

Definition cls_match (neg : bool) (ranges : list (N * N)) (c : N) : bool :=
  xorb neg (existsb (λ lh, (lh.1 <=? c)%N && (c <=? lh.2)%N) ranges).

Fixpoint nullable (r : re) : bool :=
  match r with
  | RNone | RCls _ _ => false
  | REps | RStar _ => true
  | RSeq r1 r2 => nullable r1 && nullable r2
  | RAlt r1 r2 => nullable r1 || nullable r2
  end.

(** Constructors that drop the empty language and the empty word. *)
Definition mk_seq (r1 r2 : re) : re :=
  match r1 with RNone => RNone | REps => r2 | _ => RSeq r1 r2 end.

Definition mk_alt (r1 r2 : re) : re :=
  match r1, r2 with RNone, _ => r2 | _, RNone => r1 | _, _ => RAlt r1 r2 end.

Fixpoint deriv (c : N) (r : re) : re :=
  match r with
  | RNone | REps => RNone
  | RCls neg ranges => if cls_match neg ranges c then REps else RNone
  | RSeq r1 r2 =>
      if nullable r1 then mk_alt (mk_seq (deriv c r1) r2) (deriv c r2)
      else mk_seq (deriv c r1) r2
  | RAlt r1 r2 => mk_alt (deriv c r1) (deriv c r2)
  | RStar r1 => mk_seq (deriv c r1) (RStar r1)
  end.

(** [/^r$/.test(s)]. *)
Fixpoint re_full (r : re) (s : jstr) : bool :=
  match s with
  | [] => nullable r
  | c :: s' => re_full (deriv c r) s'
  end.

(** [/^r/.test(s)]. *)
Fixpoint re_prefix (r : re) (s : jstr) : bool :=
  nullable r || match s with [] => false | c :: s' => re_prefix (deriv c r) s' end.

(** [/r/.test(s)]. *)
Fixpoint re_search (r : re) (s : jstr) : bool :=
  re_prefix r s || match s with [] => false | _ :: s' => re_search r s' end.

(** [/r$/.test(s)]. *)
Fixpoint re_suffix (r : re) (s : jstr) : bool :=
  re_full r s || match s with [] => false | _ :: s' => re_suffix r s' end.

Definition is_word (c : N) : bool :=
  cls_match false [(48, 57); (65, 90); (95, 95); (97, 122)]%N c.

Definition word_boundary (before after : option N) : bool :=
  xorb (match before with Some c => is_word c | None => false end)
       (match after with Some c => is_word c | None => false end).

(** A prefix of [s] in the language of [r] that ends at a word boundary. *)
Fixpoint re_prefix_wb (r : re) (before : option N) (s : jstr) : bool :=
  (nullable r && word_boundary before (head s)) ||
  match s with [] => false | c :: s' => re_prefix_wb (deriv c r) (Some c) s' end.

(** [/\br\b/.test(s)]. *)
Fixpoint re_search_wb_from (r : re) (before : option N) (s : jstr) : bool :=
  (word_boundary before (head s) && re_prefix_wb r before s) ||
  match s with [] => false | c :: s' => re_search_wb_from r (Some c) s' end.

Definition re_search_wb (r : re) (s : jstr) : bool := re_search_wb_from r None s.

(** ** Notation for literals *)
Definition rchar (c : N) : re := RCls false [(c, c)].

Definition rlit (s : jstr) : re := foldr (λ c r, mk_seq (rchar c) r) REps s.

(** A character class written as in the source: ["a-z0-9_"]. *)
Fixpoint class_ranges (s : jstr) : list (N * N) :=
  match s with
  | [] => []
  | c :: s' =>
      match s' with
      | 45%N :: d :: s'' => (c, d) :: class_ranges s''
      | _ => (c, c) :: class_ranges s'
      end
  end.

Definition cset (s : jstr) : re := RCls false (class_ranges s).

Definition cnot (s : jstr) : re := RCls true (class_ranges s).

Fixpoint rrep (n : nat) (r : re) : re :=
  match n with 0 => REps | S n' => mk_seq r (rrep n' r) end.

(** [r{0,n}]. *)
Fixpoint rupto (n : nat) (r : re) : re :=
  match n with 0 => REps | S n' => RAlt REps (mk_seq r (rupto n' r)) end.

(** [r{m,n}], [r{m,}], [r+], [r?]. *)
Definition rrange (m n : nat) (r : re) : re := mk_seq (rrep m r) (rupto (n - m) r).

Definition ratleast (m : nat) (r : re) : re := mk_seq (rrep m r) (RStar r).

Definition rplus (r : re) : re := RSeq r (RStar r).

Definition ropt (r : re) : re := RAlt REps r.

Definition ralts (l : list re) : re := foldr RAlt RNone l.

Definition rseqs (l : list re) : re := foldr mk_seq REps l.

Definition rwords (l : list string) : re := ralts (map (λ s : string, rlit s) l).

(** [\s] of the source. *)
Definition rspace : re :=
  RCls false [(9, 13); (32, 32); (160, 160); (5760, 5760); (8192, 8202); (8232, 8233);
              (8239, 8239); (8287, 8287); (12288, 12288); (65279, 65279)]%N.

Definition rdigit : re := cset "0-9".

(** The [i] flag: a class matches a letter when it contains either case. *)
Definition ci_range (lh : N * N) : list (N * N) :=
  let upper := (N.max 65 lh.1, N.min 90 lh.2) in
  let lower := (N.max 97 lh.1, N.min 122 lh.2) in
  lh :: (if (upper.1 <=? upper.2)%N then [(upper.1 + 32, upper.2 + 32)%N] else [])
     ++ (if (lower.1 <=? lower.2)%N then [(lower.1 - 32, lower.2 - 32)%N] else []).

Fixpoint re_ci (r : re) : re :=
  match r with
  | RNone => RNone
  | REps => REps
  | RCls neg ranges => RCls neg (flat_map ci_range ranges)
  | RSeq r1 r2 => RSeq (re_ci r1) (re_ci r2)
  | RAlt r1 r2 => RAlt (re_ci r1) (re_ci r2)
  | RStar r1 => RStar (re_ci r1)
  end.

(** ** The language of an expression *)
Inductive re_lang : re -> jstr -> Prop :=
  | lang_eps : re_lang REps []
  | lang_cls neg ranges c : cls_match neg ranges c = true -> re_lang (RCls neg ranges) [c]
  | lang_seq r1 r2 s1 s2 : re_lang r1 s1 -> re_lang r2 s2 -> re_lang (RSeq r1 r2) (s1 ++ s2)
  | lang_alt_l r1 r2 s : re_lang r1 s -> re_lang (RAlt r1 r2) s
  | lang_alt_r r1 r2 s : re_lang r2 s -> re_lang (RAlt r1 r2) s
  | lang_star_nil r : re_lang (RStar r) []
  | lang_star_app r s1 s2 : re_lang r s1 -> re_lang (RStar r) s2 -> re_lang (RStar r) (s1 ++ s2).

Lemma nullable_spec r : nullable r = true <-> re_lang r [].
Proof.
  induction r as [| |neg rs|r1 IH1 r2 IH2|r1 IH1 r2 IH2|r IH]; simpl.
  - split; [done|inversion 1].
  - split; [constructor|done].
  - split; [done|inversion 1].
  - rewrite andb_true_iff, IH1, IH2. split.
    + intros [H1 H2]. apply (lang_seq _ _ [] []); done.
    + inversion 1 as [| |? ? s1 s2 H1 H2 E1 Happ| | | |]; subst.
      by apply app_eq_nil in Happ as [-> ->].
  - rewrite orb_true_iff, IH1, IH2. split.
    + intros [H|H]; [by apply lang_alt_l|by apply lang_alt_r].
    + inversion 1; subst; auto.
  - split; [constructor|done].
Qed.

Lemma lang_mk_seq r1 r2 s : re_lang (mk_seq r1 r2) s <-> re_lang (RSeq r1 r2) s.
Proof.
  destruct r1; simpl; try done.
  - split; inversion 1 as [| |? ? s1 s2 H1 H2| | | |]; subst. inversion H1.
  - split; [intros H; by apply (lang_seq _ _ [] _ lang_eps)|].
    inversion 1 as [| |? ? s1 s2 H1 H2| | | |]; subst. by inversion H1; subst.
Qed.

Lemma lang_mk_alt r1 r2 s : re_lang (mk_alt r1 r2) s <-> re_lang (RAlt r1 r2) s.
Proof.
  destruct r1, r2; simpl; try done; split; intros H;
    try (by apply lang_alt_l); try (by apply lang_alt_r);
    inversion H as [| | |? ? ? H1|? ? ? H1| |]; subst; try done; inversion H1.
Qed.

Lemma lang_star_cons r c s :
  re_lang (RStar r) (c :: s) ->
  exists s1 s2, s = s1 ++ s2 /\ re_lang r (c :: s1) /\ re_lang (RStar r) s2.
Proof.
  remember (RStar r) as r' eqn:Er. remember (c :: s) as w eqn:Ew. intros H.
  revert Ew. induction H as [| | | | | |r0 s1 s2 H1 _ H2 IH2]; intros Ew; try done.
  injection Er as ->. destruct s1 as [|d s1]; simpl in Ew.
  - by apply IH2.
  - injection Ew as -> <-. eauto.
Qed.

Lemma deriv_spec c r s : re_lang (deriv c r) s <-> re_lang r (c :: s).
Proof.
  revert s. induction r as [| |neg rs|r1 IH1 r2 IH2|r1 IH1 r2 IH2|r IH]; intros s; simpl.
  - split; inversion 1.
  - split; inversion 1.
  - destruct (cls_match neg rs c) eqn:E; split; inversion 1; subst; try congruence; by constructor.
  - assert (Hseq : re_lang (RSeq (deriv c r1) r2) s <->
      exists s1 s2, s = s1 ++ s2 /\ re_lang r1 (c :: s1) /\ re_lang r2 s2).
    { split.
      - inversion 1 as [| |? ? s1 s2 H1 H2| | | |]; subst. exists s1, s2. by rewrite <- IH1.
      - intros (s1 & s2 & -> & H1 & H2). constructor; [by apply IH1|done]. }
    assert (Hgoal : re_lang (RSeq r1 r2) (c :: s) <->
      re_lang (RSeq (deriv c r1) r2) s \/ (nullable r1 = true /\ re_lang r2 (c :: s))).
    { rewrite Hseq. split.
      - inversion 1 as [| |? ? s1 s2 H1 H2 E1 E3| | | |]; subst.
        destruct s1 as [|d s1]; simpl in *.
        + subst s2. right. split; [by apply nullable_spec|done].
        + left. injection E3 as -> <-. eauto.
      - intros [(s1 & s2 & -> & H1 & H2)|[H1 H2]].
        + change (c :: s1 ++ s2) with ((c :: s1) ++ s2). by constructor.
        + apply (lang_seq _ _ []); [by apply nullable_spec|done]. }
    rewrite Hgoal. destruct (nullable r1).
    + rewrite lang_mk_alt. split.
      * inversion 1; subst; [left; by apply lang_mk_seq|right; by rewrite <- IH2].
      * intros [H|[_ H]]; [apply lang_alt_l; by apply lang_mk_seq|by apply lang_alt_r, IH2].
    + rewrite lang_mk_seq. naive_solver.
  - rewrite lang_mk_alt. split.
    + inversion 1; subst; [apply lang_alt_l; by apply IH1|apply lang_alt_r; by apply IH2].
    + inversion 1; subst; [apply lang_alt_l; by apply IH1|apply lang_alt_r; by apply IH2].
  - rewrite lang_mk_seq. split.
    + inversion 1 as [| |? ? s1 s2 H1 H2| | | |]; subst.
      change (c :: s1 ++ s2) with ((c :: s1) ++ s2). constructor; [by apply IH|done].
    + intros (s1 & s2 & -> & H1 & H2)%lang_star_cons. constructor; [by apply IH|done].
Qed.

Lemma re_full_spec r s : re_full r s = true <-> re_lang r s.
Proof.
  revert r. induction s as [|c s IH]; intros r; simpl; [apply nullable_spec|].
  by rewrite IH, deriv_spec.
Qed.

Lemma re_prefix_spec r s :
  re_prefix r s = true <-> exists s1 s2, s = s1 ++ s2 /\ re_lang r s1.
Proof.
  revert r. induction s as [|c s IH]; intros r; simpl; rewrite orb_true_iff, nullable_spec.
  - split.
    + intros [H|[=]]. by exists [], [].
    + intros (s1 & s2 & E & H). symmetry in E. apply app_eq_nil in E as [-> _]. by left.
  - rewrite IH. split.
    + intros [H|(s1 & s2 & -> & H)]; [by exists [], (c :: s)|].
      exists (c :: s1), s2. by rewrite <- deriv_spec.
    + intros ([|d s1] & s2 & E & H); [by left|]. injection E as -> ->.
      right. exists s1, s2. by rewrite deriv_spec.
Qed.

Lemma re_search_spec r s :
  re_search r s = true <-> exists s0 s1 s2, s = s0 ++ s1 ++ s2 /\ re_lang r s1.
Proof.
  induction s as [|c s IH]; cbn [re_search]; rewrite orb_true_iff, re_prefix_spec.
  - split.
    + intros [(s1 & s2 & E & H)|[=]]. by exists [], s1, s2.
    + intros (s0 & s1 & s2 & E & H). symmetry in E. apply app_eq_nil in E as [-> E]. naive_solver.
  - rewrite IH. split.
    + intros [(s1 & s2 & E & H)|(s0 & s1 & s2 & -> & H)]; [by exists [], s1, s2|].
      by exists (c :: s0), s1, s2.
    + intros ([|d s0] & s1 & s2 & E & H); [left; naive_solver|].
      injection E as -> ->. right. eauto.
Qed.

(** ** Languages of the literals *)
Lemma lang_rchar_seq c r s : re_lang (RSeq (rchar c) r) s <-> exists s', s = c :: s' /\ re_lang r s'.
Proof.
  split.
  - inversion 1 as [| |? ? s1 s2 H1 H2| | | |]; subst.
    inversion H1 as [|? ? d Hd| | | | |]; subst. exists s2. split; [|done].
    unfold cls_match in Hd. simpl in Hd. rewrite orb_false_r, andb_true_iff, !N.leb_le in Hd.
    simpl. f_equal. lia.
  - intros (s' & -> & H). apply (lang_seq _ _ [c]); [|done]. constructor.
    unfold cls_match. simpl. by rewrite N.leb_refl.
Qed.

Lemma lang_rlit p s : re_lang (rlit p) s <-> s = p.
Proof.
  revert s. induction p as [|c p IH]; intros s.
  - split; [by inversion 1|intros ->; constructor].
  - change (rlit (c :: p)) with (RSeq (rchar c) (rlit p)). rewrite lang_rchar_seq. setoid_rewrite IH. naive_solver.
Qed.

Lemma lang_rlit_seq p r s :
  re_lang (mk_seq (rlit p) r) s <-> exists s', s = p ++ s' /\ re_lang r s'.
Proof.
  rewrite lang_mk_seq. split.
  - inversion 1 as [| |? ? s1 s2 H1 H2| | | |]; subst. apply lang_rlit in H1 as ->. eauto.
  - intros (s' & -> & H). constructor; [by apply lang_rlit|done].
Qed.

Lemma lang_rrep_cls n neg rs s :
  re_lang (rrep n (RCls neg rs)) s <-> length s = n /\ Forall (λ c, cls_match neg rs c = true) s.
Proof.
  revert s. induction n as [|n IH]; intros s; simpl.
  - split; [by inversion 1|]. intros [Hl _]. destruct s; [constructor|done].
  - split.
    + inversion 1 as [| |? ? s1 s2 H1 H2| | | |]; subst. inversion H1; subst.
      apply IH in H2 as [<- H2]. split; [done|]. by constructor.
    + intros [Hl Hf]. destruct s as [|c s]; [done|]. apply Forall_cons in Hf as [Hc Hf].
      apply (lang_seq _ _ [c]); [by constructor|]. apply IH. simpl in Hl. auto with lia.
Qed.

(** ** Texts without a match *)

(** Every text of the language has a character outside of [alphabet]. *)
Fixpoint re_needs (alphabet : jstr) (r : re) : bool :=
  match r with
  | RNone => true
  | REps | RStar _ => false
  | RCls neg ranges => forallb (λ c, negb (cls_match neg ranges c)) alphabet
  | RSeq r1 r2 => re_needs alphabet r1 || re_needs alphabet r2
  | RAlt r1 r2 => re_needs alphabet r1 && re_needs alphabet r2
  end.

Lemma needs_lang alphabet r s : re_needs alphabet r = true -> re_lang r s -> exists c, c ∈ s /\ c ∉ alphabet.
Proof.
  intros Hn H. induction H as [|neg rs d Hd|r1 r2 s1 s2 _ IH1 _ IH2|r1 r2 s _ IH|r1 r2 s _ IH|r|r s1 s2 _ IH1 _ IH2];
    cbn [re_needs] in Hn; rewrite ?andb_true_iff, ?orb_true_iff in Hn; try done.
  - exists d. split; [apply list_elem_of_here|]. intros Hin%list_elem_of_In.
    rewrite forallb_forall in Hn. specialize (Hn d Hin). by rewrite Hd in Hn.
  - destruct Hn as [Hn|Hn]; [destruct (IH1 Hn) as (c & Hc & Hx)|destruct (IH2 Hn) as (c & Hc & Hx)];
      exists c; rewrite elem_of_app; auto.
  - apply IH, Hn.
  - apply IH, Hn.
Qed.

Lemma search_needs alphabet r s :
  re_needs alphabet r = true -> Forall (λ c, c ∈ alphabet) s -> re_search r s = false.
Proof.
  intros Hn Hs. apply not_true_iff_false. rewrite re_search_spec. intros (s0 & s1 & s2 & -> & Hl).
  destruct (needs_lang _ _ _ Hn Hl) as (c & Hc & Hx). rewrite Forall_forall in Hs. apply Hx, Hs.
  rewrite !elem_of_app. auto.
Qed.

Lemma in_alphabet (alphabet s : jstr) :
  forallb (λ c, existsb (N.eqb c) alphabet) s = true -> Forall (λ c, c ∈ alphabet) s.
Proof.
  rewrite forallb_forall, Forall_forall. intros H c Hc%list_elem_of_In.
  apply H, existsb_exists in Hc as (d & Hd & ->%N.eqb_eq). by apply list_elem_of_In.
Qed.
