(* ===== verification/Canonical.v ===== *)
(** * Canonical JSON

    [canonicalize] of [src/packages/core/src/index.js]: the text that every
    receipt, checkpoint, address and commitment hashes or signs.  It does not
    depend on the order of an object's properties, and two values with the same
    text are the same value up to that order. *)

From S2P Require Import Prelude JsValue NumberText.

(** ** Sorting properties by key *)
Section sort_keys.
Context {A : Type}.

Fixpoint insert_key (kv : jstr * A) (l : list (jstr * A)) : list (jstr * A) :=
  match l with
  | [] => [kv]
  | kv' :: l' => if str_ltb kv'.1 kv.1 then kv' :: insert_key kv l' else kv :: l
  end.

Definition sort_keys (l : list (jstr * A)) : list (jstr * A) := foldr insert_key [] l.

Lemma insert_key_perm kv l : insert_key kv l ≡ₚ kv :: l.
Proof.
  induction l as [|kv' l IH]; simpl; [done|]. destruct (str_ltb kv'.1 kv.1); [|done].
  rewrite IH. constructor.
Qed.

Lemma sort_keys_perm l : sort_keys l ≡ₚ l.
Proof. induction l as [|kv l IH]; simpl; [done|]. by rewrite insert_key_perm, IH. Qed.

Lemma insert_key_sorted kv l :
  StronglySorted str_le l.*1 -> StronglySorted str_le (insert_key kv l).*1.
Proof.
  induction l as [|kv' l IH]; csimpl.
  - intros _. repeat constructor.
  - intros [Hs Hf]%StronglySorted_inv. destruct (str_ltb kv'.1 kv.1) eqn:E; csimpl.
    + constructor; [by apply IH|]. apply Forall_forall. intros k Hk.
      rewrite insert_key_perm in Hk. csimpl in Hk. apply elem_of_cons in Hk as [->|Hk].
      * by apply str_ltb_asym.
      * by eapply Forall_forall in Hf.
    + constructor; [by constructor|]. constructor; [done|].
      eapply Forall_impl; [done|]. intros k Hk. by trans kv'.1.
Qed.

Lemma sort_keys_sorted l : StronglySorted str_le (sort_keys l).*1.
Proof. induction l as [|kv l IH]; simpl; [constructor|]. by apply insert_key_sorted. Qed.

Lemma sort_keys_fst l : (sort_keys l).*1 = sort_strings l.*1.
Proof.
  apply (StronglySorted_unique str_le);
    [apply sort_keys_sorted|apply sort_strings_sorted|].
  by rewrite sort_strings_perm, sort_keys_perm.
Qed.

Lemma sorted_nodup_unique (l1 l2 : list (jstr * A)) :
  NoDup l1.*1 -> l1 ≡ₚ l2 ->
  StronglySorted str_le l1.*1 -> StronglySorted str_le l2.*1 -> l1 = l2.
Proof.
  revert l2. induction l1 as [|[k v] l1 IH]; intros l2 Hnd Hp H1 H2.
  - by apply Permutation_nil_l in Hp as ->.
  - destruct l2 as [|[k2 v2] l2]; [by apply Permutation_nil_r in Hp|].
    csimpl in *. apply StronglySorted_inv in H1 as [H1 F1], H2 as [H2 F2].
    apply NoDup_cons in Hnd as [Hn Hnd].
    assert (k = k2) as <-.
    { apply (anti_symm str_le).
      - assert ((k2, v2) ∈ (k, v) :: l1) as E by (rewrite Hp; by left).
        apply elem_of_cons in E as [[= -> ->]|E]; [done|].
        rewrite Forall_forall in F1. apply F1, list_elem_of_fmap. by exists (k2, v2).
      - assert ((k, v) ∈ (k2, v2) :: l2) as E by (rewrite <- Hp; by left).
        apply elem_of_cons in E as [[= -> ->]|E]; [done|].
        rewrite Forall_forall in F2. apply F2, list_elem_of_fmap. by exists (k, v). }
    assert (v = v2) as <-.
    { assert ((k, v2) ∈ (k, v) :: l1) as E by (rewrite Hp; by left).
      apply elem_of_cons in E as [[= ->]|E]; [done|].
      destruct Hn. apply list_elem_of_fmap. by exists (k, v2). }
    f_equal. apply IH; try done. by apply Permutation_cons_inv in Hp.
Qed.

Lemma sort_keys_proper (l1 l2 : list (jstr * A)) :
  NoDup l1.*1 -> l1 ≡ₚ l2 -> sort_keys l1 = sort_keys l2.
Proof.
  intros Hnd Hp. apply sorted_nodup_unique; [| |apply sort_keys_sorted..].
  - by rewrite sort_keys_perm.
  - by rewrite !sort_keys_perm.
Qed.
End sort_keys.

Lemma insert_key_map {A B} (f : A -> B) kv l :
  map (λ kv, (kv.1, f kv.2)) (insert_key kv l) =
  insert_key (kv.1, f kv.2) (map (λ kv, (kv.1, f kv.2)) l).
Proof.
  induction l as [|kv' l IH]; simpl; [done|].
  destruct (str_ltb kv'.1 kv.1); simpl; [by rewrite IH|done].
Qed.

Lemma sort_keys_map {A B} (f : A -> B) l :
  map (λ kv, (kv.1, f kv.2)) (sort_keys l) = sort_keys (map (λ kv, (kv.1, f kv.2)) l).
Proof. induction l as [|kv l IH]; simpl; [done|]. by rewrite insert_key_map, IH. Qed.

(** ** [canonicalize] *)
Definition canonical_number (n : jsnum) : jsnum := match n with NNegZero => NInt 0 | _ => n end.

(** The members of an object, first error in key order. *)
Fixpoint canonical_members (l : list (jstr * res jstr)) : res (list jstr) :=
  match l with
  | [] => Ok []
  | (k, m) :: l' =>
      let! t := m in
      let! ts := canonical_members l' in
      Ok ((json_quote k +s+ ":" +s+ t) :: ts)
  end.

Fixpoint canonicalize (v : jsval) : res jstr :=
  match v with
  | VNull => Ok ("null" : jstr)
  | VStr s => Ok (json_quote s)
  | VNum n =>
      throw_if negb (num_is_finite n)
        with TypeError "canonical JSON cannot encode non-finite numbers";
      Ok (num_text (canonical_number n))
  | VBool true => Ok ("true" : jstr)
  | VBool false => Ok ("false" : jstr)
  | VUndef | VHole | VOpaque _ _ =>
      Throw (TypeError ("canonical JSON cannot encode " +s+ typeof v))
  | VArr l =>
      let! items := (fix go (l : list jsval) : res (list jstr) :=
         match l with
         | [] => Ok []
         | VHole :: _ => Throw (TypeError "canonical JSON cannot encode sparse arrays")
         | x :: l' => let! t := canonicalize x in let! ts := go l' in Ok (t :: ts)
         end) l in
      Ok ("[" +s+ join "," items +s+ "]")
  | VObj fs =>
      let! members := canonical_members
        (sort_keys (map (λ kv : jstr * jsval, (kv.1, canonicalize kv.2)) fs)) in
      Ok ("{" +s+ join "," members +s+ "}")
  | VInst _ _ | VMap _ | VSet _ | VBytes _ _ =>
      Throw (TypeError "canonical JSON only accepts plain objects, arrays, and primitives")
  end.

(** An element of an array: a hole is reported as a sparse array. *)
Definition canonical_item (v : jsval) : res jstr :=
  match v with
  | VHole => Throw (TypeError "canonical JSON cannot encode sparse arrays")
  | _ => canonicalize v
  end.

Lemma canonicalize_arr l :
  canonicalize (VArr l) =
  let! items := map_res canonical_item l in Ok ("[" +s+ join "," items +s+ "]").
Proof.
  change (canonicalize (VArr l)) with
    (let! items := (fix go (l : list jsval) : res (list jstr) :=
         match l with
         | [] => Ok []
         | VHole :: _ => Throw (TypeError "canonical JSON cannot encode sparse arrays")
         | x :: l' => let! t := canonicalize x in let! ts := go l' in Ok (t :: ts)
         end) l in
      Ok ("[" +s+ join "," items +s+ "]")).
  f_equal. induction l as [|x l IH]; [done|].
  destruct x; cbn [map_res canonical_item]; rewrite <- ?IH; done.
Qed.

(** ** The normal form of a value: properties sorted at every level, [-0] as [0]. *)
Fixpoint norm (v : jsval) : jsval :=
  match v with
  | VNum n => VNum (canonical_number n)
  | VArr l => VArr (map norm l)
  | VObj fs => VObj (sort_keys (map (λ kv : jstr * jsval, (kv.1, norm kv.2)) fs))
  | _ => v
  end.

(** No object of the value has two properties with one key. *)
Fixpoint wf_keys (v : jsval) : Prop :=
  match v with
  | VArr l => Forall id (map wf_keys l)
  | VObj fs => NoDup fs.*1 /\ Forall id (map (λ kv : jstr * jsval, wf_keys kv.2) fs)
  | _ => True
  end.

Lemma sort_keys_id {A} (l : list (jstr * A)) :
  StronglySorted str_le l.*1 -> sort_keys l = l.
Proof.
  induction l as [|kv l IH]; [done|]. csimpl.
  intros [Hs Hf]%StronglySorted_inv. rewrite IH by done.
  destruct l as [|kv' l]; [done|]. csimpl in *. apply Forall_cons in Hf as [Hle _].
  simpl. by rewrite Hle.
Qed.

Lemma sort_keys_idemp {A} (l : list (jstr * A)) : sort_keys (sort_keys l) = sort_keys l.
Proof. apply sort_keys_id, sort_keys_sorted. Qed.

Lemma canonical_item_norm v :
  canonicalize (norm v) = canonicalize v -> canonical_item (norm v) = canonical_item v.
Proof. by destruct v. Qed.

(** The text of a value is the text of its normal form. *)
Lemma canonicalize_norm v : canonicalize (norm v) = canonicalize v.
Proof.
  induction v as [| | |n| | |l IH|fs IH|t fs IH|fs IH|l IH|t b|k t] using jsval_ind; try done.
  - by destruct n.
  - simpl norm. rewrite !canonicalize_arr. f_equal.
    induction IH as [|x l Hx _ IHl]; [done|].
    cbn [map map_res]. by rewrite canonical_item_norm, IHl.
  - simpl. rewrite (sort_keys_map canonicalize), sort_keys_idemp, map_map.
    do 3 f_equal. apply map_ext_in. intros kv Hkv. simpl.
    rewrite List.Forall_forall in IH. by rewrite IH.
Qed.

(** ** Reading a JSON string back *)
Definition hex_value (c : N) : N := if (c <=? 57)%N then (c - 48)%N else (c - 87)%N.

Fixpoint unquote_body (s : jstr) : option (jstr * jstr) :=
  match s with
  | [] => None
  | c :: s1 =>
      if (c =? 34)%N then Some ([], s1)
      else if (c =? 92)%N then
        match s1 with
        | [] => None
        | e :: s2 =>
            if (e =? 117)%N then
              match s2 with
              | h1 :: h2 :: h3 :: h4 :: s3 =>
                  prod_map (cons (hex_value h1 * 4096 + hex_value h2 * 256
                                  + hex_value h3 * 16 + hex_value h4)%N) id <$> unquote_body s3
              | _ => None
              end
            else
              let d := (if e =? 98 then 8 else if e =? 116 then 9 else if e =? 110 then 10
                        else if e =? 102 then 12 else if e =? 114 then 13 else e)%N in
              prod_map (cons d) id <$> unquote_body s2
        end
      else prod_map (cons c) id <$> unquote_body s1
  end.

Lemma hex_value_digit n : (n < 16)%N -> hex_value (hex_digit n) = n.
Proof.
  intros H. unfold hex_value, hex_digit. destruct (N.ltb_spec n 10).
  - destruct (N.leb_spec (48 + n) 57); lia.
  - destruct (N.leb_spec (87 + n) 57); lia.
Qed.

Lemma unquote_unicode c r :
  (c < 65536)%N ->
  unquote_body (unicode_escape c ++ r) = prod_map (cons c) id <$> unquote_body r.
Proof.
  intros Hc. unfold unicode_escape. cbn [app unquote_body N.eqb Pos.eqb].
  rewrite !hex_value_digit by (apply N.mod_lt; lia).
  replace (_ + _)%N with c; [done|].
  pose proof (N.div_mod c 16). pose proof (N.div_mod (c / 16) 16).
  pose proof (N.div_mod (c / 16 / 16) 16).
  rewrite !N.Div0.div_div in *. change (16 * 16)%N with 256%N in *.
  change (256 * 16)%N with 4096%N in *.
  rewrite (N.mod_small (c / 4096)) by (apply N.Div0.div_lt_upper_bound; lia). lia.
Qed.

Ltac unit_cases c :=
  repeat match goal with
    | |- context [(c =? ?k)%N] => destruct (N.eqb_spec c k); [subst c|]
    end.

Lemma unquote_plain c r :
  (c =? 34)%N = false -> (c =? 92)%N = false ->
  unquote_body (c :: r) = prod_map (cons c) id <$> unquote_body r.
Proof. intros H1 H2. simpl. by rewrite H1, H2. Qed.

Lemma unquote_unit c r :
  unquote_body (quote_unit c ++ r) = prod_map (cons c) id <$> unquote_body r.
Proof.
  unfold quote_unit. unit_cases c; try done.
  destruct (N.ltb_spec c 32); [apply unquote_unicode; lia|].
  destruct (is_high_surrogate c || is_low_surrogate c) eqn:E.
  - apply unquote_unicode. unfold is_high_surrogate, is_low_surrogate in E.
    apply orb_true_iff in E as [[_ ?%N.leb_le]%andb_true_iff|[_ ?%N.leb_le]%andb_true_iff]; lia.
  - apply unquote_plain; by apply N.eqb_neq.
Qed.

Lemma surrogate_plain c :
  is_high_surrogate c = true \/ is_low_surrogate c = true ->
  (c =? 34)%N = false /\ (c =? 92)%N = false.
Proof.
  unfold is_high_surrogate, is_low_surrogate. rewrite !andb_true_iff, !N.leb_le, !N.eqb_neq. lia.
Qed.

Lemma quote_body_cons c d s :
  quote_body (c :: d :: s) =
  if is_high_surrogate c && is_low_surrogate d then c :: d :: quote_body s
  else quote_unit c ++ quote_body (d :: s).
Proof. done. Qed.

Lemma unquote_quote_body s r : unquote_body (quote_body s ++ 34%N :: r) = Some (s, r).
Proof.
  remember (length s) as n eqn:Hn. assert (length s <= n)%nat as Hle by lia. clear Hn.
  revert s Hle. induction n as [|n IH]; intros [|c [|d s]] Hle; try (simpl in Hle; lia); try done.
  - change (quote_body [c]) with (quote_unit c). by rewrite unquote_unit.
  - rewrite quote_body_cons. destruct (is_high_surrogate c && is_low_surrogate d) eqn:E.
    + apply andb_true_iff in E as [Hc Hd].
      destruct (surrogate_plain c) as [? ?]; [by left|].
      destruct (surrogate_plain d) as [? ?]; [by right|].
      cbn [app]. rewrite !unquote_plain by done. by rewrite (IH s) by (simpl in Hle; lia).
    + rewrite <- app_assoc, unquote_unit, (IH (d :: s)) by (simpl in *; lia). done.
Qed.

Lemma json_quote_inj s1 s2 r1 r2 :
  json_quote s1 ++ r1 = json_quote s2 ++ r2 -> s1 = s2 /\ r1 = r2.
Proof.
  unfold json_quote. simpl. rewrite <- !app_assoc. intros [= H].
  pose proof (unquote_quote_body s1 r1) as H1. pose proof (unquote_quote_body s2 r2) as H2.
  simpl in H. rewrite H in H1. rewrite H2 in H1. by injection H1 as -> ->.
Qed.

(** ** Injectivity *)
Definition canonical_member (kv : jstr * jsval) : res jstr :=
  let! t := canonicalize kv.2 in Ok (json_quote kv.1 +s+ ":" +s+ t).

Lemma canonicalize_obj fs :
  canonicalize (VObj fs) =
  let! members := map_res canonical_member (sort_keys fs) in
  Ok ("{" +s+ join "," members +s+ "}").
Proof.
  simpl. rewrite <- (sort_keys_map canonicalize). f_equal.
  induction (sort_keys fs) as [|[k v] l IH]; [done|].
  simpl. unfold canonical_member at 1. simpl. rewrite IH. by destruct (canonicalize v).
Qed.

Lemma norm_obj fs :
  norm (VObj fs) = VObj (map (λ kv, (kv.1, norm kv.2)) (sort_keys fs)).
Proof. simpl. by rewrite (sort_keys_map norm). Qed.

Lemma fget_insert_key kv fs k :
  fget (insert_key kv fs) k = if kv.1 =s= k then kv.2 else fget fs k.
Proof.
  destruct kv as [k1 v1]. induction fs as [|[k2 v2] fs IH]; [done|]. cbn [insert_key fst].
  destruct (str_ltb k2 k1) eqn:E; [|done]. rewrite !fget_cons, IH. cbn [fst snd].
  destruct (k2 =s= k) eqn:E2; [|done]. apply str_eqb_eq in E2 as ->.
  destruct (k1 =s= k) eqn:E1; [|done]. apply str_eqb_eq in E1 as ->.
  by rewrite str_ltb_irrefl in E.
Qed.

(** Sorting the properties and normalising their values keeps what they read as. *)
Lemma vget_norm fs k : vget (norm (VObj fs)) k = norm (fget fs k).
Proof.
  unfold vget. simpl. induction fs as [|[k' v] fs IH]; [done|]. simpl.
  rewrite fget_insert_key, IH. cbn [fst snd]. by destruct (k' =s= k).
Qed.

(** Every number of the value satisfies [ok]. *)
Fixpoint nums_in (ok : jsnum -> bool) (v : jsval) : bool :=
  match v with
  | VNum n => ok n
  | VArr l => forallb (nums_in ok) l
  | VObj fs => forallb (λ kv : jstr * jsval, nums_in ok kv.2) fs
  | _ => true
  end.

Definition is_int (n : jsnum) : bool := match n with NInt _ | NNegZero => true | _ => false end.

(** The numbers of the value are integers: the numbers of receipts (sequences, epochs,
    counts). *)
Definition ints_only : jsval -> bool := nums_in is_int.

(** The numbers of the value are in the form of [jsnum], which every JavaScript number
    has: integers below [2^53] as integers, other numbers by their digits. *)
Definition nums_ok : jsval -> bool := nums_in num_ok.

(** A text is followed by the end of the input or by a delimiter. *)
Definition delimited (r : jstr) : Prop :=
  match r with [] => True | c :: _ => c = 44%N \/ c = 93%N \/ c = 125%N end.

Lemma delimited_not_num r c : delimited r -> head r = Some c -> is_dec_unit c = false.
Proof. destruct r; simpl; [done|]. intros H [= ->]. by destruct H as [->|[->| ->]]. Qed.

(** The first unit of a text tells which kind of value it encodes. *)
Inductive kind := KNull | KTrue | KFalse | KStr | KArr | KObj | KNum | KOther.

Definition unit_kind (c : N) : kind :=
  if (c =? 110)%N then KNull else if (c =? 116)%N then KTrue
  else if (c =? 102)%N then KFalse else if (c =? 34)%N then KStr
  else if (c =? 91)%N then KArr else if (c =? 123)%N then KObj
  else if is_num_unit c then KNum else KOther.

Definition value_kind (v : jsval) : kind :=
  match v with
  | VNull => KNull | VBool true => KTrue | VBool false => KFalse | VStr _ => KStr
  | VArr _ => KArr | VObj _ => KObj | VNum _ => KNum | _ => KOther
  end.

Lemma num_unit_kind c : is_num_unit c = true -> unit_kind c = KNum.
Proof.
  unfold is_num_unit, is_digit, unit_kind, is_num_unit, is_digit. intros H.
  rewrite H. rewrite orb_true_iff, andb_true_iff, !N.leb_le, N.eqb_eq in H.
  repeat match goal with |- context [(c =? ?k)%N] => destruct (N.eqb_spec c k); [lia|] end. done.
Qed.

(** Texts of numbers: they start as a number, have the units of decimals only, and a text
    names one number of the class [ok]. *)
Lemma num_text_units n :
  num_is_finite n = true ->
  Forall (λ c, is_dec_unit c = true) (num_text n) /\
  exists c s, num_text n = c :: s /\ unit_kind c = KNum.
Proof.
  intros H. destruct n as [z| |m e|[]|]; try done.
  - split; [apply num_units, pretty_Z_units|]. destruct (pretty_Z_nonempty z) as (c & s & E).
    exists c, s. split; [done|]. apply num_unit_kind. pose proof (pretty_Z_units z) as HF. rewrite E in HF.
    by apply Forall_cons in HF as [? _].
  - split; [by repeat constructor|]. by eexists _, _.
  - cbn [num_text]. rewrite dec_text_body. destruct (dec_body_head m e) as (c & s & E & Hc).
    pose proof (dec_body_units m e) as Hu. destruct (m <? 0)%Z; (split; [|eexists _, _; split; [rewrite ?E; reflexivity|]]); try done.
    + by constructor.
    + apply num_unit_kind. unfold is_num_unit. by rewrite Hc.
Qed.

Lemma canonicalize_num n s :
  canonicalize (VNum n) = Ok s -> num_is_finite (canonical_number n) = true /\ s = num_text (canonical_number n).
Proof. simpl. intros H. destruct n as [| | |[]|]; simpl in *; try done; by injection H as <-. Qed.

Lemma canonicalize_head v s :
  canonicalize v = Ok s -> exists c s', s = c :: s' /\ unit_kind c = value_kind v.
Proof.
  intros H. destruct v as [| |[]|n| | | | | | | | |];
    try (simpl in H; injection H as <-; eexists _, _; split; [reflexivity|done]); try done.
  - apply canonicalize_num in H as [Hf ->]. destruct (num_text_units _ Hf) as [_ Hh]. exact Hh.
  - rewrite canonicalize_arr in H. inv_res. eexists _, _. split; [reflexivity|done].
  - rewrite canonicalize_obj in H. inv_res. eexists _, _. split; [reflexivity|done].
Qed.

Lemma join_cons sep x l : join sep (x :: l) = x ++ concat (map (λ t, sep ++ t) l).
Proof.
  revert x. induction l as [|y l IH]; intros x; [by rewrite app_nil_r|].
  change (join sep (x :: y :: l)) with (x ++ sep ++ join sep (y :: l)).
  rewrite IH. simpl. by rewrite <- app_assoc.
Qed.

(** Unambiguous parsing, for one element type: [enc] encodes elements, [E] says
    that two elements agree. *)
Section sequences.
Context {A B : Type} (enc : A -> res jstr) (proj : A -> B) (dom : A -> Prop) (close : N).
Hypothesis close_delim : close = 93%N \/ close = 125%N.

Definition enc_inj (a : A) : Prop :=
  forall a' s s' r r', dom a' -> enc a = Ok s -> enc a' = Ok s' ->
    s ++ r = s' ++ r' -> delimited r -> delimited r' -> proj a = proj a' /\ r = r'.

Hypothesis enc_head : forall a s, dom a -> enc a = Ok s ->
  exists c s', s = c :: s' /\ c <> close.

Definition tail_text (parts : list jstr) : jstr := concat (map (λ t, ("," : jstr) ++ t) parts).

Lemma delimited_tail parts r : delimited (tail_text parts ++ close :: r).
Proof. destruct parts; simpl; [|by left]. by destruct close_delim as [->| ->]; auto. Qed.

Lemma tail_text_inj l l' parts parts' r r' :
  Forall enc_inj l -> Forall dom l' ->
  Forall2 (λ a t, enc a = Ok t) l parts -> Forall2 (λ a t, enc a = Ok t) l' parts' ->
  tail_text parts ++ close :: r = tail_text parts' ++ close :: r' ->
  map proj l = map proj l' /\ r = r'.
Proof.
  intros Hl. revert l' parts parts' . induction Hl as [|a l Ha Hl IH];
    intros l' parts parts' Hd H1 H2 E.
  - inversion H1; subst. inversion H2; subst.
    + split; [done|]. by injection E.
    + unfold tail_text in E. simpl in E. by destruct close_delim as [->| ->].
  - inversion H1 as [|? t ? parts1 Ht Hp]; subst. inversion H2 as [|a' t' l1 parts1' Ht' Hp']; subst.
    + unfold tail_text in E. simpl in E. by destruct close_delim as [->| ->].
    + apply Forall_cons in Hd as [Hda Hd].
      unfold tail_text in E. simpl in E. fold (tail_text parts1) (tail_text parts1') in E.
      rewrite <- !app_assoc in E. injection E as E.
      destruct (Ha a' _ _ _ _ Hda Ht Ht' E) as [Hpr E']; [apply delimited_tail..|].
      destruct (IH _ _ _ Hd Hp Hp' E') as [Hm ->]. simpl. by rewrite Hpr, Hm.
Qed.

Lemma join_inj l l' parts parts' r r' :
  Forall enc_inj l -> Forall dom l -> Forall dom l' ->
  map_res enc l = Ok parts -> map_res enc l' = Ok parts' ->
  join "," parts ++ close :: r = join "," parts' ++ close :: r' ->
  map proj l = map proj l' /\ r = r'.
Proof.
  rewrite !map_res_ok. intros Hl Hdl Hd H1 H2 E.
  inversion H1 as [|a t l1 ps Ht Hp]; subst; inversion H2 as [|a' t' l1' ps' Ht' Hp']; subst.
  - split; [done|]. by injection E.
  - apply Forall_cons in Hd as [Hd _]. destruct (enc_head _ _ Hd Ht') as (c & s & -> & Hc).
    rewrite join_cons in E. simpl in E. by injection E as <- _.
  - apply Forall_cons in Hdl as [Hd' _]. destruct (enc_head _ _ Hd' Ht) as (c & s & -> & Hc).
    rewrite join_cons in E. simpl in E. by injection E as -> _.
  - rewrite !join_cons, <- !app_assoc in E. apply Forall_cons in Hl as [Ha Hl], Hd as [Hda Hd].
    fold (tail_text ps) (tail_text ps') in E.
    destruct (Ha a' _ _ _ _ Hda Ht Ht' E) as [Hpr E']; [apply delimited_tail..|].
    destruct (tail_text_inj _ _ _ _ _ _ Hl Hd Hp Hp' E') as [Hm ->]. simpl. by rewrite Hpr, Hm.
Qed.
End sequences.

(** The values whose numbers are in a class on which the text names the number. *)
Section numbers.
Variable ok : jsnum -> bool.
Hypothesis ok_inj : forall n1 n2,
  ok n1 = true -> ok n2 = true ->
  num_is_finite (canonical_number n1) = true -> num_is_finite (canonical_number n2) = true ->
  num_text (canonical_number n1) = num_text (canonical_number n2) ->
  canonical_number n1 = canonical_number n2.

Definition num_value (v : jsval) : Prop := nums_in ok v = true.

Lemma canonical_item_ok v s : canonical_item v = Ok s -> canonicalize v = Ok s.
Proof. by destruct v. Qed.

Lemma canonical_item_head v s :
  canonical_item v = Ok s -> exists c s', s = c :: s' /\ c <> 93%N.
Proof.
  intros H%canonical_item_ok. destruct (canonicalize_head v s H) as (c & s' & -> & Hc).
  exists c, s'. split; [done|]. intros ->. destruct v as [| |[]| | | | | | | | | |]; done.
Qed.

Lemma canonical_member_head kv s :
  canonical_member kv = Ok s -> exists c s', s = c :: s' /\ c <> 125%N.
Proof. unfold canonical_member. intros H. inv_res. eexists _, _. split; [reflexivity|done]. Qed.

Lemma canonical_item_inj v :
  enc_inj canonicalize norm num_value v -> enc_inj canonical_item norm num_value v.
Proof.
  intros H a' s s' r r' Hd H1%canonical_item_ok H2%canonical_item_ok. by apply H.
Qed.

Lemma canonical_member_inj k v :
  enc_inj canonicalize norm num_value v ->
  enc_inj canonical_member (λ kv, (kv.1, norm kv.2)) (λ kv, num_value kv.2) (k, v).
Proof.
  intros H [k' v'] s s' r r' Hd H1 H2 E Hr Hr'. unfold canonical_member in *. cbn [fst snd] in *.
  inv_res. rewrite <- !app_assoc in E. apply json_quote_inj in E as [-> [= E]].
  eapply H in E as [-> ->]; done.
Qed.

Lemma same_kind v v' s s' r r' :
  canonicalize v = Ok s -> canonicalize v' = Ok s' ->
  s ++ r = s' ++ r' -> value_kind v = value_kind v'.
Proof.
  intros H H' E. destruct (canonicalize_head _ _ H) as (c & t & -> & <-).
  destruct (canonicalize_head _ _ H') as (c' & t' & -> & <-). by injection E as -> _.
Qed.

Lemma canonicalize_atom_inj v v' s s' (r r' : jstr) :
  canonicalize v = Ok s -> canonicalize v' = Ok s' -> value_kind v = value_kind v' ->
  match v with VNull | VBool _ => True | _ => False end ->
  s ++ r = s' ++ r' -> norm v = norm v' /\ r = r'.
Proof.
  intros H H' Hk Hv E. destruct v as [| |[]| | | | | | | | | |]; try done;
    destruct v' as [| |[]| | | | | | | | | |]; try done;
    simpl in H, H'; injection H as <-; injection H' as <-; by injection E as ->.
Qed.

Lemma forallb_num_items l : forallb (nums_in ok) l = true -> Forall num_value l.
Proof. intros H. apply List.Forall_forall. by apply forallb_forall. Qed.

Lemma forallb_num_fields (fs : obj) :
  forallb (λ kv : jstr * jsval, nums_in ok kv.2) fs = true -> Forall (λ kv, num_value kv.2) fs.
Proof. intros H. apply List.Forall_forall. intros kv Hkv. rewrite forallb_forall in H. by apply H. Qed.

Lemma canonicalize_enc_inj v : num_value v -> enc_inj canonicalize norm num_value v.
Proof.
  induction v as [| | |n|str| |l IH|fs IH|t fs IH|fs IH|l IH|t b|k t] using jsval_ind;
    intros Hi v' s s' r r' Hi' H H' E Hr Hr'; try done;
    pose proof (same_kind _ _ _ _ _ _ H H' E) as Hk.
  1,2: eapply (canonicalize_atom_inj _ _ _ _ _ _ H H' Hk); done.
  - destruct v' as [| |[]|n'| | | | | | | | |]; try done.
    apply canonicalize_num in H as [Hf ->], H' as [Hf' ->].
    destruct (app_split_units is_dec_unit _ _ _ _ (proj1 (num_text_units _ Hf)) (proj1 (num_text_units _ Hf'))
      (λ c, delimited_not_num r c Hr) (λ c, delimited_not_num r' c Hr') E) as [Et ->].
    split; [|done]. simpl. f_equal. by apply ok_inj.
  - destruct v' as [| |[]| |str'| | | | | | | |]; try done. simpl in *.
    injection H as <-. injection H' as <-. by apply json_quote_inj in E as [-> ->].
  - destruct v' as [| |[]| | | |l'| | | | | |]; try done.
    rewrite canonicalize_arr in H, H'. inv_res. rewrite <- !app_assoc in E. injection E as E.
    assert (map norm l = map norm l' /\ r = r') as [Hm ->].
    { eapply (join_inj canonical_item norm num_value 93%N); [..|eassumption|eassumption|exact E].
      - by left.
      - intros ? ? _. apply canonical_item_head.
      - apply forallb_num_items in Hi. rewrite Forall_forall in Hi, IH |- *.
        intros v Hv. by apply canonical_item_inj, IH, Hi.
      - by apply forallb_num_items.
      - by apply forallb_num_items. }
    simpl. by rewrite Hm.
  - destruct v' as [| |[]| | | | |fs'| | | | |]; try done.
    rewrite canonicalize_obj in H, H'. inv_res. rewrite <- !app_assoc in E. injection E as E.
    apply forallb_num_fields in Hi, Hi'. rewrite !norm_obj.
    assert (map (λ kv, (kv.1, norm kv.2)) (sort_keys fs) =
            map (λ kv, (kv.1, norm kv.2)) (sort_keys fs') /\ r = r') as [Hm ->].
    { eapply (join_inj canonical_member (λ kv, (kv.1, norm kv.2)) (λ kv, num_value kv.2) 125%N);
        [..|eassumption|eassumption|exact E].
      - by right.
      - intros kv s _. apply canonical_member_head.
      - rewrite sort_keys_perm. rewrite Forall_forall in Hi, IH |- *. intros [k v] Hkv.
        apply canonical_member_inj, (IH (k, v)); [done|]. by apply (Hi (k, v)).
      - by rewrite sort_keys_perm.
      - by rewrite sort_keys_perm. }
    by rewrite Hm.
Qed.

Lemma canonicalize_class_inj v1 v2 s :
  num_value v1 -> num_value v2 -> canonicalize v1 = Ok s -> canonicalize v2 = Ok s -> norm v1 = norm v2.
Proof.
  intros Hi1 Hi2 H1 H2. by edestruct (canonicalize_enc_inj v1 Hi1 v2 s s [] []) as [? _].
Qed.
End numbers.

Lemma is_int_inj n1 n2 :
  is_int n1 = true -> is_int n2 = true ->
  num_text (canonical_number n1) = num_text (canonical_number n2) ->
  canonical_number n1 = canonical_number n2.
Proof.
  destruct n1, n2; try done; cbn [canonical_number num_text]; intros _ _ E; apply units_of_string_inj in E;
    f_equal; by apply (inj pretty).
Qed.

Lemma num_ok_inj n1 n2 :
  num_ok n1 = true -> num_ok n2 = true ->
  num_is_finite (canonical_number n1) = true -> num_is_finite (canonical_number n2) = true ->
  num_text (canonical_number n1) = num_text (canonical_number n2) ->
  canonical_number n1 = canonical_number n2.
Proof.
  intros O1 O2 F1 F2. apply num_text_inj; by destruct n1, n2.
Qed.

(** The values that have a canonical text: JSON data. *)
Fixpoint json_data (v : jsval) : bool :=
  match v with
  | VNull | VBool _ | VStr _ => true
  | VNum n => num_is_finite n
  | VArr l => forallb json_data l
  | VObj fs => forallb (λ kv : jstr * jsval, json_data kv.2) fs
  | _ => false
  end.

Lemma map_res_is_ok {A B} (f : A -> res B) l :
  is_ok (map_res f l) = forallb (λ a, is_ok (f a)) l.
Proof.
  induction l as [|a l IH]; simpl; [done|]. rewrite <- IH.
  destruct (f a); simpl; [|done]. by destruct (map_res f l).
Qed.

Lemma is_ok_bind_ok {A B} (m : res A) (f : A -> B) : is_ok (let! a := m in Ok (f a)) = is_ok m.
Proof. by destruct m. Qed.

Lemma canonicalize_is_ok v : is_ok (canonicalize v) = json_data v.
Proof.
  induction v as [| |[]|n| | |l IH|fs IH|t fs IH|fs IH|l IH|t b|k t] using jsval_ind; try done.
  - by destruct n.
  - rewrite canonicalize_arr, is_ok_bind_ok, map_res_is_ok. simpl.
    induction IH as [|x l Hx _ IHl]; [done|]. cbn [forallb]. rewrite IHl. f_equal.
    by destruct x.
  - rewrite canonicalize_obj, is_ok_bind_ok, map_res_is_ok. simpl.
    transitivity (forallb (λ kv : jstr * jsval, json_data kv.2) (sort_keys fs)).
    + rewrite List.Forall_forall in IH. apply eq_true_iff_eq. rewrite !forallb_forall.
      setoid_rewrite is_ok_bind_ok. split; intros H kv Hkv; specialize (H kv Hkv);
        rewrite IH in *; try done;
        by eapply Permutation_in; [apply sort_keys_perm|].
    + apply eq_true_iff_eq. rewrite !forallb_forall.
      split; intros H kv Hkv; apply H; by eapply Permutation_in; [|exact Hkv]; rewrite sort_keys_perm.
Qed.

Lemma canonicalize_ok_inj v1 v2 s1 s2 :
  ints_only v1 = true -> ints_only v2 = true ->
  canonicalize v1 = Ok s1 -> canonicalize v2 = Ok s2 -> s1 = s2 -> norm v1 = norm v2.
Proof. intros H1 H2 E1 E2 ->. eapply (canonicalize_class_inj is_int); eauto using is_int_inj. Qed.

Lemma canonicalize_nums_inj v1 v2 s :
  nums_ok v1 = true -> nums_ok v2 = true ->
  canonicalize v1 = Ok s -> canonicalize v2 = Ok s -> norm v1 = norm v2.
Proof. apply (canonicalize_class_inj num_ok), num_ok_inj. Qed.

(** ** Theorems *)

(** C36 Canonical JSON is injective up to property order, on all values: whatever numbers
    they hold (integers, fractions, numbers beyond [2^53] and with exponents), each in the
    one form that a JavaScript number has in [jsnum], two values with canonical texts have
    the same text exactly when they have the same normal form (properties sorted at every
    level, [-0] as [0]).  So equal canonical texts name equal artifacts, those with fractions
    too. *)
Theorem canonicalize_injective v1 v2 s1 s2 :
  nums_ok v1 = true -> nums_ok v2 = true ->
  canonicalize v1 = Ok s1 -> canonicalize v2 = Ok s2 ->
  s1 = s2 <-> norm v1 = norm v2.
Proof.
  intros Hi1 Hi2 H1 H2. split; [intros ->; by eapply canonicalize_nums_inj|].
  intros E. apply Ok_inj. by rewrite <- H1, <- H2, <- (canonicalize_norm v1), E, canonicalize_norm.
Qed.

Lemma canonicalize_injective_witness :
  norm (VObj [("b" : jstr, VNum (NDec 125 (-2))); ("a" : jstr, VArr [VNull; vstr "x"; VNum NNegZero; VNum (NDec (-3) 21)])])
  = norm (VObj [("a" : jstr, VArr [VNull; vstr "x"; vint 0; VNum (NDec (-3) 21)]); ("b" : jstr, VNum (NDec 125 (-2)))]).
Proof.
  eapply (proj1 (canonicalize_injective
    (VObj [("b" : jstr, VNum (NDec 125 (-2))); ("a" : jstr, VArr [VNull; vstr "x"; VNum NNegZero; VNum (NDec (-3) 21)])])
    (VObj [("a" : jstr, VArr [VNull; vstr "x"; vint 0; VNum (NDec (-3) 21)]); ("b" : jstr, VNum (NDec 125 (-2)))]) _ _
    eq_refl eq_refl eq_refl eq_refl)). reflexivity.
Defined.

(** The canonical text of an object does not depend on the order in which its
    properties were created. *)
Theorem canonicalize_key_order fs fs' :
  NoDup fs.*1 -> fs ≡ₚ fs' -> canonicalize (VObj fs) = canonicalize (VObj fs').
Proof. intros Hnd Hp. rewrite !canonicalize_obj. by rewrite (sort_keys_proper fs fs'). Qed.

Lemma canonicalize_key_order_witness :
  canonicalize (VObj [("b" : jstr, vint 2); ("a" : jstr, VNull)])
  = canonicalize (VObj [("a" : jstr, VNull); ("b" : jstr, vint 2)]).
Proof.
  apply (canonicalize_key_order [("b" : jstr, vint 2); ("a" : jstr, VNull)]).
  - apply (bool_decide_unpack _). vm_compute. exact I.
  - apply perm_swap.
Defined.

(** [canonicalize] returns a text exactly on JSON data: it throws on
    [undefined], functions, symbols, bigints, non-finite numbers, sparse arrays
    and instances of other classes, at any depth, and on nothing else. *)
Theorem canonicalize_total v :
  (exists s, canonicalize v = Ok s) <-> json_data v = true.
Proof.
  rewrite <- canonicalize_is_ok. destruct (canonicalize v); simpl; [naive_solver|].
  split; [by intros [? ?]|done].
Qed.
