(* ===== verification/Hashing.v ===== *)
(** * Hashes, signatures and their text forms

    The hashing and signing helpers of [src/packages/core/src/index.js].  The
    algorithms themselves belong to [node:crypto] and are the operations of the
    class [Crypto]; [CryptoLaws] states what the code relies on. *)

From S2P Require Import Prelude JsValue Regex Canonical.

(** What is hashed: the UTF-8 text of a string, or the bytes of a buffer. *)
Inductive hdata := HText (s : jstr) | HBytes (b : list N).

(** [node:crypto] as the packages use it.  [ed25519_sign] gives the base64url text
    of a signature and [None] when the key is rejected; [ed25519_verify] gives
    [None] when Node throws; [public_of_private] is
    [createPublicKey(k).export(...)]; [call_function] applies a key-lookup callback
    supplied by the caller. *)
Class Crypto := {
  sha256 : hdata -> jstr;
  hmac_sha256 : hdata -> hdata -> jstr;
  ed25519_sign : jstr -> jsval -> option jstr;
  ed25519_verify : jstr -> jsval -> jstr -> option bool;
  decode_base64 : bool -> jstr -> jstr;
  public_of_private : jsval -> option jstr;
  call_function : jstr -> jsval -> jsval
}.

(** [SHA256_PREFIX], [GENESIS] and the other string constants of the core package. *)
Definition SHA256_PREFIX : jstr := "sha256:".
Definition ED25519 : jstr := "Ed25519".
Definition GENESIS : jstr := "GENESIS".

Definition hex_class : re := cset "a-f0-9".

(** [ROOT_RE], [HASH_RE], [NULLIFIER_RE]. *)
Definition ROOT_RE : re := mk_seq (rlit SHA256_PREFIX) (rrep 64 hex_class).
Definition HASH_RE : re := rrep 64 hex_class.
Definition NULLIFIER_RE : re := mk_seq (rlit "nullifier:hmac-sha256:") (rrep 64 hex_class).

(** [RE.test(v)] coerces its argument with [String]. *)
Definition test (r : re) (v : jsval) : bool := re_full r (to_str v).

Definition is_hex (c : N) : bool := cls_match false (class_ranges "a-f0-9") c.

Definition is_hex64 (s : jstr) : Prop := length s = 64 /\ Forall (λ c, is_hex c = true) s.

(** The laws of [node:crypto] the theorems use: a digest is 64 lower-case
    hexadecimal digits, a signature verifies under the matching public key, and
    the base64url text of a signature has no [+] or [/]. *)
Class CryptoLaws (C : Crypto) := {
  sha256_hex : forall d, is_hex64 (sha256 d);
  hmac_hex : forall k d, is_hex64 (hmac_sha256 k d);
  key_pair : jsval -> jsval -> Prop;
  sign_nonempty : forall d sk sig, ed25519_sign d sk = Some sig -> sig <> [];
  sign_alphabet : forall d sk sig, ed25519_sign d sk = Some sig ->
    includes_str "+" sig = false /\ includes_str "/" sig = false;
  sign_verify : forall d sk pk sig, key_pair sk pk -> ed25519_sign d sk = Some sig ->
    ed25519_verify d pk (decode_base64 true sig) = Some true
}.

Section hashing.
Context {C : Crypto}.

Definition bytesForHash (v : jsval) : res hdata :=
  match v with
  | VStr s => Ok (HText s)
  | VBytes _ b => Ok (HBytes b)
  | _ => let! t := canonicalize v in Ok (HText t)
  end.

Definition bytesForKey (v : jsval) : res hdata := bytesForHash v.

Definition bytesForSigning (v : jsval) : res jstr :=
  match v with VStr s => Ok s | _ => canonicalize v end.

(** [sha256Hex] on a string. *)
Definition sha256_text (s : jstr) : jstr := sha256 (HText s).

Definition sha256Hex (v : jsval) : res jstr := let! d := bytesForHash v in Ok (sha256 d).

Definition hmacSha256Hex (keyOrArgs value : jsval) : res jstr :=
  let args := if is_record keyOrArgs && fhas (own_fields keyOrArgs) "key" then own_fields keyOrArgs
              else [("key" : jstr, keyOrArgs); ("value" : jstr, value)] in
  throw_if is_undef (fget args "key") with TypeError "hmacSha256Hex requires a key";
  let! k := bytesForKey (fget args "key") in
  let! d := bytesForHash (fget args "value") in
  Ok (hmac_sha256 k d).

Definition prefixedSha256 (v : jsval) : res jstr :=
  let! h := sha256Hex v in Ok (SHA256_PREFIX +s+ h).

Definition sha256Root (v : jsval) : res jstr := prefixedSha256 v.

Definition EMPTY_MERKLE_ROOT : jstr := SHA256_PREFIX +s+ sha256_text "enigma.merkle.empty.v1".

(** [signPayload]: the base64url text of the signature. *)
Definition signPayload (payloadOrArgs maybePrivateKey : jsval) : res jstr :=
  let args := if is_record payloadOrArgs && fhas (own_fields payloadOrArgs) "payload"
              then own_fields payloadOrArgs
              else [("payload" : jstr, payloadOrArgs); ("privateKey" : jstr, maybePrivateKey)] in
  throw_if is_undef (fget args "privateKey") with TypeError "signPayload requires a privateKey";
  let! data := bytesForSigning (fget args "payload") in
  match ed25519_sign data (fget args "privateKey") with
  | Some sig => Ok sig
  | None => Throw (TypeError "ed25519 sign failed")
  end.

Definition decodeSignature (signature : jsval) : res jstr :=
  let value := if is_record signature then vget signature "value" else signature in
  match value with
  | VStr s => Ok (decode_base64 (negb (includes_str "+" s || includes_str "/" s)) s)
  | _ => Throw (TypeError "signature must be a string")
  end.

Definition verifySignature (payloadOrArgs maybeSignature maybePublicKey : jsval) : bool :=
  let args := if is_record payloadOrArgs && fhas (own_fields payloadOrArgs) "payload"
              then own_fields payloadOrArgs
              else [("payload" : jstr, payloadOrArgs); ("signature" : jstr, maybeSignature);
                    ("publicKey" : jstr, maybePublicKey)] in
  if is_undef (fget args "publicKey") || is_undef (fget args "signature") then false
  else
    match bytesForSigning (fget args "payload"), decodeSignature (fget args "signature") with
    | Ok data, Ok sig => default false (ed25519_verify data (fget args "publicKey") sig)
    | _, _ => false
    end.

(** The call [verifySignature({ payload, signature, publicKey })]. *)
Definition verifySignatureArgs (payload signature publicKey : jsval) : bool :=
  verifySignature (VObj [("payload" : jstr, payload); ("signature" : jstr, signature);
                         ("publicKey" : jstr, publicKey)]) VUndef VUndef.

Definition signPayloadArgs (payload privateKey : jsval) : res jstr :=
  signPayload (VObj [("payload" : jstr, payload); ("privateKey" : jstr, privateKey)]) VUndef.

Definition must_be_root (field : jstr) : exn := TypeError (field +s+ " must be a sha256 root").

Definition normalizeSha256Root (v : jsval) (field : jstr) : res jstr :=
  match v with
  | VStr s =>
      if re_full ROOT_RE s then Ok s
      else if re_full HASH_RE s then Ok (SHA256_PREFIX +s+ s)
      else Throw (must_be_root field)
  | _ => Throw (must_be_root field)
  end.

Definition normalizePreviousHash (v : jsval) : res jstr :=
  if v === VStr GENESIS then Ok GENESIS else normalizeSha256Root v "previous hash".

Definition isPreviousHash (v : jsval) : bool :=
  (v === VStr GENESIS) || test ROOT_RE (v ?? VStr []).

Definition isSha256Root (v : jsval) : bool := test ROOT_RE (v ?? VStr []).

Definition isNullifier (v : jsval) : bool := test NULLIFIER_RE (v ?? VStr []).

Definition requiredString (v : jsval) (field : jstr) : res jstr :=
  match v with
  | VStr s => throw_if s =s= [] with TypeError (field +s+ " is required"); Ok s
  | _ => Throw (TypeError (field +s+ " is required"))
  end.

Definition requiredInteger (v : jsval) (field : jstr) : res jsval :=
  throw_if negb (is_nonneg_integer v)
    with TypeError (field +s+ " must be a non-negative integer");
  Ok v.

(** [rootFromHashable(root, fallback)]. *)
Definition rootFromHashable (root fallback : jsval) : res jstr :=
  if is_undef root then
    let! t := canonicalize fallback in prefixedSha256 (VStr t)
  else normalizeSha256Root root "root".

Record verification := {
  v_ok : bool;
  v_errors : list jstr
}.

(** [verificationResult(errors.length === 0, errors)]. *)
Definition verificationResult (errors : list jstr) : verification :=
  {| v_ok := bool_decide (errors = []); v_errors := errors |}.

Definition verifySha256Root (v : jsval) (field : jstr) : verification :=
  let ok := isSha256Root v in
  {| v_ok := ok; v_errors := if ok then [] else [field +s+ " must be a sha256 root"] |}.

Definition verifyNullifier (v : jsval) (field : jstr) : verification :=
  let ok := isNullifier v in
  {| v_ok := ok; v_errors := if ok then [] else [field +s+ " must be a nullifier"] |}.

(** Keyed addresses and nullifiers. *)
Definition secret_options (args0 : jsval) (maybeValue : jsval) (maybeOptions : obj) : obj :=
  let args := if is_undef args0 then VObj [] else args0 in
  if is_record args && (fhas (own_fields args) "secret" || fhas (own_fields args) "key")
  then own_fields args
  else spread [("secret" : jstr, args); ("value" : jstr, maybeValue)] maybeOptions.

Definition createMemoryAddress (args maybeValue : jsval) (maybeOptions : obj) : res jstr :=
  let options := secret_options args maybeValue maybeOptions in
  let secret := fget options "secret" ?? fget options "key" in
  throw_if is_undef secret with TypeError "createMemoryAddress requires a secret key";
  let payload := VObj [
    ("namespace" : jstr, fget options "namespace" ?? vstr "memory");
    ("tenant_id" : jstr, fget options "tenant_id" ?? fget options "tenantId" ?? VNull);
    ("subject_id" : jstr, fget options "subject_id" ?? fget options "subjectId" ?? VNull);
    ("value" : jstr, fget options "value" ?? fget options "plaintext" ?? fget options "content"
                      ?? fget options "components" ?? VNull)] in
  let! digest := hmacSha256Hex (VObj [("key" : jstr, secret); ("value" : jstr, payload)]) VUndef in
  let prefix := fget options "prefix" ?? vstr "mem" in
  Ok (to_str prefix +s+ ":hmac-sha256:" +s+ digest).

Definition deriveNullifier (args maybeValue : jsval) (maybeOptions : obj) : res jstr :=
  let options := secret_options args maybeValue maybeOptions in
  let secret := fget options "secret" ?? fget options "key" in
  throw_if is_undef secret with TypeError "deriveNullifier requires a secret key";
  let payload := VObj [
    ("domain" : jstr, vstr "enigma.nullifier.v1");
    ("scope" : jstr, fget options "scope" ?? fget options "namespace" ?? vstr "memory-boundary");
    ("subject_ref" : jstr, fget options "subject_ref" ?? fget options "subjectRef" ?? VNull);
    ("capability_id" : jstr, fget options "capability_id" ?? fget options "capabilityId" ?? VNull);
    ("policy_id" : jstr, fget options "policy_id" ?? fget options "policyId" ?? VNull);
    ("value" : jstr, fget options "value" ?? fget options "claim" ?? fget options "ref"
                      ?? fget options "components" ?? VNull)] in
  let! digest := hmacSha256Hex (VObj [("key" : jstr, secret); ("value" : jstr, payload)]) VUndef in
  Ok ("nullifier:hmac-sha256:" +s+ digest).
End hashing.

(** ** Text forms of digests *)

(** The digits of a digest belong to every alphabet with the hexadecimal digits. *)
Lemma hex_alphabet (alphabet : jstr) c :
  forallb (λ d, existsb (N.eqb d) alphabet) "0123456789abcdef" = true -> is_hex c = true -> c ∈ alphabet.
Proof.
  intros Ha H. eapply (proj1 (Forall_forall _ _) (in_alphabet _ _ Ha) c).
  assert (c < 103)%N as Hb.
  { change (is_hex c) with ((97 <=? c) && (c <=? 102) || ((48 <=? c) && (c <=? 57) || false))%N in H.
    rewrite !orb_true_iff, !andb_true_iff, !N.leb_le in H. lia. }
  assert (forallb (λ n, implb (is_hex (N.of_nat n)) (existsb (N.eqb (N.of_nat n)) "0123456789abcdef")) (List.seq 0 103) = true) as E
    by (vm_compute; reflexivity).
  rewrite forallb_forall in E. specialize (E (N.to_nat c)). rewrite N2Nat.id, H in E. cbn [implb] in E.
  assert (existsb (N.eqb c) "0123456789abcdef" = true) as Hx by (apply E, in_seq; lia).
  apply existsb_exists in Hx as (d & Hd & ->%N.eqb_eq). by apply list_elem_of_In.
Qed.

Section digests.
Context {C : Crypto} {L : CryptoLaws C}.

Lemma lang_hex_rep n s :
  re_lang (rrep n hex_class) s <-> length s = n /\ Forall (λ c, is_hex c = true) s.
Proof. apply lang_rrep_cls. Qed.

Lemma HASH_RE_spec s : re_full HASH_RE s = true <-> is_hex64 s.
Proof. rewrite re_full_spec. apply lang_hex_rep. Qed.

Lemma ROOT_RE_spec s :
  re_full ROOT_RE s = true <-> exists h, s = SHA256_PREFIX +s+ h /\ is_hex64 h.
Proof.
  rewrite re_full_spec. unfold ROOT_RE. rewrite lang_rlit_seq.
  by setoid_rewrite lang_hex_rep.
Qed.

Lemma root_of_hex h : is_hex64 h -> re_full ROOT_RE (SHA256_PREFIX +s+ h) = true.
Proof. intros H. apply ROOT_RE_spec. eauto. Qed.

Lemma root_of_sha d : re_full ROOT_RE (SHA256_PREFIX +s+ sha256 d) = true.
Proof. apply root_of_hex, sha256_hex. Qed.

Lemma prefixedSha256_root v s : prefixedSha256 v = Ok s -> re_full ROOT_RE s = true.
Proof. unfold prefixedSha256, sha256Hex. intros H. inv_res. apply root_of_sha. Qed.

Lemma normalizeSha256Root_root v field s :
  normalizeSha256Root v field = Ok s -> re_full ROOT_RE s = true.
Proof.
  destruct v; simpl; try done. destruct (re_full ROOT_RE s0) eqn:E; [naive_solver|].
  destruct (re_full HASH_RE s0) eqn:E'; [|done]. intros [= <-].
  by apply root_of_hex, HASH_RE_spec.
Qed.

Lemma normalizeSha256Root_id s field :
  re_full ROOT_RE s = true -> normalizeSha256Root (VStr s) field = Ok s.
Proof. intros H. simpl. by rewrite H. Qed.

Lemma hash_not_root h : is_hex64 h -> re_full ROOT_RE h = false.
Proof.
  intros [Hlen Hh]. destruct (re_full ROOT_RE h) eqn:E; [|done].
  apply ROOT_RE_spec in E as (h' & -> & [Hlen' _]). rewrite length_app, Hlen' in Hlen.
  by vm_compute in Hlen.
Qed.

Lemma root_re_ne_empty : re_full ROOT_RE [] = false.
Proof. done. Qed.

Lemma root_ne_genesis s : re_full ROOT_RE s = true -> s <> GENESIS.
Proof. intros H ->. by vm_compute in H. Qed.

Lemma normalizePreviousHash_ok v s :
  normalizePreviousHash v = Ok s -> s = GENESIS \/ re_full ROOT_RE s = true.
Proof.
  unfold normalizePreviousHash. destruct (v === VStr GENESIS); [naive_solver|].
  intros H%normalizeSha256Root_root. by right.
Qed.

Lemma isPreviousHash_ok s :
  s = GENESIS \/ re_full ROOT_RE s = true -> isPreviousHash (VStr s) = true.
Proof.
  unfold isPreviousHash. intros [->|H]; [by vm_compute|]. apply orb_true_iff. by right.
Qed.

Lemma requiredString_ok v field s :
  requiredString v field = Ok s <-> v = VStr s /\ s <> [].
Proof.
  destruct v; simpl; try (split; [done|by intros [? _]]).
  destruct (s0 =s= []) eqn:E.
  - apply str_eqb_eq in E. naive_solver.
  - apply str_eqb_neq in E. naive_solver.
Qed.

Lemma requiredInteger_ok v field w :
  requiredInteger v field = Ok w <-> w = v /\ is_nonneg_integer v = true.
Proof. unfold requiredInteger. destruct (is_nonneg_integer v); simpl; naive_solver. Qed.

Lemma verificationResult_ok errors : v_ok (verificationResult errors) = true <-> errors = [].
Proof. apply bool_decide_eq_true. Qed.

Lemma signPayloadArgs_eq payload sk :
  signPayloadArgs payload sk =
  throw_if is_undef sk with TypeError "signPayload requires a privateKey";
  let! data := bytesForSigning payload in
  match ed25519_sign data sk with
  | Some sig => Ok sig
  | None => Throw (TypeError "ed25519 sign failed")
  end.
Proof. reflexivity. Qed.

Lemma signPayloadArgs_nonempty payload sk sig : signPayloadArgs payload sk = Ok sig -> sig <> [].
Proof.
  rewrite signPayloadArgs_eq. intros H. inv_res. destruct (ed25519_sign _ _) eqn:Es; [|done].
  apply Ok_inj in H as <-. by eapply sign_nonempty.
Qed.

Lemma verifySignatureArgs_eq payload signature pk :
  verifySignatureArgs payload signature pk =
  if is_undef pk || is_undef signature then false
  else match bytesForSigning payload, decodeSignature signature with
       | Ok data, Ok sig => default false (ed25519_verify data pk sig)
       | _, _ => false
       end.
Proof. reflexivity. Qed.

(** The signature record of a receipt or checkpoint verifies. *)
Lemma verify_signed payload sk pk sig signature :
  key_pair sk pk -> is_undef pk = false -> signPayloadArgs payload sk = Ok sig ->
  is_record signature = true -> vget signature "value" = VStr sig ->
  verifySignatureArgs payload signature pk = true.
Proof.
  rewrite signPayloadArgs_eq, verifySignatureArgs_eq.
  intros Hk Hu H Hr Hv. rewrite Hu. replace (is_undef signature) with false by by destruct signature.
  simpl orb. inv_res. rewrite H0. unfold decodeSignature. rewrite Hr, Hv.
  destruct (ed25519_sign x sk) as [sig'|] eqn:Es; [|done]. apply Ok_inj in H as ->.
  destruct (sign_alphabet _ _ _ Es) as [-> ->]. simpl.
  by rewrite (sign_verify _ _ _ _ Hk Es).
Qed.
End digests.

(** ** A concrete instance

    A polynomial checksum in place of SHA-256 and a keyed checksum in place of
    Ed25519.  It satisfies the laws and is only used to evaluate the examples. *)
Definition checksum_step (h c : N) : N := N.land (h * 65599 + c + 1) 18446744073709551615.

Definition checksum (s : list N) : N := foldl checksum_step 7%N s.

Fixpoint hex_digits (n : nat) (h : N) : jstr :=
  match n with
  | 0 => []
  | S n' => hex_digit (N.land h 15) :: hex_digits n' (N.shiftr h 4)
  end.

Definition hdata_units (d : hdata) : list N :=
  match d with HText s => 1%N :: s | HBytes b => 2%N :: b end.

Definition sample_tag (k d : list N) : jstr := hex_digits 64 (checksum (k ++ 65536%N :: d)).

#[export] Instance SampleCrypto : Crypto := {
  sha256 d := hex_digits 64 (checksum (hdata_units d));
  hmac_sha256 k d := sample_tag (hdata_units k) (hdata_units d);
  ed25519_sign d sk := Some (sample_tag (to_str sk) d);
  ed25519_verify d pk sig := Some (sig =s= sample_tag (to_str pk) d);
  decode_base64 _ s := s;
  public_of_private sk := Some (to_str sk);
  call_function _ _ := VUndef
}.

Lemma hex_digit_hex n : (n < 16)%N -> is_hex (hex_digit n) = true.
Proof.
  intros H. unfold is_hex, hex_digit, cls_match. simpl existsb.
  destruct (N.ltb_spec n 10); simpl; rewrite orb_false_r; apply orb_true_iff;
    [right|left]; apply andb_true_iff; split; apply N.leb_le; lia.
Qed.

Lemma hex_digits_hex n h :
  length (hex_digits n h) = n /\ Forall (λ c, is_hex c = true) (hex_digits n h).
Proof.
  revert h. induction n as [|n IH]; intros h; simpl; [done|].
  destruct (IH (N.shiftr h 4)) as [-> Hf]. split; [done|]. constructor; [|done].
  apply hex_digit_hex. change 15%N with (N.ones 4). rewrite N.land_ones. by apply N.mod_lt.
Qed.

Lemma hex_no_char x s :
  is_hex x = false -> Forall (λ c, is_hex c = true) s -> includes_str [x] s = false.
Proof.
  intros Hx. induction 1 as [|c s Hc Hs IH]; [done|]. cbn [includes_str starts_with].
  rewrite IH, orb_false_r, andb_true_r. apply N.eqb_neq. intros ->. congruence.
Qed.

#[export] Instance SampleLaws : CryptoLaws SampleCrypto.
Proof.
  refine {| key_pair sk pk := sk = pk |}.
  - intros d. apply hex_digits_hex.
  - intros k d. apply hex_digits_hex.
  - intros d sk sig [= <-]. done.
  - intros d sk sig [= <-]. split; apply hex_no_char; try done; apply hex_digits_hex.
  - intros d sk pk sig -> [= <-]. simpl. by rewrite str_eqb_refl.
Defined.
