(* ===== verification/Merkle.v ===== *)
(** * The Merkle set

    [MerkleSet] and its helpers of [src/packages/core/src/index.js]: a set of
    strings with an order-independent root, membership proofs and non-membership
    proofs.  The root binds the set, membership proofs are complete and sound up
    to an explicit SHA-256 collision, and honest non-membership proofs verify. *)

From S2P Require Import Prelude JsValue Regex Canonical Hashing.

Section merkle.
Context {C : Crypto}.

Definition nul : jstr := [0%N].

Definition leaf_preimage (value : jstr) : jstr := "enigma.merkle.leaf.v1" +s+ nul +s+ value.

Definition node_preimage (left right : jstr) : jstr :=
  "enigma.merkle.node.v1" +s+ nul +s+ left +s+ nul +s+ right.

Definition merkleLeafHash (value : jstr) : jstr := sha256_text (leaf_preimage value).

Definition merkleNodeHash (left right : jstr) : jstr := sha256_text (node_preimage left right).

Fixpoint nextMerkleLevel (level : list jstr) : list jstr :=
  match level with
  | [] => []
  | [x] => [x]
  | x :: y :: level' => merkleNodeHash x y :: nextMerkleLevel level'
  end.

(** [while (level.length > 1) level = nextMerkleLevel(level)]; a level halves, so
    its length is enough fuel. *)
Fixpoint merkle_up (fuel : nat) (level : list jstr) : jstr :=
  match level with
  | [] => []
  | [x] => x
  | _ :: _ :: _ =>
      match fuel with
      | 0 => []
      | S fuel' => merkle_up fuel' (nextMerkleLevel level)
      end
  end.

Definition merkleRoot (values : list jstr) : jstr :=
  match values with
  | [] => EMPTY_MERKLE_ROOT
  | _ =>
      let level := map merkleLeafHash values in
      SHA256_PREFIX +s+ merkle_up (length level) level
  end.

(** One step of the path: the side the sibling stands on and its hash. *)
Definition sibling_of (level : list jstr) (cursor : nat) : list (bool * jstr) :=
  let siblingIndex := if Nat.even cursor then cursor + 1 else cursor - 1 in
  match level !! siblingIndex with
  | Some h => [(siblingIndex <? cursor, h)]
  | None => []
  end.

Fixpoint merkle_path (fuel : nat) (level : list jstr) (cursor : nat) : list (bool * jstr) :=
  match level with
  | [] | [_] => []
  | _ :: _ :: _ =>
      match fuel with
      | 0 => []
      | S fuel' => sibling_of level cursor ++
                   merkle_path fuel' (nextMerkleLevel level) (cursor / 2)
      end
  end.

Definition sibling_value (s : bool * jstr) : jsval :=
  VObj [("position" : jstr, vstr (if s.1 then "left" else "right")); ("hash" : jstr, VStr s.2)].

Definition membershipProof (values : list jstr) (index : nat) : jsval :=
  let level := map merkleLeafHash values in
  VObj [("type" : jstr, vstr "membership");
        ("value" : jstr, match values !! index with Some v => VStr v | None => VUndef end);
        ("index" : jstr, vnat index);
        ("size" : jstr, vnat (length values));
        ("root" : jstr, VStr (merkleRoot values));
        ("siblings" : jstr, VArr (map sibling_value (merkle_path (length level) level index)))].

(** The binary search of [lowerBound]; the interval shrinks, so its length is
    enough fuel. *)
Fixpoint lowerBound_from (fuel : nat) (values : list jstr) (value : jstr) (low high : nat) : nat :=
  match fuel with
  | 0 => low
  | S fuel' =>
      if low <? high then
        let mid := (low + high) / 2 in
        match values !! mid with
        | Some v =>
            if str_ltb v value then lowerBound_from fuel' values value (S mid) high
            else lowerBound_from fuel' values value low mid
        | None => low
        end
      else low
  end.

Definition lowerBound (values : list jstr) (value : jstr) : nat :=
  lowerBound_from (length values) values value 0 (length values).

(** ** The class [MerkleSet] *)
Record MerkleSet := { ms_values : list jstr }.

Definition normalizeLeafValue (v : jsval) : res jstr :=
  match v with VStr s => Ok s | _ => canonicalize v end.

Definition ms_insert (m : MerkleSet) (v : jsval) : res MerkleSet :=
  let! leaf := normalizeLeafValue v in Ok {| ms_values := set_add leaf (ms_values m) |}.

Definition ms_empty : MerkleSet := {| ms_values := [] |}.

Definition ms_new (values : list jsval) : res MerkleSet :=
  foldl_res (λ m v, ms_insert m (elem v)) ms_empty values.

(** [delete] returns whether the value was present. *)
Definition ms_delete (m : MerkleSet) (v : jsval) : res (bool * MerkleSet) :=
  let! leaf := normalizeLeafValue v in
  Ok (mem_str leaf (ms_values m), {| ms_values := set_delete leaf (ms_values m) |}).

Definition ms_has (m : MerkleSet) (v : jsval) : res bool :=
  let! leaf := normalizeLeafValue v in Ok (mem_str leaf (ms_values m)).

Definition ms_sortedValues (m : MerkleSet) : list jstr := sort_strings (ms_values m).

Definition ms_root (m : MerkleSet) : jstr := merkleRoot (ms_sortedValues m).

(** [values.indexOf(leaf)]. *)
Fixpoint index_of (values : list jstr) (leaf : jstr) : option nat :=
  match values with
  | [] => None
  | v :: values' => if v =s= leaf then Some 0 else S <$> index_of values' leaf
  end.

Definition ms_proveMembership (m : MerkleSet) (v : jsval) : res jsval :=
  let! leaf := normalizeLeafValue v in
  let values := ms_sortedValues m in
  match index_of values leaf with
  | None => Throw (RangeError "value is not a member of the MerkleSet")
  | Some index => Ok (membershipProof values index)
  end.

Definition ms_proveNonMembership (m : MerkleSet) (v : jsval) : res jsval :=
  let! leaf := normalizeLeafValue v in
  let values := ms_sortedValues m in
  throw_if mem_str leaf values with RangeError "value is already a member of the MerkleSet";
  let insertion := lowerBound values leaf in
  let predecessor := if 0 <? insertion then membershipProof values (insertion - 1) else VNull in
  let successor := if insertion <? length values then membershipProof values insertion else VNull in
  Ok (VObj [("type" : jstr, vstr "non_membership");
            ("value" : jstr, VStr leaf);
            ("size" : jstr, vnat (length values));
            ("root" : jstr, VStr (merkleRoot values));
            ("predecessor" : jstr, predecessor);
            ("successor" : jstr, successor)]).

(** The loop over [proof.siblings]; [None] is [return false]. *)
Definition fold_sibling (current : jstr) (sibling : jsval) : option jstr :=
  if negb (is_record sibling) || negb (test HASH_RE (vget sibling "hash" ?? VStr [])) then None
  else
    let hash := to_str (vget sibling "hash") in
    if vget sibling "position" === vstr "left" then Some (merkleNodeHash hash current)
    else if vget sibling "position" === vstr "right" then Some (merkleNodeHash current hash)
    else None.

Fixpoint fold_siblings (current : jstr) (siblings : list jsval) : option jstr :=
  match siblings with
  | [] => Some current
  | s :: siblings' =>
      match fold_sibling current s with
      | Some current' => fold_siblings current' siblings'
      | None => None
      end
  end.

(** [a <= b] on values that are numbers. *)
Definition num_leb (a b : jsval) : bool :=
  match a, b with
  | VNum x, VNum y => num_ltb x y || num_seq x y
  | _, _ => false
  end.

(** The static [verifyMembership(proof, expectedRoot)]. *)
Definition verifyMembership (proof expectedRoot : jsval) : bool :=
  if negb (is_record proof) || (vget proof "type" !== vstr "membership")
     || negb (is_string (vget proof "value")) then false
  else if negb (is_nonneg_integer (vget proof "index")) then false
  else if negb (is_integer (vget proof "size")) || num_leb (vget proof "size") (vget proof "index")
  then false
  else match vget proof "siblings" with
       | VArr siblings =>
           match fold_siblings (merkleLeafHash (str_of (vget proof "value"))) siblings with
           | None => false
           | Some current =>
               let root := VStr (SHA256_PREFIX +s+ current) in
               (root === vget proof "root") && (root === expectedRoot)
           end
       | _ => false
       end.

(** [x + d] on a value that is an integer. *)
Definition vadd (x : jsval) (d : Z) : jsval :=
  match x with VNum n => VNum (num_add n d) | _ => VNum NNaN end.

Definition verifyNonMembership (proof expectedRoot : jsval) : bool :=
  if negb (is_record proof) || (vget proof "type" !== vstr "non_membership")
     || negb (is_string (vget proof "value")) then false
  else if negb (is_nonneg_integer (vget proof "size")) then false
  else if vget proof "root" !== expectedRoot then false
  else
    let predecessor := vget proof "predecessor" in
    let successor := vget proof "successor" in
    if vget proof "size" === vint 0 then
      (predecessor === VNull) && (successor === VNull)
      && (vget proof "root" === VStr EMPTY_MERKLE_ROOT)
    else if (predecessor === VNull) && (successor === VNull) then false
    else if (predecessor !== VNull)
            && negb (verifyMembership predecessor (vget proof "root")
                     && str_ltb (str_of (vget predecessor "value")) (str_of (vget proof "value")))
    then false
    else if (successor !== VNull)
            && negb (verifyMembership successor (vget proof "root")
                     && str_ltb (str_of (vget proof "value")) (str_of (vget successor "value")))
    then false
    else if (predecessor !== VNull) && (successor !== VNull) then
      (vadd (vget predecessor "index") 1 === vget successor "index")
      && (vget predecessor "size" === vget proof "size")
      && (vget successor "size" === vget proof "size")
    else if predecessor === VNull then
      (vget successor "index" === vint 0) && (vget successor "size" === vget proof "size")
    else
      (vget predecessor "index" === vadd (vget proof "size") (-1))
      && (vget predecessor "size" === vget proof "size").

(** The exported wrappers. *)
Definition merkleSetRoot (values : jsval) : res jstr :=
  match values with
  | VArr l => let! m := ms_new l in Ok (ms_root m)
  | _ => Throw (TypeError "merkleSetRoot requires an array")
  end.

Definition createMerkleMembershipProof (valuesOrArgs maybeValue : jsval) : res jsval :=
  let args := if is_array valuesOrArgs
              then [("values" : jstr, valuesOrArgs); ("value" : jstr, maybeValue)]
              else own_fields valuesOrArgs in
  match fget args "values" with
  | VArr l => let! m := ms_new l in ms_proveMembership m (fget args "value")
  | _ => Throw (TypeError "createMerkleMembershipProof requires values")
  end.

Definition createMerkleNonMembershipProof (valuesOrArgs maybeValue : jsval) : res jsval :=
  let args := if is_array valuesOrArgs
              then [("values" : jstr, valuesOrArgs); ("value" : jstr, maybeValue)]
              else own_fields valuesOrArgs in
  match fget args "values" with
  | VArr l => let! m := ms_new l in ms_proveNonMembership m (fget args "value")
  | _ => Throw (TypeError "createMerkleNonMembershipProof requires values")
  end.

Definition proof_args (proofOrArgs maybeExpectedRoot : jsval) : obj :=
  if is_record proofOrArgs && fhas (own_fields proofOrArgs) "proof" then own_fields proofOrArgs
  else [("proof" : jstr, proofOrArgs); ("expectedRoot" : jstr, maybeExpectedRoot)].

Definition expected_root (args : obj) : jsval :=
  fget args "expectedRoot" ?? fget args "expected_root" ?? vget (fget args "proof") "root".

(** A parameter default applies to [undefined] only: the [expectedRoot] of the
    static methods falls back to [proof?.root]. *)
Definition default_root (proof expectedRoot : jsval) : jsval :=
  if is_undef expectedRoot then vget proof "root" else expectedRoot.

Definition verifyMerkleMembershipProof (proofOrArgs maybeExpectedRoot : jsval) : bool :=
  let args := proof_args proofOrArgs maybeExpectedRoot in
  verifyMembership (fget args "proof") (default_root (fget args "proof") (expected_root args)).

Definition verifyMerkleNonMembershipProof (proofOrArgs maybeExpectedRoot : jsval) : bool :=
  let args := proof_args proofOrArgs maybeExpectedRoot in
  verifyNonMembership (fget args "proof") (default_root (fget args "proof") (expected_root args)).
End merkle.

(** ** Trees

    The hashes of a level are the hashes of trees over the values. *)
Section trees.
Context {C : Crypto} {L : CryptoLaws C}.

Inductive mtree := MLeaf (v : jstr) | MNode (l r : mtree).

Fixpoint thash (t : mtree) : jstr :=
  match t with
  | MLeaf v => merkleLeafHash v
  | MNode l r => merkleNodeHash (thash l) (thash r)
  end.

Definition tpreimage (t : mtree) : jstr :=
  match t with
  | MLeaf v => leaf_preimage v
  | MNode l r => node_preimage (thash l) (thash r)
  end.

Fixpoint leaves (t : mtree) : list jstr :=
  match t with MLeaf v => [v] | MNode l r => leaves l ++ leaves r end.

(** The texts hashed to compute the hash of a tree. *)
Fixpoint tinputs (t : mtree) : list jstr :=
  tpreimage t :: match t with MLeaf _ => [] | MNode l r => tinputs l ++ tinputs r end.

Fixpoint next_trees (ts : list mtree) : list mtree :=
  match ts with
  | [] => []
  | [t] => [t]
  | t1 :: t2 :: ts' => MNode t1 t2 :: next_trees ts'
  end.

Fixpoint tree_up (fuel : nat) (ts : list mtree) : option mtree :=
  match ts with
  | [] => None
  | [t] => Some t
  | _ :: _ :: _ => match fuel with 0 => None | S fuel' => tree_up fuel' (next_trees ts) end
  end.

Definition merkle_tree (values : list jstr) : option mtree :=
  tree_up (length values) (map MLeaf values).

Definition merkle_inputs (values : list jstr) : list jstr :=
  match merkle_tree values with
  | Some t => tinputs t
  | None => ["enigma.merkle.empty.v1" : jstr]
  end.

(** Two distinct texts, one of each list, with one digest. *)
Definition collision (xs ys : list jstr) : Prop :=
  exists x y, x ∈ xs /\ y ∈ ys /\ x <> y /\ sha256_text x = sha256_text y.

Lemma list_ind2 {A} (P : list A -> Prop) :
  P [] -> (forall x, P [x]) -> (forall x y l, P l -> P (x :: y :: l)) -> forall l, P l.
Proof.
  intros H0 H1 H2. fix IH 1. intros [|x [|y l]]; [apply H0|apply H1|apply H2, IH].
Qed.

Lemma next_trees_hash ts : map thash (next_trees ts) = nextMerkleLevel (map thash ts).
Proof. induction ts as [| |t1 t2 ts IH] using list_ind2; simpl; by rewrite ?IH. Qed.

Lemma next_trees_leaves ts : concat (map leaves (next_trees ts)) = concat (map leaves ts).
Proof.
  induction ts as [| |t1 t2 ts IH] using list_ind2; simpl; try done.
  by rewrite IH, <- app_assoc.
Qed.

Lemma next_trees_length ts : (2 * length (next_trees ts) <= length ts + 1)%nat.
Proof. induction ts as [| |t1 t2 ts IH] using list_ind2; simpl in *; lia. Qed.

Lemma nextMerkleLevel_length level :
  (2 * length (nextMerkleLevel level) <= length level + 1)%nat.
Proof. induction level as [| |x y l IH] using list_ind2; simpl in *; lia. Qed.

Lemma tree_up_spec fuel ts :
  ts <> [] -> (length ts <= S fuel)%nat ->
  exists t, tree_up fuel ts = Some t /\ thash t = merkle_up fuel (map thash ts)
            /\ leaves t = concat (map leaves ts).
Proof.
  revert ts. induction fuel as [|fuel IH]; intros [|t1 [|t2 ts]] Hne Hlen; try done.
  - exists t1. simpl. by rewrite app_nil_r.
  - simpl in Hlen. lia.
  - exists t1. simpl. by rewrite app_nil_r.
  - destruct (IH (next_trees (t1 :: t2 :: ts))) as (t & Ht & Hh & Hl); [done| |].
    { pose proof (next_trees_length (t1 :: t2 :: ts)). cbn [length] in *. lia. }
    exists t. rewrite next_trees_leaves in Hl. rewrite next_trees_hash in Hh. done.
Qed.

Lemma merkle_tree_spec values :
  values <> [] ->
  exists t, merkle_tree values = Some t /\ leaves t = values
            /\ merkleRoot values = SHA256_PREFIX +s+ thash t.
Proof.
  intros Hne. unfold merkle_tree.
  destruct (tree_up_spec (length values) (map MLeaf values)) as (t & Ht & Hh & Hl).
  { by destruct values. }
  { rewrite length_map. lia. }
  exists t. split_and!; [done| |].
  - rewrite Hl, map_map. simpl. clear. induction values; simpl; congruence.
  - unfold merkleRoot. destruct values; [done|]. by rewrite Hh, map_map, length_map.
Qed.

Lemma thash_preimage t : thash t = sha256_text (tpreimage t).
Proof. by destruct t. Qed.

Lemma thash_hex t : is_hex64 (thash t).
Proof. rewrite thash_preimage. apply sha256_hex. Qed.

Lemma tpreimage_input t : tpreimage t ∈ tinputs t.
Proof. destruct t; by left. Qed.

Lemma leaf_node_disjoint v l r : leaf_preimage v <> node_preimage l r.
Proof. unfold leaf_preimage, node_preimage. by intros [=]. Qed.

Lemma leaf_preimage_inj v w : leaf_preimage v = leaf_preimage w -> v = w.
Proof. unfold leaf_preimage. by intros [= ->]. Qed.

Lemma node_preimage_inj l r l' r' :
  is_hex64 l -> is_hex64 l' -> node_preimage l r = node_preimage l' r' -> l = l' /\ r = r'.
Proof.
  intros [Hl _] [Hl' _] E. unfold node_preimage in E.
  apply app_inv_head, app_inv_head in E.
  apply app_inj_1 in E as [-> E]; [|congruence]. by apply app_inv_head in E as ->.
Qed.

Lemma collision_weaken xs ys xs' ys' :
  collision xs ys -> xs ⊆ xs' -> ys ⊆ ys' -> collision xs' ys'.
Proof. intros (x & y & Hx & Hy & H) Hs Ht. exists x, y. set_solver. Qed.

(** Equal hashes come from equal texts, or exhibit a collision. *)
Lemma sha256_eq_or_collision x y xs ys :
  x ∈ xs -> y ∈ ys -> sha256_text x = sha256_text y -> x = y \/ collision xs ys.
Proof.
  intros Hx Hy H. destruct (decide (x = y)); [by left|]. right. by exists x, y.
Qed.

Lemma tree_binding t1 t2 :
  thash t1 = thash t2 -> t1 = t2 \/ collision (tinputs t1) (tinputs t2).
Proof.
  revert t2. induction t1 as [v|l1 IHl r1 IHr]; intros t2 H;
    rewrite (thash_preimage t2), thash_preimage in H;
    destruct (sha256_eq_or_collision _ _ _ _ (tpreimage_input _) (tpreimage_input t2) H)
      as [E|]; auto; destruct t2 as [w|l2 r2]; simpl in E.
  - left. f_equal. by apply leaf_preimage_inj.
  - by apply leaf_node_disjoint in E.
  - symmetry in E. by apply leaf_node_disjoint in E.
  - apply node_preimage_inj in E as [El Er]; [|apply thash_hex..].
    destruct (IHl _ El) as [->|Hc]; [destruct (IHr _ Er) as [->|Hc]; [by left|]|];
      right; (eapply collision_weaken; [exact Hc|simpl; set_solver..]).
Qed.
End trees.

(** ** Paths *)
Section paths.
Context {C : Crypto} {L : CryptoLaws C}.

Lemma nextMerkleLevel_lookup level i :
  nextMerkleLevel level !! i =
  match level !! (2 * i)%nat, level !! (2 * i + 1)%nat with
  | Some x, Some y => Some (merkleNodeHash x y)
  | Some x, None => Some x
  | None, _ => None
  end.
Proof.
  revert i. induction level as [|x|x y level IH] using list_ind2; intros i.
  - by rewrite !lookup_nil.
  - destruct i as [|i]; [done|]. replace (2 * S i)%nat with (S (S (2 * i))) by lia.
    simpl. by rewrite !lookup_nil.
  - destruct i as [|i]; [done|]. replace (2 * S i)%nat with (S (S (2 * i))) by lia.
    simpl. rewrite IH. by replace (i + (i + 0))%nat with (2 * i)%nat by lia.
Qed.

(** Following the path of a cursor from its hash reaches the root hash. *)
Definition step_hash (current : jstr) (s : bool * jstr) : jstr :=
  if s.1 then merkleNodeHash s.2 current else merkleNodeHash current s.2.

Lemma sibling_step level cursor h :
  level !! cursor = Some h ->
  nextMerkleLevel level !! (cursor / 2)%nat = Some (foldl step_hash h (sibling_of level cursor)).
Proof.
  intros Hc. rewrite nextMerkleLevel_lookup. unfold sibling_of.
  destruct (Nat.even cursor) eqn:Ee.
  - apply Nat.even_spec in Ee as [k ->].
    assert (2 * k / 2 = k)%nat as -> by (symmetry; apply (Nat.div_unique _ 2 k 0); lia).
    rewrite Hc. destruct (level !! (2 * k + 1)%nat) as [y|]; [|done].
    cbn [foldl]. unfold step_hash. cbn [fst snd].
    by destruct (Nat.ltb_spec (2 * k + 1) (2 * k)); [lia|].
  - assert (Nat.odd cursor = true) as [k ->]%Nat.odd_spec by (by rewrite <- Nat.negb_even, Ee).
    assert ((2 * k + 1) / 2 = k)%nat as -> by (symmetry; apply (Nat.div_unique _ 2 k 1); lia).
    replace (2 * k + 1 - 1)%nat with (2 * k)%nat by lia.
    destruct (lookup_lt_is_Some_2 level (2 * k)) as [x Hx].
    { apply lookup_lt_Some in Hc. lia. }
    rewrite Hx, Hc. cbn [foldl]. unfold step_hash. cbn [fst snd].
    by destruct (Nat.ltb_spec (2 * k) (2 * k + 1)); [|lia].
Qed.

Lemma merkle_path_root fuel level cursor h :
  level !! cursor = Some h -> (length level <= S fuel)%nat ->
  foldl step_hash h (merkle_path fuel level cursor) = merkle_up fuel level.
Proof.
  revert level cursor h. induction fuel as [|fuel IH]; intros level cursor h Hc Hlen;
    destruct level as [|x [|y level]]; try done.
  - destruct cursor; [|done]. by injection Hc as ->.
  - simpl in Hlen. lia.
  - destruct cursor; [|done]. by injection Hc as ->.
  - cbn [merkle_path merkle_up]. rewrite foldl_app. apply IH.
    + by apply sibling_step.
    + pose proof (nextMerkleLevel_length (x :: y :: level)). simpl length in *. lia.
Qed.

(** Every hash of a level above hexadecimal hashes is hexadecimal. *)
Lemma nextMerkleLevel_hex level : Forall is_hex64 level -> Forall is_hex64 (nextMerkleLevel level).
Proof.
  induction level as [| |x y l IH] using list_ind2; simpl; try done.
  intros [_ [_ H]%Forall_cons]%Forall_cons. constructor; [apply sha256_hex|auto].
Qed.

Lemma merkle_path_hex fuel level cursor :
  Forall is_hex64 level -> Forall (λ s, is_hex64 s.2) (merkle_path fuel level cursor).
Proof.
  revert level cursor. induction fuel as [|fuel IH]; intros [|x [|y level]] cursor H; try constructor.
  apply Forall_app. split; [|by apply IH, nextMerkleLevel_hex].
  unfold sibling_of. destruct (_ !! _) as [h|] eqn:E; [|constructor].
  apply Forall_singleton. by eapply Forall_lookup_1 in H.
Qed.

Lemma fold_sibling_value current s :
  is_hex64 s.2 -> fold_sibling current (sibling_value s) = Some (step_hash current s).
Proof.
  intros H%HASH_RE_spec. unfold fold_sibling.
  change (test HASH_RE _) with (re_full HASH_RE s.2). rewrite H.
  by destruct s as [[] h].
Qed.

Lemma fold_siblings_values current path :
  Forall (λ s, is_hex64 s.2) path ->
  fold_siblings current (map sibling_value path) = Some (foldl step_hash current path).
Proof.
  intros H. revert current. induction H as [|s path Hs H IH]; intros current; [done|].
  cbn [map fold_siblings]. by rewrite fold_sibling_value.
Qed.

Lemma leaf_hashes_hex values : Forall is_hex64 (map merkleLeafHash values).
Proof. apply Forall_forall. intros h (v & -> & _)%list_elem_of_fmap. apply sha256_hex. Qed.

Lemma vnat_nonneg n : is_nonneg_integer (vnat n) = true.
Proof.
  simpl. apply negb_true_iff. unfold num_ltb, dec_ltb. simpl. apply Z.ltb_ge. lia.
Qed.

Lemma vnat_leb a b : num_leb (vnat a) (vnat b) = (a <=? b).
Proof.
  unfold num_leb, vnat. unfold num_ltb, dec_ltb. simpl. rewrite !Z.mul_1_r.
  destruct (Nat.leb_spec a b) as [H|H].
  - apply orb_true_iff. destruct (decide (a = b)) as [->|].
    + right. destruct b; simpl; by rewrite ?bool_decide_eq_true.
    + left. apply Z.ltb_lt. lia.
  - apply orb_false_iff. split; [apply Z.ltb_ge; lia|].
    destruct (Z.of_nat a) as [| |] eqn:Ea; try lia.
    destruct (Z.of_nat b) as [| |] eqn:Eb; try lia; simpl; rewrite ?bool_decide_eq_false; naive_solver lia.
Qed.

Lemma verifyMembership_mk value index size root siblings expected :
  verifyMembership
    (VObj [("type" : jstr, vstr "membership"); ("value" : jstr, VStr value);
           ("index" : jstr, index); ("size" : jstr, size); ("root" : jstr, root);
           ("siblings" : jstr, VArr siblings)]) expected =
  if negb (is_nonneg_integer index) then false
  else if negb (is_integer size) || num_leb size index then false
  else match fold_siblings (merkleLeafHash value) siblings with
       | None => false
       | Some current =>
           (VStr (SHA256_PREFIX +s+ current) === root)
           && (VStr (SHA256_PREFIX +s+ current) === expected)
       end.
Proof. reflexivity. Qed.

(** Membership proofs built from a list and an index of it verify. *)
Lemma membershipProof_verifies values index v :
  values !! index = Some v ->
  verifyMembership (membershipProof values index) (VStr (merkleRoot values)) = true.
Proof.
  intros Hv. unfold membershipProof. rewrite Hv, verifyMembership_mk, vnat_nonneg, vnat_leb.
  destruct (Nat.leb_spec (length values) index) as [Hle|Hlt].
  { apply lookup_lt_Some in Hv. lia. }
  simpl negb. cbn [orb]. rewrite fold_siblings_values by apply merkle_path_hex, leaf_hashes_hex.
  rewrite merkle_path_root.
  - unfold merkleRoot. destruct values as [|v0 values]; [done|].
    unfold seq. by rewrite str_eqb_refl.
  - change (map merkleLeafHash values) with (merkleLeafHash <$> values).
    by rewrite list_lookup_fmap, Hv.
  - lia.
Qed.
End paths.

(** ** Soundness of paths *)
Section soundness.
Context {C : Crypto} {L : CryptoLaws C}.

(** The texts the verifier hashes while it folds the siblings. *)
Definition sibling_preimage (current : jstr) (s : jsval) : jstr :=
  let hash := to_str (vget s "hash") in
  if vget s "position" === vstr "left" then node_preimage hash current
  else node_preimage current hash.

Fixpoint path_inputs (current : jstr) (siblings : list jsval) : list jstr :=
  match siblings with
  | [] => []
  | s :: siblings' =>
      sibling_preimage current s ::
      path_inputs (sha256_text (sibling_preimage current s)) siblings'
  end.

Definition proof_inputs (proof : jsval) : list jstr :=
  let value := str_of (vget proof "value") in
  leaf_preimage value :: path_inputs (merkleLeafHash value) (items_of (vget proof "siblings")).

Lemma fold_sibling_some current s c :
  fold_sibling current s = Some c ->
  is_hex64 (to_str (vget s "hash")) /\ c = sha256_text (sibling_preimage current s).
Proof.
  unfold fold_sibling, sibling_preimage.
  destruct (is_record s), (test HASH_RE (vget s "hash" ?? VStr [])) eqn:E; try done. simpl.
  unfold test, coalesce in E. destruct (is_nullish (vget s "hash")) eqn:En; [done|].
  apply HASH_RE_spec in E. destruct (vget s "position" === vstr "left").
  - by intros [= <-].
  - destruct (vget s "position" === vstr "right"); [|done]. by intros [= <-].
Qed.

Lemma fold_siblings_snoc current ss s :
  fold_siblings current (ss ++ [s]) =
  match fold_siblings current ss with Some c => fold_sibling c s | None => None end.
Proof.
  revert current. induction ss as [|s0 ss IH]; intros current; simpl.
  - by destruct (fold_sibling current s).
  - destruct (fold_sibling current s0); [apply IH|done].
Qed.

Lemma path_inputs_snoc current ss s c :
  fold_siblings current ss = Some c ->
  path_inputs current (ss ++ [s]) = path_inputs current ss ++ [sibling_preimage c s].
Proof.
  revert current. induction ss as [|s0 ss IH]; intros current; simpl.
  - by intros [= ->].
  - destruct (fold_sibling current s0) as [c'|] eqn:E; [|done]. intros H.
    apply fold_sibling_some in E as [_ ->]. by rewrite IH.
Qed.

Lemma fold_siblings_hex current ss c :
  is_hex64 current -> fold_siblings current ss = Some c -> is_hex64 c.
Proof.
  revert current. induction ss as [|s ss IH]; intros current Hc; simpl; [by intros [= <-]|].
  destruct (fold_sibling current s) as [c'|] eqn:E; [|done].
  apply fold_sibling_some in E as [_ ->]. apply IH, sha256_hex.
Qed.

(** A path to the hash of a tree starts at one of its leaves. *)
Lemma path_sound v ss t :
  fold_siblings (merkleLeafHash v) ss = Some (thash t) ->
  v ∈ leaves t \/
  collision (leaf_preimage v :: path_inputs (merkleLeafHash v) ss) (tinputs t).
Proof.
  revert t. induction ss as [|s ss IH] using rev_ind; intros t H.
  - injection H as H. rewrite thash_preimage in H.
    destruct (sha256_eq_or_collision (leaf_preimage v) (tpreimage t) [leaf_preimage v] (tinputs t))
      as [E|Hc]; [by left|apply tpreimage_input|done| |by right].
    destruct t as [w|l r]; [|by apply leaf_node_disjoint in E].
    apply leaf_preimage_inj in E as ->. left. by left.
  - rewrite fold_siblings_snoc in H.
    destruct (fold_siblings (merkleLeafHash v) ss) as [c|] eqn:E; [|done].
    rewrite (path_inputs_snoc _ _ _ _ E).
    destruct (fold_sibling_some _ _ _ H) as [Hhex Heq].
    assert (is_hex64 c) as Hc by (eapply fold_siblings_hex; [|done]; apply sha256_hex).
    rewrite thash_preimage in Heq. symmetry in Heq.
    destruct (sha256_eq_or_collision (sibling_preimage c s) (tpreimage t)
      (leaf_preimage v :: path_inputs (merkleLeafHash v) ss ++ [sibling_preimage c s]) (tinputs t))
      as [Ep|?]; [set_solver|apply tpreimage_input|done| |by right].
    assert (exists t', c = thash t' /\ leaves t' ⊆ leaves t /\ tinputs t' ⊆ tinputs t)
      as (t' & -> & Hl & Hi).
    { unfold sibling_preimage in Ep. destruct t as [w|l r]; simpl in Ep.
      - case_match; symmetry in Ep; by apply leaf_node_disjoint in Ep.
      - case_match; apply node_preimage_inj in Ep as [? ?]; try done; try apply thash_hex;
          [exists r|exists l]; simpl; split_and!; set_solver. }
    destruct (IH t' eq_refl) as [Hin|Hcol]; [left; set_solver|right].
    eapply collision_weaken; [exact Hcol|set_solver|done].
Qed.

Lemma verifyMembership_inv proof expected :
  verifyMembership proof expected = true ->
  exists v siblings c,
    vget proof "value" = VStr v /\ vget proof "siblings" = VArr siblings /\
    fold_siblings (merkleLeafHash v) siblings = Some c /\
    expected = VStr (SHA256_PREFIX +s+ c).
Proof.
  unfold verifyMembership. intros H.
  destruct (is_record proof && (vget proof "type" === vstr "membership")) eqn:E1;
    [|by destruct (is_record proof), (vget proof "type" === vstr "membership")].
  apply andb_true_iff in E1 as [E1 E2]. rewrite E1, E2 in H. simpl in H.
  destruct (vget proof "value") as [| | | |v| | | | | | | |]; try done. simpl in H.
  destruct (negb (is_nonneg_integer (vget proof "index"))); [done|].
  destruct (negb (is_integer (vget proof "size")) || num_leb (vget proof "size") (vget proof "index"));
    [done|].
  destruct (vget proof "siblings") as [| | | | | |siblings| | | | | |]; try done.
  destruct (fold_siblings (merkleLeafHash v) siblings) as [c|] eqn:Ef; [|done].
  apply andb_true_iff in H as [_ H]. exists v, siblings, c. split_and!; [done..|].
  destruct expected; try done. simpl in H. by apply str_eqb_eq in H as <-.
Qed.

Lemma empty_preimage_disjoint t : tpreimage t <> ("enigma.merkle.empty.v1" : jstr).
Proof. destruct t; by intros [=]. Qed.

(** A path is never the hash of the empty set. *)
Lemma path_not_empty v ss :
  fold_siblings (merkleLeafHash v) ss = Some (sha256_text "enigma.merkle.empty.v1") ->
  collision (leaf_preimage v :: path_inputs (merkleLeafHash v) ss)
            ["enigma.merkle.empty.v1" : jstr].
Proof.
  destruct ss as [|s ss _] using rev_ind.
  - intros [= H]. exists (leaf_preimage v), ("enigma.merkle.empty.v1" : jstr).
    split_and!; [by left|by left|by intros [=]|done].
  - rewrite fold_siblings_snoc.
    destruct (fold_siblings (merkleLeafHash v) ss) as [c|] eqn:E; [|done].
    rewrite (path_inputs_snoc _ _ _ _ E). intros [_ H]%fold_sibling_some.
    exists (sibling_preimage c s), ("enigma.merkle.empty.v1" : jstr).
    split_and!; [set_solver|by left| |done].
    unfold sibling_preimage. case_match; by intros [=].
Qed.

Lemma membership_sound_values proof values :
  verifyMembership proof (VStr (merkleRoot values)) = true ->
  str_of (vget proof "value") ∈ values \/ collision (proof_inputs proof) (merkle_inputs values).
Proof.
  intros (v & ss & c & Hv & Hs & Hf & Hr)%verifyMembership_inv.
  unfold proof_inputs. rewrite Hv, Hs. simpl. apply VStr_inj in Hr.
  destruct (decide (values = [])) as [->|Hne].
  - right. unfold merkleRoot, EMPTY_MERKLE_ROOT in Hr. apply app_inv_head in Hr as <-.
    by apply path_not_empty.
  - destruct (merkle_tree_spec values Hne) as (t & Ht & Hl & Hroot).
    rewrite Hroot in Hr. apply app_inv_head in Hr as <-.
    unfold merkle_inputs. rewrite Ht. rewrite <- Hl. by apply path_sound.
Qed.

(** The root binds the list of values. *)
Lemma merkleRoot_binding values1 values2 :
  merkleRoot values1 = merkleRoot values2 ->
  values1 = values2 \/ collision (merkle_inputs values1) (merkle_inputs values2).
Proof.
  assert (forall t, sha256_text "enigma.merkle.empty.v1" = thash t ->
            collision ["enigma.merkle.empty.v1" : jstr] (tinputs t)) as He.
  { intros t Ht. exists ("enigma.merkle.empty.v1" : jstr), (tpreimage t).
    split_and!; [by left|apply tpreimage_input| |by rewrite Ht, thash_preimage].
    intros E. by eapply empty_preimage_disjoint. }
  intros H. destruct (decide (values1 = [])) as [->|H1], (decide (values2 = [])) as [->|H2].
  - by left.
  - destruct (merkle_tree_spec values2 H2) as (t & Ht & _ & Hr). right.
    rewrite Hr in H. apply app_inv_head in H. unfold merkle_inputs at 2. rewrite Ht. by apply He.
  - destruct (merkle_tree_spec values1 H1) as (t & Ht & _ & Hr). right.
    rewrite Hr in H. apply app_inv_head in H. unfold merkle_inputs at 1. rewrite Ht.
    destruct (He t) as (x & y & ? & ? & ? & ?); [done|]. exists y, x. by split_and!.
  - destruct (merkle_tree_spec values1 H1) as (t1 & Ht1 & Hl1 & Hr1).
    destruct (merkle_tree_spec values2 H2) as (t2 & Ht2 & Hl2 & Hr2).
    rewrite Hr1, Hr2 in H. apply app_inv_head in H.
    unfold merkle_inputs. rewrite Ht1, Ht2.
    destruct (tree_binding _ _ H) as [->|Hc]; [left; congruence|by right].
Qed.
End soundness.

(** ** Binary search and non-membership *)
Section nonmembership.
Context {C : Crypto} {L : CryptoLaws C}.

Lemma str_le_ltb_trans a b c : str_le a b -> str_ltb b c = true -> str_ltb a c = true.
Proof.
  intros Hab Hbc. destruct (decide (a = b)) as [->|Hne]; [done|].
  apply (str_ltb_trans a b c); [|done]. destruct (str_ltb a b) eqn:E; [done|].
  destruct Hne. by apply str_ltb_connex.
Qed.

Lemma sorted_lookup_le l i j x y :
  StronglySorted str_le l -> (i <= j)%nat -> l !! i = Some x -> l !! j = Some y -> str_le x y.
Proof.
  intros Hs. revert i j. induction Hs as [|a l Hs IH Hf]; intros i j Hij Hx Hy; [done|].
  destruct i as [|i], j as [|j]; simpl in *; simplify_eq; try lia.
  - done.
  - rewrite Forall_lookup in Hf. by eapply Hf.
  - eapply (IH i j); eauto with lia.
Qed.

(** [r] separates the values below [value] from the others. *)
Definition splits_at (values : list jstr) (value : jstr) (r : nat) : Prop :=
  (r <= length values)%nat /\
  (forall i x, (i < r)%nat -> values !! i = Some x -> str_ltb x value = true) /\
  (forall i x, (r <= i)%nat -> values !! i = Some x -> str_ltb x value = false).

Lemma lowerBound_from_spec fuel values value low high :
  StronglySorted str_le values -> (low <= high <= length values)%nat -> (high - low <= fuel)%nat ->
  (forall i x, (i < low)%nat -> values !! i = Some x -> str_ltb x value = true) ->
  (forall i x, (high <= i)%nat -> values !! i = Some x -> str_ltb x value = false) ->
  splits_at values value (lowerBound_from fuel values value low high).
Proof.
  intros Hs. revert low high. induction fuel as [|fuel IH]; intros low high Hb Hf Hlo Hhi;
    cbn [lowerBound_from].
  - assert (low = high) as -> by lia. split_and!; [lia|done..].
  - destruct (Nat.ltb_spec low high) as [Hlt|Hge].
    2: { assert (low = high) as -> by lia. split_and!; [lia|done..]. }
    set (mid := ((low + high) / 2)%nat). cbn zeta.
    assert (low <= mid < high)%nat as Hmid.
    { subst mid. split; [apply Nat.div_le_lower_bound; lia|apply Nat.Div0.div_lt_upper_bound; lia]. }
    destruct (lookup_lt_is_Some_2 values mid) as [x Hx]; [lia|]. rewrite Hx.
    destruct (str_ltb x value) eqn:Ex; apply IH; try lia; try done.
    + intros i y Hi Hy. eapply str_le_ltb_trans; [|exact Ex].
      eapply (sorted_lookup_le values i mid); eauto with lia.
    + intros i y Hi Hy. destruct (str_ltb y value) eqn:Ey; [|done].
      assert (str_le x y) as Hxy by (eapply (sorted_lookup_le values mid i); eauto with lia).
      by rewrite (str_le_ltb_trans _ _ _ Hxy Ey) in Ex.
Qed.

Lemma lowerBound_spec values value :
  StronglySorted str_le values -> splits_at values value (lowerBound values value).
Proof.
  intros Hs. apply lowerBound_from_spec; try done; try lia.
  intros i x Hi Hx%lookup_lt_Some. lia.
Qed.

Lemma verifyNonMembership_mk leaf size root predecessor successor expected :
  verifyNonMembership
    (VObj [("type" : jstr, vstr "non_membership"); ("value" : jstr, VStr leaf);
           ("size" : jstr, size); ("root" : jstr, root);
           ("predecessor" : jstr, predecessor); ("successor" : jstr, successor)]) expected =
  if negb (is_nonneg_integer size) then false
  else if root !== expected then false
  else if size === vint 0 then
    (predecessor === VNull) && (successor === VNull) && (root === VStr EMPTY_MERKLE_ROOT)
  else if (predecessor === VNull) && (successor === VNull) then false
  else if (predecessor !== VNull)
          && negb (verifyMembership predecessor root
                   && str_ltb (str_of (vget predecessor "value")) leaf) then false
  else if (successor !== VNull)
          && negb (verifyMembership successor root
                   && str_ltb leaf (str_of (vget successor "value"))) then false
  else if (predecessor !== VNull) && (successor !== VNull) then
    (vadd (vget predecessor "index") 1 === vget successor "index")
    && (vget predecessor "size" === size) && (vget successor "size" === size)
  else if predecessor === VNull then
    (vget successor "index" === vint 0) && (vget successor "size" === size)
  else (vget predecessor "index" === vadd size (-1)) && (vget predecessor "size" === size).
Proof. reflexivity. Qed.

Lemma membershipProof_value values i v :
  values !! i = Some v -> str_of (vget (membershipProof values i) "value") = v.
Proof. intros H. unfold membershipProof. by rewrite H. Qed.

Lemma vint_seq a b : (vint a === vint b) = (a =? b)%Z.
Proof.
  unfold vint, seq, num_seq. destruct a, b; simpl; try done;
    (apply bool_decide_eq_true || apply bool_decide_eq_false || idtac).
  all: try (destruct (Pos.eqb_spec p p0); [apply bool_decide_eq_true|apply bool_decide_eq_false]; congruence).
Qed.

Lemma vnat_seq a b : (vnat a === vnat b) = (a =? b)%nat.
Proof.
  transitivity (vint (Z.of_nat a) === vint (Z.of_nat b)); [done|]. rewrite vint_seq.
  destruct (Nat.eqb_spec a b); [apply Z.eqb_eq|apply Z.eqb_neq]; lia.
Qed.

Lemma vadd_vnat n d :
  (Z.abs (Z.of_nat n + d) < 2 ^ 53)%Z -> vadd (vnat n) d = vint (Z.of_nat n + d).
Proof.
  intros H. unfold vadd, vnat, num_add, int_result. apply Z.ltb_lt in H. by rewrite H.
Qed.
End nonmembership.

(** ** Sets and their proofs *)
Section sets.
Context {C : Crypto} {L : CryptoLaws C}.

(** The sets a program can build with [new], [insert] and [delete]. *)
Inductive ms_reachable : MerkleSet -> Prop :=
  | reach_new values m : ms_new values = Ok m -> ms_reachable m
  | reach_insert m v m' : ms_reachable m -> ms_insert m v = Ok m' -> ms_reachable m'
  | reach_delete m v b m' : ms_reachable m -> ms_delete m v = Ok (b, m') -> ms_reachable m'.

Lemma ms_insert_NoDup m v m' :
  NoDup (ms_values m) -> ms_insert m v = Ok m' -> NoDup (ms_values m').
Proof. unfold ms_insert. intros H E. inv_res. simpl. auto with js. Qed.

Lemma foldl_insert_NoDup values m m' :
  NoDup (ms_values m) -> foldl_res (λ m v, ms_insert m (elem v)) m values = Ok m' ->
  NoDup (ms_values m').
Proof.
  revert m. induction values as [|v values IH]; intros m H E; simpl in E; inv_res; [done|].
  eauto using ms_insert_NoDup.
Qed.

Lemma ms_reachable_NoDup m : ms_reachable m -> NoDup (ms_values m).
Proof.
  induction 1 as [values m E|m v m' _ IH E|m v b m' _ IH E].
  - eapply foldl_insert_NoDup; [|exact E]. apply NoDup_nil_2.
  - eauto using ms_insert_NoDup.
  - unfold ms_delete in E. inv_res. injection E as <- <-. simpl. auto with js.
Qed.

(** The leaves an array of values stands for. *)
Definition leaf_among (leaf : jstr) (values : list jsval) : Prop :=
  exists v, v ∈ values /\ normalizeLeafValue (elem v) = Ok leaf.

Lemma ms_new_elems_from values m m' leaf :
  foldl_res (λ m v, ms_insert m (elem v)) m values = Ok m' ->
  leaf ∈ ms_values m' <-> leaf ∈ ms_values m \/ leaf_among leaf values.
Proof.
  revert m. induction values as [|v values IH]; intros m E; simpl in E; inv_res.
  - split; [by left|]. intros [?|(v & Hv & _)]; [done|]. by apply elem_of_nil in Hv.
  - rewrite (IH _ E). unfold ms_insert in *. inv_res. simpl. rewrite elem_of_set_add.
    unfold leaf_among. split.
    + intros [[->|?]|(w & ? & ?)]; [|by left|]; right; [exists v|exists w];
        rewrite elem_of_cons; auto.
    + intros [?|(w & [->|?]%elem_of_cons & Hw)]; [by left; right|left; left|right; eauto].
      congruence.
Qed.

Lemma ms_new_elems values m leaf :
  ms_new values = Ok m -> leaf ∈ ms_values m <-> leaf_among leaf values.
Proof.
  intros E. unfold ms_new in E. rewrite (ms_new_elems_from _ _ _ leaf E). simpl.
  rewrite elem_of_nil. naive_solver.
Qed.

Lemma ms_sortedValues_perm m1 m2 :
  ms_reachable m1 -> ms_reachable m2 ->
  (forall leaf, leaf ∈ ms_values m1 <-> leaf ∈ ms_values m2) ->
  ms_sortedValues m1 = ms_sortedValues m2.
Proof.
  intros H1 H2 H. apply sort_strings_proper, NoDup_same_elements_perm;
    auto using ms_reachable_NoDup.
Qed.

Lemma index_of_spec values leaf :
  match index_of values leaf with
  | Some i => values !! i = Some leaf
  | None => leaf ∉ values
  end.
Proof.
  induction values as [|v values IH]; simpl; [apply not_elem_of_nil|].
  destruct (v =s= leaf) eqn:E; [by apply str_eqb_eq in E as ->|].
  apply str_eqb_neq in E. destruct (index_of values leaf); simpl; [done|].
  rewrite not_elem_of_cons. naive_solver.
Qed.

(** The root of a Merkle set depends only on the set of leaves: two arrays
    whose values normalise to the same leaves give the same root, whatever their
    order and repetitions. *)
Theorem merkleSetRoot_order_independent values1 values2 root1 root2 :
  merkleSetRoot (VArr values1) = Ok root1 -> merkleSetRoot (VArr values2) = Ok root2 ->
  (forall leaf, leaf_among leaf values1 <-> leaf_among leaf values2) -> root1 = root2.
Proof.
  simpl. intros E1 E2 H. inv_res. unfold ms_root. f_equal.
  apply ms_sortedValues_perm; eauto using reach_new.
  intros leaf. by rewrite !ms_new_elems by done.
Qed.

(** The root binds the set: two sets with one root have the same members, or the texts hashed for the two roots
    contain a SHA-256 collision. *)
Theorem merkle_root_binds_set m1 m2 :
  ms_root m1 = ms_root m2 ->
  (forall leaf, leaf ∈ ms_values m1 <-> leaf ∈ ms_values m2) \/
  collision (merkle_inputs (ms_sortedValues m1)) (merkle_inputs (ms_sortedValues m2)).
Proof.
  intros [E|Hc]%merkleRoot_binding; [left|by right].
  intros leaf. rewrite <- (elem_of_sort_strings leaf (ms_values m1)).
  rewrite <- (elem_of_sort_strings leaf (ms_values m2)). by unfold ms_sortedValues in E; rewrite E.
Qed.

(** Membership proofs are complete: [proveMembership] answers a member with a
    proof that [verifyMembership] accepts against the set's root, and refuses a
    value that is not a member with the [RangeError]. *)
Theorem membership_complete m v b :
  ms_has m v = Ok b ->
  if b then exists p, ms_proveMembership m v = Ok p /\ verifyMembership p (VStr (ms_root m)) = true
  else ms_proveMembership m v = Throw (RangeError "value is not a member of the MerkleSet").
Proof.
  unfold ms_has, ms_proveMembership. intros H. inv_res. rewrite H0. simpl.
  pose proof (index_of_spec (ms_sortedValues m) x) as Hi.
  destruct (mem_str x (ms_values m)) eqn:E.
  - apply mem_str_true in E. destruct (index_of (ms_sortedValues m) x) as [i|].
    + eexists; split; [done|]. by eapply membershipProof_verifies.
    + destruct Hi. by apply elem_of_sort_strings.
  - apply mem_str_false in E. destruct (index_of (ms_sortedValues m) x) as [i|]; [|done].
    destruct E. apply elem_of_sort_strings. by eapply list_elem_of_lookup_2.
Qed.

(** C20 Membership proofs are sound: a proof accepted against a set's root is
    about a member of the set, or the texts hashed while checking it and while
    computing the root contain a SHA-256 collision. *)
Theorem membership_sound m proof :
  verifyMembership proof (VStr (ms_root m)) = true ->
  str_of (vget proof "value") ∈ ms_values m \/
  collision (proof_inputs proof) (merkle_inputs (ms_sortedValues m)).
Proof.
  intros [H|H]%membership_sound_values; [left|by right]. by apply elem_of_sort_strings.
Qed.

(** C40 The binary search [lowerBound] returns the first position whose value is
    not below the one searched. *)
Theorem lowerBound_correct m value :
  splits_at (ms_sortedValues m) value (lowerBound (ms_sortedValues m) value).
Proof. apply lowerBound_spec, sort_strings_sorted. Qed.

Lemma membershipProof_fields values i :
  vget (membershipProof values i) "index" = vnat i /\
  vget (membershipProof values i) "size" = vnat (length values).
Proof. done. Qed.

Lemma above_lower_bound values leaf r x :
  splits_at values leaf r -> leaf ∉ values -> values !! r = Some x -> str_ltb leaf x = true.
Proof.
  intros (_ & _ & Hhi) Hn Hx. destruct (str_ltb leaf x) eqn:E; [done|].
  assert (leaf = x) as ->. { apply str_ltb_connex; [done|]. by apply (Hhi r). }
  destruct Hn. by eapply list_elem_of_lookup_2.
Qed.

(** One neighbour of a non-member: a proof that verifies and stands on the right
    side of the leaf. *)
Lemma neighbour_ok values i x :
  values !! i = Some x ->
  (membershipProof values i !== VNull) = true /\
  verifyMembership (membershipProof values i) (VStr (merkleRoot values)) = true /\
  str_of (vget (membershipProof values i) "value") = x.
Proof.
  intros Hx. split_and!; [done|by eapply membershipProof_verifies|by apply membershipProof_value].
Qed.

Lemma nonmembership_values values leaf :
  StronglySorted str_le values -> leaf ∉ values -> (Z.of_nat (length values) < 2 ^ 53)%Z ->
  let insertion := lowerBound values leaf in
  verifyNonMembership
    (VObj [("type" : jstr, vstr "non_membership"); ("value" : jstr, VStr leaf);
           ("size" : jstr, vnat (length values)); ("root" : jstr, VStr (merkleRoot values));
           ("predecessor" : jstr,
              if 0 <? insertion then membershipProof values (insertion - 1) else VNull);
           ("successor" : jstr,
              if insertion <? length values then membershipProof values insertion else VNull)])
    (VStr (merkleRoot values)) = true.
Proof.
  intros Hs Hn Hlen r. pose proof (lowerBound_spec values leaf Hs) as Hsp. fold r in Hsp.
  pose proof Hsp as (Hr & Hlo & _).
  rewrite verifyNonMembership_mk, vnat_nonneg. change (vint 0) with (vnat 0). rewrite vnat_seq.
  replace (VStr (merkleRoot values) === VStr (merkleRoot values)) with true
    by (symmetry; apply str_eqb_refl).
  destruct values as [|v0 values']; [apply (str_eqb_refl EMPTY_MERKLE_ROOT)|]. set (values := v0 :: values') in *. cbn [negb].
  replace (length values =? 0)%nat with false by done.
  destruct (Nat.ltb_spec 0 r) as [Hr0|Hr0], (Nat.ltb_spec r (length values)) as [Hrn|Hrn].
  - destruct (lookup_lt_is_Some_2 values (r - 1)) as [p Hp]; [lia|].
    destruct (lookup_lt_is_Some_2 values r) as [q Hq]; [lia|].
    destruct (neighbour_ok _ _ _ Hp) as (-> & -> & ->), (neighbour_ok _ _ _ Hq) as (-> & -> & ->).
    rewrite (Hlo (r - 1) p), (above_lower_bound _ _ _ _ Hsp Hn Hq) by (done || lia).
    cbn [andb negb]. destruct (membershipProof_fields values (r - 1)) as [-> ->],
      (membershipProof_fields values r) as [-> ->].
    rewrite vnat_seq, Nat.eqb_refl, vadd_vnat by lia. cbn [andb].
    replace (vnat r) with (vint (Z.of_nat r)) by done. rewrite vint_seq.
    rewrite !andb_true_r. apply Z.eqb_eq. lia.
  - destruct (lookup_lt_is_Some_2 values (r - 1)) as [p Hp]; [lia|].
    destruct (neighbour_ok _ _ _ Hp) as (E & -> & ->). rewrite E, (Hlo (r - 1) p) by (done || lia).
    apply negb_true_iff in E. rewrite E. cbn [andb negb seq].
    destruct (membershipProof_fields values (r - 1)) as [-> ->].
    rewrite vnat_seq, Nat.eqb_refl, vadd_vnat by lia. rewrite andb_true_r.
    replace (vnat (r - 1)) with (vint (Z.of_nat (r - 1))) by done. rewrite vint_seq.
    apply Z.eqb_eq. lia.
  - assert (r = 0) as Hz by lia. rewrite Hz in *.
    destruct (lookup_lt_is_Some_2 values 0) as [q Hq]; [lia|].
    destruct (neighbour_ok _ _ _ Hq) as (E & -> & ->).
    rewrite E, (above_lower_bound _ _ _ _ Hsp Hn Hq). apply negb_true_iff in E. rewrite E.
    cbn [andb negb seq]. destruct (membershipProof_fields values 0) as [-> ->].
    by rewrite !vnat_seq, !Nat.eqb_refl.
  - subst values. simpl in Hrn. lia.
Qed.

(** Honest non-membership proofs verify: [proveNonMembership] answers a value
    outside the set with a proof that [verifyNonMembership] accepts against the
    set's root, and refuses a member.  The set is smaller than [2^53], as every
    JavaScript array is. *)
Theorem nonmembership_complete m v b :
  (Z.of_nat (length (ms_values m)) < 2 ^ 53)%Z -> ms_has m v = Ok b ->
  if b then ms_proveNonMembership m v
            = Throw (RangeError "value is already a member of the MerkleSet")
  else exists p, ms_proveNonMembership m v = Ok p /\
                 verifyNonMembership p (VStr (ms_root m)) = true.
Proof.
  unfold ms_has, ms_proveNonMembership. intros Hlen H. inv_res. rewrite H0. simpl res_bind.
  replace (mem_str x (ms_sortedValues m)) with (mem_str x (ms_values m))
    by (apply bool_decide_ext; symmetry; apply elem_of_sort_strings).
  destruct (mem_str x (ms_values m)) eqn:E; [done|]. apply mem_str_false in E.
  eexists; split; [reflexivity|]. apply nonmembership_values.
  - apply sort_strings_sorted.
  - unfold ms_sortedValues. by rewrite elem_of_sort_strings.
  - unfold ms_sortedValues. by rewrite length_sort_strings.
Qed.

(** ** A forged non-membership proof

    [index] and [size] of a membership proof are not covered by the root, so the
    successor of a gap may claim the position next to the predecessor. *)
Definition forged_proof (a b c : jstr) : jsval :=
  let values := [a; b; c] in
  let successor := VObj (fset (own_fields (membershipProof values 2)) "index" (vint 1)) in
  VObj [("type" : jstr, vstr "non_membership"); ("value" : jstr, VStr b); ("size" : jstr, vint 3);
        ("root" : jstr, VStr (merkleRoot values));
        ("predecessor" : jstr, membershipProof values 0); ("successor" : jstr, successor)].

Lemma forged_successor a b c :
  verifyMembership (VObj (fset (own_fields (membershipProof [a; b; c] 2)) "index" (vint 1)))
    (VStr (merkleRoot [a; b; c])) = true.
Proof.
  transitivity (verifyMembership (membershipProof [a; b; c] 2) (VStr (merkleRoot [a; b; c])));
    [reflexivity|by apply (membershipProof_verifies [a; b; c] 2 c)].
Qed.

(** [verifyNonMembership] accepts a proof that a member is absent: for every
    set of three values [a < b < c] the proof that names [a] and [c] as neighbours
    of [b], with [c]'s index changed from 2 to 1, verifies against the root of the
    set that contains [b]. *)
Theorem nonmembership_forgery a b c :
  str_ltb a b = true -> str_ltb b c = true ->
  exists m proof,
    ms_new [VStr a; VStr b; VStr c] = Ok m /\ ms_has m (VStr b) = Ok true /\
    vget proof "value" = VStr b /\ verifyNonMembership proof (VStr (ms_root m)) = true.
Proof.
  intros Hab Hbc. assert (a <> b) as Nab by by apply str_ltb_neq.
  assert (b <> c) as Nbc by by apply str_ltb_neq.
  assert (a <> c) as Nac by (by eapply str_ltb_neq, str_ltb_trans).
  exists {| ms_values := [a; b; c] |}, (forged_proof a b c). split_and!.
  - unfold ms_new, ms_insert.
    cbn [foldl_res elem normalizeLeafValue res_bind ms_values ms_empty].
    rewrite (set_add_new a), (set_add_new b), (set_add_new c); [done|set_solver..].
  - unfold ms_has. simpl. rewrite (proj2 (mem_str_true _ _)); [done|]. set_solver.
  - done.
  - unfold ms_root, ms_sortedValues. simpl ms_values. rewrite sort_strings_id.
    2: { repeat constructor; apply str_ltb_asym; eauto using str_ltb_trans. }
    unfold forged_proof. rewrite verifyNonMembership_mk.
    destruct (neighbour_ok [a; b; c] 0 a) as (-> & -> & ->); [done|]. rewrite forged_successor.
    replace (str_of (vget (VObj (fset _ _ _)) "value")) with c by done.
    rewrite Hab, Hbc. simpl. by rewrite str_eqb_refl.
Qed.
End sets.

(** ** Concrete instances *)
Definition sample_set : MerkleSet := {| ms_values := ["b" : jstr; "d" : jstr; "a" : jstr] |}.

Lemma sample_leaves leaf :
  leaf_among leaf [vstr "a"; vstr "b"] <-> leaf_among leaf [vstr "b"; vstr "a"; vstr "b"].
Proof. split; intros (v & Hv & He); exists v; (split; [set_solver|done]). Qed.

Lemma merkleSetRoot_order_independent_witness :
  exists r, merkleSetRoot (VArr [vstr "a"; vstr "b"]) = Ok r /\
            merkleSetRoot (VArr [vstr "b"; vstr "a"; vstr "b"]) = Ok r.
Proof.
  assert (merkleSetRoot (VArr [vstr "a"; vstr "b"]) =
          Ok (ms_root {| ms_values := ["a" : jstr; "b" : jstr] |})) as E1 by reflexivity.
  assert (merkleSetRoot (VArr [vstr "b"; vstr "a"; vstr "b"]) =
          Ok (ms_root {| ms_values := ["b" : jstr; "a" : jstr] |})) as E2 by reflexivity.
  exists (ms_root {| ms_values := ["a" : jstr; "b" : jstr] |}). split; [exact E1|].
  rewrite (merkleSetRoot_order_independent _ _ _ _ E1 E2 sample_leaves). exact E2.
Defined.

Lemma merkle_root_binds_set_witness :
  exists m1 m2, ms_root m1 = ms_root m2 /\ ms_values m1 <> ms_values m2 /\
  ((forall leaf, leaf ∈ ms_values m1 <-> leaf ∈ ms_values m2) \/
   collision (merkle_inputs (ms_sortedValues m1)) (merkle_inputs (ms_sortedValues m2))).
Proof.
  exists sample_set, {| ms_values := ["a" : jstr; "b" : jstr; "d" : jstr] |}.
  assert (ms_root sample_set = ms_root {| ms_values := ["a" : jstr; "b" : jstr; "d" : jstr] |}) as E
    by (vm_compute; reflexivity).
  split_and!; [exact E|discriminate|]. by apply merkle_root_binds_set.
Defined.

Lemma membership_complete_witness :
  exists p, ms_proveMembership sample_set (vstr "b") = Ok p /\
            verifyMembership p (VStr (ms_root sample_set)) = true.
Proof. apply (membership_complete sample_set (vstr "b") true). reflexivity. Defined.

Lemma membership_sound_witness :
  exists proof, verifyMembership proof (VStr (ms_root sample_set)) = true /\
  (str_of (vget proof "value") ∈ ms_values sample_set \/
   collision (proof_inputs proof) (merkle_inputs (ms_sortedValues sample_set))).
Proof.
  exists (membershipProof (ms_sortedValues sample_set) 1).
  assert (verifyMembership (membershipProof (ms_sortedValues sample_set) 1)
            (VStr (ms_root sample_set)) = true) as H by (vm_compute; reflexivity).
  split; [exact H|]. by apply membership_sound.
Defined.

Lemma nonmembership_complete_witness :
  exists p, ms_proveNonMembership sample_set (vstr "c") = Ok p /\
            verifyNonMembership p (VStr (ms_root sample_set)) = true.
Proof. apply (nonmembership_complete sample_set (vstr "c") false); vm_compute; reflexivity. Defined.

Lemma nonmembership_forgery_witness :
  exists m proof,
    ms_new [vstr "a"; vstr "b"; vstr "c"] = Ok m /\ ms_has m (vstr "b") = Ok true /\
    vget proof "value" = vstr "b" /\ verifyNonMembership proof (VStr (ms_root m)) = true.
Proof. apply (nonmembership_forgery "a" "b" "c"); reflexivity. Defined.
