(* ===== verification/Receipt.v ===== *)
(** * Receipts, receipt chains and checkpoints

    [createReceipt], [verifyReceipt], [verifyReceiptChain], [createCheckpoint] and
    [verifyCheckpoint] of [src/packages/core/src/index.js] with their helpers.
    [now] is the text of [new Date().toISOString()] at the call. *)

From S2P Require Import Prelude JsValue Regex Canonical Hashing Merkle.

Section receipts.
Context {C : Crypto}.

Definition RECEIPT_SCHEMA : jstr := "enigma.receipt.v1".
Definition CHECKPOINT_SCHEMA : jstr := "enigma.state_checkpoint.v1".

Definition RECEIPT_TOP_LEVEL_FIELDS : list jstr :=
  ["schema" : jstr; "receipt_id" : jstr; "event_hash" : jstr; "operation" : jstr;
   "tenant_id" : jstr; "subject_id" : jstr; "memory_addr" : jstr; "source_addr" : jstr;
   "provider" : jstr; "model" : jstr; "policy_id" : jstr; "sequence" : jstr;
   "previous_receipt_hash" : jstr; "active_set_root" : jstr; "receipt_log_root" : jstr;
   "timestamp" : jstr; "signer" : jstr; "signature" : jstr].

Definition RECEIPT_SIGNATURE_FIELDS : list jstr := ["alg" : jstr; "value" : jstr].

Definition RECEIPT_PUBLIC_PLAINTEXT_KEYS : list jstr :=
  ["body" : jstr; "content" : jstr; "plaintext" : jstr; "text" : jstr; "memory" : jstr;
   "prompt" : jstr; "response" : jstr; "raw_memory" : jstr].

(** [generateSigningKeyPair]; the PEM texts of the fresh pair are inputs. *)
Definition generateSigningKeyPair (publicKey privateKey : jstr) (options : obj) : obj :=
  let key_id := fget options "key_id" ?? fget options "keyId"
                ?? VStr ("ed25519:" +s+ slice_to 32 (sha256_text publicKey)) in
  [("alg" : jstr, VStr ED25519); ("key_id" : jstr, key_id);
   ("signer" : jstr, VObj [("key_id" : jstr, key_id); ("alg" : jstr, VStr ED25519)]);
   ("publicKey" : jstr, VStr publicKey); ("privateKey" : jstr, VStr privateKey)].

Definition receiptHash (receipt : jsval) : res jstr :=
  let! t := canonicalize receipt in prefixedSha256 (VStr t).

Definition normalizeSigner (signer keyId privateKey : jsval) : res jsval :=
  if is_record signer then
    let! id := requiredString (vget signer "key_id" ?? vget signer "keyId") "signer.key_id" in
    Ok (VObj [("key_id" : jstr, VStr id); ("alg" : jstr, vget signer "alg" ?? VStr ED25519)])
  else if negb (is_undef keyId) then
    let! id := requiredString keyId "signer.key_id" in
    Ok (VObj [("key_id" : jstr, VStr id); ("alg" : jstr, VStr ED25519)])
  else if negb (is_undef privateKey) then
    match public_of_private privateKey with
    | Some publicKey =>
        Ok (VObj [("key_id" : jstr, VStr ("ed25519:" +s+ slice_to 32 (sha256_text publicKey)));
                  ("alg" : jstr, VStr ED25519)])
    | None => Throw (TypeError "createPublicKey rejected the private key")
    end
  else Throw (TypeError "signer or key_id is required").

Definition normalizeReceiptSignature (signature : jsval) : res jsval :=
  throw_if negb (is_record signature) with TypeError "signature must be an object";
  let! value := requiredString (vget signature "value") "signature.value" in
  Ok (VObj [("alg" : jstr, vget signature "alg" ?? VStr ED25519); ("value" : jstr, VStr value)]).

Definition normalizeCreateReceiptArgs (receiptOrArgs : jsval) (maybeOptions : obj) : obj :=
  if is_record receiptOrArgs && (fhas (own_fields receiptOrArgs) "event"
                                 || fhas (own_fields receiptOrArgs) "privateKey")
  then own_fields receiptOrArgs
  else fset maybeOptions "event" receiptOrArgs.

Definition normalizeVerifyReceiptArgs (receiptOrArgs maybePublicKey : jsval) (maybeOptions : obj)
    : jsval * obj :=
  if is_record receiptOrArgs && fhas (own_fields receiptOrArgs) "receipt"
  then (vget receiptOrArgs "receipt", own_fields receiptOrArgs)
  else (receiptOrArgs, spread [("publicKey" : jstr, maybePublicKey)] maybeOptions).

Definition eventHash (event : jsval) : res jstr :=
  let safeEvent := fdelete (fdelete (fdelete (spread_of event) "privateKey") "signer") "signature" in
  let! t := canonicalize (VObj safeEvent) in prefixedSha256 (VStr t).

Definition copyOptional (target options : obj) (source : jsval) (snake camel : jstr) : obj :=
  let value := fget options snake ?? fget options camel ?? vget source snake ?? vget source camel in
  if is_undef value then target else fset target snake value.

Definition orderReceiptFields (receipt : obj) : obj :=
  flat_map (λ field : jstr, let v := fget receipt field in
                            if is_undef v then [] else [(field, v)])
    RECEIPT_TOP_LEVEL_FIELDS.

Definition unsignedReceipt (receipt : jsval) : jsval :=
  VObj (orderReceiptFields (fdelete (own_fields receipt) "signature")).

Definition validateReceiptShape (receipt : jsval) : list jstr :=
  flat_map (λ key : jstr,
      (if mem_str key RECEIPT_TOP_LEVEL_FIELDS then [] else [("unknown receipt field: " : jstr) +s+ key])
      ++ (if mem_str key RECEIPT_PUBLIC_PLAINTEXT_KEYS
          then [("receipt must not contain public plaintext field: " : jstr) +s+ key] else []))
    (keys (own_fields receipt))
  ++ (if is_record (vget receipt "signature") then
        flat_map (λ key : jstr, if mem_str key RECEIPT_SIGNATURE_FIELDS then []
                                else [("unknown signature field: " : jstr) +s+ key])
          (keys (own_fields (vget receipt "signature")))
      else []).

Definition withoutUndefinedFields (record : obj) : obj :=
  flat_map (λ kv : jstr * jsval, if is_undef kv.2 then [] else [kv]) record.

(** [rcpt_] and the first 32 digits of the hash of the body. *)
Definition receipt_id_of (body : obj) : res jstr :=
  let! t := canonicalize (VObj (orderReceiptFields (fset body "receipt_id" (VStr [])))) in
  Ok ("rcpt_" +s+ slice_to 32 (sha256_text t)).

Definition deriveReceiptId (receipt : jsval) : res jstr :=
  receipt_id_of (withoutUndefinedFields
                   (fdelete (fdelete (own_fields receipt) "receipt_id") "signature")).

Definition ZERO_ROOT : jstr := SHA256_PREFIX +s+ replicate 64 48%N.

Definition safeReceiptHash (receipt : jsval) : jstr :=
  match receiptHash receipt with Ok h => h | Throw _ => ZERO_ROOT end.

Definition resolvePublicKey (keyId : jsval) (options : obj) : jsval :=
  if negb (is_undef (fget options "publicKey")) then fget options "publicKey"
  else
    let publicKeys := fget options "publicKeys" ?? fget options "keyring" ?? fget options "keys" in
    if is_undef publicKeys || is_undef keyId then VUndef
    else match publicKeys with
         | VMap entries => match keyId with VStr k => fget entries k | _ => VUndef end
         | VOpaque OFunction f => call_function f keyId
         | _ => if is_record publicKeys then vget publicKeys (to_str keyId) else VUndef
         end.

(** ** [createReceipt] *)
Definition receipt_body (now : jstr) (options : obj) : res obj :=
  let source := fget options "event" ?? VObj options in
  let! sequence := requiredInteger (fget options "sequence" ?? vget source "sequence") "sequence" in
  let! previous_receipt_hash := normalizePreviousHash
    (fget options "previous_receipt_hash" ?? fget options "previousReceiptHash"
     ?? (if sequence === vint 0 then VStr GENESIS else VUndef)) in
  let! event_hash0 := fget options "event_hash" ??! (fget options "eventHash" ??!
    (vget source "event_hash" ??! (let! h := eventHash source in Ok (VStr h)))) in
  let! event_hash := normalizeSha256Root event_hash0 "event_hash" in
  let! active_set_root := normalizeSha256Root
    (fget options "active_set_root" ?? fget options "activeSetRoot" ?? VStr EMPTY_MERKLE_ROOT)
    "active_set_root" in
  let! receipt_log_root := normalizeSha256Root
    (fget options "receipt_log_root" ?? fget options "receiptLogRoot" ?? VStr EMPTY_MERKLE_ROOT)
    "receipt_log_root" in
  let! operation := requiredString (fget options "operation" ?? vget source "operation") "operation" in
  let! timestamp := requiredString
    (fget options "timestamp" ?? vget source "timestamp" ?? VStr now) "timestamp" in
  let! signer := normalizeSigner (fget options "signer")
    (fget options "key_id" ?? fget options "keyId") (fget options "privateKey") in
  let! tenant_id := requiredString
    (fget options "tenant_id" ?? fget options "tenantId" ?? vget source "tenant_id"
     ?? vget source "tenantId") "tenant_id" in
  let! subject_id := requiredString
    (fget options "subject_id" ?? fget options "subjectId" ?? vget source "subject_id"
     ?? vget source "subjectId") "subject_id" in
  let body := [
    ("schema" : jstr, VStr RECEIPT_SCHEMA);
    ("event_hash" : jstr, VStr event_hash);
    ("operation" : jstr, VStr operation);
    ("tenant_id" : jstr, VStr tenant_id);
    ("subject_id" : jstr, VStr subject_id);
    ("sequence" : jstr, sequence);
    ("previous_receipt_hash" : jstr, VStr previous_receipt_hash);
    ("active_set_root" : jstr, VStr active_set_root);
    ("receipt_log_root" : jstr, VStr receipt_log_root);
    ("timestamp" : jstr, VStr timestamp);
    ("signer" : jstr, signer)] in
  let body := copyOptional body options source "memory_addr" "memoryAddr" in
  let body := copyOptional body options source "source_addr" "sourceAddr" in
  let body := copyOptional body options source "provider" "provider" in
  let body := copyOptional body options source "model" "model" in
  Ok (copyOptional body options source "policy_id" "policyId").

Definition createReceipt (now : jstr) (receiptOrArgs : jsval) (maybeOptions : obj) : res jsval :=
  let options := normalizeCreateReceiptArgs receiptOrArgs maybeOptions in
  let! body := receipt_body now options in
  let! receipt_id := fget options "receipt_id" ??! (fget options "receiptId" ??!
    (let! id := receipt_id_of body in Ok (VStr id))) in
  let unsigned := orderReceiptFields (fset body "receipt_id" receipt_id) in
  let! signature := fget options "signature" ??!
    (let! value := signPayloadArgs (VObj unsigned) (fget options "privateKey") in
     Ok (VObj [("alg" : jstr, VStr ED25519); ("value" : jstr, VStr value)])) in
  let! normalized := normalizeReceiptSignature signature in
  Ok (VObj (orderReceiptFields (fset unsigned "signature" normalized))).

(** ** [verifyReceipt] *)
Record receipt_result := {
  rr_ok : bool;
  rr_errors : list jstr;
  rr_receipt_hash : option jstr;
  rr_signer_key_id : jsval
}.

Definition err_if (b : bool) (msg : string) : list jstr := if b then [msg : jstr] else [].

Definition expected_signer (options : obj) : jsval :=
  fget options "expectedSignerKeyId" ?? fget options "expectedSigner" ?? fget options "signer_key_id".

(** The errors of [verifyReceipt], in the order they are pushed. *)
Definition receipt_errors (receipt : jsval) (options : obj) : list jstr :=
  let signer := vget receipt "signer" in
  let signature := vget receipt "signature" in
  let publicKey := resolvePublicKey (vget signer "key_id") options in
  validateReceiptShape receipt
  ++ err_if (vget receipt "schema" !== VStr RECEIPT_SCHEMA) "schema mismatch"
  ++ err_if (negb (is_record signer) || (vget signer "alg" !== VStr ED25519)
             || negb (truthy (vget signer "key_id"))) "signer mismatch"
  ++ err_if (negb (is_record signature) || (vget signature "alg" !== VStr ED25519)
             || negb (truthy (vget signature "value"))) "signature missing"
  ++ err_if (negb (is_nonneg_integer (vget receipt "sequence")))
       "sequence must be a non-negative integer"
  ++ err_if (negb (isSha256Root (vget receipt "event_hash"))) "event_hash must be a sha256 root"
  ++ err_if (negb (isSha256Root (vget receipt "active_set_root")))
       "active_set_root must be a sha256 root"
  ++ err_if (negb (isSha256Root (vget receipt "receipt_log_root")))
       "receipt_log_root must be a sha256 root"
  ++ err_if (negb (isPreviousHash (vget receipt "previous_receipt_hash")))
       "previous_receipt_hash mismatch"
  ++ err_if (negb (is_undef (expected_signer options))
             && (vget signer "key_id" !== expected_signer options)) "wrong signer"
  ++ err_if (match deriveReceiptId receipt with
             | Ok derivedId => vget receipt "receipt_id" !== VStr derivedId
             | Throw _ => true
             end) "receipt_id mismatch"
  ++ (if is_undef publicKey then ["missing public key" : jstr]
      else err_if (negb (verifySignatureArgs (unsignedReceipt receipt) signature publicKey))
             "signature mismatch").

Definition verifyReceipt (receiptOrArgs maybePublicKey : jsval) (maybeOptions : obj) : receipt_result :=
  let '(receipt, options) := normalizeVerifyReceiptArgs receiptOrArgs maybePublicKey maybeOptions in
  if negb (is_record receipt) then
    {| rr_ok := false; rr_errors := ["receipt must be an object" : jstr];
       rr_receipt_hash := None; rr_signer_key_id := VUndef |}
  else
    let errors := receipt_errors receipt options in
    {| rr_ok := bool_decide (errors = []); rr_errors := errors;
       rr_receipt_hash := Some (safeReceiptHash receipt);
       rr_signer_key_id := vget (vget receipt "signer") "key_id" |}.

(** ** [verifyReceiptChain] *)
Record chain_result := {
  cr_ok : bool;
  cr_errors : list jstr;
  cr_receipt_log_root : option jstr;
  cr_active_set_root : jsval;
  cr_receipt_hashes : list jstr
}.

Definition receipt_error (index : nat) (error : jstr) : jstr :=
  "receipt " +s+ nat_str index +s+ ": " +s+ error.

(** The first loop: the errors and the hash of each receipt. *)
Fixpoint chain_loop (options : obj) (start expectedPrevious : jsval) (index : nat)
    (receipts : list jsval) : res (list jstr * list jstr) :=
  match receipts with
  | [] => Ok ([], [])
  | r :: receipts' =>
      let receipt := elem r in
      let verified := verifyReceipt (VObj (spread [("receipt" : jstr, receipt)] options)) VUndef [] in
      let! expectedSequence := plus_index start index in
      let hash := safeReceiptHash receipt in
      let errors :=
        (if rr_ok verified then [] else map (receipt_error index) (rr_errors verified))
        ++ (if vget receipt "sequence" !== expectedSequence
            then [receipt_error index "sequence gap or reorder"] else [])
        ++ (if negb (is_undef expectedPrevious)
               && (vget receipt "previous_receipt_hash" !== expectedPrevious)
            then [receipt_error index "previous hash mismatch"] else []) in
      let! rest := chain_loop options start (VStr hash) (S index) receipts' in
      Ok (errors ++ rest.1, hash :: rest.2)
  end.

(** The second loop, over [receipts] and [hashes]. *)
Fixpoint embedded_root_errors (prefix : MerkleSet) (index : nat) (receipts : list jsval)
    (hashes : list jstr) : list jstr :=
  match receipts, hashes with
  | r :: receipts', hash :: hashes' =>
      (if vget (elem r) "receipt_log_root" !== VStr (ms_root prefix)
       then [receipt_error index "embedded receipt_log_root mismatch"] else [])
      ++ embedded_root_errors {| ms_values := set_add hash (ms_values prefix) |} (S index)
           receipts' hashes'
  | _, _ => []
  end.

(** [expected !== undefined && normalizeSha256Root(expected, field) !== actual]. *)
Definition root_differs (expected : jsval) (field : string) (actual : jsval) : res bool :=
  if is_undef expected then Ok false
  else let! r := normalizeSha256Root expected field in Ok (VStr r !== actual).

Definition list_set (values : list jstr) : MerkleSet := {| ms_values := set_of_list values |}.

Definition expected_hash_errors (expected : jsval) (hashes : list jstr) : list jstr :=
  match expected with
  | VArr l =>
      err_if (negb (length l =? length hashes)%nat) "receipt hash list length mismatch"
      ++ concat (imap (λ index lh, if elem lh.1 !== VStr lh.2
                                   then [receipt_error index "receipt hash mismatch"] else [])
                   (zip l hashes))
  | _ => []
  end.

Definition verifyReceiptChain (receiptsOrArgs : jsval) (maybeOptions : obj) : res chain_result :=
  let options := if is_array receiptsOrArgs then maybeOptions else own_fields receiptsOrArgs in
  match (if is_array receiptsOrArgs then receiptsOrArgs else fget options "receipts") with
  | VArr receipts =>
      let start := fget options "startSequence" ?? fget options "expectedStartSequence" ?? vint 0 in
      let expectedPrevious := fget options "previous_receipt_hash" ?? fget options "previousReceiptHash"
        ?? (if start === vint 0 then VStr GENESIS else VUndef) in
      let e0 := err_if (is_undef expectedPrevious)
                  "previous receipt hash is required for non-genesis chain segments" in
      let! loop := chain_loop options start expectedPrevious 0 receipts in
      let hashes := loop.2 in
      let receiptLogRoot := ms_root (list_set hashes) in
      let! badLog := root_differs
        (fget options "expectedReceiptLogRoot" ?? fget options "receiptLogRoot"
         ?? fget options "receipt_log_root") "expectedReceiptLogRoot" (VStr receiptLogRoot) in
      let! embedded :=
        (if fget options "verifyEmbeddedReceiptLogRoot" === VBool true then
           let! badStart := root_differs
             (fget options "previousReceiptLogRoot" ?? fget options "previous_receipt_log_root"
              ?? fget options "startReceiptLogRoot" ?? fget options "start_receipt_log_root")
             "previousReceiptLogRoot" (VStr (ms_root ms_empty)) in
           Ok (err_if badStart "embedded receipt_log_root start root mismatch"
               ++ embedded_root_errors ms_empty 0 receipts hashes)
         else Ok []) in
      let! activeSetRoot :=
        (match last receipts with
         | Some r => getx (elem r) "active_set_root"
         | None => Ok (VStr EMPTY_MERKLE_ROOT)
         end) in
      let! badActive := root_differs
        (fget options "expectedActiveSetRoot" ?? fget options "activeSetRoot"
         ?? fget options "active_set_root") "expectedActiveSetRoot" activeSetRoot in
      let errors := e0 ++ loop.1 ++ err_if badLog "receipt log root mismatch" ++ embedded
                    ++ err_if badActive "active set root mismatch"
                    ++ expected_hash_errors (fget options "expectedReceiptHashes") hashes in
      Ok {| cr_ok := bool_decide (errors = []); cr_errors := errors;
            cr_receipt_log_root := Some receiptLogRoot; cr_active_set_root := activeSetRoot;
            cr_receipt_hashes := hashes |}
  | _ => Ok {| cr_ok := false; cr_errors := ["receipts must be an array" : jstr];
               cr_receipt_log_root := None; cr_active_set_root := VUndef; cr_receipt_hashes := [] |}
  end.
End receipts.

(** ** Checkpoints *)
Section checkpoints.
Context {C : Crypto}.

Definition orderCheckpointFields (checkpoint : obj) : obj :=
  let at_ k : jstr * jsval := (k, fget checkpoint k) in
  [at_ "schema"; at_ "checkpoint_id"; at_ "tenant_hash"; at_ "owner_scope_hash"; at_ "epoch";
   at_ "active_memory_root"; at_ "deleted_memory_root"; at_ "receipt_log_root";
   at_ "key_registry_root"; at_ "policy_registry_root"; at_ "previous_checkpoint_hash"]
  ++ (if is_undef (fget checkpoint "witness_policy") then [] else [at_ "witness_policy"])
  ++ [at_ "issued_at"]
  ++ (if is_undef (fget checkpoint "signatures") then [] else [at_ "signatures"]).

Definition unsignedCheckpoint (checkpoint : jsval) : jsval :=
  VObj (orderCheckpointFields (fdelete (own_fields checkpoint) "signatures")).

Definition checkpoint_body (now : jstr) (options : obj) : res obj :=
  let! tenant_hash := rootFromHashable (fget options "tenant_hash" ?? fget options "tenantHash")
    (fget options "tenant_id" ?? fget options "tenantId" ?? vstr "tenant") in
  let! owner_scope_hash := rootFromHashable
    (fget options "owner_scope_hash" ?? fget options "ownerScopeHash")
    (fget options "owner_scope" ?? fget options "ownerScope" ?? vstr "owner") in
  let! epoch := requiredInteger (fget options "epoch" ?? fget options "sequence" ?? vint 0) "epoch" in
  let! active_memory_root := normalizeSha256Root
    (fget options "active_memory_root" ?? fget options "activeMemoryRoot"
     ?? fget options "active_set_root" ?? fget options "activeSetRoot" ?? VStr EMPTY_MERKLE_ROOT)
    "active_memory_root" in
  let! deleted_memory_root := normalizeSha256Root
    (fget options "deleted_memory_root" ?? fget options "deletedMemoryRoot" ?? VStr EMPTY_MERKLE_ROOT)
    "deleted_memory_root" in
  let! receipt_log_root := normalizeSha256Root
    (fget options "receipt_log_root" ?? fget options "receiptLogRoot" ?? VStr EMPTY_MERKLE_ROOT)
    "receipt_log_root" in
  let! key_registry_root := normalizeSha256Root
    (fget options "key_registry_root" ?? fget options "keyRegistryRoot" ?? VStr EMPTY_MERKLE_ROOT)
    "key_registry_root" in
  let! policy_registry_root := normalizeSha256Root
    (fget options "policy_registry_root" ?? fget options "policyRegistryRoot"
     ?? VStr EMPTY_MERKLE_ROOT) "policy_registry_root" in
  let! previous_checkpoint_hash := normalizePreviousHash
    (fget options "previous_checkpoint_hash" ?? fget options "previousCheckpointHash"
     ?? VStr GENESIS) in
  let! issued_at := requiredString
    (fget options "issued_at" ?? fget options "issuedAt" ?? fget options "timestamp" ?? VStr now)
    "issued_at" in
  let body := [
    ("schema" : jstr, VStr CHECKPOINT_SCHEMA);
    ("tenant_hash" : jstr, VStr tenant_hash);
    ("owner_scope_hash" : jstr, VStr owner_scope_hash);
    ("epoch" : jstr, epoch);
    ("active_memory_root" : jstr, VStr active_memory_root);
    ("deleted_memory_root" : jstr, VStr deleted_memory_root);
    ("receipt_log_root" : jstr, VStr receipt_log_root);
    ("key_registry_root" : jstr, VStr key_registry_root);
    ("policy_registry_root" : jstr, VStr policy_registry_root);
    ("previous_checkpoint_hash" : jstr, VStr previous_checkpoint_hash);
    ("issued_at" : jstr, VStr issued_at)] in
  let witness := fget options "witness_policy" ?? fget options "witnessPolicy" in
  Ok (if truthy witness then fset body "witness_policy" witness else body).

Definition createCheckpoint (now : jstr) (checkpointOrArgs : jsval) (maybeOptions : obj) : res jsval :=
  let options := spread (if is_record checkpointOrArgs then own_fields checkpointOrArgs else [])
                   maybeOptions in
  let! signer := normalizeSigner (fget options "signer")
    (fget options "key_id" ?? fget options "keyId") (fget options "privateKey") in
  let! body := checkpoint_body now options in
  let! checkpoint_id := fget options "checkpoint_id" ??! (fget options "checkpointId" ??!
    (let! t := canonicalize (VObj body) in
     Ok (VStr ("chk_" +s+ slice_to 32 (sha256_text t))))) in
  let unsigned := orderCheckpointFields (fset body "checkpoint_id" checkpoint_id) in
  let! signatures := fget options "signatures" ??!
    (let! value := signPayloadArgs (VObj unsigned) (fget options "privateKey") in
     Ok (VArr [VObj [("alg" : jstr, VStr ED25519); ("key_id" : jstr, vget signer "key_id");
                     ("value" : jstr, VStr value)]])) in
  Ok (VObj (orderCheckpointFields (fset unsigned "signatures" signatures))).

Definition CHECKPOINT_ROOT_FIELDS : list jstr :=
  ["tenant_hash" : jstr; "owner_scope_hash" : jstr; "active_memory_root" : jstr;
   "deleted_memory_root" : jstr; "receipt_log_root" : jstr; "key_registry_root" : jstr;
   "policy_registry_root" : jstr].

(** The body of the loop over [checkpoint.signatures ?? []]. *)
Definition checkpoint_signature_error (options : obj) (unsigned signature : jsval) : res (list jstr) :=
  let! key_id := getx signature "key_id" in
  let publicKey := resolvePublicKey key_id options in
  Ok (if (vget signature "alg" !== VStr ED25519) || negb (truthy key_id)
         || negb (truthy (vget signature "value"))
      then ["checkpoint signature malformed" : jstr]
      else if is_undef publicKey then [("missing public key for " : jstr) +s+ to_str key_id]
      else if negb (verifySignatureArgs unsigned signature publicKey)
      then [("checkpoint signature mismatch for " : jstr) +s+ to_str key_id]
      else []).

Record checkpoint_result := {
  kr_ok : bool;
  kr_errors : list jstr;
  kr_checkpoint_hash : option jstr
}.

Definition verifyCheckpoint (checkpointOrArgs maybePublicKeys : jsval) (maybeOptions : obj)
    : res checkpoint_result :=
  let options := if is_record checkpointOrArgs && fhas (own_fields checkpointOrArgs) "checkpoint"
                 then own_fields checkpointOrArgs
                 else spread [("checkpoint" : jstr, checkpointOrArgs);
                              ("publicKeys" : jstr, maybePublicKeys)] maybeOptions in
  let checkpoint := fget options "checkpoint" in
  if negb (is_record checkpoint) then
    Ok {| kr_ok := false; kr_errors := ["checkpoint must be an object" : jstr];
          kr_checkpoint_hash := None |}
  else
    let e_shape :=
      err_if (vget checkpoint "schema" !== VStr CHECKPOINT_SCHEMA) "schema mismatch"
      ++ flat_map (λ field : jstr, if isSha256Root (vget checkpoint field) then []
                                   else [field +s+ " must be a sha256 root"])
           CHECKPOINT_ROOT_FIELDS
      ++ err_if (negb (isPreviousHash (vget checkpoint "previous_checkpoint_hash")))
           "previous checkpoint hash mismatch"
      ++ err_if (negb (is_nonneg_integer (vget checkpoint "epoch")))
           "epoch must be a non-negative integer"
      ++ err_if (match vget checkpoint "signatures" with VArr (_ :: _) => false | _ => true end)
           "signatures missing" in
    let unsigned := unsignedCheckpoint checkpoint in
    let! signatures := iterate (vget checkpoint "signatures" ?? VArr []) in
    let! e_signatures := map_res (checkpoint_signature_error options unsigned) signatures in
    let! badLog := root_differs
      (fget options "expectedReceiptLogRoot" ?? fget options "receiptLogRoot")
      "expectedReceiptLogRoot" (vget checkpoint "receipt_log_root") in
    let! badActive := root_differs
      (fget options "expectedActiveMemoryRoot" ?? fget options "activeMemoryRoot"
       ?? fget options "activeSetRoot") "expectedActiveMemoryRoot"
      (vget checkpoint "active_memory_root") in
    let! t := canonicalize checkpoint in
    let! checkpoint_hash := prefixedSha256 (VStr t) in
    let errors := e_shape ++ concat e_signatures ++ err_if badLog "receipt log root mismatch"
                  ++ err_if badActive "active memory root mismatch" in
    Ok {| kr_ok := bool_decide (errors = []); kr_errors := errors;
          kr_checkpoint_hash := Some checkpoint_hash |}.
End checkpoints.

(** ** Picking fields *)
Section fields.
Context {C : Crypto} {L : CryptoLaws C}.

Definition pick (fields : list jstr) (a : obj) : obj :=
  flat_map (λ k : jstr, let v := fget a k in if is_undef v then [] else [(k, v)]) fields.

Lemma pick_cons k fields a :
  pick (k :: fields) a =
  (if is_undef (fget a k) then [] else [(k, fget a k)]) ++ pick fields a.
Proof. done. Qed.

Lemma elem_eq v w :
  elem v = elem w -> is_undef v = is_undef w /\ (is_undef w = false -> v = w).
Proof. destruct v, w; simpl; naive_solver. Qed.

Lemma pick_ext fields a b :
  (forall k, k ∈ fields -> elem (fget a k) = elem (fget b k)) -> pick fields a = pick fields b.
Proof.
  induction fields as [|k fields IH]; intros H; [done|]. rewrite !pick_cons.
  rewrite (IH (λ k' Hk', H k' (list_elem_of_further _ _ _ Hk'))).
  destruct (elem_eq _ _ (H k (list_elem_of_here _ _))) as [-> Hv].
  destruct (is_undef (fget b k)); [done|]. by rewrite Hv.
Qed.

Lemma fget_app a b k : fget (a ++ b) k = if fhas a k then fget a k else fget b k.
Proof.
  induction a as [|[k' v] a IH]; [done|]. cbn [app fget fhas].
  destruct (k' =s= k); [done|]. apply IH.
Qed.

Lemma fhas_pick fields a k :
  fhas (pick fields a) k = mem_str k fields && negb (is_undef (fget a k)).
Proof.
  induction fields as [|k' fields IH]; [done|]. rewrite pick_cons.
  replace (mem_str k (k' :: fields)) with ((k' =s= k) || mem_str k fields).
  2: { apply eq_true_iff_eq. rewrite orb_true_iff, str_eqb_eq, !mem_str_true, elem_of_cons.
       naive_solver. }
  destruct (is_undef (fget a k')) eqn:E; cbn [app fhas].
  - rewrite IH. destruct (k' =s= k) eqn:Ek; [|done]. apply str_eqb_eq in Ek as ->.
    rewrite E. by destruct (mem_str k fields).
  - rewrite IH. destruct (k' =s= k) eqn:Ek; [|done]. apply str_eqb_eq in Ek as ->.
    by rewrite E.
Qed.

Lemma fget_pick fields a k :
  fget (pick fields a) k = if mem_str k fields then elem (fget a k) else VUndef.
Proof.
  destruct (mem_str k fields) eqn:Em.
  - induction fields as [|k' fields IH]; [done|]. rewrite pick_cons.
    apply mem_str_true, elem_of_cons in Em. rewrite fget_app.
    destruct (decide (k = k')) as [->|Hne].
    + destruct (is_undef (fget a k')) eqn:E; cbn [fhas].
      * destruct (mem_str k' fields) eqn:Em'; [by apply IH|].
        rewrite fhas_false_fget by (by rewrite fhas_pick, Em').
        by destruct (fget a k').
      * rewrite str_eqb_refl. simpl. rewrite str_eqb_refl. by destruct (fget a k').
    + destruct Em as [?|Em]; [done|]. apply mem_str_true in Em. rewrite <- IH by done.
      destruct (is_undef (fget a k')); [done|]. cbn [fhas orb].
      by replace (k' =s= k) with false by (symmetry; apply str_eqb_neq; congruence).
  - apply fhas_false_fget. by rewrite fhas_pick, Em.
Qed.

Lemma keys_pick fields a k : k ∈ keys (pick fields a) -> k ∈ fields.
Proof. rewrite <- fhas_elem, fhas_pick, andb_true_iff, mem_str_true. tauto. Qed.

Lemma NoDup_keys_pick fields a : NoDup fields -> NoDup (keys (pick fields a)).
Proof.
  induction 1 as [|k fields Hn Hd IH]; [apply NoDup_nil_2|]. rewrite pick_cons.
  destruct (is_undef (fget a k)); [done|]. unfold keys. csimpl. apply NoDup_cons.
  split; [|done]. by intros ?%keys_pick.
Qed.

Lemma pick_defined fields a : Forall (λ kv : jstr * jsval, is_undef kv.2 = false) (pick fields a).
Proof.
  induction fields as [|k fields IH]; [constructor|]. rewrite pick_cons.
  destruct (is_undef (fget a k)) eqn:E; [done|]. by constructor.
Qed.

Lemma fdelete_defined a k :
  Forall (λ kv : jstr * jsval, is_undef kv.2 = false) a ->
  Forall (λ kv : jstr * jsval, is_undef kv.2 = false) (fdelete a k).
Proof.
  rewrite !Forall_forall. intros H kv [_ Hk]%list_elem_of_filter. by apply H.
Qed.

Lemma withoutUndefinedFields_id a :
  Forall (λ kv : jstr * jsval, is_undef kv.2 = false) a -> withoutUndefinedFields a = a.
Proof.
  induction 1 as [|kv a Hd _ IH]; [done|]. unfold withoutUndefinedFields in *. simpl.
  by rewrite Hd, IH.
Qed.
End fields.

(** ** A created receipt verifies *)
Section created.
Context {C : Crypto} {L : CryptoLaws C}.

Definition is_root (v : jsval) : Prop := exists s, v = VStr s /\ re_full ROOT_RE s = true.

(** What [createReceipt] puts into the body. *)
Record body_ok (body : obj) : Prop := {
  bo_schema : fget body "schema" = VStr RECEIPT_SCHEMA;
  bo_sequence : is_nonneg_integer (fget body "sequence") = true;
  bo_event_hash : is_root (fget body "event_hash");
  bo_active : is_root (fget body "active_set_root");
  bo_log : is_root (fget body "receipt_log_root");
  bo_previous : exists s, fget body "previous_receipt_hash" = VStr s /\
                          (s = GENESIS \/ re_full ROOT_RE s = true);
  bo_signer : exists id alg, id <> [] /\
    fget body "signer" = VObj [("key_id" : jstr, VStr id); ("alg" : jstr, alg)];
  bo_no_signature : fget body "signature" = VUndef
}.

Lemma fget_copyOptional target options source snake camel k :
  (snake =s= k) = false ->
  fget (copyOptional target options source snake camel) k = fget target k.
Proof.
  intros H. unfold copyOptional. destruct (is_undef _); [done|]. by rewrite fget_fset, H.
Qed.

Lemma normalizeSigner_ok signer keyId sk v :
  normalizeSigner signer keyId sk = Ok v ->
  exists id alg, id <> [] /\ v = VObj [("key_id" : jstr, VStr id); ("alg" : jstr, alg)].
Proof.
  unfold normalizeSigner. intros H. repeat case_match; inv_res; try done.
  all: try match goal with E : requiredString _ _ = Ok _ |- _ =>
         apply requiredString_ok in E as [_ ?] end; eauto.
  eexists _, _. split; [|done]. done.
Qed.

Lemma receipt_body_ok now options body : receipt_body now options = Ok body -> body_ok body.
Proof.
  unfold receipt_body. intros H. cbn zeta in H. inv_res.
  repeat match goal with
    | E : requiredInteger _ _ = Ok _ |- _ => apply requiredInteger_ok in E as [-> ?]
    | E : normalizeSha256Root _ _ = Ok _ |- _ => apply normalizeSha256Root_root in E
    | E : normalizePreviousHash _ = Ok _ |- _ => apply normalizePreviousHash_ok in E
    | E : normalizeSigner _ _ _ = Ok _ |- _ => apply normalizeSigner_ok in E as (? & ? & ? & ->)
    end.
  split; rewrite ?fget_copyOptional by (vm_compute; reflexivity); simp_get; unfold is_root; eauto.
Qed.

Definition receipt_of (body : obj) (id signature : jsval) : obj :=
  orderReceiptFields
    (fset (orderReceiptFields (fset body "receipt_id" id)) "signature" signature).

Lemma fget_order a k :
  fget (orderReceiptFields a) k =
  if mem_str k RECEIPT_TOP_LEVEL_FIELDS then elem (fget a k) else VUndef.
Proof. apply fget_pick. Qed.

Lemma order_ext a b :
  (forall k, k ∈ RECEIPT_TOP_LEVEL_FIELDS -> elem (fget a k) = elem (fget b k)) ->
  orderReceiptFields a = orderReceiptFields b.
Proof. apply pick_ext. Qed.

Lemma fget_receipt_of body id signature k :
  k ∈ RECEIPT_TOP_LEVEL_FIELDS ->
  fget (receipt_of body id signature) k =
  elem (if ("signature" : jstr) =s= k then signature
        else if ("receipt_id" : jstr) =s= k then id else fget body k).
Proof.
  intros Hk%mem_str_true. unfold receipt_of. rewrite fget_order, Hk, fget_fset, fget_order, Hk,
    fget_fset.
  destruct (("signature" : jstr) =s= k); [done|].
  by destruct (if ("receipt_id" : jstr) =s= k then id else fget body k).
Qed.

Lemma receipt_of_shape body id alg value :
  validateReceiptShape
    (VObj (receipt_of body id (VObj [("alg" : jstr, alg); ("value" : jstr, value)]))) = [].
Proof.
  unfold validateReceiptShape, vget. cbn [own_fields].
  rewrite fget_receipt_of by (apply mem_str_true; vm_compute; reflexivity).
  simp_str. cbn [elem is_record own_fields]. apply app_nil. split; [|by vm_compute].
  apply flat_map_nil. intros k Hk%keys_pick.
  rewrite (proj2 (mem_str_true _ _) Hk). cbn [app].
  assert (forallb (λ k, negb (mem_str k RECEIPT_PUBLIC_PLAINTEXT_KEYS)) RECEIPT_TOP_LEVEL_FIELDS
          = true) as Hd by by vm_compute.
  rewrite forallb_forall in Hd. apply list_elem_of_In in Hk. apply Hd, negb_true_iff in Hk.
  by rewrite Hk.
Qed.

Lemma unsigned_receipt_of body id signature :
  fget body "signature" = VUndef ->
  unsignedReceipt (VObj (receipt_of body id signature)) =
  VObj (orderReceiptFields (fset body "receipt_id" id)).
Proof.
  intros Hs. unfold unsignedReceipt. cbn [own_fields]. f_equal. apply order_ext. intros k Hk.
  rewrite fget_fdelete, fget_receipt_of, fget_fset by done.
  destruct (("signature" : jstr) =s= k) eqn:E.
  - apply str_eqb_eq in E as <-. by rewrite Hs.
  - by destruct (if ("receipt_id" : jstr) =s= k then id else fget body k).
Qed.

Lemma derive_receipt_of body id signature :
  fget body "signature" = VUndef ->
  deriveReceiptId (VObj (receipt_of body id signature)) = receipt_id_of body.
Proof.
  intros Hs. unfold deriveReceiptId. cbn [own_fields].
  rewrite withoutUndefinedFields_id by (apply fdelete_defined, fdelete_defined, pick_defined).
  unfold receipt_id_of. do 3 f_equal. apply order_ext. intros k Hk.
  rewrite !fget_fset. destruct (("receipt_id" : jstr) =s= k) eqn:E; [done|].
  rewrite !fget_fdelete, E, fget_receipt_of, E by done.
  destruct (("signature" : jstr) =s= k) eqn:E'; [|by destruct (fget body k)].
  apply str_eqb_eq in E' as <-. by rewrite Hs.
Qed.

Lemma is_root_sha v : is_root v -> isSha256Root v = true.
Proof. intros (s & -> & H). done. Qed.

Ltac get_receipt := unfold vget; cbn [own_fields];
  rewrite fget_receipt_of by (apply mem_str_true; vm_compute; reflexivity); simp_str; cbn beta iota.

(** The fields of a created receipt that [verifyReceipt] looks at. *)
Lemma receipt_of_fields body id signature :
  body_ok body ->
  let r := VObj (receipt_of body id signature) in
  vget r "schema" = VStr RECEIPT_SCHEMA /\ vget r "sequence" = fget body "sequence" /\
  vget r "event_hash" = fget body "event_hash" /\
  vget r "active_set_root" = fget body "active_set_root" /\
  vget r "receipt_log_root" = fget body "receipt_log_root" /\
  vget r "previous_receipt_hash" = fget body "previous_receipt_hash" /\
  vget r "signer" = fget body "signer" /\ vget r "signature" = elem signature /\
  vget r "receipt_id" = elem id.
Proof.
  intros Hb r. subst r. destruct Hb as [E1 E2 (? & E3 & _) (? & E4 & _) (? & E5 & _)
    (? & E6 & _) (? & ? & _ & E7) _].
  split_and!; get_receipt; rewrite ?E1, ?E3, ?E4, ?E5, ?E6, ?E7; try done.
  by destruct (fget body "sequence").
Qed.

Lemma err_if_nil b msg : b = false -> err_if b msg = [].
Proof. by intros ->. Qed.

Lemma created_receipt_errors body id sk pk sig options key_id :
  body_ok body -> receipt_id_of body = Ok id ->
  signPayloadArgs (VObj (orderReceiptFields (fset body "receipt_id" (VStr id)))) sk = Ok sig ->
  fget body "signer" = VObj [("key_id" : jstr, VStr key_id); ("alg" : jstr, VStr ED25519)] ->
  key_pair sk pk -> is_undef pk = false -> resolvePublicKey (VStr key_id) options = pk ->
  is_undef (expected_signer options) = true \/ expected_signer options = VStr key_id ->
  receipt_errors (VObj (receipt_of body (VStr id)
      (VObj [("alg" : jstr, VStr ED25519); ("value" : jstr, VStr sig)]))) options = [].
Proof.
  intros Hb Hid Hsig Hsigner Hkp Hpk Hres Hexp.
  pose proof (receipt_of_fields body (VStr id)
    (VObj [("alg" : jstr, VStr ED25519); ("value" : jstr, VStr sig)]) Hb)
    as (F1 & F2 & F3 & F4 & F5 & F6 & F7 & F8 & F9).
  assert (sig <> []) as Hne by by eapply signPayloadArgs_nonempty.
  assert (key_id <> []) as Hke by (destruct (bo_signer _ Hb) as (? & ? & ? & ?); congruence).
  unfold receipt_errors. rewrite F1, F2, F3, F4, F5, F6, F7, F8, F9.
  rewrite receipt_of_shape, unsigned_receipt_of, derive_receipt_of, Hid by apply Hb.
  rewrite (bo_sequence _ Hb), !is_root_sha by apply Hb.
  destruct (bo_previous _ Hb) as (p & -> & Hp). rewrite (isPreviousHash_ok p Hp), Hsigner.
  change (vget (VObj [("key_id" : jstr, VStr key_id); ("alg" : jstr, VStr ED25519)]) "key_id")
    with (VStr key_id).
  rewrite Hres, Hpk. erewrite verify_signed; [|done..|reflexivity].
  apply str_eqb_neq in Hne, Hke.
  rewrite !app_nil. split_and!; try reflexivity; apply err_if_nil.
  - cbn. by rewrite Hke.
  - transitivity (negb (truthy (VStr sig))); [reflexivity|]. cbn. by rewrite Hne.
  - destruct Hexp as [->| ->]; [done|]. cbn. by rewrite str_eqb_refl.
  - cbn. by rewrite str_eqb_refl.
Qed.

(** The inputs under which [createReceipt] derives the identifier and signs itself. *)
Definition self_signed (options : obj) : Prop :=
  is_nullish (fget options "receipt_id") = true /\ is_nullish (fget options "receiptId") = true /\
  is_nullish (fget options "signature") = true.

Lemma coalesce_res_nullish a b : is_nullish a = true -> (a ??! b) = b.
Proof. unfold coalesce_res. by intros ->. Qed.

Lemma createReceipt_inv now receiptOrArgs maybeOptions r :
  createReceipt now receiptOrArgs maybeOptions = Ok r ->
  self_signed (normalizeCreateReceiptArgs receiptOrArgs maybeOptions) ->
  exists body id sig,
    receipt_body now (normalizeCreateReceiptArgs receiptOrArgs maybeOptions) = Ok body /\
    receipt_id_of body = Ok id /\
    signPayloadArgs (VObj (orderReceiptFields (fset body "receipt_id" (VStr id))))
      (fget (normalizeCreateReceiptArgs receiptOrArgs maybeOptions) "privateKey") = Ok sig /\
    r = VObj (receipt_of body (VStr id)
                (VObj [("alg" : jstr, VStr ED25519); ("value" : jstr, VStr sig)])).
Proof.
  unfold createReceipt. cbn zeta. intros H (H1 & H2 & H3). inv_res.
  rewrite !coalesce_res_nullish in * by done. inv_res.
  unfold normalizeReceiptSignature in *. inv_res. unfold vget in *. cbn [own_fields] in *.
  match goal with E : requiredString (fget _ _) _ = Ok _ |- _ =>
    apply requiredString_ok in E as [E _] end.
  match goal with E : fget [_; (_, VStr ?a)] _ = VStr ?b |- _ =>
    assert (a = b) as <- by exact (VStr_inj _ _ E) end.
  by eexists _, _, _.
Qed.

Lemma receipt_of_no_receipt body id signature :
  fhas (receipt_of body id signature) "receipt" = false.
Proof. unfold receipt_of. by rewrite (fhas_pick RECEIPT_TOP_LEVEL_FIELDS). Qed.

(** C17 A receipt that [createReceipt] signs itself is accepted by [verifyReceipt]
    under the matching public key, with no error. *)
Theorem createReceipt_verifies now receiptOrArgs maybeOptions r pk :
  let options := normalizeCreateReceiptArgs receiptOrArgs maybeOptions in
  createReceipt now receiptOrArgs maybeOptions = Ok r -> self_signed options ->
  vget (vget r "signer") "alg" = VStr ED25519 ->
  key_pair (fget options "privateKey") pk -> is_undef pk = false ->
  let result := verifyReceipt r pk [] in
  rr_ok result = true /\ rr_errors result = [] /\
  rr_receipt_hash result = Some (safeReceiptHash r).
Proof.
  cbn zeta. intros H Hs Halg Hkp Hpk.
  destruct (createReceipt_inv _ _ _ _ H Hs) as (body & id & sig & Hbody & Hid & Hsig & ->).
  pose proof (receipt_body_ok _ _ _ Hbody) as Hb.
  destruct (bo_signer _ Hb) as (key_id & alg & Hk & Hsigner).
  destruct (receipt_of_fields body (VStr id)
    (VObj [("alg" : jstr, VStr ED25519); ("value" : jstr, VStr sig)]) Hb)
    as (_ & _ & _ & _ & _ & _ & F7 & _ & _).
  rewrite F7, Hsigner in Halg. change (alg = VStr ED25519) in Halg. subst alg.
  unfold verifyReceipt, normalizeVerifyReceiptArgs. cbn [own_fields is_record andb].
  rewrite receipt_of_no_receipt. cbn [negb is_record rr_ok rr_errors rr_receipt_hash].
  erewrite created_receipt_errors; try done.
  - unfold resolvePublicKey.
    change (fget (spread [("publicKey" : jstr, pk)] []) "publicKey") with pk. by rewrite Hpk.
  - by left.
Qed.
End created.

(** ** Chains *)
Section chains.
Context {C : Crypto} {L : CryptoLaws C}.

Definition receipt_accepted (options : obj) (r : jsval) : bool :=
  rr_ok (verifyReceipt (VObj (spread [("receipt" : jstr, r)] options)) VUndef []).

(** What a chain promises: every receipt verifies, the sequence numbers count up
    from [i] and every receipt names the hash of its predecessor. *)
Fixpoint chain_valid (options : obj) (i : nat) (prev : jstr) (receipts : list jsval) : Prop :=
  match receipts with
  | [] => True
  | r :: receipts' =>
      receipt_accepted options r = true /\ (vget r "sequence" === vnat i) = true /\
      vget r "previous_receipt_hash" = VStr prev /\
      chain_valid options (S i) (safeReceiptHash r) receipts'
  end.

Lemma verifyReceipt_ok_errors a b c :
  rr_ok (verifyReceipt a b c) = true <-> rr_errors (verifyReceipt a b c) = [].
Proof.
  unfold verifyReceipt. destruct (normalizeVerifyReceiptArgs a b c) as [r options].
  destruct (negb (is_record r)); simpl; [done|]. apply bool_decide_eq_true.
Qed.

Lemma plus_index_vnat n i :
  (Z.of_nat (n + i) < 2 ^ 53)%Z -> plus_index (vnat n) i = Ok (vnat (n + i)).
Proof.
  intros H. unfold plus_index, vnat, num_add, int_result. rewrite <- Nat2Z.inj_add.
  replace (Z.abs _ <? 2 ^ 53)%Z with true by (symmetry; apply Z.ltb_lt; lia). done.
Qed.

Lemma if_nil {A} (b : bool) (l : list A) :
  l <> [] -> ((if b then l else []) = [] <-> b = false).
Proof. destruct b; naive_solver. Qed.

Lemma chain_loop_spec options n prev i receipts :
  (Z.of_nat (n + i + length receipts) < 2 ^ 53)%Z ->
  exists errors,
    chain_loop options (vnat n) (VStr prev) i receipts =
      Ok (errors, map (λ r, safeReceiptHash (elem r)) receipts) /\
    (errors = [] <-> chain_valid options (n + i) prev (map elem receipts)).
Proof.
  revert prev i. induction receipts as [|r receipts IH]; intros prev i Hlen;
    cbn [chain_loop map chain_valid]; [by exists []|].
  simpl in Hlen. rewrite plus_index_vnat by lia. cbn [res_bind].
  destruct (IH (safeReceiptHash (elem r)) (S i)) as (errors & -> & He); [lia|].
  eexists. split; [reflexivity|]. cbn [fst]. rewrite !app_nil, He, Nat.add_succ_r.
  fold (receipt_accepted options (elem r)).
  rewrite !if_nil by done. cbn [is_undef negb andb]. rewrite !negb_false_iff, seq_str.
  assert ((if receipt_accepted options (elem r) then [] else map (receipt_error i)
      (rr_errors (verifyReceipt (VObj (spread [("receipt" : jstr, elem r)] options)) VUndef []))) = []
    <-> receipt_accepted options (elem r) = true) as ->; [|tauto].
  unfold receipt_accepted. pose proof (verifyReceipt_ok_errors
    (VObj (spread [("receipt" : jstr, elem r)] options)) VUndef []) as Hv.
  destruct (rr_ok _); [done|]. split; [|done]. intros Hm%map_eq_nil. by apply Hv.
Qed.

(** The options that change what [verifyReceiptChain] expects, other than keys. *)
Definition CHAIN_OPTIONS : list jstr :=
  ["startSequence" : jstr; "expectedStartSequence" : jstr; "previous_receipt_hash" : jstr;
   "previousReceiptHash" : jstr; "expectedReceiptLogRoot" : jstr; "receiptLogRoot" : jstr;
   "receipt_log_root" : jstr; "verifyEmbeddedReceiptLogRoot" : jstr;
   "expectedActiveSetRoot" : jstr; "activeSetRoot" : jstr; "active_set_root" : jstr;
   "expectedReceiptHashes" : jstr].

Definition plain_chain_options (options : obj) : bool :=
  negb (fhas options "receipt") && forallb (λ k, negb (fhas options k)) CHAIN_OPTIONS.

Lemma receipt_accepted_eq options r :
  fhas options "receipt" = false ->
  receipt_accepted options r =
  if is_record r then bool_decide (receipt_errors r (spread [("receipt" : jstr, r)] options) = [])
  else false.
Proof.
  intros Hr. unfold receipt_accepted, verifyReceipt, normalizeVerifyReceiptArgs.
  cbn [is_record own_fields andb]. replace (fhas _ "receipt") with true.
  - unfold vget. cbn [own_fields]. rewrite fget_spread, fhas_false_flast by done.
    change (default (fget [("receipt" : jstr, r)] "receipt") None) with r. by destruct (is_record r).
  - symmetry. apply fhas_elem, elem_of_keys_spread. left. apply list_elem_of_here.
Qed.

Lemma chain_valid_records options i prev receipts :
  fhas options "receipt" = false -> chain_valid options i prev receipts ->
  Forall (λ r, is_record r = true) receipts.
Proof.
  intros Hr. revert i prev. induction receipts as [|r receipts IH]; intros i prev; [done|].
  intros (Ha & _ & _ & Hc). constructor; [|by eapply IH].
  rewrite receipt_accepted_eq in Ha by done. by destruct (is_record r).
Qed.

Lemma plain_option options k :
  plain_chain_options options = true -> k ∈ CHAIN_OPTIONS -> fget options k = VUndef.
Proof.
  intros [_ H]%andb_true_iff Hk%list_elem_of_In. rewrite forallb_forall in H.
  by apply fhas_false_fget, negb_true_iff, H.
Qed.

Ltac plain_options Hp :=
  rewrite ?(plain_option _ _ Hp) by (apply mem_str_true; vm_compute; reflexivity).

Lemma last_active receipts :
  Forall (λ r, is_record r = true) (map elem receipts) ->
  is_ok (match last receipts with
         | Some r => getx (elem r) "active_set_root"
         | None => Ok (VStr EMPTY_MERKLE_ROOT)
         end) = true.
Proof.
  intros H. destruct (last receipts) as [r|] eqn:E; [|done]. apply last_Some_elem_of in E.
  rewrite Forall_forall in H. assert (is_record (elem r) = true) as Hr.
  { apply H. apply list_elem_of_fmap. eauto. }
  by destruct (elem r).
Qed.

Lemma root_differs_undef field actual : root_differs VUndef field actual = Ok false.
Proof. done. Qed.

(** The run of [verifyReceiptChain] with keys only. *)
Lemma verifyReceiptChain_plain receipts options :
  plain_chain_options options = true -> (Z.of_nat (length receipts) < 2 ^ 53)%Z ->
  exists errors,
    (errors = [] <-> chain_valid options 0 GENESIS (map elem receipts)) /\
    verifyReceiptChain (VArr receipts) options =
    let! active := (match last receipts with
                    | Some r => getx (elem r) "active_set_root"
                    | None => Ok (VStr EMPTY_MERKLE_ROOT)
                    end) in
    let hashes := map (λ r, safeReceiptHash (elem r)) receipts in
    Ok {| cr_ok := bool_decide (errors = []); cr_errors := errors;
          cr_receipt_log_root := Some (ms_root (list_set hashes));
          cr_active_set_root := active; cr_receipt_hashes := hashes |}.
Proof.
  intros Hp Hlen. destruct (chain_loop_spec options 0 GENESIS 0 receipts) as (errors & Hl & He);
    [done|]. exists errors. split; [done|].
  unfold verifyReceiptChain. cbn [is_array]. plain_options Hp. cbn zeta.
  change (VUndef ?? VUndef ?? vint 0) with (vnat 0).
  replace (VUndef ?? VUndef ?? (if vnat 0 === vint 0 then VStr GENESIS else VUndef))
    with (VStr GENESIS) by reflexivity.
  rewrite Hl. cbn [res_bind fst snd].
  change (VUndef ?? VUndef ?? VUndef) with VUndef. rewrite !root_differs_undef.
  change (VUndef === VBool true) with false. cbn [res_bind err_if].
  destruct (match last receipts with Some _ => _ | None => _ end); [|done].
  cbn [res_bind]. plain_options Hp. change (VUndef ?? VUndef ?? VUndef) with VUndef.
  rewrite root_differs_undef. cbn [res_bind is_undef err_if expected_hash_errors app]. plain_options Hp.
  cbn [expected_hash_errors]. by rewrite !app_nil_r.
Qed.

Lemma chain_accepted receipts options result :
  plain_chain_options options = true -> (Z.of_nat (length receipts) < 2 ^ 53)%Z ->
  verifyReceiptChain (VArr receipts) options = Ok result -> cr_ok result = true ->
  chain_valid options 0 GENESIS (map elem receipts).
Proof.
  intros Hp Hlen E Hok. destruct (verifyReceiptChain_plain receipts options Hp Hlen)
    as (errors & <- & E'). rewrite E' in E. cbn zeta in E. inv_res. simpl in Hok.
  by apply bool_decide_eq_true in Hok.
Qed.

(** C16 [verifyReceiptChain] accepts a list of receipts exactly when it is a chain:
    every receipt verifies, the sequence numbers are 0, 1, 2, ... and every receipt
    carries the hash of the one before it, the first one [GENESIS]. *)
Theorem verifyReceiptChain_accepts_iff receipts options :
  plain_chain_options options = true -> (Z.of_nat (length receipts) < 2 ^ 53)%Z ->
  (exists result, verifyReceiptChain (VArr receipts) options = Ok result /\ cr_ok result = true)
  <-> chain_valid options 0 GENESIS (map elem receipts).
Proof.
  intros Hp Hlen. split; [intros (result & E & Hok); by eapply chain_accepted|].
  intros Hc. destruct (verifyReceiptChain_plain receipts options Hp Hlen) as (errors & He & ->).
  assert (errors = []) as Hn by by apply He.
  apply chain_valid_records in Hc; [|by apply andb_true_iff in Hp as [Hr%negb_true_iff _]].
  apply last_active in Hc. destruct (match last receipts with Some _ => _ | None => _ end); [|done].
  eexists. split; [reflexivity|]. simpl. by apply bool_decide_eq_true.
Qed.

Lemma chain_valid_lookup options i prev receipts k r :
  chain_valid options i prev receipts -> receipts !! k = Some r ->
  (vget r "sequence" === vnat (i + k)) = true.
Proof.
  revert i prev k. induction receipts as [|r' receipts IH]; intros i prev k Hc Hk; [done|].
  destruct Hc as (_ & Hs & _ & Hc). destruct k as [|k]; simpl in Hk.
  - injection Hk as <-. by rewrite Nat.add_0_r.
  - rewrite Nat.add_succ_r, <- Nat.add_succ_l. by eapply IH.
Qed.

Lemma seq_vnat_inj v a b :
  (v === vnat a) = true -> (v === vnat b) = true -> a = b.
Proof.
  destruct v as [| | |n| | | | | | | | |]; try done. intros Ha Hb.
  assert (forall k, (VNum n === vnat k) = true -> n = NInt (Z.of_nat k) \/ (n = NNegZero /\ k = 0))
    as Hn.
  { intros k Hk. destruct n as [z| |m e| |]; try done.
    - left. change ((vint z === vint (Z.of_nat k)) = true) in Hk. rewrite vint_seq in Hk.
      by apply Z.eqb_eq in Hk as ->.
    - right. by destruct k. }
  apply Hn in Ha as [->|[-> ->]], Hb as [E|[E ->]]; simplify_eq; lia.
Qed.

Lemma chain_valid_perm options i prev receipts1 receipts2 :
  chain_valid options i prev receipts1 -> chain_valid options i prev receipts2 ->
  receipts1 ≡ₚ receipts2 -> receipts1 = receipts2.
Proof.
  intros H1 H2 Hp. apply list_eq_same_length with (length receipts1);
    [by symmetry; apply Permutation_length|done|].
  intros k r1 r2 Hk Hr1 Hr2. apply list_elem_of_lookup_2 in Hr1 as Hin. rewrite Hp in Hin.
  apply list_elem_of_lookup in Hin as [k' Hk'].
  pose proof (chain_valid_lookup _ _ _ _ _ _ H1 Hr1) as S1.
  pose proof (chain_valid_lookup _ _ _ _ _ _ H2 Hk') as S2.
  assert (k' = k) as -> by (pose proof (seq_vnat_inj _ _ _ S1 S2); lia). congruence.
Qed.

(** Reordering is detected: of all the orders of a list of receipts,
    [verifyReceiptChain] accepts at most one. *)
Theorem verifyReceiptChain_rejects_reorder receipts1 receipts2 options result1 result2 :
  plain_chain_options options = true -> (Z.of_nat (length receipts1) < 2 ^ 53)%Z ->
  receipts1 ≡ₚ receipts2 ->
  verifyReceiptChain (VArr receipts1) options = Ok result1 -> cr_ok result1 = true ->
  verifyReceiptChain (VArr receipts2) options = Ok result2 -> cr_ok result2 = true ->
  map elem receipts1 = map elem receipts2.
Proof.
  intros Hp Hlen Hperm E1 Hok1 E2 Hok2.
  assert (Z.of_nat (length receipts2) < 2 ^ 53)%Z as Hlen2 by by rewrite <- Hperm.
  apply (chain_valid_perm options 0 GENESIS).
  - eapply chain_accepted; eauto.
  - eapply chain_accepted; eauto.
  - by rewrite Hperm.
Qed.

(** ** The head of a chain binds its history *)
Definition canonical_text (r : jsval) : jstr :=
  match canonicalize r with Ok t => t | Throw _ => [] end.

(** A receipt as it is stored: JSON data whose numbers are integers. *)
Definition stored_receipt (r : jsval) : Prop :=
  json_data r = true /\ ints_only r = true.

(** The hash the next receipt has to name. *)
Definition chain_head (prev : jstr) (receipts : list jsval) : jstr :=
  foldl (λ _ r, safeReceiptHash r) prev receipts.

Lemma stored_hash r :
  stored_receipt r ->
  canonicalize r = Ok (canonical_text r) /\
  safeReceiptHash r = SHA256_PREFIX +s+ sha256_text (canonical_text r).
Proof.
  intros [Hj _]. rewrite <- canonicalize_is_ok in Hj.
  unfold safeReceiptHash, receiptHash, canonical_text. by destruct (canonicalize r).
Qed.

Lemma map_elem_stored receipts : Forall stored_receipt receipts -> map elem receipts = receipts.
Proof.
  induction 1 as [|r receipts [Hj _] _ IH]; [done|]. simpl. rewrite IH. by destruct r.
Qed.

Lemma chain_valid_snoc options i prev receipts r :
  chain_valid options i prev (receipts ++ [r]) ->
  chain_valid options i prev receipts /\ receipt_accepted options r = true /\
  vget r "previous_receipt_hash" = VStr (chain_head prev receipts).
Proof.
  revert i prev. induction receipts as [|r0 receipts IH]; intros i prev; simpl; [naive_solver|].
  intros (? & ? & ? & Hc%IH). naive_solver.
Qed.

Lemma norm_previous r1 r2 p1 p2 :
  is_record r1 = true -> is_record r2 = true -> stored_receipt r1 -> stored_receipt r2 ->
  norm r1 = norm r2 ->
  vget r1 "previous_receipt_hash" = VStr p1 -> vget r2 "previous_receipt_hash" = VStr p2 -> p1 = p2.
Proof.
  intros H1 H2 [J1 _] [J2 _] E E1 E2.
  destruct r1 as [| | | | | | |fs1| | | | |], r2 as [| | | | | | |fs2| | | | |]; try done.
  apply (f_equal (λ v, vget v "previous_receipt_hash")) in E. rewrite !vget_norm in E.
  unfold vget in E1, E2. cbn [own_fields] in E1, E2. rewrite E1, E2 in E. by apply VStr_inj.
Qed.

Lemma chain_head_binding options i receipts1 receipts2 :
  fhas options "receipt" = false ->
  chain_valid options i GENESIS receipts1 -> chain_valid options i GENESIS receipts2 ->
  Forall stored_receipt receipts1 -> Forall stored_receipt receipts2 ->
  chain_head GENESIS receipts1 = chain_head GENESIS receipts2 ->
  map norm receipts1 = map norm receipts2 \/
  collision (map canonical_text receipts1) (map canonical_text receipts2).
Proof.
  intros Hr. revert receipts2.
  assert (forall receipts r, Forall stored_receipt (receipts ++ [r]) ->
            GENESIS <> chain_head GENESIS (receipts ++ [r])) as Hgen.
  { intros receipts r [_ [Hs _]%Forall_cons]%Forall_app E. unfold chain_head in E.
    rewrite foldl_snoc in E. destruct (stored_hash r Hs) as [_ Hh]. rewrite Hh in E.
    symmetry in E. revert E. apply root_ne_genesis, root_of_sha. }
  induction receipts1 as [|r1 receipts1 IH] using rev_ind; intros receipts2 H1 H2 S1 S2 E.
  - destruct receipts2 as [|r2 receipts2 _] using rev_ind; [by left|].
    by destruct (Hgen _ _ S2).
  - destruct receipts2 as [|r2 receipts2 _] using rev_ind; [by destruct (Hgen _ _ S1)|].
    apply chain_valid_snoc in H1 as (H1 & A1 & P1), H2 as (H2 & A2 & P2).
    rewrite receipt_accepted_eq in A1, A2 by done.
    apply Forall_app in S1 as [S1 [R1 _]%Forall_cons], S2 as [S2 [R2 _]%Forall_cons].
    destruct (stored_hash r1 R1) as [C1 E1], (stored_hash r2 R2) as [C2 E2].
    unfold chain_head in E. rewrite !foldl_snoc, E1, E2 in E. apply app_inv_head in E.
    rewrite !map_app.
    destruct (decide (canonical_text r1 = canonical_text r2)) as [Et|Hne].
    + assert (norm r1 = norm r2) as En
        by (eapply canonicalize_ok_inj; [apply R1|apply R2|done|done|done]).
      assert (chain_head GENESIS receipts1 = chain_head GENESIS receipts2) as Eh.
      { eapply (norm_previous r1 r2); try done; [by destruct (is_record r1)|by destruct (is_record r2)]. }
      destruct (IH receipts2 H1 H2 S1 S2 Eh) as [Hm|Hc].
      * left. by rewrite Hm; simpl; rewrite En.
      * right. eapply collision_weaken; [exact Hc|set_solver..].
    + right. exists (canonical_text r1), (canonical_text r2).
      split_and!; try done; set_solver.
Qed.

(** C12 The hash of the last receipt binds the whole history: two accepted chains
    of stored receipts whose heads have one hash are the same receipts, up to the
    order of properties, or their canonical texts contain a SHA-256 collision.
    In particular an accepted chain cannot be truncated, extended or rewritten
    under the same head. *)
Theorem chain_head_binds_history receipts1 receipts2 options result1 result2 :
  plain_chain_options options = true ->
  (Z.of_nat (length receipts1) < 2 ^ 53)%Z -> (Z.of_nat (length receipts2) < 2 ^ 53)%Z ->
  Forall stored_receipt receipts1 -> Forall stored_receipt receipts2 ->
  verifyReceiptChain (VArr receipts1) options = Ok result1 -> cr_ok result1 = true ->
  verifyReceiptChain (VArr receipts2) options = Ok result2 -> cr_ok result2 = true ->
  chain_head GENESIS receipts1 = chain_head GENESIS receipts2 ->
  map norm receipts1 = map norm receipts2 \/
  collision (map canonical_text receipts1) (map canonical_text receipts2).
Proof.
  intros Hp L1 L2 S1 S2 E1 O1 E2 O2. apply (chain_head_binding options 0).
  - by apply andb_true_iff in Hp as [Hr%negb_true_iff _].
  - rewrite <- (map_elem_stored receipts1 S1). by eapply chain_accepted.
  - rewrite <- (map_elem_stored receipts2 S2). by eapply chain_accepted.
  - done.
  - done.
Qed.
End chains.

(** ** A created checkpoint verifies *)
Section checkpoint_created.
Context {C : Crypto} {L : CryptoLaws C}.

Definition CHECKPOINT_FIELDS : list jstr :=
  ["schema" : jstr; "checkpoint_id" : jstr; "tenant_hash" : jstr; "owner_scope_hash" : jstr;
   "epoch" : jstr; "active_memory_root" : jstr; "deleted_memory_root" : jstr;
   "receipt_log_root" : jstr; "key_registry_root" : jstr; "policy_registry_root" : jstr;
   "previous_checkpoint_hash" : jstr; "witness_policy" : jstr; "issued_at" : jstr;
   "signatures" : jstr].

Lemma orderc_ext a b :
  (forall k, k ∈ CHECKPOINT_FIELDS -> fget a k = fget b k) ->
  orderCheckpointFields a = orderCheckpointFields b.
Proof.
  intros H. unfold orderCheckpointFields. cbn zeta.
  rewrite !(H _) by (apply mem_str_true; vm_compute; reflexivity). done.
Qed.

Lemma fget_orderc a k :
  k ∈ CHECKPOINT_FIELDS -> fget a "witness_policy" <> VHole -> fget a "signatures" <> VHole ->
  fget (orderCheckpointFields a) k = fget a k.
Proof.
  intros Hk Hw Hs. unfold orderCheckpointFields. cbn zeta.
  destruct (is_undef (fget a "witness_policy")) eqn:Ew, (is_undef (fget a "signatures")) eqn:Es;
    cbn [app];
    repeat (apply elem_of_cons in Hk as [->|Hk];
      [first [reflexivity | transitivity VUndef; [reflexivity|];
         by match goal with |- VUndef = ?x => destruct x end]|]);
    by apply elem_of_nil in Hk.
Qed.

(** What [createCheckpoint] puts into the body. *)
Record checkpoint_body_ok (body : obj) : Prop := {
  cb_schema : fget body "schema" = VStr CHECKPOINT_SCHEMA;
  cb_roots : Forall (λ k, is_root (fget body k)) CHECKPOINT_ROOT_FIELDS;
  cb_previous : exists s, fget body "previous_checkpoint_hash" = VStr s /\
                          (s = GENESIS \/ re_full ROOT_RE s = true);
  cb_epoch : is_nonneg_integer (fget body "epoch") = true;
  cb_witness : fget body "witness_policy" <> VHole;
  cb_no_signatures : fget body "signatures" = VUndef
}.

Lemma rootFromHashable_root root fallback s :
  rootFromHashable root fallback = Ok s -> re_full ROOT_RE s = true.
Proof.
  unfold rootFromHashable. destruct (is_undef root); intros H; inv_res.
  - by eapply prefixedSha256_root.
  - by eapply normalizeSha256Root_root.
Qed.

Lemma checkpoint_body_witness body w :
  checkpoint_body_ok body -> w <> VHole -> checkpoint_body_ok (fset body "witness_policy" w).
Proof.
  intros [B1 B2 B3 B4 B5 B6] Hw.
  split; rewrite ?fget_fset; simp_str; try done.
  rewrite Forall_forall in B2 |- *. intros k Hk. rewrite fget_fset.
  destruct (("witness_policy" : jstr) =s= k) eqn:E; [|by apply B2].
  apply str_eqb_eq in E as <-. by apply mem_str_true in Hk.
Qed.

Lemma checkpoint_body_spec now options body :
  checkpoint_body now options = Ok body -> checkpoint_body_ok body.
Proof.
  unfold checkpoint_body. intros H. cbn zeta in H. inv_res.
  repeat match goal with
    | E : requiredInteger _ _ = Ok _ |- _ => apply requiredInteger_ok in E as [-> ?]
    | E : normalizeSha256Root _ _ = Ok _ |- _ => apply normalizeSha256Root_root in E
    | E : rootFromHashable _ _ = Ok _ |- _ => apply rootFromHashable_root in E
    | E : normalizePreviousHash _ = Ok _ |- _ => apply normalizePreviousHash_ok in E
    end.
  match goal with |- checkpoint_body_ok (if _ then fset ?b _ _ else _) =>
    assert (checkpoint_body_ok b) as Hb end.
  { split; try reflexivity; try done.
    - repeat constructor; (eexists; split; [reflexivity|assumption]).
    - eexists; split; [reflexivity|assumption]. }
  destruct (truthy (fget options "witness_policy" ?? fget options "witnessPolicy")) eqn:Et; [|done].
  apply checkpoint_body_witness; [done|]. intros Ew. by rewrite Ew in Et.
Qed.

Definition checkpoint_of (body : obj) (id signatures : jsval) : obj :=
  orderCheckpointFields
    (fset (orderCheckpointFields (fset body "checkpoint_id" id)) "signatures" signatures).

Lemma fget_checkpoint_of body id signatures k :
  checkpoint_body_ok body -> signatures <> VHole -> k ∈ CHECKPOINT_FIELDS ->
  fget (checkpoint_of body id signatures) k =
  if ("signatures" : jstr) =s= k then signatures
  else if ("checkpoint_id" : jstr) =s= k then id else fget body k.
Proof.
  intros Hb Hs Hk. unfold checkpoint_of.
  assert (fget (fset body "checkpoint_id" id) "witness_policy" <> VHole) as H1.
  { rewrite fget_fset. simp_str. apply Hb. }
  assert (fget (fset body "checkpoint_id" id) "signatures" <> VHole) as H2.
  { rewrite fget_fset. simp_str. by rewrite (cb_no_signatures _ Hb). }
  rewrite fget_orderc; [|done|rewrite fget_fset; simp_str..].
  - rewrite fget_fset, fget_orderc, fget_fset by done. done.
  - rewrite fget_orderc; [done|apply mem_str_true; by vm_compute|done..].
  - done.
Qed.

Lemma unsigned_checkpoint_of body id signatures :
  checkpoint_body_ok body -> signatures <> VHole ->
  unsignedCheckpoint (VObj (checkpoint_of body id signatures)) =
  VObj (orderCheckpointFields (fset body "checkpoint_id" id)).
Proof.
  intros Hb Hs. unfold unsignedCheckpoint. cbn [own_fields]. f_equal. apply orderc_ext.
  intros k Hk. rewrite fget_fdelete, fget_checkpoint_of, fget_fset by done.
  destruct (("signatures" : jstr) =s= k) eqn:E; [|done].
  apply str_eqb_eq in E as <-. simp_str. by rewrite (cb_no_signatures _ Hb).
Qed.

Lemma orderc_signatures a signatures :
  fget a "signatures" = VUndef -> is_undef signatures = false ->
  orderCheckpointFields (fset a "signatures" signatures) =
  orderCheckpointFields a ++ [("signatures" : jstr, signatures)].
Proof.
  intros Ha Hs. unfold orderCheckpointFields. cbn zeta. rewrite !fget_fset. simp_str.
  rewrite Ha, Hs. cbn [is_undef]. by rewrite app_nil_r, <- !app_assoc.
Qed.

Lemma checkpoint_of_app body id signatures :
  checkpoint_body_ok body -> is_undef signatures = false ->
  checkpoint_of body id signatures =
  orderCheckpointFields (fset body "checkpoint_id" id) ++ [("signatures" : jstr, signatures)].
Proof.
  intros Hb Hs. pose proof (fget_checkpoint_of body id VUndef) as Hget.
  assert (forall k, k ∈ CHECKPOINT_FIELDS ->
    fget (orderCheckpointFields (fset body "checkpoint_id" id)) k = fget (fset body "checkpoint_id" id) k)
    as Hid.
  { intros k Hk. apply fget_orderc; [done|rewrite fget_fset; simp_str; apply Hb|].
    rewrite fget_fset. simp_str. by rewrite (cb_no_signatures _ Hb). }
  unfold checkpoint_of. rewrite orderc_signatures; [|..|done].
  - f_equal. by apply orderc_ext.
  - rewrite Hid by (apply mem_str_true; by vm_compute). rewrite fget_fset. simp_str. apply Hb.
Qed.

Lemma json_data_signed body id signatures :
  checkpoint_body_ok body -> json_data signatures = true ->
  json_data (VObj (orderCheckpointFields (fset body "checkpoint_id" id))) = true ->
  json_data (VObj (checkpoint_of body id signatures)) = true.
Proof.
  intros Hb Hs H. rewrite checkpoint_of_app; [|done|by destruct signatures].
  cbn [json_data] in *. rewrite forallb_app, H. simpl. by rewrite Hs.
Qed.

Lemma signed_json payload sk sig :
  is_string payload = false -> signPayloadArgs payload sk = Ok sig -> json_data payload = true.
Proof.
  rewrite signPayloadArgs_eq, <- canonicalize_is_ok. intros Hp H. inv_res.
  destruct payload; try done; cbn [bytesForSigning] in *; by rewrite H0.
Qed.

Lemma root_field k :
  k ∈ CHECKPOINT_ROOT_FIELDS ->
  k ∈ CHECKPOINT_FIELDS /\ (("signatures" : jstr) =s= k) = false /\
  (("checkpoint_id" : jstr) =s= k) = false.
Proof.
  intros Hk%list_elem_of_In.
  assert (forallb (λ k, mem_str k CHECKPOINT_FIELDS && negb (("signatures" : jstr) =s= k)
                        && negb (("checkpoint_id" : jstr) =s= k)) CHECKPOINT_ROOT_FIELDS = true)
    as H by (vm_compute; reflexivity).
  rewrite forallb_forall in H. apply H in Hk.
  by apply andb_true_iff in Hk as [[?%mem_str_true ?%negb_true_iff]%andb_true_iff ?%negb_true_iff].
Qed.

Lemma checkpoint_shape_ok body id signatures :
  checkpoint_body_ok body -> is_undef signatures = false ->
  let checkpoint := VObj (checkpoint_of body id signatures) in
  vget checkpoint "schema" = VStr CHECKPOINT_SCHEMA /\
  (forall k, k ∈ CHECKPOINT_ROOT_FIELDS -> isSha256Root (vget checkpoint k) = true) /\
  isPreviousHash (vget checkpoint "previous_checkpoint_hash") = true /\
  is_nonneg_integer (vget checkpoint "epoch") = true /\
  vget checkpoint "signatures" = signatures.
Proof.
  intros Hb Hd checkpoint. subst checkpoint.
  assert (signatures <> VHole) as Hs by by destruct signatures.
  assert (forall k, k ∈ CHECKPOINT_FIELDS -> _) as Hget
    by (intros k; apply (fget_checkpoint_of body id signatures k Hb Hs)).
  unfold vget. cbn [own_fields]. split_and!.
  - rewrite Hget by (apply mem_str_true; by vm_compute). simp_str. apply Hb.
  - intros k Hk. destruct (root_field k Hk) as (Hf & E1 & E2). rewrite Hget, E1, E2 by done.
    apply is_root_sha. pose proof (cb_roots _ Hb) as Hr. by eapply Forall_forall in Hr.
  - rewrite Hget by (apply mem_str_true; by vm_compute). simp_str.
    destruct (cb_previous _ Hb) as (p & -> & Hp). by apply isPreviousHash_ok.
  - rewrite Hget by (apply mem_str_true; by vm_compute). simp_str. apply Hb.
  - rewrite Hget by (apply mem_str_true; by vm_compute). by simp_str.
Qed.

Lemma createCheckpoint_inv now checkpointOrArgs maybeOptions checkpoint :
  let options := spread (if is_record checkpointOrArgs then own_fields checkpointOrArgs else [])
                   maybeOptions in
  createCheckpoint now checkpointOrArgs maybeOptions = Ok checkpoint ->
  is_nullish (fget options "signatures") = true ->
  exists body id key_id sig,
    checkpoint_body_ok body /\ key_id <> [] /\
    signPayloadArgs (VObj (orderCheckpointFields (fset body "checkpoint_id" id)))
      (fget options "privateKey") = Ok sig /\
    checkpoint = VObj (checkpoint_of body id
      (VArr [VObj [("alg" : jstr, VStr ED25519); ("key_id" : jstr, VStr key_id);
                   ("value" : jstr, VStr sig)]])).
Proof.
  cbn zeta. unfold createCheckpoint. cbn zeta. intros H Hn. inv_res.
  rewrite coalesce_res_nullish in * by done. inv_res.
  match goal with E : normalizeSigner _ _ _ = Ok _ |- _ =>
    apply normalizeSigner_ok in E as (key_id & alg & Hk & ->) end.
  match goal with E : checkpoint_body _ _ = Ok _ |- _ => apply checkpoint_body_spec in E end.
  eexists _, _, key_id, _. split_and!; [done|done|done|reflexivity].
Qed.

Lemma checkpoint_signature_ok options unsigned sk pk sig key_id :
  key_pair sk pk -> is_undef pk = false -> fget options "publicKey" = pk -> key_id <> [] ->
  signPayloadArgs unsigned sk = Ok sig ->
  checkpoint_signature_error options unsigned
    (VObj [("alg" : jstr, VStr ED25519); ("key_id" : jstr, VStr key_id);
           ("value" : jstr, VStr sig)]) = Ok [].
Proof.
  intros Hkp Hpk Ho Hk Hsig. unfold checkpoint_signature_error, resolvePublicKey.
  set (signature := VObj _). change (getx signature "key_id") with (Ok (VStr key_id)).
  cbn [res_bind]. rewrite Ho, Hpk. cbn [negb]. rewrite Hpk. f_equal.
  assert (sig <> []) as Hne by by eapply signPayloadArgs_nonempty.
  rewrite (verify_signed unsigned sk pk sig signature Hkp Hpk Hsig eq_refl eq_refl).
  apply str_eqb_neq in Hk, Hne.
  replace (truthy (VStr key_id)) with true by (cbn; by rewrite Hk).
  replace (truthy (vget signature "value")) with true; [reflexivity|].
  transitivity (truthy (VStr sig)); [cbn; by rewrite Hne|reflexivity].
Qed.

Lemma checkpoint_not_args body id signatures :
  fhas (checkpoint_of body id signatures) "checkpoint" = false.
Proof.
  unfold checkpoint_of. generalize (fset (orderCheckpointFields (fset body "checkpoint_id" id))
    "signatures" signatures). intros a. unfold orderCheckpointFields. cbn zeta.
  by destruct (is_undef (fget a "witness_policy")), (is_undef (fget a "signatures")).
Qed.

(** A checkpoint that [createCheckpoint] signs itself is accepted by
    [verifyCheckpoint] under the matching public key. *)
Theorem createCheckpoint_verifies now checkpointOrArgs maybeOptions checkpoint pk :
  let options := spread (if is_record checkpointOrArgs then own_fields checkpointOrArgs else [])
                   maybeOptions in
  createCheckpoint now checkpointOrArgs maybeOptions = Ok checkpoint ->
  is_nullish (fget options "signatures") = true ->
  key_pair (fget options "privateKey") pk -> is_undef pk = false ->
  exists result,
    verifyCheckpoint checkpoint VUndef [("publicKey" : jstr, pk)] = Ok result /\
    kr_ok result = true /\ kr_errors result = [].
Proof.
  cbn zeta. intros H Hn Hkp Hpk.
  destruct (createCheckpoint_inv _ _ _ _ H Hn) as (body & id & key_id & sig & Hb & Hk & Hsig & ->).
  set (signature := VObj [("alg" : jstr, VStr ED25519); ("key_id" : jstr, VStr key_id);
                          ("value" : jstr, VStr sig)]) in *.
  destruct (checkpoint_shape_ok body id (VArr [signature]) Hb eq_refl) as (F1 & F2 & F3 & F4 & F5).
  assert (json_data (VObj (checkpoint_of body id (VArr [signature]))) = true) as Hj.
  { apply json_data_signed; [done|done|]. by eapply signed_json. }
  rewrite <- canonicalize_is_ok in Hj.
  unfold verifyCheckpoint. cbn [own_fields is_record andb]. rewrite checkpoint_not_args. cbn zeta iota.
  match goal with |- context [spread ?a ?b] => set (opts := spread a b) end.
  replace (fget opts "checkpoint") with (VObj (checkpoint_of body id (VArr [signature])))
    by reflexivity.
  cbn [negb is_record]. rewrite F1, F3, F4, F5, unsigned_checkpoint_of by done.
  rewrite (proj2 (flat_map_nil _ _)) by (intros k Hkf; by rewrite F2).
  change (iterate (VArr [signature] ?? VArr [])) with (Ok [signature]). cbn [res_bind map_res].
  subst signature.
  erewrite checkpoint_signature_ok by done. cbn [res_bind].
  replace (fget opts "expectedReceiptLogRoot" ?? fget opts "receiptLogRoot") with VUndef by reflexivity.
  replace (fget opts "expectedActiveMemoryRoot" ?? fget opts "activeMemoryRoot"
           ?? fget opts "activeSetRoot") with VUndef by reflexivity.
  rewrite !root_differs_undef. cbn [res_bind].
  destruct (canonicalize (VObj _)) as [t|]; [|done]. cbn [res_bind].
  eexists. split; [reflexivity|]. done.
Qed.
End checkpoint_created.

(** ** Concrete instances *)
Definition sample_args (sequence : Z) (previous : jstr) : obj :=
  [("privateKey" : jstr, vstr "key"); ("operation" : jstr, vstr "memory.remember");
   ("tenant_id" : jstr, vstr "tenant-1"); ("subject_id" : jstr, vstr "subject-1");
   ("sequence" : jstr, vint sequence); ("previous_receipt_hash" : jstr, VStr previous);
   ("memory_addr" : jstr, vstr "mem:1")].

Definition sample_create (sequence : Z) (previous : jstr) : res jsval :=
  createReceipt "2026-01-01T00:00:00.000Z" (VObj (sample_args sequence previous)) [].

Definition sample_receipt0 : jsval :=
  Eval vm_compute in match sample_create 0 GENESIS with Ok r => r | Throw _ => VUndef end.

Definition sample_receipt1 : jsval :=
  Eval vm_compute in match sample_create 1 (safeReceiptHash sample_receipt0) with
                     | Ok r => r | Throw _ => VUndef end.

(** The same receipt with its properties in another order. *)
Definition sample_receipt1' : jsval := VObj (reverse (own_fields sample_receipt1)).

Definition sample_key : obj := [("publicKey" : jstr, vstr "key")].

Lemma createReceipt_verifies_witness :
  rr_ok (verifyReceipt sample_receipt0 (vstr "key") []) = true /\
  rr_errors (verifyReceipt sample_receipt0 (vstr "key") []) = [] /\
  rr_receipt_hash (verifyReceipt sample_receipt0 (vstr "key") []) = Some (safeReceiptHash sample_receipt0).
Proof.
  apply (createReceipt_verifies "2026-01-01T00:00:00.000Z" (VObj (sample_args 0 GENESIS)) []).
  - vm_compute. reflexivity.
  - split_and!; vm_compute; reflexivity.
  - vm_compute. reflexivity.
  - reflexivity.
  - reflexivity.
Defined.

Lemma sample_chain_accepted r :
  r = sample_receipt1 \/ r = sample_receipt1' ->
  exists result, verifyReceiptChain (VArr [sample_receipt0; r]) sample_key = Ok result /\
                 cr_ok result = true.
Proof.
  intros [-> | ->]; eexists; (split; [vm_compute; reflexivity|]); reflexivity.
Qed.

Lemma verifyReceiptChain_accepts_iff_witness :
  chain_valid sample_key 0 GENESIS [sample_receipt0; sample_receipt1].
Proof.
  apply (proj1 (verifyReceiptChain_accepts_iff [sample_receipt0; sample_receipt1] sample_key
    eq_refl eq_refl)). apply sample_chain_accepted. by left.
Defined.

Lemma verifyReceiptChain_rejects_reorder_witness :
  map elem [sample_receipt0; sample_receipt1] = map elem [sample_receipt0; sample_receipt1].
Proof.
  destruct (sample_chain_accepted sample_receipt1 (or_introl eq_refl)) as (result & E & Hok).
  apply (verifyReceiptChain_rejects_reorder _ _ sample_key result result); try done.
Defined.

Lemma chain_head_binds_history_witness :
  map norm [sample_receipt0; sample_receipt1] = map norm [sample_receipt0; sample_receipt1'] \/
  collision (map canonical_text [sample_receipt0; sample_receipt1])
            (map canonical_text [sample_receipt0; sample_receipt1']).
Proof.
  destruct (sample_chain_accepted sample_receipt1 (or_introl eq_refl)) as (result1 & E1 & O1).
  destruct (sample_chain_accepted sample_receipt1' (or_intror eq_refl)) as (result2 & E2 & O2).
  apply (chain_head_binds_history _ _ sample_key result1 result2);
    first [exact E1 | exact E2 | exact O1 | exact O2 | repeat constructor | vm_compute; reflexivity].
Defined.

Definition sample_checkpoint : jsval :=
  Eval vm_compute in
  match createCheckpoint "2026-01-01T00:00:00.000Z" (VObj (sample_args 3 GENESIS)) [] with
  | Ok c => c | Throw _ => VUndef end.

Lemma createCheckpoint_verifies_witness :
  exists result,
    verifyCheckpoint sample_checkpoint VUndef [("publicKey" : jstr, vstr "key")] = Ok result /\
    kr_ok result = true /\ kr_errors result = [].
Proof.
  apply (createCheckpoint_verifies "2026-01-01T00:00:00.000Z" (VObj (sample_args 3 GENESIS)) []);
    vm_compute; reflexivity.
Defined.
