(* ===== verification/PublicSafe.v ===== *)
(** * The public-safe scan

    [scanPublicSafeFields] and its callers of [src/packages/core/src/index.js]: the
    walk that refuses secrets, local paths, forbidden claims, vectors and plaintext
    field names in an artifact before it is published.  The scan accepts a value
    exactly when no value at any depth and no field name is objectionable. *)

From S2P Require Import Prelude JsValue Regex Canonical Hashing Merkle Receipt.

(** ** The regular expressions *)
Definition alnum_dash : re := cset "A-Za-z0-9_-".

Definition SECRET_VALUE_RE : re :=
  re_ci (ralts [
    rseqs [rlit "-----BEGIN "; RStar (cset "A-Z "); rlit "PRIVATE KEY-----"];
    rseqs [rwords ["sk"%string; "pk"%string; "rk"%string]; rlit "_";
           rwords ["live"%string; "test"%string; "proj"%string]; rlit "_"; ratleast 12 alnum_dash];
    rseqs [rlit "gh"; cset "pousr"; rlit "_"; ratleast 20 (cset "A-Za-z0-9_")];
    rseqs [rlit "xox"; cset "baprs"; rlit "-"; ratleast 20 (cset "A-Za-z0-9-")];
    rseqs [rlit "bearer"; rplus rspace; ratleast 20 (cset "A-Za-z0-9._~+/=-")]]).

Definition backslash : jstr := [92%N].

Definition LOCAL_PATH_RE : re :=
  ralts [
    rseqs [cset "A-Za-z"; rlit ":"; RAlt (rlit backslash) (rlit "/")];
    rlit (backslash ++ backslash);
    rseqs [rlit "/"; rwords ["Users"%string; "home"%string; "tmp"%string; "var"%string; "etc"%string;
                             "private"%string; "Volumes"%string]; rlit "/"]].

Definition spaces : re := rplus rspace.

Definition tamper_proof : re :=
  rseqs [rlit "tamper"; ropt (RAlt (rlit "-") rspace); rlit "proof"].

Definition FORBIDDEN_PUBLIC_CLAIM_RE : re :=
  re_ci (ralts [
    rseqs [rlit "provider"; ropt (rlit "-native"); spaces;
           RAlt (rlit "deletion") (rseqs [rlit "memory"; spaces; rlit "control"])];
    rseqs [rlit "model"; spaces; rlit "forgetting"];
    rseqs [rlit "compliance"; spaces; rlit "certification"];
    rseqs [rlit "certif"; rwords ["y"%string; "ies"%string; "ied"%string]; spaces; rlit "compliance"];
    rseqs [rlit "benchmark"; spaces; rlit "superiority"];
    rseqs [rlit "hosted"; spaces; rwords ["saas"%string; "cloud"%string]; spaces; rlit "ready"];
    rseqs [rlit "byoc"; spaces; rlit "ready"];
    rseqs [rlit "patent"; rwords ["ability"%string; "able"%string]];
    rseqs [rlit "legal"; spaces; rlit "conclusion"];
    rseqs [rlit "raw"; spaces; rlit "embedding"; ropt (rlit "s"); spaces;
           ropt (rseqs [rlit "are"; spaces]); rlit "safe"];
    rseqs [rlit "hardware"; spaces; tamper_proof];
    rseqs [tamper_proof; spaces; rlit "hardware"]]).

Definition PUBLIC_FORBIDDEN_KEYS : list jstr :=
  ["api_key" : jstr; "authorization" : jstr; "body" : jstr; "content" : jstr; "cookie" : jstr;
   "credential" : jstr; "credentials" : jstr; "embedding" : jstr; "embeddings" : jstr;
   "file_path" : jstr; "local_path" : jstr; "password" : jstr; "plaintext" : jstr;
   "private_key" : jstr; "prompt" : jstr; "provider_response" : jstr; "raw" : jstr;
   "raw_memory" : jstr; "response" : jstr; "secret" : jstr; "text" : jstr; "token" : jstr;
   "transcript" : jstr; "vector" : jstr; "vectors" : jstr].

(** The suffixes of the literal in [isForbiddenPublicKey]. *)
Definition FORBIDDEN_KEY_SUFFIXES : re :=
  rwords ["plaintext"%string; "prompt"%string; "response"%string; "transcript"%string;
          "embedding"%string; "embeddings"%string; "vector"%string; "vectors"%string;
          "private_key"%string; "token"%string; "secret"%string; "password"%string;
          "api_key"%string; "credential"%string; "credentials"%string; "cookie"%string;
          "authorization"%string].

(** [key.replace(/([a-z0-9])([A-Z])/g, '$1_$2')]: the two classes are disjoint, so
    every boundary gets its underscore. *)
Definition is_lower_or_digit (c : N) : bool := cls_match false (class_ranges "a-z0-9") c.

Definition is_upper (c : N) : bool := cls_match false (class_ranges "A-Z") c.

Fixpoint snake_boundaries (s : jstr) : jstr :=
  match s with
  | [] => []
  | c :: s' =>
      match s' with
      | d :: _ => if is_lower_or_digit c && is_upper d then c :: 95%N :: snake_boundaries s'
                  else c :: snake_boundaries s'
      | [] => [c]
      end
  end.

(** [toLowerCase] as far as an ASCII comparison sees it: the only other characters
    with an ASCII letter in their lower case are U+212A and U+0130. *)
Definition lower_unit (c : N) : jstr :=
  if is_upper c then [(c + 32)%N]
  else if (c =? 8490)%N then ("k" : jstr)
  else if (c =? 304)%N then [105; 775]%N
  else [c].

Definition to_lower (s : jstr) : jstr := flat_map lower_unit s.

Definition isForbiddenPublicKey (key : jstr) : bool :=
  let normalized := to_lower (snake_boundaries key) in
  mem_str normalized PUBLIC_FORBIDDEN_KEYS
  || re_full FORBIDDEN_KEY_SUFFIXES normalized
  || re_suffix (mk_seq (rlit "_") FORBIDDEN_KEY_SUFFIXES) normalized.

Definition looksLikeEmbeddingVector (items : list jsval) : bool :=
  negb (length items <? 32)%nat && forallb is_finite_number items.

Definition PUBLIC_DATE_TIME_RE : re :=
  rseqs [rrep 4 rdigit; rlit "-"; rrep 2 rdigit; rlit "-"; rrep 2 rdigit; rlit "T"; rrep 2 rdigit;
         rlit ":"; rrep 2 rdigit; rlit ":"; rrep 2 rdigit; ropt (rseqs [rlit "."; rrep 3 rdigit]);
         rlit "Z"].

Definition SCHEMA_RE : re :=
  rseqs [cset "a-z"; RStar (cset "a-z0-9_"); RStar (rseqs [rlit "."; rplus (cset "a-z0-9_")]);
         rlit ".v"; rplus rdigit].

Definition PUBLIC_WORD_RE : re :=
  rwords ["ok"%string; "valid"%string; "invalid"%string; "active"%string; "quarantine"%string;
          "quarantined"%string; "tombstone"%string; "tombstoned"%string; "revoked"%string;
          "granted"%string; "omitted"%string; "selected"%string; "provided"%string;
          "missing"%string; "blocked"%string; "pass"%string; "fail"%string; "unknown"%string].

Definition URI_RE : re :=
  rseqs [cset "a-z"; RStar (cset "a-z0-9+.-"); rlit ":";
         rrange 1 256 (cset "A-Za-z0-9._~:@/+?#[]!$&'()*%,;=-")].

Definition isPublicSafeString (value : jstr) : bool :=
  (value =s= []) || re_full ROOT_RE value || re_full HASH_RE value || re_full NULLIFIER_RE value
  || re_full SCHEMA_RE value || re_full PUBLIC_DATE_TIME_RE value || re_full PUBLIC_WORD_RE value
  || re_full URI_RE value.

(** ** The scan

    An error is its path and its message; [errors] holds [path: message] and
    [forbidden_paths] the path. *)
Abbreviation scan_error := (jstr * jstr)%type.

Definition addPublicSafeError (path : jstr) (message : string) : scan_error := (path, message : jstr).

Definition strictStrings (options : obj) : bool := fget options "strictStrings" === VBool true.

Definition safe_err (b : bool) (path : jstr) (message : string) : list scan_error :=
  if b then [addPublicSafeError path message] else [].

Definition scanPublicSafeString (options : obj) (value path : jstr) : list scan_error :=
  safe_err (re_search SECRET_VALUE_RE value) path "secret-shaped string is not public-safe"
  ++ safe_err (re_prefix LOCAL_PATH_RE value) path "local absolute path is not public-safe"
  ++ safe_err (re_search_wb FORBIDDEN_PUBLIC_CLAIM_RE value) path "forbidden public claim is not allowed"
  ++ safe_err (strictStrings options && negb (isPublicSafeString value)) path
       "string is outside public artifact grammar".

Definition index_path (path : jstr) (index : nat) : jstr := path +s+ "[" +s+ nat_str index +s+ "]".

Definition key_path (path key : jstr) : jstr := path +s+ "." +s+ key.

Fixpoint scanPublicSafeValue (options : obj) (value : jsval) (path : jstr) : list scan_error :=
  match value with
  | VNull | VBool _ => []
  | VUndef | VHole => [addPublicSafeError path "undefined is not public-safe JSON"]
  | VStr s => scanPublicSafeString options s path
  | VNum n => safe_err (negb (num_is_finite n)) path "number must be finite"
  | VOpaque _ _ => [(path, typeof value +s+ " is not public-safe JSON")]
  | VArr items =>
      safe_err (looksLikeEmbeddingVector items) path "numeric vector-like arrays are not public-safe"
      ++ (fix go (index : nat) (items : list jsval) : list scan_error :=
            match items with
            | [] => []
            | item :: items' =>
                match item with
                | VHole => [addPublicSafeError (index_path path index) "sparse arrays are not public-safe"]
                | _ => scanPublicSafeValue options item (index_path path index)
                end ++ go (S index) items'
            end) 0%nat items
  | VObj fields | VInst _ fields =>
      (fix go (fields : list (jstr * jsval)) : list scan_error :=
         match fields with
         | [] => []
         | kv :: fields' =>
             safe_err (isForbiddenPublicKey kv.1) (key_path path kv.1) "field name is not public-safe"
             ++ scanPublicSafeValue options kv.2 (key_path path kv.1) ++ go fields'
         end) fields
  | VMap _ | VSet _ | VBytes _ _ => []
  end.

Record scan_result := {
  sr_ok : bool;
  sr_errors : list jstr;
  sr_forbidden_paths : list jstr
}.

Definition error_text (e : scan_error) : jstr := e.1 +s+ ": " +s+ e.2.

Definition scanPublicSafeFields (value : jsval) (options : obj) : scan_result :=
  let found := scanPublicSafeValue options value "$" in
  {| sr_ok := bool_decide (map error_text found = []); sr_errors := map error_text found;
     sr_forbidden_paths := map fst found |}.

Definition assertPublicSafeFields (value : jsval) (options : obj) : res jsval :=
  let result := scanPublicSafeFields value options in
  throw_if negb (sr_ok result)
    with TypeError ("public-safe scan failed: " +s+ join "; " (sr_errors result));
  Ok value.

Section artifacts.
Context {C : Crypto}.

Record artifact_result := {
  ar_ok : bool;
  ar_errors : list jstr;
  ar_forbidden_paths : list jstr;
  ar_public_hash : option jstr
}.

Definition publicSafeHash (value : jsval) (options : obj) : res jstr :=
  let! _ := assertPublicSafeFields value options in
  let! t := canonicalize value in prefixedSha256 (VStr t).

Definition verifyPublicSafeArtifact (value : jsval) (options : obj) : res artifact_result :=
  let result := scanPublicSafeFields value options in
  if sr_ok result then
    let! t := canonicalize value in
    let! public_hash := prefixedSha256 (VStr t) in
    Ok {| ar_ok := true; ar_errors := sr_errors result;
          ar_forbidden_paths := sr_forbidden_paths result; ar_public_hash := Some public_hash |}
  else Ok {| ar_ok := false; ar_errors := sr_errors result;
             ar_forbidden_paths := sr_forbidden_paths result; ar_public_hash := None |}.

Definition verifyPublicSafeHash (value maybeExpectedHash : jsval) (options : obj)
    : res artifact_result :=
  let expected := fget options "expected_hash" ?? fget options "expectedHash" ?? fget options "hash"
                  ?? fget options "public_hash" ?? fget options "publicHash" ?? maybeExpectedHash in
  let scan := scanPublicSafeFields value options in
  if negb (sr_ok scan) then
    Ok {| ar_ok := false; ar_errors := sr_errors scan;
          ar_forbidden_paths := sr_forbidden_paths scan; ar_public_hash := None |}
  else
    let! t := canonicalize value in
    let! publicHash := prefixedSha256 (VStr t) in
    let errors :=
      if is_undef expected then []
      else match normalizeSha256Root expected "expectedHash" with
           | Ok r => err_if (negb (r =s= publicHash)) "public hash mismatch"
           | Throw _ => ["expectedHash must be a sha256 root" : jstr]
           end in
    Ok {| ar_ok := bool_decide (errors = []); ar_errors := errors; ar_forbidden_paths := [];
          ar_public_hash := Some publicHash |}.
End artifacts.

(** ** What the scan accepts *)

(** [w] is [v] or stands anywhere inside it. *)
Inductive occurs (w : jsval) : jsval -> Prop :=
  | occurs_here : occurs w w
  | occurs_item items x : x ∈ items -> occurs w x -> occurs w (VArr items)
  | occurs_field fields kv : kv ∈ fields -> occurs w kv.2 -> occurs w (VObj fields)
  | occurs_inst t fields kv : kv ∈ fields -> occurs w kv.2 -> occurs w (VInst t fields).

(** What is wrong with a value by itself. *)
Definition objectionable (options : obj) (w : jsval) : bool :=
  match w with
  | VUndef | VHole | VOpaque _ _ => true
  | VStr s => re_search SECRET_VALUE_RE s || re_prefix LOCAL_PATH_RE s
              || re_search_wb FORBIDDEN_PUBLIC_CLAIM_RE s
              || (strictStrings options && negb (isPublicSafeString s))
  | VNum n => negb (num_is_finite n)
  | VArr items => looksLikeEmbeddingVector items
  | VObj fields | VInst _ fields => existsb (λ kv : jstr * jsval, isForbiddenPublicKey kv.1) fields
  | _ => false
  end.

Lemma safe_err_nil b path message : safe_err b path message = [] <-> b = false.
Proof. by destruct b. Qed.

Lemma occurs_arr_iff (P : jsval -> Prop) items :
  (forall w, occurs w (VArr items) -> P w) <->
  P (VArr items) /\ Forall (λ x, forall w, occurs w x -> P w) items.
Proof.
  rewrite Forall_forall. split.
  - intros H. split; [apply H; constructor|]. intros x Hx w Hw. apply H. by eapply occurs_item.
  - intros [H1 H2] w Hw. inversion Hw; subst; eauto.
Qed.

Lemma occurs_obj_iff (P : jsval -> Prop) fields :
  (forall w, occurs w (VObj fields) -> P w) <->
  P (VObj fields) /\ Forall (λ kv : jstr * jsval, forall w, occurs w kv.2 -> P w) fields.
Proof.
  rewrite Forall_forall. split.
  - intros H. split; [apply H; constructor|]. intros kv Hkv w Hw. apply H. by eapply occurs_field.
  - intros [H1 H2] w Hw. inversion Hw; subst; eauto.
Qed.

Lemma occurs_inst_iff (P : jsval -> Prop) t fields :
  (forall w, occurs w (VInst t fields) -> P w) <->
  P (VInst t fields) /\ Forall (λ kv : jstr * jsval, forall w, occurs w kv.2 -> P w) fields.
Proof.
  rewrite Forall_forall. split.
  - intros H. split; [apply H; constructor|]. intros kv Hkv w Hw. apply H. by eapply occurs_inst.
  - intros [H1 H2] w Hw. inversion Hw; subst; eauto.
Qed.

Lemma occurs_atom_iff (P : jsval -> Prop) v :
  is_array v = false -> (forall fs t, v <> VObj fs /\ v <> VInst t fs) ->
  (forall w, occurs w v -> P w) <-> P v.
Proof.
  intros Ha Ho. split; [intros H; apply H; constructor|].
  intros H w Hw. inversion Hw; subst; [done|done|..].
  - by destruct (proj1 (Ho fields [])).
  - by destruct (proj2 (Ho fields t)).
Qed.

(** The walk over the properties of an object. *)
Fixpoint scan_fields (options : obj) (path : jstr) (fields : list (jstr * jsval)) : list scan_error :=
  match fields with
  | [] => []
  | kv :: fields' =>
      safe_err (isForbiddenPublicKey kv.1) (key_path path kv.1) "field name is not public-safe"
      ++ scanPublicSafeValue options kv.2 (key_path path kv.1) ++ scan_fields options path fields'
  end.

Lemma scan_fields_nil options path fields :
  Forall (λ kv : jstr * jsval, forall path, scanPublicSafeValue options kv.2 path = [] <->
            (forall w, occurs w kv.2 -> objectionable options w = false)) fields ->
  scan_fields options path fields = [] <->
  existsb (λ kv : jstr * jsval, isForbiddenPublicKey kv.1) fields = false /\
  Forall (λ kv : jstr * jsval, forall w, occurs w kv.2 -> objectionable options w = false) fields.
Proof.
  induction 1 as [|kv fields Hkv _ IH]; [done|]. cbn [scan_fields existsb].
  rewrite !app_nil, IH, Hkv, safe_err_nil, orb_false_iff, Forall_cons. tauto.
Qed.

Lemma scan_obj options path fields :
  scanPublicSafeValue options (VObj fields) path = scan_fields options path fields.
Proof.
  cbn [scanPublicSafeValue]. induction fields as [|kv fields IH]; [done|].
  cbn [scan_fields]. by rewrite <- IH.
Qed.

Lemma scan_inst options path t fields :
  scanPublicSafeValue options (VInst t fields) path = scan_fields options path fields.
Proof.
  cbn [scanPublicSafeValue]. induction fields as [|kv fields IH]; [done|].
  cbn [scan_fields]. by rewrite <- IH.
Qed.

(** The walk over the elements of an array. *)
Fixpoint scan_items (options : obj) (path : jstr) (index : nat) (items : list jsval) : list scan_error :=
  match items with
  | [] => []
  | item :: items' =>
      match item with
      | VHole => [addPublicSafeError (index_path path index) "sparse arrays are not public-safe"]
      | _ => scanPublicSafeValue options item (index_path path index)
      end ++ scan_items options path (S index) items'
  end.

Lemma scan_arr options path items :
  scanPublicSafeValue options (VArr items) path =
  safe_err (looksLikeEmbeddingVector items) path "numeric vector-like arrays are not public-safe"
  ++ scan_items options path 0 items.
Proof.
  cbn [scanPublicSafeValue]. f_equal. generalize 0%nat.
  induction items as [|x items IH]; intros index; [done|]. cbn [scan_items]. by rewrite <- IH.
Qed.

Lemma scan_items_nil options path index items :
  Forall (λ x, forall path, scanPublicSafeValue options x path = [] <->
            (forall w, occurs w x -> objectionable options w = false)) items ->
  scan_items options path index items = [] <->
  Forall (λ x, forall w, occurs w x -> objectionable options w = false) items.
Proof.
  intros H. revert index. induction H as [|x items Hx _ IH]; intros index; [done|].
  cbn [scan_items]. rewrite app_nil, IH, Forall_cons, <- (Hx (index_path path index)).
  destruct x; try reflexivity. simpl. naive_solver.
Qed.

Lemma scan_value_nil options v path :
  scanPublicSafeValue options v path = [] <->
  (forall w, occurs w v -> objectionable options w = false).
Proof.
  revert path. induction v as [| |b|n|s| |l IH|fs IH|t fs IH|fs IH|l IH|t b|k t] using jsval_ind;
    intros path.
  all: try (rewrite occurs_atom_iff; [|done|naive_solver]).
  all: try done.
  - simpl. by rewrite safe_err_nil.
  - simpl. unfold scanPublicSafeString. rewrite !app_nil, !safe_err_nil, !orb_false_iff. tauto.
  - rewrite scan_arr, app_nil, safe_err_nil, scan_items_nil, occurs_arr_iff by done. done.
  - by rewrite scan_obj, scan_fields_nil, occurs_obj_iff.
  - by rewrite scan_inst, scan_fields_nil, occurs_inst_iff.
Qed.

Lemma scan_ok_iff options v :
  sr_ok (scanPublicSafeFields v options) = true <->
  (forall w, occurs w v -> objectionable options w = false).
Proof.
  rewrite <- (scan_value_nil options v "$"). unfold scanPublicSafeFields. simpl.
  rewrite bool_decide_eq_true. split; [apply map_eq_nil|by intros ->].
Qed.

(** C37 The public-safe scan accepts a value exactly when nothing at any depth of it
    is objectionable: no secret-shaped string, local path or forbidden claim, no
    forbidden field name, no long numeric vector, no hole, [undefined], function or
    non-finite number. *)
Theorem public_safe_scan_exact options v :
  sr_ok (scanPublicSafeFields v options) = true <->
  (forall w, occurs w v -> objectionable options w = false).
Proof. apply scan_ok_iff. Qed.

(** The value is made of plain objects, as [JSON.parse] gives. *)
Definition plain_data (v : jsval) : Prop :=
  forall w, occurs w v -> is_record w = true -> is_plain w = true.

Fixpoint plainb (v : jsval) : bool :=
  match v with
  | VArr items => forallb plainb items
  | VObj fields => forallb (λ kv : jstr * jsval, plainb kv.2) fields
  | VInst _ _ | VMap _ | VSet _ | VBytes _ _ => false
  | _ => true
  end.

Lemma plainb_data v : plainb v = true -> plain_data v.
Proof.
  unfold plain_data.
  induction v as [| |b|n|s| |l IH|fs IH|t fs IH|fs IH|l IH|t b|k t] using jsval_ind; intros H w Hw;
    inversion Hw; subst; try done; simpl in H; rewrite forallb_forall in H;
    rewrite Forall_forall in IH.
  - apply (IH x); [done|by apply H, list_elem_of_In|done].
  - apply (IH kv); [done|by apply H, list_elem_of_In|done].
Qed.

Lemma safe_plain_json options v :
  (forall w, occurs w v -> objectionable options w = false) -> plain_data v -> json_data v = true.
Proof.
  unfold plain_data.
  induction v as [| |b|n|s| |l IH|fs IH|t fs IH|fs IH|l IH|t b|k t] using jsval_ind; intros H Hp;
    try reflexivity; try discriminate (H _ (occurs_here _));
    try discriminate (Hp _ (occurs_here _) eq_refl).
  - specialize (H _ (occurs_here _)). by apply negb_false_iff in H.
  - apply occurs_arr_iff in H as [_ H]. apply occurs_arr_iff in Hp as [_ Hp].
    simpl. apply forallb_forall. intros x Hx%list_elem_of_In.
    rewrite Forall_forall in IH, H, Hp. apply (IH x Hx); [by apply H|by apply Hp].
  - apply occurs_obj_iff in H as [_ H]. apply occurs_obj_iff in Hp as [_ Hp].
    simpl. apply forallb_forall. intros x Hx%list_elem_of_In.
    rewrite Forall_forall in IH, H, Hp. apply (IH x Hx); [by apply H|by apply Hp].
Qed.

Section artifact_theorems.
Context {C : Crypto} {L : CryptoLaws C}.

(** On data from JSON [verifyPublicSafeArtifact] never throws: it reports the
    errors of the scan, and publishes the hash of the canonical text exactly when
    there is none. *)
Theorem verifyPublicSafeArtifact_total options v :
  plain_data v ->
  exists result, verifyPublicSafeArtifact v options = Ok result /\
    ar_errors result = sr_errors (scanPublicSafeFields v options) /\
    (ar_ok result = true <-> ar_errors result = []) /\
    match ar_public_hash result with
    | Some h => ar_ok result = true /\ receiptHash v = Ok h
    | None => ar_ok result = false
    end.
Proof.
  intros Hp. unfold verifyPublicSafeArtifact.
  destruct (sr_ok (scanPublicSafeFields v options)) eqn:E.
  - assert (Hs := E). rewrite scan_ok_iff in E. pose proof (safe_plain_json _ _ E Hp) as Hj.
    rewrite <- canonicalize_is_ok in Hj. unfold receiptHash.
    destruct (canonicalize v) as [t|] eqn:Ec; [|done]. simpl.
    eexists. split; [reflexivity|]. simpl in Hs |- *. apply bool_decide_eq_true in Hs.
    by rewrite Hs.
  - eexists. split; [reflexivity|]. simpl in E |- *. by apply bool_decide_eq_false in E.
Qed.
End artifact_theorems.

(** ** Concrete instances *)
Definition sample_artifact : jsval :=
  VObj [("schema" : jstr, vstr "enigma.receipt.v1"); ("count" : jstr, vint 3);
        ("refs" : jstr, VArr [vstr "ref:one"])].

Lemma verifyPublicSafeArtifact_total_witness :
  exists result, verifyPublicSafeArtifact sample_artifact [] = Ok result /\
    ar_errors result = sr_errors (scanPublicSafeFields sample_artifact []) /\
    (ar_ok result = true <-> ar_errors result = []) /\
    match ar_public_hash result with
    | Some h => ar_ok result = true /\ receiptHash sample_artifact = Ok h
    | None => ar_ok result = false
    end.
Proof.
  apply (verifyPublicSafeArtifact_total [] sample_artifact).
  by apply plainb_data.
Defined.
