(* ===== verification/LaunchLedger.v ===== *)
(** * The public launch evidence ledger

    [createPublicLaunchEvidenceLedger], [addPublicLaunchEvidenceEntry] and
    [summarizePublicLaunchEvidence] of [src/packages/core/src/index.js] with their
    normalisers: entries are validated field by field, the summary is derived from
    them and the advisor decision follows from the counts. *)

From S2P Require Import Prelude JsValue Regex Canonical Hashing Merkle Receipt PublicSafe.

Definition PUBLIC_LAUNCH_EVIDENCE_LEDGER_SCHEMA : jstr := "enigma.public_launch_evidence_ledger.v1".

Definition PUBLIC_LAUNCH_ID_RE : re :=
  rseqs [cset "A-Za-z0-9"; rrange 1 127 (cset "A-Za-z0-9._:-")].

Definition PUBLIC_LAUNCH_REF_RE : re :=
  rseqs [rlit "ref:"; cset "A-Za-z0-9"; rupto 255 (cset "A-Za-z0-9._~:@#?=&%+-")].

Definition PUBLIC_LAUNCH_DATE_TIME_RE : re := PUBLIC_DATE_TIME_RE.

Definition PUBLIC_LAUNCH_STATUSES : list jstr :=
  ["missing" : jstr; "pending" : jstr; "pass" : jstr; "fail" : jstr; "blocked" : jstr].

Definition PUBLIC_LAUNCH_ADVISOR_DECISIONS : list jstr :=
  ["ship" : jstr; "hold" : jstr; "rollback" : jstr; "not_reviewed" : jstr].

Definition PUBLIC_LAUNCH_LEDGER_FIELDS : list jstr :=
  ["schema" : jstr; "ledger_id" : jstr; "ledgerId" : jstr; "generated_at" : jstr;
   "generatedAt" : jstr; "phase_owners" : jstr; "phaseOwners" : jstr; "claim_boundary" : jstr;
   "claimBoundary" : jstr; "privacy_export_allowlist" : jstr; "privacyExportAllowlist" : jstr;
   "entries" : jstr; "summary" : jstr].

Definition PUBLIC_LAUNCH_PHASE_OWNER_FIELDS : list jstr :=
  ["phase_id" : jstr; "phaseId" : jstr; "owner_ref" : jstr; "ownerRef" : jstr;
   "support_owner_ref" : jstr; "supportOwnerRef" : jstr; "release_owner_ref" : jstr;
   "releaseOwnerRef" : jstr; "signing_owner_ref" : jstr; "signingOwnerRef" : jstr].

Definition PUBLIC_LAUNCH_CLAIM_BOUNDARY_FIELDS : list jstr :=
  ["version_ref" : jstr; "versionRef" : jstr; "allowed_claim_refs" : jstr; "allowedClaimRefs" : jstr;
   "disallowed_claim_refs" : jstr; "disallowedClaimRefs" : jstr].

Definition PUBLIC_LAUNCH_ENTRY_FIELDS : list jstr :=
  ["phase_id" : jstr; "phaseId" : jstr; "scenario_id" : jstr; "scenarioId" : jstr;
   "owner_ref" : jstr; "ownerRef" : jstr; "status" : jstr; "advisor_decision" : jstr;
   "advisorDecision" : jstr; "evidence_refs" : jstr; "evidenceRefs" : jstr;
   "privacy_review" : jstr; "privacyReview" : jstr; "claim_review" : jstr; "claimReview" : jstr;
   "rollback_ready" : jstr; "rollbackReady" : jstr; "support_owner_ref" : jstr;
   "supportOwnerRef" : jstr; "release_owner_ref" : jstr; "releaseOwnerRef" : jstr;
   "signing_owner_ref" : jstr; "signingOwnerRef" : jstr; "updated_at" : jstr; "updatedAt" : jstr;
   "issue_codes" : jstr; "issueCodes" : jstr].

Definition PUBLIC_LAUNCH_REVIEW_FIELDS : list jstr :=
  ["status" : jstr; "reviewer_ref" : jstr; "reviewerRef" : jstr; "evidence_ref_count" : jstr;
   "evidenceRefCount" : jstr; "issue_codes" : jstr; "issueCodes" : jstr].

Definition assertAllowedPublicLaunchKeys (record : jsval) (allowed : list jstr) (field : jstr)
    : res unit :=
  foldl_res (λ _ key, throw_if negb (mem_str key allowed)
                        with TypeError ("unknown " +s+ field +s+ " field: " +s+ key); Ok tt)
    tt (keys (own_fields record)).

Definition requiredBoolean (value : jsval) (field : jstr) : res jsval :=
  throw_if negb (is_bool value) with TypeError (field +s+ " must be a boolean"); Ok value.

(** [requiredString], a pattern and the scan of the text by itself. *)
Definition public_text (r : re) (kind : string) (value : jsval) (field : jstr) : res jsval :=
  let! text := requiredString value field in
  throw_if negb (re_full r text) with TypeError (field +s+ kind);
  let! _ := assertPublicSafeFields (VObj [("value" : jstr, VStr text)]) [] in
  Ok (VStr text).

Definition normalizePublicLaunchId (value : jsval) (field : jstr) : res jsval :=
  public_text PUBLIC_LAUNCH_ID_RE " must be a public id" value field.

Definition normalizePublicLaunchRef (value : jsval) (field : jstr) : res jsval :=
  public_text PUBLIC_LAUNCH_REF_RE " must be a public ref" value field.

Definition normalizePublicLaunchDateTime (value : jsval) (field : jstr) : res jsval :=
  let! text := requiredString value field in
  throw_if negb (re_full PUBLIC_LAUNCH_DATE_TIME_RE text)
    with TypeError (field +s+ " must be an ISO-8601 UTC timestamp");
  Ok (VStr text).

Definition normalizePublicLaunchStatus (value : jsval) (field : jstr) : res jsval :=
  let! text := requiredString value field in
  throw_if negb (mem_str text PUBLIC_LAUNCH_STATUSES)
    with TypeError (field +s+ " must be a public launch evidence status");
  Ok (VStr text).

Definition normalizePublicLaunchAdvisorDecision (value : jsval) (field : jstr) : res jsval :=
  let! text := requiredString value field in
  throw_if negb (mem_str text PUBLIC_LAUNCH_ADVISOR_DECISIONS)
    with TypeError (field +s+ " must be an Advisor decision");
  Ok (VStr text).

Definition at_index (field : jstr) (index : nat) : jstr := field +s+ "[" +s+ nat_str index +s+ "]".

(** [values.map(...)] with the set [seen]; [map] leaves holes as they are. *)
Fixpoint map_distinct (normalize : jsval -> jstr -> res jsval) (duplicate : exn) (field : jstr)
    (index : nat) (seen : list jsval) (values : list jsval) : res (list jsval) :=
  match values with
  | [] => Ok []
  | VHole :: values' =>
      let! rest := map_distinct normalize duplicate field (S index) seen values' in
      Ok (VHole :: rest)
  | value :: values' =>
      let! normalized := normalize value (at_index field index) in
      throw_if arr_includes seen normalized with duplicate;
      let! rest := map_distinct normalize duplicate field (S index) (normalized :: seen) values' in
      Ok (normalized :: rest)
  end.

Definition normalizePublicLaunchRefArray (values : jsval) (field : jstr) : res jsval :=
  match values with
  | VArr l =>
      let! items := map_distinct normalizePublicLaunchRef
        (TypeError (field +s+ " must not contain duplicate refs")) field 0 [] l in
      Ok (VArr items)
  | _ => Throw (TypeError (field +s+ " must be an array"))
  end.

Definition normalizePublicLaunchIssueCodes (values : jsval) (field : jstr) : res jsval :=
  match values with
  | VArr l =>
      let! items := map_distinct normalizePublicLaunchId
        (TypeError (field +s+ " must not contain duplicate issue codes")) field 0 [] l in
      Ok (VArr items)
  | _ => Throw (TypeError (field +s+ " must be an array"))
  end.

Definition normalizePublicLaunchReview (review : jsval) (field : jstr) : res jsval :=
  throw_if negb (is_record review) with TypeError (field +s+ " must be an object");
  let! _ := assertAllowedPublicLaunchKeys review PUBLIC_LAUNCH_REVIEW_FIELDS field in
  let! status := normalizePublicLaunchStatus (vget review "status") (field +s+ ".status") in
  let! reviewer_ref := normalizePublicLaunchRef
    (vget review "reviewer_ref" ?? vget review "reviewerRef") (field +s+ ".reviewer_ref") in
  let! evidence_ref_count := requiredInteger
    (vget review "evidence_ref_count" ?? vget review "evidenceRefCount")
    (field +s+ ".evidence_ref_count") in
  let! issue_codes := normalizePublicLaunchIssueCodes
    (vget review "issue_codes" ?? vget review "issueCodes") (field +s+ ".issue_codes") in
  assertPublicSafeFields (VObj [
    ("status" : jstr, status); ("reviewer_ref" : jstr, reviewer_ref);
    ("evidence_ref_count" : jstr, evidence_ref_count); ("issue_codes" : jstr, issue_codes)]) [].

Definition normalizePublicLaunchEntry (entry : jsval) (field : jstr) : res jsval :=
  throw_if negb (is_record entry) with TypeError (field +s+ " must be an object");
  let! _ := assertAllowedPublicLaunchKeys entry PUBLIC_LAUNCH_ENTRY_FIELDS field in
  let! phase_id := normalizePublicLaunchId (vget entry "phase_id" ?? vget entry "phaseId")
    (field +s+ ".phase_id") in
  let! scenario_id := normalizePublicLaunchId (vget entry "scenario_id" ?? vget entry "scenarioId")
    (field +s+ ".scenario_id") in
  let! owner_ref := normalizePublicLaunchRef (vget entry "owner_ref" ?? vget entry "ownerRef")
    (field +s+ ".owner_ref") in
  let! status := normalizePublicLaunchStatus (vget entry "status") (field +s+ ".status") in
  let! advisor_decision := normalizePublicLaunchAdvisorDecision
    (vget entry "advisor_decision" ?? vget entry "advisorDecision") (field +s+ ".advisor_decision") in
  let! evidence_refs := normalizePublicLaunchRefArray
    (vget entry "evidence_refs" ?? vget entry "evidenceRefs") (field +s+ ".evidence_refs") in
  let! privacy_review := normalizePublicLaunchReview
    (vget entry "privacy_review" ?? vget entry "privacyReview") (field +s+ ".privacy_review") in
  let! claim_review := normalizePublicLaunchReview
    (vget entry "claim_review" ?? vget entry "claimReview") (field +s+ ".claim_review") in
  let! rollback_ready := requiredBoolean
    (vget entry "rollback_ready" ?? vget entry "rollbackReady") (field +s+ ".rollback_ready") in
  let! support_owner_ref := normalizePublicLaunchRef
    (vget entry "support_owner_ref" ?? vget entry "supportOwnerRef") (field +s+ ".support_owner_ref") in
  let! release_owner_ref := normalizePublicLaunchRef
    (vget entry "release_owner_ref" ?? vget entry "releaseOwnerRef") (field +s+ ".release_owner_ref") in
  let! signing_owner_ref := normalizePublicLaunchRef
    (vget entry "signing_owner_ref" ?? vget entry "signingOwnerRef") (field +s+ ".signing_owner_ref") in
  let! updated_at := normalizePublicLaunchDateTime
    (vget entry "updated_at" ?? vget entry "updatedAt") (field +s+ ".updated_at") in
  let! issue_codes := normalizePublicLaunchIssueCodes
    (vget entry "issue_codes" ?? vget entry "issueCodes") (field +s+ ".issue_codes") in
  assertPublicSafeFields (VObj [
    ("phase_id" : jstr, phase_id); ("scenario_id" : jstr, scenario_id);
    ("owner_ref" : jstr, owner_ref); ("status" : jstr, status);
    ("advisor_decision" : jstr, advisor_decision); ("evidence_refs" : jstr, evidence_refs);
    ("privacy_review" : jstr, privacy_review); ("claim_review" : jstr, claim_review);
    ("rollback_ready" : jstr, rollback_ready); ("support_owner_ref" : jstr, support_owner_ref);
    ("release_owner_ref" : jstr, release_owner_ref); ("signing_owner_ref" : jstr, signing_owner_ref);
    ("updated_at" : jstr, updated_at); ("issue_codes" : jstr, issue_codes)]) [].

Definition normalizePublicLaunchEntries (entries : jsval) : res (list jsval) :=
  match entries with
  | VArr l => map_items (λ index entry, normalizePublicLaunchEntry entry (at_index "entries" index)) l
  | _ => Throw (TypeError "public launch evidence entries must be an array")
  end.

(** ** The summary *)
Definition publicLaunchStatusCounts : obj :=
  [("missing" : jstr, vint 0); ("pending" : jstr, vint 0); ("pass" : jstr, vint 0);
   ("fail" : jstr, vint 0); ("blocked" : jstr, vint 0)].

Definition publicLaunchAdvisorDecisionCounts : obj :=
  [("ship" : jstr, vint 0); ("hold" : jstr, vint 0); ("rollback" : jstr, vint 0);
   ("not_reviewed" : jstr, vint 0)].

(** [counts[key] += 1]. *)
Definition bump (counts : obj) (key : jsval) : obj :=
  fset counts (to_str key) (vadd (fget counts (to_str key)) 1).

(** [issueCounts.set(code, (issueCounts.get(code) ?? 0) + 1)]: a [Map] keeps the
    place of a key that is already there. *)
Fixpoint map_bump (counts : list (jstr * jsval)) (code : jstr) : list (jstr * jsval) :=
  match counts with
  | [] => [(code, vint 1)]
  | (k, n) :: counts' => if k =s= code then (k, vadd n 1) :: counts' else (k, n) :: map_bump counts' code
  end.

Definition bump_codes (counts : list (jstr * jsval)) (codes : jsval) : list (jstr * jsval) :=
  foldl (λ counts code, map_bump counts (to_str code)) counts (items_of codes).

Record tally := {
  t_status : obj;
  t_advisor : obj;
  t_privacy : obj;
  t_claim : obj;
  t_issues : list (jstr * jsval);
  t_rollback : jsval
}.

Definition empty_tally : tally :=
  {| t_status := publicLaunchStatusCounts; t_advisor := publicLaunchAdvisorDecisionCounts;
     t_privacy := publicLaunchStatusCounts; t_claim := publicLaunchStatusCounts;
     t_issues := []; t_rollback := vint 0 |}.

(** One turn of the loop over the entries; a hole reads as [undefined] and throws. *)
Definition count_entry (t : tally) (item : jsval) : res tally :=
  let entry := elem item in
  let! status := getx entry "status" in
  let privacy := vget entry "privacy_review" in
  let claim := vget entry "claim_review" in
  Ok {| t_status := bump (t_status t) status;
        t_advisor := bump (t_advisor t) (vget entry "advisor_decision");
        t_privacy := bump (t_privacy t) (vget privacy "status");
        t_claim := bump (t_claim t) (vget claim "status");
        t_issues := bump_codes (bump_codes (bump_codes (t_issues t) (vget entry "issue_codes"))
                                  (vget privacy "issue_codes")) (vget claim "issue_codes");
        t_rollback := if vget entry "rollback_ready" === VBool true then vadd (t_rollback t) 1
                      else t_rollback t |}.

Definition positive (v : jsval) : bool := match v with VNum n => num_ltb (NInt 0) n | _ => false end.

Definition derivePublicLaunchAdvisorDecision (entries : list jsval) (statusCounts advisorCounts : obj)
    : jstr :=
  if (length entries =? 0)%nat then "not_reviewed"
  else if positive (fget statusCounts "fail") || positive (fget statusCounts "blocked")
          || positive (fget statusCounts "missing") || positive (fget advisorCounts "hold") then "hold"
  else if positive (fget advisorCounts "rollback") then "rollback"
  else if positive (fget statusCounts "pending") || positive (fget advisorCounts "not_reviewed")
  then "not_reviewed"
  else "ship".

Definition summary_of (entries : list jsval) : res jsval :=
  let! t := foldl_res count_entry empty_tally entries in
  Ok (VObj [
    ("total_entries" : jstr, vnat (length entries));
    ("status_counts" : jstr, VObj (t_status t));
    ("advisor_decision_counts" : jstr, VObj (t_advisor t));
    ("privacy_review_counts" : jstr, VObj (t_privacy t));
    ("claim_review_counts" : jstr, VObj (t_claim t));
    ("rollback_ready_count" : jstr, t_rollback t);
    ("issue_code_counts" : jstr,
       VArr (map (λ kv : jstr * jsval, VObj [("issue_code" : jstr, VStr kv.1); ("count" : jstr, kv.2)])
               (sort_keys (t_issues t))));
    ("advisor_decision" : jstr,
       VStr (derivePublicLaunchAdvisorDecision entries (t_status t) (t_advisor t)))]).

Definition summarizePublicLaunchEvidence (entries : jsval) : res jsval :=
  let! normalizedEntries := normalizePublicLaunchEntries entries in
  summary_of normalizedEntries.

(** ** The ledger *)
Definition normalize_owner (index : nat) (owner : jsval) : res jsval :=
  let field := at_index "phase_owners" index in
  throw_if negb (is_record owner) with TypeError (field +s+ " must be an object");
  let! _ := assertAllowedPublicLaunchKeys owner PUBLIC_LAUNCH_PHASE_OWNER_FIELDS field in
  let! phase_id := normalizePublicLaunchId (vget owner "phase_id" ?? vget owner "phaseId")
    (field +s+ ".phase_id") in
  let! owner_ref := normalizePublicLaunchRef (vget owner "owner_ref" ?? vget owner "ownerRef")
    (field +s+ ".owner_ref") in
  let! support_owner_ref := normalizePublicLaunchRef
    (vget owner "support_owner_ref" ?? vget owner "supportOwnerRef") (field +s+ ".support_owner_ref") in
  let! release_owner_ref := normalizePublicLaunchRef
    (vget owner "release_owner_ref" ?? vget owner "releaseOwnerRef") (field +s+ ".release_owner_ref") in
  let! signing_owner_ref := normalizePublicLaunchRef
    (vget owner "signing_owner_ref" ?? vget owner "signingOwnerRef") (field +s+ ".signing_owner_ref") in
  assertPublicSafeFields (VObj [
    ("phase_id" : jstr, phase_id); ("owner_ref" : jstr, owner_ref);
    ("support_owner_ref" : jstr, support_owner_ref); ("release_owner_ref" : jstr, release_owner_ref);
    ("signing_owner_ref" : jstr, signing_owner_ref)]) [].

Fixpoint assert_unique_from (seen : list jstr) (field : jstr) (values : list jsval) : res unit :=
  match values with
  | [] => Ok tt
  | value :: values' =>
      let! key := canonicalize (elem value) in
      throw_if mem_str key seen with TypeError (field +s+ " must not contain duplicates");
      assert_unique_from (key :: seen) field values'
  end.

Definition assertUniqueCanonicalPublicLaunchValues (values : list jsval) (field : jstr) : res unit :=
  assert_unique_from [] field values.

Definition normalizePublicLaunchPhaseOwners (phaseOwners : jsval) : res jsval :=
  match phaseOwners with
  | VArr l =>
      throw_if (length l =? 0)%nat with TypeError "phase_owners must not be empty";
      let! normalizedOwners := map_items normalize_owner l in
      let! _ := assertUniqueCanonicalPublicLaunchValues normalizedOwners "phase_owners" in
      Ok (VArr normalizedOwners)
  | _ => Throw (TypeError "phase_owners must be an array")
  end.

Definition normalizePublicLaunchClaimBoundary (boundary : jsval) : res jsval :=
  throw_if negb (is_record boundary) with TypeError "claim_boundary must be an object";
  let! _ := assertAllowedPublicLaunchKeys boundary PUBLIC_LAUNCH_CLAIM_BOUNDARY_FIELDS "claim_boundary" in
  let! version_ref := normalizePublicLaunchRef (vget boundary "version_ref" ?? vget boundary "versionRef")
    "claim_boundary.version_ref" in
  let! allowed_claim_refs := normalizePublicLaunchRefArray
    (vget boundary "allowed_claim_refs" ?? vget boundary "allowedClaimRefs")
    "claim_boundary.allowed_claim_refs" in
  let! disallowed_claim_refs := normalizePublicLaunchRefArray
    (vget boundary "disallowed_claim_refs" ?? vget boundary "disallowedClaimRefs")
    "claim_boundary.disallowed_claim_refs" in
  assertPublicSafeFields (VObj [
    ("version_ref" : jstr, version_ref); ("allowed_claim_refs" : jstr, allowed_claim_refs);
    ("disallowed_claim_refs" : jstr, disallowed_claim_refs)]) [].

Definition createPublicLaunchEvidenceLedger (args0 : jsval) : res jsval :=
  let args := if is_undef args0 then VObj [] else args0 in
  throw_if negb (is_record args) with TypeError "public launch evidence ledger must be an object";
  let! _ := assertAllowedPublicLaunchKeys args PUBLIC_LAUNCH_LEDGER_FIELDS
              "public launch evidence ledger" in
  throw_if negb (is_undef (vget args "schema"))
           && (vget args "schema" !== VStr PUBLIC_LAUNCH_EVIDENCE_LEDGER_SCHEMA)
    with TypeError "public launch evidence ledger schema mismatch";
  let! entries := normalizePublicLaunchEntries (vget args "entries" ?? VArr []) in
  let! summary := summarizePublicLaunchEvidence (VArr entries) in
  let! _ := (if is_undef (vget args "summary") then Ok tt
             else
               let! _ := assertPublicSafeFields (vget args "summary") [] in
               let! given := canonicalize (vget args "summary") in
               let! derived := canonicalize summary in
               throw_if negb (given =s= derived)
                 with TypeError "public launch evidence ledger summary mismatch";
               Ok tt) in
  let! ledger_id := normalizePublicLaunchId (vget args "ledger_id" ?? vget args "ledgerId") "ledger_id" in
  let! generated_at := normalizePublicLaunchDateTime
    (vget args "generated_at" ?? vget args "generatedAt") "generated_at" in
  let! phase_owners := normalizePublicLaunchPhaseOwners
    (vget args "phase_owners" ?? vget args "phaseOwners") in
  let! claim_boundary := normalizePublicLaunchClaimBoundary
    (vget args "claim_boundary" ?? vget args "claimBoundary") in
  let! privacy_export_allowlist := normalizePublicLaunchRefArray
    (vget args "privacy_export_allowlist" ?? vget args "privacyExportAllowlist" ?? VArr [])
    "privacy_export_allowlist" in
  assertPublicSafeFields (VObj [
    ("schema" : jstr, VStr PUBLIC_LAUNCH_EVIDENCE_LEDGER_SCHEMA); ("ledger_id" : jstr, ledger_id);
    ("generated_at" : jstr, generated_at); ("phase_owners" : jstr, phase_owners);
    ("claim_boundary" : jstr, claim_boundary);
    ("privacy_export_allowlist" : jstr, privacy_export_allowlist);
    ("entries" : jstr, VArr entries); ("summary" : jstr, summary)]) [].

Definition addPublicLaunchEvidenceEntry (ledger entry : jsval) : res jsval :=
  throw_if negb (is_record ledger) with TypeError "public launch evidence ledger must be an object";
  let! _ := assertAllowedPublicLaunchKeys ledger PUBLIC_LAUNCH_LEDGER_FIELDS
              "public launch evidence ledger" in
  let! _ := assertPublicSafeFields ledger [] in
  createPublicLaunchEvidenceLedger (VObj [
    ("schema" : jstr, vget ledger "schema"); ("ledger_id" : jstr, vget ledger "ledger_id");
    ("generated_at" : jstr, vget ledger "generated_at");
    ("phase_owners" : jstr, vget ledger "phase_owners");
    ("claim_boundary" : jstr, vget ledger "claim_boundary");
    ("privacy_export_allowlist" : jstr, vget ledger "privacy_export_allowlist");
    ("entries" : jstr, VArr (map elem (items_of (vget ledger "entries")) ++ [entry]))]).

(** ** Normalisers return their own outputs unchanged *)
Lemma assertPublicSafeFields_ok v options w :
  assertPublicSafeFields v options = Ok w <->
  w = v /\ sr_ok (scanPublicSafeFields v options) = true.
Proof.
  unfold assertPublicSafeFields. cbn zeta. destruct (sr_ok _); simpl; naive_solver.
Qed.

(** [stable f w]: the normaliser [f] accepts [w] under every field name and returns it. *)
Definition stable (f : jsval -> jstr -> res jsval) (w : jsval) : Prop :=
  is_nullish w = false /\ forall field, f w field = Ok w.

Lemma requiredString_again s field : s <> [] -> requiredString (VStr s) field = Ok s.
Proof. intros H. by apply requiredString_ok. Qed.

Lemma public_text_stable r kind v field w :
  public_text r kind v field = Ok w -> stable (public_text r kind) w.
Proof.
  unfold public_text. intros H. inv_res. apply requiredString_ok in H0 as [-> Hne].
  split; [done|]. intros field'. rewrite requiredString_again by done.
  cbn [res_bind]. rewrite E. by rewrite H1.
Qed.

Lemma dateTime_stable v field w :
  normalizePublicLaunchDateTime v field = Ok w -> stable normalizePublicLaunchDateTime w.
Proof.
  unfold normalizePublicLaunchDateTime. intros H. inv_res. apply requiredString_ok in H0 as [-> Hne].
  split; [done|]. intros field'. rewrite requiredString_again by done.
  cbn [res_bind]. by rewrite E.
Qed.

Lemma status_stable v field w :
  normalizePublicLaunchStatus v field = Ok w ->
  stable normalizePublicLaunchStatus w /\ exists s, w = VStr s /\ s ∈ PUBLIC_LAUNCH_STATUSES.
Proof.
  unfold normalizePublicLaunchStatus. intros H. inv_res. apply requiredString_ok in H0 as [-> Hne].
  split; [split; [done|]|].
  - intros field'. rewrite requiredString_again by done.
    cbn [res_bind]. by rewrite E.
  - apply negb_false_iff, mem_str_true in E. eauto.
Qed.

Lemma advisor_stable v field w :
  normalizePublicLaunchAdvisorDecision v field = Ok w ->
  stable normalizePublicLaunchAdvisorDecision w /\
  exists s, w = VStr s /\ s ∈ PUBLIC_LAUNCH_ADVISOR_DECISIONS.
Proof.
  unfold normalizePublicLaunchAdvisorDecision. intros H. inv_res.
  apply requiredString_ok in H0 as [-> Hne]. split; [split; [done|]|].
  - intros field'. rewrite requiredString_again by done.
    cbn [res_bind]. by rewrite E.
  - apply negb_false_iff, mem_str_true in E. eauto.
Qed.

Lemma map_distinct_stable normalize dup field index seen values items :
  (forall v f w, normalize v f = Ok w -> stable normalize w) ->
  map_distinct normalize dup field index seen values = Ok items ->
  forall dup' field' index', map_distinct normalize dup' field' index' seen items = Ok items.
Proof.
  intros Hn. revert index seen items. induction values as [|v values IH]; intros index seen items H
    dup' field' index'; simpl in H; [by inv_res|].
  assert ((v = VHole /\ exists rest,
             map_distinct normalize dup field (S index) seen values = Ok rest /\ items = VHole :: rest) \/
          exists n rest, normalize v (at_index field index) = Ok n /\ arr_includes seen n = false /\
            map_distinct normalize dup field (S index) (n :: seen) values = Ok rest /\ items = n :: rest)
    as [(-> & rest & H1 & ->)|(n & rest & H1 & H2 & H3 & ->)].
  { destruct v; inv_res; eauto 10. }
  - simpl. by rewrite (IH _ _ _ H1).
  - destruct (Hn _ _ _ H1) as [Hnull Hst]. specialize (IH _ _ _ H3).
    destruct n; try done; cbn [map_distinct]; rewrite Hst; cbn [res_bind]; by rewrite H2, IH.
Qed.

Lemma refArray_stable v field w :
  normalizePublicLaunchRefArray v field = Ok w -> stable normalizePublicLaunchRefArray w.
Proof.
  destruct v; try done. simpl. intros H. inv_res. split; [done|]. intros field'. simpl.
  by rewrite (map_distinct_stable _ _ _ _ _ _ _ (public_text_stable _ _) H0).
Qed.

Lemma issueCodes_stable v field w :
  normalizePublicLaunchIssueCodes v field = Ok w -> stable normalizePublicLaunchIssueCodes w.
Proof.
  destruct v; try done. simpl. intros H. inv_res. split; [done|]. intros field'. simpl.
  by rewrite (map_distinct_stable _ _ _ _ _ _ _ (public_text_stable _ _) H0).
Qed.

Lemma requiredInteger_stable v field w : requiredInteger v field = Ok w -> stable requiredInteger w.
Proof.
  intros [-> H]%requiredInteger_ok. split; [by destruct v|].
  intros field'. by apply requiredInteger_ok.
Qed.

Lemma requiredBoolean_stable v field w : requiredBoolean v field = Ok w -> stable requiredBoolean w.
Proof. unfold requiredBoolean. intros H. inv_res. by destruct w. Qed.

Lemma id_stable v field w :
  normalizePublicLaunchId v field = Ok w -> stable normalizePublicLaunchId w.
Proof. apply public_text_stable. Qed.

Lemma ref_stable v field w :
  normalizePublicLaunchRef v field = Ok w -> stable normalizePublicLaunchRef w.
Proof. apply public_text_stable. Qed.

Lemma allowed_keys fields allowed field :
  forallb (λ k, mem_str k allowed) (keys fields) = true ->
  assertAllowedPublicLaunchKeys (VObj fields) allowed field = Ok tt.
Proof.
  unfold assertAllowedPublicLaunchKeys. simpl. generalize (keys fields).
  induction l as [|k l IH]; simpl; [done|]. intros [-> H]%andb_true_iff. by apply IH.
Qed.

Lemma stable_or f w v : stable f w -> (w ?? v) = w.
Proof. intros [H _]. unfold coalesce. by rewrite H. Qed.

(** Use the stability of a field: [fields] turns a run of a normaliser into it. *)
Ltac stabilise :=
  repeat match goal with
    | H : normalizePublicLaunchId _ _ = Ok _ |- _ => apply id_stable in H
    | H : normalizePublicLaunchRef _ _ = Ok _ |- _ => apply ref_stable in H
    | H : normalizePublicLaunchDateTime _ _ = Ok _ |- _ => apply dateTime_stable in H
    | H : normalizePublicLaunchStatus _ _ = Ok _ |- _ => apply status_stable in H as [H _]
    | H : normalizePublicLaunchAdvisorDecision _ _ = Ok _ |- _ => apply advisor_stable in H as [H _]
    | H : normalizePublicLaunchRefArray _ _ = Ok _ |- _ => apply refArray_stable in H
    | H : normalizePublicLaunchIssueCodes _ _ = Ok _ |- _ => apply issueCodes_stable in H
    | H : requiredInteger _ _ = Ok _ |- _ => apply requiredInteger_stable in H
    | H : requiredBoolean _ _ = Ok _ |- _ => apply requiredBoolean_stable in H
    end.

(** Read the fields of a literal record. *)
Ltac read_fields :=
  unfold vget; cbn [own_fields];
  repeat match goal with
    | |- context [fget ?fs ?k] =>
        let v := eval vm_compute in (fget fs k) in change (fget fs k) with v
    end.

Ltac rerun :=
  repeat match goal with
    | H : stable ?f ?w |- context [?w ?? ?v] => rewrite (stable_or f w v H)
    | H : stable ?f ?w |- context [?f ?w ?field] => rewrite (proj2 H field); cbn [res_bind]
    end.

Lemma review_stable v field w :
  normalizePublicLaunchReview v field = Ok w ->
  stable normalizePublicLaunchReview w /\
  exists s, vget w "status" = VStr s /\ s ∈ PUBLIC_LAUNCH_STATUSES.
Proof.
  unfold normalizePublicLaunchReview at 1. intros H. inv_res.
  assert (Hs := H1). apply status_stable in Hs as [_ Hs].
  stabilise. apply assertPublicSafeFields_ok in H as [-> Hsafe]. split; [split; [done|]|].
  - intros field'. unfold normalizePublicLaunchReview. cbn [is_record negb].
    rewrite allowed_keys by (vm_compute; reflexivity). cbn [res_bind]. read_fields. rerun.
    by apply assertPublicSafeFields_ok.
  - by read_fields.
Qed.

Ltac stabilise_reviews :=
  repeat match goal with
    | H : normalizePublicLaunchReview _ _ = Ok _ |- _ => apply review_stable in H as [H _]
    end.

(** The parts of a normalised entry that the summary reads. *)
Record entry_ok (w : jsval) : Prop := {
  eo_record : is_record w = true;
  eo_status : exists s, vget w "status" = VStr s /\ s ∈ PUBLIC_LAUNCH_STATUSES;
  eo_advisor : exists s, vget w "advisor_decision" = VStr s /\ s ∈ PUBLIC_LAUNCH_ADVISOR_DECISIONS
}.

Lemma entry_stable v field w :
  normalizePublicLaunchEntry v field = Ok w -> stable normalizePublicLaunchEntry w /\ entry_ok w.
Proof.
  unfold normalizePublicLaunchEntry at 1. intros H. inv_res.
  match goal with E : normalizePublicLaunchStatus _ _ = Ok _ |- _ =>
    assert (Hs := E); apply status_stable in Hs as [_ Hs] end.
  match goal with E : normalizePublicLaunchAdvisorDecision _ _ = Ok _ |- _ =>
    assert (Ha := E); apply advisor_stable in Ha as [_ Ha] end.
  stabilise. stabilise_reviews.
  apply assertPublicSafeFields_ok in H as [-> Hsafe]. split; [split; [done|]|].
  - intros field'. unfold normalizePublicLaunchEntry. cbn [is_record negb].
    rewrite allowed_keys by (vm_compute; reflexivity). cbn [res_bind]. read_fields. rerun.
    by apply assertPublicSafeFields_ok.
  - split; [done|..]; by read_fields.
Qed.

Lemma owner_stable i v w : normalize_owner i v = Ok w -> forall j, normalize_owner j w = Ok w.
Proof.
  unfold normalize_owner at 1. cbn zeta. intros H. inv_res. stabilise.
  apply assertPublicSafeFields_ok in H as [-> Hsafe].
  intros j. unfold normalize_owner. cbn [is_record negb].
  rewrite allowed_keys by (vm_compute; reflexivity). cbn [res_bind]. read_fields. rerun.
  by apply assertPublicSafeFields_ok.
Qed.

Lemma boundary_stable v w :
  normalizePublicLaunchClaimBoundary v = Ok w ->
  is_nullish w = false /\ normalizePublicLaunchClaimBoundary w = Ok w.
Proof.
  unfold normalizePublicLaunchClaimBoundary at 1. intros H. inv_res. stabilise.
  apply assertPublicSafeFields_ok in H as [-> Hsafe]. split; [done|].
  unfold normalizePublicLaunchClaimBoundary. cbn [is_record negb].
  rewrite allowed_keys by (vm_compute; reflexivity). cbn [res_bind]. read_fields. rerun.
  by apply assertPublicSafeFields_ok.
Qed.

Lemma map_items_stable f l items :
  (forall i v w, f i v = Ok w -> forall j, f j w = Ok w) ->
  map_items f l = Ok items -> map_items f items = Ok items.
Proof.
  intros Hf. unfold map_items, imap_res. generalize 0%nat at 1 2. intros i. revert i items.
  induction l as [|v l IH]; intros i items H; simpl in H; [by inv_res|].
  inv_res. simpl.
  assert (match x with VHole => Ok VHole | _ => f i x end = Ok x) as ->.
  { destruct v; inv_res; try done; by destruct x; try (eapply Hf). }
  simpl. by rewrite (IH _ _ H1).
Qed.

Lemma entries_stable v entries :
  normalizePublicLaunchEntries v = Ok entries ->
  normalizePublicLaunchEntries (VArr entries) = Ok entries.
Proof.
  destruct v; try done. intros H. eapply map_items_stable; [|exact H].
  intros i v w [[_ Hw] _]%entry_stable j. apply Hw.
Qed.

Lemma owners_stable v w :
  normalizePublicLaunchPhaseOwners v = Ok w ->
  is_nullish w = false /\ normalizePublicLaunchPhaseOwners w = Ok w.
Proof.
  destruct v as [| | | | | |l| | | | | |]; try done. simpl. intros H. inv_res. split; [done|]. simpl.
  assert (length x = length l) as ->.
  { unfold map_items, imap_res in H0. by apply imap_res_from_ok in H0 as [? _]. }
  rewrite E. rewrite (map_items_stable _ _ _ owner_stable H0). simpl. by rewrite H1.
Qed.

(** ** The summary is JSON data *)
Definition numbers (fs : list (jstr * jsval)) : Prop :=
  Forall (λ kv : jstr * jsval, is_number kv.2 = true) fs.

Lemma vadd_number v d : is_number (vadd v d) = true.
Proof. by destruct v. Qed.

Lemma Forall_freplace (P : jsval -> Prop) fs k v :
  Forall (λ kv : jstr * jsval, P kv.2) fs -> P v -> Forall (λ kv : jstr * jsval, P kv.2) (freplace fs k v).
Proof.
  intros H Hv. induction H as [|[k' v'] fs Hkv Hf IH]; [constructor|]. simpl.
  destruct (k' =s= k); by constructor.
Qed.

Lemma bump_numbers counts key : numbers counts -> numbers (bump counts key).
Proof.
  intros H. unfold bump, fset. destruct (fhas counts (to_str key)).
  - apply (Forall_freplace (λ v, is_number v = true)); [done|apply vadd_number].
  - unfold numbers. rewrite finsert_perm. constructor; [apply vadd_number|done].
Qed.

Lemma map_bump_numbers counts code : numbers counts -> numbers (map_bump counts code).
Proof.
  induction 1 as [|[k n] counts Hn Hf IH]; simpl; [by repeat constructor|].
  destruct (k =s= code); constructor; try done. apply vadd_number.
Qed.

Lemma bump_codes_numbers counts codes : numbers counts -> numbers (bump_codes counts codes).
Proof.
  unfold bump_codes. generalize (items_of codes). intros l. revert counts.
  induction l as [|c l IH]; intros counts H; simpl; [done|]. auto using map_bump_numbers.
Qed.

Record tally_numbers (t : tally) : Prop := {
  tn_status : numbers (t_status t);
  tn_advisor : numbers (t_advisor t);
  tn_privacy : numbers (t_privacy t);
  tn_claim : numbers (t_claim t);
  tn_issues : numbers (t_issues t);
  tn_rollback : is_number (t_rollback t) = true
}.

Lemma count_entry_numbers t item t' :
  tally_numbers t -> count_entry t item = Ok t' -> tally_numbers t'.
Proof.
  intros [] H. unfold count_entry in H. cbn zeta in H. inv_res.
  split; simpl; auto using bump_numbers, bump_codes_numbers.
  by destruct (_ === _); [apply vadd_number|].
Qed.

Lemma foldl_res_inv {A S} (f : S -> A -> res S) (P : S -> Prop) s l s' :
  (forall s a s', P s -> f s a = Ok s' -> P s') -> P s -> foldl_res f s l = Ok s' -> P s'.
Proof.
  intros Hf. revert s. induction l as [|a l IH]; intros s Hs H; simpl in H; inv_res; [done|]. eauto.
Qed.

Lemma numbers_plain fs :
  numbers fs -> forallb (λ kv : jstr * jsval, plainb kv.2) fs = true.
Proof.
  intros H. apply forallb_forall. intros kv Hkv%list_elem_of_In.
  eapply Forall_forall in H; [|exact Hkv]. simpl in H. by destruct (kv.2).
Qed.

Lemma summary_plain entries s : summary_of entries = Ok s -> plain_data s.
Proof.
  unfold summary_of. intros H. inv_res.
  assert (tally_numbers x) as [].
  { eapply foldl_res_inv; [apply count_entry_numbers| |exact H0]. by split; repeat constructor. }
  apply plainb_data. simpl. rewrite !numbers_plain by done.
  replace (plainb (t_rollback x)) with true by (by destruct (t_rollback x)). simpl.
  rewrite andb_true_r. apply forallb_forall.
  intros v ([k n] & -> & Hin)%list_elem_of_In%list_elem_of_fmap. rewrite sort_keys_perm in Hin.
  eapply Forall_forall in tn_issues0; [|exact Hin]. simpl in *. by destruct n.
Qed.

Lemma scan_field_ok fields k v :
  sr_ok (scanPublicSafeFields (VObj fields) []) = true -> (k, v) ∈ fields ->
  sr_ok (scanPublicSafeFields v []) = true.
Proof.
  rewrite !scan_ok_iff. intros H Hin w Hw. apply H. by apply (occurs_field w fields (k, v)).
Qed.

(** The comparison of a derived summary with itself passes. *)
Lemma summary_check entries s :
  summarizePublicLaunchEvidence entries = Ok s -> sr_ok (scanPublicSafeFields s []) = true ->
  (if is_undef s then Ok tt
   else
     let! _ := assertPublicSafeFields s [] in
     let! given := canonicalize s in
     let! derived := canonicalize s in
     throw_if negb (given =s= derived)
       with TypeError "public launch evidence ledger summary mismatch";
     Ok tt) = Ok tt.
Proof.
  unfold summarizePublicLaunchEvidence. intros H Hsafe. inv_res.
  match goal with E : summary_of _ = Ok _ |- _ => apply summary_plain in E as Hp end.
  destruct (is_undef s); [done|]. rewrite (proj2 (assertPublicSafeFields_ok s [] s)) by done.
  assert (Hj : json_data s = true). { apply (safe_plain_json []); [by apply scan_ok_iff|done]. }
  rewrite <- canonicalize_is_ok in Hj. destruct (canonicalize s); [|done].
  cbn [res_bind]. by rewrite str_eqb_refl.
Qed.

(** A ledger is a fixed point of its constructor: feeding a ledger that
    [createPublicLaunchEvidenceLedger] returned back to it passes every check, the
    comparison with the embedded summary included, and returns the same ledger. *)
Theorem createPublicLaunchEvidenceLedger_idempotent args ledger :
  createPublicLaunchEvidenceLedger args = Ok ledger ->
  createPublicLaunchEvidenceLedger ledger = Ok ledger.
Proof.
  unfold createPublicLaunchEvidenceLedger at 1. cbn zeta. intros H. inv_res.
  match goal with E : normalizePublicLaunchEntries _ = Ok _ |- _ => apply entries_stable in E end.
  match goal with E : normalizePublicLaunchPhaseOwners _ = Ok _ |- _ =>
    apply owners_stable in E as [Ho1 Ho2] end.
  match goal with E : normalizePublicLaunchClaimBoundary _ = Ok _ |- _ =>
    apply boundary_stable in E as [Hb1 Hb2] end.
  stabilise. apply assertPublicSafeFields_ok in H as [-> Hsafe].
  unfold createPublicLaunchEvidenceLedger. cbn [is_undef is_record negb].
  rewrite allowed_keys by (vm_compute; reflexivity). cbn [res_bind]. read_fields.
  match goal with |- (if ?b then _ else _) = _ => replace b with false by (vm_compute; reflexivity) end.
  change (VArr x0 ?? VArr []) with (VArr x0).
  match goal with E : normalizePublicLaunchEntries _ = Ok _ |- _ => rewrite E end. cbn [res_bind].
  match goal with E : summarizePublicLaunchEvidence _ = Ok _ |- _ =>
    rewrite E; cbn [res_bind]; apply summary_check in E end.
  2: { eapply scan_field_ok; [exact Hsafe|]. do 7 apply list_elem_of_further. apply list_elem_of_here. }
  match goal with E : (if is_undef x1 then _ else _) = Ok tt |- _ => rewrite E end. cbn [res_bind].
  replace (x5 ?? VUndef) with x5 by (unfold coalesce; by rewrite Ho1).
  replace (x6 ?? VUndef) with x6 by (unfold coalesce; by rewrite Hb1). rerun. rewrite Ho2. cbn [res_bind]. rewrite Hb2.
  cbn [res_bind]. rerun. apply assertPublicSafeFields_ok. split; [reflexivity|exact Hsafe].
Qed.

(** ** The summary counts the entries *)
Definition count_where (p : jsval -> bool) (entries : list jsval) : nat :=
  length (List.filter p entries).

Definition status_is (s : jstr) (entry : jsval) : bool := vget entry "status" === VStr s.

Definition decision_is (s : jstr) (entry : jsval) : bool := vget entry "advisor_decision" === VStr s.

(** The advisor decision read off the entries: any failing, blocked or missing
    scenario or any [hold] holds the launch, then any [rollback] rolls it back, then
    any pending or unreviewed scenario leaves it unreviewed. *)
Definition advisor_decision_of (entries : list jsval) : jstr :=
  if bool_decide (entries = []) then "not_reviewed"
  else if existsb (λ e, status_is "fail" e || status_is "blocked" e || status_is "missing" e
                        || decision_is "hold" e) entries then "hold"
  else if existsb (decision_is "rollback") entries then "rollback"
  else if existsb (λ e, status_is "pending" e || decision_is "not_reviewed" e) entries
  then "not_reviewed"
  else "ship".

Lemma fget_bump counts s k :
  fget (bump counts (VStr s)) k = if s =s= k then vadd (fget counts k) 1 else fget counts k.
Proof.
  unfold bump. rewrite fget_fset. simpl to_str. destruct (s =s= k) eqn:E; [|done].
  by apply str_eqb_eq in E as ->.
Qed.

Lemma bump_count counts s k n :
  fget counts k = vnat n -> (Z.of_nat (S n) < 2 ^ 53)%Z ->
  fget (bump counts (VStr s)) k = vnat (n + if s =s= k then 1 else 0).
Proof.
  intros H Hn. rewrite fget_bump. destruct (s =s= k); rewrite H; [|by rewrite Nat.add_0_r].
  rewrite vadd_vnat by lia. unfold vnat, vint. do 2 f_equal. lia.
Qed.

Lemma count_where_cons p e es : count_where p (e :: es) = (if p e then 1 else 0) + count_where p es.
Proof. unfold count_where. simpl. by destruct (p e). Qed.

Lemma fold_counts es t t' ks ka ns na :
  foldl_res count_entry t es = Ok t' -> Forall entry_ok es ->
  fget (t_status t) ks = vnat ns -> fget (t_advisor t) ka = vnat na ->
  (Z.of_nat (ns + length es) < 2 ^ 53)%Z -> (Z.of_nat (na + length es) < 2 ^ 53)%Z ->
  fget (t_status t') ks = vnat (ns + count_where (status_is ks) es) /\
  fget (t_advisor t') ka = vnat (na + count_where (decision_is ka) es).
Proof.
  revert t ns na. induction es as [|e es IH]; intros t ns na H Hes Hs Ha Hls Hla; simpl in H.
  - inv_res. unfold count_where. simpl. by rewrite !Nat.add_0_r.
  - inv_res. apply Forall_cons in Hes as [He Hes].
    destruct He as [Hr (s & Es & _) (a & Ea & _)].
    assert (elem e = e) as Ee by by destruct e.
    unfold count_entry in H0. cbn zeta in H0. inv_res. rewrite Ee in *.
    assert (x0 = VStr s) as -> by (by destruct e; simpl in *; congruence).
    rewrite !count_where_cons. unfold status_is at 1, decision_is at 1. rewrite Es, Ea. cbn [seq].
    cbn [length] in Hls, Hla.
    edestruct (IH _ (ns + (if s =s= ks then 1 else 0)) (na + (if a =s= ka then 1 else 0)) H Hes)
      as [-> ->].
    + simpl. apply bump_count; [done|lia].
    + simpl. rewrite Ea. apply bump_count; [done|lia].
    + destruct (s =s= ks); lia.
    + destruct (a =s= ka); lia.
    + by rewrite !Nat.add_assoc.
Qed.

Lemma positive_vnat n : positive (vnat n) = (0 <? n)%nat.
Proof.
  unfold positive, vnat, num_ltb, dec_ltb. simpl. rewrite !Z.mul_1_r.
  destruct n; [done|]. by destruct (Z.ltb_spec 0 (Z.of_nat (S n))); [|lia].
Qed.

Lemma count_where_positive p es : (0 <? count_where p es)%nat = existsb p es.
Proof.
  induction es as [|e es IH]; [done|]. rewrite count_where_cons. cbn [existsb]. rewrite <- IH.
  by destruct (p e).
Qed.

Lemma existsb_orb {A} (p q : A -> bool) l : existsb (λ x, p x || q x) l = existsb p l || existsb q l.
Proof.
  induction l as [|x l IH]; [done|]. simpl. rewrite IH.
  by destruct (p x), (q x), (existsb p l), (existsb q l).
Qed.

Lemma entries_ok v entries t t' :
  normalizePublicLaunchEntries v = Ok entries -> foldl_res count_entry t entries = Ok t' ->
  Forall entry_ok entries.
Proof.
  destruct v as [| | | | | |l| | | | | |]; try done. intros H Hf.
  assert (Forall (λ w, w = VHole \/ entry_ok w) entries) as Hw.
  { eapply imap_res_Forall; [|exact H]. simpl. intros i a b Hb.
    destruct a; try (right; by eapply entry_stable). left. by inv_res. }
  clear H. revert t Hf. induction Hw as [|w entries Hw _ IH]; intros t Hf; [constructor|].
  simpl in Hf. inv_res. constructor; [|by eapply IH]. destruct Hw as [->|Hw]; [|done]. done.
Qed.

(** The launch summary is what its entries say: [total_entries] and the counts
    are the numbers of normalised entries with that status or decision, and the
    advisor decision follows from the entries by the documented priority. *)
Theorem summarizePublicLaunchEvidence_correct v s :
  summarizePublicLaunchEvidence v = Ok s -> (Z.of_nat (length (items_of v)) < 2 ^ 53)%Z ->
  exists entries,
    normalizePublicLaunchEntries v = Ok entries /\
    vget s "total_entries" = vnat (length entries) /\
    (forall k, k ∈ PUBLIC_LAUNCH_STATUSES ->
       vget (vget s "status_counts") k = vnat (count_where (status_is k) entries)) /\
    (forall k, k ∈ PUBLIC_LAUNCH_ADVISOR_DECISIONS ->
       vget (vget s "advisor_decision_counts") k = vnat (count_where (decision_is k) entries)) /\
    vget s "advisor_decision" = VStr (advisor_decision_of entries).
Proof.
  unfold summarizePublicLaunchEvidence, summary_of. intros H Hlen. inv_res.
  exists x. split; [done|]. pose proof (entries_ok _ _ _ _ H0 H1) as Hok.
  assert (length x = length (items_of v)) as Hl.
  { destruct v; try done. unfold normalizePublicLaunchEntries, map_items, imap_res in H0.
    by apply imap_res_from_ok in H0 as [? _]. }
  assert (forall ks ka, fget publicLaunchStatusCounts ks = vnat 0 ->
    fget publicLaunchAdvisorDecisionCounts ka = vnat 0 ->
    fget (t_status x0) ks = vnat (count_where (status_is ks) x) /\
    fget (t_advisor x0) ka = vnat (count_where (decision_is ka) x)) as Hc.
  { intros ks ka Hks Hka. eapply (fold_counts x empty_tally x0 ks ka 0 0); try done; by rewrite Hl. }
  split_and!.
  - done.
  - intros k Hk. change (fget (t_status x0) k = vnat (count_where (status_is k) x)).
    apply (Hc k "ship"); [|done]. repeat (apply elem_of_cons in Hk as [->|Hk]; [done|]).
    by apply elem_of_nil in Hk.
  - intros k Hk. change (fget (t_advisor x0) k = vnat (count_where (decision_is k) x)).
    apply (Hc "pass" k); [done|]. repeat (apply elem_of_cons in Hk as [->|Hk]; [done|]).
    by apply elem_of_nil in Hk.
  - change (VStr (derivePublicLaunchAdvisorDecision x (t_status x0) (t_advisor x0))
            = VStr (advisor_decision_of x)). f_equal.
    unfold derivePublicLaunchAdvisorDecision, advisor_decision_of.
    rewrite (proj1 (Hc "fail" "ship" eq_refl eq_refl)), (proj1 (Hc "blocked" "ship" eq_refl eq_refl)),
      (proj1 (Hc "missing" "ship" eq_refl eq_refl)), (proj1 (Hc "pending" "ship" eq_refl eq_refl)),
      (proj2 (Hc "pass" "hold" eq_refl eq_refl)), (proj2 (Hc "pass" "rollback" eq_refl eq_refl)),
      (proj2 (Hc "pass" "not_reviewed" eq_refl eq_refl)).
    rewrite !positive_vnat, !count_where_positive, !existsb_orb. by destruct x.
Qed.

(** ** Concrete instances *)
Definition sample_review : jsval :=
  VObj [("status" : jstr, vstr "pass"); ("reviewerRef" : jstr, vstr "ref:reviewer");
        ("evidence_ref_count" : jstr, vint 1); ("issue_codes" : jstr, VArr [])].

Definition sample_entry : jsval :=
  VObj [("phase_id" : jstr, vstr "phase-1"); ("scenarioId" : jstr, vstr "scenario-1");
        ("owner_ref" : jstr, vstr "ref:owner"); ("status" : jstr, vstr "pass");
        ("advisor_decision" : jstr, vstr "ship"); ("evidence_refs" : jstr, VArr [vstr "ref:e1"]);
        ("privacy_review" : jstr, sample_review); ("claim_review" : jstr, sample_review);
        ("rollback_ready" : jstr, VBool true); ("support_owner_ref" : jstr, vstr "ref:s");
        ("release_owner_ref" : jstr, vstr "ref:r"); ("signing_owner_ref" : jstr, vstr "ref:g");
        ("updated_at" : jstr, vstr "2026-01-01T00:00:00Z"); ("issue_codes" : jstr, VArr [vstr "code-1"])].

Definition sample_ledger_args : jsval :=
  VObj [("ledger_id" : jstr, vstr "ledger-1"); ("generated_at" : jstr, vstr "2026-01-01T00:00:00Z");
        ("phase_owners" : jstr, VArr [VObj [
           ("phase_id" : jstr, vstr "phase-1"); ("owner_ref" : jstr, vstr "ref:owner");
           ("support_owner_ref" : jstr, vstr "ref:s"); ("release_owner_ref" : jstr, vstr "ref:r");
           ("signing_owner_ref" : jstr, vstr "ref:g")]]);
        ("claim_boundary" : jstr, VObj [
           ("version_ref" : jstr, vstr "ref:v1"); ("allowed_claim_refs" : jstr, VArr []);
           ("disallowed_claim_refs" : jstr, VArr [])]);
        ("entries" : jstr, VArr [sample_entry])].

Definition sample_ledger : jsval :=
  Eval vm_compute in match createPublicLaunchEvidenceLedger sample_ledger_args with
                     | Ok l => l | Throw _ => VUndef end.

Lemma createPublicLaunchEvidenceLedger_idempotent_witness :
  createPublicLaunchEvidenceLedger sample_ledger = Ok sample_ledger /\
  vget (vget sample_ledger "summary") "advisor_decision" = vstr "ship".
Proof.
  split; [|vm_compute; reflexivity].
  apply (createPublicLaunchEvidenceLedger_idempotent sample_ledger_args). vm_compute. reflexivity.
Defined.

Lemma summarizePublicLaunchEvidence_correct_witness :
  exists entries,
    normalizePublicLaunchEntries (VArr [sample_entry]) = Ok entries /\
    vget (vget sample_ledger "summary") "total_entries" = vnat (length entries) /\
    (forall k, k ∈ PUBLIC_LAUNCH_STATUSES ->
       vget (vget (vget sample_ledger "summary") "status_counts") k
       = vnat (count_where (status_is k) entries)) /\
    (forall k, k ∈ PUBLIC_LAUNCH_ADVISOR_DECISIONS ->
       vget (vget (vget sample_ledger "summary") "advisor_decision_counts") k
       = vnat (count_where (decision_is k) entries)) /\
    vget (vget sample_ledger "summary") "advisor_decision" = VStr (advisor_decision_of entries).
Proof.
  apply (summarizePublicLaunchEvidence_correct (VArr [sample_entry])); vm_compute; reflexivity.
Defined.
