(* ===== verification/Dates.v ===== *)
(** * Dates

    [Date.parse] on the ECMAScript date-time format and [toISOString], as the
    packages use them for timestamps, expiry and schedules.  A time value is the
    number of milliseconds since 1970-01-01 UTC.  What a host does with any other
    text (local times, other formats, days past the end of a month) is the
    operation [legacy_parse] of the class [Host]. *)

From S2P Require Import Prelude JsValue.

Local Open Scope Z_scope.
Local Open Scope js_scope.

Class Host := {
  legacy_parse : jstr -> option Z
}.

(** Days since 1970-01-01 of a date of the proleptic Gregorian calendar. *)
Definition days_from_civil (y m d : Z) : Z :=
  let y' := if m <=? 2 then y - 1 else y in
  let era := y' / 400 in
  let yoe := y' - era * 400 in
  let mp := if 2 <? m then m - 3 else m + 9 in
  let doy := (153 * mp + 2) / 5 + d - 1 in
  let doe := yoe * 365 + yoe / 4 - yoe / 100 + doy in
  era * 146097 + doe - 719468.

Definition civil_from_days (days : Z) : Z * Z * Z :=
  let z := days + 719468 in
  let era := z / 146097 in
  let doe := z - era * 146097 in
  let yoe := (doe - doe / 1460 + doe / 36524 - doe / 146096) / 365 in
  let doy := doe - (365 * yoe + yoe / 4 - yoe / 100) in
  let mp := (5 * doy + 2) / 153 in
  let d := doy - (153 * mp + 2) / 5 + 1 in
  let m := if mp <? 10 then mp + 3 else mp - 9 in
  let y := yoe + era * 400 + (if m <=? 2 then 1 else 0) in
  (y, m, d).

Definition is_leap (y : Z) : bool :=
  ((y mod 4 =? 0) && negb (y mod 100 =? 0)) || (y mod 400 =? 0).

Definition days_in_month (y m : Z) : Z :=
  if (m =? 2) then (if is_leap y then 29 else 28)
  else if (m =? 4) || (m =? 6) || (m =? 9) || (m =? 11) then 30 else 31.

Definition MS_PER_DAY : Z := 86400000.

Definition time_value (y mo d h mi s ms : Z) : Z :=
  days_from_civil y mo d * MS_PER_DAY + h * 3600000 + mi * 60000 + s * 1000 + ms.

(** ** Reading *)
Fixpoint read_digits (n : nat) (acc : Z) (s : jstr) : option (Z * jstr) :=
  match n with
  | 0%nat => Some (acc, s)
  | S n' =>
      match s with
      | c :: s' => if is_digit c then read_digits n' (acc * 10 + (Z.of_N c - 48)) s' else None
      | [] => None
      end
  end.

Definition read_char (c : N) (s : jstr) : option jstr :=
  match s with x :: s' => if (x =? c)%N then Some s' else None | [] => None end.

(** The offset of a date-time from UTC in minutes: [Z] or [+HH:mm] or [-HH:mm]. *)
Definition read_offset (s : jstr) : option Z :=
  match s with
  | [c] => if (c =? 90)%N then Some 0 else None
  | c :: s' =>
      if (c =? 43)%N || (c =? 45)%N then
        '(h, s1) ← read_digits 2 0 s';
        s2 ← read_char 58 s1;
        '(m, s3) ← read_digits 2 0 s2;
        if bool_decide (s3 = []) && (h <? 24) && (m <? 60)
        then Some ((if (c =? 43)%N then 1 else -1) * (h * 60 + m)) else None
      else None
  | [] => None
  end.

(** [YYYY], or [+YYYYYY] or [-YYYYYY]; the year [-000000] is refused. *)
Definition read_year (s : jstr) : option (Z * jstr) :=
  match s with
  | c :: s' =>
      if (c =? 43)%N then read_digits 6 0 s'
      else if (c =? 45)%N then
        '(y, s1) ← read_digits 6 0 s';
        if y =? 0 then None else Some (- y, s1)
      else read_digits 4 0 s
  | [] => None
  end.

Definition read_date (s : jstr) : option (Z * Z * Z * jstr) :=
  '(y, s1) ← read_year s;
  match read_char 45 s1 with
  | None => Some (y, 1, 1, s1)
  | Some s2 =>
      '(m, s3) ← read_digits 2 0 s2;
      match read_char 45 s3 with
      | None => Some (y, m, 1, s3)
      | Some s4 => '(d, s5) ← read_digits 2 0 s4; Some (y, m, d, s5)
      end
  end.

(** [HH:mm], [HH:mm:ss] or [HH:mm:ss.sss]. *)
Definition read_time (s : jstr) : option (Z * Z * Z * Z * jstr) :=
  '(h, s1) ← read_digits 2 0 s;
  s2 ← read_char 58 s1;
  '(mi, s3) ← read_digits 2 0 s2;
  match read_char 58 s3 with
  | None => Some (h, mi, 0, 0, s3)
  | Some s4 =>
      '(sec, s5) ← read_digits 2 0 s4;
      match read_char 46 s5 with
      | None => Some (h, mi, sec, 0, s5)
      | Some s6 => '(ms, s7) ← read_digits 3 0 s6; Some (h, mi, sec, ms, s7)
      end
  end.

Definition valid_date (y m d : Z) : bool := (1 <=? m) && (m <=? 12) && (1 <=? d) && (d <=? days_in_month y m).

Definition valid_time (h mi s ms : Z) : bool :=
  (mi <? 60) && (s <? 60) && ((h <? 24) || ((h =? 24) && (mi =? 0) && (s =? 0) && (ms =? 0))).

(** The largest distance of a time value from 1970, in milliseconds. *)
Definition MAX_TIME : Z := 8640000000000000.

Definition time_clip (ms : Z) : option Z := if MAX_TIME <? Z.abs ms then None else Some ms.

(** A date, or a date-time with its offset. *)
Definition iso_ms (text : jstr) : option Z :=
  '(y, m, d, rest) ← read_date text;
  if negb (valid_date y m d) then None
  else match rest with
       | [] => time_clip (time_value y m d 0 0 0 0)
       | _ =>
           rest' ← read_char 84 rest;
           '(h, mi, s, ms, tail) ← read_time rest';
           offset ← read_offset tail;
           if valid_time h mi s ms then time_clip (time_value y m d h mi s ms - offset * 60000) else None
       end.

Section host.
Context {H : Host}.

(** [Date.parse(text)]; [None] is [NaN]. *)
Definition date_parse (text : jstr) : option Z :=
  match iso_ms text with Some ms => Some ms | None => legacy_parse text end.
End host.

(** ** Writing *)
Fixpoint pad (width : nat) (n : Z) : jstr :=
  match width with
  | 0%nat => []
  | S width' => pad width' (n / 10) ++ [Z.to_N (48 + n mod 10)]
  end.

Definition iso_year (y : Z) : jstr :=
  if (0 <=? y) && (y <=? 9999) then pad 4 y
  else (if y <? 0 then ("-" : jstr) else "+") +s+ pad 6 (Z.abs y).

Definition toISOString (ms : Z) : res jstr :=
  throw_if MAX_TIME <? Z.abs ms with RangeError "Invalid time value";
  let '(y, m, d) := civil_from_days (ms / MS_PER_DAY) in
  let t := ms mod MS_PER_DAY in
  Ok (iso_year y +s+ "-" +s+ pad 2 m +s+ "-" +s+ pad 2 d +s+ "T" +s+ pad 2 (t / 3600000) +s+ ":"
      +s+ pad 2 (t / 60000 mod 60) +s+ ":" +s+ pad 2 (t / 1000 mod 60) +s+ "." +s+ pad 3 (t mod 1000)
      +s+ "Z").

Section iso.
Context {H : Host}.

(** [new Date(text).toISOString()]. *)
Definition iso_of_text (text : jstr) : res jstr :=
  match date_parse text with
  | Some ms => toISOString ms
  | None => Throw (RangeError "Invalid time value")
  end.
End iso.

(** ** What is written is read back *)
Ltac div_lia := Z.to_euclidean_division_equations; lia.

Definition year_of_era (doe : Z) : Z := (doe - doe / 1460 + doe / 36524 - doe / 146096) / 365.

Lemma year_of_era_bounds doe : 0 <= doe < 146097 -> 0 <= year_of_era doe < 400.
Proof. unfold year_of_era. intros. div_lia. Qed.

Definition day_of_year (doe yoe : Z) : Z := doe - (365 * yoe + yoe / 4 - yoe / 100).

Lemma day_of_year_bounds doe :
  0 <= doe < 146097 -> 0 <= day_of_year doe (year_of_era doe) <= 365.
Proof.
  intros H. pose proof (year_of_era_bounds _ H). unfold day_of_year, year_of_era in *. div_lia.
Qed.

(** The last day of a year that begins in March exists in leap years only. *)
Lemma day_of_year_leap doe era :
  0 <= doe < 146097 -> day_of_year doe (year_of_era doe) = 365 ->
  is_leap (year_of_era doe + era * 400 + 1) = true.
Proof.
  intros H E. pose proof (year_of_era_bounds _ H). unfold is_leap.
  rewrite orb_true_iff, andb_true_iff, negb_true_iff, !Z.eqb_eq, Z.eqb_neq.
  unfold day_of_year, year_of_era in *. div_lia.
Qed.

Lemma civil_round_trip days y m d :
  civil_from_days days = (y, m, d) -> days_from_civil y m d = days /\ valid_date y m d = true.
Proof.
  unfold civil_from_days. cbn zeta. set (z := days + 719468). set (era := z / 146097).
  set (doe := z - era * 146097). fold (year_of_era doe). set (yoe := year_of_era doe).
  fold (day_of_year doe yoe). set (doy := day_of_year doe yoe).
  assert (0 <= doe < 146097) as Hd by (subst doe era; div_lia).
  pose proof (year_of_era_bounds _ Hd) as Hy. pose proof (day_of_year_bounds _ Hd) as Hb.
  pose proof (day_of_year_leap doe era Hd) as Hl. fold yoe in Hy, Hb, Hl. fold doy in Hb, Hl.
  set (mp := (5 * doy + 2) / 153). assert (0 <= mp <= 11) as Hm by (subst mp; div_lia).
  intros [= <- <- <-]. split.
  - unfold days_from_civil. cbn zeta.
    assert (doe = yoe * 365 + yoe / 4 - yoe / 100 + doy) as Ee by (subst doy; unfold day_of_year; lia).
    destruct (Z.ltb_spec mp 10).
    + destruct (Z.leb_spec (mp + 3) 2); [lia|]. destruct (Z.ltb_spec 2 (mp + 3)); [|lia].
      replace ((yoe + era * 400 + 0) / 400) with era by div_lia.
      replace (mp + 3 - 3) with mp by lia. replace (yoe + era * 400 + 0 - era * 400) with yoe by lia.
      subst doe z. lia.
    + destruct (Z.leb_spec (mp - 9) 2); [|lia]. destruct (Z.ltb_spec 2 (mp - 9)); [lia|].
      replace (yoe + era * 400 + 1 - 1) with (yoe + era * 400) by lia.
      replace ((yoe + era * 400) / 400) with era by div_lia.
      replace (mp - 9 + 9) with mp by lia. replace (yoe + era * 400 - era * 400) with yoe by lia.
      subst doe z. lia.
  - unfold valid_date. rewrite !andb_true_iff, !Z.leb_le. unfold days_in_month. revert Hl. clear -Hb Hm.
    intros Hl. subst mp. destruct (Z.ltb_spec ((5 * doy + 2) / 153) 10).
    + destruct (Z.leb_spec ((5 * doy + 2) / 153 + 3) 2); [lia|]. repeat case_match; div_lia.
    + destruct (Z.leb_spec ((5 * doy + 2) / 153 - 9) 2); [|lia].
      destruct (Z.eqb_spec ((5 * doy + 2) / 153 - 9) 2).
      * destruct (decide (doy = 365)) as [E|]; [rewrite (Hl E)|destruct (is_leap _)]; div_lia.
      * repeat case_match; div_lia.
Qed.

Lemma read_digits_snoc n acc s x c s' :
  read_digits n acc s = Some (x, c :: s') -> is_digit c = true ->
  read_digits (S n) acc s = Some (x * 10 + (Z.of_N c - 48), s').
Proof.
  intros H Hc. revert acc s H. induction n as [|n IH]; intros acc s H.
  - injection H as -> ->. simpl. by rewrite Hc.
  - destruct s as [|d s]; [done|]. cbn [read_digits] in H. cbn [read_digits].
    destruct (is_digit d); [|done]. apply (IH _ _ H).
Qed.

Lemma read_pad n x rest : 0 <= x < 10 ^ Z.of_nat n -> read_digits n 0 (pad n x ++ rest) = Some (x, rest).
Proof.
  revert x rest. induction n as [|n IH]; intros x rest Hx.
  - cbn [pad read_digits app]. do 2 f_equal. simpl in Hx. lia.
  - cbn [pad]. rewrite <- app_assoc. simpl app.
    rewrite (read_digits_snoc n 0 _ (x / 10) (Z.to_N (48 + x mod 10)) rest).
    + do 2 f_equal. rewrite Z2N.id by div_lia. div_lia.
    + apply IH. replace (Z.of_nat (S n)) with (Z.succ (Z.of_nat n)) in Hx by lia.
      rewrite Z.pow_succ_r in Hx by lia. split; [div_lia|]. apply Z.div_lt_upper_bound; lia.
    + unfold is_digit. rewrite andb_true_iff, !N.leb_le. div_lia.
Qed.

Lemma read_year_iso y rest : Z.abs y < 1000000 -> read_year (iso_year y ++ rest) = Some (y, rest).
Proof.
  intros Hy. unfold iso_year.
  destruct (Z.leb_spec 0 y), (Z.leb_spec y 9999); cbn [andb]; try lia.
  - pose proof (read_pad 4 y rest ltac:(lia)) as H'. revert H'. cbn [pad app].
    unfold read_year. set (c := Z.to_N (48 + y / 10 / 10 / 10 mod 10)).
    assert ((c =? 43)%N = false /\ (c =? 45)%N = false) as [-> ->].
    { rewrite !N.eqb_neq. subst c. div_lia. }
    done.
  - destruct (Z.ltb_spec y 0); [lia|]. unfold read_year. change (("+" : jstr) ++ ?r) with (43%N :: r).
    cbn [app N.eqb Pos.eqb]. rewrite read_pad by lia. do 2 f_equal. lia.
  - destruct (Z.ltb_spec y 0); [|lia]. unfold read_year. change (("-" : jstr) ++ ?r) with (45%N :: r).
    cbn [app N.eqb Pos.eqb]. rewrite read_pad by lia. simpl.
    destruct (Z.eqb_spec (Z.abs y) 0); [lia|]. do 2 f_equal. lia.
Qed.

Lemma civil_year_bound days y m d :
  civil_from_days days = (y, m, d) -> Z.abs days <= 100000000 -> Z.abs y < 1000000.
Proof.
  unfold civil_from_days. cbn zeta. set (doe := days + 719468 - (days + 719468) / 146097 * 146097).
  assert (0 <= doe < 146097) as Hd by (subst doe; div_lia).
  fold (year_of_era doe). pose proof (year_of_era_bounds _ Hd) as Hy. clearbody doe.
  intros [= <- _ _] Hb. case_match; div_lia.
Qed.

Lemma bind_some {A B} (a : A) (f : A -> option B) : Some a ≫= f = f a.
Proof. done. Qed.

Lemma read_char_hit c s : read_char c ([c] ++ s) = Some s.
Proof. unfold read_char. simpl. by rewrite N.eqb_refl. Qed.

(** Read the next padded number or separator. *)
Ltac read_step :=
  repeat first
    [ rewrite bind_some; cbv beta iota
    | rewrite read_pad by div_lia
    | rewrite read_char_hit; cbv beta iota ].

(** [Date.parse(new Date(ms).toISOString()) === ms]. *)
Lemma iso_round_trip ms text : toISOString ms = Ok text -> iso_ms text = Some ms.
Proof.
  unfold toISOString. destruct (Z.ltb_spec MAX_TIME (Z.abs ms)) as [|Hms]; [done|].
  destruct (civil_from_days (ms / MS_PER_DAY)) as [[y m] d] eqn:E. intros <-%Ok_inj.
  destruct (civil_round_trip _ _ _ _ E) as [Hdays Hv].
  assert (Z.abs y < 1000000) as Hy.
  { eapply civil_year_bound; [exact E|]. unfold MAX_TIME, MS_PER_DAY in *. div_lia. }
  assert (1 <= m <= 12 /\ 1 <= d <= 31) as [Hm Hd].
  { unfold valid_date, days_in_month in Hv. rewrite !andb_true_iff, !Z.leb_le in Hv.
    destruct Hv as [[[? ?] ?] ?]. repeat case_match; lia. }
  set (t := ms mod MS_PER_DAY). assert (0 <= t < 86400000) as Ht by (unfold t, MS_PER_DAY; div_lia).
  change (units_of_string "-") with [45%N]. change (units_of_string "T") with [84%N].
  change (units_of_string ":") with [58%N]. change (units_of_string ".") with [46%N].
  unfold iso_ms, read_date, read_time. rewrite read_year_iso by done. read_step.
  rewrite Hv. cbn [negb].
  lazymatch goal with |- context [match ?l with [] => _ | _ :: _ => ?e end] =>
    replace (match l with [] => _ | _ :: _ => e end) with e by done end. read_step.
  change (read_offset "Z") with (Some 0). rewrite bind_some.
  assert (valid_time (t / 3600000) (t / 60000 mod 60) (t / 1000 mod 60) (t mod 1000) = true) as ->.
  { unfold valid_time. rewrite !andb_true_iff, orb_true_iff, !Z.ltb_lt. div_lia. }
  assert (time_value y m d (t / 3600000) (t / 60000 mod 60) (t / 1000 mod 60) (t mod 1000) - 0 * 60000 = ms)
    as ->.
  { unfold time_value. rewrite Hdays. unfold t, MS_PER_DAY. div_lia. }
  unfold time_clip. by rewrite (proj2 (Z.ltb_ge _ _) Hms).
Qed.

(** A host that reads no other format. *)
#[export] Instance SampleHost : Host := { legacy_parse _ := None }.

Example iso_ms_epoch : iso_ms "1970-01-01T00:00:00.000Z" = Some 0.
Proof. reflexivity. Qed.

Example iso_ms_leap : iso_ms "2024-02-29T12:30:45.250+02:00" = Some 1709202645250.
Proof. vm_compute. reflexivity. Qed.

Example iso_round : toISOString 1709202645250 = Ok ("2024-02-29T10:30:45.250Z" : jstr).
Proof. vm_compute. reflexivity. Qed.
