(* ===== verification/VaultPublic.v ===== *)
(** * Public projections of the vault

    The sanitisers, commitments and hashes of [src/packages/vault/src/index.js]:
    what leaves the vault in events, receipts, records, tombstones and lifecycle
    logs.  [Locale] stands for [localeCompare], whose order depends on the host. *)

From S2P Require Import Prelude JsValue Regex Canonical Hashing Merkle Receipt PublicSafe Dates.

Class Locale := {
  locale_leb : jstr -> jstr -> bool
}.

(** ** Key names *)
Definition RECEIPT_PLAINTEXT_KEYS : list jstr :=
  ["content" : jstr; "plaintext" : jstr; "text" : jstr; "memory" : jstr; "prompt" : jstr;
   "response" : jstr].

Definition PUBLIC_PLAINTEXT_KEYS : list jstr :=
  ["body" : jstr; "content" : jstr; "context" : jstr; "contexttext" : jstr; "description" : jstr;
   "memory" : jstr; "memories" : jstr; "note" : jstr; "notes" : jstr; "plain" : jstr;
   "plaintext" : jstr; "prompt" : jstr; "raw" : jstr; "rawmemory" : jstr; "rawmemories" : jstr;
   "response" : jstr; "summary" : jstr; "text" : jstr].

Definition SAFE_METADATA_DIGEST_RE : re :=
  RAlt (mk_seq (ropt (rlit "sha256:")) (rrep 64 hex_class)) (mk_seq (rlit "hmac-sha256:") (rrep 64 hex_class)).

Definition SOURCE_REF_ROOT_RE : re := ROOT_RE.

(** [replace(/[^a-z0-9]/g, '')] after [toLowerCase()]. *)
Definition normalizedPublicKey (key : jstr) : jstr := List.filter is_lower_or_digit (to_lower key).

Definition isPlaintextLikeKey (key : jstr) : bool := mem_str (normalizedPublicKey key) PUBLIC_PLAINTEXT_KEYS.

Definition isSourceRefPlaintextLikeKey (key : jstr) : bool :=
  isPlaintextLikeKey key || (normalizedPublicKey key =s= "value").

(** [replace(/[^A-Za-z0-9]+/g, '_')]: a run of other characters becomes one
    underscore. *)
Definition is_alnum (c : N) : bool := is_lower_or_digit c || is_upper c.

Fixpoint collapse_from (in_run : bool) (s : jstr) : jstr :=
  match s with
  | [] => []
  | c :: s' =>
      if is_alnum c then c :: collapse_from false s'
      else if in_run then collapse_from true s' else 95%N :: collapse_from true s'
  end.

(** [replace(/^_+|_+$/g, '')]. *)
Fixpoint strip_leading (s : jstr) : jstr :=
  match s with c :: s' => if (c =? 95)%N then strip_leading s' else s | [] => [] end.

Definition strip_underscores (s : jstr) : jstr := reverse (strip_leading (reverse (strip_leading s))).

Definition isMetadataPrimitive (value : jsval) : bool :=
  match value with VNull | VStr _ | VNum _ | VBool _ => true | _ => false end.

Definition isSafeMetadataPrimitive (key : jstr) (value : jsval) : bool :=
  if isPlaintextLikeKey key then false
  else if ends_with "_count" key then is_finite_number value
  else match value with
       | VStr s => if ends_with "_commitment" key || ends_with "_hash" key
                   then re_full SAFE_METADATA_DIGEST_RE s else false
       | _ => false
       end.

(** ** [canonical]

    [None] is [undefined], which an array joins as the empty text and a template
    prints as a word. *)
Fixpoint stableStringify (value : jsval) : res (option jstr) :=
  match value with
  | VArr items =>
      let! parts := (fix go (items : list jsval) : res (list jstr) :=
         match items with
         | [] => Ok []
         | x :: items' =>
             let! t := stableStringify x in
             let! ts := go items' in Ok (default [] t :: ts)
         end) items in
      Ok (Some ("[" +s+ join "," parts +s+ "]"))
  | VObj fields | VInst _ fields =>
      let! members := canonical_members
        (sort_keys (map (λ kv : jstr * jsval,
           (kv.1, let! t := stableStringify kv.2 in Ok (default ("undefined" : jstr) t))) fields)) in
      Ok (Some ("{" +s+ join "," members +s+ "}"))
  | VMap _ | VSet _ => Ok (Some ("{}" : jstr))
  | VBytes _ bytes =>
      Ok (Some ("{" +s+ join "," (map (λ kn : jstr * jstr, json_quote kn.1 +s+ ":" +s+ kn.2)
             (sort_keys (imap (λ i n, (index_key i, units_of_string (pretty n))) bytes))) +s+ "}"))
  | _ => json_stringify value
  end.

(** The callers hash the text, and hashing [undefined] throws. *)
Definition canonical (value : jsval) : res jstr :=
  match canonicalize value with
  | Ok t => Ok t
  | Throw _ =>
      let! t := stableStringify value in
      match t with
      | Some text => Ok text
      | None => Throw (TypeError "The data argument must be of type string or an instance of Buffer")
      end
  end.

Section public.
Context {C : Crypto}.

Definition stripShaPrefix (value : jstr) : jstr :=
  if starts_with "sha256:" value then slice_from 7 value else value.

(** [asSha256]: when the value has no canonical text, [Hash.update] refuses it too. *)
Definition asSha256 (value : jsval) : res jstr :=
  match sha256Hex value with
  | Ok digest => Ok (if starts_with "sha256:" digest then digest else "sha256:" +s+ digest)
  | Throw _ => Throw (TypeError "The data argument must be of type string or an instance of Buffer")
  end.

(** [asSha256] of a text. *)
Definition sha_root (s : jstr) : jstr := "sha256:" +s+ sha256_text s.

Definition asHmacSha256 (key : list N) (value : jstr) : jstr :=
  stripShaPrefix (hmac_sha256 (HBytes key) (HText value)).

Definition privateCommitmentKey (key : jstr) : jstr :=
  "private_field_" +s+ slice_to 12 (sha256_text (normalizedPublicKey key)) +s+ "_commitment".

Definition metadataKeyStem (key : jstr) : jstr :=
  let stem := to_lower (strip_underscores (collapse_from false (snake_boundaries key))) in
  if stem =s= [] then "field_" +s+ slice_to 12 (sha256_text key) else stem.

Definition metadataCommitmentKey (key : jstr) : jstr := metadataKeyStem key +s+ "_commitment".

Definition commitMetadataValue (out : obj) (key : jstr) (value : jsval) : res obj :=
  let! text := if isMetadataPrimitive value then Ok (to_str value) else canonical value in
  Ok (fset out (metadataCommitmentKey key) (VStr (sha_root text))).

(** [Object.entries(value)]. *)
Definition entries (value : jsval) : list (jstr * jsval) := spread_of value.

Definition metadata_step (out : obj) (kv : jstr * jsval) : res obj :=
  let '(key, value) := kv in
  if is_undef value then Ok out
  else if isMetadataPrimitive value then
    if isSafeMetadataPrimitive key value then Ok (fset out key value)
    else commitMetadataValue out key value
  else if is_object value then commitMetadataValue out key value
  else Ok out.

Definition metadata (input : jsval) : res obj :=
  if is_object input then foldl_res metadata_step [] (entries input) else Ok [].

(** ** Source references

    [None] is [undefined]. *)
Fixpoint sanitizeSourceRefValue (value : jsval) : option jsval :=
  match value with
  | VUndef | VNull | VHole | VOpaque _ _ => None
  | VStr s => Some (VStr (sha_root s))
  | VNum _ | VBool _ => Some value
  | VArr items =>
      Some (VArr ((fix go (items : list jsval) : list jsval :=
         match items with
         | [] => []
         | x :: items' => match sanitizeSourceRefValue x with Some y => y :: go items' | None => go items' end
         end) items))
  | VObj fields | VInst _ fields =>
      let out := (fix go (out : obj) (fields : list (jstr * jsval)) : obj :=
         match fields with
         | [] => out
         | kv :: fields' =>
             let out' :=
               if isSourceRefPlaintextLikeKey kv.1 then
                 match kv.2 with
                 | VStr _ | VNum _ | VBool _ =>
                     fset out (privateCommitmentKey kv.1) (VStr (sha_root (to_str kv.2)))
                 | _ => out
                 end
               else if (kv.1 =s= "source_hash") && is_string kv.2
                       && re_full SOURCE_REF_ROOT_RE (str_of kv.2) then fset out kv.1 kv.2
               else match sanitizeSourceRefValue kv.2 with
                    | Some sanitized => fset out kv.1 sanitized
                    | None => out
                    end in
             go out' fields'
         end) [] fields in
      if bool_decide (out = []) then None else Some (VObj out)
  | VBytes _ bytes =>
      if bool_decide (bytes = []) then None
      else Some (VObj (imap (λ i n, (index_key i, VNum (NInt (Z.of_N n)))) bytes))
  | VMap _ | VSet _ => None
  end.

Definition sanitizeSourceRefs (refs : jsval) : list jsval :=
  match refs with
  | VArr items =>
      flat_map (λ ref, match ref with
                       | VStr s => [VObj [("source_hash" : jstr, VStr (sha_root s))]]
                       | _ => match sanitizeSourceRefValue ref with Some s => [s] | None => [] end
                       end) items
  | _ => []
  end.

(** ** Public values *)
Fixpoint sanitizePublicValue (value : jsval) : res jsval :=
  match value with
  | VArr items =>
      let! out := (fix go (items : list jsval) : res (list jsval) :=
         match items with
         | [] => Ok []
         | x :: items' => let! y := sanitizePublicValue x in let! ys := go items' in Ok (y :: ys)
         end) items in
      Ok (VArr out)
  | VObj fields | VInst _ fields =>
      let! out := (fix go (out : obj) (fields : list (jstr * jsval)) : res obj :=
         match fields with
         | [] => Ok out
         | kv :: fields' =>
             let! out' :=
               (if isPlaintextLikeKey kv.1 then Ok out
                else if kv.1 =s= "metadata" then
                  let! m := metadata kv.2 in Ok (fset out "metadata" (VObj m))
                else if (kv.1 =s= "source_refs") || (kv.1 =s= "sourceRefs") then
                  Ok (fset out "source_refs" (VArr (sanitizeSourceRefs kv.2)))
                else if is_undef kv.2 then Ok out
                else let! v := sanitizePublicValue kv.2 in Ok (fset out kv.1 v)) in
             go out' fields'
         end) [] fields in
      Ok (VObj out)
  | VMap _ | VSet _ => Ok (VObj [])
  | VBytes _ bytes => Ok (VObj (imap (λ i n, (index_key i, VNum (NInt (Z.of_N n)))) bytes))
  | _ => Ok value
  end.

(** [pruneUndefined]: own [undefined] properties of plain objects are dropped at
    every depth. *)
Fixpoint pruneUndefined (value : jsval) : jsval :=
  match value with
  | VArr items => VArr (map pruneUndefined items)
  | VObj fields =>
      VObj ((fix go (fields : list (jstr * jsval)) : list (jstr * jsval) :=
         match fields with
         | [] => []
         | kv :: fields' => if is_undef kv.2 then go fields' else (kv.1, pruneUndefined kv.2) :: go fields'
         end) fields)
  | _ => value
  end.

Definition prune_fields (fields : obj) : obj :=
  flat_map (λ kv : jstr * jsval, if is_undef kv.2 then [] else [(kv.1, pruneUndefined kv.2)]) fields.

Definition publicRecord (record : obj) : res obj :=
  let! v := sanitizePublicValue (VObj record) in Ok (own_fields (pruneUndefined v)).

Definition signerRef (signer : jsval) : jsval :=
  if is_object signer then
    pruneUndefined (VObj [("key_id" : jstr, vget signer "key_id" ?? vget signer "keyId");
                          ("alg" : jstr, vget signer "alg"); ("publicKey" : jstr, vget signer "publicKey")])
  else VUndef.

Definition signatureRef (signature : jsval) : jsval :=
  if is_object signature then
    pruneUndefined (VObj [("alg" : jstr, vget signature "alg"); ("value" : jstr, vget signature "value")])
  else VUndef.

Definition sortedStrings (values : list jstr) : list jstr := sort_strings values.

Definition sameStringSet (left right : list jstr) : bool :=
  bool_decide (sortedStrings left = sortedStrings right).

Definition computeSetRoot (values : list jstr) : jstr := ms_root (list_set values).

Definition ZERO_SET_ROOT : jstr := ms_root ms_empty.

Definition hashReceipt (receipt : jsval) : res jstr :=
  match receiptHash receipt with
  | Ok digest => Ok (if starts_with "sha256:" digest then digest else "sha256:" +s+ digest)
  | Throw _ => let! t := canonical receipt in Ok (sha_root t)
  end.

Definition computeReceiptLogRootFrom (receipts : list jsval) : res jstr :=
  let! hashes := map_res hashReceipt receipts in
  Ok (match hashes with [] => ZERO_SET_ROOT | _ => computeSetRoot hashes end).

(** [JSON.stringify(value).toLowerCase()] and the three markers. *)
Definition quote_colon : jstr := [34; 58]%N.

Definition PLAINTEXT_MARKERS : list jstr :=
  ["plaintext" : jstr; ("content" : jstr) ++ quote_colon; ("text" : jstr) ++ quote_colon].

Definition containsPlaintextMarker (value : jsval) : res bool :=
  let! t := json_stringify value in
  match t with
  | Some encoded => Ok (existsb (λ marker, includes_str marker (to_lower encoded)) PLAINTEXT_MARKERS)
  | None => Throw (TypeError "cannot read properties of undefined")
  end.

Definition refHash (value : jsval) : res jstr := let! t := canonical value in Ok (sha_root t).

(** ** Tombstones *)
Definition publicTombstone (tombstone : obj) : obj :=
  prune_fields [
    ("schema" : jstr, fget tombstone "schema" ?? vstr "enigma.deletion_tombstone.v1");
    ("memory_addr" : jstr, fget tombstone "memory_addr");
    ("operation" : jstr, fget tombstone "operation");
    ("successor_addr" : jstr, fget tombstone "successor_addr");
    ("tombstoned_at" : jstr, fget tombstone "tombstoned_at");
    ("reason_hash" : jstr, if truthy (fget tombstone "reason")
                           then VStr (sha_root (to_str (fget tombstone "reason"))) else VUndef)].

Section sorted.
Context {Loc : Locale}.

(** A stable sort by [String(a.memory_addr).localeCompare(String(b.memory_addr))]. *)
Fixpoint locale_insert (t : obj) (l : list obj) : list obj :=
  match l with
  | [] => [t]
  | u :: l' => if locale_leb (to_str (fget t "memory_addr")) (to_str (fget u "memory_addr"))
               then t :: l else u :: locale_insert t l'
  end.

Definition sort_by_address (l : list obj) : list obj := foldr locale_insert [] l.

Definition tombstoneRootItems (tombstones : list (jstr * obj)) : res (list jstr) :=
  map_res (λ t, let! text := canonical (VObj t) in Ok (sha_root text))
    (sort_by_address (map publicTombstone tombstones.*2)).
End sorted.

(** ** Receipts as public projections *)
Definition projectLifecycleReceipt (receipt : jsval) : res jsval :=
  if negb (is_object receipt) then Ok VUndef
  else
    let! receipt_hash := hashReceipt receipt in
    Ok (pruneUndefined (VObj [
      ("schema" : jstr, vstr "enigma.lifecycle_receipt_projection.v1");
      ("receipt_id" : jstr, vget receipt "receipt_id");
      ("receipt_hash" : jstr, VStr receipt_hash);
      ("event_hash" : jstr, vget receipt "event_hash");
      ("operation" : jstr, vget receipt "operation");
      ("tenant_id" : jstr, vget receipt "tenant_id");
      ("subject_id" : jstr, vget receipt "subject_id");
      ("memory_addr" : jstr, vget receipt "memory_addr");
      ("source_addr" : jstr, vget receipt "source_addr");
      ("policy_id" : jstr, vget receipt "policy_id");
      ("sequence" : jstr, vget receipt "sequence");
      ("previous_receipt_hash" : jstr, vget receipt "previous_receipt_hash");
      ("active_set_root" : jstr, vget receipt "active_set_root");
      ("receipt_log_root" : jstr, vget receipt "receipt_log_root");
      ("timestamp" : jstr, vget receipt "timestamp");
      ("signer" : jstr, signerRef (vget receipt "signer"));
      ("signature" : jstr, signatureRef (vget receipt "signature"))])).

Definition lifecycleStateForReceipt (receipt : jsval) : jstr :=
  if vget receipt "operation" === vstr "delete" then "tombstone"
  else if vget receipt "operation" === vstr "quarantine" then "quarantine"
  else "active".

Definition projectLifecycleReceiptRef (receipt : jsval) : res jsval :=
  if negb (is_object receipt) then Ok VUndef
  else
    let! receiptHash := hashReceipt receipt in
    Ok (pruneUndefined (VObj [
      ("sequence" : jstr, vget receipt "sequence");
      ("receipt_ref" : jstr, vget receipt "receipt_id" ?? VStr receiptHash);
      ("receipt_hash" : jstr, VStr receiptHash);
      ("previous_receipt_hash" : jstr, vget receipt "previous_receipt_hash");
      ("lifecycle_state" : jstr, VStr (lifecycleStateForReceipt receipt))])).
End public.

Section times.
Context {H : Host}.

(** [nowIso(now)]; [clock] is the text of the current time.  A [Date] argument is
    given as its ISO text. *)
Definition nowIso (clock : jstr) (now : jsval) : res jstr :=
  match now with VStr s => iso_of_text s | _ => Ok clock end.
End times.
