(* ===== verification/Vault.v ===== *)
(** * The vault

    The local memory vault of [src/packages/vault/src/index.js]: encrypted records
    under keyed addresses, an event log with a hash chain of signed receipts, the
    active, tombstone and quarantine sets with their Merkle roots, and the operations
    [remember], [recall], [updateMemory], [deleteMemory].  An operation mutates the
    vault and may throw after it has begun to, so it is a function
    from vaults to a result and a vault. *)

From S2P Require Import Prelude JsValue Regex Canonical Hashing Merkle Receipt PublicSafe Dates VaultPublic.

(** AES-256-GCM, base64, the passphrase derivation and key objects of [node:crypto],
    [JSON.parse] and [Number(text)].  [aead_seal key iv aad text] gives the base64 of
    the ciphertext and of the tag; [aead_open] gives [None] when Node throws. *)
Class Platform := {
  aead_seal : list N -> jstr -> jstr -> jstr -> jstr * jstr;
  aead_open : list N -> jstr -> jstr -> jstr -> jstr -> option jstr;
  b64_encode : list N -> jstr;
  b64_decode : jstr -> list N;
  derive_master : jstr -> list N -> list N;
  ed25519_from_seed : list N -> option (jstr * jstr);
  key_export : jsval -> option jstr;
  json_parse : jstr -> res jsval;
  string_number : jstr -> jsnum
}.

(** The random draws and clock readings of one call, in the order they are made. *)
Record draws := {
  d_uuid : nat -> jstr;
  d_bytes : nat -> list N;
  d_clock : jstr;
  d_pair : jstr * jstr
}.

(** ** State *)
Record memory := {
  m_fields : obj;
  m_plaintext : option jstr
}.

Record event_entry := {
  ee_event : jsval;
  ee_canonical : jstr;
  ee_hash : jstr
}.

Record roots := {
  active_set_root : jstr;
  quarantine_set_root : jstr;
  tombstone_set_root : jstr;
  receipt_log_root : jstr;
  lifecycle_root : jstr
}.

Record Vault := {
  v_info : obj;
  v_updated_at : jsval;
  v_vaultKey : list N;
  v_addressKey : list N;
  v_signingKeyPair : jsval;
  v_signer : jsval;
  v_memories : list (jstr * memory);
  v_events : list event_entry;
  v_receipts : list jsval;
  v_activeAddresses : list jstr;
  v_tombstones : list (jstr * obj);
  v_quarantineAddresses : list jstr;
  v_sequence : jsval;
  v_roots : roots;
  v_keyringType : jstr
}.

Definition with_memories (m : list (jstr * memory)) (v : Vault) : Vault :=
  {| v_info := v_info v; v_updated_at := v_updated_at v; v_vaultKey := v_vaultKey v;
     v_addressKey := v_addressKey v; v_signingKeyPair := v_signingKeyPair v; v_signer := v_signer v;
     v_memories := m; v_events := v_events v; v_receipts := v_receipts v;
     v_activeAddresses := v_activeAddresses v; v_tombstones := v_tombstones v;
     v_quarantineAddresses := v_quarantineAddresses v; v_sequence := v_sequence v;
     v_roots := v_roots v; v_keyringType := v_keyringType v |}.

Definition with_active (a : list jstr) (v : Vault) : Vault :=
  {| v_info := v_info v; v_updated_at := v_updated_at v; v_vaultKey := v_vaultKey v;
     v_addressKey := v_addressKey v; v_signingKeyPair := v_signingKeyPair v; v_signer := v_signer v;
     v_memories := v_memories v; v_events := v_events v; v_receipts := v_receipts v;
     v_activeAddresses := a; v_tombstones := v_tombstones v;
     v_quarantineAddresses := v_quarantineAddresses v; v_sequence := v_sequence v;
     v_roots := v_roots v; v_keyringType := v_keyringType v |}.

Definition with_tombstones (t : list (jstr * obj)) (v : Vault) : Vault :=
  {| v_info := v_info v; v_updated_at := v_updated_at v; v_vaultKey := v_vaultKey v;
     v_addressKey := v_addressKey v; v_signingKeyPair := v_signingKeyPair v; v_signer := v_signer v;
     v_memories := v_memories v; v_events := v_events v; v_receipts := v_receipts v;
     v_activeAddresses := v_activeAddresses v; v_tombstones := t;
     v_quarantineAddresses := v_quarantineAddresses v; v_sequence := v_sequence v;
     v_roots := v_roots v; v_keyringType := v_keyringType v |}.

Definition with_roots (r : roots) (v : Vault) : Vault :=
  {| v_info := v_info v; v_updated_at := v_updated_at v; v_vaultKey := v_vaultKey v;
     v_addressKey := v_addressKey v; v_signingKeyPair := v_signingKeyPair v; v_signer := v_signer v;
     v_memories := v_memories v; v_events := v_events v; v_receipts := v_receipts v;
     v_activeAddresses := v_activeAddresses v; v_tombstones := v_tombstones v;
     v_quarantineAddresses := v_quarantineAddresses v; v_sequence := v_sequence v;
     v_roots := r; v_keyringType := v_keyringType v |}.

(** The pushes at the end of [appendEvent]. *)
Definition with_event (e : event_entry) (receipt timestamp : jsval) (v : Vault) : Vault :=
  {| v_info := v_info v; v_updated_at := timestamp; v_vaultKey := v_vaultKey v;
     v_addressKey := v_addressKey v; v_signingKeyPair := v_signingKeyPair v; v_signer := v_signer v;
     v_memories := v_memories v; v_events := v_events v ++ [e];
     v_receipts := v_receipts v ++ [receipt];
     v_activeAddresses := v_activeAddresses v; v_tombstones := v_tombstones v;
     v_quarantineAddresses := v_quarantineAddresses v; v_sequence := vadd (v_sequence v) 1;
     v_roots := v_roots v; v_keyringType := v_keyringType v |}.

(** ** Computations on a vault that may throw *)
Definition VM (A : Type) : Type := Vault -> res A * Vault.

Definition vret {A} (a : A) : VM A := λ v, (Ok a, v).

Definition vlift {A} (m : res A) : VM A := λ v, (m, v).

Definition vread {A} (f : Vault -> A) : VM A := λ v, (Ok (f v), v).

Definition vmodify (f : Vault -> Vault) : VM unit := λ v, (Ok tt, f v).

Definition vbind {A B} (m : VM A) (k : A -> VM B) : VM B :=
  λ v, match m v with (Ok a, v') => k a v' | (Throw e, v') => (Throw e, v') end.

Notation "'do!' x ':=' m 'in' k" :=
  (vbind m (λ x, k)) (at level 10, x pattern, m at level 100, k at level 200,
   format "'[v' 'do!'  x  ':='  m  'in' '/' k ']'") : js_scope.

Notation "'fail_if' b 'with' e ; k" :=
  (if b then vlift (Throw e) else k) (at level 10, b at level 100, e at level 100,
   k at level 200, format "'[v' 'fail_if'  b  'with'  e ; '/' k ']'") : js_scope.

(** ** Maps from addresses *)
Section maps.
Context {A : Type}.

Fixpoint map_get (m : list (jstr * A)) (k : jstr) : option A :=
  match m with
  | [] => None
  | (k', a) :: m' => if k' =s= k then Some a else map_get m' k
  end.

Definition map_has (m : list (jstr * A)) (k : jstr) : bool := bool_decide (k ∈ m.*1).

(** [map.set(k, a)] keeps the place of a key that is already there. *)
Fixpoint map_set (m : list (jstr * A)) (k : jstr) (a : A) : list (jstr * A) :=
  match m with
  | [] => [(k, a)]
  | (k', a') :: m' => if k' =s= k then (k', a) :: m' else (k', a') :: map_set m' k a
  end.

Definition map_delete (m : list (jstr * A)) (k : jstr) : list (jstr * A) :=
  filter (λ ka : jstr * A, ka.1 <> k) m.
End maps.

Section vault.
Context {C : Crypto} {Hst : Host} {Loc : Locale} {P : Platform}.

Definition VAULT_SCHEMA : jstr := "enigma.vault.local.v1".
Definition EVENT_SCHEMA : jstr := "enigma.memory_event.v1".
Definition MEMORY_DOMAIN : jstr := "enigma.memory.v1".
Definition KEYRING_ENCRYPTED_TYPE : jstr := "local_secret_encrypted".
Definition KEYRING_PLAINTEXT_TYPE : jstr := "local_secret".

(** A property of the vault that no operation changes. *)
Definition info (v : Vault) (k : jstr) : jsval := fget (v_info v) k.

(** ** Roots *)
Definition quarantine_state (m : memory) : bool :=
  (fget (m_fields m) "state" === vstr "quarantine") || (fget (m_fields m) "state" === vstr "quarantined").

Definition quarantineAddresses (v : Vault) : list jstr :=
  sortedStrings (foldl (λ out am, if quarantine_state am.2 then set_add am.1 out else out)
                   (v_quarantineAddresses v) (v_memories v)).

Definition lifecycleRoots (v : Vault) : res roots :=
  let active := sortedStrings (v_activeAddresses v) in
  let quarantine := quarantineAddresses v in
  let! tombstones := tombstoneRootItems (v_tombstones v) in
  let activeSetRoot := computeSetRoot active in
  let quarantineSetRoot := computeSetRoot quarantine in
  let tombstoneSetRoot := computeSetRoot tombstones in
  let! receiptLogRoot := computeReceiptLogRootFrom (v_receipts v) in
  Ok {| active_set_root := activeSetRoot; quarantine_set_root := quarantineSetRoot;
        tombstone_set_root := tombstoneSetRoot; receipt_log_root := receiptLogRoot;
        lifecycle_root := computeSetRoot [activeSetRoot; quarantineSetRoot; tombstoneSetRoot;
                                          receiptLogRoot] |}.

(** [applyLifecycleRoots(vault)]. *)
Definition applyLifecycleRoots : VM unit :=
  do! v := vread (λ v, v) in
  do! r := vlift (lifecycleRoots v) in
  vmodify (with_roots r).

(** ** Events and receipts *)
Definition receiptArgs (v : Vault) (event : jsval) (eventHash previousReceiptHash : jstr)
    (activeSetRoot receiptLogRoot : jstr) : jsval :=
  pruneUndefined (VObj [
    ("event" : jstr, event);
    ("event_hash" : jstr, VStr eventHash);
    ("operation" : jstr, vget event "operation");
    ("tenant_id" : jstr, vget event "tenant_id");
    ("subject_id" : jstr, vget event "subject_id");
    ("memory_addr" : jstr, vget event "memory_addr");
    ("source_addr" : jstr, vget event "source_addr");
    ("provider" : jstr, vget event "provider");
    ("model" : jstr, vget event "model");
    ("policy_id" : jstr, vget event "policy_id");
    ("sequence" : jstr, vget event "sequence");
    ("previous_receipt_hash" : jstr, VStr previousReceiptHash);
    ("active_set_root" : jstr, VStr activeSetRoot);
    ("receipt_log_root" : jstr, VStr receiptLogRoot);
    ("timestamp" : jstr, vget event "timestamp");
    ("signer" : jstr, v_signer v);
    ("privateKey" : jstr, vget (v_signingKeyPair v) "privateKey")]).

Definition buildReceipt (clock : jstr) (v : Vault) (event : jsval) (eventHash previousReceiptHash : jstr)
    (activeSetRoot receiptLogRoot : jstr) : res jsval :=
  let! receipt := createReceipt clock
    (receiptArgs v event eventHash previousReceiptHash activeSetRoot receiptLogRoot) [] in
  let! marked := containsPlaintextMarker receipt in
  throw_if marked with PlainError "receipt must not contain plaintext memory content";
  Ok (pruneUndefined receipt).

(** The event that [appendEvent] builds from its [fields]. *)
Definition build_event (v : Vault) (uuid timestamp : jstr) (fields : obj) (meta : obj) : jsval :=
  pruneUndefined (VObj [
    ("schema" : jstr, VStr EVENT_SCHEMA);
    ("event_id" : jstr, VStr ("evt_" +s+ uuid));
    ("operation" : jstr, fget fields "operation");
    ("tenant_id" : jstr, fget fields "tenant_id" ?? info v "tenant_id");
    ("subject_id" : jstr, fget fields "subject_id" ?? info v "subject_id");
    ("actor_id" : jstr, fget fields "actor_id" ?? info v "actor_id");
    ("memory_addr" : jstr, fget fields "memory_addr");
    ("source_addr" : jstr, fget fields "source_addr");
    ("provider" : jstr, fget fields "provider");
    ("model" : jstr, fget fields "model");
    ("purpose" : jstr, fget fields "purpose");
    ("timestamp" : jstr, VStr timestamp);
    ("sequence" : jstr, v_sequence v);
    ("policy_id" : jstr, fget fields "policy_id" ?? info v "policy_id");
    ("decision" : jstr, fget fields "decision");
    ("metadata" : jstr, VObj meta)]).

(** The part of [appendEvent] before the pushes: nothing is mutated if it throws. *)
Definition next_receipt (clock uuid : jstr) (fields : obj) (v : Vault)
    : res (event_entry * jsval) :=
  let! timestamp := nowIso clock (fget fields "now") in
  let! meta := metadata (fget fields "metadata") in
  let event := build_event v uuid timestamp fields meta in
  let! eventCanonical := canonical event in
  let eventHash := sha_root eventCanonical in
  let! previousReceiptHash :=
    (match last (v_receipts v) with Some r => hashReceipt r | None => Ok GENESIS end) in
  let activeSetRoot := computeSetRoot (v_activeAddresses v) in
  let! priorReceiptLogRoot := computeReceiptLogRootFrom (v_receipts v) in
  let! receipt := buildReceipt clock v event eventHash previousReceiptHash activeSetRoot
                    priorReceiptLogRoot in
  Ok ({| ee_event := event; ee_canonical := eventCanonical; ee_hash := eventHash |}, receipt).

Definition appendEvent (clock uuid : jstr) (fields : obj) : VM (jsval * jsval) :=
  do! v := vread (λ v, v) in
  do! built := vlift (next_receipt clock uuid fields v) in
  do! _ := vmodify (with_event built.1 built.2 (vget (ee_event built.1) "timestamp")) in
  do! _ := applyLifecycleRoots in
  vret (ee_event built.1, built.2).

(** ** Addresses and encryption *)
Definition address_payload (subjectId memoryId : jsval) (contentHash : jstr) : jsval :=
  VObj [("domain" : jstr, VStr MEMORY_DOMAIN); ("subject_id" : jstr, subjectId);
        ("memory_id" : jstr, memoryId); ("content_hash" : jstr, VStr contentHash)].

Definition memoryAddress (v : Vault) (subjectId memoryId : jsval) (contentHash : jstr) : res jstr :=
  let key := VBytes [] (v_addressKey v) in
  let! payload := canonical (address_payload subjectId memoryId contentHash) in
  Ok match createMemoryAddress (VObj [
             ("vault_addr_key" : jstr, key); ("vaultAddressKey" : jstr, key); ("key" : jstr, key);
             ("value" : jstr, VStr payload);
             ("components" : jstr, address_payload subjectId memoryId contentHash);
             ("domain" : jstr, VStr MEMORY_DOMAIN); ("subject_id" : jstr, subjectId);
             ("subjectId" : jstr, subjectId); ("memory_id" : jstr, memoryId);
             ("memoryId" : jstr, memoryId); ("content_hash" : jstr, VStr contentHash);
             ("contentHash" : jstr, VStr contentHash)]) VUndef [] with
     | Ok (c :: addr) => c :: addr
     | _ => "mem:" +s+ asHmacSha256 (v_addressKey v) payload
     end.

Definition encryptContent (iv : list N) (v : Vault) (memoryAddr plaintext : jstr) : jsval :=
  let sealed := aead_seal (v_vaultKey v) (b64_encode iv) memoryAddr plaintext in
  VObj [("alg" : jstr, vstr "AES-256-GCM"); ("iv" : jstr, VStr (b64_encode iv));
        ("aad" : jstr, VStr memoryAddr); ("ciphertext" : jstr, VStr sealed.1);
        ("tag" : jstr, VStr sealed.2)].

(** [Buffer.from(value, ...)] needs a string. *)
Definition buffer_text (value : jsval) : res jstr :=
  match value with
  | VStr s => Ok s
  | _ => Throw (TypeError "The first argument must be of type string or an instance of Buffer")
  end.

(** [getPlaintextCache(record)]: an enumerable [plaintext] property is removed and
    not used. *)
Definition getPlaintextCache (m : memory) : option jstr * memory :=
  match m_plaintext m with
  | Some p => (Some p, m)
  | None => (None, {| m_fields := fdelete (m_fields m) "plaintext"; m_plaintext := None |})
  end.

Definition setPlaintextCache (m : memory) (plaintext : jstr) : memory :=
  {| m_fields := m_fields m; m_plaintext := Some plaintext |}.

(** [decryptContent(vault, record)] with the record it leaves behind. *)
Definition decryptContent (v : Vault) (record : memory) : res jstr * memory :=
  let '(cached, m) := getPlaintextCache record in
  match cached with
  | Some p => (Ok p, m)
  | None =>
      let encrypted := fget (m_fields m) "content_ciphertext" in
      let opened :=
        let! iv0 := getx encrypted "iv" in
        let! iv := buffer_text iv0 in
        let! aad := buffer_text (vget encrypted "aad" ?? fget (m_fields m) "memory_addr") in
        let! tag := buffer_text (vget encrypted "tag") in
        let! ciphertext := buffer_text (vget encrypted "ciphertext") in
        match aead_open (v_vaultKey v) iv aad ciphertext tag with
        | Some text => Ok text
        | None => Throw (PlainError "Unsupported state or unable to authenticate data")
        end in
      match opened with
      | Ok text => (Ok text, setPlaintextCache m text)
      | Throw e => (Throw e, m)
      end
  end.

(** ** [remember] *)

(** [Number(value)]. *)
Definition to_number (value : jsval) : res jsnum :=
  match value with
  | VNum n => Ok n
  | VBool b => Ok (NInt (if b then 1 else 0))
  | VNull => Ok (NInt 0)
  | VUndef | VHole => Ok NNaN
  | VOpaque OSymbol _ => Throw (TypeError "Cannot convert a Symbol value to a number")
  | VOpaque OFunction _ => Ok NNaN
  | VOpaque OBigint t => Ok (string_number t)
  | _ => Ok (string_number (to_str value))
  end.

Definition normalizeImportance (value : jsval) : res jsval :=
  if is_nullish value then Ok VUndef
  else
    let! num := to_number value in
    if negb (num_is_finite num) then Ok VUndef
    else Ok (VNum (if num_ltb num (NInt 0) || num_seq num (NInt 0) then NInt 0
                   else if num_ltb (NInt 1) num then NInt 1 else num)).

Definition content_commitment (v : Vault) (contentHash : jstr) : jsval :=
  VStr ("hmac-sha256:" +s+ asHmacSha256 (v_addressKey v) contentHash).

Definition purpose_tags (args : obj) : jsval :=
  let tags := fget args "purpose_tags" ?? fget args "purposeTags" in
  if is_array tags then tags else VArr [].

Definition set_field (k : jstr) (value : jsval) (m : memory) : memory :=
  {| m_fields := fset (m_fields m) k value; m_plaintext := m_plaintext m |}.

Definition put_memory (addr : jstr) (m : memory) (v : Vault) : Vault :=
  with_memories (map_set (v_memories v) addr m) v.

Definition tombstoned (v : Vault) (addr : jstr) : bool := map_has (v_tombstones v) addr.

Definition is_active (v : Vault) (addr : jstr) : bool := mem_str addr (v_activeAddresses v).

(** The record [remember] stores. *)
Definition memory_record (d : draws) (v : Vault) (args : obj) (plaintext : jsval) (memoryId subjectId : jsval)
    (createdAt contentHash memoryAddr : jstr) : res obj :=
  let! importance := normalizeImportance (fget args "importance") in
  let! meta := metadata (fget args "metadata") in
  Ok (prune_fields [
    ("schema" : jstr, vstr "enigma.memory_object.v1");
    ("memory_id" : jstr, memoryId);
    ("memory_addr" : jstr, VStr memoryAddr);
    ("subject_id" : jstr, subjectId);
    ("kind" : jstr, fget args "kind" ?? vstr "fact");
    ("content_ciphertext" : jstr, encryptContent (d_bytes d 0) v memoryAddr (to_str plaintext));
    ("content_hash" : jstr, VStr contentHash);
    ("content_commitment" : jstr, content_commitment v contentHash);
    ("source_refs" : jstr, VArr (sanitizeSourceRefs (fget args "source_refs" ?? fget args "sourceRefs")));
    ("confidence" : jstr, fget args "confidence" ?? vstr "user_confirmed");
    ("sensitivity" : jstr, fget args "sensitivity" ?? vstr "normal");
    ("purpose_tags" : jstr, purpose_tags args);
    ("retention" : jstr, fget args "retention" ?? vstr "durable");
    ("importance" : jstr, importance);
    ("state" : jstr, vstr "active");
    ("metadata" : jstr, VObj meta);
    ("created_at" : jstr, VStr createdAt);
    ("updated_at" : jstr, VStr createdAt)]).

(** A memory under its address, its event and its receipt. *)
Record op_result := {
  o_memory : obj;
  o_memory_addr : jstr;
  o_content : option jstr;
  o_tombstone : obj;
  o_event : jsval;
  o_receipt : jsval
}.

Definition remember (d : draws) (args : obj) : VM op_result :=
  do! v := vread (λ v, v) in
  let plaintext := fget args "content" ?? fget args "text" ?? fget args "plaintext" in
  fail_if is_nullish plaintext with PlainError "remember requires content";
  let memoryId := fget args "memory_id" ?? fget args "memoryId" ?? VStr ("mem_" +s+ d_uuid d 0) in
  let subjectId := fget args "subject_id" ?? fget args "subjectId" ?? info v "subject_id" in
  do! createdAt := vlift (nowIso (d_clock d) (fget args "now")) in
  let contentHash := sha_root (to_str plaintext) in
  do! memoryAddr := vlift (memoryAddress v subjectId memoryId contentHash) in
  fail_if tombstoned v memoryAddr with PlainError ("memory address is tombstoned: " +s+ memoryAddr);
  do! record := vlift (memory_record d v args plaintext memoryId subjectId createdAt contentHash
                         memoryAddr) in
  do! _ := vmodify (put_memory memoryAddr {| m_fields := record; m_plaintext := None |}) in
  do! _ := vmodify (λ v, with_active (set_add memoryAddr (v_activeAddresses v)) v) in
  do! er := appendEvent (d_clock d) (d_uuid d 1) [
    ("operation" : jstr, vstr "create"); ("memory_addr" : jstr, VStr memoryAddr);
    ("subject_id" : jstr, subjectId);
    ("actor_id" : jstr, fget args "actor_id" ?? fget args "actorId");
    ("policy_id" : jstr, fget args "policy_id" ?? fget args "policyId");
    ("now" : jstr, fget args "now");
    ("metadata" : jstr, VObj (prune_fields [
       ("memory_id" : jstr, memoryId); ("kind" : jstr, fget record "kind");
       ("sensitivity" : jstr, fget record "sensitivity");
       ("importance" : jstr, fget record "importance");
       ("content_commitment" : jstr, fget record "content_commitment")]))] in
  do! public := vlift (publicRecord record) in
  vret {| o_memory := public; o_memory_addr := memoryAddr; o_content := None; o_tombstone := [];
          o_event := er.1; o_receipt := er.2 |}.

(** ** [recall] *)
Definition not_active (addr : jsval) : exn := PlainError ("memory is not active: " +s+ to_str addr).

(** What [recall] logs. *)
Definition recall_event (args : obj) (addr : jstr) (record : memory) : obj :=
  [("operation" : jstr, fget args "operation" ?? vstr "read"); ("memory_addr" : jstr, VStr addr);
   ("provider" : jstr, fget args "provider"); ("model" : jstr, fget args "model");
   ("purpose" : jstr, fget args "purpose");
   ("actor_id" : jstr, fget args "actor_id" ?? fget args "actorId");
   ("policy_id" : jstr, fget args "policy_id" ?? fget args "policyId");
   ("now" : jstr, fget args "now");
   ("metadata" : jstr, VObj [("kind" : jstr, fget (m_fields record) "kind");
                             ("sensitivity" : jstr, fget (m_fields record) "sensitivity")])].

Definition recall (d : draws) (args : obj) : VM op_result :=
  let memoryAddr := fget args "memory_addr" ?? fget args "memoryAddr" in
  fail_if negb (truthy memoryAddr) with PlainError "recall requires memory_addr";
  do! v := vread (λ v, v) in
  fail_if is_string memoryAddr && tombstoned v (str_of memoryAddr)
    with PlainError ("memory is tombstoned: " +s+ to_str memoryAddr);
  fail_if negb (is_string memoryAddr && is_active v (str_of memoryAddr)) with not_active memoryAddr;
  let addr := str_of memoryAddr in
  match map_get (v_memories v) addr with
  | None => vlift (Throw (not_active memoryAddr))
  | Some record =>
      fail_if fget (m_fields record) "state" !== vstr "active" with not_active memoryAddr;
      let '(decrypted, record') := decryptContent v record in
      do! _ := vmodify (put_memory addr record') in
      do! plaintext := vlift decrypted in
      do! er := appendEvent (d_clock d) (d_uuid d 0) (recall_event args addr record') in
      do! public := vlift (publicRecord (m_fields record')) in
      vret {| o_memory := fset public "content" (VStr plaintext); o_memory_addr := addr;
              o_content := Some plaintext; o_tombstone := []; o_event := er.1; o_receipt := er.2 |}
  end.

(** ** [updateMemory] *)
Definition updateMemory (d : draws) (args : obj) : VM op_result :=
  let oldAddr := fget args "memory_addr" ?? fget args "memoryAddr" in
  let plaintext := fget args "content" ?? fget args "text" ?? fget args "plaintext" in
  fail_if negb (truthy oldAddr) with PlainError "updateMemory requires memory_addr";
  fail_if is_nullish plaintext with PlainError "updateMemory requires content";
  do! v := vread (λ v, v) in
  let old := str_of oldAddr in
  fail_if (is_string oldAddr && tombstoned v old) || negb (is_string oldAddr && is_active v old)
    with not_active oldAddr;
  match map_get (v_memories v) old with
  | None => vlift (Throw (PlainError ("unknown memory: " +s+ old)))
  | Some oldRecord0 =>
      let oldRecord1 := set_field "state" (vstr "superseded") oldRecord0 in
      do! _ := vmodify (put_memory old oldRecord1) in
      do! stamp := vlift (nowIso (d_clock d) (fget args "now")) in
      let oldRecord := set_field "updated_at" (VStr stamp) oldRecord1 in
      do! _ := vmodify (put_memory old oldRecord) in
      do! _ := vmodify (λ v, with_active (set_delete old (v_activeAddresses v)) v) in
      let contentHash := sha_root (to_str plaintext) in
      let memoryId := fget (m_fields oldRecord) "memory_id" in
      do! newAddr := vlift (memoryAddress v (fget (m_fields oldRecord) "subject_id") memoryId
                              contentHash) in
      do! updatedAt := vlift (nowIso (d_clock d) (fget args "now")) in
      do! public := vlift (publicRecord (m_fields oldRecord)) in
      let newFields := prune_fields (spread public [
        ("memory_addr" : jstr, VStr newAddr);
        ("content_ciphertext" : jstr, encryptContent (d_bytes d 0) v newAddr (to_str plaintext));
        ("content_hash" : jstr, VStr contentHash);
        ("content_commitment" : jstr, content_commitment v contentHash);
        ("state" : jstr, vstr "active"); ("updated_at" : jstr, VStr updatedAt)]) in
      do! _ := vmodify (put_memory newAddr {| m_fields := newFields; m_plaintext := None |}) in
      do! _ := vmodify (λ v, with_active (set_add newAddr (v_activeAddresses v)) v) in
      let tombstone := [
        ("schema" : jstr, vstr "enigma.deletion_tombstone.v1"); ("memory_addr" : jstr, VStr old);
        ("operation" : jstr, vstr "update"); ("successor_addr" : jstr, VStr newAddr);
        ("tombstoned_at" : jstr, VStr updatedAt);
        ("reason" : jstr, fget args "reason" ?? vstr "updated")] in
      do! _ := vmodify (λ v, with_tombstones (map_set (v_tombstones v) old tombstone) v) in
      do! er := appendEvent (d_clock d) (d_uuid d 0) [
        ("operation" : jstr, vstr "update"); ("memory_addr" : jstr, VStr newAddr);
        ("source_addr" : jstr, VStr old);
        ("actor_id" : jstr, fget args "actor_id" ?? fget args "actorId");
        ("policy_id" : jstr, fget args "policy_id" ?? fget args "policyId");
        ("now" : jstr, fget args "now");
        ("metadata" : jstr, VObj [
           ("memory_id" : jstr, memoryId); ("old_memory_addr" : jstr, VStr old);
           ("content_commitment" : jstr, fget newFields "content_commitment")])] in
      do! publicNew := vlift (publicRecord newFields) in
      vret {| o_memory := publicNew; o_memory_addr := newAddr; o_content := None;
              o_tombstone := tombstone; o_event := er.1; o_receipt := er.2 |}
  end.

(** ** [deleteMemory] *)

(** The record of a deleted memory is marked and its plaintext cache dropped. *)
Definition delete_record (d : draws) (args : obj) (addr : jstr) (v : Vault) : VM unit :=
  match map_get (v_memories v) addr with
  | None => vret tt
  | Some record =>
      do! _ := vmodify (put_memory addr (set_field "state" (vstr "tombstoned") record)) in
      do! stamp := vlift (nowIso (d_clock d) (fget args "now")) in
      vmodify (put_memory addr
        {| m_fields := fdelete (fset (fset (m_fields record) "state" (vstr "tombstoned"))
                                  "updated_at" (VStr stamp)) "plaintext";
           m_plaintext := None |})
  end.

Definition deleteMemory (d : draws) (args : obj) : VM op_result :=
  let memoryAddr := fget args "memory_addr" ?? fget args "memoryAddr" in
  fail_if negb (truthy memoryAddr) with PlainError "deleteMemory requires memory_addr";
  do! v := vread (λ v, v) in
  let addr := str_of memoryAddr in
  fail_if is_string memoryAddr && tombstoned v addr
    with PlainError ("memory is already tombstoned: " +s+ to_str memoryAddr);
  fail_if negb (is_string memoryAddr && is_active v addr) with not_active memoryAddr;
  do! _ := delete_record d args addr v in
  do! _ := vmodify (λ v, with_active (set_delete addr (v_activeAddresses v)) v) in
  do! stamp := vlift (nowIso (d_clock d) (fget args "now")) in
  let reason := fget args "reason" ?? vstr "user_deleted" in
  let tombstone := [
    ("schema" : jstr, vstr "enigma.deletion_tombstone.v1"); ("memory_addr" : jstr, VStr addr);
    ("operation" : jstr, vstr "delete"); ("tombstoned_at" : jstr, VStr stamp);
    ("reason" : jstr, reason)] in
  do! _ := vmodify (λ v, with_tombstones (map_set (v_tombstones v) addr tombstone) v) in
  do! er := appendEvent (d_clock d) (d_uuid d 0) [
    ("operation" : jstr, vstr "delete"); ("memory_addr" : jstr, VStr addr);
    ("actor_id" : jstr, fget args "actor_id" ?? fget args "actorId");
    ("policy_id" : jstr, fget args "policy_id" ?? fget args "policyId");
    ("now" : jstr, fget args "now");
    ("metadata" : jstr, VObj [("reason" : jstr, reason)])] in
  vret {| o_memory := []; o_memory_addr := addr; o_content := None; o_tombstone := tombstone;
          o_event := er.1; o_receipt := er.2 |}.
End vault.
