(* ===== verification/Samples.v ===== *)
(** * A concrete platform

    Instances of the classes that stand for the host of the program, and the draws of a
    call, at which the theorems are applied to concrete inputs. *)

From S2P Require Import Prelude JsValue Regex Canonical Hashing Dates VaultPublic Vault.

(** A text is its own base64, a sealed text is the text with a checksum over key,
    nonce, address and text, and the seed of a key is the key. *)
#[export] Instance SampleLocale : Locale := { locale_leb a b := negb (str_ltb b a) }.

#[export] Instance SamplePlatform : Platform := {
  aead_seal key iv aad text := (text, sample_tag (key ++ iv) (aad ++ text));
  aead_open key iv aad ciphertext tag :=
    if tag =s= sample_tag (key ++ iv) (aad ++ ciphertext) then Some ciphertext else None;
  b64_encode bytes := bytes;
  b64_decode s := s;
  derive_master passphrase salt := take 128 (passphrase ++ salt ++ replicate 128 0%N);
  ed25519_from_seed seed := Some (seed, seed);
  key_export key := Some (to_str key);
  json_parse _ := Throw (PlainError "unsupported");
  string_number _ := NNaN
}.

Definition sample_draws (n : nat) : draws :=
  {| d_uuid i := nat_str n +s+ "-" +s+ nat_str i; d_bytes i := replicate 32 (N.of_nat i);
     d_clock := "2025-01-01T00:00:00.000Z"; d_pair := ("key" : jstr, "key" : jstr) |}.
