(* ===== verification/MapFacts.v ===== *)
(** * Facts on insertion-ordered maps

    How reads, writes and deletions of the maps of [Vault] act on each other and on the
    keys. *)

From S2P Require Import Prelude JsValue Vault.

Lemma map_get_set {A} (m : list (jstr * A)) k a k' :
  map_get (map_set m k a) k' = if k =s= k' then Some a else map_get m k'.
Proof.
  induction m as [|[k0 a0] m IH]; cbn [map_set map_get]; [done|].
  destruct (k0 =s= k) eqn:E; cbn [map_get].
  - apply str_eqb_eq in E as ->. by destruct (k =s= k').
  - rewrite IH. destruct (k =s= k') eqn:E'; [|done]. apply str_eqb_eq in E' as <-. by rewrite E.
Qed.

Lemma map_set_keys {A} (m : list (jstr * A)) k a : (map_set m k a).*1 = set_add k m.*1.
Proof.
  induction m as [|[k0 a0] m IH]; cbn [map_set]; [done|]. unfold set_add. destruct (k0 =s= k) eqn:E; csimpl.
  - apply str_eqb_eq in E as ->. by rewrite (proj2 (mem_str_true _ _)) by (by left).
  - apply str_eqb_neq in E. rewrite IH. unfold set_add. destruct (mem_str k m.*1) eqn:Em.
    + rewrite (proj2 (mem_str_true _ _)); [done|]. right. by apply mem_str_true.
    + rewrite (proj2 (mem_str_false _ _)); [done|]. apply not_elem_of_cons. by split; [|apply mem_str_false].
Qed.

Lemma map_delete_absent {A} (m : list (jstr * A)) k : k ∉ m.*1 -> map_delete m k = m.
Proof.
  unfold map_delete. induction m as [|[k0 a0] m IH]; [done|]. csimpl. intros [Hk Hm]%not_elem_of_cons.
  rewrite filter_cons_True by (cbn; congruence). by rewrite IH.
Qed.

Lemma map_get_elem {A} (m : list (jstr * A)) k a : NoDup m.*1 -> (k, a) ∈ m <-> map_get m k = Some a.
Proof.
  induction m as [|[k0 a0] m IH]; [intros _; split; [by intros ?%elem_of_nil|done]|]. csimpl.
  intros [Hn Hd]%NoDup_cons. cbn [map_get]. rewrite elem_of_cons. destruct (k0 =s= k) eqn:E.
  - apply str_eqb_eq in E as ->. split; [intros [[= ->]|Hin]; [done|]|intros [= ->]; by left].
    destruct Hn. apply list_elem_of_fmap. by exists (k, a).
  - apply str_eqb_neq in E. rewrite <- IH by done. naive_solver.
Qed.
