(* ===== verification/VaultBundle.v ===== *)
(** * Vault keys, summaries, export and import

    [createVault], the passphrase keyring, the public lifecycle summaries,
    [exportBundle] and [importBundle] of [src/packages/vault/src/index.js].  The
    import replays the receipts ([deriveReceiptLifecycle]) and refuses a bundle whose
    declared state differs from the replay.  A bundle is the value at the time of the
    call. *)

From S2P Require Import Prelude JsValue Regex Canonical Hashing Merkle Receipt PublicSafe Dates VaultPublic Vault.

Section keys.
Context {C : Crypto} {Hst : Host} {Loc : Locale} {P : Platform}.

Definition DERIVED_KEY_LENGTH : nat := 128.
Definition SALT_LENGTH : nat := 16.
Definition IV_LENGTH : nat := 12.

(** [value !== undefined && value !== null && String(value).length > 0]. *)
Definition has_passphrase (passphrase : jsval) : bool :=
  negb (is_nullish passphrase) && negb (to_str passphrase =s= []).

Definition keyBytes (random : list N) (key : jsval) (label : jstr) : res (list N) :=
  match key with
  | VBytes _ b =>
      throw_if negb (length b =? 32)%nat with PlainError (label +s+ " must be 32 bytes"); Ok b
  | VStr s =>
      throw_if negb (length (b64_decode s) =? 32)%nat
        with PlainError (label +s+ " must decode to 32 bytes");
      Ok (b64_decode s)
  | VUndef | VNull | VHole => Ok random
  | _ => Throw (PlainError (label +s+ " must be a Buffer or base64 string"))
  end.

(** PKCS#8 PrivateKeyInfo for Ed25519. *)
Definition buildEd25519Pkcs8 (seed : list N) : res (list N) :=
  throw_if negb (length seed =? 32)%nat with PlainError "Ed25519 seed must be 32 bytes";
  Ok ([48; 46; 2; 1; 0; 48; 5; 6; 3; 43; 101; 112; 4; 34; 4; 32]%N ++ seed).

(** A salt is base64 text or bytes. *)
Definition salt_bytes (salt : jsval) : res (list N) :=
  match salt with
  | VStr s => Ok (b64_decode s)
  | VBytes _ b => Ok b
  | _ => Throw (TypeError "The first argument must be of type string or an instance of Buffer")
  end.

Definition deriveMasterKeyFromPassphrase (passphrase salt : jsval) : res (list N) :=
  let! saltBuf := salt_bytes salt in
  throw_if (length saltBuf <? 8)%nat with PlainError "Salt must be at least 8 bytes";
  Ok (derive_master (to_str passphrase) saltBuf).

Record derived_keys := {
  dk_kek : list N;
  dk_vaultKey : list N;
  dk_addressKey : list N;
  dk_signingSeed : list N
}.

Definition deriveKeysFromPassphrase (passphrase salt : jsval) : res derived_keys :=
  let! master := deriveMasterKeyFromPassphrase passphrase salt in
  Ok {| dk_kek := take 32 master; dk_vaultKey := take 32 (drop 32 master);
        dk_addressKey := take 32 (drop 64 master); dk_signingSeed := take 32 (drop 96 master) |}.

Definition encryptKeyring (iv : list N) (plaintextKeyring : obj) (kek : list N) : res obj :=
  let! text := json_stringify (VObj plaintextKeyring) in
  let sealed := aead_seal kek (b64_encode iv) [] (default [] text) in
  Ok [("iv" : jstr, VStr (b64_encode iv)); ("tag" : jstr, VStr sealed.2);
      ("ciphertext" : jstr, VStr sealed.1)].

Definition decryptKeyring (keyring passphrase : jsval) : res jsval :=
  throw_if vget keyring "type" !== VStr KEYRING_ENCRYPTED_TYPE with PlainError "Keyring is not encrypted";
  throw_if negb (has_passphrase passphrase) with PlainError "Encrypted keyring requires passphrase";
  let! keys := deriveKeysFromPassphrase passphrase (vget keyring "salt") in
  let! iv := buffer_text (vget keyring "iv") in
  let! tag := buffer_text (vget keyring "tag") in
  let! ciphertext := buffer_text (vget keyring "ciphertext") in
  match aead_open (dk_kek keys) iv [] ciphertext tag with
  | Some text => json_parse text
  | None => Throw (PlainError "Unsupported state or unable to authenticate data")
  end.

(** [signingPair(seed)]: a pair from the seed, or a fresh one. *)
Definition signingPair (d : draws) (seed : option (list N)) : jsval :=
  let fresh := VObj (generateSigningKeyPair (d_pair d).1 (d_pair d).2 []) in
  match seed with
  | Some s =>
      match buildEd25519Pkcs8 s with
      | Ok der =>
          match ed25519_from_seed der with
          | Some (publicPem, privatePem) =>
              VObj [("key_id" : jstr, VStr ("ed25519:" +s+ slice_to 32 (sha256_text publicPem)));
                    ("publicKey" : jstr, VInst publicPem []); ("privateKey" : jstr, VInst privatePem [])]
          | None => fresh
          end
      | Throw _ => fresh
      end
  | None => fresh
  end.

Definition signerFor (d : draws) (pair : jsval) : jsval :=
  VObj [("key_id" : jstr, vget pair "key_id" ?? vget pair "keyId"
                          ?? VStr ("local-ed25519-" +s+ d_uuid d 2));
        ("alg" : jstr, vstr "Ed25519")].

(** The text of a key: a PEM string as it is, a key object exported. *)
Definition export_key (key : jsval) : jsval :=
  match key with
  | VStr _ => key
  | VInst _ _ => match key_export key with Some pem => VStr pem | None => VUndef end
  | _ => VUndef
  end.

Definition exportPublicKey (pair : jsval) : jsval := export_key (vget pair "publicKey").

Definition exportPrivateKey (pair : jsval) : jsval := export_key (vget pair "privateKey").

(** ** [createVault] *)
Definition empty_roots : roots :=
  {| active_set_root := ZERO_SET_ROOT; quarantine_set_root := ZERO_SET_ROOT;
     tombstone_set_root := ZERO_SET_ROOT; receipt_log_root := ZERO_SET_ROOT;
     lifecycle_root := ZERO_SET_ROOT |}.

(** The keys of a new vault: derived from the passphrase, or given or random. *)
Definition vault_keys (d : draws) (args : obj) : res (list N * list N * option (list N) * jstr) :=
  let passphrase := fget args "passphrase" in
  let salt := fget args "salt" ?? VStr (b64_encode (d_bytes d 0)) in
  if has_passphrase passphrase then
    let! derived := deriveKeysFromPassphrase passphrase salt in
    Ok (dk_vaultKey derived, dk_addressKey derived, Some (dk_signingSeed derived), KEYRING_ENCRYPTED_TYPE)
  else
    let! vaultKey := keyBytes (d_bytes d 1) (fget args "vault_key" ?? fget args "vaultKey") "vault key" in
    let! addressKey := keyBytes (d_bytes d 2) (fget args "address_key" ?? fget args "addressKey")
                         "address key" in
    Ok (vaultKey, addressKey, None, KEYRING_PLAINTEXT_TYPE).

Definition createVault (d : draws) (args : obj) : res Vault :=
  let! createdAt := nowIso (d_clock d) (fget args "now") in
  let! keys := vault_keys d args in
  let '(vaultKey, addressKey, signingSeed, keyringType) := keys in
  let signingKeyPair := fget args "signingKeyPair" ?? signingPair d signingSeed in
  let v := {|
    v_info := [
      ("schema" : jstr, VStr VAULT_SCHEMA);
      ("vault_id" : jstr, fget args "vault_id" ?? fget args "vaultId" ?? VStr ("vault_" +s+ d_uuid d 0));
      ("tenant_id" : jstr, fget args "tenant_id" ?? fget args "tenantId" ?? vstr "local");
      ("subject_id" : jstr, fget args "subject_id" ?? fget args "subjectId" ?? vstr "local-subject");
      ("actor_id" : jstr, fget args "actor_id" ?? fget args "actorId" ?? vstr "local-user");
      ("policy_id" : jstr, fget args "policy_id" ?? fget args "policyId" ?? vstr "local-default");
      ("created_at" : jstr, VStr createdAt);
      ("encryption" : jstr, vstr "local_aead");
      ("key_id" : jstr, fget args "key_id" ?? fget args "keyId" ?? VStr ("vault-key-" +s+ d_uuid d 1))];
    v_updated_at := VStr createdAt; v_vaultKey := vaultKey; v_addressKey := addressKey;
    v_signingKeyPair := signingKeyPair;
    v_signer := fget args "signer" ?? signerFor d signingKeyPair;
    v_memories := []; v_events := []; v_receipts := []; v_activeAddresses := [];
    v_tombstones := []; v_quarantineAddresses := []; v_sequence := vint 0;
    v_roots := empty_roots; v_keyringType := keyringType |} in
  let! r := lifecycleRoots v in
  Ok (with_roots r v).

(** ** Public summaries *)
Definition buildLifecycleRootSummary (v : Vault) : res obj :=
  let! r := lifecycleRoots v in
  let! tombstones := tombstoneRootItems (v_tombstones v) in
  Ok (prune_fields [
    ("schema" : jstr, vstr "enigma.lifecycle_root_summary.v1");
    ("vault_id" : jstr, info v "vault_id");
    ("tenant_id" : jstr, info v "tenant_id");
    ("subject_id" : jstr, info v "subject_id");
    ("policy_id" : jstr, info v "policy_id");
    ("sequence" : jstr, v_sequence v);
    ("active_count" : jstr, vnat (length (v_activeAddresses v)));
    ("quarantine_count" : jstr, vnat (length (quarantineAddresses v)));
    ("tombstone_count" : jstr, vnat (length tombstones));
    ("receipt_count" : jstr, vnat (length (v_receipts v)));
    ("active_set_root" : jstr, VStr (active_set_root r));
    ("quarantine_set_root" : jstr, VStr (quarantine_set_root r));
    ("tombstone_set_root" : jstr, VStr (tombstone_set_root r));
    ("active_root" : jstr, VStr (active_set_root r));
    ("quarantine_root" : jstr, VStr (quarantine_set_root r));
    ("tombstone_root" : jstr, VStr (tombstone_set_root r));
    ("receipt_log_root" : jstr, VStr (receipt_log_root r));
    ("lifecycle_root" : jstr, VStr (lifecycle_root r));
    ("updated_at" : jstr, v_updated_at v);
    ("signer" : jstr, signerRef (v_signer v))]).

Definition last_receipt (v : Vault) : jsval := default VUndef (last (v_receipts v)).

Definition buildMemoryBoundaryTransactionSummary (v : Vault) (args : obj) : res obj :=
  let receipt := fget args "receipt" ?? fget args "transaction" ?? last_receipt v in
  let! projection := projectLifecycleReceipt receipt in
  throw_if is_undef projection
    with PlainError "buildMemoryBoundaryTransactionSummary requires at least one receipt";
  let! summary := buildLifecycleRootSummary v in
  Ok (prune_fields [
    ("schema" : jstr, vstr "enigma.memory_boundary_transaction_summary.v1");
    ("vault_id" : jstr, info v "vault_id");
    ("tenant_id" : jstr, info v "tenant_id");
    ("subject_id" : jstr, info v "subject_id");
    ("operation" : jstr, vget projection "operation");
    ("sequence" : jstr, vget projection "sequence");
    ("timestamp" : jstr, vget projection "timestamp");
    ("memory_addr" : jstr, vget projection "memory_addr");
    ("source_addr" : jstr, vget projection "source_addr");
    ("policy_id" : jstr, vget projection "policy_id");
    ("event_hash" : jstr, vget projection "event_hash");
    ("receipt_hash" : jstr, vget projection "receipt_hash");
    ("previous_receipt_hash" : jstr, vget projection "previous_receipt_hash");
    ("active_set_root" : jstr, vget projection "active_set_root");
    ("receipt_log_root" : jstr, vget projection "receipt_log_root");
    ("lifecycle_root" : jstr, fget summary "lifecycle_root");
    ("signer" : jstr, vget projection "signer");
    ("signature" : jstr, vget projection "signature");
    ("public_safe" : jstr, VBool true)]).

Definition lifecycleLogId (v : Vault) (summary : obj) (issuedAt : jsval) : res jstr :=
  let! t := canonical (VObj [
    ("schema" : jstr, vstr "enigma.lifecycle_receipt_log.id.v1");
    ("vault_id" : jstr, info v "vault_id");
    ("receipt_log_root" : jstr, fget summary "receipt_log_root");
    ("lifecycle_root" : jstr, fget summary "lifecycle_root");
    ("issued_at" : jstr, issuedAt)]) in
  Ok ("log_" +s+ slice_to 32 (sha256_text t)).

Definition buildPublicLifecycleReceiptLog (clock : jstr) (v : Vault) (args : obj) : res obj :=
  let! refs := map_res projectLifecycleReceiptRef (v_receipts v) in
  let receiptRefs := List.filter truthy refs in
  throw_if (length receiptRefs =? 0)%nat
    with PlainError "buildPublicLifecycleReceiptLog requires at least one receipt";
  let! summary := buildLifecycleRootSummary v in
  let! issuedAt := (if truthy (fget args "now")
                    then let! t := nowIso clock (fget args "now") in Ok (VStr t)
                    else Ok (v_updated_at v)) in
  let latestReceipt := last_receipt v in
  let! logId := lifecycleLogId v summary issuedAt in
  let! log_ref := refHash (VObj [
    ("schema" : jstr, vstr "enigma.lifecycle_receipt_log.ref.v1"); ("log_id" : jstr, VStr logId);
    ("receipt_log_root" : jstr, fget summary "receipt_log_root")]) in
  let! subject_ref := refHash (VObj [("schema" : jstr, vstr "enigma.subject_ref.v1");
                                     ("subject_id" : jstr, info v "subject_id")]) in
  let! tenant_ref := refHash (VObj [("schema" : jstr, vstr "enigma.tenant_ref.v1");
                                    ("tenant_id" : jstr, info v "tenant_id")]) in
  let! signer_ref := refHash (signerRef (v_signer v)
    ?? VObj [("key_id" : jstr, vget (v_signer v) "key_id" ?? VNull)]) in
  let! signature_ref :=
    (if truthy (vget latestReceipt "signature")
     then let! h := refHash (signatureRef (vget latestReceipt "signature")) in Ok (VStr h)
     else Ok VUndef) in
  Ok (prune_fields [
    ("schema" : jstr, vstr "enigma.lifecycle_receipt_log.v1");
    ("log_id" : jstr, VStr logId);
    ("log_ref" : jstr, VStr log_ref);
    ("subject_ref" : jstr, VStr subject_ref);
    ("tenant_ref" : jstr, VStr tenant_ref);
    ("epoch" : jstr, v_sequence v);
    ("previous_log_root" : jstr, vget latestReceipt "receipt_log_root" ?? VStr ZERO_SET_ROOT);
    ("receipt_refs" : jstr, VArr receiptRefs);
    ("active_root" : jstr, fget summary "active_set_root");
    ("quarantine_root" : jstr, fget summary "quarantine_set_root");
    ("tombstone_root" : jstr, fget summary "tombstone_set_root");
    ("receipt_log_root" : jstr, fget summary "receipt_log_root");
    ("issued_at" : jstr, issuedAt);
    ("signer_ref" : jstr, VStr signer_ref);
    ("signature_ref" : jstr, signature_ref)]).
End keys.

(** ** Replaying receipts *)
Section replay.
Context {C : Crypto}.

Record lifecycle := {
  l_active : list jstr;
  l_tombstones : list (jstr * obj)
}.

Definition receiptEvent (receipt : jsval) : jsval :=
  if is_object receipt then
    if is_object (vget receipt "event") then vget receipt "event" else receipt
  else VUndef.

Definition update_tombstone (source_addr memory_addr timestamp : jsval) : obj :=
  [("schema" : jstr, vstr "enigma.deletion_tombstone.v1"); ("memory_addr" : jstr, source_addr);
   ("operation" : jstr, vstr "update"); ("successor_addr" : jstr, memory_addr);
   ("tombstoned_at" : jstr, timestamp); ("reason" : jstr, vstr "updated")].

Definition delete_tombstone (memory_addr timestamp : jsval) : obj :=
  [("schema" : jstr, vstr "enigma.deletion_tombstone.v1"); ("memory_addr" : jstr, memory_addr);
   ("operation" : jstr, vstr "delete"); ("tombstoned_at" : jstr, timestamp);
   ("reason" : jstr, vstr "deleted")].

(** The effect of one event; addresses are strings. *)
Definition replay_event (event : jsval) (l : lifecycle) : lifecycle :=
  let operation := vget event "operation" in
  let addr := to_str (vget event "memory_addr") in
  if negb (truthy (vget event "memory_addr")) then l
  else if operation === vstr "create" then
    {| l_active := set_add addr (l_active l); l_tombstones := map_delete (l_tombstones l) addr |}
  else if operation === vstr "update" then
    let source := to_str (vget event "source_addr") in
    let l1 :=
      if truthy (vget event "source_addr") then
        {| l_active := set_delete source (l_active l);
           l_tombstones := map_set (l_tombstones l) source
             (update_tombstone (vget event "source_addr") (vget event "memory_addr")
                (vget event "timestamp")) |}
      else l in
    {| l_active := set_add addr (l_active l1); l_tombstones := map_delete (l_tombstones l1) addr |}
  else if operation === vstr "delete" then
    {| l_active := set_delete addr (l_active l);
       l_tombstones := map_set (l_tombstones l) addr
         (delete_tombstone (vget event "memory_addr") (vget event "timestamp")) |}
  else l.

Definition replay_receipt (l : lifecycle) (receipt : jsval) : res lifecycle :=
  let event := receiptEvent (elem receipt) in
  if is_undef event then Ok l
  else
    let l' := replay_event event l in
    throw_if is_string (vget receipt "active_set_root")
             && negb (str_of (vget receipt "active_set_root") =s= computeSetRoot (l_active l'))
      with PlainError "importBundle receipt active_set_root mismatch";
    Ok l'.

Definition no_lifecycle : lifecycle := {| l_active := []; l_tombstones := [] |}.

Definition deriveReceiptLifecycle (receipts : list jsval) : res lifecycle :=
  foldl_res replay_receipt no_lifecycle receipts.

Definition importedTombstonesByAddress (tombstones : jsval) : res (list (jstr * obj)) :=
  foldl_res (λ out t,
      let tombstone := elem t in
      if truthy (vget tombstone "memory_addr") then
        let! s := sanitizePublicValue tombstone in
        Ok (map_set out (to_str (vget tombstone "memory_addr")) (own_fields s))
      else Ok out)
    [] (items_of tombstones).

(** [Array.isArray(value) ? value.map(String) : []]. *)
Definition strings_of (value : jsval) : list jstr := map (λ x, to_str (elem x)) (items_of value).

(** The tombstones of the replay, completed with the imported ones. *)
Definition merge_tombstone (imported : list (jstr * obj)) (at_ : jstr * obj) : res (jstr * obj) :=
  let '(memoryAddr, tombstone) := at_ in
  let given := default [] (map_get imported memoryAddr) in
  throw_if truthy (fget given "operation") && (fget given "operation" !== fget tombstone "operation")
    with PlainError "importBundle tombstone operation does not match receipt-derived state";
  Ok (memoryAddr, fset (fset (spread tombstone given) "memory_addr" (VStr memoryAddr))
                    "operation" (fget tombstone "operation")).

Definition reconcile_record (l : lifecycle) (am : jstr * memory) : res (jstr * memory) :=
  let '(memoryAddr, record) := am in
  if mem_str memoryAddr (l_active l) then Ok (memoryAddr, set_field "state" (vstr "active") record)
  else
    match map_get (l_tombstones l) memoryAddr with
    | Some t =>
        Ok (memoryAddr, set_field "state"
              (vstr (if fget t "operation" === vstr "update" then "superseded" else "tombstoned")) record)
    | None =>
        throw_if fget (m_fields record) "state" === vstr "active"
          with PlainError "importBundle memory object active state is not receipt-derived";
        Ok (memoryAddr, record)
    end.

Definition reconcileImportedLifecycle (bundle : jsval) (records : list (jstr * memory))
    (receipts : list jsval) : res (lifecycle * list (jstr * memory)) :=
  let! derived := deriveReceiptLifecycle receipts in
  let declaredActive := set_of_list (strings_of (vget bundle "active_memory_addresses")) in
  throw_if negb (sameStringSet declaredActive (l_active derived))
    with PlainError "importBundle active_memory_addresses do not match receipt-derived state";
  let declaredRoot := vget (vget bundle "vault") "active_set_root" in
  throw_if truthy declaredRoot && (declaredRoot !== VStr (computeSetRoot (l_active derived)))
    with PlainError "importBundle vault active_set_root does not match receipt-derived state";
  let! importedTombstones := importedTombstonesByAddress (vget bundle "tombstones") in
  throw_if negb (sameStringSet importedTombstones.*1 (l_tombstones derived).*1)
    with PlainError "importBundle tombstones do not match receipt-derived state";
  let! tombstones := map_res (merge_tombstone importedTombstones) (l_tombstones derived) in
  let reconciled := {| l_active := l_active derived; l_tombstones := tombstones |} in
  let! records' := map_res (reconcile_record reconciled) records in
  Ok (reconciled, records').

Definition sanitizeImportedEventEntry (entry : jsval) : res (option event_entry) :=
  if is_object entry then
    let! event := sanitizePublicValue (vget entry "event" ?? VObj []) in
    let! hash := match vget entry "hash" with
                 | VStr s => if re_full SOURCE_REF_ROOT_RE s then Ok s else asSha256 event
                 | _ => asSha256 event
                 end in
    let! text := canonical event in
    Ok (Some {| ee_event := event; ee_canonical := text; ee_hash := hash |})
  else Ok None.
End replay.

(** ** Bundles *)
Section bundles.
Context {C : Crypto} {Hst : Host} {Loc : Locale} {P : Platform}.

Definition PLAINTEXT_KEYRING_WARNING : jstr :=
  "WARNING: This bundle stores vault keys in plaintext. Anyone with file access can decrypt memory contents. Use --passphrase to encrypt the keyring.".
Definition ENCRYPTED_KEYRING_WARNING : jstr :=
  "Keyring is encrypted with AES-256-GCM; passphrase required on import.".
Definition DEPRECATION_PLAINTEXT_KEYRING : jstr :=
  "Plaintext keyrings are deprecated; use --passphrase to encrypt new bundles.".

Definition buildKeyring (d : draws) (v : Vault) (passphrase : jsval) : res obj :=
  let pair := v_signingKeyPair v in
  if has_passphrase passphrase then
    let salt := b64_encode (d_bytes d 0) in
    let! keys := deriveKeysFromPassphrase passphrase (VStr salt) in
    let! encrypted := encryptKeyring (d_bytes d 1) [
      ("vault_key_b64" : jstr, VStr (b64_encode (v_vaultKey v)));
      ("address_key_b64" : jstr, VStr (b64_encode (v_addressKey v)));
      ("privateKey" : jstr, exportPrivateKey pair)] (dk_kek keys) in
    Ok [("type" : jstr, VStr KEYRING_ENCRYPTED_TYPE); ("warning" : jstr, VStr ENCRYPTED_KEYRING_WARNING);
        ("salt" : jstr, VStr salt); ("iv" : jstr, fget encrypted "iv");
        ("tag" : jstr, fget encrypted "tag"); ("ciphertext" : jstr, fget encrypted "ciphertext");
        ("signer" : jstr, v_signer v); ("publicKey" : jstr, exportPublicKey pair)]
  else
    Ok [("type" : jstr, VStr KEYRING_PLAINTEXT_TYPE); ("unencrypted" : jstr, VBool true);
        ("warning" : jstr, VStr PLAINTEXT_KEYRING_WARNING);
        ("vault_key_b64" : jstr, VStr (b64_encode (v_vaultKey v)));
        ("address_key_b64" : jstr, VStr (b64_encode (v_addressKey v)));
        ("signer" : jstr, v_signer v); ("publicKey" : jstr, exportPublicKey pair);
        ("privateKey" : jstr, exportPrivateKey pair)].

Definition event_value (e : event_entry) : jsval :=
  VObj [("event" : jstr, ee_event e); ("canonical" : jstr, VStr (ee_canonical e));
        ("hash" : jstr, VStr (ee_hash e))].

Definition exportBundle (d : draws) (args : obj) : VM jsval :=
  do! v0 := vread (λ v, v) in
  do! er := appendEvent (d_clock d) (d_uuid d 0) [
    ("operation" : jstr, vstr "export");
    ("actor_id" : jstr, fget args "actor_id" ?? fget args "actorId");
    ("policy_id" : jstr, fget args "policy_id" ?? fget args "policyId");
    ("now" : jstr, fget args "now");
    ("metadata" : jstr, VObj [
       ("memory_count" : jstr, vnat (length (v_memories v0)));
       ("active_count" : jstr, vnat (length (v_activeAddresses v0)));
       ("tombstone_count" : jstr, vnat (length (v_tombstones v0)))])] in
  do! v := vread (λ v, v) in
  do! r := vlift (lifecycleRoots v) in
  do! exported_at := vlift (nowIso (d_clock d) (fget args "now")) in
  do! keyring := vlift (buildKeyring d v (fget args "passphrase")) in
  do! memory_objects := vlift (map_res (λ am : jstr * memory,
      let! p := publicRecord (m_fields am.2) in Ok (VObj p)) (v_memories v)) in
  let bundle := VObj [
    ("schema" : jstr, vstr "enigma.vault_bundle.v1");
    ("exported_at" : jstr, VStr exported_at);
    ("vault" : jstr, VObj [
       ("schema" : jstr, info v "schema"); ("vault_id" : jstr, info v "vault_id");
       ("tenant_id" : jstr, info v "tenant_id"); ("subject_id" : jstr, info v "subject_id");
       ("actor_id" : jstr, info v "actor_id"); ("policy_id" : jstr, info v "policy_id");
       ("created_at" : jstr, info v "created_at"); ("updated_at" : jstr, v_updated_at v);
       ("encryption" : jstr, info v "encryption"); ("key_id" : jstr, info v "key_id");
       ("active_set_root" : jstr, VStr (active_set_root r));
       ("receipt_log_root" : jstr, VStr (receipt_log_root r));
       ("sequence" : jstr, v_sequence v)]);
    ("keyring" : jstr, VObj keyring);
    ("memory_objects" : jstr, VArr memory_objects);
    ("active_memory_addresses" : jstr, VArr (map VStr (sort_strings (v_activeAddresses v))));
    ("tombstones" : jstr, VArr (map VObj (sort_by_address (v_tombstones v).*2)));
    ("events" : jstr, VArr (map event_value (v_events v)));
    ("receipts" : jstr, VArr (v_receipts v));
    ("export_receipt" : jstr, er.2)] in
  do! _ := vlift (canonical bundle) in
  vret bundle.

Definition sanitize_receipt (receipt : jsval) : res jsval :=
  let! s := sanitizePublicValue receipt in
  let! signer := getx receipt "signer" in
  let! signer' := (if truthy signer then let! x := sanitizePublicValue signer in Ok (VObj (spread_of x))
                   else Ok signer) in
  let signature := vget receipt "signature" in
  let! signature' := (if truthy signature
                      then let! x := sanitizePublicValue signature in Ok (VObj (spread_of x))
                      else Ok signature) in
  Ok (VObj (fset (fset (spread_of s) "signer" signer') "signature" signature')).

Definition import_keys (args keyring : jsval) : res (jsval * jsval * jsval * list jstr) :=
  if vget keyring "type" === VStr KEYRING_ENCRYPTED_TYPE then
    throw_if negb (has_passphrase (vget args "passphrase"))
      with PlainError "Encrypted keyring requires passphrase";
    let! decrypted := decryptKeyring keyring (vget args "passphrase") in
    Ok (vget decrypted "vault_key_b64", vget decrypted "address_key_b64", vget decrypted "privateKey", [])
  else
    Ok (vget keyring "vault_key_b64", vget keyring "address_key_b64", vget keyring "privateKey",
        if vget keyring "type" === VStr KEYRING_PLAINTEXT_TYPE then [DEPRECATION_PLAINTEXT_KEYRING] else []).

Definition with_import (created updated sequence : jsval) (events : list event_entry)
    (receipts : list jsval) (memories : list (jstr * memory)) (l : lifecycle) (v : Vault) : Vault :=
  {| v_info := fset (v_info v) "created_at" created; v_updated_at := updated;
     v_vaultKey := v_vaultKey v; v_addressKey := v_addressKey v;
     v_signingKeyPair := v_signingKeyPair v; v_signer := v_signer v;
     v_memories := memories; v_events := events; v_receipts := receipts;
     v_activeAddresses := l_active l; v_tombstones := l_tombstones l;
     v_quarantineAddresses := v_quarantineAddresses v; v_sequence := sequence;
     v_roots := v_roots v; v_keyringType := v_keyringType v |}.

(** The bundle among the arguments. *)
Definition import_source (args : jsval) : jsval :=
  if vget args "schema" === vstr "enigma.vault_bundle.v1" then args
  else vget (vget args "bundle") "bundle" ?? vget args "bundle" ?? args.

Definition imported_memories (memory_objects : jsval) : res (list (jstr * memory)) :=
  let! items := iterate (memory_objects ?? VArr []) in
  foldl_res (λ m record,
      let! addr := getx record "memory_addr" in
      let! p := publicRecord (own_fields record) in
      Ok (map_set m (to_str addr) {| m_fields := p; m_plaintext := None |}))
    [] items.

Record import_result := {
  ir_vault : Vault;
  ir_active_memory_addresses : list jstr;
  ir_tombstones : list obj;
  ir_warnings : list jstr
}.

Definition importBundle (d : draws) (args : jsval) : res import_result :=
  let! bundle := match import_source args with VStr text => json_parse text | source => Ok source end in
  throw_if negb (truthy bundle) || (vget bundle "schema" !== vstr "enigma.vault_bundle.v1")
    with PlainError "importBundle requires an enigma.vault_bundle.v1 bundle";
  let keyring := vget bundle "keyring" in
  let bv := vget bundle "vault" in
  let! keys := import_keys args keyring in
  let '(vaultKey, addressKey, privateKey, warnings) := keys in
  let signer := vget keyring "signer" in
  let restored := if truthy privateKey then
      VObj [("key_id" : jstr, vget signer "key_id"); ("signer" : jstr, signer);
            ("publicKey" : jstr, vget keyring "publicKey"); ("privateKey" : jstr, privateKey)]
    else VUndef in
  let! v0 := createVault d [
    ("vault_id" : jstr, vget bv "vault_id"); ("tenant_id" : jstr, vget bv "tenant_id");
    ("subject_id" : jstr, vget bv "subject_id");
    ("actor_id" : jstr, vget args "actor_id" ?? vget args "actorId" ?? vget bv "actor_id");
    ("policy_id" : jstr, vget bv "policy_id"); ("vault_key" : jstr, vaultKey);
    ("address_key" : jstr, addressKey); ("signingKeyPair" : jstr, restored);
    ("signer" : jstr, signer); ("now" : jstr, vget bv "created_at")] in
  let! events := (match vget bundle "events" with
                  | VArr l => let! es := map_res (λ e, sanitizeImportedEventEntry (elem e)) l in
                              Ok (omap id es)
                  | _ => Ok []
                  end) in
  let! receipts := (match vget bundle "receipts" with
                    | VArr l => map_res (λ r, sanitize_receipt (elem r)) l
                    | _ => Ok []
                    end) in
  let! memories := imported_memories (vget bundle "memory_objects") in
  let! reconciled := reconcileImportedLifecycle bundle memories receipts in
  let v1 := with_import (vget bv "created_at" ?? info v0 "created_at")
              (vget bv "updated_at" ?? v_updated_at v0)
              (if is_integer (vget bv "sequence") then vget bv "sequence" else vint 0)
              events receipts reconciled.2 reconciled.1 v0 in
  let! r := lifecycleRoots v1 in
  let v2 := with_roots r v1 in
  match appendEvent (d_clock d) (d_uuid d 3) [
    ("operation" : jstr, vstr "import");
    ("actor_id" : jstr, vget args "actor_id" ?? vget args "actorId");
    ("policy_id" : jstr, vget args "policy_id" ?? vget args "policyId");
    ("now" : jstr, vget args "now");
    ("metadata" : jstr, VObj [
       ("imported_memory_count" : jstr, vnat (length (v_memories v2)));
       ("imported_active_count" : jstr, vnat (length (v_activeAddresses v2)));
       ("imported_tombstone_count" : jstr, vnat (length (v_tombstones v2)))])] v2 with
  | (Ok _, v) =>
      Ok {| ir_vault := v; ir_active_memory_addresses := sort_strings (v_activeAddresses v);
            ir_tombstones := (v_tombstones v).*2; ir_warnings := warnings |}
  | (Throw e, _) => Throw e
  end.
End bundles.
