(* ===== verification/VaultSafety.v ===== *)
(** * What the vault guarantees

    Every vault that [createVault] and the operations can reach keeps a receipt log
    that [verifyReceiptChain] accepts, whatever operation threw on the way; an active
    address has a record; what was remembered is recalled; what was deleted stays
    refused. *)

From S2P Require Import Prelude JsValue Regex Canonical Hashing Merkle Receipt PublicSafe Dates VaultPublic Vault Samples VaultBundle.

(** ** Computations that move a vault along a preorder *)
Definition along {A} (R : relation Vault) (m : VM A) : Prop := forall v, R v (m v).2.

Section along.
Context (R : relation Vault) {HR : PreOrder R}.

Lemma along_def {A} (m : VM A) : along R m -> forall v, R v (m v).2.
Proof using Type. done. Qed.

Lemma along_ret {A} (a : A) : along R (vret a).
Proof. intros v. reflexivity. Qed.

Lemma along_lift {A} (m : res A) : along R (vlift m).
Proof. intros v. reflexivity. Qed.

Lemma along_read {A} (f : Vault -> A) : along R (vread f).
Proof. intros v. reflexivity. Qed.

Lemma along_modify (f : Vault -> Vault) : (forall v, R v (f v)) -> along R (vmodify f).
Proof. done. Qed.

Lemma along_bind {A B} (m : VM A) (k : A -> VM B) :
  along R m -> (forall a, along R (k a)) -> along R (do! a := m in k a).
Proof.
  intros Hm Hk v. specialize (Hm v). unfold vbind. destruct (m v) as [[a|e] v']; [|done].
  etransitivity; [exact Hm|]. apply Hk.
Qed.

Lemma along_if {A} (b : bool) (m1 m2 : VM A) :
  along R m1 -> along R m2 -> along R (if b then m1 else m2).
Proof. by destruct b. Qed.
End along.

(** [along_all frame] goes through an operation; [frame] shows that one assignment
    respects the preorder. *)
Ltac along_step frame :=
  lazymatch goal with
  | |- along _ (vret _) => apply along_ret; apply _
  | |- along _ (vlift _) => apply along_lift; apply _
  | |- along _ (vread _) => apply along_read; apply _
  | |- along _ (vmodify _) => apply along_modify; [apply _|]; intros; frame
  | |- along _ (vbind _ _) => apply along_bind; [apply _| |intros ?]
  | |- along _ (if _ then _ else _) => apply along_if; [apply _| |]
  | |- along _ (match _ with _ => _ end) => case_match
  | |- along _ _ => solve [auto with vault]
  end.

Ltac along_all frame := repeat along_step frame.

Create HintDb vault.

(** ** Pruning *)
Lemma prune_obj fields : pruneUndefined (VObj fields) = VObj (prune_fields fields).
Proof.
  simpl. f_equal. induction fields as [|kv fields IH]; [done|]. simpl.
  destruct (is_undef kv.2); simpl; by rewrite IH.
Qed.

Lemma prune_json v : json_data v = true -> pruneUndefined v = v.
Proof.
  induction v as [| |b|n|s| |l IH|fs IH|t fs IH|fs IH|l IH|t b|k t] using jsval_ind; try done.
  - simpl. rewrite forallb_forall. intros H. f_equal. rewrite <- (map_id l) at 2.
    apply map_ext_in. intros x Hx. rewrite List.Forall_forall in IH. auto.
  - rewrite prune_obj. simpl. intros H. f_equal.
    induction IH as [|kv fs Hkv _ IHl]; [done|]. simpl in H. apply andb_true_iff in H as [H1 H2].
    unfold prune_fields in *. simpl. rewrite (IHl H2), (Hkv H1). destruct kv as [k v]. simpl in *.
    by destruct v.
Qed.

Lemma distinct_keys (fs : obj) : bool_decide (NoDup (keys fs)) = true -> NoDup (keys fs).
Proof. apply bool_decide_eq_true. Qed.

Lemma fget_prune fields k :
  NoDup (keys fields) ->
  fget (prune_fields fields) k =
  if is_undef (fget fields k) then VUndef else pruneUndefined (fget fields k).
Proof.
  unfold keys. induction fields as [|[k' v] fields IH]; [done|]. csimpl. intros [Hn Hd]%NoDup_cons.
  unfold prune_fields in *. simpl. destruct (k' =s= k) eqn:E.
  - apply str_eqb_eq in E as ->. destruct (is_undef v) eqn:Eu; simpl.
    + rewrite IH by done. rewrite fhas_false_fget; [done|].
      apply not_true_iff_false. by rewrite fhas_elem.
    + by rewrite str_eqb_refl.
  - destruct (is_undef v) eqn:Eu; simpl; rewrite ?E; by apply IH.
Qed.

Lemma keys_prune fields k : k ∈ keys (prune_fields fields) -> k ∈ keys fields.
Proof.
  unfold keys, prune_fields. induction fields as [|[k' v] fields IH]; [done|]. csimpl.
  destruct (is_undef v); simpl; [by right; apply IH|].
  rewrite !elem_of_cons. intros [->|?]; [by left|right; by apply IH].
Qed.

(** ** The receipt of an event *)
Section receipt_of_event.
Context {C : Crypto} {L : CryptoLaws C} {Hst : Host} {Loc : Locale} {P : Platform}.

Lemma coalesce_defined a b : is_nullish a = false -> (a ?? b) = a.
Proof. unfold coalesce. by intros ->. Qed.

(** The fields of a receipt body that were given by name. *)
Lemma receipt_body_reads now o body :
  receipt_body now o = Ok body ->
  (is_nullish (fget o "sequence") = false -> fget body "sequence" = fget o "sequence") /\
  (forall p, fget o "previous_receipt_hash" = VStr p -> p = GENESIS \/ re_full ROOT_RE p = true ->
     fget body "previous_receipt_hash" = VStr p) /\
  (forall p, fget o "active_set_root" = VStr p -> re_full ROOT_RE p = true ->
     fget body "active_set_root" = VStr p) /\
  (forall p, fget o "receipt_log_root" = VStr p -> re_full ROOT_RE p = true ->
     fget body "receipt_log_root" = VStr p) /\
  (forall s, fget o "operation" = VStr s -> fget body "operation" = VStr s) /\
  (forall id, fget o "signer" = VObj [("key_id" : jstr, VStr id); ("alg" : jstr, VStr ED25519)] ->
     fget body "signer" = VObj [("key_id" : jstr, VStr id); ("alg" : jstr, VStr ED25519)]).
Proof.
  unfold receipt_body. intros H. cbn zeta in H. inv_res.
  assert (forall k, (("memory_addr" : jstr) =s= k) = false -> (("source_addr" : jstr) =s= k) = false ->
    (("provider" : jstr) =s= k) = false -> (("model" : jstr) =s= k) = false ->
    (("policy_id" : jstr) =s= k) = false -> forall b o s,
    fget (copyOptional (copyOptional (copyOptional (copyOptional (copyOptional b o s "memory_addr" "memoryAddr")
      o s "source_addr" "sourceAddr") o s "provider" "provider") o s "model" "model") o s
      "policy_id" "policyId") k = fget b k) as Hc.
  { intros. by rewrite !fget_copyOptional. }
  split_and!.
  - intros Hn. rewrite Hc by reflexivity. simp_get.
    match goal with E : requiredInteger _ _ = Ok _ |- _ => apply requiredInteger_ok in E as [-> _] end.
    by rewrite coalesce_defined.
  - intros p Ep Hp. rewrite Hc by reflexivity. simp_get. rewrite Ep in *.
    match goal with E : normalizePreviousHash _ = Ok _ |- _ =>
      cbn [coalesce is_nullish] in E; unfold normalizePreviousHash in E end.
    destruct (VStr p === VStr GENESIS) eqn:Eg.
    + inv_res. by apply seq_str in Eg.
    + destruct Hp as [->|Hp]; [done|]. rewrite normalizeSha256Root_id in * by done. by inv_res.
  - intros p Ep Hp. rewrite Hc by reflexivity. simp_get. rewrite Ep in *.
    cbn [coalesce is_nullish] in *. rewrite (normalizeSha256Root_id p) in * by done. by inv_res.
  - intros p Ep Hp. rewrite Hc by reflexivity. simp_get. rewrite Ep in *.
    cbn [coalesce is_nullish] in *. rewrite (normalizeSha256Root_id p) in * by done. by inv_res.
  - intros s Es. rewrite Hc by reflexivity. simp_get. rewrite Es in *.
    match goal with E : requiredString (VStr s ?? _) _ = Ok _ |- _ =>
      apply requiredString_ok in E as [E _]; apply VStr_inj in E; by subst end.
  - intros id Es. rewrite Hc by reflexivity. simp_get. rewrite Es in *.
    match goal with E : normalizeSigner _ _ _ = Ok _ |- _ =>
      unfold normalizeSigner in E; cbn [is_record] in E; inv_res end.
    match goal with E : requiredString (vget _ _ ?? _) _ = Ok _ |- _ =>
      apply requiredString_ok in E as [E _]; apply VStr_inj in E; subst end. reflexivity.
Qed.

Lemma json_pick fields a :
  (forall k, k ∈ fields -> is_undef (fget a k) = true \/ json_data (fget a k) = true) ->
  json_data (VObj (pick fields a)) = true.
Proof.
  intros H. simpl. induction fields as [|k fields IH]; [done|]. rewrite pick_cons.
  rewrite forallb_app. rewrite IH by (intros k' Hk'; apply H; by apply list_elem_of_further).
  destruct (H k (list_elem_of_here _ _)) as [->|Hj]; [done|].
  destruct (is_undef (fget a k)); [done|]. simpl. by rewrite Hj.
Qed.

Lemma json_field fs k : json_data (VObj fs) = true -> is_undef (fget fs k) = true \/ json_data (fget fs k) = true.
Proof.
  simpl. induction fs as [|[k' v] fs IH]; [by left|]. simpl. intros [H1 H2]%andb_true_iff.
  destruct (k' =s= k); [by right|by apply IH].
Qed.

Lemma json_receipt body id sk sig :
  signPayloadArgs (VObj (orderReceiptFields (fset body "receipt_id" (VStr id)))) sk = Ok sig ->
  json_data (VObj (receipt_of body (VStr id)
    (VObj [("alg" : jstr, VStr ED25519); ("value" : jstr, VStr sig)]))) = true.
Proof.
  intros Hs. apply json_pick. intros k Hk. rewrite fget_fset.
  destruct (("signature" : jstr) =s= k); [by right|].
  apply json_field. by eapply signed_json.
Qed.

(** The keys of a vault: [pk] checks what the vault signs, and receipts name the
    signer by [key_id]. *)
Record signs_for (pk : jsval) (v : Vault) : Prop := {
  sf_pair : key_pair (vget (v_signingKeyPair v) "privateKey") pk;
  sf_pk : is_undef pk = false;
  sf_sk : is_undef (vget (v_signingKeyPair v) "privateKey") = false;
  sf_plain : pruneUndefined (vget (v_signingKeyPair v) "privateKey")
             = vget (v_signingKeyPair v) "privateKey";
  sf_signer : exists id, v_signer v
                = VObj [("key_id" : jstr, VStr id); ("alg" : jstr, VStr ED25519)]
}.

Definition chain_options (pk : jsval) : obj := [("publicKey" : jstr, pk)].

(** What a receipt of the vault says of its place in the log. *)
Record logged (pk : jsval) (n : nat) (prev active log : jstr) (r : jsval) : Prop := {
  lg_accepted : receipt_accepted (chain_options pk) r = true;
  lg_sequence : vget r "sequence" = vnat n;
  lg_previous : vget r "previous_receipt_hash" = VStr prev;
  lg_active : vget r "active_set_root" = VStr active;
  lg_log : vget r "receipt_log_root" = VStr log;
  lg_json : json_data r = true
}.

(** The properties that [createReceipt] reads from the arguments of [buildReceipt]. *)
Lemma args_field v ev hash prev active log k :
  let o := own_fields (receiptArgs v (VObj ev) hash prev active log) in
  let given := fget [("event" : jstr, VObj ev); ("sequence" : jstr, fget ev "sequence");
    ("previous_receipt_hash" : jstr, VStr prev); ("active_set_root" : jstr, VStr active);
    ("receipt_log_root" : jstr, VStr log); ("signer" : jstr, v_signer v);
    ("privateKey" : jstr, vget (v_signingKeyPair v) "privateKey")] in
  k ∈ ["event" : jstr; "sequence" : jstr; "previous_receipt_hash" : jstr; "active_set_root" : jstr;
       "receipt_log_root" : jstr; "signer" : jstr; "privateKey" : jstr; "receipt_id" : jstr;
       "receiptId" : jstr; "signature" : jstr] ->
  fget o k = if is_undef (given k) then VUndef else pruneUndefined (given k).
Proof.
  cbn zeta. intros Hk. unfold receiptArgs. rewrite prune_obj. cbn [own_fields].
  rewrite fget_prune by (apply distinct_keys; vm_compute; reflexivity).
  repeat (apply elem_of_cons in Hk as [->|Hk]; [reflexivity|]). by apply elem_of_nil in Hk.
Qed.

Ltac args_get := rewrite args_field by (apply mem_str_true; vm_compute; reflexivity).

Lemma args_normal v ev hash prev active log :
  normalizeCreateReceiptArgs (receiptArgs v (VObj ev) hash prev active log) []
  = own_fields (receiptArgs v (VObj ev) hash prev active log).
Proof.
  unfold normalizeCreateReceiptArgs.
  assert (fhas (own_fields (receiptArgs v (VObj ev) hash prev active log)) "event" = true) as ->.
  { destruct (fhas _ _) eqn:E; [done|]. apply fhas_false_fget in E. revert E. args_get. done. }
  unfold receiptArgs. by rewrite prune_obj.
Qed.

Lemma chain_key pk id r :
  is_undef pk = false -> resolvePublicKey id (spread [("receipt" : jstr, r)] (chain_options pk)) = pk.
Proof.
  intros H. unfold resolvePublicKey.
  change (fget (spread [("receipt" : jstr, r)] (chain_options pk)) "publicKey") with pk. by rewrite H.
Qed.

Lemma accepted_no_errors pk fs :
  receipt_errors (VObj fs) (spread [("receipt" : jstr, VObj fs)] (chain_options pk)) = [] ->
  receipt_accepted (chain_options pk) (VObj fs) = true.
Proof.
  intros H. rewrite receipt_accepted_eq by reflexivity. cbn [is_record]. by apply bool_decide_eq_true.
Qed.

Lemma chain_signer pk r :
  is_undef (expected_signer (spread [("receipt" : jstr, r)] (chain_options pk))) = true.
Proof. done. Qed.

Lemma buildReceipt_inv clock v event hash prev active log r :
  buildReceipt clock v event hash prev active log = Ok r ->
  exists r0, createReceipt clock (receiptArgs v event hash prev active log) [] = Ok r0 /\
             r = pruneUndefined r0.
Proof.
  unfold buildReceipt. generalize (receiptArgs v event hash prev active log). intros args H. inv_res. eauto.
Qed.

Lemma created_from_args clock v ev hash prev active log r :
  let o := own_fields (receiptArgs v (VObj ev) hash prev active log) in
  createReceipt clock (receiptArgs v (VObj ev) hash prev active log) [] = Ok r ->
  exists body id sig,
    receipt_body clock o = Ok body /\ receipt_id_of body = Ok id /\
    signPayloadArgs (VObj (orderReceiptFields (fset body "receipt_id" (VStr id))))
      (fget o "privateKey") = Ok sig /\
    r = VObj (receipt_of body (VStr id)
                (VObj [("alg" : jstr, VStr ED25519); ("value" : jstr, VStr sig)])).
Proof.
  cbn zeta. rewrite <- (args_normal v ev hash prev active log). intros H.
  apply createReceipt_inv in H; [exact H|]. rewrite args_normal.
  split_and!; args_get; reflexivity.
Qed.

Lemma buildReceipt_logged pk clock v ev hash prev active log n r :
  signs_for pk v -> fget ev "sequence" = vnat n -> prev = GENESIS \/ re_full ROOT_RE prev = true ->
  re_full ROOT_RE active = true -> re_full ROOT_RE log = true ->
  buildReceipt clock v (VObj ev) hash prev active log = Ok r -> logged pk n prev active log r.
Proof.
  intros [Hkp Hpk Hsk Hplain [id Hsigner]] Hseq Hprev Hact Hlog H.
  apply buildReceipt_inv in H as (r0 & H & ->).
  apply created_from_args in H as (body & rid & sig & Hbody & Hid & Hsig & ->).
  assert (fget (own_fields (receiptArgs v (VObj ev) hash prev active log)) "privateKey"
          = vget (v_signingKeyPair v) "privateKey") as Esk.
  { args_get. simp_get. by rewrite Hsk. }
  rewrite Esk in Hsig. rewrite prune_json by by eapply json_receipt.
  pose proof (receipt_body_ok _ _ _ Hbody) as Hb.
  destruct (receipt_body_reads _ _ _ Hbody) as (R1 & R2 & R3 & R4 & _ & R6).
  destruct (receipt_of_fields body (VStr rid)
    (VObj [("alg" : jstr, VStr ED25519); ("value" : jstr, VStr sig)]) Hb)
    as (_ & F2 & _ & F4 & F5 & F6 & _ & _ & _).
  assert (fget body "signer" = VObj [("key_id" : jstr, VStr id); ("alg" : jstr, VStr ED25519)]) as Hsb.
  { apply R6. args_get. simp_get. by rewrite Hsigner. }
  split.
  - apply accepted_no_errors.
    eapply created_receipt_errors; [exact Hb|exact Hid|exact Hsig|exact Hsb|exact Hkp|exact Hpk|..];
      [by apply chain_key|left; apply chain_signer].
  - rewrite F2, R1; args_get; simp_get; by rewrite Hseq.
  - rewrite F6. apply R2; [by args_get|done].
  - rewrite F4. apply R3; [by args_get|done].
  - rewrite F5. apply R4; [by args_get|done].
  - by eapply json_receipt.
Qed.
End receipt_of_event.

(** ** The receipt log *)
Section log.
Context {C : Crypto} {L : CryptoLaws C} {Hst : Host} {Loc : Locale} {P : Platform}.

Lemma merkleRoot_root values : re_full ROOT_RE (merkleRoot values) = true.
Proof.
  destruct (decide (values = [])) as [->|Hne]; [apply root_of_sha|].
  destruct (merkle_tree_spec values) as (t & _ & _ & E); [done|]. rewrite E. apply root_of_hex, thash_hex.
Qed.

Lemma computeSetRoot_root values : re_full ROOT_RE (computeSetRoot values) = true.
Proof. apply merkleRoot_root. Qed.

Lemma safeReceiptHash_root r : json_data r = true -> re_full ROOT_RE (safeReceiptHash r) = true.
Proof.
  rewrite <- canonicalize_is_ok. unfold safeReceiptHash, receiptHash.
  destruct (canonicalize r); [|done]. intros _. apply root_of_sha.
Qed.

Lemma hashReceipt_json r : json_data r = true -> hashReceipt r = Ok (safeReceiptHash r).
Proof.
  rewrite <- canonicalize_is_ok. unfold hashReceipt, safeReceiptHash, receiptHash.
  by destruct (canonicalize r).
Qed.

(** The root of the receipts of a log. *)
Definition log_root (receipts : list jsval) : jstr := computeSetRoot (map safeReceiptHash receipts).

Lemma computeReceiptLogRoot_json receipts :
  Forall (λ r, json_data r = true) receipts ->
  computeReceiptLogRootFrom receipts = Ok (log_root receipts).
Proof.
  intros H. unfold computeReceiptLogRootFrom, log_root.
  assert (map_res hashReceipt receipts = Ok (map safeReceiptHash receipts)) as ->.
  { induction H as [|r receipts Hr _ IH]; [done|]. simpl. by rewrite hashReceipt_json, IH. }
  by destruct receipts.
Qed.

Lemma chain_head_last receipts prev :
  chain_head prev receipts = default prev (safeReceiptHash <$> last receipts).
Proof.
  destruct receipts as [|r receipts _] using rev_ind; [done|].
  unfold chain_head. by rewrite foldl_snoc, last_snoc.
Qed.

(** The receipt log of a vault: the receipt at [k] has sequence number [k], names the
    hash of its predecessor and commits to the receipts before it. *)
Record log_ok (pk : jsval) (v : Vault) : Prop := {
  lo_signs : signs_for pk v;
  lo_sequence : v_sequence v = vnat (length (v_receipts v));
  lo_receipts : forall k r, v_receipts v !! k = Some r ->
    exists active, logged pk k (chain_head GENESIS (take k (v_receipts v))) active
                     (log_root (take k (v_receipts v))) r
}.

Lemma log_json pk v : log_ok pk v -> Forall (λ r, json_data r = true) (v_receipts v).
Proof.
  intros H. apply Forall_lookup. intros k r Hk. destruct (lo_receipts _ _ H k r Hk) as [a Ha].
  apply Ha.
Qed.

Lemma log_chain_from pk i prev receipts :
  (forall k r, receipts !! k = Some r ->
     receipt_accepted (chain_options pk) r = true /\ vget r "sequence" = vnat (i + k) /\
     vget r "previous_receipt_hash" = VStr (chain_head prev (take k receipts))) ->
  chain_valid (chain_options pk) i prev receipts.
Proof.
  revert i prev. induction receipts as [|r receipts IH]; intros i prev H; [done|].
  destruct (H 0 r eq_refl) as (H1 & H2 & H3). cbn [chain_valid]. rewrite Nat.add_0_r in H2.
  split_and!; [done| |done|].
  - rewrite H2. etransitivity; [apply vint_seq|apply Z.eqb_refl].
  - apply IH. intros k r' Hk. destruct (H (S k) r' Hk) as (? & E & ?).
    rewrite Nat.add_succ_r in E. done.
Qed.

Lemma log_chain pk v : log_ok pk v -> chain_valid (chain_options pk) 0 GENESIS (v_receipts v).
Proof.
  intros H. apply log_chain_from. intros k r Hk. destruct (lo_receipts _ _ H k r Hk) as [a Ha].
  split_and!; apply Ha.
Qed.

(** ** How an operation may change the log *)

(** The log of [v] is the log of [v'] or grows into it, and stays well formed as long
    as sequence numbers are exact. *)
Definition log_step (pk : jsval) (v v' : Vault) : Prop :=
  v_receipts v `prefix_of` v_receipts v' /\
  ((Z.of_nat (length (v_receipts v')) < 2 ^ 53)%Z -> log_ok pk v -> log_ok pk v').

#[export] Instance log_step_preorder pk : PreOrder (log_step pk).
Proof.
  split; [split; [done|tauto]|]. intros v1 v2 v3 [P1 H1] [P2 H2].
  split; [by trans (v_receipts v2)|]. intros Hs Ho. apply H2; [done|].
  apply H1; [|done]. apply prefix_length in P2. lia.
Qed.

(** A change that touches neither the receipts nor the keys. *)
Lemma log_step_frame pk v v' :
  v_receipts v' = v_receipts v -> v_sequence v' = v_sequence v ->
  v_signingKeyPair v' = v_signingKeyPair v -> v_signer v' = v_signer v -> log_step pk v v'.
Proof.
  intros E1 E2 E3 E4. unfold log_step. rewrite E1. split; [done|].
  intros _ [[S1 S2 S3 S4 S5] Hq Hr]. rewrite <- E3 in S1, S3, S4. rewrite <- E4 in S5.
  split; [done|by rewrite E1, E2|by rewrite E1].
Qed.

(** The event of [appendEvent] carries the sequence number of the vault. *)
Lemma build_event_obj v uuid timestamp fields meta :
  exists ev, build_event v uuid timestamp fields meta = VObj ev /\
    fget ev "sequence" = if is_undef (v_sequence v) then VUndef else pruneUndefined (v_sequence v).
Proof.
  unfold build_event. rewrite prune_obj. eexists. split; [reflexivity|].
  rewrite fget_prune by (apply distinct_keys; vm_compute; reflexivity). reflexivity.
Qed.

Lemma next_receipt_logged pk clock uuid fields v e r :
  log_ok pk v -> next_receipt clock uuid fields v = Ok (e, r) ->
  exists active, logged pk (length (v_receipts v)) (chain_head GENESIS (v_receipts v)) active
                   (log_root (v_receipts v)) r.
Proof.
  intros Ho H. pose proof (log_json _ _ Ho) as Hj. destruct Ho as [Hs Hq _].
  unfold next_receipt in H. rewrite computeReceiptLogRoot_json in H by done. inv_res.
  match goal with E : context [build_event ?v ?u ?t ?f ?m] |- _ =>
    destruct (build_event_obj v u t f m) as (ev & Eev & Eseq); rewrite Eev in * end.
  rewrite Hq in Eseq.
  assert (forall p, match last (v_receipts v) with Some r => hashReceipt r | None => Ok GENESIS end = Ok p ->
            p = chain_head GENESIS (v_receipts v) /\ (p = GENESIS \/ re_full ROOT_RE p = true)) as Hp.
  { intros p. rewrite chain_head_last. destruct (last (v_receipts v)) as [r0|] eqn:E; simpl.
    - apply last_Some_elem_of in E. rewrite Forall_forall in Hj.
      rewrite hashReceipt_json by auto. intros [= <-]. split; [done|right]. apply safeReceiptHash_root; auto.
    - intros [= <-]. by split; [|left]. }
  injection H as _ <-.
  match goal with E : _ = Ok ?p, E' : buildReceipt _ _ _ _ ?p _ _ = Ok _ |- _ =>
    apply Hp in E as [-> Hr]; eexists; eapply buildReceipt_logged; [exact Hs|exact Eseq|exact Hr|..|exact E'] end;
    apply computeSetRoot_root.
Qed.

Lemma push_log_ok pk v e r timestamp active :
  log_ok pk v -> (Z.of_nat (length (v_receipts v ++ [r])) < 2 ^ 53)%Z ->
  logged pk (length (v_receipts v)) (chain_head GENESIS (v_receipts v)) active
    (log_root (v_receipts v)) r ->
  log_ok pk (with_event e r timestamp v).
Proof.
  intros [Hs Hq Hr] Hlen Hl. rewrite length_app in Hlen. simpl in Hlen. split.
  - by destruct Hs.
  - simpl. rewrite Hq, length_app, vadd_vnat by lia. unfold vint, vnat. simpl. do 2 f_equal. lia.
  - simpl. intros k r' Hk. apply lookup_app_Some in Hk as [Hk|[Hge Hk]].
    + pose proof (lookup_lt_Some _ _ _ Hk). rewrite take_app_le by lia. by apply Hr.
    + apply list_lookup_singleton_Some in Hk as [E ->].
      assert (k = length (v_receipts v)) as -> by lia. rewrite take_app_length. eauto.
Qed.

Lemma log_roots pk : along (log_step pk) applyLifecycleRoots.
Proof. unfold applyLifecycleRoots. along_all ltac:(by apply log_step_frame). Qed.

Lemma log_appendEvent pk clock uuid fields : along (log_step pk) (appendEvent clock uuid fields).
Proof.
  intros v. unfold appendEvent. cbn [vbind vread vlift].
  destruct (next_receipt clock uuid fields v) as [[e r]|x] eqn:E; [|reflexivity].
  cbn [vbind vmodify]. cbn [fst snd]. etransitivity.
  2: { apply (along_bind (log_step pk) applyLifecycleRoots);
         [apply log_roots|intros _; apply along_ret; apply _]. }
  split; [by apply prefix_app_r|]. intros Hlen Ho.
  destruct (next_receipt_logged _ _ _ _ _ _ _ Ho E) as [active Hl]. by eapply push_log_ok.
Qed.
End log.

(** ** Runs of a vault *)
Inductive vault_op :=
  | Remember (d : draws) (args : obj)
  | Recall (d : draws) (args : obj)
  | UpdateMemory (d : draws) (args : obj)
  | DeleteMemory (d : draws) (args : obj)
  | ExportBundle (d : draws) (args : obj).

Section runs.
Context {C : Crypto} {L : CryptoLaws C} {Hst : Host} {Loc : Locale} {P : Platform}.

(** The vault after an operation, which may have thrown. *)
Definition run_op (op : vault_op) (v : Vault) : Vault :=
  match op with
  | Remember d args => (remember d args v).2
  | Recall d args => (recall d args v).2
  | UpdateMemory d args => (updateMemory d args v).2
  | DeleteMemory d args => (deleteMemory d args v).2
  | ExportBundle d args => (exportBundle d args v).2
  end.

Inductive reachable (v0 : Vault) : Vault -> Prop :=
  | reach_start : reachable v0 v0
  | reach_op v op : reachable v0 v -> reachable v0 (run_op op v).

Section preorder.
Context (R : relation Vault) {HR : PreOrder R}.
Context (append : forall clock uuid fields, along R (appendEvent clock uuid fields)).

Lemma along_exportBundle d args : along R (exportBundle d args).
Proof using HR append. unfold exportBundle. cbn zeta. along_all ltac:(idtac). Qed.

(** An operation moves along a preorder that appending an event and the changes of
    the memories, the active set and the tombstones respect. *)
Lemma along_op op :
  (forall v m, R v (with_memories m v)) -> (forall v a, R v (with_active a v)) ->
  (forall v a t, R v (with_tombstones (map_set (v_tombstones v) a t) v)) ->
  forall v, R v (run_op op v).
Proof using HR append.
  intros Hm Ha Ht. destruct op; cbn [run_op].
  - apply along_def. unfold remember. cbn zeta. along_all ltac:(unfold put_memory; auto).
  - apply along_def. unfold recall. cbn zeta. along_all ltac:(unfold put_memory; auto).
  - apply along_def. unfold updateMemory. cbn zeta. along_all ltac:(unfold put_memory; auto).
  - apply along_def. unfold deleteMemory, delete_record. cbn zeta. along_all ltac:(unfold put_memory; auto).
  - apply along_def, along_exportBundle.
Qed.
End preorder.

Lemma run_op_log pk op v : log_step pk v (run_op op v).
Proof.
  apply along_op; [apply _|apply log_appendEvent| | |]; intros; by apply log_step_frame.
Qed.

Lemma reachable_log pk v0 v : reachable v0 v -> log_step pk v0 v.
Proof.
  induction 1 as [|v op _ IH]; [reflexivity|]. etransitivity; [exact IH|apply run_op_log].
Qed.

(** The key pairs that Node generates are pairs: a fresh one, and the one of a seed. *)
Definition key_generation (d : draws) : Prop :=
  key_pair (VStr (d_pair d).2) (VStr (d_pair d).1) /\
  forall der publicPem privatePem, ed25519_from_seed der = Some (publicPem, privatePem) ->
    key_pair (VInst privatePem []) (VInst publicPem []).

Definition publicKey (v : Vault) : jsval := vget (v_signingKeyPair v) "publicKey".

Definition pair_ok (pair : jsval) : Prop :=
  key_pair (vget pair "privateKey") (vget pair "publicKey") /\
  is_undef (vget pair "publicKey") = false /\ is_undef (vget pair "privateKey") = false /\
  pruneUndefined (vget pair "privateKey") = vget pair "privateKey" /\
  exists id, vget pair "key_id" = VStr id.

Lemma signingPair_ok d seed : key_generation d -> pair_ok (signingPair d seed).
Proof.
  intros [H1 H2].
  assert (pair_ok (VObj (generateSigningKeyPair (d_pair d).1 (d_pair d).2 []))) as Hf.
  { unfold pair_ok. split_and!; try done. by eexists. }
  unfold signingPair. destruct seed as [s|]; [|done].
  destruct (buildEd25519Pkcs8 s) as [der|]; [|done].
  destruct (ed25519_from_seed der) as [[publicPem privatePem]|] eqn:E; [|done].
  unfold pair_ok. split_and!; try done; [by eapply H2|by eexists].
Qed.

Lemma createVault_log d args v :
  createVault d args = Ok v -> is_nullish (fget args "signingKeyPair") = true ->
  is_nullish (fget args "signer") = true -> key_generation d ->
  log_ok (publicKey v) v /\ v_receipts v = [].
Proof.
  intros H Hp Hs Hg. unfold createVault in H. inv_res.
  match goal with E : vault_keys _ _ = Ok ?x |- _ => destruct x as [[[vk ak] seed] kt] end.
  inv_res. assert ((fget args "signingKeyPair" ?? signingPair d seed) = signingPair d seed) as E.
  { unfold coalesce. by rewrite Hp. }
  assert ((fget args "signer" ?? signerFor d (signingPair d seed)) = signerFor d (signingPair d seed)) as E'.
  { unfold coalesce. by rewrite Hs. }
  destruct (signingPair_ok d seed Hg) as (P1 & P2 & P3 & P4 & id & P5).
  split; [|done]. split; [|done|done].
  unfold publicKey. split; simpl; rewrite ?E, ?E'; try done.
  exists id. unfold signerFor. by rewrite P5.
Qed.

(** C1 The receipts of a vault are always a chain that an auditor accepts: start
    from a new vault and run any operations on it, in any order, with any arguments
    and whether or not they throw; [verifyReceiptChain] accepts its receipts under
    the vault's public key, and the log root it reports is the root of the receipt
    hashes; and the receipts are only ever appended to. *)
Theorem vault_receipts_verify d args v0 v :
  createVault d args = Ok v0 -> is_nullish (fget args "signingKeyPair") = true ->
  is_nullish (fget args "signer") = true -> key_generation d -> reachable v0 v ->
  (Z.of_nat (length (v_receipts v)) < 2 ^ 53)%Z ->
  exists result,
    verifyReceiptChain (VArr (v_receipts v)) (chain_options (publicKey v0)) = Ok result /\
    cr_ok result = true /\ cr_receipt_log_root result = Some (log_root (v_receipts v)) /\
    forall v', reachable v v' -> v_receipts v `prefix_of` v_receipts v'.
Proof.
  intros Hc Hp Hs Hg Hr Hlen. destruct (createVault_log _ _ _ Hc Hp Hs Hg) as [Ho _].
  destruct (reachable_log (publicKey v0) _ _ Hr) as [_ Hk]. specialize (Hk Hlen Ho).
  assert (map elem (v_receipts v) = v_receipts v) as Em.
  { rewrite <- (map_id (v_receipts v)) at 2. apply map_ext_in. intros r Hin%list_elem_of_In.
    pose proof (log_json _ _ Hk) as Hj. rewrite Forall_forall in Hj. specialize (Hj r Hin). by destruct r. }
  assert (plain_chain_options (chain_options (publicKey v0)) = true) as Hplain by reflexivity.
  destruct (verifyReceiptChain_plain (v_receipts v) _ Hplain Hlen) as (errors & He & ->).
  rewrite Em in He. pose proof (log_chain _ _ Hk) as Hv. assert (errors = []) as -> by by apply He.
  assert (is_ok (match last (v_receipts v) with
                 | Some r => getx (elem r) "active_set_root"
                 | None => Ok (VStr EMPTY_MERKLE_ROOT)
                 end) = true) as Hl.
  { apply last_active. rewrite Em. eapply chain_valid_records; [|exact Hv]. reflexivity. }
  destruct (match last (v_receipts v) with Some _ => _ | None => _ end); [|done].
  eexists. split; [reflexivity|]. split_and!; [done| |intros v' Hv'; by apply (reachable_log VUndef)].
  cbn [cr_receipt_log_root]. unfold log_root, computeSetRoot. do 3 f_equal. rewrite <- Em at 2. by rewrite map_map.
Qed.
End runs.

(** ** Tombstones are final *)
Section tombstones.
Context {C : Crypto} {L : CryptoLaws C} {Hst : Host} {Loc : Locale} {P : Platform}.

(** [appendEvent] adds an event and a receipt and recomputes the roots. *)
Lemma along_appendEvent (R : relation Vault) {HR : PreOrder R} clock uuid fields :
  (forall v e r t, R v (with_event e r t v)) -> (forall v r, R v (with_roots r v)) ->
  along R (appendEvent clock uuid fields).
Proof.
  intros He Hr. unfold appendEvent, applyLifecycleRoots. cbn zeta. along_all ltac:(auto).
Qed.

Lemma map_has_cons {A} k0 (a0 : A) m k : map_has ((k0, a0) :: m) k = (k0 =s= k) || map_has m k.
Proof.
  unfold map_has, str_eqb. csimpl. apply eq_true_iff_eq.
  rewrite orb_true_iff, !bool_decide_eq_true, elem_of_cons. naive_solver.
Qed.

Lemma map_has_set {A} (m : list (jstr * A)) k a k' :
  map_has (map_set m k a) k' = (k =s= k') || map_has m k'.
Proof.
  induction m as [|[k0 a0] m IH]; cbn [map_set]; [by rewrite map_has_cons|].
  destruct (k0 =s= k) eqn:E; rewrite !map_has_cons.
  - apply str_eqb_eq in E as ->. by destruct (k =s= k').
  - rewrite IH. by destruct (k0 =s= k'), (k =s= k').
Qed.

Definition tombs_step (v v' : Vault) : Prop :=
  forall a, tombstoned v a = true -> tombstoned v' a = true.

#[local] Instance tombs_preorder : PreOrder tombs_step.
Proof. split; unfold tombs_step; repeat intro; eauto. Qed.

Lemma run_op_tombs op v : tombs_step v (run_op op v).
Proof.
  apply along_op; [apply _| |by intros ? ? ?|by intros ? ? ?|].
  - intros. apply along_appendEvent; [apply _|by intros ? ? ? ? ?|by intros ? ? ?].
  - intros v' a t b H. unfold tombstoned in *. simpl. by rewrite map_has_set, H, orb_true_r.
Qed.

Lemma reachable_tombs v v' : reachable v v' -> tombs_step v v'.
Proof.
  induction 1 as [|v' op _ IH]; [reflexivity|]. etransitivity; [exact IH|apply run_op_tombs].
Qed.

(** The address under which [remember] would store its content. *)
Definition remember_address (d : draws) (args : obj) (v : Vault) : res jstr :=
  let plaintext := fget args "content" ?? fget args "text" ?? fget args "plaintext" in
  memoryAddress v (fget args "subject_id" ?? fget args "subjectId" ?? info v "subject_id")
    (fget args "memory_id" ?? fget args "memoryId" ?? VStr ("mem_" +s+ d_uuid d 0))
    (sha_root (to_str plaintext)).

Definition named_address (args : obj) : jsval := fget args "memory_addr" ?? fget args "memoryAddr".

(** A call that throws and leaves the vault as it was. *)
Definition refused {A} (m : VM A) (v : Vault) : Prop := exists e, m v = (Throw e, v).

Lemma tombstoned_refused v addr d args :
  tombstoned v addr = true ->
  (named_address args = VStr addr -> addr <> [] ->
     recall d args v = (Throw (PlainError ("memory is tombstoned: " +s+ addr)), v) /\
     refused (updateMemory d args) v /\ refused (deleteMemory d args) v) /\
  (remember_address d args v = Ok addr -> refused (remember d args) v).
Proof.
  unfold named_address. intros Ht. split.
  - intros Ha Hne. apply str_eqb_neq in Hne.
    assert (truthy (VStr addr) = true) as Htr by (cbn; by rewrite Hne).
    split_and!.
    + unfold recall. cbn zeta. rewrite Ha, Htr. cbn [negb vbind vread is_string str_of]. by rewrite Ht.
    + unfold updateMemory, refused. cbn zeta. rewrite Ha, Htr. cbn [negb].
      destruct (is_nullish _); [by eexists|]. cbn [vbind vread is_string str_of].
      rewrite Ht. by eexists.
    + unfold deleteMemory, refused. cbn zeta. rewrite Ha, Htr. cbn [negb vbind vread is_string str_of].
      rewrite Ht. by eexists.
  - unfold remember_address, remember, refused. cbn zeta. intros Ha. cbn [vbind vread].
    destruct (is_nullish _); [by eexists|]. cbn [vbind vlift].
    destruct (nowIso _ _); [|by eexists]. rewrite Ha, Ht. by eexists.
Qed.

(** Appending an event leaves the memories, their sets and the keys alone. *)
Record same_store (v v' : Vault) : Prop := {
  ss_memories : v_memories v' = v_memories v;
  ss_active : v_activeAddresses v' = v_activeAddresses v;
  ss_tombstones : v_tombstones v' = v_tombstones v;
  ss_vaultKey : v_vaultKey v' = v_vaultKey v;
  ss_addressKey : v_addressKey v' = v_addressKey v;
  ss_info : v_info v' = v_info v
}.

#[local] Instance same_store_preorder : PreOrder same_store.
Proof. split; [done|]. intros v1 v2 v3 [] []. split; congruence. Qed.

Lemma appendEvent_store clock uuid fields v : same_store v (appendEvent clock uuid fields v).2.
Proof. apply along_def, along_appendEvent; [apply _|by intros|by intros]. Qed.

Lemma appendEvent_ok clock uuid fields v x v' :
  appendEvent clock uuid fields v = (x, v') -> same_store v v'.
Proof. intros E. pose proof (appendEvent_store clock uuid fields v) as H. by rewrite E in H. Qed.

Lemma vbind_ok {A B} (m : VM A) (k : A -> VM B) v b v' :
  (do! a := m in k a) v = (Ok b, v') -> exists a v1, m v = (Ok a, v1) /\ k a v1 = (Ok b, v').
Proof. unfold vbind. destruct (m v) as [[a|e] v1]; [eauto|done]. Qed.

Lemma deleteMemory_tombstoned d args v r v1 :
  deleteMemory d args v = (Ok r, v1) ->
  tombstoned v1 (o_memory_addr r) = true /\ named_address args = VStr (o_memory_addr r) /\
  o_memory_addr r <> [].
Proof.
  unfold deleteMemory, named_address. cbn zeta. set (addr := fget args "memory_addr" ?? _).
  destruct (truthy addr) eqn:Et; [|done]. cbn [negb]. intros (v0 & ? & [= <- <-] & H)%vbind_ok.
  destruct (is_string addr && tombstoned v (str_of addr)); [done|].
  destruct (is_string addr && is_active v (str_of addr)) eqn:Ea; [|done].
  apply andb_true_iff in Ea as [Es _]. destruct addr as [| | | |s| | | | | | | |]; try done. cbn [negb str_of] in H.
  apply vbind_ok in H as (? & v2 & _ & H). apply vbind_ok in H as (? & ? & [= <- <-] & H).
  apply vbind_ok in H as (stamp & ? & [= E <-] & H). apply vbind_ok in H as (? & ? & [= <- <-] & H).
  apply vbind_ok in H as (er & v3 & Happ & [= <- <-]). cbn [o_memory_addr].
  apply appendEvent_ok in Happ. split_and!.
  - unfold tombstoned. rewrite (ss_tombstones _ _ Happ). simpl. by rewrite map_has_set, str_eqb_refl.
  - done.
  - intros ->. done.
Qed.

(** C2 Deletion is final: once [deleteMemory] has returned, no sequence of
    operations brings the address back.  Whatever happens to the vault afterwards,
    the address stays tombstoned, recalling, updating or deleting it throws and
    changes nothing, and so does remembering content that has this address. *)
Theorem deletion_is_final d args v r v1 v2 :
  deleteMemory d args v = (Ok r, v1) -> reachable v1 v2 ->
  let addr := o_memory_addr r in
  tombstoned v2 addr = true /\
  forall d' args',
    (named_address args' = VStr addr ->
       recall d' args' v2 = (Throw (PlainError ("memory is tombstoned: " +s+ addr)), v2) /\
       refused (updateMemory d' args') v2 /\ refused (deleteMemory d' args') v2) /\
    (remember_address d' args' v2 = Ok addr -> refused (remember d' args') v2).
Proof.
  cbn zeta. intros H Hr. apply deleteMemory_tombstoned in H as (Ht & _ & Hne).
  apply (reachable_tombs _ _ Hr) in Ht. split; [done|]. intros d' args'.
  destruct (tombstoned_refused v2 _ d' args' Ht) as [H1 H2]. auto.
Qed.
End tombstones.

(** ** The active and the tombstoned addresses *)

(** [run_vm H] evaluates the computation of the hypothesis [H : m v = (x, v')]
    branch by branch, up to an appended event. *)
Ltac run_vm H :=
  repeat lazymatch type of H with
    | (if ?b then _ else _) _ = _ => destruct b eqn:?
    | vlift _ _ = _ => unfold vlift in H
    | vret _ _ = _ => unfold vret in H
    | vmodify _ _ = _ => unfold vmodify in H
    | vbind (vlift ?m) _ _ = _ => unfold vbind at 1, vlift at 1 in H; destruct m eqn:?
    | vbind (vread _) _ _ = _ => unfold vbind at 1, vread at 1 in H; cbn beta iota in H
    | vbind (vmodify _) _ _ = _ => unfold vbind at 1, vmodify at 1 in H; cbn beta iota in H
    | vbind ?m _ ?v = _ => unfold vbind at 1 in H; destruct (m v) as [[?|?] ?] eqn:?
    | (Throw _, _) = (Ok _, _) => discriminate H
    | (_, _) = (_, _) => injection H as <- <-
    | match ?m with _ => _ end _ = _ => destruct m eqn:?
    end.

(** [read_store] reads the sets of a vault through the updates of an operation. *)
Ltac read_store :=
  try match goal with E : appendEvent _ _ _ _ = _ |- _ =>
    apply appendEvent_ok in E as [? ? ? ? ? ?] end;
  repeat (cbn [v_activeAddresses v_tombstones with_active with_tombstones with_memories put_memory];
          match goal with E : v_activeAddresses _ = _ |- _ => rewrite E
                        | E : v_tombstones _ = _ |- _ => rewrite E end);
  cbn [v_activeAddresses v_tombstones with_active with_tombstones with_memories put_memory].

Section overlap.
Context {C : Crypto} {L : CryptoLaws C} {Hst : Host} {Loc : Locale} {P : Platform}.

Lemma remember_sets d args v x v' :
  remember d args v = (x, v') ->
  v_tombstones v' = v_tombstones v /\
  (v_activeAddresses v' = v_activeAddresses v \/
   exists a, remember_address d args v = Ok a /\ tombstoned v a = false /\
             v_activeAddresses v' = set_add a (v_activeAddresses v)).
Proof.
  unfold remember, remember_address. cbn zeta. intros H. run_vm H; read_store; eauto 7.
Qed.

(** Changes of the records alone. *)
Definition same_sets (v v' : Vault) : Prop :=
  v_activeAddresses v' = v_activeAddresses v /\ v_tombstones v' = v_tombstones v.

#[local] Instance same_sets_preorder : PreOrder same_sets.
Proof. split; unfold same_sets; [done|]. intros v1 v2 v3 [] []. split; congruence. Qed.

Lemma appendEvent_sets clock uuid fields : along same_sets (appendEvent clock uuid fields).
Proof. apply along_appendEvent; [apply _|by split|by split]. Qed.

#[local] Hint Resolve appendEvent_sets : vault.

Lemma delete_record_sets d args addr v : along same_sets (delete_record d args addr v).
Proof. unfold delete_record. along_all ltac:(by split). Qed.

Lemma recall_sets d args : along same_sets (recall d args).
Proof. unfold recall. cbn zeta. along_all ltac:(by split). Qed.

Lemma exportBundle_sets d args : along same_sets (exportBundle d args).
Proof. apply along_exportBundle; [apply _|apply appendEvent_sets]. Qed.

Lemma set_delete_sublist a l : set_delete a l `sublist_of` l.
Proof. apply sublist_filter. Qed.

Lemma deleteMemory_sets d args v x v' :
  deleteMemory d args v = (x, v') ->
  (v_tombstones v' = v_tombstones v /\ v_activeAddresses v' `sublist_of` v_activeAddresses v) \/
  exists a t, v_activeAddresses v' = set_delete a (v_activeAddresses v) /\
              v_tombstones v' = map_set (v_tombstones v) a t.
Proof.
  unfold deleteMemory. cbn zeta. intros H. run_vm H;
    try match goal with E : delete_record ?d ?args ?addr ?v ?v = _ |- _ =>
      pose proof (delete_record_sets d args addr v v) as Hd; rewrite E in Hd; destruct Hd as [? ?] end;
    cbn [snd] in *; read_store;
    first [ left; split; [done|first [reflexivity|apply set_delete_sublist]] | right; eauto ].
Qed.

Definition new_content (args : obj) : jsval :=
  fget args "content" ?? fget args "text" ?? fget args "plaintext".

Lemma updateMemory_sets d args v x v' :
  updateMemory d args v = (x, v') ->
  (v_tombstones v' = v_tombstones v /\ v_activeAddresses v' `sublist_of` v_activeAddresses v) \/
  exists old a t subject id,
    named_address args = VStr old /\
    memoryAddress v subject id (sha_root (to_str (new_content args))) = Ok a /\
    v_activeAddresses v' = set_add a (set_delete old (v_activeAddresses v)) /\
    v_tombstones v' = map_set (v_tombstones v) old t.
Proof.
  unfold updateMemory, named_address, new_content. cbn zeta.
  set (addr := fget args "memory_addr" ?? _). intros H.
  run_vm H; read_store;
    first [ left; split; [done|first [reflexivity|apply set_delete_sublist]] | right ].
  all: match goal with E : _ || negb _ = false |- _ => apply orb_false_iff in E as [_ E];
         apply negb_false_iff, andb_true_iff in E as [E _] end.
  all: destruct addr as [| | | |s| | | | | | | |]; try done; cbn [str_of] in *.
  all: eexists _, _, _, _, _; split_and!; [reflexivity|eassumption|reflexivity|reflexivity].
Qed.

(** The active and the tombstoned addresses of a vault are disjoint. *)
Definition disjoint_sets (v : Vault) : Prop :=
  forall a, is_active v a = true -> tombstoned v a = false.

Lemma disjoint_sublist v v' :
  disjoint_sets v -> v_tombstones v' = v_tombstones v ->
  v_activeAddresses v' `sublist_of` v_activeAddresses v -> disjoint_sets v'.
Proof.
  intros Hd Et Hs a Ha. unfold tombstoned. rewrite Et. apply Hd. unfold is_active in *.
  rewrite mem_str_true in *. by eapply elem_of_sublist.
Qed.

(** C22 The active set and the tombstones stay disjoint under every operation,
    whether it throws or not, except in one case: an update whose new address is
    the updated address itself or was tombstoned before. *)
Theorem active_tombstones_disjoint op v a :
  disjoint_sets v -> is_active (run_op op v) a = true -> tombstoned (run_op op v) a = true ->
  exists d args old subject id,
    op = UpdateMemory d args /\ named_address args = VStr old /\
    memoryAddress v subject id (sha_root (to_str (new_content args))) = Ok a /\
    (a = old \/ tombstoned v a = true).
Proof.
  intros Hd Ha Ht.
  assert (disjoint_sets (run_op op v) -> False) as Hn by (intros H; by rewrite H in Ht).
  destruct op as [d args|d args|d args|d args|d args]; cbn [run_op] in *.
  - destruct (remember d args v) as [x v'] eqn:E. cbn [snd] in *.
    apply remember_sets in E as [Et [Ea|(b & _ & Hb & Ea)]]; destruct Hn;
      [eapply disjoint_sublist; eauto; by rewrite Ea|].
    intros c Hc. unfold tombstoned, is_active in *. rewrite Et. rewrite Ea, mem_str_true, elem_of_set_add in Hc.
    destruct Hc as [->|Hc]; [done|]. by apply Hd, mem_str_true.
  - destruct (recall_sets d args v) as [Ea Et]. destruct Hn.
    eapply disjoint_sublist; eauto. by rewrite Ea.
  - destruct (updateMemory d args v) as [x v'] eqn:E. cbn [snd] in *.
    apply updateMemory_sets in E as [[Et Ea]|(old & b & t & subject & id & En & Em & Ea & Et)];
      [by destruct Hn; eapply disjoint_sublist|].
    unfold tombstoned, is_active in *. rewrite Et, map_has_set in Ht.
    rewrite Ea, mem_str_true, elem_of_set_add, elem_of_set_delete in Ha.
    destruct Ha as [->|[Ha Hne]].
    + exists d, args, old, subject, id. split_and!; try done.
      apply orb_true_iff in Ht as [Ht|Ht]; [left|by right]. by apply str_eqb_eq in Ht.
    + rewrite <- mem_str_true in Ha. apply Hd in Ha. unfold tombstoned in Ha. rewrite Ha, orb_false_r in Ht.
      by apply str_eqb_eq in Ht.
  - destruct (deleteMemory d args v) as [x v'] eqn:E. cbn [snd] in *.
    apply deleteMemory_sets in E as [[Et Ea]|(b & t & Ea & Et)]; destruct Hn;
      [by eapply disjoint_sublist|].
    intros c Hc. unfold tombstoned, is_active in *. rewrite Et, map_has_set.
    rewrite Ea, mem_str_true, elem_of_set_delete in Hc. destruct Hc as [Hc Hne].
    rewrite <- mem_str_true in Hc. apply Hd in Hc. unfold tombstoned in Hc.
    rewrite Hc, orb_false_r. apply str_eqb_neq. congruence.
  - destruct (exportBundle_sets d args v) as [Ea Et]. destruct Hn.
    eapply disjoint_sublist; eauto. by rewrite Ea.
Qed.
End overlap.

(** ** An update that keeps the content *)
Section no_op_update.
Context {C : Crypto} {L : CryptoLaws C} {Hst : Host} {Loc : Locale} {P : Platform}.

(** Updating a memory with the content it already has loses it: the new address is
    the old one, the update returns normally and leaves it both active and
    tombstoned, and from then on every recall throws, whatever else is done. *)
Theorem no_op_update_loses_memory d args v old record r v1 :
  named_address args = VStr old -> map_get (v_memories v) old = Some record ->
  memoryAddress v (fget (m_fields record) "subject_id") (fget (m_fields record) "memory_id")
    (sha_root (to_str (new_content args))) = Ok old ->
  updateMemory d args v = (Ok r, v1) ->
  is_active v1 old = true /\ tombstoned v1 old = true /\
  forall v2 d' args', reachable v1 v2 -> named_address args' = VStr old ->
    recall d' args' v2 = (Throw (PlainError ("memory is tombstoned: " +s+ old)), v2).
Proof.
  unfold named_address, new_content, updateMemory. cbn zeta. intros Ha Hm Hn H. rewrite Ha in H.
  destruct (truthy (VStr old)) eqn:Ht; [|done]. cbn [negb str_of is_string andb] in H.
  assert (old <> []) as Hne by (intros ->; done).
  run_vm H; simplify_eq. unfold set_field in *. cbn [m_fields] in *.
  match goal with E : memoryAddress _ _ _ _ = Ok _ |- _ =>
    rewrite !fget_fset in E;
    assert (a0 = old) as -> by (apply Ok_inj; rewrite <- E, <- Hn; reflexivity) end.
  apply appendEvent_ok in Heqp as [_ Ea Et _ _ _].
  assert (tombstoned v0 old = true) as Htomb.
  { unfold tombstoned. rewrite Et. cbn [v_tombstones with_tombstones]. by rewrite map_has_set, str_eqb_refl. }
  split_and!; [|done|].
  - unfold is_active. rewrite Ea. cbn [v_activeAddresses with_active with_tombstones].
    apply mem_str_true, elem_of_set_add. by left.
  - intros v2 d' args' Hr Ha'. apply (reachable_tombs _ _ Hr) in Htomb.
    by apply (tombstoned_refused v2 old d' args' Htomb).
Qed.
End no_op_update.

(** ** Samples *)
Lemma sample_keys n : key_generation (sample_draws n).
Proof. split; [reflexivity|]. intros der pub priv [= <- <-]. reflexivity. Qed.

Definition sample_vault : option Vault :=
  match createVault (sample_draws 0) [] with Ok v => Some v | Throw _ => None end.

Definition sample_content : obj := [("content" : jstr, vstr "likes tea")].

(** A vault with one memory, and its address. *)
Definition sample_stored (v : Vault) : Vault := run_op (Remember (sample_draws 1) sample_content) v.

Definition sample_address (v : Vault) : jstr :=
  match (remember (sample_draws 1) sample_content v).1 with Ok r => o_memory_addr r | Throw _ => [] end.

Definition sample_named (v : Vault) : obj := [("memory_addr" : jstr, VStr (sample_address v))].

Definition sample_read (v : Vault) : Vault := run_op (Recall (sample_draws 2) (sample_named v)) (sample_stored v).

Lemma vault_receipts_verify_witness :
  exists v0 result, createVault (sample_draws 0) [] = Ok v0 /\
    length (v_receipts (sample_read v0)) = 2 /\
    verifyReceiptChain (VArr (v_receipts (sample_read v0))) (chain_options (publicKey v0)) = Ok result /\
    cr_ok result = true.
Proof.
  destruct (createVault (sample_draws 0) []) as [v0|] eqn:E; [|by vm_compute in E].
  assert (length (v_receipts (sample_read v0)) = 2) as Hlen.
  { vm_compute in E. injection E as <-. vm_compute. reflexivity. }
  destruct (vault_receipts_verify (sample_draws 0) [] v0 (sample_read v0)) as (result & H1 & H2 & _);
    [exact E|reflexivity|reflexivity|apply sample_keys|do 2 apply reach_op; apply reach_start| |].
  { rewrite Hlen. lia. }
  exists v0, result. auto.
Defined.

Lemma deletion_is_final_witness :
  exists v0 v1 v2 r, createVault (sample_draws 0) [] = Ok v0 /\
    deleteMemory (sample_draws 2) (sample_named v0) (sample_stored v0) = (Ok r, v1) /\
    reachable v1 v2 /\ tombstoned v2 (o_memory_addr r) = true.
Proof.
  destruct (createVault (sample_draws 0) []) as [v0|] eqn:E; [|by vm_compute in E].
  destruct (deleteMemory (sample_draws 2) (sample_named v0) (sample_stored v0)) as [[r|] v1] eqn:Ed.
  - exists v0, v1, (run_op (Remember (sample_draws 3) sample_content) v1), r.
    split_and!; [reflexivity|exact Ed|apply reach_op, reach_start|].
    eapply deletion_is_final; [exact Ed|apply reach_op, reach_start].
  - exfalso. apply (f_equal fst) in Ed. vm_compute in E. injection E as <-. vm_compute in Ed. discriminate.
Defined.

Lemma active_tombstones_disjoint_witness :
  exists v0 op a, createVault (sample_draws 0) [] = Ok v0 /\
    is_active (run_op op (sample_stored v0)) a = true /\ tombstoned (run_op op (sample_stored v0)) a = true /\
    exists d args old subject id,
      op = UpdateMemory d args /\ named_address args = VStr old /\
      memoryAddress (sample_stored v0) subject id (sha_root (to_str (new_content args))) = Ok a /\
      (a = old \/ tombstoned (sample_stored v0) a = true).
Proof.
  destruct (createVault (sample_draws 0) []) as [v0|] eqn:E; [|by vm_compute in E].
  set (op := UpdateMemory (sample_draws 2) (sample_named v0 ++ sample_content)).
  assert (is_active (run_op op (sample_stored v0)) (sample_address v0) = true /\
          tombstoned (run_op op (sample_stored v0)) (sample_address v0) = true /\
          v_tombstones (sample_stored v0) = []) as (Ha & Ht & Hn).
  { subst op. vm_compute in E. injection E as <-. vm_compute. auto. }
  exists v0, op, (sample_address v0). split_and!; [reflexivity|exact Ha|exact Ht|].
  apply (active_tombstones_disjoint op (sample_stored v0)); [|exact Ha|exact Ht].
  intros b _. unfold tombstoned. rewrite Hn. reflexivity.
Defined.

Lemma no_op_update_loses_memory_witness :
  exists v0 old r v1, createVault (sample_draws 0) [] = Ok v0 /\
    updateMemory (sample_draws 2) (sample_named v0 ++ sample_content) (sample_stored v0) = (Ok r, v1) /\
    is_active v1 old = true /\ tombstoned v1 old = true.
Proof.
  destruct (createVault (sample_draws 0) []) as [v0|] eqn:E; [|by vm_compute in E].
  destruct (map_get (v_memories (sample_stored v0)) (sample_address v0)) as [m|] eqn:Em.
  2: { vm_compute in E. injection E as <-. by vm_compute in Em. }
  destruct (updateMemory (sample_draws 2) (sample_named v0 ++ sample_content) (sample_stored v0))
    as [[r|] v1] eqn:Eu.
  2: { apply (f_equal fst) in Eu. vm_compute in E. injection E as <-. vm_compute in Eu. discriminate. }
  exists v0, (sample_address v0), r, v1. split; [reflexivity|]. split; [exact Eu|].
  destruct (no_op_update_loses_memory (sample_draws 2) (sample_named v0 ++ sample_content)
    (sample_stored v0) (sample_address v0) m r v1) as (H1 & H2 & _); [reflexivity|exact Em| |exact Eu|auto].
  vm_compute in E. injection E as <-. vm_compute in Em. injection Em as <-. vm_compute. reflexivity.
Defined.
