(* ===== verification/VaultRecall.v ===== *)
(** * What was remembered is recalled

    [remember] seals the content under the address, [recall] opens it.  The theorem
    follows one memory through any run of operations that do not name its address. *)

From S2P Require Import Prelude JsValue Objects Regex Canonical Hashing Merkle Receipt PublicSafe Dates VaultPublic Vault Samples MapFacts VaultBundle VaultSafety.

(** No lone surrogate: UTF-8 encoding and decoding give the text back. *)
Fixpoint well_formed (s : jstr) : bool :=
  match s with
  | [] => true
  | c :: s' =>
      if is_high_surrogate c then
        match s' with d :: s'' => is_low_surrogate d && well_formed s'' | [] => false end
      else negb (is_low_surrogate c) && well_formed s'
  end.

(** AES-256-GCM opens what it sealed under the same key, nonce and address. *)
Class AeadLaws (P : Platform) := {
  aead_roundtrip : forall key iv aad text, well_formed text = true ->
    aead_open key iv aad (aead_seal key iv aad text).1 (aead_seal key iv aad text).2 = Some text
}.

Section recall.
Context {C : Crypto} {L : CryptoLaws C} {Hst : Host} {Loc : Locale} {P : Platform} {AL : AeadLaws P}.

(** The fields of a record that [recall] accepts under [addr] and opens to [text]. *)
Record readable (key : list N) (addr text : jstr) (fields : obj) : Prop := {
  rd_state : fget fields "state" = vstr "active";
  rd_plain : fdelete fields "plaintext" = fields;
  rd_sealed : exists iv, fget fields "content_ciphertext" =
    VObj [("alg" : jstr, vstr "AES-256-GCM"); ("iv" : jstr, VStr iv); ("aad" : jstr, VStr addr);
          ("ciphertext" : jstr, VStr (aead_seal key iv addr text).1);
          ("tag" : jstr, VStr (aead_seal key iv addr text).2)];
  rd_public : is_ok (publicRecord fields) = true
}.

Record holds (addr text : jstr) (v : Vault) : Prop := {
  h_active : is_active v addr = true;
  h_tombstone : tombstoned v addr = false;
  h_record : exists fields cache,
    map_get (v_memories v) addr = Some {| m_fields := fields; m_plaintext := cache |} /\
    readable (v_vaultKey v) addr text fields /\ (cache = None \/ cache = Some text)
}.

Lemma decrypt_readable addr text v fields cache :
  well_formed text = true -> readable (v_vaultKey v) addr text fields ->
  cache = None \/ cache = Some text ->
  decryptContent v {| m_fields := fields; m_plaintext := cache |} =
  (Ok text, {| m_fields := fields; m_plaintext := Some text |}).
Proof.
  intros Hw [_ Hp [iv Hs] _] [->| ->]; [|done].
  unfold decryptContent, getPlaintextCache. cbn [m_plaintext m_fields]. rewrite Hp, Hs.
  cbn [getx res_bind]. unfold vget. cbn [own_fields]. simp_get. cbn [buffer_text res_bind coalesce is_nullish].
  by rewrite aead_roundtrip.
Qed.

Lemma encryptContent_json iv v addr text : json_data (encryptContent iv v addr text) = true.
Proof. done. Qed.

Lemma memory_record_readable d v args plaintext memoryId subjectId createdAt hash addr fields :
  memory_record d v args plaintext memoryId subjectId createdAt hash addr = Ok fields ->
  is_ok (publicRecord fields) = true -> readable (v_vaultKey v) addr (to_str plaintext) fields.
Proof.
  unfold memory_record. intros H Hp. inv_res. split; [| | |done].
  - rewrite fget_prune by (apply distinct_keys; vm_compute; reflexivity). simp_get. reflexivity.
  - apply fdelete_absent. intros Hk%keys_prune. revert Hk. apply mem_str_false. vm_compute. reflexivity.
  - exists (b64_encode (d_bytes d 0)).
    rewrite fget_prune by (apply distinct_keys; vm_compute; reflexivity). simp_get.
    rewrite prune_json by apply encryptContent_json. reflexivity.
Qed.

Lemma memoryAddress_nonempty v subject id hash a : memoryAddress v subject id hash = Ok a -> a <> [].
Proof.
  unfold memoryAddress. intros H. inv_res. by destruct (createMemoryAddress _ _ _) as [[|]|].
Qed.

(** [remember] puts its content into the vault. *)
Lemma remember_holds d args v r v1 :
  remember d args v = (Ok r, v1) -> holds (o_memory_addr r) (to_str (new_content args)) v1 /\ o_memory_addr r <> [].
Proof.
  unfold remember, new_content. cbn zeta. intros H. run_vm H. cbn [o_memory_addr].
  split; [|by eapply memoryAddress_nonempty].
  match goal with E : appendEvent _ _ _ _ = _ |- _ =>
    apply appendEvent_ok in E as [Em Ea Et Ek _ _] end.
  split.
  - unfold is_active. rewrite Ea. cbn [v_activeAddresses with_active put_memory with_memories].
    apply mem_str_true, elem_of_set_add. by left.
  - unfold tombstoned. rewrite Et. done.
  - rewrite Em, Ek. cbn [v_memories with_active put_memory with_memories v_vaultKey].
    rewrite map_get_set, str_eqb_refl. eexists _, _. split; [reflexivity|]. split; [|by left].
    eapply memory_record_readable; [eassumption|]. by match goal with E : publicRecord _ = _ |- _ => rewrite E end.
Qed.

(** ** Operations on other addresses *)

(** What [holds] depends on. *)
Record frame (addr : jstr) (v v' : Vault) : Prop := {
  fr_active : is_active v addr = true -> is_active v' addr = true;
  fr_tombstone : tombstoned v addr = false -> tombstoned v' addr = false;
  fr_memory : map_get (v_memories v') addr = map_get (v_memories v) addr;
  fr_key : v_vaultKey v' = v_vaultKey v
}.

#[export] Instance frame_preorder addr : PreOrder (frame addr).
Proof. split; [done|]. intros v1 v2 v3 [] []. split; try tauto; congruence. Qed.

Lemma frame_holds addr text v v' : frame addr v v' -> holds addr text v -> holds addr text v'.
Proof. intros [Fa Ft Fm Fk] [Ha Ht Hr]. split; [auto|auto|by rewrite Fm, Fk]. Qed.

Lemma frame_put addr k m v : k <> addr -> frame addr v (put_memory k m v).
Proof.
  intros H%str_eqb_neq. split; try done. cbn [v_memories put_memory with_memories].
  by rewrite map_get_set, H.
Qed.

Lemma frame_add addr k l v :
  l = v_activeAddresses v -> frame addr v (with_active (set_add k l) v).
Proof.
  intros ->. split; try done. unfold is_active. cbn [v_activeAddresses with_active].
  rewrite !mem_str_true, elem_of_set_add. auto.
Qed.

Lemma frame_delete addr k l v :
  l = v_activeAddresses v -> k <> addr -> frame addr v (with_active (set_delete k l) v).
Proof.
  intros -> H. split; try done. unfold is_active. cbn [v_activeAddresses with_active].
  rewrite !mem_str_true, elem_of_set_delete. auto.
Qed.

Lemma frame_tombstone addr k t l v :
  l = v_tombstones v -> k <> addr -> frame addr v (with_tombstones (map_set l k t) v).
Proof.
  intros -> H%str_eqb_neq. split; try done. unfold tombstoned. cbn [v_tombstones with_tombstones].
  by rewrite map_has_set, H.
Qed.

Lemma frame_append addr clock uuid fields v x v' :
  appendEvent clock uuid fields v = (x, v') -> frame addr v v'.
Proof.
  intros [Em Ea Et Ek _ _]%appendEvent_ok.
  split; unfold is_active, tombstoned; rewrite ?Em, ?Ea, ?Et; done.
Qed.

End recall.

(** [frames] follows an address through the updates of an operation. *)
Ltac frames :=
  repeat match goal with
    | E : appendEvent _ _ _ _ = (_, ?v) |- frame _ _ ?v =>
        etransitivity; [|eapply frame_append; exact E]; clear E
    | |- frame _ ?v ?v => reflexivity
    | |- frame _ _ (put_memory _ _ _) => etransitivity; [|apply frame_put]
    | |- frame _ _ (with_active (set_add _ _) _) => etransitivity; [|apply frame_add; [reflexivity|..]]
    | |- frame _ _ (with_active (set_delete _ _) _) => etransitivity; [|apply frame_delete; [reflexivity|..]]
    | |- frame _ _ (with_tombstones _ _) => etransitivity; [|apply frame_tombstone; [reflexivity|..]]
    end.

Section runs.
Context {C : Crypto} {L : CryptoLaws C} {Hst : Host} {Loc : Locale} {P : Platform} {AL : AeadLaws P}.

(** Operations that neither name nor compute [addr]. *)
Definition spares (addr : jstr) (op : vault_op) (v : Vault) : Prop :=
  match op with
  | Recall _ _ | ExportBundle _ _ => True
  | Remember d args => remember_address d args v <> Ok addr
  | DeleteMemory _ args => named_address args <> VStr addr
  | UpdateMemory _ args =>
      named_address args <> VStr addr /\
      forall subject id, memoryAddress v subject id (sha_root (to_str (new_content args))) <> Ok addr
  end.

Lemma remember_frame addr d args v x v' :
  remember d args v = (x, v') -> remember_address d args v <> Ok addr -> frame addr v v'.
Proof.
  unfold remember, remember_address. cbn zeta. intros H Hne. run_vm H; frames; congruence.
Qed.

Lemma string_value v : is_string v = true -> v = VStr (str_of v).
Proof. by destruct v. Qed.

Lemma named_ne args addr b :
  negb (is_string (named_address args) && b) = false -> named_address args <> VStr addr ->
  str_of (named_address args) <> addr.
Proof.
  intros [Hs _]%negb_false_iff%andb_true_iff Hn E. apply string_value in Hs. congruence.
Qed.

Lemma updateMemory_frame addr d args v x v' :
  updateMemory d args v = (x, v') -> spares addr (UpdateMemory d args) v -> frame addr v v'.
Proof.
  unfold updateMemory. cbn zeta. fold (named_address args) (new_content args).
  intros H [Hn Ha]. run_vm H; try reflexivity;
    match goal with E : _ || _ = false |- _ =>
      apply orb_false_iff in E as [_ E]; pose proof (named_ne _ _ _ E Hn) end;
    frames; try done; intros ->; by eapply Ha.
Qed.

Lemma deleteMemory_frame addr d args v x v' :
  deleteMemory d args v = (x, v') -> named_address args <> VStr addr -> frame addr v v'.
Proof.
  unfold deleteMemory. cbn zeta. fold (named_address args). intros H Hn.
  assert (forall a y v0, a <> addr -> delete_record d args a v v = (y, v0) -> frame addr v v0) as Hd.
  { intros a y v0 Hne E. unfold delete_record in E. run_vm E; frames; done. }
  run_vm H; try reflexivity;
    match goal with E : negb (is_string _ && _) = false |- _ => pose proof (named_ne _ _ _ E Hn) end;
    match goal with E : delete_record _ _ _ _ _ = _ |- _ => apply Hd in E; [|done] end;
    frames; done.
Qed.

Lemma exportBundle_frame addr d args v : frame addr v (exportBundle d args v).2.
Proof.
  apply (along_def (frame addr)), along_exportBundle; [apply _|]. intros clock uuid fields v'.
  eapply frame_append. apply surjective_pairing.
Qed.

(** A recall of any address keeps what the vault holds. *)
Lemma recall_holds addr text d args v :
  well_formed text = true -> holds addr text v -> holds addr text (recall d args v).2.
Proof.
  intros Hw Hh. destruct (recall d args v) as [x v'] eqn:H. cbn [snd]. revert H.
  unfold recall. cbn zeta. fold (named_address args).
  set (a := str_of (named_address args)). intros H.
  assert (forall record m p, map_get (v_memories v) a = Some record -> decryptContent v record = (p, m) ->
            holds addr text (put_memory a m v)) as Hput.
  { intros record m p Hm Hd. destruct (decide (a = addr)) as [E|Hne].
    - destruct Hh as [H1 H2 (fields & cache & H3 & H4 & H5)]. rewrite E in Hm. rewrite H3 in Hm.
      injection Hm as <-. rewrite (decrypt_readable addr text) in Hd by done. injection Hd as <- <-.
      split; [done|done|]. exists fields, (Some text). cbn [v_memories put_memory with_memories v_vaultKey].
      rewrite E, map_get_set, str_eqb_refl. auto.
    - eapply frame_holds; [|exact Hh]. by apply frame_put. }
  run_vm H; try done; eauto using frame_holds, frame_append.
Qed.

(** Runs that spare an address. *)
Inductive spared (addr : jstr) (v0 : Vault) : Vault -> Prop :=
  | spared_start : spared addr v0 v0
  | spared_op v op : spared addr v0 v -> spares addr op v -> spared addr v0 (run_op op v).

Lemma spared_holds addr text v0 v :
  well_formed text = true -> spared addr v0 v -> holds addr text v0 -> holds addr text v.
Proof.
  intros Hw Hs Hh. induction Hs as [|v op _ IH Hsp]; [done|].
  destruct op as [d args|d args|d args|d args|d args]; cbn [run_op spares] in *.
  - destruct (remember d args v) eqn:E. eauto using frame_holds, remember_frame.
  - by apply recall_holds.
  - destruct (updateMemory d args v) eqn:E. eauto using frame_holds, updateMemory_frame.
  - destruct (deleteMemory d args v) eqn:E. eauto using frame_holds, deleteMemory_frame.
  - eauto using frame_holds, exportBundle_frame.
Qed.

(** C3 What was remembered is recalled: after [remember] returned, and after any
    operations that do not name or compute its address, [recall] of that address
    gives exactly the text back.  The only way it can fail is that the read cannot be
    logged: it throws exactly when the event and receipt of the read are refused. *)
Theorem recall_returns_remembered d args v r v1 v2 d' args' :
  let addr := o_memory_addr r in
  let text := to_str (new_content args) in
  remember d args v = (Ok r, v1) -> well_formed text = true -> spared addr v1 v2 ->
  named_address args' = VStr addr ->
  exists m, m_plaintext m = Some text /\
  match appendEvent (d_clock d') (d_uuid d' 0) (recall_event args' addr m) (put_memory addr m v2) with
  | (Ok er, v3) => exists r', recall d' args' v2 = (Ok r', v3) /\ o_content r' = Some text /\
                              o_receipt r' = er.2
  | (Throw e, v3) => recall d' args' v2 = (Throw e, v3)
  end.
Proof.
  cbn zeta. intros H Hw Hs Ha. apply remember_holds in H as [H Hne].
  destruct (spared_holds _ _ _ _ Hw Hs H) as [H1 H2 (fields & cache & H3 & H4 & H5)].
  set (addr := o_memory_addr r) in *. set (text := to_str (new_content args)) in *.
  exists {| m_fields := fields; m_plaintext := Some text |}. split; [done|].
  destruct (recall d' args' v2) as [x w] eqn:E. unfold recall in E. cbn zeta in E.
  fold (named_address args') in E. rewrite Ha in E.
  apply str_eqb_neq in Hne. assert (truthy (VStr addr) = true) as Ht by (cbn; by rewrite Hne).
  rewrite Ht in E. cbn [negb is_string str_of andb] in E.
  pose proof (rd_state _ _ _ _ H4) as Hact. pose proof (rd_public _ _ _ _ H4) as Hp.
  run_vm E; simplify_eq; cbn [m_fields] in *; try congruence;
    try match goal with E : decryptContent _ _ = (_, _) |- _ => 
      rewrite (decrypt_readable addr text v2 fields cache Hw H4 H5) in E; simplify_eq end.
  all: try match goal with E : negb _ = true |- _ => rewrite ?H1, ?Hact in E; by vm_compute in E end.
  all: cbn [m_fields] in *.
  all: try by match goal with E : publicRecord _ = Throw _ |- _ => rewrite E in Hp end.
  all: match goal with E : appendEvent _ _ _ _ = _ |- _ => rewrite E end; eauto.
Qed.
End runs.

#[export] Instance SampleAead : AeadLaws SamplePlatform.
Proof. split. intros key iv aad text _. simpl. by rewrite str_eqb_refl. Defined.

Lemma recall_returns_remembered_witness :
  exists v0 r v1 m, createVault (sample_draws 0) [] = Ok v0 /\
    remember (sample_draws 1) sample_content v0 = (Ok r, v1) /\ m_plaintext m = Some ("likes tea" : jstr).
Proof.
  destruct (createVault (sample_draws 0) []) as [v0|] eqn:E; [|by vm_compute in E].
  destruct (remember (sample_draws 1) sample_content v0) as [[r|] v1] eqn:Er.
  - destruct (recall_returns_remembered (sample_draws 1) sample_content v0 r v1
      (run_op (Recall (sample_draws 2) [("memory_addr" : jstr, VStr (o_memory_addr r))]) v1)
      (sample_draws 3) [("memory_addr" : jstr, VStr (o_memory_addr r))]) as (m & Hm & _);
      [exact Er|reflexivity|apply spared_op; [apply spared_start|exact I]|reflexivity|].
    exists v0, r, v1, m. split; [reflexivity|]. split; [exact Er|exact Hm].
  - exfalso. apply (f_equal fst) in Er. vm_compute in E. injection E as <-. vm_compute in Er. discriminate.
Defined.
