(* ===== verification/VaultRefinement.v ===== *)
(** * The vault refines a store of memories

    The contract of the vault is a small machine: a finite map from live addresses to
    texts and a set of dead addresses.  Every run of operations that return is a run of
    this machine with the same labels, recalled texts included. *)

From S2P Require Import Prelude JsValue Objects Regex Canonical Hashing Merkle Receipt PublicSafe Dates VaultPublic Vault Samples MapFacts VaultBundle VaultSafety VaultRecall.

(** ** The machine *)
Record store := {
  s_live : gmap jstr jstr;
  s_dead : gset jstr
}.

Definition empty_store : store := {| s_live := ∅; s_dead := ∅ |}.

Inductive store_label :=
  | SRemember (addr text : jstr)
  | SRecall (addr text : jstr)
  | SUpdate (old new text : jstr)
  | SDelete (addr : jstr)
  | SExport.

(** The step of a label, if the machine allows it.  An update to a dead address, or to
    the updated address itself, leaves nothing to read. *)
Definition store_step (s : store) (l : store_label) : option store :=
  match l with
  | SRemember addr text =>
      if decide (addr ∈ s_dead s) then None
      else Some {| s_live := <[addr := text]> (s_live s); s_dead := s_dead s |}
  | SRecall addr text => if decide (s_live s !! addr = Some text) then Some s else None
  | SUpdate old new text =>
      match s_live s !! old with
      | None => None
      | Some _ =>
          let dead := {[old]} ∪ s_dead s in
          Some {| s_live := if decide (new ∈ dead) then delete old (s_live s)
                            else <[new := text]> (delete old (s_live s));
                  s_dead := dead |}
      end
  | SDelete addr =>
      match s_live s !! addr with
      | None => None
      | Some _ => Some {| s_live := delete addr (s_live s); s_dead := {[addr]} ∪ s_dead s |}
      end
  | SExport => Some s
  end.

Fixpoint store_run (s : store) (ls : list store_label) : option store :=
  match ls with
  | [] => Some s
  | l :: ls' => match store_step s l with Some s' => store_run s' ls' | None => None end
  end.

Section refinement.
Context {C : Crypto} {L : CryptoLaws C} {Hst : Host} {Loc : Locale} {P : Platform} {AL : AeadLaws P}.

(** An operation of the vault that returns, with its label. *)
Inductive vault_step (v : Vault) : store_label -> Vault -> Prop :=
  | step_remember d args r v' :
      remember d args v = (Ok r, v') -> well_formed (to_str (new_content args)) = true ->
      vault_step v (SRemember (o_memory_addr r) (to_str (new_content args))) v'
  | step_recall d args r v' text :
      recall d args v = (Ok r, v') -> o_content r = Some text ->
      vault_step v (SRecall (o_memory_addr r) text) v'
  | step_update d args r v' old :
      updateMemory d args v = (Ok r, v') -> well_formed (to_str (new_content args)) = true ->
      named_address args = VStr old ->
      vault_step v (SUpdate old (o_memory_addr r) (to_str (new_content args))) v'
  | step_delete d args r v' :
      deleteMemory d args v = (Ok r, v') -> vault_step v (SDelete (o_memory_addr r)) v'
  | step_export d args b v' : exportBundle d args v = (Ok b, v') -> vault_step v SExport v'.

Inductive vault_run (v : Vault) : list store_label -> Vault -> Prop :=
  | run_nil : vault_run v [] v
  | run_cons l ls v' v'' : vault_step v l v' -> vault_run v' ls v'' -> vault_run v (l :: ls) v''.

(** The store a vault implements. *)
Record abstracts (v : Vault) (s : store) : Prop := {
  ab_dead : forall a, a ∈ s_dead s <-> tombstoned v a = true;
  ab_live : forall a text, s_live s !! a = Some text -> holds a text v /\ well_formed text = true;
  ab_gone : forall a, s_live s !! a = None -> is_active v a = true -> tombstoned v a = true
}.

Lemma is_active_add v v' a b :
  v_activeAddresses v' = set_add b (v_activeAddresses v) -> is_active v' a = true -> a = b \/ is_active v a = true.
Proof. unfold is_active. intros ->. by rewrite !mem_str_true, elem_of_set_add. Qed.

(** ** What each operation does when it returns *)
Lemma remember_ok d args v r v' :
  remember d args v = (Ok r, v') ->
  remember_address d args v = Ok (o_memory_addr r) /\ tombstoned v (o_memory_addr r) = false /\
  v_tombstones v' = v_tombstones v /\ v_activeAddresses v' = set_add (o_memory_addr r) (v_activeAddresses v).
Proof.
  unfold remember, remember_address. cbn zeta. intros H. run_vm H. cbn [o_memory_addr]. read_store. auto.
Qed.

Lemma deleteMemory_ok d args v r v' :
  deleteMemory d args v = (Ok r, v') ->
  let a := o_memory_addr r in
  named_address args = VStr a /\ is_active v a = true /\ tombstoned v a = false /\
  v_activeAddresses v' = set_delete a (v_activeAddresses v) /\
  exists t, v_tombstones v' = map_set (v_tombstones v) a t.
Proof.
  unfold deleteMemory. cbn zeta. fold (named_address args). intros H. run_vm H. cbn [o_memory_addr].
  match goal with E : negb (_ && _) = false |- _ => apply negb_false_iff, andb_true_iff in E as [Hs Ha] end.
  match goal with E : is_string _ && _ = false |- _ => rewrite Hs in E; cbn [andb] in E end.
  match goal with E : delete_record ?d ?args ?addr ?v ?v = _ |- _ =>
    pose proof (delete_record_sets d args addr v v) as Hd; rewrite E in Hd; destruct Hd as [? ?] end.
  cbn [snd] in *. split_and!; try done; [by apply string_value| |]; read_store; eauto.
Qed.

Lemma updateMemory_ok d args v r v' old :
  updateMemory d args v = (Ok r, v') -> named_address args = VStr old ->
  let new := o_memory_addr r in
  is_active v old = true /\ tombstoned v old = false /\
  v_activeAddresses v' = set_add new (set_delete old (v_activeAddresses v)) /\
  (exists t, v_tombstones v' = map_set (v_tombstones v) old t) /\
  (forall a, a <> old -> a <> new -> frame a v v').
Proof.
  unfold updateMemory. cbn zeta. fold (named_address args) (new_content args). intros H En. rewrite En in H.
  cbn [is_string str_of andb] in H. run_vm H; simplify_eq. cbn [o_memory_addr].
  match goal with E : _ || _ = false |- _ => apply orb_false_iff in E as [Ht Ha%negb_false_iff] end.
  split_and!; try done; [read_store..|]; eauto. intros b Hb1 Hb2. frames; done.
Qed.

(** ** The record that [updateMemory] stores *)

(** The walk over the fields of a record in [sanitizePublicValue]. *)
Fixpoint sanitize_fields (out : obj) (fields : list (jstr * jsval)) : res obj :=
  match fields with
  | [] => Ok out
  | kv :: fields' =>
      let! out' :=
        (if isPlaintextLikeKey kv.1 then Ok out
         else if kv.1 =s= "metadata" then
           let! m := metadata kv.2 in Ok (fset out "metadata" (VObj m))
         else if (kv.1 =s= "source_refs") || (kv.1 =s= "sourceRefs") then
           Ok (fset out "source_refs" (VArr (sanitizeSourceRefs kv.2)))
         else if is_undef kv.2 then Ok out
         else let! v := sanitizePublicValue kv.2 in Ok (fset out kv.1 v)) in
      sanitize_fields out' fields'
  end.

Lemma sanitize_obj fields :
  sanitizePublicValue (VObj fields) = (let! out := sanitize_fields [] fields in Ok (VObj out)).
Proof.
  cbn [sanitizePublicValue]. match goal with |- res_bind ?m ?k = _ => assert (m = sanitize_fields [] fields) as -> end;
    [|done].
  generalize ([] : obj). induction fields as [|kv fields IH]; intros out; [done|]. cbn [sanitize_fields].
  match goal with |- res_bind ?m _ = res_bind ?m _ => destruct m; [|done] end. cbn [res_bind]. apply IH.
Qed.

(** Distinct keys, none of which names plaintext. *)
Definition public_keys (out : obj) : Prop :=
  NoDup (keys out) /\ Forall (λ k, isPlaintextLikeKey k = false) (keys out).

Lemma public_keys_fset out k v : public_keys out -> isPlaintextLikeKey k = false -> public_keys (fset out k v).
Proof.
  intros [Hd Hf] Hk. split; [by apply NoDup_keys_fset|]. rewrite Forall_forall in *.
  intros k' [->|?]%elem_of_keys_fset; auto.
Qed.

Lemma sanitize_fields_keys fields out out' :
  public_keys out -> sanitize_fields out fields = Ok out' -> public_keys out'.
Proof.
  revert out. induction fields as [|kv fields IH]; intros out Ho H; [by injection H as <-|].
  cbn [sanitize_fields] in H. apply res_bind_ok in H as (out1 & H1 & H2). apply (IH out1); [|done].
  destruct (isPlaintextLikeKey kv.1) eqn:Ek; [by injection H1 as <-|].
  repeat case_match; inv_res; subst; try done; apply public_keys_fset; try done; vm_compute; reflexivity.
Qed.

Lemma keys_prune_sublist fields : keys (prune_fields fields) `sublist_of` keys fields.
Proof.
  unfold keys, prune_fields. induction fields as [|[k v] fields IH]; [done|]. csimpl.
  destruct (is_undef v); simpl; [by apply sublist_cons|by apply sublist_skip].
Qed.

Lemma publicRecord_keys fields out : publicRecord fields = Ok out -> public_keys out.
Proof.
  unfold publicRecord. rewrite sanitize_obj. intros H. inv_res. subst.
  match goal with E : sanitize_fields _ _ = Ok _ |- _ => apply sanitize_fields_keys in E as [Hd Hf] end;
    [|split; [apply NoDup_nil_2|apply Forall_nil_2]].
  rewrite prune_obj. cbn [own_fields]. split.
  - eapply sublist_NoDup; [done|]. apply keys_prune_sublist.
  - rewrite Forall_forall in *. intros k Hk%keys_prune. auto.
Qed.

Lemma updated_readable iv key public addr text hash commitment stamp fields :
  public_keys public ->
  fields = prune_fields (spread public [
    ("memory_addr" : jstr, VStr addr);
    ("content_ciphertext" : jstr,
      VObj [("alg" : jstr, vstr "AES-256-GCM"); ("iv" : jstr, VStr iv); ("aad" : jstr, VStr addr);
            ("ciphertext" : jstr, VStr (aead_seal key iv addr text).1);
            ("tag" : jstr, VStr (aead_seal key iv addr text).2)]);
    ("content_hash" : jstr, hash); ("content_commitment" : jstr, commitment);
    ("state" : jstr, vstr "active"); ("updated_at" : jstr, stamp)]) ->
  is_ok (publicRecord fields) = true -> readable key addr text fields.
Proof.
  intros [Hd Hf] -> Hp. split; [| | |done].
  - rewrite fget_prune, fget_spread by by apply NoDup_keys_spread. reflexivity.
  - apply fdelete_absent. intros [Hk|Hk]%keys_prune%elem_of_keys_spread.
    + rewrite Forall_forall in Hf. apply Hf in Hk. vm_compute in Hk. discriminate.
    + revert Hk. apply mem_str_false. vm_compute. reflexivity.
  - exists iv. rewrite fget_prune, fget_spread by by apply NoDup_keys_spread. reflexivity.
Qed.

Lemma updateMemory_holds d args v r v' old :
  updateMemory d args v = (Ok r, v') -> named_address args = VStr old ->
  tombstoned v' (o_memory_addr r) = false -> holds (o_memory_addr r) (to_str (new_content args)) v'.
Proof.
  unfold updateMemory. cbn zeta. fold (named_address args) (new_content args). intros H En. rewrite En in H.
  cbn [is_string str_of andb] in H. run_vm H; simplify_eq. cbn [o_memory_addr]. intros Ht.
  match goal with E : appendEvent _ _ _ _ = _ |- _ => apply appendEvent_ok in E as [Em Ea Et Ek _ _] end.
  split; [|done|].
  - unfold is_active. rewrite Ea. cbn [v_activeAddresses with_active with_tombstones put_memory with_memories].
    apply mem_str_true, elem_of_set_add. by left.
  - rewrite Em, Ek. cbn [v_memories with_active with_tombstones put_memory with_memories v_vaultKey].
    rewrite map_get_set, str_eqb_refl. eexists _, _. split; [reflexivity|]. split; [|by left].
    eapply (updated_readable (b64_encode (d_bytes d 0))); cycle 1; [reflexivity| |by eapply publicRecord_keys].
    by match goal with E : publicRecord (prune_fields _) = _ |- _ => rewrite E end.
Qed.

(** A recall that returns gives the text the vault holds. *)
Lemma recall_ok d args v r v' :
  recall d args v = (Ok r, v') -> is_active v (o_memory_addr r) = true /\ tombstoned v (o_memory_addr r) = false.
Proof.
  unfold recall. cbn zeta. fold (named_address args). intros H. run_vm H. cbn [o_memory_addr].
  match goal with E : negb (_ && _) = false |- _ => apply negb_false_iff, andb_true_iff in E as [Hs Ha] end.
  match goal with E : is_string _ && _ = false |- _ => by rewrite Hs in E end.
Qed.

Lemma recall_content d args v r v' text :
  recall d args v = (Ok r, v') -> holds (o_memory_addr r) text v -> well_formed text = true ->
  o_content r = Some text.
Proof.
  unfold recall. cbn zeta. fold (named_address args). intros H [_ _ (fields & cache & Hm & Hr & Hc)] Hw.
  run_vm H. cbn [o_memory_addr o_content] in *. rewrite Hm in *. simplify_eq.
  match goal with E : decryptContent _ _ = _ |- _ =>
    rewrite (decrypt_readable _ text _ _ _ Hw Hr Hc) in E; by simplify_eq end.
Qed.

(** ** The simulation *)
Lemma dead_not_live v s a text : abstracts v s -> s_live s !! a = Some text -> a ∉ s_dead s.
Proof.
  intros Hab Hl Hd%(ab_dead _ _ Hab). destruct (ab_live _ _ Hab _ _ Hl) as [[_ Ht _] _]. congruence.
Qed.

Lemma active_is_live v s a :
  abstracts v s -> is_active v a = true -> tombstoned v a = false -> exists text, s_live s !! a = Some text.
Proof.
  intros Hab Ha Ht. destruct (s_live s !! a) eqn:E; [eauto|]. apply (ab_gone _ _ Hab) in E; congruence.
Qed.

Lemma remember_refines v s d args r v' :
  abstracts v s -> remember d args v = (Ok r, v') -> well_formed (to_str (new_content args)) = true ->
  exists s', store_step s (SRemember (o_memory_addr r) (to_str (new_content args))) = Some s' /\ abstracts v' s'.
Proof.
  intros Hab H Hw. destruct (remember_ok _ _ _ _ _ H) as (Haddr & Ht & Et & Ea).
  set (addr := o_memory_addr r) in *. cbn [store_step].
  rewrite decide_False by (rewrite (ab_dead _ _ Hab); congruence). eexists. split; [done|].
  split; cbn [s_live s_dead].
  - intros a. unfold tombstoned. rewrite Et. apply (ab_dead _ _ Hab).
  - intros a text [[<- <-]|[Hne Hl]]%lookup_insert_Some.
    + split; [by eapply remember_holds|done].
    + apply (ab_live _ _ Hab) in Hl as [Hh ?]. split; [|done]. eapply frame_holds; [|exact Hh].
      eapply remember_frame; [done|]. congruence.
  - intros a [Hl Hne]%lookup_insert_None Ha. unfold tombstoned. rewrite Et. apply (ab_gone _ _ Hab a Hl).
    by destruct (is_active_add _ _ _ _ Ea Ha).
Qed.

Lemma recall_refines v s d args r v' text :
  abstracts v s -> recall d args v = (Ok r, v') -> o_content r = Some text ->
  store_step s (SRecall (o_memory_addr r) text) = Some s /\ abstracts v' s.
Proof.
  intros Hab H Hc. destruct (recall_ok _ _ _ _ _ H) as [Ha Ht].
  destruct (active_is_live _ _ _ Hab Ha Ht) as [text' Hl]. destruct (ab_live _ _ Hab _ _ Hl) as [Hh Hw].
  assert (text' = text) as -> by (pose proof (recall_content _ _ _ _ _ _ H Hh Hw); congruence).
  cbn [store_step]. rewrite decide_True by done. split; [done|].
  pose proof (recall_sets d args v) as [Ea Et]. rewrite H in Ea, Et. cbn [snd] in Ea, Et. split.
  - intros a. unfold tombstoned. rewrite Et. apply (ab_dead _ _ Hab).
  - intros a t Hl'. apply (ab_live _ _ Hab) in Hl' as [Hh' Hw']. split; [|done].
    pose proof (recall_holds _ _ d args _ Hw' Hh') as Hr. by rewrite H in Hr.
  - intros a Hl'. unfold is_active, tombstoned. rewrite Ea, Et. apply (ab_gone _ _ Hab a Hl').
Qed.

Lemma tombstoned_set v v' k t a :
  v_tombstones v' = map_set (v_tombstones v) k t -> tombstoned v' a = true <-> a = k \/ tombstoned v a = true.
Proof.
  unfold tombstoned. intros ->. rewrite map_has_set, orb_true_iff, str_eqb_eq. naive_solver.
Qed.

Lemma updateMemory_refines v s d args r v' old :
  abstracts v s -> updateMemory d args v = (Ok r, v') -> well_formed (to_str (new_content args)) = true ->
  named_address args = VStr old ->
  exists s', store_step s (SUpdate old (o_memory_addr r) (to_str (new_content args))) = Some s' /\ abstracts v' s'.
Proof.
  intros Hab H Hw Hn. destruct (updateMemory_ok _ _ _ _ _ _ H Hn) as (Ha & Ht & Ea & [t Et] & Hf).
  set (new := o_memory_addr r) in *. destruct (active_is_live _ _ _ Hab Ha Ht) as [old_text Hl].
  cbn [store_step]. rewrite Hl. eexists. split; [done|].
  pose proof (λ a, tombstoned_set _ _ _ _ a Et) as Htomb.
  assert (forall a, a ∈ ({[old]} ∪ s_dead s : gset jstr) <-> tombstoned v' a = true) as Hdead.
  { intros a. rewrite Htomb, elem_of_union, elem_of_singleton. by rewrite (ab_dead _ _ Hab). }
  assert (forall a text, a <> old -> a <> new -> s_live s !! a = Some text ->
            holds a text v' /\ well_formed text = true) as Hother.
  { intros a text H1 H2 [Hh Hw']%(ab_live _ _ Hab). eauto using frame_holds. }
  assert (forall a, is_active v' a = true -> a = new \/ (a <> old /\ is_active v a = true)) as Hact.
  { intros a. unfold is_active. rewrite Ea, !mem_str_true, elem_of_set_add, elem_of_set_delete. naive_solver. }
  assert (forall a, is_active v a = true -> s_live s !! a = None -> tombstoned v' a = true) as Hgone.
  { intros a Ha' Hl'. apply Htomb. right. by apply (ab_gone _ _ Hab). }
  split; cbn [s_live s_dead]; [exact Hdead|..].
  - intros a text. destruct (decide (new ∈ {[old]} ∪ s_dead s)) as [Hin|Hin].
    + rewrite lookup_delete_Some. intros [Hne Hl']. apply Hother; [done| |done].
      intros ->. apply elem_of_union in Hin as [->%elem_of_singleton|Hin]; [done|].
      by apply (dead_not_live _ _ _ _ Hab Hl').
    + rewrite lookup_insert_Some, lookup_delete_Some. intros [[<- <-]|(? & ? & ?)]; [|by apply Hother].
      split; [|done]. eapply updateMemory_holds; [done|done|]. apply not_true_iff_false. by rewrite <- Hdead.
  - intros a. destruct (decide (new ∈ {[old]} ∪ s_dead s)) as [Hin|Hin].
    + rewrite lookup_delete_None. intros Hl' Ha'. destruct (Hact _ Ha') as [->|[Hne Ha'']]; [by apply Hdead|].
      destruct Hl' as [?|Hl']; [congruence|by apply Hgone].
    + rewrite lookup_insert_None, lookup_delete_None. intros [Hl' Hne'] Ha'.
      destruct (Hact _ Ha') as [->|[Hne Ha'']]; [done|]. destruct Hl' as [?|Hl']; [congruence|by apply Hgone].
Qed.

Lemma deleteMemory_refines v s d args r v' :
  abstracts v s -> deleteMemory d args v = (Ok r, v') ->
  exists s', store_step s (SDelete (o_memory_addr r)) = Some s' /\ abstracts v' s'.
Proof.
  intros Hab H. destruct (deleteMemory_ok _ _ _ _ _ H) as (Hn & Ha & Ht & Ea & [t Et]).
  set (addr := o_memory_addr r) in *. destruct (active_is_live _ _ _ Hab Ha Ht) as [text Hl].
  cbn [store_step]. rewrite Hl. eexists. split; [done|].
  pose proof (λ a, tombstoned_set _ _ _ _ a Et) as Htomb. split; cbn [s_live s_dead].
  - intros a. rewrite Htomb, elem_of_union, elem_of_singleton. by rewrite (ab_dead _ _ Hab).
  - intros a text'. rewrite lookup_delete_Some. intros [Hne [Hh Hw]%(ab_live _ _ Hab)]. split; [|done].
    eapply frame_holds; [|exact Hh]. eapply deleteMemory_frame; [done|]. congruence.
  - intros a. rewrite lookup_delete_None. intros Hl' Ha'. apply Htomb.
    assert (is_active v a = true /\ a <> addr) as [Ha'' Hne].
    { revert Ha'. unfold is_active. by rewrite Ea, !mem_str_true, elem_of_set_delete. }
    destruct Hl' as [?|Hl']; [congruence|]. right. by apply (ab_gone _ _ Hab).
Qed.

Lemma exportBundle_refines v s d args b v' :
  abstracts v s -> exportBundle d args v = (Ok b, v') -> abstracts v' s.
Proof.
  intros Hab H. pose proof (exportBundle_sets d args v) as [Ea Et]. rewrite H in Ea, Et. cbn [snd] in Ea, Et.
  split.
  - intros a. unfold tombstoned. rewrite Et. apply (ab_dead _ _ Hab).
  - intros a text Hl. apply (ab_live _ _ Hab) in Hl as [Hh Hw]. split; [|done].
    eapply frame_holds; [|exact Hh]. pose proof (exportBundle_frame a d args v) as Hf. by rewrite H in Hf.
  - intros a Hl. unfold is_active, tombstoned. rewrite Ea, Et. apply (ab_gone _ _ Hab a Hl).
Qed.

Lemma step_refines v s l v' :
  abstracts v s -> vault_step v l v' -> exists s', store_step s l = Some s' /\ abstracts v' s'.
Proof.
  intros Hab [d args r v1 H Hw|d args r v1 text H Hc|d args r v1 old H Hw Hn|d args r v1 H|d args b v1 H].
  - by eapply remember_refines.
  - exists s. by eapply recall_refines.
  - by eapply updateMemory_refines.
  - by eapply deleteMemory_refines.
  - exists s. split; [done|]. by eapply exportBundle_refines.
Qed.

Lemma createVault_empty d args v : createVault d args = Ok v -> abstracts v empty_store.
Proof.
  unfold createVault. cbn zeta. intros H. inv_res.
  repeat match goal with p : _ * _ |- _ => destruct p end. inv_res. subst.
  split; cbn [s_live s_dead empty_store]; [|by intros ? ?|by intros ? ?]. intros a. split; [set_solver|done].
Qed.

(** C4 The vault refines the store of memories: every run of operations that return,
    from a new vault, is a run of the abstract machine from the empty store with the
    same addresses and the same recalled texts, and in the end the vault holds exactly
    the texts of the live addresses and tombstones exactly the dead ones. *)
Theorem vault_refines_store d args v0 ls v :
  createVault d args = Ok v0 -> vault_run v0 ls v ->
  exists s, store_run empty_store ls = Some s /\ abstracts v s.
Proof.
  intros H0 Hr. apply createVault_empty in H0. revert H0. generalize empty_store.
  induction Hr as [v|v l ls v' v'' Hstep _ IH]; intros s Hab; [by exists s|].
  destruct (step_refines _ _ _ _ Hab Hstep) as (s' & Hs & Hab'). cbn [store_run]. rewrite Hs. by apply IH.
Qed.
End refinement.

(** ** Witness *)
Definition sample_text : jstr := to_str (new_content sample_content).

(** A memory that is remembered and recalled on the sample platform. *)
Lemma sample_run_ok :
  match createVault (sample_draws 0) [] with
  | Ok v0 =>
      match remember (sample_draws 1) sample_content v0 with
      | (Ok r1, v1) =>
          match recall (sample_draws 2) [("memory_addr" : jstr, VStr (o_memory_addr r1))] v1 with
          | (Ok r2, _) => (o_memory_addr r2 =s= o_memory_addr r1) && bool_decide (o_content r2 = Some sample_text)
          | _ => false
          end
      | _ => false
      end
  | _ => false
  end = true.
Proof. vm_compute. reflexivity. Qed.

Lemma vault_refines_store_witness :
  exists v0 addr text v s, createVault (sample_draws 0) [] = Ok v0 /\
    vault_run v0 [SRemember addr text; SRecall addr text] v /\
    store_run empty_store [SRemember addr text; SRecall addr text] = Some s /\ abstracts v s.
Proof.
  pose proof sample_run_ok as Hok.
  destruct (createVault (sample_draws 0) []) as [v0|] eqn:E0; [|discriminate Hok].
  destruct (remember (sample_draws 1) sample_content v0) as [[r1|] v1] eqn:E1; [|discriminate Hok].
  destruct (recall (sample_draws 2) [("memory_addr" : jstr, VStr (o_memory_addr r1))] v1) as [[r2|] v2] eqn:E2;
    [|discriminate Hok].
  apply andb_true_iff in Hok as [Ha%str_eqb_eq Hc%bool_decide_eq_true].
  assert (vault_run v0 [SRemember (o_memory_addr r1) sample_text; SRecall (o_memory_addr r1) sample_text] v2) as Hrun.
  { eapply run_cons; [eapply step_remember; [exact E1|vm_compute; reflexivity]|].
    eapply run_cons; [rewrite <- Ha; eapply step_recall; [exact E2|exact Hc]|]. apply run_nil. }
  destruct (vault_refines_store (sample_draws 0) [] v0 _ v2 E0 Hrun) as (s & Hs & Hab).
  exists v0, (o_memory_addr r1), sample_text, v2, s. auto.
Defined.
