(* ===== verification/VaultReplay.v ===== *)
(** * The receipts of a vault tell its state

    An imported bundle is trusted only as far as its receipts replay to the declared
    state ([deriveReceiptLifecycle]).  Replaying the receipts of a vault gives its
    active addresses and its tombstones, as long as every operation returned, no recall
    was logged under the name of another operation and no update hit a dead address. *)

From S2P Require Import Prelude JsValue Regex Canonical Hashing Merkle Receipt PublicSafe Dates VaultPublic Vault Samples MapFacts VaultBundle VaultSafety VaultRecall VaultRefinement.

(** Reads a top-level field of a created receipt. *)
Ltac receipt_field :=
  rewrite fget_receipt_of by (apply mem_str_true; vm_compute; reflexivity); simp_str; cbn beta iota.

Section replay.
Context {C : Crypto} {L : CryptoLaws C} {Hst : Host} {Loc : Locale} {P : Platform} {AL : AeadLaws P}.

(** ** What the receipt of an event says *)
Lemma event_field v uuid timestamp fields meta k s :
  k ∈ ["operation" : jstr; "memory_addr" : jstr; "source_addr" : jstr] -> fget fields k = VStr s ->
  vget (build_event v uuid timestamp fields meta) k = VStr s.
Proof.
  intros Hk Hs. unfold build_event. rewrite prune_obj. unfold vget. cbn [own_fields].
  rewrite fget_prune by (apply distinct_keys; vm_compute; reflexivity).
  repeat (apply elem_of_cons in Hk as [->|Hk]; [simp_get; by rewrite Hs|]). by apply elem_of_nil in Hk.
Qed.

Lemma args_address v ev hash prev active log k s :
  k ∈ ["operation" : jstr; "memory_addr" : jstr; "source_addr" : jstr] -> fget ev k = VStr s ->
  fget (own_fields (receiptArgs v (VObj ev) hash prev active log)) k = VStr s.
Proof.
  intros Hk Hs. unfold receiptArgs. rewrite prune_obj. cbn [own_fields].
  rewrite fget_prune by (apply distinct_keys; vm_compute; reflexivity). unfold vget. cbn [own_fields].
  repeat (apply elem_of_cons in Hk as [->|Hk]; [simp_get; by rewrite Hs|]). by apply elem_of_nil in Hk.
Qed.

Lemma body_address now o body k camel s :
  (k = ("memory_addr" : jstr) /\ camel = ("memoryAddr" : jstr)) \/
  (k = ("source_addr" : jstr) /\ camel = ("sourceAddr" : jstr)) ->
  receipt_body now o = Ok body -> fget o k = VStr s -> fget body k = VStr s.
Proof.
  intros Hk H Hs. unfold receipt_body in H. cbn zeta in H. inv_res.
  assert (forall t src camel, copyOptional t o src k camel = fset t k (VStr s)) as Hc.
  { intros. unfold copyOptional. rewrite Hs. done. }
  destruct Hk as [[-> ->]|[-> ->]].
  - rewrite Hc, !fget_copyOptional by reflexivity. by rewrite fget_fset, str_eqb_refl.
  - rewrite Hc, !fget_copyOptional by reflexivity. by rewrite fget_fset, str_eqb_refl.
Qed.

(** The receipt [fs] is of [operation] and of the active set [active]. *)
Record receipt_says (fs : obj) (active : list jstr) (fields : obj) : Prop := {
  rs_event : fget fs "event" = VUndef;
  rs_active : fget fs "active_set_root" = VStr (computeSetRoot active);
  rs_given : forall k s, k ∈ ["operation" : jstr; "memory_addr" : jstr; "source_addr" : jstr] ->
               fget fields k = VStr s -> fget fs k = VStr s
}.

Lemma next_receipt_says clock uuid fields v e r :
  next_receipt clock uuid fields v = Ok (e, r) ->
  exists fs, r = VObj fs /\ receipt_says fs (v_activeAddresses v) fields.
Proof.
  unfold next_receipt. intros H. inv_res.
  match goal with E : context [build_event ?v ?u ?t ?f ?m] |- _ =>
    pose proof (event_field v u t f m) as Hev; destruct (build_event_obj v u t f m) as (ev & Eev & _);
    rewrite Eev in * end.
  match goal with E : (_, _) = (_, _) |- _ => injection E as _ <- end.
  match goal with E : buildReceipt _ _ _ _ _ _ _ = Ok _ |- _ =>
    apply buildReceipt_inv in E as (r0 & Hr0 & ->) end.
  apply created_from_args in Hr0 as (body & rid & sig & Hbody & Hid & Hsig & ->).
  rewrite prune_json by by eapply json_receipt.
  eexists. split; [reflexivity|]. destruct (receipt_body_reads _ _ _ Hbody) as (_ & _ & R3 & _ & R5 & _).
  split.
  - unfold receipt_of. by rewrite fget_order.
  - receipt_field. rewrite (R3 (computeSetRoot (v_activeAddresses v))); [done| |by apply computeSetRoot_root].
    rewrite args_field by (apply mem_str_true; vm_compute; reflexivity). reflexivity.
  - intros k s Hk Hs. pose proof (Hev k s Hk Hs) as He. unfold vget in He. cbn [own_fields] in He.
    pose proof (args_address v ev (sha_root x1) x2 (computeSetRoot (v_activeAddresses v)) x3 k s Hk He) as Ha.
    repeat (apply elem_of_cons in Hk as [->|Hk]); [..|by apply elem_of_nil in Hk]; receipt_field.
    + by rewrite (R5 _ Ha).
    + by rewrite (body_address _ _ _ _ "memoryAddr" _ ltac:(auto) Hbody Ha).
    + by rewrite (body_address _ _ _ _ "sourceAddr" _ ltac:(auto) Hbody Ha).
Qed.

Lemma appended clock uuid fields v er v' :
  appendEvent clock uuid fields v = (Ok er, v') ->
  exists fs, v_receipts v' = v_receipts v ++ [VObj fs] /\ receipt_says fs (v_activeAddresses v) fields.
Proof.
  unfold appendEvent. intros H. run_vm H. unfold applyLifecycleRoots in *.
  match goal with E : vbind (vread _) _ _ = _ |- _ => run_vm E end.
  match goal with E : next_receipt _ _ _ _ = Ok ?a |- _ => destruct a as [e r]; apply next_receipt_says in E as (fs & -> & Hs) end.
  by exists fs.
Qed.

(** ** The effect of a receipt on the replay *)

(** The receipts of [v'] are [before] and one of [op] on [addr], with the given source. *)
Definition logged (op : jstr) (addr source : option jstr) (before : list jsval) (v' : Vault) : Prop :=
  exists fs, v_receipts v' = before ++ [VObj fs] /\
    fget fs "event" = VUndef /\ fget fs "active_set_root" = VStr (computeSetRoot (v_activeAddresses v')) /\
    fget fs "operation" = VStr op /\
    (forall a, addr = Some a -> fget fs "memory_addr" = VStr a) /\
    (forall a, source = Some a -> fget fs "source_addr" = VStr a).

Lemma appended_logged clock uuid fields v er v' op addr source :
  appendEvent clock uuid fields v = (Ok er, v') -> fget fields "operation" = VStr op ->
  (forall a, addr = Some a -> fget fields "memory_addr" = VStr a) ->
  (forall a, source = Some a -> fget fields "source_addr" = VStr a) -> logged op addr source (v_receipts v) v'.
Proof.
  intros H Ho Ha Hs. pose proof (appendEvent_ok _ _ _ _ _ _ H) as Hst'.
  destruct (appended _ _ _ _ _ _ H) as (fs & Hr & [He Hroot Hg]). exists fs.
  rewrite (ss_active _ _ Hst'). split_and!; try done.
  - apply Hg; [|done]. by left.
  - intros a E. apply Hg; [|by apply Ha]. right. by left.
  - intros a E. apply Hg; [|by apply Hs]. right. right. by left.
Qed.

(** The replay of the receipts of [v] gives its state. *)
Definition replays (v : Vault) : Prop :=
  exists l, deriveReceiptLifecycle (v_receipts v) = Ok l /\ l_active l = v_activeAddresses v /\
    (l_tombstones l).*1 = (v_tombstones v).*1.

Lemma derive_snoc receipts r l :
  deriveReceiptLifecycle receipts = Ok l -> deriveReceiptLifecycle (receipts ++ [r]) = replay_receipt l r.
Proof.
  unfold deriveReceiptLifecycle. generalize no_lifecycle. induction receipts as [|r0 rs IH]; intros l0 H.
  - cbn in *. apply Ok_inj in H as ->. by destruct (replay_receipt l r).
  - cbn [foldl_res app] in *. apply res_bind_ok in H as (l1 & -> & H). cbn [res_bind]. by apply IH.
Qed.

Lemma logged_event fs : fget fs "event" = VUndef -> receiptEvent (VObj fs) = VObj fs.
Proof. unfold receiptEvent, vget. cbn [is_object own_fields]. by intros ->. Qed.

(** A logged operation replays when the replay of its event gives the new state. *)
Lemma logged_replays op addr source v v' :
  replays v -> logged op addr source (v_receipts v) v' ->
  (forall (l : lifecycle) (e : jsval),
     l_active l = v_activeAddresses v -> (l_tombstones l).*1 = (v_tombstones v).*1 ->
     vget e "operation" = VStr op -> (forall a, addr = Some a -> vget e "memory_addr" = VStr a) ->
     (forall a, source = Some a -> vget e "source_addr" = VStr a) ->
     l_active (replay_event e l) = v_activeAddresses v' /\
     (l_tombstones (replay_event e l)).*1 = (v_tombstones v').*1) ->
  replays v'.
Proof.
  intros (l & Hl & Ha & Ht) (fs & Hr & He & Hroot & Hop & Hm & Hs) Hnext.
  destruct (Hnext l (VObj fs) Ha Ht) as [Ha' Ht']; try done.
  exists (replay_event (VObj fs) l). split; [|done]. rewrite Hr, (derive_snoc _ _ _ Hl).
  pose proof (logged_event fs He) as Hev.
  assert (vget (VObj fs) "active_set_root" = VStr (computeSetRoot (v_activeAddresses v'))) as Hroot' by exact Hroot.
  unfold replay_receipt. cbn [elem]. rewrite Hev, Hroot', Ha'. cbn [is_undef is_string str_of].
  by rewrite str_eqb_refl.
Qed.

(** The events that leave the lifecycle alone. *)
Definition lifecycle_operations : list jstr := ["create" : jstr; "update" : jstr; "delete" : jstr].

Lemma replay_quiet e l op : vget e "operation" = VStr op -> op ∉ lifecycle_operations -> replay_event e l = l.
Proof.
  unfold lifecycle_operations. rewrite !not_elem_of_cons. intros Ho (H1 & H2 & H3 & _).
  unfold replay_event. rewrite Ho. cbn [seq vstr].
  rewrite (proj2 (str_eqb_neq op _) H1), (proj2 (str_eqb_neq op _) H2), (proj2 (str_eqb_neq op _) H3).
  by destruct (negb _).
Qed.

Lemma truthy_str s : s <> [] -> truthy (VStr s) = true.
Proof. by destruct s. Qed.

(** ** Each operation *)

(** The operation ends with the event that it appends. *)
Ltac log_event :=
  match goal with E : appendEvent _ _ _ ?v = (Ok _, _) |- logged ?op ?a ?s ?rs ?v' =>
    change (logged op a s (v_receipts v) v') end;
  eapply appended_logged; [eassumption|reflexivity || assumption| |];
  intros ? [=]; subst; reflexivity.

Lemma delete_record_receipts d args addr v0 v x v' :
  delete_record d args addr v0 v = (x, v') -> v_receipts v' = v_receipts v.
Proof. unfold delete_record. intros H. run_vm H; done. Qed.

Lemma remember_logged d args v r v' :
  remember d args v = (Ok r, v') ->
  o_memory_addr r <> [] /\ logged "create" (Some (o_memory_addr r)) None (v_receipts v) v'.
Proof.
  unfold remember. cbn zeta. intros H. run_vm H. cbn [o_memory_addr]. split; [by eapply memoryAddress_nonempty|].
  log_event.
Qed.

Lemma recall_logged d args v r v' op :
  recall d args v = (Ok r, v') -> (fget args "operation" ?? vstr "read") = VStr op ->
  o_memory_addr r <> [] /\ logged op (Some (o_memory_addr r)) None (v_receipts v) v'.
Proof.
  unfold recall. cbn zeta. fold (named_address args). intros H Hop. run_vm H. cbn [o_memory_addr].
  split; [|log_event]. match goal with E : negb (is_string _ && _) = false |- _ => apply negb_false_iff, andb_true_iff in E as [Hs _] end.
  destruct (named_address args) as [| |?|?|[|? ?]| | | | | | | |]; done.
Qed.

Lemma updateMemory_logged d args v r v' old :
  updateMemory d args v = (Ok r, v') -> named_address args = VStr old ->
  o_memory_addr r <> [] /\ old <> [] /\
  logged "update" (Some (o_memory_addr r)) (Some old) (v_receipts v) v'.
Proof.
  unfold updateMemory. cbn zeta. fold (named_address args). intros H En. rewrite En in H.
  cbn [is_string str_of andb] in H. run_vm H; simplify_eq. cbn [o_memory_addr].
  split_and!; [by eapply memoryAddress_nonempty|by destruct old|log_event].
Qed.

Lemma deleteMemory_logged d args v r v' :
  deleteMemory d args v = (Ok r, v') ->
  o_memory_addr r <> [] /\ logged "delete" (Some (o_memory_addr r)) None (v_receipts v) v'.
Proof.
  intros H. destruct (deleteMemory_tombstoned _ _ _ _ _ H) as (_ & _ & Hne). split; [exact Hne|]. revert H.
  unfold deleteMemory. cbn zeta. intros H. run_vm H. cbn [o_memory_addr].
  match goal with E : delete_record _ _ _ _ _ = _ |- _ => apply delete_record_receipts in E as <- end. log_event.
Qed.

Lemma exportBundle_logged d args v b v' :
  exportBundle d args v = (Ok b, v') -> logged "export" None None (v_receipts v) v'.
Proof. unfold exportBundle. cbn zeta. intros H. run_vm H. log_event. Qed.

(** An operation that returns and logs what it did: a recall under a name of its own, an
    update to an address that is neither the old one nor dead. *)
Inductive replay_step (v : Vault) : Vault -> Prop :=
  | rs_remember d args r v' : remember d args v = (Ok r, v') -> replay_step v v'
  | rs_recall d args r v' op :
      recall d args v = (Ok r, v') -> (fget args "operation" ?? vstr "read") = VStr op ->
      op ∉ lifecycle_operations -> replay_step v v'
  | rs_update d args r v' old :
      updateMemory d args v = (Ok r, v') -> named_address args = VStr old ->
      o_memory_addr r <> old -> tombstoned v (o_memory_addr r) = false -> replay_step v v'
  | rs_delete d args r v' : deleteMemory d args v = (Ok r, v') -> replay_step v v'
  | rs_export d args b v' : exportBundle d args v = (Ok b, v') -> replay_step v v'.

Lemma quiet_replays op addr v v' :
  replays v -> logged op addr None (v_receipts v) v' -> op ∉ lifecycle_operations ->
  v_activeAddresses v' = v_activeAddresses v -> v_tombstones v' = v_tombstones v -> replays v'.
Proof.
  intros Hv Hl Hop Ea Et. eapply logged_replays; [exact Hv|exact Hl|]. intros l e Ha Ht Ho _ _.
  rewrite (replay_quiet _ _ _ Ho Hop), Ea, Et. auto.
Qed.

Lemma untombstoned v a : tombstoned v a = false -> a ∉ (v_tombstones v).*1.
Proof. unfold tombstoned, map_has. by rewrite bool_decide_eq_false. Qed.

Lemma remember_replays d args v r v' : replays v -> remember d args v = (Ok r, v') -> replays v'.
Proof.
  intros Hv H. destruct (remember_ok _ _ _ _ _ H) as (_ & Ht & Et & Ea).
  destruct (remember_logged _ _ _ _ _ H) as [Hne Hl]. apply untombstoned in Ht.
  eapply logged_replays; [exact Hv|exact Hl|]. intros l e Ha Hd Ho Hm _. specialize (Hm _ eq_refl).
  unfold replay_event. rewrite Hm, Ho. rewrite (truthy_str _ Hne). cbn [negb seq vstr to_str].
  rewrite str_eqb_refl. cbn [l_active l_tombstones]. rewrite Ha, Ea, Et.
  by rewrite map_delete_absent by (by rewrite Hd).
Qed.

Lemma deleteMemory_replays d args v r v' : replays v -> deleteMemory d args v = (Ok r, v') -> replays v'.
Proof.
  intros Hv H. destruct (deleteMemory_ok _ _ _ _ _ H) as (_ & _ & _ & Ea & t & Et).
  destruct (deleteMemory_logged _ _ _ _ _ H) as [Hne Hl].
  eapply logged_replays; [exact Hv|exact Hl|]. intros l e Ha Hd Ho Hm _. specialize (Hm _ eq_refl).
  unfold replay_event. rewrite Hm, Ho. rewrite (truthy_str _ Hne).
  change (VStr "delete" === vstr "create") with false. change (VStr "delete" === vstr "update") with false.
  change (VStr "delete" === vstr "delete") with true. cbn [negb to_str l_active l_tombstones].
  by rewrite Ha, Ea, Et, !map_set_keys, Hd.
Qed.

Lemma updateMemory_replays d args v r v' old :
  replays v -> updateMemory d args v = (Ok r, v') -> named_address args = VStr old ->
  o_memory_addr r <> old -> tombstoned v (o_memory_addr r) = false -> replays v'.
Proof.
  intros Hv H Hn Hold Hdead. destruct (updateMemory_ok _ _ _ _ _ _ H Hn) as (_ & _ & Ea & (t & Et) & _).
  destruct (updateMemory_logged _ _ _ _ _ _ H Hn) as (Hne & Hne' & Hl). apply untombstoned in Hdead.
  eapply logged_replays; [exact Hv|exact Hl|]. intros l e Ha Hd Ho Hm Hs. specialize (Hm _ eq_refl).
  specialize (Hs _ eq_refl). unfold replay_event. rewrite Hm, Ho, Hs. rewrite (truthy_str _ Hne), (truthy_str _ Hne').
  change (VStr "update" === vstr "create") with false. change (VStr "update" === vstr "update") with true.
  cbn [negb to_str l_active l_tombstones]. rewrite Ha, Ea, Et.
  rewrite map_delete_absent; [by rewrite !map_set_keys, Hd|].
  rewrite map_set_keys, elem_of_set_add, Hd. naive_solver.
Qed.

Lemma step_replays v v' : replays v -> replay_step v v' -> replays v'.
Proof.
  intros Hv [d args r v1 H|d args r v1 op H Ho Hq|d args r v1 old H Hn Hold Hdead|d args r v1 H|d args b v1 H].
  - by eapply remember_replays.
  - pose proof (recall_sets d args v) as [Ea Et]. rewrite H in Ea, Et. cbn [snd] in Ea, Et.
    eapply quiet_replays; [exact Hv|by eapply (recall_logged _ _ _ _ _ _ H Ho)|done..].
  - by eapply updateMemory_replays.
  - by eapply deleteMemory_replays.
  - pose proof (exportBundle_sets d args v) as [Ea Et]. rewrite H in Ea, Et. cbn [snd] in Ea, Et.
    eapply quiet_replays; [exact Hv|by eapply exportBundle_logged| |done..].
    apply mem_str_false. vm_compute. reflexivity.
Qed.

(** A last receipt whose replay misses its root refuses the log. *)
Lemma mismatch_refused op addr source v v' l :
  deriveReceiptLifecycle (v_receipts v) = Ok l -> logged op addr source (v_receipts v) v' ->
  (forall e : jsval, vget e "operation" = VStr op -> (forall a, addr = Some a -> vget e "memory_addr" = VStr a) ->
     computeSetRoot (l_active (replay_event e l)) <> computeSetRoot (v_activeAddresses v')) ->
  deriveReceiptLifecycle (v_receipts v') = Throw (PlainError "importBundle receipt active_set_root mismatch").
Proof.
  intros Hl (fs & Hr & He & Hroot & Hop & Hm & _) Hne. rewrite Hr, (derive_snoc _ _ _ Hl).
  pose proof (logged_event fs He) as Hev. unfold replay_receipt. cbn [elem]. rewrite Hev.
  assert (vget (VObj fs) "active_set_root" = VStr (computeSetRoot (v_activeAddresses v'))) as -> by exact Hroot.
  cbn [is_undef is_string str_of]. specialize (Hne (VObj fs) Hop Hm).
  rewrite (proj2 (str_eqb_neq _ _)) by congruence. done.
Qed.

Lemma run_replays d args v0 v : createVault d args = Ok v0 -> rtc replay_step v0 v -> replays v.
Proof.
  intros H0 Hr. assert (replays v0) as Hv.
  { revert H0. unfold createVault. cbn zeta. intros H. inv_res.
    repeat match goal with p : _ * _ |- _ => destruct p end. inv_res. subst. by exists no_lifecycle. }
  clear H0. induction Hr as [v|v v1 v2 Hs _ IH]; [done|]. apply IH. by eapply step_replays.
Qed.

(** C5 The receipts of a vault tell its lifecycle state: after any run of operations that
    return, from a new vault, [deriveReceiptLifecycle] accepts the receipts and the replay
    gives exactly the active addresses and the tombstoned addresses of the vault, provided
    no recall was logged as a create, an update or a delete and no update produced its own
    address or a dead one. *)
Theorem receipts_replay_lifecycle d args v0 v :
  createVault d args = Ok v0 -> rtc replay_step v0 v ->
  exists l, deriveReceiptLifecycle (v_receipts v) = Ok l /\ l_active l = v_activeAddresses v /\
    (l_tombstones l).*1 = (v_tombstones v).*1.
Proof. apply run_replays. Qed.

(** C39 The caller of [recall] names the logged operation, so a recall can be logged as a
    deletion: the read changes nothing in the vault, and from then on the replay of the
    receipts is refused, unless removing the address leaves the root of the active set. *)
Theorem recall_as_delete_breaks_replay d args v r v' :
  replays v -> recall d args v = (Ok r, v') -> fget args "operation" = vstr "delete" ->
  computeSetRoot (set_delete (o_memory_addr r) (v_activeAddresses v)) <> computeSetRoot (v_activeAddresses v) ->
  v_activeAddresses v' = v_activeAddresses v /\ v_tombstones v' = v_tombstones v /\
  deriveReceiptLifecycle (v_receipts v') = Throw (PlainError "importBundle receipt active_set_root mismatch").
Proof.
  intros (l & Hl & Ha & _) H Hop Hne. pose proof (recall_sets d args v) as [Ea Et]. rewrite H in Ea, Et.
  cbn [snd] in Ea, Et. split_and!; [exact Ea|exact Et|].
  destruct (recall_logged _ _ _ _ _ "delete" H) as [Hne' Hlog]; [by rewrite Hop|].
  eapply mismatch_refused; [exact Hl|exact Hlog|]. intros e Ho Hm. specialize (Hm _ eq_refl).
  unfold replay_event. rewrite Hm, Ho, (truthy_str _ Hne').
  change (VStr "delete" === vstr "create") with false. change (VStr "delete" === vstr "update") with false.
  change (VStr "delete" === vstr "delete") with true. cbn [negb to_str l_active]. by rewrite Ha, Ea.
Qed.
End replay.

(** ** Witnesses *)

(** A memory that is remembered and deleted on the sample platform. *)
Lemma sample_deletion_ok :
  match createVault (sample_draws 0) [] with
  | Ok v0 =>
      match remember (sample_draws 1) sample_content v0 with
      | (Ok r1, v1) =>
          is_ok (deleteMemory (sample_draws 2) [("memory_addr" : jstr, VStr (o_memory_addr r1))] v1).1
      | _ => false
      end
  | _ => false
  end = true.
Proof. vm_compute. reflexivity. Qed.

Lemma receipts_replay_lifecycle_witness :
  exists v0 v l, createVault (sample_draws 0) [] = Ok v0 /\ rtc replay_step v0 v /\
    deriveReceiptLifecycle (v_receipts v) = Ok l /\ l_active l = v_activeAddresses v /\
    (l_tombstones l).*1 = (v_tombstones v).*1.
Proof.
  pose proof sample_deletion_ok as Hok.
  destruct (createVault (sample_draws 0) []) as [v0|] eqn:E0; [|discriminate Hok].
  destruct (remember (sample_draws 1) sample_content v0) as [[r1|] v1] eqn:E1; [|discriminate Hok].
  destruct (deleteMemory (sample_draws 2) [("memory_addr" : jstr, VStr (o_memory_addr r1))] v1)
    as [[r2|] v2] eqn:E2; [|discriminate Hok].
  assert (rtc replay_step v0 v2) as Hrun.
  { eapply rtc_l; [eapply rs_remember; exact E1|]. eapply rtc_l; [eapply rs_delete; exact E2|]. apply rtc_refl. }
  destruct (receipts_replay_lifecycle (sample_draws 0) [] v0 v2 E0 Hrun) as (l & Hl).
  exists v0, v2, l. auto.
Defined.

(** Two memories are remembered; the first is then recalled under the name of a deletion. *)
Definition sample_second : obj := [("content" : jstr, vstr "second memory")].

Definition as_delete (addr : jstr) : obj :=
  [("memory_addr" : jstr, VStr addr); ("operation" : jstr, vstr "delete")].

Lemma sample_misnamed_ok :
  match createVault (sample_draws 0) [] with
  | Ok v0 =>
      match remember (sample_draws 1) sample_content v0 with
      | (Ok r1, v1) =>
          match remember (sample_draws 2) sample_second v1 with
          | (Ok r2, v2) =>
              match recall (sample_draws 3) (as_delete (o_memory_addr r1)) v2 with
              | (Ok r3, v3) =>
                  negb (computeSetRoot (set_delete (o_memory_addr r3) (v_activeAddresses v2)) =s=
                        computeSetRoot (v_activeAddresses v2))
              | _ => false
              end
          | _ => false
          end
      | _ => false
      end
  | _ => false
  end = true.
Proof. vm_compute. reflexivity. Qed.

Lemma recall_as_delete_breaks_replay_witness :
  exists v0 v v', createVault (sample_draws 0) [] = Ok v0 /\ rtc replay_step v0 v /\
    v_activeAddresses v' = v_activeAddresses v /\ v_tombstones v' = v_tombstones v /\
    deriveReceiptLifecycle (v_receipts v') = Throw (PlainError "importBundle receipt active_set_root mismatch").
Proof.
  pose proof sample_misnamed_ok as Hok.
  destruct (createVault (sample_draws 0) []) as [v0|] eqn:E0; [|discriminate Hok].
  destruct (remember (sample_draws 1) sample_content v0) as [[r1|] v1] eqn:E1; [|discriminate Hok].
  destruct (remember (sample_draws 2) sample_second v1) as [[r2|] v2] eqn:E2; [|discriminate Hok].
  destruct (recall (sample_draws 3) (as_delete (o_memory_addr r1)) v2) as [[r3|] v3] eqn:E3; [|discriminate Hok].
  apply negb_true_iff, str_eqb_neq in Hok.
  assert (rtc replay_step v0 v2) as Hrun.
  { eapply rtc_l; [eapply rs_remember; exact E1|]. eapply rtc_l; [eapply rs_remember; exact E2|]. apply rtc_refl. }
  exists v0, v2, v3. split; [reflexivity|]. split; [exact Hrun|].
  exact (recall_as_delete_breaks_replay (sample_draws 3) _ v2 r3 v3 (run_replays _ _ _ _ E0 Hrun) E3 eq_refl Hok).
Defined.
