(* ===== verification/VaultErasure.v ===== *)
(** * A vault can be emptied

    One call of [deleteMemory] with nothing but the address takes an active address out
    of the active set, whatever else happens: the address is tombstoned before the event
    is logged, so also when logging throws.  Deleting the active addresses one by one
    empties every vault whose active and tombstoned addresses are disjoint; the
    addresses that are both are exactly the ones that nothing takes out again. *)

From S2P Require Import Prelude JsValue Hashing Dates VaultPublic Vault Samples MapFacts VaultBundle VaultSafety VaultRecall VaultRefinement VaultReplay.

(** ** Filters *)
Lemma filter_on {A} (P Q : A -> Prop) `{!forall x, Decision (P x), !forall x, Decision (Q x)} (l : list A) :
  (forall x, x ∈ l -> P x <-> Q x) -> filter P l = filter Q l.
Proof.
  induction l as [|x l IH]; [done|]. intros Hpq. rewrite !filter_cons, IH by (intros; apply Hpq; by right).
  pose proof (Hpq x (list_elem_of_here _ _)). by repeat case_decide; try tauto.
Qed.

Lemma filter_id {A} (l : list A) : filter (λ _, True) l = l.
Proof. induction l as [|x l IH]; [done|]. rewrite filter_cons, IH. by case_decide. Qed.

Lemma filter_nothing {A} (l : list A) : filter (λ _, False) l = [].
Proof. induction l as [|x l IH]; [done|]. rewrite filter_cons, IH. by case_decide. Qed.

Section erasure.
Context {C : Crypto} {L : CryptoLaws C} {Hst : Host} {Loc : Locale} {P : Platform}.

(** The arguments that name an address and nothing else. *)
Definition erase_request (a : jstr) : obj := [("memory_addr" : jstr, VStr a)].

(** Asks for the deletion of the addresses in turn, whether or not the calls throw. *)
Definition erase (d : draws) (v : Vault) (addrs : list jstr) : Vault :=
  foldl (λ v a, run_op (DeleteMemory d (erase_request a)) v) v addrs.

(** The addresses that are active and tombstoned. *)
Definition stuck (v : Vault) (a : jstr) : Prop := is_active v a = true /\ tombstoned v a = true.

(** ** Addresses are not empty *)
Lemma active_nonempty_op op v :
  (forall a, a ∈ v_activeAddresses v -> a <> []) -> forall a, a ∈ v_activeAddresses (run_op op v) -> a <> [].
Proof.
  intros Hv a. destruct op as [d args|d args|d args|d args|d args]; cbn [run_op].
  - destruct (remember d args v) as [x v'] eqn:H; cbn [snd]. apply remember_sets in H as [_ [->|(b & Hb & _ & ->)]]; [apply Hv|].
    rewrite elem_of_set_add. intros [->|Ha]; [by eapply memoryAddress_nonempty|by apply Hv].
  - destruct (recall_sets d args v) as [-> _]. apply Hv.
  - destruct (updateMemory d args v) as [x v'] eqn:H; cbn [snd].
    apply updateMemory_sets in H as [[_ Hs]|(old & b & t & sub & id & _ & Hb & -> & _)].
    + intros Ha. apply Hv. by eapply elem_of_sublist.
    + rewrite elem_of_set_add, elem_of_set_delete.
      intros [->|[Ha _]]; [by eapply memoryAddress_nonempty|by apply Hv].
  - destruct (deleteMemory d args v) as [x v'] eqn:H; cbn [snd]. apply deleteMemory_sets in H as [[_ Hs]|(b & t & -> & _)].
    + intros Ha. apply Hv. by eapply elem_of_sublist.
    + rewrite elem_of_set_delete. intros [Ha _]. by apply Hv.
  - destruct (exportBundle_sets d args v) as [-> _]. apply Hv.
Qed.

Lemma reachable_nonempty d args v0 v :
  createVault d args = Ok v0 -> reachable v0 v -> forall a, a ∈ v_activeAddresses v -> a <> [].
Proof.
  intros H Hr. induction Hr as [|v op _ IH]; [|by apply active_nonempty_op]. unfold createVault in H. cbn zeta in H. inv_res.
  repeat match goal with p : _ * _ |- _ => destruct p end. inv_res. subst. by intros ? ?%elem_of_nil.
Qed.

(** ** One deletion *)

(** A plain request for an active address that is not tombstoned does its work before
    anything can throw. *)
Lemma delete_effect d a v :
  a <> [] -> is_active v a = true -> tombstoned v a = false ->
  exists t, v_activeAddresses (run_op (DeleteMemory d (erase_request a)) v) = set_delete a (v_activeAddresses v) /\
            v_tombstones (run_op (DeleteMemory d (erase_request a)) v) = map_set (v_tombstones v) a t.
Proof.
  intros Hne Ha Ht. cbn [run_op]. destruct (deleteMemory d (erase_request a) v) as [x v'] eqn:H.
  cbn [snd]. revert H. unfold deleteMemory. cbn zeta.
  change (fget (erase_request a) "memory_addr" ?? fget (erase_request a) "memoryAddr") with (VStr a).
  change (nowIso (d_clock d) (fget (erase_request a) "now")) with (Ok (d_clock d)).
  rewrite truthy_str by done. cbn [negb is_string str_of andb]. intros H.
  unfold vbind at 1, vread at 1 in H. cbn beta iota in H. rewrite Ht, Ha in H. cbn [negb] in H.
  assert (exists v1, delete_record d (erase_request a) a v v = (Ok tt, v1)) as [v1 E].
  { unfold delete_record. destruct (map_get (v_memories v) a); by eexists. }
  pose proof (delete_record_sets d (erase_request a) a v v) as Hd. rewrite E in Hd. destruct Hd as [Ea Et].
  unfold vbind at 1 in H. rewrite E in H. cbn [snd] in *.
  run_vm H; read_store; eauto.
Qed.

(** A request for a tombstoned address changes nothing. *)
Lemma delete_dead d a v :
  a <> [] -> tombstoned v a = true -> run_op (DeleteMemory d (erase_request a)) v = v.
Proof.
  intros Hne Ht. cbn [run_op]. destruct (tombstoned_refused v a d (erase_request a) Ht) as [H _].
  destruct (H eq_refl Hne) as (_ & _ & e & ->). reflexivity.
Qed.

(** ** Addresses that are stuck *)
Lemma deleteMemory_takes d args v a :
  is_active v a = true -> is_active (deleteMemory d args v).2 a = false -> tombstoned v a = false.
Proof.
  intros Ha. destruct (deleteMemory d args v) as [x v'] eqn:H. cbn [snd]. revert H.
  unfold deleteMemory, is_active. cbn zeta. intros H. unfold is_active in Ha.
  run_vm H;
    try match goal with E : delete_record ?d ?args ?addr ?v ?v = _ |- _ =>
      pose proof (delete_record_sets d args addr v v) as Hd; rewrite E in Hd; destruct Hd as [? ?] end;
    cbn [snd] in *; read_store; rewrite ?Ha; try discriminate.
  all: rewrite mem_str_false, elem_of_set_delete; intros Hn.
  all: match goal with E : negb (_ && _) = false, E' : _ && tombstoned _ _ = false |- _ =>
         apply negb_false_iff, andb_true_iff in E as [E _]; rewrite E in E'; cbn [andb] in E' end.
  all: match goal with E' : tombstoned _ ?b = false |- _ => destruct (decide (a = b)) as [->|]; [exact E'|] end.
  all: destruct Hn; split; [by apply mem_str_true|done].
Qed.

Lemma updateMemory_takes d args v a :
  is_active v a = true -> is_active (updateMemory d args v).2 a = false -> tombstoned v a = false.
Proof.
  intros Ha. destruct (updateMemory d args v) as [x v'] eqn:H. cbn [snd]. revert H.
  unfold updateMemory, is_active. cbn zeta. intros H. unfold is_active in Ha.
  run_vm H; read_store; rewrite ?Ha; try discriminate.
  all: rewrite mem_str_false, ?elem_of_set_add, elem_of_set_delete; intros Hn.
  all: match goal with E : _ || negb _ = false |- _ => apply orb_false_iff in E as [E' E];
         apply negb_false_iff, andb_true_iff in E as [E _]; rewrite E in E'; cbn [andb] in E' end.
  all: match goal with E' : tombstoned _ ?b = false |- _ => destruct (decide (a = b)) as [->|]; [exact E'|] end.
  all: destruct Hn; try right; (split; [by apply mem_str_true|done]).
Qed.

(** An operation takes an address out of the active set only if it is not tombstoned. *)
Lemma op_takes op v a :
  is_active v a = true -> is_active (run_op op v) a = false -> tombstoned v a = false.
Proof.
  destruct op as [d args|d args|d args|d args|d args]; cbn [run_op].
  - destruct (remember d args v) as [x v'] eqn:H. cbn [snd]. unfold is_active.
    apply remember_sets in H as [_ [->|(b & _ & _ & ->)]]; [congruence|].
    rewrite mem_str_true, mem_str_false, elem_of_set_add. tauto.
  - unfold is_active. destruct (recall_sets d args v) as [-> _]. congruence.
  - apply updateMemory_takes.
  - apply deleteMemory_takes.
  - unfold is_active. destruct (exportBundle_sets d args v) as [-> _]. congruence.
Qed.

Lemma stuck_op op v a : stuck v a -> stuck (run_op op v) a.
Proof.
  intros [Ha Ht]. split; [|by apply run_op_tombs]. apply not_false_iff_true. intros Hn.
  by rewrite (op_takes op v a Ha Hn) in Ht.
Qed.

Lemma stuck_reachable v v' a : stuck v a -> reachable v v' -> stuck v' a.
Proof. intros Hs. induction 1; [done|by apply stuck_op]. Qed.

(** ** Erasing the active addresses *)
Lemma erase_reachable d v0 addrs : forall v, reachable v0 v -> reachable v0 (erase d v addrs).
Proof.
  induction addrs as [|a addrs IH]; intros v Hr; [done|]. apply IH.
  exact (reach_op v0 v (DeleteMemory d (erase_request a)) Hr).
Qed.

(** Deleting [a] keeps the other addresses as they were. *)
Lemma delete_step d a v :
  a <> [] -> is_active v a = true ->
  tombstoned (run_op (DeleteMemory d (erase_request a)) v) a = true /\
  (forall b, b <> a -> tombstoned (run_op (DeleteMemory d (erase_request a)) v) b = tombstoned v b) /\
  v_activeAddresses (run_op (DeleteMemory d (erase_request a)) v)
  = if tombstoned v a then v_activeAddresses v else set_delete a (v_activeAddresses v).
Proof.
  intros Hne Ha. destruct (tombstoned v a) eqn:Ht; [by rewrite delete_dead|].
  destruct (delete_effect d a v Hne Ha Ht) as (t & Ea & Et). unfold tombstoned. rewrite Et, map_has_set, str_eqb_refl.
  split_and!; [done| |done]. intros b Hb. rewrite map_has_set. by rewrite (proj2 (str_eqb_neq a b)) by congruence.
Qed.

(** What is left of the active set after asking for the deletion of [addrs]. *)
Lemma erase_sets d addrs : forall v,
  (forall a, a ∈ addrs -> a <> [] /\ (is_active v a = true \/ tombstoned v a = true)) ->
  v_activeAddresses (erase d v addrs)
  = filter (λ a, a ∉ addrs \/ tombstoned v a = true) (v_activeAddresses v) /\
  forall a, a ∈ addrs \/ tombstoned v a = true -> tombstoned (erase d v addrs) a = true.
Proof.
  induction addrs as [|a addrs IH]; intros v H.
  - split; [|intros a [?%elem_of_nil|]; done]. cbn. rewrite <- (filter_id (v_activeAddresses v)) at 1.
    apply filter_on. intros a _. split; [|done]. intros _. left. apply not_elem_of_nil.
  - destruct (H a (list_elem_of_here _ _)) as [Hne Ha].
    assert (forall b, b ∈ addrs -> b <> [] /\ (is_active v b = true \/ tombstoned v b = true)) as H'
      by (intros b Hb; apply H; by apply list_elem_of_further).
    change (erase d v (a :: addrs)) with (erase d (run_op (DeleteMemory d (erase_request a)) v) addrs).
    destruct (tombstoned v a) eqn:Ht.
    + rewrite delete_dead by done. destruct (IH v H') as [-> Hd]. split.
      * apply filter_on. intros b _. rewrite not_elem_of_cons. destruct (decide (b = a)) as [->|]; tauto.
      * intros b [Hb%elem_of_cons|Hb]; apply Hd; [|tauto]. destruct Hb as [->|]; tauto.
    + destruct Ha as [Ha|]; [|done]. destruct (delete_step d a v Hne Ha) as (T1 & T2 & T3). rewrite Ht in T3.
      set (v1 := run_op _ v) in *.
      assert (forall b, b ∈ addrs -> b <> [] /\ (is_active v1 b = true \/ tombstoned v1 b = true)) as H1.
      { intros b Hb. destruct (H' b Hb) as [Hb' Hs]. split; [done|].
        destruct (decide (b = a)) as [->|Hab]; [by right|]. rewrite T2 by done. destruct Hs as [Hs|]; [left|by right].
        unfold is_active in *. rewrite T3, mem_str_true, elem_of_set_delete. by rewrite mem_str_true in Hs. }
      destruct (IH v1 H1) as [-> Hd]. split.
      * rewrite T3. unfold set_delete. rewrite list_filter_filter. apply filter_on. intros b _.
        rewrite not_elem_of_cons. destruct (decide (b = a)) as [->|Hab]; [rewrite Ht; naive_solver|].
        rewrite T2 by done. tauto.
      * intros b Hb. apply Hd. destruct (decide (b = a)) as [->|Hab]; [by right|].
        rewrite T2 by done. rewrite elem_of_cons in Hb. tauto.
Qed.

(** C13 Erasure always makes progress: from any vault reached by any operations, whether or
    not they threw, deleting the active addresses one by one, with no other argument and
    whatever the calls return, reaches a vault whose active set holds exactly the addresses
    that were both active and tombstoned before; every other one is tombstoned for good.
    So a vault whose sets are disjoint is emptied, and an address in both sets stays in
    both whatever operations follow. *)
Theorem vault_can_be_emptied d args v0 v d' :
  createVault d args = Ok v0 -> reachable v0 v ->
  let v' := erase d' v (v_activeAddresses v) in
  reachable v0 v' /\
  v_activeAddresses v' = filter (λ a, tombstoned v a = true) (v_activeAddresses v) /\
  (disjoint_sets v -> v_activeAddresses v' = []) /\
  (forall a v2, is_active v a = true -> reachable v' v2 -> tombstoned v2 a = true) /\
  (forall a v2, stuck v a -> reachable v v2 -> stuck v2 a).
Proof.
  intros H0 Hr v'. assert (forall a, a ∈ v_activeAddresses v -> a <> [] /\
    (is_active v a = true \/ tombstoned v a = true)) as H.
  { intros a Ha. split; [by eapply reachable_nonempty|]. left. by apply mem_str_true. }
  destruct (erase_sets d' _ v H) as [E Hd]. fold v' in E, Hd.
  assert (v_activeAddresses v' = filter (λ a, tombstoned v a = true) (v_activeAddresses v)) as E'.
  { rewrite E. apply filter_on. intros a Ha. tauto. }
  split_and!; [by apply erase_reachable|exact E'| | |].
  - intros Hdis. rewrite E', <- (filter_nothing (v_activeAddresses v)). apply filter_on.
    intros a Ha%mem_str_true. by rewrite (Hdis a Ha).
  - intros a v2 Ha Hr2. apply (reachable_tombs _ _ Hr2), Hd. left. by apply mem_str_true.
  - intros a v2. apply stuck_reachable.
Qed.
End erasure.

(** ** Sample *)
Lemma vault_can_be_emptied_witness :
  exists v0 a, createVault (sample_draws 0) [] = Ok v0 /\ v_activeAddresses (sample_stored v0) = [a] /\
    v_activeAddresses (erase (sample_draws 2) (sample_stored v0) [a]) = [] /\
    tombstoned (erase (sample_draws 2) (sample_stored v0) [a]) a = true.
Proof.
  destruct (createVault (sample_draws 0) []) as [v0|] eqn:E; [|by vm_compute in E].
  assert (v_activeAddresses (sample_stored v0) = [sample_address v0] /\ v_tombstones (sample_stored v0) = []) as [Ha Ht].
  { vm_compute in E. injection E as <-. split; vm_compute; reflexivity. }
  destruct (vault_can_be_emptied (sample_draws 0) [] v0 (sample_stored v0) (sample_draws 2))
    as (_ & _ & H1 & H2 & _); [exact E|apply reach_op, reach_start|]. rewrite Ha in H1, H2.
  exists v0, (sample_address v0). split_and!; [reflexivity|exact Ha| |].
  - apply H1. intros b _. unfold tombstoned. rewrite Ht. reflexivity.
  - apply H2; [|apply reach_start]. unfold is_active. rewrite Ha. apply mem_str_true. by left.
Defined.
