(* ===== verification/Boundary.v ===== *)
(** * The declared boundary

    [src/packages/boundary/src/index.js]: a manifest that classifies every path by
    which a fact can leave the instrumented system, its verification, the
    classification of a path reference, and the simulation of a list of scenarios
    against the manifest.  Whatever is not known is refused. *)

From S2P Require Import Prelude JsValue Regex Canonical Hashing Dates.

Definition MANIFEST_SCHEMA : jstr := "enigma.boundary_manifest.v1".
Definition DEFAULT_ACTION : jstr := "fail_unknown".
Definition DEFAULT_CREATED_AT : jstr := "1970-01-01T00:00:00.000Z".
Definition DEFAULT_HMAC_KEY : jstr := "enigma-boundary-local-proof-key".
Definition FACT_DOMAIN : jstr := "enigma.boundary.fact.v1".

Definition SURFACES : list jstr :=
  ["model_input" : jstr; "model_output" : jstr; "tool_args" : jstr; "tool_result" : jstr;
   "scratchpad" : jstr; "clipboard" : jstr; "memory_write" : jstr; "memory_read" : jstr;
   "rag_ingest" : jstr; "rag_retrieve" : jstr; "file_write" : jstr; "log" : jstr;
   "telemetry" : jstr; "browser_dom" : jstr; "mcp_resource" : jstr; "network" : jstr;
   "inter_agent" : jstr; "cache" : jstr; "human_approval" : jstr].

Definition CLASSIFICATIONS : list jstr :=
  ["committed" : jstr; "blocked" : jstr; "declared_out_of_scope" : jstr; "broken" : jstr;
   "fail_closed" : jstr].

Definition assertPlainRecord (value : jsval) (name : jstr) : res unit :=
  throw_if negb (is_record value) with TypeError (name +s+ " must be an object"); Ok tt.

(** ** Paths *)
Definition committed_path (id surface : string) : jsval :=
  VObj [("path_id" : jstr, vstr id); ("surface" : jstr, vstr surface);
        ("classification" : jstr, vstr "committed"); ("coverage_receipt_required" : jstr, VBool true)].

Definition other_path (id surface classification reason : string) : jsval :=
  VObj [("path_id" : jstr, vstr id); ("surface" : jstr, vstr surface);
        ("classification" : jstr, vstr classification); ("reason" : jstr, vstr reason)].

Definition defaultBoundaryPaths : list jsval := [
  committed_path "model_input:committed" "model_input";
  committed_path "model_output:committed" "model_output";
  committed_path "tool_args:committed" "tool_args";
  other_path "tool_result:raw" "tool_result" "broken" "Uninstrumented tool result can move exact facts without an Enigma receipt.";
  committed_path "tool_result:committed" "tool_result";
  other_path "scratchpad:raw" "scratchpad" "broken" "Uninstrumented scratchpad can carry exact facts outside the committed channel.";
  committed_path "scratchpad:committed" "scratchpad";
  other_path "clipboard:raw" "clipboard" "broken" "Uninstrumented clipboard can carry exact facts outside the committed channel.";
  committed_path "clipboard:committed" "clipboard";
  committed_path "memory_write:committed" "memory_write";
  committed_path "memory_read:committed" "memory_read";
  other_path "rag_ingest:blocked" "rag_ingest" "blocked" "Semantic/vector ingestion is not admitted by the exact boundary harness.";
  other_path "rag_retrieve:semantic" "rag_retrieve" "declared_out_of_scope" "Semantic/RAG paraphrase equivalence is outside exact CANP claims.";
  other_path "file_write:raw" "file_write" "broken" "File artifacts can leak exact facts unless routed through committed receipts.";
  other_path "log:raw" "log" "broken" "Logs can leak exact facts unless blocked or committed.";
  other_path "telemetry:blocked" "telemetry" "blocked" "Telemetry egress is denied for boundary canaries.";
  other_path "browser_dom:blocked" "browser_dom" "blocked" "Browser DOM injection is denied in the local harness.";
  committed_path "mcp_resource:committed" "mcp_resource";
  other_path "network:callback" "network" "broken" "Network callbacks can leak exact facts unless blocked or committed.";
  committed_path "inter_agent:committed" "inter_agent";
  other_path "cache:blocked" "cache" "blocked" "Cache side paths are denied in the local harness.";
  committed_path "human_approval:committed" "human_approval"].

(** [if (path[k] !== undefined) out[k] = f(path[k])]. *)
Definition copy_field (f : jsval -> jsval) (k : jstr) (path : jsval) (out : obj) : obj :=
  if is_undef (vget path k) then out else fset out k (f (vget path k)).

Definition String (v : jsval) : jsval := VStr (to_str v).

Definition normalizePath (path : jsval) : res jsval :=
  let! _ := assertPlainRecord path "boundary path" in
  let out := [("path_id" : jstr, String (vget path "path_id" ?? VStr []));
              ("surface" : jstr, String (vget path "surface" ?? VStr []));
              ("classification" : jstr, String (vget path "classification" ?? VStr []))] in
  let out := copy_field String "adapter" path out in
  let out := copy_field String "reason" path out in
  Ok (VObj (copy_field (λ v, VBool (truthy v)) "coverage_receipt_required" path out)).

(** ** Manifests *)
Section manifests.
Context {C : Crypto} {Hst : Host}.

Definition createBoundaryManifest (options0 : jsval) : res jsval :=
  let! _ := assertPlainRecord options0 "options" in
  let options := own_fields options0 in
  let systemId := String (fget options "systemId" ?? fget options "system_id" ?? vstr "local-boundary-sim") in
  let createdAt := String (fget options "createdAt" ?? fget options "created_at" ?? VStr DEFAULT_CREATED_AT) in
  let! paths := (match fget options "paths" ?? VArr defaultBoundaryPaths with
                 | VArr l => map_items (λ _ path, normalizePath path) l
                 | _ => Throw (TypeError "paths.map is not a function")
                 end) in
  let manifest (id : jsval) := VObj [
    ("schema" : jstr, VStr MANIFEST_SCHEMA); ("manifest_id" : jstr, id); ("system_id" : jstr, systemId);
    ("created_at" : jstr, createdAt); ("paths" : jstr, VArr paths);
    ("default_action" : jstr, VStr DEFAULT_ACTION)] in
  let! manifestId := fget options "manifestId" ??! (fget options "manifest_id" ??!
    (let! t := canonicalize (manifest (VStr [])) in Ok (VStr (slice_to 24 (sha256_text t))))) in
  Ok (manifest (String manifestId)).

Record manifest_result := {
  mr_ok : bool;
  mr_status : jstr;
  mr_errors : list jstr;
  mr_warnings : list jstr;
  mr_manifestHash : option jstr
}.

Definition ROOT_PROPERTIES : list jstr :=
  ["schema" : jstr; "manifest_id" : jstr; "system_id" : jstr; "created_at" : jstr; "paths" : jstr;
   "default_action" : jstr].

Definition PATH_PROPERTIES : list jstr :=
  ["path_id" : jstr; "surface" : jstr; "classification" : jstr; "adapter" : jstr; "reason" : jstr;
   "coverage_receipt_required" : jstr].

Definition problem (b : bool) (text : jstr) : list jstr := if b then [text] else [].

(** A string of at least [n] units. *)
Definition long_string (n : nat) (v : jsval) : bool :=
  match v with VStr s => (n <=? length s)%nat | _ => false end.

Definition root_errors (manifest : jsval) : list jstr :=
  flat_map (λ key : jstr, problem (negb (mem_str key ROOT_PROPERTIES)) ("UNKNOWN_ROOT_PROPERTY:" +s+ key))
    (keys (spread_of manifest))
  ++ problem (vget manifest "schema" !== VStr MANIFEST_SCHEMA) "BAD_SCHEMA"
  ++ problem (negb (long_string 8 (vget manifest "manifest_id"))) "BAD_MANIFEST_ID"
  ++ problem (negb (long_string 1 (vget manifest "system_id"))) "BAD_SYSTEM_ID"
  ++ problem (match vget manifest "created_at" with
              | VStr s => match date_parse s with Some _ => false | None => true end
              | _ => true
              end) "BAD_CREATED_AT"
  ++ problem (vget manifest "default_action" !== VStr DEFAULT_ACTION) "DEFAULT_ACTION_MUST_FAIL_UNKNOWN"
  ++ problem (match vget manifest "paths" with VArr [] => true | VArr _ => false | _ => true end)
       "PATHS_REQUIRED".

(** What the loop over the paths has seen. *)
Record path_scan := {
  ps_seenIds : list jstr;
  ps_coveredSurfaces : list jstr;
  ps_hasBroken : bool;
  ps_hasOutOfScope : bool
}.

Definition no_paths : path_scan :=
  {| ps_seenIds := []; ps_coveredSurfaces := []; ps_hasBroken := false; ps_hasOutOfScope := false |}.

Definition path_label (index : nat) (path : jsval) : jstr := to_str (vget path "path_id" ?? vnat index).

Definition is_broken (path : jsval) : bool :=
  (vget path "classification" === vstr "broken") || (vget path "classification" === vstr "fail_closed").

Definition is_out_of_scope (path : jsval) : bool :=
  vget path "classification" === vstr "declared_out_of_scope".

Definition path_errors (index : nat) (seen : list jstr) (path : jsval) : list jstr :=
  flat_map (λ key : jstr, problem (negb (mem_str key PATH_PROPERTIES))
      ("UNKNOWN_PATH_PROPERTY:" +s+ nat_str index +s+ ":" +s+ key)) (keys (spread_of path))
  ++ (if negb (long_string 1 (vget path "path_id")) then [("BAD_PATH_ID:" : jstr) +s+ nat_str index]
      else problem (set_has seen (vget path "path_id"))
             ("DUPLICATE_PATH_ID:" +s+ to_str (vget path "path_id")))
  ++ problem (negb (set_has SURFACES (vget path "surface"))) ("UNKNOWN_SURFACE:" +s+ path_label index path)
  ++ problem (negb (set_has CLASSIFICATIONS (vget path "classification")))
       ("UNKNOWN_CLASSIFICATION:" +s+ path_label index path)
  ++ problem (negb (is_undef (vget path "coverage_receipt_required"))
              && negb (is_bool (vget path "coverage_receipt_required")))
       ("BAD_COVERAGE_RECEIPT_REQUIRED:" +s+ path_label index path).

Definition see_path (path : jsval) (s : path_scan) : path_scan :=
  {| ps_seenIds := if long_string 1 (vget path "path_id") && negb (set_has (ps_seenIds s) (vget path "path_id"))
                   then set_add (str_of (vget path "path_id")) (ps_seenIds s) else ps_seenIds s;
     ps_coveredSurfaces := if set_has SURFACES (vget path "surface")
                           then set_add (str_of (vget path "surface")) (ps_coveredSurfaces s)
                           else ps_coveredSurfaces s;
     ps_hasBroken := ps_hasBroken s || is_broken path;
     ps_hasOutOfScope := ps_hasOutOfScope s || is_out_of_scope path |}.

(** The loop over [manifest.paths.entries()]. *)
Fixpoint check_paths (index : nat) (paths : list jsval) (s : path_scan) : list jstr * path_scan :=
  match paths with
  | [] => ([], s)
  | p :: paths' =>
      let path := elem p in
      if negb (is_record path) then
        let '(errors, s') := check_paths (S index) paths' s in
        ((("PATH_NOT_OBJECT:" : jstr) +s+ nat_str index) :: errors, s')
      else
        let '(errors, s') := check_paths (S index) paths' (see_path path s) in
        (path_errors index (ps_seenIds s) path ++ errors, s')
  end.

Definition manifest_errors (manifest : jsval) : list jstr * path_scan :=
  let '(errors, s) := check_paths 0 (items_of (vget manifest "paths")) no_paths in
  (root_errors manifest ++ errors
   ++ flat_map (λ surface : jstr, problem (negb (mem_str surface (ps_coveredSurfaces s)))
                                    ("MISSING_SURFACE:" +s+ surface)) SURFACES, s).

Definition verifyBoundaryManifest (manifest : jsval) : res manifest_result :=
  if negb (is_record manifest) then
    Ok {| mr_ok := false; mr_status := "FAIL"; mr_errors := ["MANIFEST_NOT_OBJECT" : jstr];
          mr_warnings := []; mr_manifestHash := None |}
  else
    let '(errors, s) := manifest_errors manifest in
    let ok := bool_decide (errors = []) in
    let! manifestHash := (if ok then let! t := canonicalize manifest in Ok (Some (sha256_text t))
                          else Ok None) in
    Ok {| mr_ok := ok;
          mr_status := if negb ok || ps_hasBroken s then "FAIL"
                       else if ps_hasOutOfScope s then "NARROW_GO" else "PASS";
          mr_errors := errors;
          mr_warnings := problem (ps_hasBroken s) "BROKEN_PATH_DECLARED"
                         ++ problem (ps_hasOutOfScope s) "OUT_OF_SCOPE_PATH_DECLARED";
          mr_manifestHash := manifestHash |}.

(** ** Classification *)
Record classified := {
  bc_known : bool;
  bc_path : jsval;
  bc_classification : jsval;
  bc_fail_closed : bool;
  bc_canp : jsval;
  bc_verdict : jsval;
  bc_reason : jsval;
  bc_manifestErrors : list jstr
}.

Definition unknown_path (reason : string) (errors : list jstr) : classified :=
  {| bc_known := false; bc_path := VUndef; bc_classification := vstr "fail_closed"; bc_fail_closed := true;
     bc_canp := vstr "UNKNOWN_BOUNDARY"; bc_verdict := vstr "FAIL"; bc_reason := vstr reason;
     bc_manifestErrors := errors |}.

Definition canpByClassification : obj :=
  [("committed" : jstr, vstr "COMMITTED_PATH"); ("blocked" : jstr, vstr "BLOCKED_PATH");
   ("declared_out_of_scope" : jstr, vstr "OUT_OF_SCOPE"); ("broken" : jstr, vstr "BROKEN_PATH");
   ("fail_closed" : jstr, vstr "UNKNOWN_BOUNDARY")].

Definition verdictByClassification : obj :=
  [("committed" : jstr, vstr "PASS"); ("blocked" : jstr, vstr "PASS");
   ("declared_out_of_scope" : jstr, vstr "NARROW_GO"); ("broken" : jstr, vstr "FAIL");
   ("fail_closed" : jstr, vstr "FAIL")].

Definition known_path (path : jsval) : classified :=
  let classification := vget path "classification" in
  {| bc_known := true; bc_path := path; bc_classification := classification;
     bc_fail_closed := is_broken path;
     bc_canp := fget canpByClassification (to_str classification);
     bc_verdict := fget verdictByClassification (to_str classification);
     bc_reason := vget path "reason" ?? VNull; bc_manifestErrors := [] |}.

Definition matching (k : jstr) (value : jsval) (paths : list jsval) : list jsval :=
  List.filter (λ path, vget path k === value) paths.

(** The lookup in a verified manifest. *)
Definition classify_in (paths : list jsval) (ref : jsval) : classified :=
  if long_string 1 (vget ref "path_id") then
    match matching "path_id" (vget ref "path_id") paths with
    | [path] =>
        if long_string 1 (vget ref "surface") && (vget path "surface" !== vget ref "surface")
        then unknown_path "AMBIGUOUS_PATH" [] else known_path path
    | [] => unknown_path "UNCLASSIFIED_PATH" []
    | _ => unknown_path "AMBIGUOUS_PATH" []
    end
  else if long_string 1 (vget ref "surface") then
    match matching "surface" (vget ref "surface") paths with
    | [path] => known_path path
    | [] => unknown_path "UNCLASSIFIED_PATH" []
    | _ => unknown_path "AMBIGUOUS_PATH" []
    end
  else unknown_path "BAD_PATH_REF" [].

Definition classifyBoundaryPath (manifest pathRef : jsval) : res classified :=
  let! verification := verifyBoundaryManifest manifest in
  if negb (mr_ok verification) then
    Ok (unknown_path (if mem_str "MANIFEST_NOT_OBJECT" (mr_errors verification)
                      then "MISSING_OR_INVALID_MANIFEST" else "INVALID_MANIFEST") (mr_errors verification))
  else
    let ref := if is_string pathRef then VObj [("path_id" : jstr, pathRef)] else pathRef in
    if negb (is_record ref) then Ok (unknown_path "BAD_PATH_REF" [])
    else Ok (classify_in (map elem (items_of (vget manifest "paths"))) ref).

(** ** Simulation *)
Definition factCommitment (fact : jsval) (hmacKey runId : jstr) (scenario : jsval) : res jstr :=
  createMemoryAddress (VObj [
    ("secret" : jstr, VStr hmacKey); ("namespace" : jstr, VStr FACT_DOMAIN);
    ("subject_id" : jstr, if is_undef scenario then vstr "unspecified" else scenario);
    ("value" : jstr, VObj [("fact" : jstr, fact); ("runId" : jstr, VStr runId)]);
    ("prefix" : jstr, vstr "boundary")]) VUndef [].

Definition scenario_of (scenario pathId fact bGotVia : string) (committed : bool) (extra : obj) : jsval :=
  VObj ([("scenario" : jstr, vstr scenario); ("pathId" : jstr, vstr pathId); ("fact" : jstr, vstr fact);
         ("bGotVia" : jstr, vstr bGotVia); ("committed" : jstr, VBool committed)] ++ extra).

Definition scenarioDefinitions : list jsval := [
  scenario_of "control never sent" "model_input:committed" "control-boundary-canary" "none" false [];
  scenario_of "honest committed crossing" "model_input:committed" "honest-committed-canary" "committed_channel" true [];
  scenario_of "scratchpad leak" "scratchpad:raw" "scratchpad-leak-canary" "scratchpad" false [];
  scenario_of "tool-output leak" "tool_result:raw" "tool-output-leak-canary" "tool_result" false [];
  scenario_of "clipboard leak" "clipboard:raw" "clipboard-leak-canary" "clipboard" false [];
  scenario_of "log leak" "log:raw" "log-leak-canary" "log" false [];
  scenario_of "file artifact leak" "file_write:raw" "file-artifact-leak-canary" "file_artifact" false [];
  scenario_of "network callback leak" "network:callback" "network-callback-leak-canary" "network_callback" false [];
  scenario_of "mitigated scratchpad route-through-channel" "scratchpad:committed" "mitigated-scratchpad-canary" "scratchpad_via_committed_channel" true [];
  scenario_of "mitigated clipboard route-through-channel" "clipboard:committed" "mitigated-clipboard-canary" "clipboard_via_committed_channel" true [];
  scenario_of "mitigated tool route-through-channel" "tool_result:committed" "mitigated-tool-canary" "tool_result_via_committed_channel" true [];
  scenario_of "unknown provider route" "provider_native:tool_result" "unknown-provider-route-canary" "provider_native_tool" false [];
  scenario_of "ambiguous tool surface route" "tool_result:*" "ambiguous-tool-surface-canary" "tool_surface" false
    [("pathRef" : jstr, VObj [("surface" : jstr, vstr "tool_result")])];
  scenario_of "semantic/RAG paraphrase declared out-of-scope" "rag_retrieve:semantic" "semantic-rag-paraphrase-canary" "rag_paraphrase" false
    [("semantic" : jstr, VBool true)]].

Record sim_row := {
  r_scenario : jsval;
  r_pathId : jsval;
  r_bGotVia : jsval;
  r_classification : jsval;
  r_failClosed : bool;
  r_canp : jstr;
  r_verdict : jstr;
  r_reason : jsval
}.

Record commitment := { c_scenario : jsval; c_fact_address : jstr; c_path_id : jsval }.

(** The verdict on a scenario: [canp] and [verdict]. *)
Definition judge (c : classified) (bHasFact crossedCommittedChannel : bool) : jstr * jstr :=
  if negb (bc_known c) then ("UNKNOWN_BOUNDARY" : jstr, "FAIL" : jstr)
  else if bc_classification c === vstr "declared_out_of_scope" then ("OUT_OF_SCOPE" : jstr, "NARROW_GO" : jstr)
  else if bc_classification c === vstr "blocked" then
    if bHasFact then ("FALSE_ASSURANCE" : jstr, "FAIL" : jstr) else ("BLOCKED" : jstr, "PASS" : jstr)
  else if crossedCommittedChannel then ("CROSSED" : jstr, "PASS" : jstr)
  else if bHasFact then ("FALSE_ASSURANCE" : jstr, "FAIL" : jstr)
  else ("NEVER_CROSSED_COMMITTED_CHANNEL" : jstr, "PASS" : jstr).

(** Whether the second system ended up with the fact, and whether the fact is in the
    set of committed addresses. *)
Definition has_fact (scenario : jsval) : bool := vget scenario "bGotVia" !== vstr "none".

Definition evaluateScenario (manifest scenario : jsval) (hmacKey runId : jstr) : res (sim_row * commitment) :=
  let! pathRef0 := getx scenario "pathRef" in
  let! classification := classifyBoundaryPath manifest (pathRef0 ?? vget scenario "pathId") in
  let! address := factCommitment (vget scenario "fact") hmacKey runId (vget scenario "scenario") in
  let committedSet := if truthy (vget scenario "committed") then [address] else [] in
  let '(canp, verdict) := judge classification (has_fact scenario) (mem_str address committedSet) in
  Ok ({| r_scenario := vget scenario "scenario"; r_pathId := vget scenario "pathId";
         r_bGotVia := vget scenario "bGotVia"; r_classification := bc_classification classification;
         r_failClosed := (verdict =s= "FAIL") || bc_fail_closed classification;
         r_canp := canp; r_verdict := verdict; r_reason := bc_reason classification |},
      {| c_scenario := vget scenario "scenario"; c_fact_address := address;
         c_path_id := vget scenario "pathId" |}).

Definition SIMULATION_SCHEMA : jstr := "enigma.boundary_simulation.v1".

Definition HONESTY_TEXT : jstr :=
  "This report proves exact facts about declared Enigma-instrumented paths. It does not prove provider deletion, model forgetting, semantic forgetting, model-weight deletion, or absence of uninstrumented provider-internal side channels.".

Record simulation := {
  s_schema : jstr;
  s_run_id : jstr;
  s_manifest_hash : option jstr;
  s_manifest_status : jstr;
  s_rows : list sim_row;
  s_status : jstr;
  s_finalStatus : jstr;
  s_commitments : list commitment;
  s_honesty_text : jstr
}.

Definition has_verdict (verdict : string) (rows : list sim_row) : bool :=
  existsb (λ row, r_verdict row =s= verdict) rows.

(** The manifest a run is about. *)
Definition run_manifest (options : obj) : res jsval :=
  if fhas options "manifest" then Ok (fget options "manifest")
  else createBoundaryManifest (VObj [("systemId" : jstr, fget options "systemId");
                                     ("createdAt" : jstr, fget options "createdAt")]).

(** The holes of a sparse list of scenarios are left out of the rows. *)
Definition run_scenarios (options : obj) : res (list jsval) :=
  match fget options "scenarios" ?? VArr scenarioDefinitions with
  | VArr l => Ok (List.filter (λ s, match s with VHole => false | _ => true end) l)
  | _ => Throw (TypeError "scenarios.map is not a function")
  end.

Definition runBoundarySimulation (options0 : jsval) : res simulation :=
  let! _ := assertPlainRecord options0 "options" in
  let options := own_fields options0 in
  let runId := to_str (fget options "runId" ?? fget options "run_id" ?? vstr "boundary-sim-local") in
  let hmacKey := to_str (fget options "hmacKey" ?? fget options "hmac_key" ?? VStr DEFAULT_HMAC_KEY) in
  let! manifest := run_manifest options in
  let! manifestVerification := verifyBoundaryManifest manifest in
  let! scenarios := run_scenarios options in
  let! evaluated := map_res (λ scenario, evaluateScenario manifest scenario hmacKey runId) scenarios in
  let rows := evaluated.*1 in
  let status : jstr := if negb (mr_ok manifestVerification) || has_verdict "FAIL" rows then "FAIL"
                       else if has_verdict "NARROW_GO" rows
                               || (mr_status manifestVerification =s= "NARROW_GO") then "NARROW_GO"
                       else "PASS" in
  Ok {| s_schema := SIMULATION_SCHEMA; s_run_id := runId; s_manifest_hash := mr_manifestHash manifestVerification;
        s_manifest_status := mr_status manifestVerification; s_rows := rows;
        s_status := status; s_finalStatus := status; s_commitments := evaluated.*2;
        s_honesty_text := HONESTY_TEXT |}.
End manifests.

(** ** What a verified manifest is *)
Section spec.
Context {C : Crypto} {Hst : Host}.

Record path_wf (path : jsval) : Prop := {
  pw_record : is_record path = true;
  pw_keys : forall k, k ∈ keys (spread_of path) -> k ∈ PATH_PROPERTIES;
  pw_id : exists s, vget path "path_id" = VStr s /\ s <> [];
  pw_surface : exists s, vget path "surface" = VStr s /\ s ∈ SURFACES;
  pw_classification : exists s, vget path "classification" = VStr s /\ s ∈ CLASSIFICATIONS;
  pw_coverage : is_undef (vget path "coverage_receipt_required") = true \/
                is_bool (vget path "coverage_receipt_required") = true
}.

Definition path_ids (paths : list jsval) : list jstr := map (λ p, str_of (vget p "path_id")) paths.

Definition path_surfaces (paths : list jsval) : list jstr := map (λ p, str_of (vget p "surface")) paths.

(** The paths of a manifest as the loops read them. *)
Definition paths_of (manifest : jsval) : list jsval := map elem (items_of (vget manifest "paths")).

Record manifest_wf (manifest : jsval) : Prop := {
  mw_record : is_record manifest = true;
  mw_keys : forall k, k ∈ keys (spread_of manifest) -> k ∈ ROOT_PROPERTIES;
  mw_schema : vget manifest "schema" = VStr MANIFEST_SCHEMA;
  mw_id : exists s, vget manifest "manifest_id" = VStr s /\ 8 <= length s;
  mw_system : exists s, vget manifest "system_id" = VStr s /\ s <> [];
  mw_created : exists s ms, vget manifest "created_at" = VStr s /\ date_parse s = Some ms;
  mw_default : vget manifest "default_action" = VStr DEFAULT_ACTION;
  mw_paths : is_array (vget manifest "paths") = true /\ paths_of manifest <> [] /\
             Forall path_wf (paths_of manifest);
  mw_distinct : NoDup (path_ids (paths_of manifest));
  mw_complete : forall surface, surface ∈ SURFACES -> surface ∈ path_surfaces (paths_of manifest)
}.

Lemma problem_nil b text : problem b text = [] <-> b = false.
Proof. by destruct b. Qed.

Lemma problems_nil {A} (f : A -> bool) (text : A -> jstr) l :
  flat_map (λ x, problem (negb (f x)) (text x)) l = [] <-> forall x, x ∈ l -> f x = true.
Proof.
  rewrite flat_map_nil. setoid_rewrite problem_nil. by setoid_rewrite negb_false_iff.
Qed.

Lemma long_string_spec n v : long_string n v = true <-> exists s, v = VStr s /\ n <= length s.
Proof.
  destruct v as [| | | |s| | | | | | | |]; try (split; [done|naive_solver]). simpl.
  rewrite Nat.leb_le. naive_solver.
Qed.

Lemma non_empty_spec v : long_string 1 v = true <-> exists s, v = VStr s /\ s <> [].
Proof.
  rewrite long_string_spec. split; intros (s & -> & H); exists s; (split; [done|]); destruct s; simpl in *; try done; lia.
Qed.

Lemma set_has_spec l v : set_has l v = true <-> exists s, v = VStr s /\ s ∈ l.
Proof.
  destruct v as [| | | |s| | | | | | | |]; try (split; [done|naive_solver]). simpl.
  rewrite mem_str_true. naive_solver.
Qed.

Lemma path_errors_nil index seen path :
  is_record path = true ->
  path_errors index seen path = [] <-> path_wf path /\ str_of (vget path "path_id") ∉ seen.
Proof.
  intros Hr. unfold path_errors. rewrite !app_nil, problems_nil, !problem_nil.
  setoid_rewrite mem_str_true. rewrite !negb_false_iff, !set_has_spec.
  assert ((if negb (long_string 1 (vget path "path_id")) then [("BAD_PATH_ID:" : jstr) +s+ nat_str index]
    else problem (set_has seen (vget path "path_id")) ("DUPLICATE_PATH_ID:" +s+ to_str (vget path "path_id")))
    = [] <-> (exists s, vget path "path_id" = VStr s /\ s <> []) /\ str_of (vget path "path_id") ∉ seen) as ->.
  { rewrite <- non_empty_spec. destruct (vget path "path_id") as [| | | |s| | | | | | | |]; try (split; [done|naive_solver]).
    destruct (long_string 1 (VStr s)); cbn [negb]; [|split; [done|naive_solver]].
    rewrite problem_nil. cbn [set_has str_of]. rewrite mem_str_false. naive_solver. }
  assert (negb (is_undef (vget path "coverage_receipt_required")) &&
          negb (is_bool (vget path "coverage_receipt_required")) = false <->
          is_undef (vget path "coverage_receipt_required") = true \/
          is_bool (vget path "coverage_receipt_required") = true) as ->.
  { destruct (is_undef _), (is_bool _); naive_solver. }
  split; [intros (? & [? ?] & ? & ? & ?)|intros [[] ?]]; split_and!; try done; by split.
Qed.

Lemma path_wf_record path : is_record path = false -> ~ path_wf path.
Proof. intros H [H' _ _ _ _ _]. congruence. Qed.

Lemma see_path_wf path s :
  path_wf path -> str_of (vget path "path_id") ∉ ps_seenIds s ->
  (forall x, x ∈ ps_seenIds (see_path path s) <-> x = str_of (vget path "path_id") \/ x ∈ ps_seenIds s) /\
  (forall x, x ∈ ps_coveredSurfaces (see_path path s) <->
             x = str_of (vget path "surface") \/ x ∈ ps_coveredSurfaces s).
Proof.
  intros [_ _ Hi Hs _ _] Hn. pose proof (proj2 (non_empty_spec _) Hi) as Hl.
  pose proof (proj2 (set_has_spec _ _) Hs) as Hh.
  unfold see_path. cbn [ps_seenIds ps_coveredSurfaces]. rewrite Hl, Hh.
  destruct Hi as (i & Ei & _). rewrite Ei in *. cbn [set_has str_of] in *. apply mem_str_false in Hn. rewrite Hn.
  cbn [negb andb]. split; intros x; by rewrite elem_of_set_add.
Qed.

Lemma check_paths_spec index paths s :
  let '(errors, s') := check_paths index paths s in
  let wf := map elem paths in
  (errors = [] <-> Forall path_wf wf /\ NoDup (path_ids wf) /\
                   (forall x, x ∈ path_ids wf -> x ∉ ps_seenIds s)) /\
  (errors = [] -> forall x, x ∈ ps_coveredSurfaces s' <-> x ∈ path_surfaces wf \/ x ∈ ps_coveredSurfaces s) /\
  (errors = [] -> ps_hasBroken s' = ps_hasBroken s || existsb is_broken wf) /\
  (errors = [] -> ps_hasOutOfScope s' = ps_hasOutOfScope s || existsb is_out_of_scope wf).
Proof.
  revert index s. induction paths as [|p paths IH]; intros index s; cbn [check_paths map path_ids path_surfaces existsb].
  - rewrite !orb_false_r. split_and!; try done.
    + split; [intros _|done]. split_and!; [constructor|constructor|]. intros x Hx. by apply elem_of_nil in Hx.
    + intros _ x. rewrite elem_of_nil. tauto.
  - destruct (is_record (elem p)) eqn:Er; cbn [negb].
    + specialize (IH (S index) (see_path (elem p) s)).
      destruct (check_paths (S index) paths (see_path (elem p) s)) as [errors s'].
      cbn zeta in IH. destruct IH as (I1 & I2 & I3 & I4).
      rewrite app_nil, path_errors_nil, I1 by done.
      fold (path_ids (map elem paths)) (path_surfaces (map elem paths)).
      split_and!.
      * rewrite Forall_cons, NoDup_cons. setoid_rewrite elem_of_cons. split.
        -- intros [[Hw Hn] (Hf & Hd & Hs)]. destruct (see_path_wf _ _ Hw Hn) as [Hse _].
           setoid_rewrite Hse in Hs. naive_solver.
        -- intros ([Hw Hf] & [Hni Hd] & Hs). assert (str_of (vget (elem p) "path_id") ∉ ps_seenIds s) as Hn by auto.
           destruct (see_path_wf _ _ Hw Hn) as [Hse _]. setoid_rewrite Hse. split_and!; try done.
           intros x Hx [->|?]; [done|]. by apply (Hs x); [right|].
      * intros [[Hw Hn] He] x. destruct (see_path_wf _ _ Hw Hn) as [_ Hco].
        rewrite I2, Hco, elem_of_cons by by apply I1. tauto.
      * intros [_ He]. rewrite I3 by by apply I1. cbn [see_path ps_hasBroken]. by rewrite orb_assoc.
      * intros [_ He]. rewrite I4 by by apply I1. cbn [see_path ps_hasOutOfScope]. by rewrite orb_assoc.
    + destruct (check_paths (S index) paths s) as [errors s']. split_and!; try done. split; [done|].
      intros ([Hw _]%Forall_cons & _). by apply path_wf_record in Hw.
Qed.

Lemma root_errors_nil manifest :
  root_errors manifest = [] <->
  (forall k, k ∈ keys (spread_of manifest) -> k ∈ ROOT_PROPERTIES) /\
  vget manifest "schema" = VStr MANIFEST_SCHEMA /\
  (exists s, vget manifest "manifest_id" = VStr s /\ 8 <= length s) /\
  (exists s, vget manifest "system_id" = VStr s /\ s <> []) /\
  (exists s ms, vget manifest "created_at" = VStr s /\ date_parse s = Some ms) /\
  vget manifest "default_action" = VStr DEFAULT_ACTION /\
  (is_array (vget manifest "paths") = true /\ paths_of manifest <> []).
Proof.
  unfold root_errors. rewrite !app_nil, problems_nil, !problem_nil. setoid_rewrite mem_str_true.
  rewrite !negb_false_iff, !seq_str, long_string_spec, non_empty_spec.
  assert (match vget manifest "created_at" with
          | VStr s => match date_parse s with Some _ => false | None => true end
          | _ => true end = false <->
          exists s ms, vget manifest "created_at" = VStr s /\ date_parse s = Some ms) as ->.
  { destruct (vget manifest "created_at") as [| | | |s| | | | | | | |]; try (split; [done|naive_solver]).
    destruct (date_parse s) eqn:E; naive_solver. }
  assert (match vget manifest "paths" with VArr [] => true | VArr _ => false | _ => true end = false <->
          is_array (vget manifest "paths") = true /\ paths_of manifest <> []) as ->; [|done].
  unfold paths_of. destruct (vget manifest "paths") as [| | | | | |l| | | | | |]; try (split; [done|naive_solver]).
  destruct l; simpl; naive_solver.
Qed.

Lemma manifest_errors_spec manifest :
  is_record manifest = true ->
  ((manifest_errors manifest).1 = [] <-> manifest_wf manifest) /\
  ((manifest_errors manifest).1 = [] ->
     ps_hasBroken (manifest_errors manifest).2 = existsb is_broken (paths_of manifest) /\
     ps_hasOutOfScope (manifest_errors manifest).2 = existsb is_out_of_scope (paths_of manifest)).
Proof.
  intros Hr. unfold manifest_errors.
  pose proof (check_paths_spec 0 (items_of (vget manifest "paths")) no_paths) as Hc.
  destruct (check_paths 0 _ no_paths) as [errors s]. cbn zeta in Hc. fold (paths_of manifest) in Hc.
  destruct Hc as (H1 & H2 & H3 & H4). cbn [fst snd].
  rewrite !app_nil, root_errors_nil, problems_nil. setoid_rewrite mem_str_true. split.
  - split.
    + intros (Hroot & He & Hcov). destruct (proj1 H1 He) as (Hf & Hd & _).
      destruct Hroot as (? & ? & ? & ? & ? & ? & [? ?]). split; try done.
      intros x Hx. apply Hcov in Hx. rewrite (H2 He) in Hx. destruct Hx as [Hx|Hx]; [done|]. by apply elem_of_nil in Hx.
    + intros [? ? ? ? ? ? ? (? & ? & ?) ? Hcov]. assert (errors = []) as He.
      { apply H1. split_and!; try done. intros x _ Hx. by apply elem_of_nil in Hx. }
      split_and!; try done. intros x Hx. apply (H2 He). left. auto.
  - intros (_ & He & _). by rewrite H3, H4.
Qed.

(** The run of [verifyBoundaryManifest] on an object. *)
Lemma verify_run manifest :
  is_record manifest = true ->
  (manifest_wf manifest -> json_data manifest = false -> is_ok (verifyBoundaryManifest manifest) = false) /\
  (manifest_wf manifest /\ json_data manifest = false \/
   exists r, verifyBoundaryManifest manifest = Ok r /\ (mr_ok r = true <-> mr_errors r = []) /\
     (mr_errors r = [] <-> manifest_wf manifest) /\
     (mr_ok r = true -> mr_status r = if existsb is_broken (paths_of manifest) then "FAIL"
        else if existsb is_out_of_scope (paths_of manifest) then "NARROW_GO" else "PASS") /\
     (mr_ok r = false -> mr_status r = "FAIL")).
Proof.
  intros Hr. destruct (manifest_errors_spec manifest Hr) as [He Hs].
  unfold verifyBoundaryManifest. rewrite Hr. cbn [negb].
  destruct (manifest_errors manifest) as [errors s]. cbn [fst snd] in *.
  destruct (bool_decide (errors = [])) eqn:Ed.
  - apply bool_decide_eq_true in Ed as ->. destruct (Hs eq_refl) as [-> ->].
    assert (manifest_wf manifest) as Hw by by apply He.
    pose proof (canonicalize_is_ok manifest) as Hj. destruct (canonicalize manifest) as [t|e]; simpl in Hj.
    + rewrite <- Hj. split; [done|right]. eexists. split; [reflexivity|]. cbn [mr_ok mr_errors mr_status negb orb].
      split_and!; done.
    + rewrite <- Hj. split; [done|by left].
  - apply bool_decide_eq_false in Ed. cbn [res_bind]. split.
    + intros Hw. by apply He in Hw.
    + right. eexists. split; [reflexivity|]. cbn [mr_ok mr_errors mr_status negb orb]. by split_and!.
Qed.

(** [verifyBoundaryManifest] accepts exactly the well-formed manifests that are
    JSON data: known properties only, every path classified under a distinct
    identifier, every surface covered, unknown paths failing by default.  It throws,
    instead of reporting, exactly on well-formed manifests that are not JSON data
    (a path with a property set to [undefined], for example), and [PASS] is reported
    exactly when moreover no path is broken, fail-closed or out of scope. *)
Theorem verifyBoundaryManifest_correct manifest :
  match verifyBoundaryManifest manifest with
  | Ok r =>
      (mr_ok r = true <-> manifest_wf manifest /\ json_data manifest = true) /\
      (mr_ok r = true <-> mr_errors r = []) /\
      (mr_status r = "PASS" <-> mr_ok r = true /\ existsb is_broken (paths_of manifest) = false /\
                                existsb is_out_of_scope (paths_of manifest) = false)
  | Throw _ => manifest_wf manifest /\ json_data manifest = false
  end.
Proof.
  destruct (is_record manifest) eqn:Hr.
  - destruct (verify_run manifest Hr) as [Ht [[Hw Hj]|(r & E & H1 & H2 & H3 & H4)]].
    + specialize (Ht Hw Hj). by destruct (verifyBoundaryManifest manifest).
    + rewrite E. split_and!.
      * rewrite H1, H2. split; [|by intros [? ?]]. intros Hw. split; [done|].
        destruct (json_data manifest) eqn:Ej; [done|]. specialize (Ht Hw eq_refl). by rewrite E in Ht.
      * done.
      * destruct (mr_ok r) eqn:Eo.
        -- rewrite (H3 eq_refl). destruct (existsb is_broken _), (existsb is_out_of_scope _); naive_solver.
        -- rewrite (H4 eq_refl). naive_solver.
  - unfold verifyBoundaryManifest. rewrite Hr. cbn [negb mr_ok mr_errors mr_status].
    split_and!; try (split; [done|]); try naive_solver.
    intros [[Hr' _ _ _ _ _ _ _ _ _] _]. congruence.
Qed.

(** ** Classification fails closed *)

(** A reference, as an object. *)
Definition ref_of (pathRef : jsval) : jsval :=
  if is_string pathRef then VObj [("path_id" : jstr, pathRef)] else pathRef.

(** [path] is what the reference names: by identifier, and then by surface too if the
    reference has one, or by surface alone. *)
Definition refers (pathRef path : jsval) : Prop :=
  let ref := ref_of pathRef in
  if long_string 1 (vget ref "path_id") then
    (vget path "path_id" === vget ref "path_id") = true /\
    (long_string 1 (vget ref "surface") = true -> (vget path "surface" === vget ref "surface") = true)
  else long_string 1 (vget ref "surface") = true /\ (vget path "surface" === vget ref "surface") = true.

Lemma matching_one k v paths path :
  matching k v paths = [path] ->
  path ∈ paths /\ (vget path k === v) = true /\ forall q, q ∈ paths -> (vget q k === v) = true -> q = path.
Proof.
  unfold matching. intros E.
  assert (forall q, q ∈ [path] <-> q ∈ paths /\ (vget q k === v) = true) as Hq.
  { intros q. rewrite <- E, !list_elem_of_In, filter_In. done. }
  setoid_rewrite list_elem_of_singleton in Hq. destruct (proj1 (Hq path) eq_refl) as [H1 H2].
  split_and!; try done. intros q Hin Hs. by apply Hq.
Qed.

Lemma classify_in_spec paths pathRef :
  let c := classify_in paths (ref_of pathRef) in
  (exists path, path ∈ paths /\ c = known_path path /\ refers pathRef path /\
                forall q, q ∈ paths -> refers pathRef q -> q = path) \/
  (exists reason, c = unknown_path reason []).
Proof.
  cbn zeta. unfold classify_in, refers. set (ref := ref_of pathRef).
  destruct (long_string 1 (vget ref "path_id")).
  - destruct (matching "path_id" _ paths) as [|path [|]] eqn:E; [right; by eexists| |right; by eexists].
    apply matching_one in E as (H1 & H2 & H3).
    destruct (long_string 1 (vget ref "surface")); cbn [andb].
    + destruct (vget path "surface" === vget ref "surface") eqn:Es; cbn [negb]; [|right; by eexists].
      left. exists path. split_and!; try done. naive_solver.
    + left. exists path. split_and!; try done. naive_solver.
  - destruct (long_string 1 (vget ref "surface")); [|right; by eexists].
    destruct (matching "surface" _ paths) as [|path [|]] eqn:E; [right; by eexists| |right; by eexists].
    apply matching_one in E as (H1 & H2 & H3). left. exists path. split_and!; try done. naive_solver.
Qed.

Lemma verify_ok_wf manifest r :
  verifyBoundaryManifest manifest = Ok r -> mr_ok r = true -> manifest_wf manifest.
Proof.
  intros E Hok. destruct (is_record manifest) eqn:Hr.
  - destruct (verify_run manifest Hr) as [Ht [[Hw Hj]|(r' & E' & H1 & H2 & _)]].
    + specialize (Ht Hw Hj). by rewrite E in Ht.
    + rewrite E in E'. injection E' as <-. by apply H2, H1.
  - unfold verifyBoundaryManifest in E. rewrite Hr in E. cbn [negb] in E. injection E as <-. done.
Qed.

Lemma classify_known_wf manifest pathRef c :
  classifyBoundaryPath manifest pathRef = Ok c -> bc_known c = true -> manifest_wf manifest.
Proof.
  unfold classifyBoundaryPath. intros H Hk. inv_res.
  match goal with E : verifyBoundaryManifest _ = Ok ?r |- _ => destruct (mr_ok r) eqn:Eo end;
    [by eapply verify_ok_wf|]. cbn [negb] in H. by inv_res.
Qed.

(** C19 Classification fails closed: a path reference is classified only against a
    well-formed manifest and only when it names exactly one declared path, whose
    declared classification it then gets; in every other case (no manifest, an
    invalid one, a bad, unknown or ambiguous reference) the answer is unknown,
    [fail_closed] and [FAIL]. *)
Theorem classifyBoundaryPath_fail_closed manifest pathRef c :
  classifyBoundaryPath manifest pathRef = Ok c ->
  (bc_known c = true /\ manifest_wf manifest /\
   exists path, path ∈ paths_of manifest /\ c = known_path path /\ refers pathRef path /\
                forall q, q ∈ paths_of manifest -> refers pathRef q -> q = path) \/
  (bc_known c = false /\ bc_classification c = vstr "fail_closed" /\ bc_fail_closed c = true /\
   bc_verdict c = vstr "FAIL").
Proof.
  unfold classifyBoundaryPath. intros H. inv_res.
  match goal with E : verifyBoundaryManifest _ = Ok ?r |- _ => destruct (mr_ok r) eqn:Eo;
    [apply verify_ok_wf in E; [|done]|] end; cbn [negb] in H; [|inv_res; by right].
  fold (ref_of pathRef) in H. destruct (is_record (ref_of pathRef)); cbn [negb] in H; inv_res; [|by right].
  destruct (classify_in_spec (paths_of manifest) pathRef) as [(path & P1 & P2 & P3 & P4)|[reason Hu]].
  - left. unfold paths_of in P2. rewrite P2. split_and!; [done|done|]. by exists path.
  - right. unfold paths_of in Hu. by rewrite Hu.
Qed.

(** Every path of an accepted manifest is classified by its identifier. *)
Theorem classifyBoundaryPath_declared manifest path id :
  manifest_wf manifest -> json_data manifest = true -> path ∈ paths_of manifest ->
  vget path "path_id" = VStr id ->
  classifyBoundaryPath manifest (VStr id) = Ok (known_path path).
Proof.
  intros Hw Hj Hin Hid. pose proof (mw_record _ Hw) as Hr. unfold classifyBoundaryPath.
  destruct (verify_run manifest Hr) as [_ [[_ Hj']|(r & -> & H1 & H2 & _)]]; [congruence|].
  cbn [res_bind]. rewrite (proj2 H1) by by apply H2. cbn [negb is_string is_record]. f_equal.
  pose proof (mw_paths _ Hw) as (_ & _ & Hf). rewrite Forall_forall in Hf.
  unfold classify_in. fold (paths_of manifest).
  change (vget (VObj [("path_id" : jstr, VStr id)]) "path_id") with (VStr id).
  change (vget (VObj [("path_id" : jstr, VStr id)]) "surface") with VUndef.
  assert (long_string 1 (VStr id) = true) as ->.
  { apply non_empty_spec. rewrite <- Hid. apply Hf, Hin. }
  assert (matching "path_id" (VStr id) (paths_of manifest) = [path]) as ->; [|done].
  pose proof (mw_distinct _ Hw) as Hd. revert Hin Hd. clear -Hid Hf. revert Hf.
  induction (paths_of manifest) as [|q l IH]; intros Hf Hin; [by apply elem_of_nil in Hin|].
  unfold path_ids. simpl. fold (path_ids l). rewrite NoDup_cons. intros [Hn Hd].
  apply elem_of_cons in Hin as [->|Hin].
  - rewrite Hid. assert ((VStr id === VStr id) = true) as -> by by apply seq_str. f_equal.
    rewrite Hid in Hn. cbn [str_of] in Hn. unfold matching. clear -Hn.
    induction l as [|q l IH]; [done|]. unfold path_ids in Hn. simpl in *. fold (path_ids l) in Hn.
    apply not_elem_of_cons in Hn as [Hne Hn]. destruct (vget q "path_id" === VStr id) eqn:E; [|by apply IH].
    apply seq_str in E. by rewrite E in Hne.
  - assert ((vget q "path_id" === VStr id) = false) as ->.
    { apply not_true_iff_false. intros E%seq_str. apply Hn. rewrite E. cbn [str_of].
      apply list_elem_of_fmap. exists path. by rewrite Hid. }
    apply IH; [|done|done]. intros x Hx. apply Hf. by right.
Qed.
End spec.

(** ** Simulations and created manifests *)
Section simulations.
Context {C : Crypto} {L : CryptoLaws C} {Hst : Host}.

Lemma judge_pass c b x canp :
  judge c b x = (canp, "PASS" : jstr) ->
  bc_known c = true /\ (b = true -> x = true /\ canp = "CROSSED" /\ (bc_classification c === vstr "blocked") = false).
Proof.
  unfold judge. destruct (bc_known c); cbn [negb]; [|done].
  destruct (_ === _); [done|]. destruct (bc_classification c === vstr "blocked"); destruct b, x; try done;
    intros [= <-]; naive_solver.
Qed.

Lemma evaluate_verdict manifest scenario hmacKey runId row com :
  evaluateScenario manifest scenario hmacKey runId = Ok (row, com) ->
  r_verdict row = "FAIL" \/ r_verdict row = "NARROW_GO" \/ r_verdict row = "PASS".
Proof.
  unfold evaluateScenario. intros H. inv_res. destruct (judge _ _ _) as [canp verdict] eqn:Ej. inv_res.
  injection H as <- <-. cbn [r_verdict]. unfold judge in Ej. repeat case_match; simplify_eq; auto.
Qed.

Lemma evaluate_pass manifest scenario hmacKey runId row com :
  evaluateScenario manifest scenario hmacKey runId = Ok (row, com) -> r_verdict row = "PASS" ->
  manifest_wf manifest /\
  (has_fact scenario = true -> truthy (vget scenario "committed") = true /\ r_canp row = "CROSSED" /\
     r_classification row <> vstr "blocked").
Proof.
  unfold evaluateScenario. intros H Hv. inv_res. destruct (judge _ _ _) as [canp verdict] eqn:Ej. inv_res.
  injection H as <- <-. cbn [r_verdict r_canp r_classification] in *. subst verdict.
  apply judge_pass in Ej as [Hk Hj].
  match goal with E : classifyBoundaryPath _ _ = Ok _ |- _ =>
    apply classify_known_wf in E; [|done] end.
  split; [done|]. intros Hf. destruct (Hj Hf) as (Hm & Hc & Hb).
  destruct (truthy (vget scenario "committed")); [|done]. split_and!; try done.
  intros E. by rewrite E in Hb.
Qed.

(** A row that passes assures only what happened. *)
Definition row_sound (scenario : jsval) (row : sim_row) : Prop :=
  r_verdict row = "PASS" /\
  (has_fact scenario = true -> truthy (vget scenario "committed") = true /\ r_canp row = "CROSSED" /\
                               r_classification row <> vstr "blocked").

Lemma rows_pass manifest hmacKey runId scenarios evaluated :
  Forall2 (λ s r, evaluateScenario manifest s hmacKey runId = Ok r) scenarios evaluated ->
  has_verdict "FAIL" evaluated.*1 = false -> has_verdict "NARROW_GO" evaluated.*1 = false ->
  Forall2 row_sound scenarios evaluated.*1.
Proof.
  unfold has_verdict. induction 1 as [|sc [row com] l ev Hev _ IH]; [constructor|].
  simpl. intros [Ef1 Ef2]%orb_false_iff [En1 En2]%orb_false_iff. constructor; [|by apply IH].
  assert (r_verdict row = "PASS") as Hp.
  { apply evaluate_verdict in Hev as [Hv|[Hv|Hv]]; [| |exact Hv].
    - rewrite Hv, str_eqb_refl in Ef1. done.
    - rewrite Hv, str_eqb_refl in En1. done. }
  split; [done|]. by eapply evaluate_pass.
Qed.

(** C18 A simulation never gives false assurance: if its status is [PASS], the
    manifest is well formed and in every scenario in which the second system ended
    up with the fact the fact crossed the committed channel on a path that is not
    declared blocked. *)
Theorem simulation_no_false_assurance options result :
  runBoundarySimulation options = Ok result -> s_status result = "PASS" ->
  exists manifest scenarios,
    run_manifest (own_fields options) = Ok manifest /\ run_scenarios (own_fields options) = Ok scenarios /\
    manifest_wf manifest /\
    Forall2 row_sound scenarios (s_rows result).
Proof.
  unfold runBoundarySimulation. intros H Hs. inv_res. subst. cbn [s_status s_rows] in *.
  match goal with E : verifyBoundaryManifest ?m = Ok ?r, E' : run_scenarios _ = Ok ?l,
                  E'' : map_res _ _ = Ok ?ev |- _ =>
    exists m, l; destruct (mr_ok r) eqn:Eo; cbn [negb orb] in Hs; [|done];
    destruct (has_verdict "FAIL" ev.*1) eqn:Ef; [done|];
    destruct (has_verdict "NARROW_GO" ev.*1) eqn:En; [done|]; apply map_res_ok in E'';
    apply verify_ok_wf in E; [|done]
  end.
  split_and!; try done. by eapply rows_pass.
Qed.

(** ** Created manifests *)
Lemma normalizePath_id path out : normalizePath path = Ok out -> normalizePath out = Ok out.
Proof.
  unfold normalizePath at 1, copy_field, String. intros H. inv_res. subst.
  destruct (is_undef (vget path "adapter")), (is_undef (vget path "reason")),
    (is_undef (vget path "coverage_receipt_required"));
    destruct (truthy (vget path "coverage_receipt_required")); reflexivity.
Qed.

Lemma imap_res_fixed (f : nat -> jsval -> res jsval) i l l' :
  (forall k x y, f k x = Ok y -> f k y = Ok y) -> imap_res_from i f l = Ok l' -> imap_res_from i f l' = Ok l'.
Proof.
  intros Hf. revert i l'. induction l as [|x l IH]; intros i l'; cbn [imap_res_from].
  - by intros [= <-].
  - intros (y & Hy & (ys & Hys & [= <-])%res_bind_ok)%res_bind_ok. cbn [imap_res_from].
    by rewrite (Hf _ _ _ Hy), (IH _ _ Hys).
Qed.

Lemma map_paths_id l l' :
  map_items (λ _ path, normalizePath path) l = Ok l' -> map_items (λ _ path, normalizePath path) l' = Ok l'.
Proof.
  apply imap_res_fixed. intros k x y.
  assert (normalizePath x = Ok y -> match y with VHole => Ok VHole | _ => normalizePath y end = Ok y) as H.
  { intros Hn. pose proof (normalizePath_id _ _ Hn) as Hy. by destruct y. }
  destruct x; try exact H. by intros [= <-].
Qed.

(** Creating a manifest normalises: a created manifest given back to
    [createBoundaryManifest] is returned unchanged, with its identifier. *)
Theorem createBoundaryManifest_idempotent options manifest :
  createBoundaryManifest options = Ok manifest -> createBoundaryManifest manifest = Ok manifest.
Proof.
  unfold createBoundaryManifest at 1. intros H. inv_res. subst.
  match goal with E : match ?p with _ => _ end = Ok _ |- _ =>
    destruct p as [| | | | | |l| | | | | |]; try done; apply map_paths_id in E; rename E into Hl end.
  unfold createBoundaryManifest. cbn [own_fields assertPlainRecord is_record negb res_bind]. simp_get.
  cbn [coalesce coalesce_res is_nullish String to_str]. rewrite Hl. reflexivity.
Qed.

Definition manifest_of (id system created : jstr) (paths : list jsval) : jsval :=
  VObj [("schema" : jstr, VStr MANIFEST_SCHEMA); ("manifest_id" : jstr, VStr id);
        ("system_id" : jstr, VStr system); ("created_at" : jstr, VStr created);
        ("paths" : jstr, VArr paths); ("default_action" : jstr, VStr DEFAULT_ACTION)].

Lemma default_paths_normal :
  map_items (λ _ path, normalizePath path) defaultBoundaryPaths = Ok defaultBoundaryPaths.
Proof. vm_compute. reflexivity. Qed.

Lemma manifest_of_json id system created : json_data (manifest_of id system created defaultBoundaryPaths) = true.
Proof. reflexivity. Qed.

Lemma create_default system created :
  exists t, createBoundaryManifest (VObj [("systemId" : jstr, VStr system); ("createdAt" : jstr, VStr created)])
            = Ok (manifest_of (slice_to 24 (sha256_text t)) system created defaultBoundaryPaths).
Proof.
  unfold createBoundaryManifest, String. cbn [own_fields assertPlainRecord is_record negb res_bind]. simp_get.
  cbn [coalesce coalesce_res is_nullish String to_str]. rewrite default_paths_normal. cbn [res_bind].
  pose proof (manifest_of_json [] system created) as Hj. rewrite <- canonicalize_is_ok in Hj.
  fold (manifest_of [] system created defaultBoundaryPaths).
  destruct (canonicalize (manifest_of [] system created defaultBoundaryPaths)) as [t|]; [|done].
  by exists t.
Qed.

Lemma default_paths_checked :
  check_paths 0 defaultBoundaryPaths no_paths =
  ([], {| ps_seenIds := path_ids defaultBoundaryPaths; ps_coveredSurfaces := SURFACES;
          ps_hasBroken := true; ps_hasOutOfScope := true |}).
Proof. vm_compute. reflexivity. Qed.

(** The default manifest is accepted for every named system and every readable
    creation time; it declares broken and out-of-scope paths, so its status is
    [FAIL] and both warnings are given. *)
Theorem default_manifest_accepted system created ms :
  system <> [] -> date_parse created = Some ms ->
  exists manifest result,
    createBoundaryManifest (VObj [("systemId" : jstr, VStr system); ("createdAt" : jstr, VStr created)])
      = Ok manifest /\
    verifyBoundaryManifest manifest = Ok result /\ mr_ok result = true /\ mr_status result = "FAIL" /\
    mr_warnings result = ["BROKEN_PATH_DECLARED" : jstr; "OUT_OF_SCOPE_PATH_DECLARED" : jstr].
Proof.
  intros Hs Hd. destruct (create_default system created) as [t Hc].
  set (m := manifest_of (slice_to 24 (sha256_text t)) system created defaultBoundaryPaths) in *.
  assert (manifest_errors m = ([], {| ps_seenIds := path_ids defaultBoundaryPaths;
    ps_coveredSurfaces := SURFACES; ps_hasBroken := true; ps_hasOutOfScope := true |})) as He.
  { unfold manifest_errors. change (items_of (vget m "paths")) with defaultBoundaryPaths.
    rewrite default_paths_checked. f_equal. rewrite !app_nil. split_and!; [|done|].
    - apply root_errors_nil. split_and!; try reflexivity; [|eexists; split; [reflexivity|]..| |].
      + intros k Hk. exact Hk.
      + destruct (sha256_hex (HText t)) as [Hl _]. unfold slice_to, sha256_text.
        rewrite length_take, Hl. lia.
      + done.
      + by exists created, ms.
      + done.
    - apply problems_nil. intros x. apply mem_str_true. }
  pose proof (manifest_of_json (slice_to 24 (sha256_text t)) system created) as Hj.
  rewrite <- canonicalize_is_ok in Hj. fold m in Hj.
  exists m. destruct (canonicalize m) as [text|] eqn:Et; [|done].
  unfold verifyBoundaryManifest. cbn [is_record m manifest_of negb]. fold m. rewrite He, Et.
  eexists. split; [exact Hc|]. split; [reflexivity|]. split_and!; reflexivity.
Qed.
End simulations.

(** ** Witnesses *)
Definition sample_paths : list jsval :=
  map (λ s : jstr, VObj [("path_id" : jstr, VStr s); ("surface" : jstr, VStr s);
                         ("classification" : jstr, vstr "committed")]) SURFACES.

Definition sample_manifest : jsval :=
  manifest_of "manifest-1" "system" DEFAULT_CREATED_AT sample_paths.

Definition sample_run : jsval :=
  VObj [("manifest" : jstr, sample_manifest);
        ("scenarios" : jstr, VArr [scenario_of "honest" "model_input" "canary" "committed_channel" true []])].

Lemma sample_manifest_wf : manifest_wf sample_manifest.
Proof.
  destruct (verifyBoundaryManifest sample_manifest) as [r|] eqn:E; [|by vm_compute in E].
  eapply verify_ok_wf; [exact E|]. vm_compute in E. injection E as <-. reflexivity.
Qed.

Lemma classifyBoundaryPath_fail_closed_witness :
  exists c, classifyBoundaryPath sample_manifest (vstr "no-such-path") = Ok c /\ bc_verdict c = vstr "FAIL".
Proof.
  destruct (classifyBoundaryPath sample_manifest (vstr "no-such-path")) as [c|] eqn:E; [|by vm_compute in E].
  exists c. split; [reflexivity|].
  destruct (classifyBoundaryPath_fail_closed _ _ _ E) as [[Hk _]|(_ & _ & _ & H)]; [|exact H].
  vm_compute in E. injection E as <-. discriminate Hk.
Defined.

Lemma classifyBoundaryPath_declared_witness :
  exists path, classifyBoundaryPath sample_manifest (vstr "cache") = Ok (known_path path).
Proof.
  eexists (VObj [("path_id" : jstr, vstr "cache"); ("surface" : jstr, vstr "cache");
                 ("classification" : jstr, vstr "committed")]).
  apply classifyBoundaryPath_declared; [apply sample_manifest_wf|reflexivity| |reflexivity].
  change (paths_of sample_manifest) with sample_paths. apply list_elem_of_fmap. exists ("cache" : jstr).
  split; [reflexivity|]. apply mem_str_true. vm_compute. reflexivity.
Defined.

Lemma simulation_no_false_assurance_witness :
  exists result, runBoundarySimulation sample_run = Ok result /\ length (s_rows result) = 1 /\
    exists manifest scenarios, manifest_wf manifest /\ Forall2 row_sound scenarios (s_rows result).
Proof.
  destruct (runBoundarySimulation sample_run) as [result|] eqn:E; [|by vm_compute in E].
  exists result. split; [reflexivity|].
  destruct (simulation_no_false_assurance sample_run result E) as (manifest & scenarios & _ & _ & H1 & H2).
  - vm_compute in E. injection E as <-. reflexivity.
  - split; [vm_compute in E; injection E as <-; reflexivity|]. exists manifest, scenarios. auto.
Defined.

Lemma createBoundaryManifest_idempotent_witness :
  exists manifest, createBoundaryManifest (VObj []) = Ok manifest /\
                   createBoundaryManifest manifest = Ok manifest.
Proof.
  destruct (createBoundaryManifest (VObj [])) as [manifest|] eqn:E; [|by vm_compute in E].
  exists manifest. split; [reflexivity|]. apply (createBoundaryManifest_idempotent _ _ E).
Defined.

Lemma default_manifest_accepted_witness :
  exists manifest result, verifyBoundaryManifest manifest = Ok result /\ mr_ok result = true.
Proof.
  destruct (default_manifest_accepted "local" DEFAULT_CREATED_AT 0) as (m & r & _ & H1 & H2 & _);
    [discriminate|vm_compute; reflexivity|]. eauto.
Defined.
