(* ===== verification/Controller.v ===== *)
(** * The memory controller

    [src/packages/controller/src/index.js]: consent grants and their verification,
    the decision whether a recall is allowed, private memory bubbles and the memory
    weather report.  Every artifact is checked by the public-safe scan of the core
    package and a further list of forbidden field names before it is returned. *)

From S2P Require Import Prelude JsValue Regex Canonical Hashing Merkle Receipt PublicSafe Dates VaultPublic Vault.

Definition CONSENT_GRANT_SCHEMA : jstr := "enigma.memory_controller_grant.v1".
Definition RECALL_VETO_DECISION_SCHEMA : jstr := "enigma.recall_veto_decision.v1".
Definition PRIVATE_MEMORY_BUBBLE_SCHEMA : jstr := "enigma.private_memory_bubble.v1".
Definition MEMORY_WEATHER_REPORT_SCHEMA : jstr := "enigma.memory_weather_report.v1".

Definition DEFAULT_NOW : jstr := "1970-01-01T00:00:00.000Z".
Definition DEFAULT_GRANT_TTL_SECONDS : Z := 300.
Definition ID_HASH_LENGTH : nat := 32.

Definition PUBLIC_REF_RE : re :=
  rseqs [rlit "ref:"; cset "A-Za-z0-9"; rupto 255 (cset "A-Za-z0-9._~:@#?=&%+-")].

Definition GRANT_OPERATIONS : list jstr :=
  ["read_local" : jstr; "write_local" : jstr; "recall_context" : jstr; "withhold_context" : jstr;
   "share_context" : jstr; "open_private_bubble" : jstr; "close_private_bubble" : jstr;
   "delete_local" : jstr; "connector_access" : jstr].

Definition GRANT_STATUSES : list jstr := ["active" : jstr; "expired" : jstr; "revoked" : jstr].

Definition RECALL_REASON_CODES : list jstr :=
  ["grant_missing" : jstr; "grant_expired" : jstr; "purpose_mismatch" : jstr; "zone_not_allowed" : jstr;
   "sensitivity_blocked" : jstr; "tombstone_present" : jstr; "private_bubble_open" : jstr;
   "policy_requires_ask" : jstr; "policy_denies_recall" : jstr; "candidate_limit_exceeded" : jstr].

Definition BUBBLE_CLOSE_OUTCOMES : list jstr := ["keep" : jstr; "discard" : jstr].

Definition WEATHER_STATUSES : list jstr := ["sunny" : jstr; "needs_attention" : jstr; "storm_warning" : jstr].

Definition WEATHER_METRICS : list jstr :=
  ["active_grants" : jstr; "expiring_grants" : jstr; "recent_vetoes" : jstr; "open_private_bubbles" : jstr;
   "tombstone_pressure" : jstr; "sensitive_candidates" : jstr; "receipt_coverage" : jstr].

Definition WEATHER_ISSUE_CODES : list jstr :=
  ["grant_expiring" : jstr; "grant_missing" : jstr; "policy_attention_needed" : jstr;
   "veto_rate_elevated" : jstr; "private_bubble_open" : jstr; "receipt_gap" : jstr;
   "tombstone_pressure" : jstr; "sensitive_candidate_pressure" : jstr].

Definition WEATHER_NEXT_ACTIONS : list jstr :=
  ["none" : jstr; "review_grants" : jstr; "review_policy" : jstr; "ask_for_consent" : jstr;
   "close_private_bubbles" : jstr; "inspect_receipts" : jstr].

Definition STORM_TILE_STATUSES : list jstr :=
  ["storm_warning" : jstr; "blocked" : jstr; "fail" : jstr; "revoked" : jstr; "expired" : jstr;
   "unsafe_export" : jstr; "unsafe" : jstr; "tombstone" : jstr; "sensitive" : jstr].

Definition ATTENTION_TILE_STATUSES : list jstr :=
  ["needs_attention" : jstr; "warning" : jstr; "needs_review" : jstr; "offline" : jstr; "pending" : jstr;
   "missing" : jstr; "ask" : jstr].

(** The words of [EXTRA_FORBIDDEN_KEY_RE], which ends a key or follows an underscore. *)
Definition EXTRA_FORBIDDEN_KEY_RE : re :=
  rwords ["account"%string; "account_id"%string; "customer"%string; "customer_id"%string;
          "customer_identifier"%string; "provider_response"%string; "signing_secret"%string;
          "private_data"%string; "memory_payload"%string; "local_absolute_path"%string].

Definition BOUNDARY_FIELDS : obj :=
  [("public_payload_only" : jstr, VBool true); ("memory_payload_absent" : jstr, VBool true);
   ("prompt_payload_absent" : jstr, VBool true); ("transcript_payload_absent" : jstr, VBool true);
   ("embedding_payload_absent" : jstr, VBool true); ("provider_output_absent" : jstr, VBool true);
   ("secret_material_absent" : jstr, VBool true); ("device_path_absent" : jstr, VBool true);
   ("account_identifier_absent" : jstr, VBool true); ("customer_identifier_absent" : jstr, VBool true);
   ("evidence_refs_only" : jstr, VBool true); ("provider_deletion_claim" : jstr, VBool false);
   ("model_forgetting_claim" : jstr, VBool false);
   ("provider_native_memory_control_claim" : jstr, VBool false);
   ("compliance_certification_claim" : jstr, VBool false)].

Definition CONSENT_GRANT_FIELDS : list jstr :=
  ["schema" : jstr; "app_ref" : jstr; "purpose_ref" : jstr; "operations" : jstr;
   "memory_zone_refs" : jstr; "issued_at" : jstr; "expires_at" : jstr; "status" : jstr;
   "grant_ref" : jstr; "policy_ref" : jstr; "proof_refs" : jstr; "receipt_refs" : jstr]
  ++ keys BOUNDARY_FIELDS.

(** ** Small checks *)
Definition assertPlainRecord (value : jsval) (name : jstr) : res unit :=
  throw_if negb (is_plain value) with TypeError (name +s+ " must be an object"); Ok tt.

(** A default parameter [options = {}] that must be an object. *)
Definition options_of (options : jsval) : res obj :=
  if is_undef options then Ok []
  else let! _ := assertPlainRecord options "options" in Ok (own_fields options).

(** [uniqueSorted] on strings, and on the result of a [map] over an array, whose
    holes give one [undefined] that sorts last. *)
Definition uniqueSorted (values : list jstr) : list jstr := sort_strings (set_of_list values).

Definition strings (values : list jsval) : list jstr :=
  flat_map (λ v, match v with VStr s => [s] | _ => [] end) values.

Definition uniqueSortedItems (values : list jsval) : list jsval :=
  map VStr (uniqueSorted (strings values)) ++ (if existsb is_undef values then [VUndef] else []).

Definition normalizeRequiredString (value : jsval) (field : jstr) : res jstr :=
  match value with
  | VStr s => throw_if s =s= [] with TypeError (field +s+ " must be a non-empty string"); Ok s
  | _ => Throw (TypeError (field +s+ " must be a non-empty string"))
  end.

Definition isPublicRef (value : jsval) : bool :=
  match value with VStr s => re_full PUBLIC_REF_RE s | _ => false end.

Definition normalizePublicRef (value : jsval) (field : jstr) : res jsval :=
  let! ref := normalizeRequiredString value field in
  throw_if negb (re_full PUBLIC_REF_RE ref) with TypeError (field +s+ " must be a public ref");
  Ok (VStr ref).

(** A required string from a fixed set. *)
Definition one_of (set : list jstr) (value : jsval) (field message : jstr) : res jsval :=
  let! s := normalizeRequiredString value field in
  throw_if negb (mem_str s set) with TypeError message; Ok (VStr s).

Definition normalizeOperation (value : jsval) : res jsval :=
  one_of GRANT_OPERATIONS value "operation" "operation is not supported".

Definition normalizeOperations (value : jsval) : res (list jsval) :=
  match value with
  | VArr l =>
      let! items := map_items (λ _ item, normalizeOperation item) l in
      let operations := uniqueSortedItems items in
      throw_if (length operations =? 0)%nat with TypeError "operations must not be empty";
      Ok operations
  | _ => Throw (TypeError "operations must be an array")
  end.

Definition item_field (field : jstr) (index : nat) : jstr := field +s+ "[" +s+ nat_str index +s+ "]".

Definition normalizePublicRefArray (value : jsval) (field : jstr) : res (list jsval) :=
  match value with
  | VArr l =>
      let! items := map_items (λ index item, normalizePublicRef item (item_field field index)) l in
      Ok (uniqueSortedItems items)
  | _ => Throw (TypeError (field +s+ " must be an array"))
  end.

Definition normalizeNonEmptyPublicRefArray (value : jsval) (field : jstr) : res (list jsval) :=
  let! refs := normalizePublicRefArray value field in
  throw_if (length refs =? 0)%nat with TypeError (field +s+ " must not be empty");
  Ok refs.

Definition normalizeCount (value : jsval) (field : jstr) : res jsval :=
  throw_if negb (is_nonneg_integer value) with TypeError (field +s+ " must be a non-negative integer");
  Ok value.

(** The integer a positive integer number stands for. *)
Definition normalizeTtl (value : jsval) (field : jstr) : res Z :=
  match value with
  | VNum n =>
      throw_if negb (num_is_integer n && num_ltb (NInt 0) n)
        with TypeError (field +s+ " must be a positive integer");
      let '(m, e) := num_decimal n in Ok (m * 10 ^ e)%Z
  | _ => Throw (TypeError (field +s+ " must be a positive integer"))
  end.

Definition isPublicRefArray (value : jsval) (minOne : bool) : bool :=
  match value with
  | VArr l => (negb minOne || negb (length l =? 0)%nat) && all_distinct (map elem l)
              && forallb (λ x, match x with VHole => true | _ => isPublicRef x end) l
  | _ => false
  end.

Definition isOperationArray (value : jsval) : bool :=
  match value with
  | VArr l => negb (length l =? 0)%nat && all_distinct (map elem l)
              && forallb (λ x, match x with VHole => true | _ => set_has GRANT_OPERATIONS x end) l
  | _ => false
  end.

(** ** The scan *)
Definition is_extra_forbidden (key : jstr) : bool :=
  let normalized := to_lower (snake_boundaries key) in
  re_full EXTRA_FORBIDDEN_KEY_RE normalized || re_suffix (mk_seq (rlit "_") EXTRA_FORBIDDEN_KEY_RE) normalized.

Fixpoint scanExtraForbiddenKeys (value : jsval) (path : jstr) : list jstr :=
  match value with
  | VArr items =>
      (fix go (index : nat) (items : list jsval) : list jstr :=
         match items with
         | [] => []
         | item :: items' => scanExtraForbiddenKeys item (index_path path index) ++ go (S index) items'
         end) 0%nat items
  | VObj fields | VInst _ fields =>
      (fix go (fields : list (jstr * jsval)) : list jstr :=
         match fields with
         | [] => []
         | kv :: fields' =>
             (if is_extra_forbidden kv.1 then [key_path path kv.1] else [])
             ++ scanExtraForbiddenKeys kv.2 (key_path path kv.1) ++ go fields'
         end) fields
  | _ => []
  end.

(** ** Tiles of the weather report *)
Definition normalizeTileStatus (status : jsval) : jsval :=
  let value := to_str status in
  if mem_str value WEATHER_STATUSES then VStr value
  else if mem_str value STORM_TILE_STATUSES then vstr "storm_warning"
  else if mem_str value ATTENTION_TILE_STATUSES then vstr "needs_attention"
  else vstr "needs_attention".

Definition normalizeWeatherStatus (status : jsval) : res jsval :=
  throw_if negb (mem_str (to_str status) WEATHER_STATUSES) with TypeError "status is not supported";
  Ok (VStr (to_str status)).

Definition normalizeWeatherMetric (metric : jsval) : res jsval :=
  one_of WEATHER_METRICS metric "metric" "metric is not supported".

Definition normalizeNextAction (value : jsval) : res jsval :=
  one_of WEATHER_NEXT_ACTIONS value "next_action" "next_action is not supported".

(** The codes of an array, each from a fixed set. *)
Definition code_items (set : list jstr) (value : jsval) (field : jstr) : res (list jsval) :=
  match value with
  | VArr l => map_items (λ index item, one_of set item (item_field field index)
                                         (item_field field index +s+ " is not supported")) l
  | _ => Throw (TypeError (field +s+ " must be an array"))
  end.

Definition normalizeReasonCodes (value : jsval) : res (list jsval) :=
  code_items RECALL_REASON_CODES value "reason_codes".

Definition normalizeIssueCodes (value : jsval) : res (list jsval) :=
  let! items := code_items WEATHER_ISSUE_CODES value "issue_codes" in Ok (uniqueSortedItems items).

Definition metricFromTileRef (tileRef : jsval) : jsval :=
  match tileRef with
  | VStr s =>
      match List.find (λ metric, includes_str metric s) WEATHER_METRICS with
      | Some metric => VStr metric
      | None => vstr "active_grants"
      end
  | _ => vstr "active_grants"
  end.

Definition normalize_tile (index : nat) (tile : jsval) : res jsval :=
  let name := item_field "tiles" index in
  let! _ := assertPlainRecord tile name in
  let ref := vget tile "tile_ref" ?? vget tile "tileRef" in
  let status := normalizeTileStatus (vget tile "status" ?? vstr "sunny") in
  let! metric := normalizeWeatherMetric (vget tile "metric" ?? metricFromTileRef ref) in
  let! tile_ref := normalizePublicRef (ref ?? VStr ("ref:tile:" +s+ nat_str index)) (name +s+ ".tile_ref") in
  let! count := normalizeCount (vget tile "count" ?? vint 0) (name +s+ ".count") in
  let! evidence_refs := normalizePublicRefArray (vget tile "evidence_refs" ?? vget tile "evidenceRefs" ?? VArr [])
                          (name +s+ ".evidence_refs") in
  Ok (VObj [("tile_ref" : jstr, tile_ref); ("status" : jstr, status); ("metric" : jstr, metric);
            ("count" : jstr, count); ("evidence_refs" : jstr, VArr evidence_refs)]).

Definition normalizeWeatherTiles (value : jsval) : res (list jsval) :=
  match value with
  | VArr l =>
      throw_if (length l =? 0)%nat with TypeError "tiles must not be empty";
      map_items normalize_tile l
  | _ => Throw (TypeError "tiles must be an array")
  end.

(** The first tile with a status; the loops read [tile.status], which throws on the
    [undefined] of a sparse array. *)
Fixpoint find_tile (status : string) (tiles : list jsval) : res (option jsval) :=
  match tiles with
  | [] => Ok None
  | tile :: tiles' =>
      let! s := getx tile "status" in
      if s === vstr status then Ok (Some tile) else find_tile status tiles'
  end.

Definition rollupWeatherStatus (tiles : list jsval) : res jsval :=
  let! storm := find_tile "storm_warning" tiles in
  match storm with
  | Some _ => Ok (vstr "storm_warning")
  | None =>
      let! attention := find_tile "needs_attention" tiles in
      Ok (match attention with Some _ => vstr "needs_attention" | None => vstr "sunny" end)
  end.

Definition issueCodeForMetric (metric : jsval) : jstr :=
  if metric === vstr "expiring_grants" then "grant_expiring"
  else if metric === vstr "recent_vetoes" then "veto_rate_elevated"
  else if metric === vstr "open_private_bubbles" then "private_bubble_open"
  else if metric === vstr "tombstone_pressure" then "tombstone_pressure"
  else if metric === vstr "sensitive_candidates" then "sensitive_candidate_pressure"
  else if metric === vstr "receipt_coverage" then "receipt_gap"
  else "policy_attention_needed".

Definition tile_issue (tile : jsval) : res (list jstr) :=
  let! s := getx tile "status" in
  Ok (if s === vstr "sunny" then [] else [issueCodeForMetric (vget tile "metric")]).

Definition issueCodesForTiles (tiles : list jsval) : res (list jstr) :=
  let! issues := map_res tile_issue tiles in Ok (uniqueSorted (concat issues)).

Definition firstNextAction (tiles : list jsval) (status : jsval) (issueCodes : list jsval) : res jsval :=
  let includes (code : string) := arr_includes issueCodes (vstr code) in
  if status === vstr "sunny" then Ok (vstr "none")
  else if includes "private_bubble_open" then Ok (vstr "close_private_bubbles")
  else if includes "receipt_gap" then Ok (vstr "inspect_receipts")
  else if includes "grant_expiring" || includes "grant_missing" then Ok (vstr "review_grants")
  else if includes "policy_attention_needed" then Ok (vstr "review_policy")
  else
    let! stormTile := find_tile "storm_warning" tiles in
    Ok (match stormTile with
        | Some tile => if vget tile "metric" === vstr "open_private_bubbles"
                       then vstr "close_private_bubbles" else vstr "ask_for_consent"
        | None => vstr "ask_for_consent"
        end).

Definition evidenceRefsForTiles (tiles : list jsval) : list jsval :=
  let refs := uniqueSortedItems (flat_map (λ tile, items_of (vget tile "evidence_refs")) tiles) in
  if (length refs =? 0)%nat then [vstr "ref:evidence:weather"] else refs.

(** ** Dates *)
Section controller.
Context {C : Crypto} {Hst : Host}.

Definition isDateTime (value : jsval) : bool :=
  match value with
  | VStr s => re_full PUBLIC_DATE_TIME_RE s && match date_parse s with Some _ => true | None => false end
  | _ => false
  end.

Definition normalizeDateTime (value : jsval) (field : jstr) : res jstr :=
  throw_if negb (isDateTime value) with TypeError (field +s+ " must be an ISO date-time string");
  iso_of_text (str_of value).

Definition addSeconds (dateTime : jstr) (seconds : Z) : res jstr :=
  match date_parse dateTime with
  | Some ms => toISOString (ms + seconds * 1000)
  | None => Throw (RangeError "Invalid time value")
  end.

(** ** Public references and roots *)

(** The properties of [value] that are not omitted, in sorted order. *)
Definition kept_fields (value : obj) (omitted : list jstr) : obj :=
  foldl (λ body key, if mem_str key omitted then body else fset body key (fget value key)) []
    (sort_strings (keys value)).

Definition makePublicRef (kind : jstr) (value : obj) (omittedFields : list jstr) : res jsval :=
  let! t := canonicalize (VObj (kept_fields value omittedFields)) in
  Ok (VStr ("ref:" +s+ kind +s+ ":" +s+ slice_to ID_HASH_LENGTH (sha256_text t))).

Definition merkleRootFor (kind : jstr) (value : obj) (omittedFields : list jstr) : res jsval :=
  let kept := List.filter (λ key, negb (mem_str key omittedFields)) (keys value) in
  let! leaves := map_res (λ key, canonicalize (VObj [("kind" : jstr, VStr kind); ("key" : jstr, VStr key);
                                                      ("value" : jstr, fget value key)]))
                   (sort_strings kept) in
  let! m := ms_new (map VStr leaves) in
  Ok (VStr (ms_root m)).

(** ** The public-safe check of the controller *)
Definition scanMemoryControllerPublicSafe (value : jsval) : res artifact_result :=
  let! core := verifyPublicSafeArtifact value [] in
  let extra := scanExtraForbiddenKeys value "$" in
  let ok := ar_ok core && (length extra =? 0)%nat in
  Ok {| ar_ok := ok;
        ar_errors := ar_errors core
          ++ map (λ path : jstr, path +s+ ": field name is not memory-controller public-safe") extra;
        ar_forbidden_paths := ar_forbidden_paths core ++ extra;
        ar_public_hash := if ok then ar_public_hash core else None |}.

Definition assertMemoryControllerPublicSafe (value : jsval) : res jsval :=
  let! result := scanMemoryControllerPublicSafe value in
  throw_if negb (ar_ok result)
    with TypeError ("memory controller public-safe scan failed: " +s+ join "; " (ar_errors result));
  Ok value.

(** [options.refs ?? options.refsAlias ?? [makePublicRef(...)]], normalised. *)
Definition refs_or (options : obj) (k k' : jstr) (ref : res jsval) : res (list jsval) :=
  let! refs := fget options k ??! (fget options k' ??! (let! r := ref in Ok (VArr [r]))) in
  normalizeNonEmptyPublicRefArray refs k.

(** ** Consent grants *)
Definition normalizeGrantStatus (value : jsval) : res jsval :=
  one_of GRANT_STATUSES value "status" "status is not supported".

(** [options.plural ?? (options.single === undefined ? [fallback] : [options.single])]. *)
Definition single_or (options : obj) (single : jstr) (fallback : string) : jsval :=
  VArr [if is_undef (fget options single) then vstr fallback else fget options single].

Definition createConsentGrant (options0 : jsval) : res jsval :=
  let! options := options_of options0 in
  let! issuedAt := normalizeDateTime (fget options "issued_at" ?? fget options "issuedAt"
                     ?? fget options "now" ?? VStr DEFAULT_NOW) "issued_at" in
  let! expires := fget options "expires_at" ??! (fget options "expiresAt" ??!
    (let! ttl := normalizeTtl (fget options "ttl_seconds" ?? fget options "ttlSeconds"
                               ?? vint DEFAULT_GRANT_TTL_SECONDS) "ttl_seconds" in
     let! t := addSeconds issuedAt ttl in Ok (VStr t))) in
  let! expiresAt := normalizeDateTime expires "expires_at" in
  let! app_ref := normalizePublicRef (fget options "app_ref" ?? fget options "appRef"
                    ?? vstr "ref:app:unspecified") "app_ref" in
  let! purpose_ref := normalizePublicRef (fget options "purpose_ref" ?? fget options "purposeRef"
                        ?? vstr "ref:purpose:unspecified") "purpose_ref" in
  let! operations := normalizeOperations (fget options "operations"
                       ?? single_or options "operation" "recall_context") in
  let! memory_zone_refs := normalizePublicRefArray (fget options "memory_zone_refs"
                             ?? fget options "memoryZoneRefs"
                             ?? single_or options "memory_zone_ref" "ref:zone:default") "memory_zone_refs" in
  let! status := normalizeGrantStatus (fget options "status" ?? vstr "active") in
  let! policy_ref := normalizePublicRef (fget options "policy_ref" ?? fget options "policyRef"
                       ?? vstr "ref:policy:default") "policy_ref" in
  let body := [
    ("schema" : jstr, VStr CONSENT_GRANT_SCHEMA); ("app_ref" : jstr, app_ref);
    ("purpose_ref" : jstr, purpose_ref); ("operations" : jstr, VArr operations);
    ("memory_zone_refs" : jstr, VArr memory_zone_refs); ("issued_at" : jstr, VStr issuedAt);
    ("expires_at" : jstr, VStr expiresAt); ("status" : jstr, status); ("grant_ref" : jstr, VStr []);
    ("policy_ref" : jstr, policy_ref); ("proof_refs" : jstr, VArr []); ("receipt_refs" : jstr, VArr [])]
    ++ BOUNDARY_FIELDS in
  let! ref := fget options "grant_ref" ??! (fget options "grantRef" ??!
    makePublicRef "grant" body ["grant_ref" : jstr; "proof_refs" : jstr; "receipt_refs" : jstr]) in
  let! grant_ref := normalizePublicRef ref "grant_ref" in
  let body := fset body "grant_ref" grant_ref in
  let! proof_refs := refs_or options "proof_refs" "proofRefs"
    (makePublicRef "proof" body ["proof_refs" : jstr; "receipt_refs" : jstr]) in
  let body := fset body "proof_refs" (VArr proof_refs) in
  let! receipt_refs := refs_or options "receipt_refs" "receiptRefs"
    (makePublicRef "receipt" body ["receipt_refs" : jstr]) in
  assertMemoryControllerPublicSafe (VObj (fset body "receipt_refs" (VArr receipt_refs))).

(** ** Verification of grants *)
Record grant_verification := {
  gv_ok : bool;
  gv_status : jstr;
  gv_errors : list jstr;
  gv_reason_codes : list jstr;
  gv_warnings : list jstr;
  gv_public_hash : option jstr
}.

(** An entry of [errors] with the entry of [reasonCodes] pushed beside it. *)
Abbreviation finding := (jstr * jstr)%type.

Definition push (b : bool) (code : jstr) : list finding := if b then [(code, code)] else [].

Definition verification (found : list finding) (warnings : list jstr) (publicHash : option jstr)
    : grant_verification :=
  let ok := (length found =? 0)%nat in
  {| gv_ok := ok; gv_status := if ok then "active" else "fail_closed";
     gv_errors := uniqueSorted found.*1; gv_reason_codes := uniqueSorted found.*2;
     gv_warnings := warnings; gv_public_hash := publicHash |}.

(** [toUpperCase] on the ASCII field names. *)
Definition to_upper (s : jstr) : jstr :=
  map (λ c : N, if ((97 <=? c) && (c <=? 122))%N then (c - 32)%N else c) s.

Definition containsRef (values ref : jsval) : bool :=
  negb (is_nullish values) && negb (is_undef ref) &&
  match values with
  | VSet l => arr_includes l ref
  | VArr l => arr_includes (map elem l) ref
  | _ => false
  end.

Definition expected_operations (options : jsval) : list jsval :=
  map elem (items_of (vget options "operations"))
  ++ (if is_undef (vget options "operation") then [] else [vget options "operation"]).

Definition expected_zones (options : jsval) : list jsval :=
  map elem (if is_array (vget options "memory_zone_refs") then items_of (vget options "memory_zone_refs")
            else items_of (vget options "memoryZoneRefs"))
  ++ (if is_undef (vget options "memory_zone_ref") && is_undef (vget options "memoryZoneRef") then []
      else [vget options "memory_zone_ref" ?? vget options "memoryZoneRef"]).

(** [value !== undefined && actual !== value]. *)
Definition differs (actual value : jsval) : bool := negb (is_undef value) && (actual !== value).

(** Some expected item is not in the array of the grant. *)
Definition lacks (granted : jsval) (expected : list jsval) : bool :=
  existsb (λ x, negb (is_array granted) || negb (arr_includes (map elem (items_of granted)) x)) expected.

Definition compareScope (grant options : jsval) : list finding :=
  push (differs (vget grant "app_ref") (vget options "app_ref" ?? vget options "appRef")) "WRONG_APP"
  ++ push (differs (vget grant "purpose_ref") (vget options "purpose_ref" ?? vget options "purposeRef"))
       "WRONG_PURPOSE"
  ++ push (lacks (vget grant "operations") (expected_operations options)) "WRONG_OPERATION"
  ++ push (lacks (vget grant "memory_zone_refs") (expected_zones options)) "WRONG_MEMORY_ZONE".

Definition shape_errors (grant : jsval) : list finding :=
  flat_map (λ key : jstr, if mem_str key CONSENT_GRANT_FIELDS then []
                          else [(("UNKNOWN_FIELD:" : jstr) +s+ key, "BAD_SHAPE" : jstr)])
    (keys (own_fields grant))
  ++ push (vget grant "schema" !== VStr CONSENT_GRANT_SCHEMA) "BAD_SCHEMA"
  ++ push (negb (isPublicRef (vget grant "app_ref"))) "BAD_APP_REF"
  ++ push (negb (isPublicRef (vget grant "purpose_ref"))) "BAD_PURPOSE_REF"
  ++ push (negb (isOperationArray (vget grant "operations"))) "BAD_OPERATIONS"
  ++ push (negb (isPublicRefArray (vget grant "memory_zone_refs") true)) "BAD_MEMORY_ZONE_REFS"
  ++ push (negb (isDateTime (vget grant "issued_at"))) "BAD_ISSUED_AT"
  ++ push (negb (isDateTime (vget grant "expires_at"))) "BAD_EXPIRES_AT"
  ++ push (negb (set_has GRANT_STATUSES (vget grant "status"))) "BAD_STATUS"
  ++ push (negb (isPublicRef (vget grant "grant_ref"))) "BAD_GRANT_REF"
  ++ push (negb (isPublicRef (vget grant "policy_ref"))) "BAD_POLICY_REF"
  ++ push (negb (isPublicRefArray (vget grant "proof_refs") true)) "BAD_PROOF_REFS"
  ++ push (negb (isPublicRefArray (vget grant "receipt_refs") true)) "BAD_RECEIPT_REFS"
  ++ flat_map (λ fv : jstr * jsval, push (vget grant fv.1 !== fv.2) (("BAD_" : jstr) +s+ to_upper fv.1))
       BOUNDARY_FIELDS.

(** [Date.parse(value) <= Date.parse(now)]; a comparison with [NaN] is false. *)
Definition not_after (value : jsval) (now : jstr) : bool :=
  match date_parse (str_of value), date_parse now with
  | Some t, Some t' => (t <=? t')%Z
  | _, _ => false
  end.

Definition expired (grant : jsval) (now : jstr) : bool :=
  (vget grant "status" === vstr "expired")
  || (isDateTime (vget grant "expires_at") && not_after (vget grant "expires_at") now).

Definition state_errors (grant options : jsval) (now : jstr) : list finding :=
  push (expired grant now) "EXPIRED"
  ++ push ((vget grant "status" === vstr "revoked") || (vget options "revoked" === VBool true)) "REVOKED"
  ++ push (containsRef (vget options "revoked_grant_refs" ?? vget options "revokedGrantRefs")
             (vget grant "grant_ref")) "REVOKED".

Definition verifyConsentGrant (grant options0 : jsval) : res grant_verification :=
  if negb (is_plain grant) then
    Ok (verification [("GRANT_NOT_OBJECT" : jstr, "GRANT_NOT_OBJECT" : jstr)] [] None)
  else
    let options := if is_undef options0 then VObj [] else options0 in
    let! publicSafe := scanMemoryControllerPublicSafe grant in
    let! now0 := getx options "now" in
    let! now := normalizeDateTime (now0 ?? VStr DEFAULT_NOW) "now" in
    Ok (verification (push (negb (ar_ok publicSafe)) "NON_PUBLIC_SAFE_ARTIFACT" ++ shape_errors grant
                      ++ state_errors grant options now ++ compareScope grant options)
          [] (if ar_ok publicSafe then ar_public_hash publicSafe else None)).

(** ** Recall decisions *)
Record recall_counts := {
  rc_candidate : jsval;
  rc_tombstone : jsval;
  rc_sensitive : jsval;
  rc_safe : bool
}.

Definition num_of (v : jsval) : jsnum := match v with VNum n => n | _ => NNaN end.

(** [a <= b] on counts. *)
Definition count_leb (a b : jsval) : bool := negb (num_ltb (num_of b) (num_of a)).

Definition normalizeRecallCounts (options : obj) : res recall_counts :=
  let! candidateCount := normalizeCount (fget options "candidate_count" ?? fget options "candidateCount"
                           ?? vint 0) "candidate_count" in
  let! tombstoneCount := normalizeCount (fget options "tombstone_count" ?? fget options "tombstoneCount"
                           ?? vint 0) "tombstone_count" in
  let! sensitiveCount := normalizeCount (fget options "sensitive_count" ?? fget options "sensitiveCount"
                           ?? vint 0) "sensitive_count" in
  Ok {| rc_candidate := candidateCount; rc_tombstone := tombstoneCount; rc_sensitive := sensitiveCount;
        rc_safe := count_leb tombstoneCount candidateCount && count_leb sensitiveCount candidateCount |}.

Definition counts_value (counts : recall_counts) : jsval :=
  VObj [("candidate_count" : jstr, rc_candidate counts); ("tombstone_count" : jstr, rc_tombstone counts);
        ("sensitive_count" : jstr, rc_sensitive counts); ("safe" : jstr, VBool (rc_safe counts))].

(** The first grant that verifies, or else the first one. *)
Fixpoint first_grant (candidates : list jsval) (scope : jsval) (first : option (jsval * grant_verification))
    : res (option (jsval * grant_verification)) :=
  match candidates with
  | [] => Ok first
  | grant :: candidates' =>
      let! result := verifyConsentGrant grant scope in
      let first := match first with None => Some (grant, result) | Some _ => first end in
      if gv_ok result then Ok (Some (grant, result)) else first_grant candidates' scope first
  end.

Definition grant_candidates (primaryGrant grants : jsval) : list jsval :=
  (if is_nullish primaryGrant then [] else [primaryGrant]) ++ map elem (items_of grants).

Definition selectGrant (primaryGrant grants scope : jsval) : res (option (jsval * grant_verification)) :=
  first_grant (grant_candidates primaryGrant grants) scope None.

Definition positive_count (count : jsval) : bool := num_ltb (NInt 0) (num_of count).

(** What the counts alone say against the recall. *)
Definition count_reasons (counts : recall_counts) : list jstr :=
  (if positive_count (rc_tombstone counts) then ["tombstone_present" : jstr] else [])
  ++ (if positive_count (rc_sensitive counts) then ["sensitivity_blocked" : jstr] else [])
  ++ (if rc_safe counts then [] else ["candidate_limit_exceeded" : jstr]).

(** The decision, its reason codes and the references of the grant. *)
Definition decide_recall (counts : recall_counts) (grant : option (jsval * grant_verification))
    : jstr * list jstr * list jsval :=
  let reasons := count_reasons counts in
  let grant_ref := match grant with Some (g, _) => vget g "grant_ref" | None => VUndef end in
  let includes (code : string) := match grant with
                                  | Some (_, v) => mem_str code (gv_reason_codes v)
                                  | None => false
                                  end in
  let named := if isPublicRef grant_ref then [grant_ref] else [] in
  if negb (length reasons =? 0)%nat then ("deny" : jstr, reasons, [])
  else if match grant with Some (_, v) => gv_ok v | None => false end then ("allow" : jstr, [], [grant_ref])
  else if includes "REVOKED" then ("deny" : jstr, ["policy_denies_recall" : jstr], named)
  else if includes "EXPIRED" then ("deny" : jstr, ["grant_expired" : jstr], named)
  else ("ask" : jstr, ["grant_missing" : jstr], []).

(** [options.list?.[0]]. *)
Definition first_of (v : jsval) : jsval := fget (spread_of v) "0".

(** What is asked for: the application, operation, zone and purpose of a recall. *)
Record recall_request := {
  rr_app_ref : jsval;
  rr_operation : jsval;
  rr_memory_zone_ref : jsval;
  rr_purpose_ref : jsval;
  rr_policy_ref : jsval;
  rr_counts : recall_counts
}.

Definition read_request (options : obj) : res recall_request :=
  let! appRef := normalizePublicRef (fget options "app_ref" ?? fget options "appRef"
                   ?? vstr "ref:app:unspecified") "app_ref" in
  let! operation := normalizeOperation (fget options "operation" ?? first_of (fget options "operations")
                      ?? vstr "recall_context") in
  let! memoryZoneRef := normalizePublicRef (fget options "memory_zone_ref" ?? fget options "memoryZoneRef"
                          ?? first_of (fget options "memory_zone_refs") ?? vstr "ref:zone:default")
                          "memory_zone_ref" in
  let! purposeRef := normalizePublicRef (fget options "purpose_ref" ?? fget options "purposeRef"
                       ?? vstr "ref:purpose:unspecified") "purpose_ref" in
  let! policyRef := normalizePublicRef (fget options "policy_ref" ?? fget options "policyRef"
                      ?? vstr "ref:policy:default") "policy_ref" in
  let! counts := normalizeRecallCounts options in
  Ok {| rr_app_ref := appRef; rr_operation := operation; rr_memory_zone_ref := memoryZoneRef;
        rr_purpose_ref := purposeRef; rr_policy_ref := policyRef; rr_counts := counts |}.

(** The scope every candidate grant is verified against. *)
Definition request_scope (options : obj) (r : recall_request) : jsval :=
  VObj [("app_ref" : jstr, rr_app_ref r); ("operation" : jstr, rr_operation r);
        ("memory_zone_ref" : jstr, rr_memory_zone_ref r); ("purpose_ref" : jstr, rr_purpose_ref r);
        ("now" : jstr, fget options "now" ?? VStr DEFAULT_NOW);
        ("revoked_grant_refs" : jstr, fget options "revoked_grant_refs" ?? fget options "revokedGrantRefs")].

Definition request_ref (r : recall_request) : res jsval :=
  makePublicRef "request" [("appRef" : jstr, rr_app_ref r); ("operation" : jstr, rr_operation r);
    ("memoryZoneRef" : jstr, rr_memory_zone_ref r); ("purposeRef" : jstr, rr_purpose_ref r);
    ("counts" : jstr, counts_value (rr_counts r))] [].

Definition createRecallVetoDecision (options0 : jsval) : res jsval :=
  let! options := options_of options0 in
  let! r := read_request options in
  let counts := rr_counts r in
  let! grant := selectGrant (fget options "grant" ?? VNull) (fget options "grants" ?? VArr [])
                  (request_scope options r) in
  let '(decision, reasonCodes, grantRefs) := decide_recall counts grant in
  let! ref := fget options "request_ref" ??! (fget options "requestRef" ??! request_ref r) in
  let! request_ref := normalizePublicRef ref "request_ref" in
  let! reason_codes := normalizeReasonCodes (fget options "reason_codes" ?? fget options "reasonCodes"
                         ?? VArr (map VStr reasonCodes)) in
  let! grant_refs := normalizePublicRefArray (fget options "grant_refs" ?? fget options "grantRefs"
                       ?? VArr grantRefs) "grant_refs" in
  let body := [
    ("schema" : jstr, VStr RECALL_VETO_DECISION_SCHEMA); ("request_ref" : jstr, request_ref);
    ("app_ref" : jstr, rr_app_ref r); ("policy_ref" : jstr, rr_policy_ref r);
    ("decision" : jstr, VStr decision); ("reason_codes" : jstr, VArr (uniqueSortedItems reason_codes));
    ("candidate_count" : jstr, rc_candidate counts); ("sensitive_count" : jstr, rc_sensitive counts);
    ("tombstone_count" : jstr, rc_tombstone counts); ("grant_refs" : jstr, VArr grant_refs);
    ("proof_refs" : jstr, VArr []); ("receipt_refs" : jstr, VArr []);
    ("safe_to_share" : jstr, VBool (decision =s= "allow"))] ++ BOUNDARY_FIELDS in
  let! proof_refs := refs_or options "proof_refs" "proofRefs"
    (makePublicRef "proof" body ["proof_refs" : jstr; "receipt_refs" : jstr]) in
  let body := fset body "proof_refs" (VArr proof_refs) in
  let! receipt_refs := refs_or options "receipt_refs" "receiptRefs"
    (makePublicRef "receipt" body ["receipt_refs" : jstr]) in
  assertMemoryControllerPublicSafe (VObj (fset body "receipt_refs" (VArr receipt_refs))).
End controller.

(** ** Private bubbles and the weather report *)
Section bubbles.
Context {C : Crypto} {Hst : Host} {P : Platform}.

Definition createPrivateMemoryBubble (options0 : jsval) : res jsval :=
  let! options := options_of options0 in
  let! startedAt := normalizeDateTime (fget options "started_at" ?? fget options "startedAt"
                      ?? fget options "now" ?? VStr DEFAULT_NOW) "started_at" in
  let! app_refs := normalizeNonEmptyPublicRefArray (fget options "app_refs" ?? fget options "appRefs"
                     ?? single_or options "app_ref" "ref:app:unspecified") "app_refs" in
  let! purpose_ref := normalizePublicRef (fget options "purpose_ref" ?? fget options "purposeRef"
                        ?? vstr "ref:purpose:unspecified") "purpose_ref" in
  let! candidate_count := normalizeCount (fget options "candidate_count" ?? fget options "candidateCount"
                            ?? vint 0) "candidate_count" in
  let body := [
    ("schema" : jstr, VStr PRIVATE_MEMORY_BUBBLE_SCHEMA); ("bubble_ref" : jstr, VStr []);
    ("app_refs" : jstr, VArr app_refs); ("purpose_ref" : jstr, purpose_ref); ("status" : jstr, vstr "open");
    ("started_at" : jstr, VStr startedAt); ("closed_at" : jstr, VNull);
    ("candidate_count" : jstr, candidate_count); ("kept_count" : jstr, vint 0);
    ("discarded_count" : jstr, vint 0); ("receipt_refs" : jstr, VArr []); ("bubble_root" : jstr, VStr [])]
    ++ BOUNDARY_FIELDS in
  let! ref := fget options "bubble_ref" ??! (fget options "bubbleRef" ??!
    makePublicRef "bubble" body ["bubble_ref" : jstr; "receipt_refs" : jstr; "bubble_root" : jstr]) in
  let! bubble_ref := normalizePublicRef ref "bubble_ref" in
  let body := fset body "bubble_ref" bubble_ref in
  let! receipt_refs := refs_or options "receipt_refs" "receiptRefs"
    (makePublicRef "receipt" body ["receipt_refs" : jstr; "bubble_root" : jstr]) in
  let body := fset body "receipt_refs" (VArr receipt_refs) in
  let! root := merkleRootFor "private_memory_bubble" body ["bubble_root" : jstr] in
  assertMemoryControllerPublicSafe (VObj (fset body "bubble_root" root)).

(** [a > b] where [a] is a number and [b] any value. *)
Definition exceeds (a b : jsval) : res bool := let! n := to_number b in Ok (num_ltb n (num_of a)).

(** [Math.max(0, a - b)] where [b] is a number. *)
Definition remaining (a b : jsval) : res jsval :=
  let! n := to_number a in Ok (VNum (num_max (NInt 0) (num_sub n (num_of b)))).

Definition closePrivateMemoryBubble (bubble options0 : jsval) : res jsval :=
  let! _ := assertPlainRecord bubble "bubble" in
  let! options := options_of options0 in
  let! _ := assertMemoryControllerPublicSafe bubble in
  throw_if vget bubble "schema" !== VStr PRIVATE_MEMORY_BUBBLE_SCHEMA
    with TypeError "bubble schema mismatch";
  throw_if vget bubble "status" !== vstr "open" with TypeError "bubble must be open";
  let! closedAt := normalizeDateTime (fget options "closed_at" ?? fget options "closedAt"
                     ?? fget options "now" ?? VStr DEFAULT_NOW) "closed_at" in
  let outcome := to_str (fget options "outcome" ?? fget options "close_outcome" ?? fget options "closeOutcome"
                         ?? vstr "discard") in
  throw_if negb (mem_str outcome BUBBLE_CLOSE_OUTCOMES)
    with TypeError "bubble outcome must be keep or discard";
  let candidates := vget bubble "candidate_count" in
  let! keptCount := (if outcome =s= "keep"
                     then normalizeCount (fget options "kept_count" ?? fget options "keptCount" ?? candidates)
                            "kept_count"
                     else Ok (vint 0)) in
  let! kept_exceeds := exceeds keptCount candidates in
  throw_if kept_exceeds with TypeError "kept_count cannot exceed candidate_count";
  let! discardedCount := (if outcome =s= "discard"
                          then normalizeCount (fget options "discarded_count" ?? fget options "discardedCount"
                                               ?? candidates) "discarded_count"
                          else remaining candidates keptCount) in
  let! discarded_exceeds := exceeds discardedCount candidates in
  throw_if discarded_exceeds with TypeError "discarded_count cannot exceed candidate_count";
  let! receipt_refs := normalizeNonEmptyPublicRefArray (fget options "receipt_refs" ?? fget options "receiptRefs"
                         ?? vget bubble "receipt_refs") "receipt_refs" in
  let closed := spread (own_fields bubble) [
    ("status" : jstr, if outcome =s= "keep" then vstr "kept" else vstr "discarded");
    ("closed_at" : jstr, VStr closedAt); ("kept_count" : jstr, keptCount);
    ("discarded_count" : jstr, discardedCount); ("receipt_refs" : jstr, VArr receipt_refs);
    ("bubble_root" : jstr, VStr [])] in
  let! root := merkleRootFor "private_memory_bubble" closed ["bubble_root" : jstr] in
  assertMemoryControllerPublicSafe (VObj (fset closed "bubble_root" root)).

Definition DEFAULT_TILES : jsval :=
  VArr [VObj [("tile_ref" : jstr, vstr "ref:tile:active_grants"); ("status" : jstr, vstr "sunny");
              ("metric" : jstr, vstr "active_grants"); ("count" : jstr, vint 0);
              ("evidence_refs" : jstr, VArr [vstr "ref:evidence:weather"])]].

Definition createMemoryWeatherReport (options0 : jsval) : res jsval :=
  let! options := options_of options0 in
  let! generatedAt := normalizeDateTime (fget options "generated_at" ?? fget options "generatedAt"
                        ?? fget options "now" ?? VStr DEFAULT_NOW) "generated_at" in
  let! tiles := normalizeWeatherTiles (fget options "tiles" ?? DEFAULT_TILES) in
  let! status0 := fget options "status" ??! rollupWeatherStatus tiles in
  let! status := normalizeWeatherStatus status0 in
  let sunny := status === vstr "sunny" in
  let! inferred := (if sunny then Ok [] else issueCodesForTiles tiles) in
  let! issueCodes := normalizeIssueCodes (fget options "issue_codes" ?? fget options "issueCodes"
                       ?? VArr (map VStr inferred)) in
  let! action := fget options "next_action" ??! (fget options "nextAction" ??!
                   firstNextAction tiles status issueCodes) in
  let! nextAction := normalizeNextAction action in
  let! evidence_refs := normalizeNonEmptyPublicRefArray (fget options "evidence_refs"
                          ?? fget options "evidenceRefs" ?? VArr (evidenceRefsForTiles tiles)) "evidence_refs" in
  assertMemoryControllerPublicSafe (VObj ([
    ("schema" : jstr, VStr MEMORY_WEATHER_REPORT_SCHEMA); ("status" : jstr, status);
    ("generated_at" : jstr, VStr generatedAt); ("tiles" : jstr, VArr tiles);
    ("issue_codes" : jstr, VArr (if sunny then []
                                 else if (length issueCodes =? 0)%nat then [vstr "policy_attention_needed"]
                                 else issueCodes));
    ("next_action" : jstr, if sunny then vstr "none" else nextAction);
    ("evidence_refs" : jstr, VArr evidence_refs)] ++ BOUNDARY_FIELDS)).
End bubbles.
