(* ===== verification/ControllerSafety.v ===== *)
(** * What the memory controller guarantees

    A grant is accepted exactly while it is live and covers what is asked for; a
    created grant lives exactly as long as its time to live; a recall is allowed
    exactly when nothing speaks against it and a live grant covers it; the counts of a
    closed bubble are within the candidates and a bubble is closed once; a weather
    report says what its tiles say. *)

From S2P Require Import Prelude JsValue Regex Canonical Hashing Merkle Receipt PublicSafe Dates VaultPublic Vault Samples VaultBundle VaultSafety Controller.

(** ** Helpers *)
Lemma push_nil b code : push b code = [] <-> b = false.
Proof. by destruct b. Qed.

Lemma verification_ok found warnings hash : gv_ok (verification found warnings hash) = true <-> found = [].
Proof. unfold verification. cbn [gv_ok]. by destruct found. Qed.

Lemma elem_of_uniqueSorted x l : x ∈ uniqueSorted l <-> x ∈ l.
Proof. unfold uniqueSorted. by rewrite elem_of_sort_strings, elem_of_set_of_list. Qed.

Lemma NoDup_uniqueSorted l : NoDup (uniqueSorted l).
Proof. apply NoDup_sort_strings, NoDup_set_of_list. Qed.

#[export] Hint Rewrite elem_of_uniqueSorted : js.
#[export] Hint Resolve NoDup_uniqueSorted : js.

Lemma elem_of_strings s l : s ∈ strings l <-> VStr s ∈ l.
Proof.
  unfold strings. rewrite list_elem_of_In, in_flat_map. setoid_rewrite <- list_elem_of_In. split.
  - intros (v & Hv & Hs). destruct v; try by apply elem_of_nil in Hs.
    apply list_elem_of_singleton in Hs as ->. done.
  - intros H. exists (VStr s). split; [done|by apply list_elem_of_singleton].
Qed.

(** A string is distinct from the others under SameValueZero iff under equality. *)
Lemma includes_str_items ss s : arr_includes (map VStr ss) (VStr s) = mem_str s ss.
Proof.
  unfold arr_includes. induction ss as [|x ss IH]; [done|]. cbn [map existsb same_value_zero seq].
  rewrite IH. destruct (mem_str s (x :: ss)) eqn:E.
  - apply mem_str_true, elem_of_cons in E as [->|E]; [by rewrite str_eqb_refl|].
    apply mem_str_true in E as ->. apply orb_true_r.
  - apply mem_str_false, not_elem_of_cons in E as [Hne Hn]. apply mem_str_false in Hn as ->.
    rewrite orb_false_r. apply str_eqb_neq. congruence.
Qed.

Lemma distinct_str_items ss : NoDup ss -> all_distinct (map VStr ss) = true.
Proof.
  induction 1 as [|s ss Hn _ IH]; [done|]. cbn [map all_distinct]. rewrite IH, andb_true_r.
  rewrite includes_str_items. by apply negb_true_iff, mem_str_false.
Qed.

Lemma map_elem_str ss : map elem (map VStr ss) = map VStr ss.
Proof. rewrite map_map. done. Qed.

(** ** Names forbidden by the controller *)
Definition extra_ok (w : jsval) : bool :=
  match w with
  | VObj fields | VInst _ fields => forallb (λ kv : jstr * jsval, negb (is_extra_forbidden kv.1)) fields
  | _ => true
  end.

Fixpoint extra_fields (path : jstr) (fields : list (jstr * jsval)) : list jstr :=
  match fields with
  | [] => []
  | kv :: fields' =>
      (if is_extra_forbidden kv.1 then [key_path path kv.1] else [])
      ++ scanExtraForbiddenKeys kv.2 (key_path path kv.1) ++ extra_fields path fields'
  end.

Fixpoint extra_items (path : jstr) (index : nat) (items : list jsval) : list jstr :=
  match items with
  | [] => []
  | item :: items' => scanExtraForbiddenKeys item (index_path path index) ++ extra_items path (S index) items'
  end.

Lemma extra_fields_eq path fields :
  scanExtraForbiddenKeys (VObj fields) path = extra_fields path fields /\
  forall t, scanExtraForbiddenKeys (VInst t fields) path = extra_fields path fields.
Proof.
  cbn [scanExtraForbiddenKeys]. split; [|intros t]; (induction fields as [|kv fields IH]; [done|]);
    cbn [extra_fields]; by rewrite <- IH.
Qed.

Lemma extra_items_eq path items : scanExtraForbiddenKeys (VArr items) path = extra_items path 0 items.
Proof.
  cbn [scanExtraForbiddenKeys]. generalize 0%nat. induction items as [|x items IH]; intros i; [done|].
  cbn [extra_items]. by rewrite <- IH.
Qed.

Lemma extra_fields_nil path fields :
  Forall (λ kv : jstr * jsval, forall path, scanExtraForbiddenKeys kv.2 path = [] <->
            (forall w, occurs w kv.2 -> extra_ok w = true)) fields ->
  extra_fields path fields = [] <->
  forallb (λ kv : jstr * jsval, negb (is_extra_forbidden kv.1)) fields = true /\
  Forall (λ kv : jstr * jsval, forall w, occurs w kv.2 -> extra_ok w = true) fields.
Proof.
  induction 1 as [|kv fields Hkv _ IH]; [done|]. cbn [extra_fields forallb].
  rewrite !app_nil, IH, Hkv, andb_true_iff, Forall_cons, negb_true_iff.
  destruct (is_extra_forbidden kv.1); naive_solver.
Qed.

Lemma extra_items_nil path index items :
  Forall (λ x, forall path, scanExtraForbiddenKeys x path = [] <->
            (forall w, occurs w x -> extra_ok w = true)) items ->
  extra_items path index items = [] <-> Forall (λ x, forall w, occurs w x -> extra_ok w = true) items.
Proof.
  intros H. revert index. induction H as [|x items Hx _ IH]; intros index; [done|].
  cbn [extra_items]. by rewrite app_nil, IH, Forall_cons, Hx.
Qed.

Lemma extra_nil v path :
  scanExtraForbiddenKeys v path = [] <-> (forall w, occurs w v -> extra_ok w = true).
Proof.
  revert path. induction v as [| |b|n|s| |l IH|fs IH|t fs IH|fs IH|l IH|t b|k t] using jsval_ind;
    intros path.
  all: try (rewrite occurs_atom_iff; [|done|naive_solver]; done).
  - rewrite extra_items_eq, extra_items_nil, occurs_arr_iff by done. naive_solver.
  - by rewrite (proj1 (extra_fields_eq path fs)), extra_fields_nil, occurs_obj_iff.
  - by rewrite (proj2 (extra_fields_eq path fs)), extra_fields_nil, occurs_inst_iff.
Qed.

(** Nothing in the value is objectionable to either scan. *)
Definition controller_safe (v : jsval) : Prop :=
  forall w, occurs w v -> objectionable [] w = false /\ extra_ok w = true.

Section scans.
Context {C : Crypto} {L : CryptoLaws C}.

Lemma controller_scan_ok v r :
  scanMemoryControllerPublicSafe v = Ok r -> ar_ok r = true <-> controller_safe v.
Proof.
  unfold scanMemoryControllerPublicSafe. intros H. inv_res. subst. cbn [ar_ok].
  rewrite andb_true_iff. unfold controller_safe.
  assert (ar_ok x = true <-> (forall w, occurs w v -> objectionable [] w = false)) as Hc.
  { rewrite <- scan_ok_iff. unfold verifyPublicSafeArtifact in *.
    destruct (sr_ok (scanPublicSafeFields v [])); inv_res; subst; done. }
  assert ((length (scanExtraForbiddenKeys v "$") =? 0)%nat = true <->
          (forall w, occurs w v -> extra_ok w = true)) as He.
  { rewrite <- (extra_nil v "$"), Nat.eqb_eq. apply length_zero_iff_nil. }
  rewrite Hc, He. naive_solver.
Qed.

Lemma controller_scan_total v : plain_data v -> exists r, scanMemoryControllerPublicSafe v = Ok r.
Proof.
  intros Hp. unfold scanMemoryControllerPublicSafe, verifyPublicSafeArtifact.
  destruct (sr_ok (scanPublicSafeFields v [])) eqn:E; [|by eexists].
  rewrite scan_ok_iff in E. pose proof (safe_plain_json _ _ E Hp) as Hj.
  rewrite <- canonicalize_is_ok in Hj. destruct (canonicalize v) as [t|]; [|done]. by eexists.
Qed.

Lemma controller_assert_ok v out :
  assertMemoryControllerPublicSafe v = Ok out -> out = v /\ controller_safe v.
Proof.
  unfold assertMemoryControllerPublicSafe. intros H. inv_res. subst.
  match goal with E : negb _ = false |- _ => apply negb_false_iff in E; by rewrite controller_scan_ok in E end.
Qed.
End scans.

(** ** Live grants *)
Section grants.
Context {C : Crypto} {L : CryptoLaws C} {Hst : Host}.

(** The form of a grant. *)
Record grant_shape (grant : jsval) : Prop := {
  gs_keys : forall k, k ∈ keys (own_fields grant) -> k ∈ CONSENT_GRANT_FIELDS;
  gs_schema : vget grant "schema" = VStr CONSENT_GRANT_SCHEMA;
  gs_refs : Forall (λ k : jstr, isPublicRef (vget grant k) = true)
              ["app_ref" : jstr; "purpose_ref" : jstr; "grant_ref" : jstr; "policy_ref" : jstr];
  gs_ref_arrays : Forall (λ k : jstr, isPublicRefArray (vget grant k) true = true)
                    ["memory_zone_refs" : jstr; "proof_refs" : jstr; "receipt_refs" : jstr];
  gs_operations : isOperationArray (vget grant "operations") = true;
  gs_dates : Forall (λ k : jstr, isDateTime (vget grant k) = true) ["issued_at" : jstr; "expires_at" : jstr];
  gs_status : set_has GRANT_STATUSES (vget grant "status") = true;
  gs_boundary : forall fv, fv ∈ BOUNDARY_FIELDS -> (vget grant fv.1 === fv.2) = true
}.

(** The grant covers what the options ask for. *)
Record grant_covers (grant options : jsval) : Prop := {
  gc_app : differs (vget grant "app_ref") (vget options "app_ref" ?? vget options "appRef") = false;
  gc_purpose : differs (vget grant "purpose_ref") (vget options "purpose_ref" ?? vget options "purposeRef") = false;
  gc_operations : lacks (vget grant "operations") (expected_operations options) = false;
  gc_zones : lacks (vget grant "memory_zone_refs") (expected_zones options) = false
}.

(** The grant can be used at the time [now] for what the options ask for. *)
Record grant_live (grant options : jsval) (now : Z) : Prop := {
  gl_safe : controller_safe grant;
  gl_shape : grant_shape grant;
  gl_active : vget grant "status" = vstr "active";
  gl_unexpired : exists t, date_parse (str_of (vget grant "expires_at")) = Some t /\ (now < t)%Z;
  gl_unrevoked : (vget options "revoked" === VBool true) = false /\
                 containsRef (vget options "revoked_grant_refs" ?? vget options "revokedGrantRefs")
                   (vget grant "grant_ref") = false;
  gl_covers : grant_covers grant options
}.

Lemma seq_bool v b : (v === VBool b) = true <-> v = VBool b.
Proof. destruct v; simpl; try (split; [done|congruence]). rewrite eqb_true_iff. naive_solver. Qed.

Lemma unknown_keys_nil grant :
  flat_map (λ key : jstr, if mem_str key CONSENT_GRANT_FIELDS then []
                          else [(("UNKNOWN_FIELD:" : jstr) +s+ key, "BAD_SHAPE" : jstr)])
    (keys (own_fields grant)) = [] <->
  (forall k, k ∈ keys (own_fields grant) -> k ∈ CONSENT_GRANT_FIELDS).
Proof.
  rewrite flat_map_nil. split; intros H k Hk; specialize (H k Hk).
  - apply mem_str_true. by destruct (mem_str k CONSENT_GRANT_FIELDS).
  - apply mem_str_true in H. by rewrite H.
Qed.

Lemma shape_errors_nil grant : shape_errors grant = [] <-> grant_shape grant.
Proof.
  unfold shape_errors. rewrite !app_nil, unknown_keys_nil, !push_nil, !negb_false_iff, seq_str, flat_map_nil.
  setoid_rewrite push_nil. setoid_rewrite negb_false_iff. split.
  - intros (? & ? & ? & ? & ? & ? & ? & ? & ? & ? & ? & ? & ? & ?). constructor; try done;
      repeat apply Forall_cons_2; try apply Forall_nil_2; done.
  - intros [? ? Hr Ha ? Hd ? ?].
    rewrite !Forall_cons in Hr. rewrite !Forall_cons in Ha. rewrite !Forall_cons in Hd.
    destruct Hr as (? & ? & ? & ? & _), Ha as (? & ? & ? & _), Hd as (? & ? & _).
    split_and!; done.
Qed.

Lemma compareScope_nil grant options : compareScope grant options = [] <-> grant_covers grant options.
Proof.
  unfold compareScope. rewrite !app_nil, !push_nil. split; [intros (? & ? & ? & ?); by constructor|by intros []].
Qed.

Lemma isDateTime_parse v : isDateTime v = true -> exists s t, v = VStr s /\ date_parse s = Some t.
Proof.
  destruct v; try done. simpl. rewrite andb_true_iff. intros [_ H].
  destruct (date_parse s) as [t|] eqn:E; [|done]. eauto.
Qed.

Lemma state_errors_nil grant options now t :
  grant_shape grant -> date_parse now = Some t ->
  state_errors grant options now = [] <->
  vget grant "status" = vstr "active" /\
  (exists e, date_parse (str_of (vget grant "expires_at")) = Some e /\ (t < e)%Z) /\
  (vget options "revoked" === VBool true) = false /\
  containsRef (vget options "revoked_grant_refs" ?? vget options "revokedGrantRefs")
    (vget grant "grant_ref") = false.
Proof.
  intros [_ _ _ _ _ Hd Hs _] Hn. rewrite !Forall_cons in Hd. destruct Hd as (_ & Hd & _).
  unfold state_errors, expired. rewrite !app_nil, !push_nil, Hd.
  destruct (isDateTime_parse _ Hd) as (s & e & -> & He). unfold not_after. cbn [str_of]. rewrite He, Hn.
  cbn [andb]. rewrite !orb_false_iff, Z.leb_gt.
  assert ((vget grant "status" === vstr "expired") = false /\ (vget grant "status" === vstr "revoked") = false <->
          vget grant "status" = vstr "active") as Hst'.
  { destruct (vget grant "status"); try done. cbn [set_has] in Hs. apply mem_str_true in Hs. unfold vstr.
    unfold GRANT_STATUSES in Hs. rewrite !elem_of_cons, elem_of_nil in Hs. cbn [seq].
    rewrite !str_eqb_neq. destruct Hs as [->|[->|[->|[]]]]; split; try by intros [? ?].
    - done.
    - intros E%VStr_inj. vm_compute in E. discriminate.
    - intros E%VStr_inj. vm_compute in E. discriminate. }
  rewrite <- Hst'. naive_solver.
Qed.

Lemma verify_live grant options now0 now t :
  is_plain grant = true -> is_plain options = true -> plain_data grant ->
  (vget options "now" ?? VStr DEFAULT_NOW) = now0 ->
  normalizeDateTime now0 "now" = Ok now -> date_parse now = Some t ->
  exists r, verifyConsentGrant grant options = Ok r /\ (gv_ok r = true <-> grant_live grant options t).
Proof.
  intros Hg Ho Hp Hnow Hn Ht. unfold verifyConsentGrant. rewrite Hg. cbn [negb].
  destruct (controller_scan_total grant Hp) as [s Hs]. rewrite Hs. cbn [res_bind].
  destruct options as [| | | | | | |fields| | | | |]; try done. cbn [is_undef getx res_bind].
  rewrite Hnow, Hn. cbn [res_bind]. eexists. split; [reflexivity|].
  rewrite verification_ok, !app_nil, push_nil, negb_false_iff, (controller_scan_ok _ _ Hs), shape_errors_nil,
    compareScope_nil. split.
  - intros (H1 & H2 & H3 & H4). apply (state_errors_nil _ _ _ t) in H3 as (? & ? & ?); [|done..]. by constructor.
  - intros [H1 H2 H3 H4 H5 H6]. split_and!; try done. by apply (state_errors_nil _ _ _ t).
Qed.

(** ** Dates of grants *)
Lemma toISOString_ok t : (Z.abs t <= MAX_TIME)%Z -> exists text, toISOString t = Ok text.
Proof.
  intros H. unfold toISOString. rewrite (proj2 (Z.ltb_ge _ _) H).
  destruct (civil_from_days _) as [[y m] d]. by eexists.
Qed.

Lemma parse_iso t text : toISOString t = Ok text -> date_parse text = Some t.
Proof. intros H%iso_round_trip. unfold date_parse. by rewrite H. Qed.

Lemma normalizeDateTime_ok v field text :
  normalizeDateTime v field = Ok text ->
  exists t, isDateTime v = true /\ date_parse (str_of v) = Some t /\ toISOString t = Ok text /\
            date_parse text = Some t.
Proof.
  unfold normalizeDateTime, iso_of_text. intros H. inv_res. apply negb_false_iff in E.
  destruct (isDateTime_parse _ E) as (s & t & -> & Ht). cbn [str_of] in *. rewrite Ht in H.
  exists t. split_and!; try done. by apply parse_iso.
Qed.

Lemma normalizeDateTime_run s t field :
  isDateTime (VStr s) = true -> date_parse s = Some t -> (Z.abs t <= MAX_TIME)%Z ->
  exists text, normalizeDateTime (VStr s) field = Ok text /\ date_parse text = Some t.
Proof.
  intros Hs Ht Hm. destruct (toISOString_ok t Hm) as [text He]. exists text.
  unfold normalizeDateTime, iso_of_text. rewrite Hs. cbn [negb str_of]. rewrite Ht.
  split; [done|by apply parse_iso].
Qed.

(** A consent grant is accepted exactly while it is live: [verifyConsentGrant]
    answers every JSON grant, and says ok exactly when the grant is public-safe, has the
    form of a grant, is active, expires after [now], is not revoked, and covers the
    application, purpose, operations and zones that are asked for. *)
Theorem verifyConsentGrant_accepts_iff grant options now t :
  is_plain grant = true -> plain_data grant -> is_plain options = true ->
  vget options "now" = VStr now -> isDateTime (VStr now) = true -> date_parse now = Some t ->
  (Z.abs t <= MAX_TIME)%Z ->
  exists r, verifyConsentGrant grant options = Ok r /\ (gv_ok r = true <-> grant_live grant options t).
Proof.
  intros Hg Hp Ho Hn Hd Ht Hm. destruct (normalizeDateTime_run _ _ "now" Hd Ht Hm) as (text & Hr & Hpt).
  eapply verify_live; eauto. by rewrite Hn.
Qed.
End grants.

(** ** Counts *)
Definition num_value (n : jsnum) : Z := let '(m, e) := num_decimal n in (m * 10 ^ e)%Z.

Lemma dec_ltb_int a b :
  (0 <= a.2)%Z -> (0 <= b.2)%Z -> dec_ltb a b = (a.1 * 10 ^ a.2 <? b.1 * 10 ^ b.2)%Z.
Proof.
  intros Ha Hb. unfold dec_ltb. set (e := Z.min a.2 b.2). assert (0 <= e <= a.2 /\ e <= b.2)%Z by lia.
  replace (a.2) with (e + (a.2 - e))%Z at 2 by lia. replace (b.2) with (e + (b.2 - e))%Z at 2 by lia.
  rewrite !Z.pow_add_r by lia. set (p := (10 ^ e)%Z). assert (0 < p)%Z by (subst p; lia).
  destruct (Z.ltb_spec (a.1 * 10 ^ (a.2 - e)) (b.1 * 10 ^ (b.2 - e)));
    destruct (Z.ltb_spec (a.1 * (p * 10 ^ (a.2 - e))) (b.1 * (p * 10 ^ (b.2 - e)))); try done; nia.
Qed.

Lemma num_ltb_int a b :
  num_is_integer a = true -> num_is_integer b = true -> num_ltb a b = (num_value a <? num_value b)%Z.
Proof.
  intros Ha Hb. assert (forall n, num_is_integer n = true -> (0 <= (num_decimal n).2)%Z) as Hn.
  { intros [| | | |] H; simpl in *; lia. }
  unfold num_value. assert (num_ltb a b = dec_ltb (num_decimal a) (num_decimal b)) as -> by by destruct a, b.
  rewrite dec_ltb_int by auto. by destruct (num_decimal a), (num_decimal b).
Qed.

Lemma nonneg_integer v :
  is_nonneg_integer v = true ->
  exists n, v = VNum n /\ num_is_integer n = true /\ (0 <= num_value n)%Z.
Proof.
  destruct v; try done. simpl. rewrite andb_true_iff, negb_true_iff. intros [Hi H]. exists n.
  rewrite num_ltb_int in H by done. apply Z.ltb_ge in H. done.
Qed.

Lemma normalizeCount_ok v field w :
  normalizeCount v field = Ok w ->
  w = v /\ exists n, v = VNum n /\ num_is_integer n = true /\ (0 <= num_value n)%Z.
Proof.
  unfold normalizeCount. intros H. inv_res. apply negb_false_iff in E. split; [done|by apply nonneg_integer].
Qed.

Lemma counts_reasons options counts :
  normalizeRecallCounts options = Ok counts ->
  count_reasons counts = [] <->
  positive_count (rc_tombstone counts) = false /\ positive_count (rc_sensitive counts) = false.
Proof.
  unfold normalizeRecallCounts. intros H. inv_res. subst.
  repeat match goal with E : normalizeCount _ _ = Ok _ |- _ =>
    apply normalizeCount_ok in E as (-> & ? & -> & ? & ?) end.
  unfold count_reasons, positive_count, count_leb. cbn [rc_tombstone rc_sensitive rc_safe num_of].
  rewrite !num_ltb_int by done. change (num_value (NInt 0)) with 0%Z.
  split; [by repeat case_match|]. intros [Ha Hb]. rewrite Ha, Hb. cbn [app].
  apply Z.ltb_ge in Ha, Hb. rewrite !(proj2 (Z.ltb_ge _ _)) by lia. done.
Qed.

(** ** Decisions on recalls *)
Section decisions.
Context {C : Crypto} {L : CryptoLaws C} {Hst : Host}.

Lemma first_grant_sound cs scope first g v :
  first_grant cs scope first = Ok (Some (g, v)) -> gv_ok v = true ->
  match first with Some (_, v') => gv_ok v' = false | None => True end ->
  g ∈ cs /\ verifyConsentGrant g scope = Ok v.
Proof.
  revert first. induction cs as [|c cs IH]; intros first; cbn [first_grant].
  - intros [= ->] Hv Hf. congruence.
  - intros H Hv Hf. inv_res. destruct (gv_ok x) eqn:Ex.
    + injection H as <- <-. split; [by left|done].
    + apply IH in H as [H1 H2]; [|done|by destruct first as [[]|]]. split; [by right|done].
Qed.

Lemma first_grant_complete cs scope first r g v :
  first_grant cs scope first = Ok r -> g ∈ cs -> verifyConsentGrant g scope = Ok v -> gv_ok v = true ->
  exists g' v', r = Some (g', v') /\ gv_ok v' = true.
Proof.
  revert first. induction cs as [|c cs IH]; intros first H Hin Hg Hv; [by apply elem_of_nil in Hin|].
  cbn [first_grant] in H. inv_res. apply elem_of_cons in Hin as [<-|Hin].
  - rewrite Hg in H0. injection H0 as <-. rewrite Hv in H. injection H as <-. eauto.
  - destruct (gv_ok x) eqn:Ex; [injection H as <-; eauto|]. by eapply IH.
Qed.

(** The grants a request offers. *)
Definition offered (options : obj) : list jsval :=
  grant_candidates (fget options "grant" ?? VNull) (fget options "grants" ?? VArr []).

Lemma decide_allow counts grant decision reasons refs :
  decide_recall counts grant = (decision, reasons, refs) ->
  decision = "allow" <-> count_reasons counts = [] /\ exists g v, grant = Some (g, v) /\ gv_ok v = true.
Proof.
  unfold decide_recall. destruct (count_reasons counts) as [|x l]; cbn [length Nat.eqb negb].
  - destruct grant as [[g v]|]; [destruct (gv_ok v) eqn:E|].
    + intros [= <- <- <-]. split; [|done]. eauto.
    + assert (forall d : jstr, d <> "allow" -> (d = "allow" <-> ([] : list jstr) = [] /\
        exists g0 v0, Some (g, v) = Some (g0, v0) /\ gv_ok v0 = true)) as Hno.
      { intros d Hd. split; [done|]. intros (_ & ? & ? & [= <- <-] & ?). congruence. }
      repeat case_match; intros [= <- _ _]; by apply Hno.
    + intros [= <- _ _]. split; [done|naive_solver].
  - intros [= <- _ _]. split; [done|naive_solver].
Qed.

Lemma decision_fields options d :
  createRecallVetoDecision (VObj options) = Ok d ->
  exists r grant decision reasons refs,
    read_request options = Ok r /\ first_grant (offered options) (request_scope options r) None = Ok grant /\
    decide_recall (rr_counts r) grant = (decision, reasons, refs) /\
    vget d "decision" = VStr decision /\ vget d "safe_to_share" = VBool (decision =s= "allow").
Proof.
  unfold createRecallVetoDecision. cbn [options_of is_undef assertPlainRecord is_plain negb res_bind own_fields].
  intros H. inv_res. destruct (decide_recall (rr_counts x) x0) as [[decision reasons] refs] eqn:Ed.
  inv_res. apply controller_assert_ok in H as [-> _].
  exists x, x0, decision, reasons, refs. split_and!; try done; unfold vget; cbn [own_fields]; by simp_get.
Qed.

(** C21 A recall is allowed, and marked safe to share, exactly when the counts name no
    tombstone and no sensitive candidate and one of the offered grants is live and
    covers the application, operation, zone and purpose of the request at the time of
    the request. *)
Theorem recall_allowed_iff options r d now t :
  createRecallVetoDecision (VObj options) = Ok d -> read_request options = Ok r ->
  (fget options "now" ?? VStr DEFAULT_NOW) = VStr now -> isDateTime (VStr now) = true ->
  date_parse now = Some t -> (Z.abs t <= MAX_TIME)%Z -> Forall plain_data (offered options) ->
  (vget d "safe_to_share" = VBool true <-> vget d "decision" = vstr "allow") /\
  (vget d "decision" = vstr "allow" <->
   positive_count (rc_tombstone (rr_counts r)) = false /\
   positive_count (rc_sensitive (rr_counts r)) = false /\
   exists g, g ∈ offered options /\ is_plain g = true /\ grant_live g (request_scope options r) t).
Proof.
  intros H Hr Hnow Hd Ht Hm Hp.
  destruct (decision_fields _ _ H) as (r' & grant & decision & reasons & refs & Hr' & Hf & Hdec & -> & ->).
  rewrite Hr in Hr'. injection Hr' as <-. unfold vstr.
  assert (forall a b : jstr, VStr a = VStr b <-> a = b) as Hstr by (split; [apply VStr_inj|by intros ->]).
  rewrite !Hstr. split.
  { destruct (decision =s= "allow") eqn:E; [apply str_eqb_eq in E|apply str_eqb_neq in E]; naive_solver. }
  assert (exists counts, normalizeRecallCounts options = Ok (rr_counts r) /\ counts = rr_counts r) as (? & Hc & _).
  { unfold read_request in Hr. inv_res. eauto. }
  rewrite (decide_allow _ _ _ _ _ Hdec), (counts_reasons _ _ Hc).
  destruct (normalizeDateTime_run _ _ "now" Hd Ht Hm) as (text & Hn & Hpt).
  assert (forall g, is_plain g = true -> plain_data g ->
    exists v, verifyConsentGrant g (request_scope options r) = Ok v /\
              (gv_ok v = true <-> grant_live g (request_scope options r) t)) as Hv.
  { intros g Hg Hpg. eapply verify_live; [done|done|done| |exact Hn|exact Hpt].
    change (vget (request_scope options r) "now") with (fget options "now" ?? VStr DEFAULT_NOW).
    by rewrite Hnow. }
  rewrite Forall_forall in Hp. split.
  - intros [[Hc1 Hc2] (g & v & -> & Hok)]. apply first_grant_sound in Hf as [Hin Hg]; [|done..].
    split_and!; try done. exists g.
    assert (is_plain g = true) as Hgp.
    { unfold verifyConsentGrant in Hg. destruct (is_plain g); [done|]. injection Hg as <-. done. }
    split_and!; try done. destruct (Hv g Hgp (Hp _ Hin)) as (v' & Hv' & Hl). rewrite Hg in Hv'.
    injection Hv' as <-. by apply Hl.
  - intros (Hc1 & Hc2 & g & Hin & Hgp & Hl). split; [done|].
    destruct (Hv g Hgp (Hp _ Hin)) as (v & Hg & Hok). eapply first_grant_complete; eauto. by apply Hok.
Qed.
End decisions.

(** ** Created grants *)

(** A normalised array without [undefined] is a list of distinct strings. *)
Lemma unique_items_strings (P : jstr -> Prop) items :
  Forall (λ v, v = VHole \/ exists s, v = VStr s /\ P s) items -> VUndef ∉ uniqueSortedItems items ->
  exists ss, uniqueSortedItems items = map VStr ss /\ NoDup ss /\ Forall P ss.
Proof.
  intros Hf Hu. exists (uniqueSorted (strings items)). unfold uniqueSortedItems in *.
  destruct (existsb is_undef items).
  - destruct Hu. apply elem_of_app. right. by left.
  - rewrite app_nil_r. split_and!; [done|apply NoDup_uniqueSorted|]. apply Forall_forall.
    intros s Hs%elem_of_uniqueSorted%elem_of_strings. rewrite Forall_forall in Hf.
    destruct (Hf _ Hs) as [?|(? & [= <-] & ?)]; done.
Qed.

Lemma map_items_ok (Q : jsval -> Prop) f l items :
  (forall i x y, f i x = Ok y -> Q y) -> map_items f l = Ok items -> Forall (λ v, v = VHole \/ Q v) items.
Proof.
  intros Hf. apply imap_res_Forall. intros i a b. destruct a; try (intros H; right; by eapply Hf).
  intros [= <-]. by left.
Qed.

Lemma required_string v field s : normalizeRequiredString v field = Ok s -> v = VStr s /\ s <> [].
Proof. destruct v; try done. cbn. intros H. inv_res. by apply str_eqb_neq in E. Qed.

Lemma normalizePublicRef_ok v field w :
  normalizePublicRef v field = Ok w -> exists s, w = VStr s /\ re_full PUBLIC_REF_RE s = true.
Proof. unfold normalizePublicRef. intros H. inv_res. apply negb_false_iff in E. eauto. Qed.

Lemma one_of_ok set v field message w :
  one_of set v field message = Ok w -> exists s, w = VStr s /\ s ∈ set.
Proof. unfold one_of. intros H. inv_res. apply negb_false_iff, mem_str_true in E. eauto. Qed.

(** The elements of the normalised array are public references. *)
Definition ref_list (refs : list jsval) : Prop :=
  exists ss, refs = map VStr ss /\ NoDup ss /\ Forall (λ s, re_full PUBLIC_REF_RE s = true) ss.

Lemma normalizePublicRefArray_ok v field refs :
  normalizePublicRefArray v field = Ok refs -> VUndef ∉ refs -> ref_list refs.
Proof.
  unfold normalizePublicRefArray. destruct v; try done. intros H Hu. inv_res. subst.
  eapply unique_items_strings; [|done]. eapply map_items_ok; [|done]. intros i x0 y. apply normalizePublicRef_ok.
Qed.

Lemma normalizeOperations_ok v ops :
  normalizeOperations v = Ok ops -> VUndef ∉ ops ->
  ops <> [] /\ exists ss, ops = map VStr ss /\ NoDup ss /\ Forall (λ s, s ∈ GRANT_OPERATIONS) ss.
Proof.
  unfold normalizeOperations. destruct v; try done. intros H Hu. inv_res. subst. split.
  - intros E0. by rewrite E0 in E.
  - eapply unique_items_strings; [|done]. eapply map_items_ok; [|done]. intros i x0 y. apply one_of_ok.
Qed.

Lemma ref_list_array refs : ref_list refs -> refs <> [] -> isPublicRefArray (VArr refs) true = true.
Proof.
  intros (ss & -> & Hd & Hf) Hne. unfold isPublicRefArray. rewrite map_elem_str, distinct_str_items by done.
  rewrite length_map. destruct ss as [|s ss]; [done|]. cbn [length Nat.eqb negb orb andb].
  apply forallb_forall. intros x (y & <- & Hy)%in_map_iff. rewrite Forall_forall in Hf.
  by apply Hf, list_elem_of_In.
Qed.

Lemma operation_array ss :
  ss <> [] -> NoDup ss -> Forall (λ s, s ∈ GRANT_OPERATIONS) ss -> isOperationArray (VArr (map VStr ss)) = true.
Proof.
  intros Hne Hd Hf. unfold isOperationArray. rewrite map_elem_str, distinct_str_items by done.
  rewrite length_map. destruct ss as [|s ss]; [done|]. cbn [length Nat.eqb negb orb andb].
  apply forallb_forall. intros x (y & <- & Hy)%in_map_iff. rewrite Forall_forall in Hf.
  by apply mem_str_true, Hf, list_elem_of_In.
Qed.

(** ** Time stamps of four-digit years *)
Definition four_digit (t : Z) : Prop := (-62167219200000 <= t < 253402300800000)%Z.

Lemma civil_year_four days y m d :
  civil_from_days days = (y, m, d) -> (-719528 <= days < 2932897)%Z -> (0 <= y <= 9999)%Z.
Proof.
  unfold civil_from_days. cbn zeta. set (era := ((days + 719468) / 146097)%Z).
  set (doe := (days + 719468 - era * 146097)%Z).
  assert (0 <= doe < 146097)%Z as Hd by (subst doe era; div_lia).
  fold (year_of_era doe). set (yoe := year_of_era doe). fold (day_of_year doe yoe).
  pose proof (year_of_era_bounds _ Hd) as Hy. pose proof (day_of_year_bounds _ Hd) as Hb.
  fold yoe in Hy, Hb. set (doy := day_of_year doe yoe) in *.
  assert (doe = yoe * 365 + yoe / 4 - yoe / 100 + doy)%Z as Ee by (subst doy; unfold day_of_year; lia).
  assert (days = doe + era * 146097 - 719468)%Z as Es by (subst doe; lia).
  intros [= <- _ _] Hr. revert Hy Hb Ee Es Hr. generalize doe era yoe doy. clear. intros doe era yoe doy Hy Hb Ee Es Hr.
  assert (-1 <= era <= 24)%Z as He by div_lia.
  destruct (Z.ltb_spec ((5 * doy + 2) / 153) 10).
  - destruct (Z.leb_spec ((5 * doy + 2) / 153 + 3) 2); [div_lia|]. div_lia.
  - destruct (Z.leb_spec ((5 * doy + 2) / 153 - 9) 2); [div_lia|div_lia].
Qed.

Lemma lang_seq_app r1 r2 s1 s2 : re_lang r1 s1 -> re_lang r2 s2 -> re_lang (mk_seq r1 r2) (s1 ++ s2).
Proof. intros. apply lang_mk_seq. by constructor. Qed.

Lemma lang_pad n x : re_lang (rrep n rdigit) (pad n x).
Proof.
  apply lang_rrep_cls. revert x. induction n as [|n IH]; intros x; [done|].
  destruct (IH (x / 10)%Z) as [Hl Hf]. cbn [pad]. split.
  - rewrite length_app, Hl. simpl. lia.
  - apply Forall_app. split; [done|]. apply Forall_singleton.
    set (c := Z.to_N (48 + x mod 10)). assert (48 <= c <= 57)%N as Hc by (subst c; div_lia).
    unfold cls_match. cbn [class_ranges existsb fst snd]. clearbody c.
    change (class_ranges "0-9") with [(48, 57)%N]. simpl.
    rewrite (proj2 (N.leb_le _ _)), (proj2 (N.leb_le _ _)) by lia. done.
Qed.

Lemma iso_shape t text : toISOString t = Ok text -> four_digit t -> re_full PUBLIC_DATE_TIME_RE text = true.
Proof.
  unfold toISOString, four_digit. intros H Ht. inv_res.
  destruct (civil_from_days (t / MS_PER_DAY)) as [[y m] d] eqn:Ec. apply Ok_inj in H as <-.
  assert (0 <= y <= 9999)%Z as Hy by (eapply civil_year_four; [exact Ec|]; unfold MS_PER_DAY; div_lia).
  unfold iso_year. rewrite (proj2 (Z.leb_le 0 y)), (proj2 (Z.leb_le y 9999)) by lia. cbn [andb].
  apply re_full_spec. unfold PUBLIC_DATE_TIME_RE, rseqs. cbn [foldr].
  repeat (apply lang_seq_app; [first [apply lang_pad|by apply lang_rlit]|]).
  rewrite (app_assoc "."). apply lang_seq_app.
  - apply lang_alt_r. apply lang_seq_app; [by apply lang_rlit|].
    rewrite <- (app_nil_r (pad 3 _)). apply lang_seq_app; [apply lang_pad|constructor].
  - rewrite <- (app_nil_r "Z"). apply lang_seq_app; [by apply lang_rlit|constructor].
Qed.

Section times.
Context {Hst : Host}.

Lemma iso_isDateTime t text : toISOString t = Ok text -> four_digit t -> isDateTime (VStr text) = true.
Proof. intros H Ht. unfold isDateTime. by rewrite (iso_shape _ _ H Ht), (parse_iso _ _ H). Qed.
End times.

(** ** The grant that is created *)
Lemma fget_elem_of fs k v : fget fs k = v -> v <> VUndef -> (k, v) ∈ fs.
Proof.
  induction fs as [|[k' v'] fs IH]; cbn [fget]; [congruence|]. destruct (k' =s= k) eqn:E.
  - apply str_eqb_eq in E as ->. intros ->. by left.
  - intros H Hn. right. auto.
Qed.

Lemma safe_items v k l x : objectionable [] x = true -> controller_safe v -> vget v k = VArr l -> x ∉ l.
Proof.
  intros Hx Hs Hg Hu. assert (occurs x (VArr l)) as Ho by (eapply occurs_item; [done|constructor]).
  assert (occurs x v) as Hv; [|destruct (Hs _ Hv) as [? _]; congruence].
  destruct v; try done; apply fget_elem_of in Hg; try done.
  - eapply (occurs_field _ _ (k, VArr l)); done.
  - eapply (occurs_inst _ _ _ (k, VArr l)); done.
Qed.

Lemma json_plain v : json_data v = true -> plain_data v.
Proof.
  intros H. apply plainb_data. revert H.
  induction v as [| |b|n|s| |l IH|fs IH|t fs IH|fs IH|l IH|t b|k t] using jsval_ind; try done;
    simpl; rewrite !forallb_forall; intros H x Hx; rewrite Forall_forall in IH;
    (apply IH; [by apply list_elem_of_In|by apply H]).
Qed.

Section created.
Context {C : Crypto} {L : CryptoLaws C} {Hst : Host}.

Lemma controller_assert_json v out : assertMemoryControllerPublicSafe v = Ok out -> json_data v = true.
Proof.
  unfold assertMemoryControllerPublicSafe, scanMemoryControllerPublicSafe, verifyPublicSafeArtifact.
  intros H. inv_res. subst. cbn [ar_ok] in *.
  destruct (sr_ok (scanPublicSafeFields out [])); inv_res; subst; [|done].
  rewrite <- canonicalize_is_ok. match goal with E : canonicalize _ = _ |- _ => by rewrite E end.
Qed.

(** When the options give a time to live, the expiry is that many seconds later. *)
Lemma computed_expiry issuedAt t0 ttl expires expiresAt field :
  date_parse issuedAt = Some t0 -> addSeconds issuedAt ttl = Ok expires ->
  normalizeDateTime (VStr expires) field = Ok expiresAt ->
  expiresAt = expires /\ date_parse expiresAt = Some (t0 + ttl * 1000)%Z /\ isDateTime (VStr expiresAt) = true.
Proof.
  unfold addSeconds. intros -> Ha Hn. pose proof (parse_iso _ _ Ha) as Hp.
  apply normalizeDateTime_ok in Hn as (t & H1 & H2 & H3 & H4). cbn [str_of] in H2.
  rewrite Hp in H2. injection H2 as <-. rewrite Ha in H3. injection H3 as <-. done.
Qed.

Record grant_parts := {
  gp_app : jstr; gp_purpose : jstr; gp_operations : list jsval; gp_zones : list jsval;
  gp_issued : jstr; gp_expires : jstr; gp_status : jstr; gp_ref : jstr; gp_policy : jstr;
  gp_proofs : list jsval; gp_receipts : list jsval
}.

Definition grant_of (p : grant_parts) : jsval :=
  VObj ([
    ("schema" : jstr, VStr CONSENT_GRANT_SCHEMA); ("app_ref" : jstr, VStr (gp_app p));
    ("purpose_ref" : jstr, VStr (gp_purpose p)); ("operations" : jstr, VArr (gp_operations p));
    ("memory_zone_refs" : jstr, VArr (gp_zones p)); ("issued_at" : jstr, VStr (gp_issued p));
    ("expires_at" : jstr, VStr (gp_expires p)); ("status" : jstr, VStr (gp_status p));
    ("grant_ref" : jstr, VStr (gp_ref p)); ("policy_ref" : jstr, VStr (gp_policy p));
    ("proof_refs" : jstr, VArr (gp_proofs p)); ("receipt_refs" : jstr, VArr (gp_receipts p))] ++ BOUNDARY_FIELDS).

(** What is known of the parts of a created grant. *)
Record parts_ok (options : obj) (p : grant_parts) : Prop := {
  po_refs : Forall (λ s, re_full PUBLIC_REF_RE s = true) [gp_app p; gp_purpose p; gp_ref p; gp_policy p];
  po_operations : exists v, normalizeOperations v = Ok (gp_operations p);
  po_arrays : Forall (λ l, exists v field, normalizePublicRefArray v field = Ok l)
                [gp_zones p; gp_proofs p; gp_receipts p];
  po_nonempty : gp_proofs p <> [] /\ gp_receipts p <> [];
  po_status : gp_status p ∈ GRANT_STATUSES;
  po_issued : normalizeDateTime (fget options "issued_at" ?? fget options "issuedAt"
                ?? fget options "now" ?? VStr DEFAULT_NOW) "issued_at" = Ok (gp_issued p);
  po_expires : exists expires,
    (fget options "expires_at" ??! (fget options "expiresAt" ??!
      (let! ttl := normalizeTtl (fget options "ttl_seconds" ?? fget options "ttlSeconds"
                                 ?? vint DEFAULT_GRANT_TTL_SECONDS) "ttl_seconds" in
       let! t := addSeconds (gp_issued p) ttl in Ok (VStr t)))) = Ok expires /\
    normalizeDateTime expires "expires_at" = Ok (gp_expires p)
}.

Lemma non_empty_refs v field refs :
  normalizeNonEmptyPublicRefArray v field = Ok refs -> normalizePublicRefArray v field = Ok refs /\ refs <> [].
Proof.
  unfold normalizeNonEmptyPublicRefArray. intros H. inv_res. split; [done|]. by intros ->.
Qed.

Lemma created_parts options grant :
  createConsentGrant (VObj options) = Ok grant ->
  exists p, grant = grant_of p /\ parts_ok options p /\ controller_safe grant /\ json_data grant = true.
Proof.
  unfold createConsentGrant. cbn [options_of is_undef assertPlainRecord is_plain negb res_bind own_fields].
  intros H. inv_res. pose proof (controller_assert_json _ _ H) as Hj.
  apply controller_assert_ok in H as [-> Hs]. unfold refs_or, normalizeGrantStatus in *. inv_res.
  repeat match goal with
    | E : normalizePublicRef _ _ = Ok _ |- _ => apply normalizePublicRef_ok in E as (? & -> & ?)
    | E : one_of _ _ _ _ = Ok _ |- _ => apply one_of_ok in E as (? & -> & ?)
    | E : normalizeNonEmptyPublicRefArray _ _ = Ok _ |- _ => apply non_empty_refs in E as [? ?]
    end.
  match type of Hs with controller_safe (VObj (fset (fset (fset
    ([_; (_, VStr ?a); (_, VStr ?pu); (_, VArr ?o); (_, VArr ?z); (_, VStr ?i); (_, VStr ?e); (_, VStr ?st); _;
      (_, VStr ?po); _; _] ++ _) _ (VStr ?r)) _ (VArr ?pr)) _ (VArr ?re))) =>
    exists {| gp_app := a; gp_purpose := pu; gp_operations := o; gp_zones := z; gp_issued := i; gp_expires := e;
              gp_status := st; gp_ref := r; gp_policy := po; gp_proofs := pr; gp_receipts := re |} end.
  split; [reflexivity|]. split; [|done].
  constructor; cbn [gp_app gp_purpose gp_ref gp_policy gp_zones gp_proofs gp_receipts gp_status gp_issued
    gp_expires gp_operations]; eauto; rewrite ?Forall_cons; eauto 10.
Qed.

Lemma parts_shape options p :
  parts_ok options p -> controller_safe (grant_of p) -> isDateTime (VStr (gp_issued p)) = true ->
  isDateTime (VStr (gp_expires p)) = true -> gp_zones p <> [] -> grant_shape (grant_of p).
Proof.
  intros [Hr [ov Ho] Ha [Hp1 Hp2] Hs _ _] Hsafe Hi He Hz.
  rewrite !Forall_cons in Hr. rewrite !Forall_cons in Ha.
  destruct Hr as (? & ? & ? & ? & _), Ha as ((? & ? & Hz') & (? & ? & Hpr) & (? & ? & Hre) & _).
  assert (forall k l, vget (grant_of p) k = VArr l -> VUndef ∉ l) as Hu
    by (intros k l; by apply safe_items).
  apply normalizeOperations_ok in Ho as (Hne & ss & Ess & Hd & Hin);
    [|by apply (Hu "operations")].
  constructor.
  - intros k Hk. exact Hk.
  - reflexivity.
  - repeat apply Forall_cons_2; try apply Forall_nil_2; done.
  - repeat apply Forall_cons_2; try apply Forall_nil_2; apply ref_list_array; try done;
      eapply normalizePublicRefArray_ok; try done; eapply Hu.
    + by instantiate (1 := "memory_zone_refs").
    + by instantiate (1 := "proof_refs").
    + by instantiate (1 := "receipt_refs").
  - change (vget (grant_of p) "operations") with (VArr (gp_operations p)). rewrite Ess.
    apply operation_array; try done. intros ->. by rewrite Ess in Hne.
  - repeat apply Forall_cons_2; try apply Forall_nil_2; done.
  - by apply mem_str_true.
  - apply Forall_forall. repeat apply Forall_cons_2; try apply Forall_nil_2; reflexivity.
Qed.

(** A grant lives exactly as long as its time to live: a grant created at [t0] with
    a time to live of [ttl] seconds, active and for at least one zone, is accepted by
    [verifyConsentGrant] at the time [t] exactly when [t < t0 + 1000 * ttl]. *)
Theorem grant_lives_ttl options issued t0 ttl grant now t :
  createConsentGrant (VObj options) = Ok grant ->
  (fget options "issued_at" ?? fget options "issuedAt" ?? fget options "now" ?? VStr DEFAULT_NOW) = VStr issued ->
  date_parse issued = Some t0 -> four_digit t0 ->
  is_nullish (fget options "expires_at") = true -> is_nullish (fget options "expiresAt") = true ->
  normalizeTtl (fget options "ttl_seconds" ?? fget options "ttlSeconds"
                ?? vint DEFAULT_GRANT_TTL_SECONDS) "ttl_seconds" = Ok ttl ->
  vget grant "status" = vstr "active" -> vget grant "memory_zone_refs" <> VArr [] ->
  toISOString t = Ok now -> four_digit t ->
  exists r, verifyConsentGrant grant (VObj [("now" : jstr, VStr now)]) = Ok r /\
            (gv_ok r = true <-> (t < t0 + ttl * 1000)%Z).
Proof.
  intros H Hi Ht0 H0 He1 He2 Httl Hst' Hz Hnow Ht.
  destruct (created_parts _ _ H) as (p & -> & Hp & Hs & Hj).
  pose proof (po_issued _ _ Hp) as Hiss. rewrite Hi in Hiss.
  apply normalizeDateTime_ok in Hiss as (t0' & _ & E0 & Hiso & Hpi). cbn [str_of] in E0.
  rewrite Ht0 in E0. injection E0 as <-.
  destruct (po_expires _ _ Hp) as (expires & Hexp & Hnorm).
  rewrite Httl in Hexp. cbn [res_bind] in Hexp. unfold coalesce_res in Hexp. rewrite He1, He2 in Hexp. inv_res. subst.
  match goal with E : addSeconds _ _ = Ok _ |- _ => pose proof (computed_expiry _ _ _ _ _ _ Hpi E Hnorm)
    as (_ & Hpe & Hde) end.
  assert (grant_shape (grant_of p)) as Hsh.
  { apply (parts_shape options); [done|done|by eapply iso_isDateTime|done|]. intros Ez. apply Hz.
    change (vget (grant_of p) "memory_zone_refs") with (VArr (gp_zones p)). by rewrite Ez. }
  assert (normalizeDateTime (VStr now) "now" = Ok now) as Hnn.
  { unfold normalizeDateTime, iso_of_text. rewrite (iso_isDateTime _ _ Hnow Ht). cbn [negb str_of].
    by rewrite (parse_iso _ _ Hnow). }
  destruct (verify_live (grant_of p) (VObj [("now" : jstr, VStr now)]) (VStr now) now t eq_refl eq_refl
    (json_plain _ Hj) eq_refl Hnn (parse_iso _ _ Hnow)) as (r & Hr & Hl).
  exists r. split; [exact Hr|]. rewrite Hl. split.
  - intros [_ _ _ (e & He & Hlt) _ _].
    change (str_of (vget (grant_of p) "expires_at")) with (gp_expires p) in He.
    rewrite Hpe in He. by injection He as <-.
  - intros Hlt. constructor; [exact Hs|exact Hsh|exact Hst'| |split; reflexivity|].
    + exists (t0 + ttl * 1000)%Z. split; [exact Hpe|exact Hlt].
    + constructor; reflexivity.
Qed.
End created.

(** ** Private bubbles *)
Section bubble_theorems.
Context {C : Crypto} {L : CryptoLaws C} {Hst : Host} {P : Platform}.

Lemma num_sub_value n k :
  num_is_integer k = true -> (0 <= num_value k <= n)%Z -> (n < 2 ^ 53)%Z ->
  num_sub (NInt n) k = NInt (n - num_value k).
Proof.
  intros Hk Hn Hb. destruct k as [z| |m e| |]; try done; unfold num_value in *; cbn [num_decimal] in *.
  - cbn [num_sub]. rewrite Z.mul_1_r in *. unfold int_result. by rewrite (proj2 (Z.ltb_lt _ _)) by lia.
  - cbn [num_sub num_decimal fst snd Z.min Z.compare]. unfold dec_result. cbn [Z.leb Z.compare andb].
    by rewrite !Z.mul_1_r, (proj2 (Z.ltb_lt _ _)) by lia.
  - cbn [num_is_integer] in Hk. apply Z.leb_le in Hk. cbn [num_sub num_decimal fst snd].
    rewrite Z.min_l by lia. rewrite !Z.sub_0_r. unfold dec_result. cbn [Z.leb Z.compare andb].
    rewrite !Z.mul_1_r, (proj2 (Z.ltb_lt _ _)) by lia. done.
Qed.

Lemma num_max_zero z : (0 <= z)%Z -> num_max (NInt 0) (NInt z) = NInt z.
Proof.
  intros Hz. change (num_max (NInt 0) (NInt z)) with (if num_ltb (NInt 0) (NInt z) then NInt z else NInt 0).
  rewrite num_ltb_int by done. unfold num_value. cbn [num_decimal].
  destruct (Z.ltb_spec (0 * 10 ^ 0) (z * 10 ^ 0)); [done|]. f_equal. lia.
Qed.

(** What a close changes: the status, the time, the counts, the receipts, the root. *)
Record bubble_close (bubble closed : jsval) : Prop := {
  bc_kept_fields : forall k, k ∉ ["status" : jstr; "closed_at" : jstr; "kept_count" : jstr;
                                  "discarded_count" : jstr; "receipt_refs" : jstr; "bubble_root" : jstr] ->
                             vget closed k = vget bubble k;
  bc_counts : forall n, vget bubble "candidate_count" = vint n -> (n < 2 ^ 53)%Z ->
    exists kept discarded, vget closed "kept_count" = VNum kept /\ vget closed "discarded_count" = VNum discarded /\
      (0 <= num_value kept)%Z /\ (0 <= num_value discarded)%Z /\
      (num_value kept + num_value discarded <= n)%Z /\
      ((vget closed "status" = vstr "kept" /\ (num_value kept + num_value discarded = n)%Z) \/
       (vget closed "status" = vstr "discarded" /\ num_value kept = 0%Z))
}.

Lemma exceeds_int a n :
  num_is_integer a = true -> exceeds (VNum a) (vint n) = Ok false -> (num_value a <= n)%Z.
Proof.
  intros Ha. unfold exceeds, vint. cbn [to_number res_bind num_of]. rewrite num_ltb_int by done.
  intros [= H%Z.ltb_ge]. unfold num_value in H at 2. simpl in H. lia.
Qed.

Lemma close_counts outcome kept discarded (candidates k d : jsval) n :
  outcome ∈ BUBBLE_CLOSE_OUTCOMES -> candidates = vint n -> (n < 2 ^ 53)%Z ->
  (if outcome =s= "keep" then normalizeCount kept "kept_count" else Ok (vint 0)) = Ok k ->
  exceeds k candidates = Ok false ->
  (if outcome =s= "discard" then normalizeCount discarded "discarded_count" else remaining candidates k) = Ok d ->
  exceeds d candidates = Ok false ->
  exists nk nd, k = VNum nk /\ d = VNum nd /\ (0 <= num_value nk)%Z /\ (0 <= num_value nd)%Z /\
    (num_value nk + num_value nd <= n)%Z /\
    ((outcome = "keep" /\ (num_value nk + num_value nd = n)%Z) \/ (outcome <> "keep" /\ num_value nk = 0%Z)).
Proof.
  intros Ho -> Hn Hk He1 Hd He2. unfold BUBBLE_CLOSE_OUTCOMES in Ho.
  rewrite !elem_of_cons, elem_of_nil in Ho. destruct Ho as [->|[->|[]]].
  - change (("keep" : jstr) =s= "keep") with true in Hk. change (("keep" : jstr) =s= "discard") with false in Hd.
    cbv iota in Hk, Hd. apply normalizeCount_ok in Hk as (-> & nk & -> & Hi & Hpos).
    pose proof (exceeds_int _ _ Hi He1) as Hle.
    unfold remaining, vint in Hd. cbn [to_number res_bind num_of] in Hd.
    rewrite num_sub_value in Hd by (done || lia). rewrite num_max_zero in Hd by lia. injection Hd as <-.
    exists nk, (NInt (n - num_value nk)).
    assert (num_value (NInt (n - num_value nk)) = n - num_value nk)%Z as -> by (unfold num_value at 1; simpl; lia).
    split_and!; [done|done|lia|lia|lia|]. left. split; [done|lia].
  - change (("discard" : jstr) =s= "keep") with false in Hk. change (("discard" : jstr) =s= "discard") with true in Hd.
    cbv iota in Hk, Hd. injection Hk as <-. apply normalizeCount_ok in Hd as (-> & nd & -> & Hi & Hpos).
    pose proof (exceeds_int _ _ Hi He2) as Hle.
    exists (NInt 0), nd. change (num_value (NInt 0)) with 0%Z. split_and!; [done|done|lia|lia|lia|]. right.
    split; [|done]. intros E. vm_compute in E. discriminate.
Qed.

Lemma close_fields fs st ca k d re root :
  let closed := VObj (fset (spread fs [("status" : jstr, st); ("closed_at" : jstr, ca); ("kept_count" : jstr, k);
    ("discarded_count" : jstr, d); ("receipt_refs" : jstr, re); ("bubble_root" : jstr, VStr [])]) "bubble_root" root) in
  vget closed "status" = st /\ vget closed "kept_count" = k /\ vget closed "discarded_count" = d /\
  forall key, key ∉ ["status" : jstr; "closed_at" : jstr; "kept_count" : jstr; "discarded_count" : jstr;
                     "receipt_refs" : jstr; "bubble_root" : jstr] -> vget closed key = fget fs key.
Proof.
  cbn zeta. unfold vget. cbn [own_fields]. split_and!; try (rewrite fget_fset, fget_spread; reflexivity).
  intros key Hk. rewrite !not_elem_of_cons in Hk. destruct Hk as (H1 & H2 & H3 & H4 & H5 & H6 & _).
  rewrite fget_fset, fget_spread. cbn [flast].
  rewrite !(proj2 (str_eqb_neq _ _)) by congruence. done.
Qed.

Lemma close_run bubble options closed :
  closePrivateMemoryBubble bubble options = Ok closed ->
  is_plain closed = true /\ assertMemoryControllerPublicSafe closed = Ok closed /\
  vget bubble "schema" = VStr PRIVATE_MEMORY_BUBBLE_SCHEMA /\ vget bubble "status" = vstr "open" /\
  bubble_close bubble closed /\ (vget closed "status" = vstr "kept" \/ vget closed "status" = vstr "discarded").
Proof.
  unfold closePrivateMemoryBubble. cbn zeta. intros H. inv_res.
  repeat match goal with E : negb _ = false |- _ => apply negb_false_iff in E end.
  match goal with E : (vget _ _ === VStr PRIVATE_MEMORY_BUBBLE_SCHEMA) = true |- _ => apply seq_str in E end.
  match goal with E : (vget _ _ === vstr _) = true |- _ => apply seq_str in E end.
  match goal with E : mem_str _ BUBBLE_CLOSE_OUTCOMES = true |- _ => apply mem_str_true in E; rename E into Ho end.
  set (outcome := to_str _) in *. clearbody outcome.
  pose proof (controller_assert_ok _ _ H) as [-> _].
  match type of H with assertMemoryControllerPublicSafe (VObj (fset (spread ?fs [(_, ?st); (_, ?ca); (_, ?k);
    (_, ?d); (_, ?re); _]) _ ?root)) = _ =>
    destruct (close_fields fs st ca k d re root) as (F1 & F2 & F3 & F4) end.
  split_and!; try done.
  - constructor.
    + intros k Hk. rewrite (F4 k Hk). by destruct bubble.
    + intros n Hn Hb. rewrite F1, F2, F3.
      match goal with
        E1 : (if outcome =s= _ then _ else Ok (vint 0)) = Ok ?k, E2 : (if outcome =s= _ then _ else remaining _ _) = Ok ?d |- _ =>
        destruct (close_counts outcome _ _ _ k d n Ho Hn Hb E1 ltac:(eassumption) E2
          ltac:(eassumption)) as (nk & nd & Ek & Ed & P1 & P2 & P3 & P4) end.
      exists nk, nd. split_and!; try done. destruct P4 as [[-> P4]|[Hne P4]]; [by left|right].
      by rewrite (proj2 (str_eqb_neq _ _) Hne).
  - rewrite F1. destruct (outcome =s= "keep"); auto.
Qed.

(** A bubble is closed once and its counts add up: closing keeps every other field,
    the kept and discarded counts are within the candidates (and account for all of
    them when the bubble is kept), and closing the result again throws. *)
Theorem bubble_closes_once bubble options closed :
  closePrivateMemoryBubble bubble options = Ok closed ->
  bubble_close bubble closed /\
  forall options', is_plain options' = true ->
    closePrivateMemoryBubble closed options' = Throw (TypeError "bubble must be open").
Proof.
  intros H. destruct (close_run _ _ _ H) as (Hp & Ha & Hs & Ho & Hc & Hst'). split; [done|].
  intros options' Hp'. unfold closePrivateMemoryBubble, assertPlainRecord, options_of.
  rewrite Hp. destruct options'; try done. cbn [is_undef is_plain negb res_bind assertPlainRecord]. rewrite Ha.
  cbn [res_bind].
  assert (vget closed "schema" = VStr PRIVATE_MEMORY_BUBBLE_SCHEMA) as ->.
  { rewrite (bc_kept_fields _ _ Hc); [done|]. apply mem_str_false. vm_compute. reflexivity. }
  rewrite (proj2 (seq_str _ _) eq_refl). cbn [negb].
  by destruct Hst' as [->| ->].
Qed.
End bubble_theorems.

(** ** The weather report *)
Section weather.
Context {C : Crypto} {L : CryptoLaws C} {Hst : Host}.

Definition tile_status (tile : jsval) (status : string) : Prop := vget tile "status" = vstr status.

Lemma getx_ok v k x : getx v k = Ok x -> x = vget v k.
Proof. destruct v; simpl; congruence. Qed.

Lemma find_tile_ok status tiles found :
  find_tile status tiles = Ok found ->
  match found with
  | Some tile => tile ∈ tiles /\ tile_status tile status
  | None => Forall (λ tile, ~ tile_status tile status) tiles
  end.
Proof.
  unfold tile_status. induction tiles as [|tile tiles IH]; cbn [find_tile].
  - intros [= <-]. constructor.
  - intros H. inv_res. apply getx_ok in H0 as ->. destruct (vget tile "status" === vstr status) eqn:E.
    + injection H as <-. split; [by left|]. by apply seq_str in E.
    + apply IH in H. destruct found; [destruct H; split; [by right|done]|]. constructor; [|done].
      intros Ht. rewrite Ht in E. unfold vstr in E. by rewrite (proj2 (seq_str _ _) eq_refl) in E.
Qed.

Lemma normalize_tile_status index tile out :
  normalize_tile index tile = Ok out ->
  exists s : jstr, vget out "status" = VStr s /\ s ∈ WEATHER_STATUSES.
Proof.
  unfold normalize_tile. cbn zeta. intros H. inv_res. subst.
  change (exists s : jstr, normalizeTileStatus (vget tile "status" ?? vstr "sunny") = VStr s /\ s ∈ WEATHER_STATUSES).
  unfold normalizeTileStatus. destruct (mem_str (to_str _) WEATHER_STATUSES) eqn:E.
  - apply mem_str_true in E. eauto.
  - repeat case_match; eexists; (split; [reflexivity|]); apply mem_str_true; reflexivity.
Qed.

(** Every tile of a normalised list has one of the three statuses, or is missing. *)
Lemma tiles_status v tiles :
  normalizeWeatherTiles v = Ok tiles ->
  Forall (λ tile, tile = VHole \/
    (tile_status tile "sunny" \/ tile_status tile "needs_attention" \/ tile_status tile "storm_warning")) tiles.
Proof.
  unfold normalizeWeatherTiles. destruct v; try done. intros H. inv_res.
  eapply map_items_ok; [|done]. intros i x y (s & Hs & Hin)%normalize_tile_status.
  unfold tile_status. rewrite Hs. unfold WEATHER_STATUSES in Hin. rewrite !elem_of_cons, elem_of_nil in Hin.
  destruct Hin as [->|[->|[->|[]]]]; auto.
Qed.

Lemma rollup_ok tiles status :
  rollupWeatherStatus tiles = Ok status ->
  Forall (λ tile, tile = VHole \/
    (tile_status tile "sunny" \/ tile_status tile "needs_attention" \/ tile_status tile "storm_warning")) tiles ->
  VHole ∉ tiles ->
  (status = vstr "storm_warning" /\ Exists (λ tile, tile_status tile "storm_warning") tiles) \/
  (status = vstr "needs_attention" /\ Exists (λ tile, tile_status tile "needs_attention") tiles /\
   Forall (λ tile, ~ tile_status tile "storm_warning") tiles) \/
  (status = vstr "sunny" /\ Forall (λ tile, tile_status tile "sunny") tiles).
Proof.
  unfold rollupWeatherStatus. intros H Hall Hh. inv_res.
  match goal with E : find_tile _ _ = Ok ?f |- _ => apply find_tile_ok in E; rename E into Hs; destruct f end.
  - injection H as <-. left. split; [done|]. apply Exists_exists. naive_solver.
  - inv_res. match goal with E : find_tile _ _ = Ok ?f |- _ => apply find_tile_ok in E; rename E into Ha; destruct f end.
    + right; left. split_and!; try done. apply Exists_exists. naive_solver.
    + right; right. split; [done|]. rewrite Forall_forall in *. intros tile Hin.
      destruct (Hall _ Hin) as [->|[?|[?|?]]]; [done|done|by destruct (Ha _ Hin)|by destruct (Hs _ Hin)].
Qed.

Lemma issue_codes_ok tiles issues :
  issueCodesForTiles tiles = Ok issues ->
  forall code, code ∈ issues <->
    exists tile, tile ∈ tiles /\ ~ tile_status tile "sunny" /\ code = issueCodeForMetric (vget tile "metric").
Proof.
  unfold issueCodesForTiles, tile_status. intros H code. inv_res. subst. rewrite elem_of_uniqueSorted.
  match goal with E : map_res _ _ = Ok ?ll |- _ => apply map_res_ok in E; revert E; generalize ll end.
  induction tiles as [|tile tiles IH]; intros ll Hll; inversion Hll as [|? cs ? ll' Hc Hrest]; subst.
  - simpl. split; [by intros ?%elem_of_nil|by intros (? & ?%elem_of_nil & _)].
  - cbn [concat]. rewrite elem_of_app, (IH _ Hrest). setoid_rewrite elem_of_cons.
    assert (code ∈ cs <-> vget tile "status" <> vstr "sunny" /\ code = issueCodeForMetric (vget tile "metric")) as ->.
    { unfold tile_issue in Hc. inv_res. subst.
      apply getx_ok in H as ->.
      destruct (vget tile "status" === vstr "sunny") eqn:E.
      - apply seq_str in E. split; [by intros ?%elem_of_nil|]. by intros [? _].
      - rewrite list_elem_of_singleton. split; [|by intros [_ ?]]. intros ->. split; [|done].
        intros E'. rewrite E' in E. unfold vstr in E. by rewrite (proj2 (seq_str _ _) eq_refl) in E. }
    naive_solver.
Qed.

Lemma issue_items_ok v issues :
  normalizeIssueCodes v = Ok issues -> forall code, VStr code ∈ issues <-> VStr code ∈ items_of v.
Proof.
  unfold normalizeIssueCodes, code_items. destruct v as [| | | | | |l| | | | | |]; try done. intros H code. inv_res. subst.
  cbn [items_of]. unfold uniqueSortedItems. rewrite elem_of_app, list_elem_of_fmap.
  setoid_rewrite elem_of_uniqueSorted. setoid_rewrite elem_of_strings.
  match goal with E : map_items _ _ = Ok ?items |- _ => assert (VStr code ∈ items <-> VStr code ∈ l) as Hi;
    [revert E; unfold map_items, imap_res; generalize 0%nat items|] end.
  { clear. induction l as [|a l IH]; intros i items H; cbn [imap_res_from] in H; inv_res; subst; [done|].
    rewrite !elem_of_cons, (IH _ _ H1).
    assert (VStr code = x <-> VStr code = a) as ->; [|done].
    destruct a; try (unfold one_of in H0; inv_res; done).
    unfold one_of in H0. inv_res. apply required_string in H as [[= ->] _]. done. }
  rewrite <- Hi. split; [|by intros ?; left; exists code].
  intros [(? & [= ->] & ?)|Hu]; [done|]. case_match; [apply list_elem_of_singleton in Hu|apply elem_of_nil in Hu]; done.
Qed.

(** A weather report whose status and issues are not overridden says what its tiles
    say: its status is that of the worst tile; a sunny report has no issue and no next
    action; any other lists exactly the issues of its tiles that are not sunny, at
    least one. *)
Theorem weather_report_consistent options report tiles :
  createMemoryWeatherReport (VObj options) = Ok report -> vget report "tiles" = VArr tiles ->
  is_nullish (fget options "status") = true ->
  is_nullish (fget options "issue_codes") = true -> is_nullish (fget options "issueCodes") = true ->
  (vget report "status" = vstr "sunny" /\ Forall (λ tile, tile_status tile "sunny") tiles /\
   vget report "issue_codes" = VArr [] /\ vget report "next_action" = vstr "none") \/
  ((vget report "status" = vstr "storm_warning" /\ Exists (λ tile, tile_status tile "storm_warning") tiles \/
    vget report "status" = vstr "needs_attention" /\ Exists (λ tile, tile_status tile "needs_attention") tiles /\
    Forall (λ tile, ~ tile_status tile "storm_warning") tiles) /\
   exists issues, vget report "issue_codes" = VArr issues /\ issues <> [] /\
     forall code, VStr code ∈ issues <->
       exists tile, tile ∈ tiles /\ ~ tile_status tile "sunny" /\ code = issueCodeForMetric (vget tile "metric")).
Proof.
  unfold createMemoryWeatherReport. cbn [options_of is_undef assertPlainRecord is_plain negb res_bind own_fields].
  intros H Htiles Hst' Hi1 Hi2. inv_res. apply controller_assert_ok in H as [-> Hs].
  unfold coalesce_res, coalesce in *. rewrite Hst' in *. rewrite Hi1, Hi2 in *.
  assert (VHole ∉ x0) as Hh by (eapply (safe_items _ "tiles"); [|exact Hs|]; reflexivity). clear Hs.
  change (VArr x0 = VArr tiles) in Htiles. injection Htiles as ->.
  match goal with E : normalizeWeatherTiles _ = Ok _ |- _ => apply tiles_status in E; rename E into Hall end.
  match goal with E : rollupWeatherStatus _ = Ok _ |- _ => pose proof (rollup_ok _ _ E Hall Hh) as Hroll end.
  assert (x2 = x1) as ->.
  { match goal with E : normalizeWeatherStatus _ = Ok _ |- _ => unfold normalizeWeatherStatus in E end. inv_res.
    by destruct Hroll as [[-> _]|[[-> _]|[-> _]]]. }
  match goal with E : normalizeIssueCodes _ = Ok _ |- _ =>
    pose proof (issue_items_ok _ _ E) as Hcodes; cbn [items_of] in Hcodes end.
  assert (x1 = vstr "sunny" \/ (x1 === vstr "sunny") = false) as [E| E].
  { destruct Hroll as [[-> _]|[[-> _]|[-> _]]]; auto. }
  - left. destruct Hroll as [[E' _]|[[E' _]|[E' Hf]]]; [by rewrite E in E'..|]. subst x1. done.
  - right. rewrite E in *. split.
    { destruct Hroll as [[-> ?]|[[-> [? ?]]|[-> _]]]; [by left|by right|discriminate E]. }
    match goal with H4 : issueCodesForTiles _ = Ok _ |- _ => pose proof (issue_codes_ok _ _ H4) as Hiss end.
    assert (forall code, VStr code ∈ x4 <-> exists tile, tile ∈ tiles /\ ~ tile_status tile "sunny" /\
      code = issueCodeForMetric (vget tile "metric")) as Hx.
    { intros code. rewrite Hcodes, <- Hiss. rewrite list_elem_of_fmap. split; [by intros (? & [= ->] & ?)|eauto]. }
    assert (x4 <> []) as Hne.
    { assert (exists tile, tile ∈ tiles /\ ~ tile_status tile "sunny") as (tile & Hin & Hn).
      { unfold tile_status. destruct Hroll as [[_ He]|[[_ [He _]]|[-> _]]]; [..|discriminate E];
          apply Exists_exists in He as (tile & Hin & Ht); exists tile; (split; [done|]); rewrite Ht; discriminate. }
      intros ->. apply (elem_of_nil (VStr (issueCodeForMetric (vget tile "metric")))), Hx. eauto. }
    exists x4. split_and!; [|done|done].
    change (VArr (if (length x4 =? 0)%nat then [vstr "policy_attention_needed"] else x4) = VArr x4).
    by destruct x4.
Qed.
End weather.

(** ** Witnesses *)
Definition sample_grant : jsval :=
  Eval vm_compute in match createConsentGrant (VObj []) with Ok g => g | Throw _ => VUndef end.

Definition sample_now : jsval := VObj [("now" : jstr, VStr DEFAULT_NOW)].

Definition sample_request : obj := [("grant" : jstr, sample_grant)].

Definition sample_bubble : jsval :=
  Eval vm_compute in
    match createPrivateMemoryBubble (VObj [("candidate_count" : jstr, vint 5)]) with Ok b => b | Throw _ => VUndef end.

Definition sample_close : jsval := VObj [("outcome" : jstr, vstr "keep"); ("kept_count" : jstr, vint 2)].

Definition sample_weather : obj :=
  [("tiles" : jstr, VArr [VObj [("status" : jstr, vstr "blocked"); ("metric" : jstr, vstr "receipt_coverage")]])].

Lemma sample_grant_created : createConsentGrant (VObj []) = Ok sample_grant.
Proof. vm_compute. reflexivity. Qed.

Lemma epoch_text : toISOString 0 = Ok DEFAULT_NOW /\ date_parse DEFAULT_NOW = Some 0%Z.
Proof. split; vm_compute; reflexivity. Qed.

Lemma epoch_four_digit : four_digit 0.
Proof. unfold four_digit. lia. Qed.

Lemma verifyConsentGrant_accepts_iff_witness :
  exists r, verifyConsentGrant sample_grant sample_now = Ok r /\
            (gv_ok r = true <-> grant_live sample_grant sample_now 0).
Proof.
  apply (verifyConsentGrant_accepts_iff sample_grant sample_now DEFAULT_NOW 0);
    [reflexivity|apply plainb_data; reflexivity|reflexivity|reflexivity|vm_compute; reflexivity|apply epoch_text|].
  vm_compute. discriminate.
Defined.

Lemma recall_allowed_iff_witness :
  exists r d, createRecallVetoDecision (VObj sample_request) = Ok d /\ read_request sample_request = Ok r /\
    (vget d "decision" = vstr "allow" <->
     positive_count (rc_tombstone (rr_counts r)) = false /\ positive_count (rc_sensitive (rr_counts r)) = false /\
     exists g, g ∈ offered sample_request /\ is_plain g = true /\ grant_live g (request_scope sample_request r) 0).
Proof.
  destruct (createRecallVetoDecision (VObj sample_request)) as [d|] eqn:E; [|vm_compute in E; discriminate E].
  destruct (read_request sample_request) as [r|] eqn:Er; [|vm_compute in Er; discriminate Er].
  exists r, d. split; [reflexivity|]. split; [reflexivity|].
  refine (proj2 (recall_allowed_iff sample_request r d DEFAULT_NOW 0 E Er eq_refl _ (proj2 epoch_text) _ _)).
  - vm_compute. reflexivity.
  - vm_compute. discriminate.
  - apply Forall_cons_2; [apply plainb_data; reflexivity|apply Forall_nil_2].
Defined.

Lemma grant_lives_ttl_witness :
  exists r, verifyConsentGrant sample_grant sample_now = Ok r /\ (gv_ok r = true <-> (0 < 0 + 300 * 1000)%Z).
Proof.
  refine (grant_lives_ttl [] DEFAULT_NOW 0 300 sample_grant DEFAULT_NOW 0 sample_grant_created eq_refl
    (proj2 epoch_text) epoch_four_digit eq_refl eq_refl eq_refl eq_refl _ (proj1 epoch_text) epoch_four_digit).
  vm_compute. discriminate.
Defined.

Lemma bubble_closes_once_witness :
  exists closed, closePrivateMemoryBubble sample_bubble sample_close = Ok closed /\
    bubble_close sample_bubble closed /\
    closePrivateMemoryBubble closed sample_close = Throw (TypeError "bubble must be open").
Proof.
  destruct (closePrivateMemoryBubble sample_bubble sample_close) as [closed|] eqn:E; [|vm_compute in E; discriminate E].
  exists closed. split; [reflexivity|]. destruct (bubble_closes_once _ _ _ E) as [H1 H2].
  split; [exact H1|]. apply H2. reflexivity.
Defined.

Lemma weather_report_consistent_witness :
  exists report tiles, createMemoryWeatherReport (VObj sample_weather) = Ok report /\
    vget report "tiles" = VArr tiles /\ vget report "status" = vstr "storm_warning" /\
    Exists (λ tile, tile_status tile "storm_warning") tiles.
Proof.
  destruct (createMemoryWeatherReport (VObj sample_weather)) as [report|] eqn:E; [|vm_compute in E; discriminate E].
  destruct (vget report "tiles") as [| | | | | |tiles| | | | | |] eqn:Et;
    try (vm_compute in E; injection E as <-; discriminate Et).
  exists report, tiles. split; [reflexivity|]. split; [exact Et|].
  assert (vget report "status" = vstr "storm_warning") as Hst by (vm_compute in E; injection E as <-; reflexivity).
  destruct (weather_report_consistent sample_weather report tiles E Et eq_refl eq_refl eq_refl)
    as [[H _]|[[[_ H]|[H _]] _]]; [rewrite Hst in H; discriminate H|split; [exact Hst|exact H]|].
  rewrite Hst in H. discriminate H.
Defined.
