(* ===== verification/Mesh.v ===== *)
(** * The mesh

    [src/packages/mesh/src/index.js]: nodes with signed descriptors, capsule manifests,
    witness checkpoints, federation grants and the relay store, which keeps hashes of
    encrypted payloads and never the payloads.  The relay store is explicit state; a
    push throws before it changes the store or not at all. *)

From S2P Require Import Prelude JsValue Regex Canonical Hashing Merkle Receipt PublicSafe Dates VaultPublic Vault.

Definition NODE_SCHEMA : jstr := "enigma.mesh_node.v1".
Definition CAPSULE_SCHEMA : jstr := "enigma.capsule_manifest.v1".
Definition WITNESS_SCHEMA : jstr := "enigma.witness_checkpoint.v1".
Definition RELAY_RECORD_SCHEMA : jstr := "enigma.relay_record.v1".
Definition FEDERATION_GRANT_SCHEMA : jstr := "enigma.federation_grant.v1".
Definition DEFAULT_NOW : jstr := "1970-01-01T00:00:00.000Z".
Definition DEFAULT_EXPIRY : jstr := "2100-01-01T00:00:00.000Z".

Definition FORBIDDEN_PLAINTEXT_KEYS : list jstr :=
  ["plaintext" : jstr; "plaintextmemory" : jstr; "plainmemory" : jstr; "cleartext" : jstr;
   "rawmemory" : jstr; "memoryplaintext" : jstr; "memory" : jstr; "memories" : jstr; "text" : jstr;
   "content" : jstr; "body" : jstr; "prompt" : jstr; "prompttext" : jstr; "completion" : jstr;
   "message" : jstr; "messagetext" : jstr; "conversation" : jstr; "conversationtext" : jstr;
   "transcript" : jstr; "transcripttext" : jstr].

Definition RELAY_INPUT_KEYS : list jstr :=
  ["record_id" : jstr; "recordId" : jstr; "capsule_id" : jstr; "capsuleId" : jstr;
   "encrypted_payload_hash" : jstr; "encryptedPayloadHash" : jstr; "payload_hash" : jstr;
   "payloadHash" : jstr; "opaque_encrypted_record" : jstr; "opaqueEncryptedRecord" : jstr;
   "encrypted_payload" : jstr; "encryptedPayload" : jstr; "ciphertext" : jstr;
   "received_at" : jstr; "receivedAt" : jstr; "expires_at" : jstr; "expiresAt" : jstr].

(** ** Small checks *)
Definition requiredString (value : jsval) (field : jstr) : res jstr :=
  match value with
  | VStr (c :: s) => Ok (c :: s)
  | _ => Throw (TypeError (field +s+ " is required"))
  end.

Definition normalizeKeyName (key : jstr) : jstr := List.filter is_lower_or_digit (to_lower key).

Definition ENCRYPTED_PAYLOAD_RE : re :=
  re_ci (mk_seq (rwords ["age1"%string; "enc:"%string; "encrypted:"%string; "ciphertext:"%string;
                         "jwe:"%string; "xchacha20poly1305:"%string; "aes256gcm:"%string; "sealed:"%string])
                (rplus (cset "A-Za-z0-9+/_=:.~-"))).

Definition COMMITMENT_RE : re :=
  re_ci (mk_seq (rwords ["sha256:"%string; "hmac-sha256:"%string; "commitment:sha256:"%string])
                (rrep 64 hex_class)).

Definition isForbiddenPlaintextKey (key : jstr) : bool :=
  mem_str (normalizeKeyName key) FORBIDDEN_PLAINTEXT_KEYS.

Definition assertEncryptedEnvelopeOrCommitment (value : jsval) (field : jstr) : res unit :=
  throw_if negb (non_empty_string value)
    with TypeError (field +s+ " must be an encrypted envelope or commitment");
  throw_if negb (re_full ENCRYPTED_PAYLOAD_RE (str_of value)) && negb (re_full COMMITMENT_RE (str_of value))
    with PlainError (field +s+ " must be an explicit encrypted envelope or commitment");
  Ok tt.

(** A forbidden key with a value that is not [undefined], [null] or the empty text. *)
Definition leaks (key : jstr) (nested : jsval) : bool :=
  isForbiddenPlaintextKey key && negb (is_nullish nested) && (nested !== VStr []).

(** Values are trees, so that the set of seen objects cuts nothing off. *)
Fixpoint hasPlaintextLeak (value : jsval) : bool :=
  match value with
  | VArr items => existsb hasPlaintextLeak items
  | VObj fields | VInst _ fields =>
      existsb (λ kv : jstr * jsval, leaks kv.1 kv.2 || hasPlaintextLeak kv.2) fields
  | _ => false
  end.

Definition assertNoPlaintext (value : jsval) (context : jstr) : res unit :=
  throw_if hasPlaintextLeak value with PlainError (context +s+ " contains plaintext memory fields"); Ok tt.

Fixpoint assertOnlyRelayFields (record_keys : list jstr) : res unit :=
  match record_keys with
  | [] => Ok tt
  | key :: record_keys' =>
      throw_if negb (mem_str key RELAY_INPUT_KEYS)
        with PlainError ("relay record field " +s+ key +s+ " is not opaque encrypted metadata");
      assertOnlyRelayFields record_keys'
  end.

Section mesh.
Context {C : Crypto} {Hst : Host} {P : Platform}.

Definition rootFromValue (value : jsval) : res jstr :=
  let! text := match value with VStr s => Ok s | _ => canonicalize value end in
  Ok (SHA256_PREFIX +s+ sha256_text text).

(** [normalizeRoot] with its default fallback, the root of the empty set. *)
Definition normalizeRoot (value : jsval) (field : jstr) : res jstr :=
  if is_nullish value then Ok EMPTY_MERKLE_ROOT
  else
    match value with
    | VStr s =>
        if re_full ROOT_RE s then Ok s
        else if re_full HASH_RE s then Ok (SHA256_PREFIX +s+ s)
        else Throw (must_be_root field)
    | _ => Throw (must_be_root field)
    end.

(** The error that [compareExpectedRoot] pushes, if any. *)
Definition compareExpectedRoot (actual expected : jsval) (field message : string) : list jstr :=
  if is_undef expected then []
  else
    match normalizeRoot expected field with
    | Ok root => err_if (actual !== VStr root) message
    | Throw _ => [field +s+ " must be a sha256 root"]
    end.

Fixpoint normalizeHashableRoot (options : obj) (names : list jstr) (field : jstr) : res (option jstr) :=
  match names with
  | [] => Ok None
  | name :: names' =>
      if is_undef (fget options name) then normalizeHashableRoot options names' field
      else let! root := normalizeRoot (fget options name) field in Ok (Some root)
  end.

Definition normalizeEncryptedPayloadHash (options : obj) : res jstr :=
  let encrypted := fget options "encrypted_payload" ?? fget options "encryptedPayload"
    ?? fget options "opaque_encrypted_record" ?? fget options "opaqueEncryptedRecord"
    ?? fget options "ciphertext" in
  let! _ := (if is_undef encrypted then Ok tt
             else assertEncryptedEnvelopeOrCommitment encrypted "encrypted_payload") in
  let! explicit := normalizeHashableRoot options
    ["encrypted_payload_hash" : jstr; "encryptedPayloadHash" : jstr; "payload_hash" : jstr;
     "payloadHash" : jstr] "encrypted_payload_hash" in
  match explicit with
  | Some root => Ok root
  | None =>
      throw_if is_undef encrypted with TypeError "encrypted_payload_hash is required";
      rootFromValue encrypted
  end.

(** The test of [some]: holes are skipped. *)
Definition bad_string (item : jsval) : bool :=
  match item with VHole => false | _ => negb (non_empty_string item) end.

(** [[...value]] makes holes [undefined]. *)
Definition arrayOfStrings (value : jsval) (field : jstr) (fallback : list jsval) : res (list jsval) :=
  if is_undef value then Ok fallback
  else
    match value with
    | VArr items =>
        throw_if existsb bad_string items with TypeError (field +s+ " must be an array of strings");
        Ok (map elem items)
    | _ => Throw (TypeError (field +s+ " must be an array of strings"))
    end.

Definition dateString (value : jsval) (field : jstr) (fallback : jsval) : res jstr :=
  let! string := requiredString (value ?? fallback) field in
  match date_parse string with
  | None => Throw (TypeError (field +s+ " must be an ISO date string"))
  | Some _ => Ok string
  end.

(** ** Signatures *)
Definition signaturePayload (record : jsval) : jsval :=
  VObj (fdelete (fdelete (fdelete (fdelete (fdelete (spread_of record) "signature") "descriptor_hash")
                   "capsule_hash") "witness_hash") "grant_hash").

Record mesh_signer := {
  sg_key_id : jsval;
  sg_privateKey : jsval;
  sg_publicKey : jsval;
  sg_node_id : jsval
}.

Definition signerFrom (options : obj) (fallbackNode : jsval) : mesh_signer :=
  let node := fget options "node" ?? fallbackNode in
  if truthy (vget node "privateKey") then
    let key := vget (vget node "trust_descriptor") "key" in
    {| sg_key_id := vget (vget node "signer") "key_id" ?? vget key "key_id";
       sg_privateKey := vget node "privateKey";
       sg_publicKey := vget node "publicKey" ?? vget key "public_key";
       sg_node_id := vget node "node_id" |}
  else
    {| sg_key_id := fget options "key_id" ?? fget options "keyId" ?? vget (fget options "signer") "key_id";
       sg_privateKey := fget options "privateKey";
       sg_publicKey := fget options "publicKey";
       sg_node_id := fget options "node_id" ?? fget options "nodeId" |}.

Definition createSignature (unsigned : obj) (key_id privateKey : jsval) : res jsval :=
  throw_if is_undef privateKey with TypeError "privateKey is required";
  let! id := requiredString key_id "signer.key_id" in
  let! value := signPayloadArgs (VObj unsigned) privateKey in
  Ok (VObj [("alg" : jstr, VStr ED25519); ("key_id" : jstr, VStr id); ("value" : jstr, VStr value)]).

Definition resolvePublicKey (keyId : jstr) (options : obj) : jsval :=
  if negb (is_undef (fget options "publicKey")) then fget options "publicKey"
  else
    let node := fget options "node" in
    if (vget (vget node "signer") "key_id" === VStr keyId) && negb (is_undef (vget node "publicKey"))
    then vget node "publicKey"
    else
      let descriptor := fget options "trustDescriptor" ?? fget options "issuerDescriptor"
        ?? fget options "witnessDescriptor" ?? fget options "descriptor" in
      if vget (vget descriptor "key") "key_id" === VStr keyId then vget (vget descriptor "key") "public_key"
      else
        let publicKeys := fget options "publicKeys" ?? fget options "keyring" ?? fget options "keys" in
        match publicKeys with
        | VMap entries => fget entries keyId
        | VOpaque OFunction f => call_function f (VStr keyId)
        | _ => if is_record publicKeys then vget publicKeys keyId else VUndef
        end.

Definition verifySignedRecord (record : jsval) (options : obj) : list jstr :=
  let signature := vget record "signature" in
  if negb (is_record signature) then ["signature missing" : jstr]
  else if (vget signature "alg" !== VStr ED25519) || negb (is_string (vget signature "key_id"))
          || negb (is_string (vget signature "value")) then ["signature malformed" : jstr]
  else
    let keyId := str_of (vget signature "key_id") in
    let expectedKeyId := fget options "expectedKeyId" ?? fget options "signerKeyId"
      ?? fget options "key_id" ?? fget options "keyId" in
    err_if (negb (is_undef expectedKeyId) && (VStr keyId !== expectedKeyId)) "signer mismatch"
    ++ (let publicKey := resolvePublicKey keyId options in
        if is_undef publicKey then ["missing public key for " +s+ keyId]
        else err_if (negb (verifySignatureArgs (signaturePayload record) signature publicKey))
               "signature mismatch").

(** [{ ok, valid, errors }] and the hash of what was verified. *)
Record mesh_result := {
  mr_ok : bool;
  mr_errors : list jstr;
  mr_hash : option jstr
}.

Definition verificationResult (errors : list jstr) (hash : option jstr) : mesh_result :=
  {| mr_ok := bool_decide (errors = []); mr_errors := errors; mr_hash := hash |}.

(** A signed object: the signature last, then the hash of both. *)
Definition signed_with (unsigned : obj) (key_id privateKey : jsval) : res obj :=
  let! signature := createSignature unsigned key_id privateKey in
  Ok (spread unsigned [("signature" : jstr, signature)]).

Definition hashed_as (field : jstr) (signed : obj) : res jsval :=
  let! hash := rootFromValue (VObj signed) in Ok (VObj (spread signed [(field, VStr hash)])).

(** ** Nodes *)
Definition createSignedDescriptor (keyPair node_id role : jsval) (capabilities trust_roots endpoints : list jsval)
    (created_at : jstr) : res jsval :=
  let unsigned := [
    ("schema" : jstr, VStr NODE_SCHEMA); ("node_id" : jstr, node_id); ("role" : jstr, role);
    ("key" : jstr, VObj [("alg" : jstr, VStr ED25519); ("key_id" : jstr, vget keyPair "key_id");
                         ("public_key" : jstr, vget keyPair "publicKey")]);
    ("public_key" : jstr, vget keyPair "publicKey");
    ("capabilities" : jstr, VArr capabilities); ("trust_roots" : jstr, VArr trust_roots);
    ("endpoints" : jstr, VArr endpoints); ("created_at" : jstr, VStr created_at)] in
  let! signed := signed_with unsigned (vget keyPair "key_id") (vget keyPair "privateKey") in
  hashed_as "descriptor_hash" signed.

(** [fresh] is the pair that [generateKeyPairSync] returns, if it is called. *)
Definition createMeshNode (fresh : jstr * jstr) (options : obj) : res jsval :=
  let keyPair := fget options "keyPair" ?? fget options "signingKeyPair"
    ?? VObj (generateSigningKeyPair fresh.1 fresh.2 (own_fields (fget options "keyOptions" ?? VObj []))) in
  let! node_id := fget options "node_id" ??! (fget options "nodeId" ??!
    (let! h := sha256Hex (vget keyPair "publicKey") in Ok (VStr ("node_" +s+ slice_to 32 h)))) in
  let! created_at := dateString (fget options "created_at" ?? fget options "createdAt") "created_at"
    (VStr DEFAULT_NOW) in
  let! capabilities := arrayOfStrings (fget options "capabilities") "capabilities"
    [vstr "capsule_manifest"; vstr "witness_checkpoint"; vstr "relay_store"; vstr "federation_grant"] in
  let! trust_roots := arrayOfStrings (fget options "trust_roots" ?? fget options "trustRoots") "trust_roots" [] in
  let! endpoints := arrayOfStrings (fget options "endpoints") "endpoints" [] in
  let role := fget options "role" ?? vstr "mesh_node" in
  let! trust_descriptor := createSignedDescriptor keyPair node_id role capabilities trust_roots endpoints created_at in
  Ok (VObj [
    ("schema" : jstr, VStr NODE_SCHEMA); ("node_id" : jstr, node_id);
    ("signer" : jstr, VObj [("alg" : jstr, VStr ED25519); ("key_id" : jstr, vget keyPair "key_id")]);
    ("publicKey" : jstr, vget keyPair "publicKey"); ("privateKey" : jstr, vget keyPair "privateKey");
    ("trust_descriptor" : jstr, trust_descriptor); ("public_descriptor" : jstr, trust_descriptor)]).

(** ** Capsule manifests *)

(** [prefix_] and the first 32 digits of the hash of the canonical text. *)
Definition derived_id (prefix : jstr) (parts : obj) : res jsval :=
  let! text := canonicalize (VObj parts) in Ok (VStr (prefix +s+ slice_to 32 (sha256_text text))).

Definition active_root_option (options : obj) : jsval :=
  fget options "active_set_root" ?? fget options "activeSetRoot" ?? fget options "active_memory_root"
    ?? fget options "activeMemoryRoot".

Definition createCapsuleManifest (options : obj) : res jsval :=
  let! _ := assertNoPlaintext (VObj options) "capsule manifest" in
  let signer := signerFrom options VUndef in
  let! issuer := requiredString (fget options "issuer" ?? sg_node_id signer) "issuer" in
  let! holder := requiredString (fget options "holder" ?? fget options "holder_id" ?? fget options "holderId")
    "holder" in
  let! ownerScope := fget options "owner_scope_hash" ??! (fget options "ownerScopeHash" ??!
    (let! root := rootFromValue (fget options "owner_scope" ?? fget options "ownerScope" ?? VStr holder) in
     Ok (VStr root))) in
  let! encrypted_payload_hash := normalizeEncryptedPayloadHash options in
  let! capsule_id := fget options "capsule_id" ??! (fget options "capsuleId" ??!
    derived_id "cap_" [("issuer" : jstr, VStr issuer); ("holder" : jstr, VStr holder);
                       ("ownerScope" : jstr, ownerScope);
                       ("encrypted_payload_hash" : jstr, VStr encrypted_payload_hash)]) in
  let! receipt_log_root := normalizeRoot (fget options "receipt_log_root" ?? fget options "receiptLogRoot")
    "receipt_log_root" in
  let! active_set_root := normalizeRoot (active_root_option options) "active_set_root" in
  let! owner_scope_hash := normalizeRoot ownerScope "owner_scope_hash" in
  let! issued_at := dateString (fget options "issued_at" ?? fget options "issuedAt") "issued_at"
    (VStr DEFAULT_NOW) in
  let! expires_at := dateString (fget options "expires_at" ?? fget options "expiresAt") "expires_at"
    (VStr DEFAULT_EXPIRY) in
  let unsigned := [
    ("schema" : jstr, VStr CAPSULE_SCHEMA); ("capsule_id" : jstr, capsule_id);
    ("encrypted_payload_hash" : jstr, VStr encrypted_payload_hash);
    ("receipt_log_root" : jstr, VStr receipt_log_root); ("active_set_root" : jstr, VStr active_set_root);
    ("owner_scope_hash" : jstr, VStr owner_scope_hash); ("issuer" : jstr, VStr issuer);
    ("holder" : jstr, VStr holder); ("issued_at" : jstr, VStr issued_at);
    ("expires_at" : jstr, VStr expires_at)] in
  let! manifest := signed_with unsigned (sg_key_id signer) (sg_privateKey signer) in
  hashed_as "capsule_hash" manifest.

Definition root_field_errors (record : jsval) (fields : list string) : list jstr :=
  flat_map (λ field : string, if isSha256Root (vget record field) then [] else [(field : jstr) +s+ " must be a sha256 root"]) fields.

Definition required_field_errors (record : jsval) (fields : list string) : list jstr :=
  flat_map (λ field : string, if non_empty_string (vget record field) then [] else [(field : jstr) +s+ " is required"]) fields.

Definition differs (actual expected : jsval) (message : string) : list jstr :=
  err_if (negb (is_undef expected) && (actual !== expected)) message.

(** [Date.parse(expires_at) <= now], when [now] is given and can be read. *)
Definition is_expired (expires_at now : jsval) : bool :=
  if is_undef now then false
  else
    match date_parse (to_str now), date_parse (to_str expires_at) with
    | Some t, Some e => (e <=? t)%Z
    | _, _ => false
    end.

(** The errors of the manifest by itself. *)
Definition capsule_shape_errors (manifest : jsval) : list jstr :=
  err_if (hasPlaintextLeak manifest) "plaintext memory fields present"
  ++ err_if (vget manifest "schema" !== VStr CAPSULE_SCHEMA) "schema mismatch"
  ++ root_field_errors manifest
       ["encrypted_payload_hash"%string; "receipt_log_root"%string; "active_set_root"%string;
        "owner_scope_hash"%string]
  ++ required_field_errors manifest
       ["capsule_id"%string; "issuer"%string; "holder"%string; "issued_at"%string; "expires_at"%string].

(** The errors against what the verifier expects. *)
Definition capsule_expectation_errors (manifest : jsval) (options : obj) : list jstr :=
  compareExpectedRoot (vget manifest "receipt_log_root") (fget options "expectedReceiptLogRoot")
    "expectedReceiptLogRoot" "receipt log root mismatch"
  ++ compareExpectedRoot (vget manifest "active_set_root") (fget options "expectedActiveSetRoot")
       "expectedActiveSetRoot" "active set root mismatch"
  ++ compareExpectedRoot (vget manifest "owner_scope_hash") (fget options "expectedOwnerScopeHash")
       "expectedOwnerScopeHash" "owner scope mismatch"
  ++ differs (vget manifest "issuer") (fget options "expectedIssuer") "issuer mismatch"
  ++ differs (vget manifest "holder") (fget options "expectedHolder") "holder mismatch"
  ++ err_if (is_expired (vget manifest "expires_at") (fget options "now")) "capsule expired".

Definition verifyCapsuleManifest (manifest : jsval) (options : obj) : res mesh_result :=
  if negb (is_record manifest)
  then Ok (verificationResult ["capsule manifest must be an object" : jstr] None)
  else
    let errors := capsule_shape_errors manifest ++ capsule_expectation_errors manifest options
                  ++ verifySignedRecord manifest options in
    let! capsule_hash := rootFromValue manifest in
    Ok (verificationResult errors (Some capsule_hash)).

(** ** Witness checkpoints *)
Definition checkpoint_root_of (subject receipt_log_root active_set_root epoch previous : jsval) : res jstr :=
  rootFromValue (VObj [
    ("subject_node_id" : jstr, subject); ("receipt_log_root" : jstr, receipt_log_root);
    ("active_set_root" : jstr, active_set_root); ("epoch" : jstr, epoch);
    ("previous_witness_hash" : jstr, previous)]).

Definition createWitnessCheckpoint (options : obj) : res jsval :=
  let! _ := assertNoPlaintext (VObj options) "witness checkpoint" in
  let signer := signerFrom options VUndef in
  let! witness_node_id := requiredString
    (fget options "witness_node_id" ?? fget options "witnessNodeId" ?? sg_node_id signer) "witness_node_id" in
  let! subject_node_id := requiredString
    (fget options "subject_node_id" ?? fget options "subjectNodeId" ?? fget options "subject" ?? vstr "subject")
    "subject_node_id" in
  let! receipt_log_root := normalizeRoot (fget options "receipt_log_root" ?? fget options "receiptLogRoot")
    "receipt_log_root" in
  let! active_set_root := normalizeRoot (active_root_option options) "active_set_root" in
  let epoch := if is_undef (fget options "epoch") then vint 0 else fget options "epoch" in
  throw_if negb (is_nonneg_integer epoch) with TypeError "epoch must be a non-negative integer";
  let! previous_witness_hash := normalizeRoot
    (fget options "previous_witness_hash" ?? fget options "previousWitnessHash" ?? VStr EMPTY_MERKLE_ROOT)
    "previous_witness_hash" in
  let! computed := checkpoint_root_of (VStr subject_node_id) (VStr receipt_log_root) (VStr active_set_root)
    epoch (VStr previous_witness_hash) in
  let supplied := fget options "checkpoint_root" ?? fget options "checkpointRoot" in
  let! checkpoint_root := (if is_undef supplied then Ok computed else normalizeRoot supplied "checkpoint_root") in
  throw_if negb (checkpoint_root =s= computed)
    with PlainError "checkpoint_root does not match checkpoint contents";
  let! witness_checkpoint_id := fget options "witness_checkpoint_id" ??! (fget options "witnessCheckpointId" ??!
    derived_id "wit_" [("witness_node_id" : jstr, VStr witness_node_id);
                       ("subject_node_id" : jstr, VStr subject_node_id);
                       ("checkpoint_root" : jstr, VStr checkpoint_root)]) in
  let! issued_at := dateString (fget options "issued_at" ?? fget options "issuedAt") "issued_at"
    (VStr DEFAULT_NOW) in
  let unsigned := [
    ("schema" : jstr, VStr WITNESS_SCHEMA); ("witness_checkpoint_id" : jstr, witness_checkpoint_id);
    ("witness_node_id" : jstr, VStr witness_node_id); ("subject_node_id" : jstr, VStr subject_node_id);
    ("epoch" : jstr, epoch); ("checkpoint_root" : jstr, VStr checkpoint_root);
    ("receipt_log_root" : jstr, VStr receipt_log_root); ("active_set_root" : jstr, VStr active_set_root);
    ("previous_witness_hash" : jstr, VStr previous_witness_hash); ("issued_at" : jstr, VStr issued_at)] in
  let! checkpoint := signed_with unsigned (sg_key_id signer) (sg_privateKey signer) in
  hashed_as "witness_hash" checkpoint.

Definition witness_shape_errors (checkpoint : jsval) (computed : jstr) : list jstr :=
  err_if (hasPlaintextLeak checkpoint) "plaintext memory fields present"
  ++ err_if (vget checkpoint "schema" !== VStr WITNESS_SCHEMA) "schema mismatch"
  ++ root_field_errors checkpoint
       ["checkpoint_root"%string; "receipt_log_root"%string; "active_set_root"%string;
        "previous_witness_hash"%string]
  ++ err_if (negb (is_nonneg_integer (vget checkpoint "epoch"))) "epoch must be a non-negative integer"
  ++ err_if (vget checkpoint "checkpoint_root" !== VStr computed) "checkpoint root mismatch".

(** [!Number.isInteger(minimumEpoch) || epoch < minimumEpoch]. *)
Definition below_epoch (epoch minimumEpoch : jsval) : res bool :=
  match minimumEpoch with
  | VNum n =>
      if num_is_integer n then let! e := to_number epoch in Ok (num_ltb e n) else Ok true
  | _ => Ok true
  end.

Definition witness_expectation_errors (checkpoint : jsval) (options : obj) : res (list jstr) :=
  let! stale := (if is_undef (fget options "minimumEpoch") then Ok false
                 else below_epoch (vget checkpoint "epoch") (fget options "minimumEpoch")) in
  Ok (compareExpectedRoot (vget checkpoint "checkpoint_root") (fget options "expectedCheckpointRoot")
        "expectedCheckpointRoot" "checkpoint root mismatch"
      ++ compareExpectedRoot (vget checkpoint "receipt_log_root") (fget options "expectedReceiptLogRoot")
           "expectedReceiptLogRoot" "receipt log root mismatch"
      ++ compareExpectedRoot (vget checkpoint "active_set_root") (fget options "expectedActiveSetRoot")
           "expectedActiveSetRoot" "active set root mismatch"
      ++ compareExpectedRoot (vget checkpoint "previous_witness_hash")
           (fget options "expectedPreviousWitnessHash")
           "expectedPreviousWitnessHash" "previous witness hash mismatch"
      ++ err_if stale "epoch continuity mismatch"
      ++ differs (vget checkpoint "witness_node_id") (fget options "expectedWitnessNodeId")
           "witness node mismatch").

Definition verifyWitnessCheckpoint (checkpoint : jsval) (options : obj) : res mesh_result :=
  if negb (is_record checkpoint)
  then Ok (verificationResult ["witness checkpoint must be an object" : jstr] None)
  else
    let! computed := checkpoint_root_of (vget checkpoint "subject_node_id") (vget checkpoint "receipt_log_root")
      (vget checkpoint "active_set_root") (vget checkpoint "epoch") (vget checkpoint "previous_witness_hash") in
    let! expectations := witness_expectation_errors checkpoint options in
    let errors := witness_shape_errors checkpoint computed ++ expectations
                  ++ verifySignedRecord checkpoint options in
    let! witness_hash := rootFromValue checkpoint in
    Ok (verificationResult errors (Some witness_hash)).

(** ** The relay store *)

(** [records] is a map keyed by the given record id, whatever value that is. *)
Record relay_store := {
  rs_store_id : jsval;
  rs_node_id : jsval;
  rs_created_at : jstr;
  rs_records : list (jsval * obj);
  rs_node : jsval
}.

Fixpoint records_get (records : list (jsval * obj)) (id : jstr) : option obj :=
  match records with
  | [] => None
  | (k, r) :: records' => if k === VStr id then Some r else records_get records' id
  end.

Fixpoint records_set (records : list (jsval * obj)) (id : jsval) (r : obj) : list (jsval * obj) :=
  match records with
  | [] => [(id, r)]
  | (k, r') :: records' =>
      if same_value_zero k id then (k, r) :: records' else (k, r') :: records_set records' id r
  end.

Definition with_records (records : list (jsval * obj)) (store : relay_store) : relay_store :=
  {| rs_store_id := rs_store_id store; rs_node_id := rs_node_id store; rs_created_at := rs_created_at store;
     rs_records := records; rs_node := rs_node store |}.

Definition createRelayStore (options : obj) : res relay_store :=
  let node := fget options "node" in
  let! store_id := fget options "store_id" ??! (fget options "storeId" ??!
    derived_id "relay_" [("node_id" : jstr, vget node "node_id" ?? vstr "local");
                         ("created_at" : jstr, fget options "created_at" ?? VStr DEFAULT_NOW)]) in
  let! created_at := dateString (fget options "created_at" ?? fget options "createdAt") "created_at"
    (VStr DEFAULT_NOW) in
  Ok {| rs_store_id := store_id;
        rs_node_id := fget options "node_id" ?? fget options "nodeId" ?? vget node "node_id" ?? vstr "local";
        rs_created_at := created_at; rs_records := []; rs_node := node |}.

(** The record that a push stores. *)
Definition relay_record (store : relay_store) (given : jsval) : res obj :=
  let record := if is_undef given then VObj [] else given in
  throw_if negb (is_record record) with TypeError "relay record must be an object";
  let! _ := assertNoPlaintext record "relay record" in
  let! _ := assertOnlyRelayFields (keys (spread_of record)) in
  let fields := own_fields record in
  let! encrypted_payload_hash := normalizeEncryptedPayloadHash fields in
  let! record_id := fget fields "record_id" ??! (fget fields "recordId" ??!
    derived_id "rel_" [("store_id" : jstr, rs_store_id store);
                       ("encrypted_payload_hash" : jstr, VStr encrypted_payload_hash)]) in
  let! received_at := dateString (fget fields "received_at" ?? fget fields "receivedAt") "received_at"
    (VStr DEFAULT_NOW) in
  let expiry := fget fields "expires_at" ?? fget fields "expiresAt" in
  let! expires_at := (if truthy expiry then let! s := dateString expiry "expires_at" VUndef in Ok (VStr s)
                      else Ok VNull) in
  let unsigned := [
    ("schema" : jstr, VStr RELAY_RECORD_SCHEMA); ("record_id" : jstr, record_id);
    ("store_id" : jstr, rs_store_id store);
    ("capsule_id" : jstr, fget fields "capsule_id" ?? fget fields "capsuleId" ?? VNull);
    ("encrypted_payload_hash" : jstr, VStr encrypted_payload_hash);
    ("payload_storage" : jstr, vstr "hash_only"); ("received_at" : jstr, VStr received_at);
    ("expires_at" : jstr, expires_at)] in
  if truthy (vget (rs_node store) "privateKey") then
    let signer := signerFrom [] (rs_node store) in
    signed_with unsigned (sg_key_id signer) (sg_privateKey signer)
  else Ok unsigned.

Definition with_relay_id (record : obj) : obj :=
  spread record [("relay_record_id" : jstr, fget record "record_id")].

(** The returned record and the store after the push.  The check that the store has a
    map of records is the type [relay_store]. *)
Definition pushRelayRecord (record : jsval) (store : relay_store) : res obj * relay_store :=
  match relay_record store record with
  | Throw e => (Throw e, store)
  | Ok r => (Ok (with_relay_id r), with_records (records_set (rs_records store) (fget r "record_id") r) store)
  end.

Definition pullRelayRecord (store : relay_store) (recordRef : jsval) : res jsval :=
  let record_id :=
    if is_string recordRef then recordRef
    else vget recordRef "record_id" ?? vget recordRef "recordId" ?? vget recordRef "relay_record_id" in
  throw_if negb (non_empty_string record_id) with TypeError "record_id is required";
  match records_get (rs_records store) (str_of record_id) with
  | None => Ok VNull
  | Some record =>
      throw_if hasPlaintextLeak (VObj record)
        with PlainError "stored relay record contains plaintext memory fields";
      Ok (VObj (with_relay_id record))
  end.

(** ** Federation grants *)

(** [[...items].sort()]: [undefined] comes last. *)
Definition sort_items (items : list jsval) : list jsval :=
  map VStr (sort_strings (flat_map (λ x, if is_string x then [str_of x] else []) items))
  ++ List.filter is_undef items.

Definition createFederationGrant (options : obj) : res jsval :=
  let! _ := assertNoPlaintext (VObj options) "federation grant" in
  let signer := signerFrom options VUndef in
  let! subjects := arrayOfStrings
    (fget options "subjects" ?? fget options "subject_ids" ?? fget options "subjectIds") "subjects" [] in
  let! operations := arrayOfStrings (fget options "operations") "operations" [] in
  let! issuer := requiredString (fget options "issuer" ?? sg_node_id signer) "issuer" in
  let! holder := requiredString (fget options "holder" ?? fget options "holder_id" ?? fget options "holderId")
    "holder" in
  let! grant_id := fget options "grant_id" ??! (fget options "grantId" ??!
    derived_id "fgr_" [("issuer" : jstr, VStr issuer); ("holder" : jstr, VStr holder);
                       ("subjects" : jstr, VArr subjects); ("operations" : jstr, VArr operations);
                       ("purpose" : jstr, fget options "purpose")]) in
  let! purpose := requiredString (fget options "purpose") "purpose" in
  let! issued_at := dateString (fget options "issued_at" ?? fget options "issuedAt") "issued_at"
    (VStr DEFAULT_NOW) in
  let! expires_at := dateString (fget options "expires_at" ?? fget options "expiresAt") "expires_at"
    (VStr DEFAULT_EXPIRY) in
  let unsigned := [
    ("schema" : jstr, VStr FEDERATION_GRANT_SCHEMA); ("grant_id" : jstr, grant_id);
    ("issuer" : jstr, VStr issuer); ("holder" : jstr, VStr holder);
    ("subjects" : jstr, VArr (sort_items subjects)); ("operations" : jstr, VArr (sort_items operations));
    ("purpose" : jstr, VStr purpose); ("issued_at" : jstr, VStr issued_at);
    ("expires_at" : jstr, VStr expires_at)] in
  let! grant := signed_with unsigned (sg_key_id signer) (sg_privateKey signer) in
  hashed_as "grant_hash" grant.

(** [Array.isArray(value)] and no element but non-empty strings. *)
Definition is_string_array (value : jsval) : bool :=
  match value with VArr items => negb (existsb bad_string items) | _ => false end.

(** [value?.includes(expected)]; a value that is no text and no array has no [includes]. *)
Definition optional_includes (value expected : jsval) : res bool :=
  match value with
  | VUndef | VNull | VHole => Ok false
  | VArr items => Ok (arr_includes (map elem items) expected)
  | VStr s => Ok (includes_str (to_str expected) s)
  | _ => Throw (TypeError "includes is not a function")
  end.

(** The error when an expected item is not granted. *)
Definition granted_errors (value expected : jsval) (message : string) : res (list jstr) :=
  if is_undef expected then Ok []
  else let! granted := optional_includes value expected in Ok (err_if (negb granted) message).

Definition grant_shape_errors (grant : jsval) : list jstr :=
  err_if (hasPlaintextLeak grant) "plaintext memory fields present"
  ++ err_if (vget grant "schema" !== VStr FEDERATION_GRANT_SCHEMA) "schema mismatch"
  ++ err_if (negb (is_string_array (vget grant "subjects"))) "subjects must be strings"
  ++ err_if (negb (is_string_array (vget grant "operations"))) "operations must be strings"
  ++ required_field_errors grant
       ["grant_id"%string; "issuer"%string; "holder"%string; "purpose"%string; "issued_at"%string;
        "expires_at"%string].

Definition grant_expectation_errors (grant : jsval) (options : obj) : res (list jstr) :=
  let! subject := granted_errors (vget grant "subjects")
    (fget options "expectedSubject" ?? fget options "subject") "subject not granted" in
  let! operation := granted_errors (vget grant "operations")
    (fget options "expectedOperation" ?? fget options "operation") "operation not granted" in
  Ok (subject ++ operation
      ++ differs (vget grant "purpose") (fget options "expectedPurpose") "purpose mismatch"
      ++ differs (vget grant "issuer") (fget options "expectedIssuer") "issuer mismatch"
      ++ differs (vget grant "holder") (fget options "expectedHolder") "holder mismatch"
      ++ err_if (is_expired (vget grant "expires_at") (fget options "now")) "grant expired").

Definition verifyFederationGrant (grant : jsval) (options : obj) : res mesh_result :=
  if negb (is_record grant)
  then Ok (verificationResult ["federation grant must be an object" : jstr] None)
  else
    let! expectations := grant_expectation_errors grant options in
    let errors := grant_shape_errors grant ++ expectations ++ verifySignedRecord grant options in
    let! grant_hash := rootFromValue grant in
    Ok (verificationResult errors (Some grant_hash)).

(** ** The demonstration *)
Definition demo_payload : jstr := "age1-encrypted-demo-capsule-only".

Definition runMeshDemo (fresh : jstr * jstr) (options : obj) : res jsval :=
  let now := fget options "now" ?? VStr DEFAULT_NOW in
  let! node := createMeshNode fresh [("created_at" : jstr, now)] in
  let holder := fget options "holder" ?? vstr "holder:demo" in
  let! activeSet := ms_new [vstr "mem:hmac-sha256:demo-active-address"] in
  let! receiptLog := ms_new
    [vstr "sha256:aaaaaaaaaaaaaaaaaaaaaaaaaaaaaaaaaaaaaaaaaaaaaaaaaaaaaaaaaaaaaaaa"] in
  let active_set_root := VStr (ms_root activeSet) in
  let receipt_log_root := VStr (ms_root receiptLog) in
  let descriptor := vget node "trust_descriptor" in
  let node_id := vget node "node_id" in
  let! capsule := createCapsuleManifest [
    ("node" : jstr, node); ("issuer" : jstr, node_id); ("holder" : jstr, holder);
    ("encrypted_payload" : jstr, VStr demo_payload); ("receipt_log_root" : jstr, receipt_log_root);
    ("active_set_root" : jstr, active_set_root);
    ("owner_scope" : jstr, VObj [("holder" : jstr, holder); ("scope" : jstr, vstr "demo")])] in
  let! capsuleVerification := verifyCapsuleManifest capsule [
    ("trustDescriptor" : jstr, descriptor); ("expectedIssuer" : jstr, node_id);
    ("expectedHolder" : jstr, holder); ("expectedReceiptLogRoot" : jstr, receipt_log_root);
    ("expectedActiveSetRoot" : jstr, active_set_root); ("now" : jstr, now)] in
  let! witness := createWitnessCheckpoint [
    ("node" : jstr, node); ("witness_node_id" : jstr, node_id); ("subject_node_id" : jstr, holder);
    ("receipt_log_root" : jstr, receipt_log_root); ("active_set_root" : jstr, active_set_root);
    ("epoch" : jstr, vint 1)] in
  let! witnessVerification := verifyWitnessCheckpoint witness [
    ("trustDescriptor" : jstr, descriptor); ("expectedWitnessNodeId" : jstr, node_id);
    ("expectedReceiptLogRoot" : jstr, receipt_log_root); ("expectedActiveSetRoot" : jstr, active_set_root)] in
  let! store0 := createRelayStore [("node" : jstr, node); ("created_at" : jstr, now)] in
  let '(pushed, store1) := pushRelayRecord (VObj [
    ("capsule_id" : jstr, vget capsule "capsule_id");
    ("opaque_encrypted_record" : jstr, VStr demo_payload)]) store0 in
  let! relayRecord := pushed in
  let '(second, _) := pushRelayRecord (VObj [
    ("plaintext" : jstr, vstr "demo memory must never cross the mesh");
    ("opaque_encrypted_record" : jstr, VStr demo_payload)]) store1 in
  let rejected_plaintext := negb (is_ok second) in
  let! grant := createFederationGrant [
    ("node" : jstr, node); ("issuer" : jstr, node_id); ("holder" : jstr, holder);
    ("subjects" : jstr, VArr [holder]);
    ("operations" : jstr, VArr [vstr "capsule.pull"; vstr "witness.verify"]);
    ("purpose" : jstr, vstr "demo federation"); ("expires_at" : jstr, VStr DEFAULT_EXPIRY)] in
  let! grantVerification := verifyFederationGrant grant [
    ("trustDescriptor" : jstr, descriptor); ("expectedIssuer" : jstr, node_id);
    ("expectedHolder" : jstr, holder); ("expectedSubject" : jstr, holder);
    ("expectedOperation" : jstr, vstr "capsule.pull"); ("expectedPurpose" : jstr, vstr "demo federation");
    ("now" : jstr, now)] in
  let no_plaintext_leakage := negb (hasPlaintextLeak (VObj [
    ("descriptor" : jstr, descriptor); ("capsule" : jstr, capsule); ("witness" : jstr, witness);
    ("relayRecord" : jstr, VObj relayRecord); ("grant" : jstr, grant)])) in
  let record_id := fget relayRecord "record_id" in
  let ok := mr_ok capsuleVerification && mr_ok witnessVerification && mr_ok grantVerification
            && truthy record_id && rejected_plaintext && no_plaintext_leakage in
  Ok (VObj [
    ("ok" : jstr, VBool ok);
    ("node" : jstr, VObj [("node_id" : jstr, node_id); ("trust_descriptor" : jstr, descriptor)]);
    ("capsule" : jstr, VObj [("ok" : jstr, VBool (mr_ok capsuleVerification));
                             ("capsule_id" : jstr, vget capsule "capsule_id")]);
    ("witness" : jstr, VObj [("ok" : jstr, VBool (mr_ok witnessVerification));
                             ("witness_checkpoint_id" : jstr, vget witness "witness_checkpoint_id")]);
    ("relay" : jstr, VObj [("record_id" : jstr, record_id);
                           ("rejected_plaintext" : jstr, VBool rejected_plaintext)]);
    ("federation" : jstr, VObj [("ok" : jstr, VBool (mr_ok grantVerification));
                                ("grant_id" : jstr, vget grant "grant_id")]);
    ("capsule_verification_ok" : jstr, VBool (mr_ok capsuleVerification));
    ("witness_verification_ok" : jstr, VBool (mr_ok witnessVerification));
    ("relay_record_id" : jstr, record_id);
    ("federation_grant_verification_ok" : jstr, VBool (mr_ok grantVerification));
    ("no_plaintext_leakage" : jstr, VBool no_plaintext_leakage)]).
End mesh.
