(* ===== verification/MeshSafety.v ===== *)
(** * What the mesh guarantees

    What a node signs verifies under its key, up to what the verifier itself expects;
    the relay store keeps the hashes of payloads only and gives back what was pushed
    last; the demonstration of the mesh succeeds. *)

From S2P Require Import Prelude JsValue Objects Regex Canonical Hashing Merkle Receipt PublicSafe Dates VaultPublic Vault Samples VaultBundle VaultSafety VaultRecall Mesh.

(** ** Signed objects *)
Definition unsigned_names : list jstr :=
  ["signature" : jstr; "descriptor_hash" : jstr; "capsule_hash" : jstr; "witness_hash" : jstr; "grant_hash" : jstr].

(** The names of the signature and of the hashes do not occur in [fs] and sort last. *)
Definition body_keys (ks : list jstr) : bool :=
  forallb (λ k, forallb (λ k', negb (k' =s= k) && negb (key_precedes k k')) ks) unsigned_names.

Lemma body_key ks k : body_keys ks = true -> k ∈ unsigned_names ->
  forallb (λ k', negb (k' =s= k) && negb (key_precedes k k')) ks = true.
Proof. unfold body_keys. rewrite forallb_forall. intros H Hk. by apply H, list_elem_of_In. Qed.

Lemma body_key_absent ks k : body_keys ks = true -> k ∈ unsigned_names -> k ∉ ks.
Proof.
  intros H Hk Hin. pose proof (body_key _ _ H Hk) as Hb. rewrite forallb_forall in Hb.
  apply list_elem_of_In, Hb in Hin. by rewrite str_eqb_refl in Hin.
Qed.

Lemma signaturePayload_signed fs signature name h :
  body_keys (keys fs) = true -> name ∈ unsigned_names ->
  signaturePayload (VObj (fs ++ [("signature" : jstr, signature); (name, h)])) = VObj fs.
Proof.
  intros Hb Hn. unfold signaturePayload. cbn [spread_of own_fields]. rewrite !fdelete_app.
  rewrite !(fdelete_absent fs) by (apply (body_key_absent _ _ Hb); apply mem_str_true; vm_compute; reflexivity).
  unfold unsigned_names in Hn.
  assert (fdelete (fdelete (fdelete (fdelete (fdelete [("signature" : jstr, signature); (name, h)] "signature")
    "descriptor_hash") "capsule_hash") "witness_hash") "grant_hash" = []) as ->; [|by rewrite app_nil_r].
  repeat (apply elem_of_cons in Hn as [->|Hn]; [reflexivity|]). by apply elem_of_nil in Hn.
Qed.

(** ** Values without plaintext *)
Lemma leak_fields fs :
  hasPlaintextLeak (VObj fs) = false <->
  Forall (λ kv : jstr * jsval, leaks kv.1 kv.2 = false /\ hasPlaintextLeak kv.2 = false) fs.
Proof.
  cbn [hasPlaintextLeak]. induction fs as [|kv fs IH]; [done|]. cbn [existsb].
  by rewrite Forall_cons, <- IH, !orb_false_iff.
Qed.

Lemma leak_fget fs k : hasPlaintextLeak (VObj fs) = false -> hasPlaintextLeak (fget fs k) = false.
Proof.
  rewrite leak_fields. induction 1 as [|[k' v] fs [_ Hv] _ IH]; [done|]. cbn [fget]. by destruct (k' =s= k).
Qed.

Lemma leak_coalesce a b : hasPlaintextLeak a = false -> hasPlaintextLeak b = false -> hasPlaintextLeak (a ?? b) = false.
Proof. unfold coalesce. by destruct (is_nullish a). Qed.

Lemma leak_app a b : hasPlaintextLeak (VObj (a ++ b)) = hasPlaintextLeak (VObj a) || hasPlaintextLeak (VObj b).
Proof. cbn [hasPlaintextLeak]. apply existsb_app. Qed.

Lemma requiredString_str v field s : requiredString v field = Ok s -> v = VStr s /\ s <> [].
Proof. destruct v as [| | | |[|c s']| | | | | | | |]; cbn; intros H; try done. by apply Ok_inj in H as <-. Qed.

Section signing.
Context {C : Crypto} {L : CryptoLaws C} {Hst : Host} {P : Platform}.

Lemma rootFromValue_root v r : rootFromValue v = Ok r -> re_full ROOT_RE r = true.
Proof. unfold rootFromValue. intros H. inv_res. apply root_of_sha. Qed.

Lemma normalizeRoot_root v field r : normalizeRoot v field = Ok r -> re_full ROOT_RE r = true.
Proof.
  unfold normalizeRoot. destruct (is_nullish v); intros H; [apply Ok_inj in H as <-; apply root_of_sha|].
  destruct v; try done. destruct (re_full ROOT_RE s) eqn:E; [by apply Ok_inj in H as <-|].
  destruct (re_full HASH_RE s) eqn:E'; [|done]. apply Ok_inj in H as <-. apply root_of_hex. by apply HASH_RE_spec.
Qed.

Lemma encrypted_hash_root options r : normalizeEncryptedPayloadHash options = Ok r -> re_full ROOT_RE r = true.
Proof.
  unfold normalizeEncryptedPayloadHash. cbn zeta. intros H. apply res_bind_ok in H as (_ & _ & H).
  apply res_bind_ok in H as ([r'|] & Hr & H).
  - apply Ok_inj in H as <-. revert Hr. generalize (["encrypted_payload_hash" : jstr; "encryptedPayloadHash" : jstr;
      "payload_hash" : jstr; "payloadHash" : jstr]). intros names. induction names as [|n names IH]; [done|].
    cbn [normalizeHashableRoot]. destruct (is_undef _); [done|]. intros Hr. inv_res. injection Hr as <-.
    by eapply normalizeRoot_root.
  - inv_res. by eapply rootFromValue_root.
Qed.

Lemma root_is_sha r : re_full ROOT_RE r = true -> isSha256Root (VStr r) = true.
Proof. done. Qed.

(** A signed and hashed object. *)
Record signed_object (fs : obj) (id : jstr) (sk : jsval) (name : jstr) (m : jsval) : Prop := {
  so_id : id <> [];
  so_value : exists sig h, signPayloadArgs (VObj fs) sk = Ok sig /\
    m = VObj (fs ++ [("signature" : jstr, VObj [("alg" : jstr, VStr ED25519); ("key_id" : jstr, VStr id);
                                                ("value" : jstr, VStr sig)]); (name, VStr h)]);
  so_json : json_data (VObj fs) = true
}.

Lemma signed_hashed fs key_id sk (name : jstr) signed m :
  body_keys (keys fs) = true -> name ∈ unsigned_names -> name <> "signature" ->
  signed_with fs key_id sk = Ok signed -> hashed_as name signed = Ok m ->
  exists id, key_id = VStr id /\ signed_object fs id sk name m.
Proof.
  intros Hb Hn Hne Hs Hh. unfold signed_with, createSignature in Hs. inv_res.
  match goal with E : requiredString _ _ = Ok _ |- _ => apply requiredString_str in E as [-> Hid] end.
  eexists. split; [reflexivity|]. unfold hashed_as in Hh. rewrite spread_snoc in Hh
    by (apply body_key; [done|]; apply mem_str_true; vm_compute; reflexivity).
  inv_res. split; [done| |by eapply signed_json].
  eexists _, _. split; [eassumption|]. rewrite spread_snoc, <- app_assoc; [reflexivity|].
  rewrite keys_app, forallb_app, (body_key _ _ Hb Hn). cbn [andb keys fmap list_fmap fst forallb].
  rewrite andb_true_r. apply andb_true_iff. split; [apply negb_true_iff, str_eqb_neq; congruence|].
  unfold unsigned_names in Hn.
  repeat (apply elem_of_cons in Hn as [->|Hn]; [reflexivity|]). by apply elem_of_nil in Hn.
Qed.

(** The verifier resolves the key of the signer and expects no other one. *)
Definition trusted (vopts : obj) (id : jstr) (sk : jsval) : Prop :=
  is_undef (resolvePublicKey id vopts) = false /\ key_pair sk (resolvePublicKey id vopts) /\
  let expected := fget vopts "expectedKeyId" ?? fget vopts "signerKeyId" ?? fget vopts "key_id" ?? fget vopts "keyId" in
  is_undef expected = true \/ (VStr id === expected) = true.

Lemma signed_verifies fs id sk (name : jstr) m vopts :
  body_keys (keys fs) = true -> name ∈ unsigned_names -> signed_object fs id sk name m -> trusted vopts id sk ->
  verifySignedRecord m vopts = [].
Proof.
  intros Hb Hn [Hid (sig & h & Hsig & ->) _] (Hd & Hkp & Hexp). unfold verifySignedRecord.
  rewrite signaturePayload_signed by done.
  match goal with |- context [vget (VObj (fs ++ ?rest)) ?k] =>
    assert (vget (VObj (fs ++ rest)) k = fget rest k) as -> end.
  { unfold vget. cbn [own_fields]. apply fget_app_absent, (body_key_absent _ _ Hb), mem_str_true. vm_compute. reflexivity. }
  rewrite fget_cons, str_eqb_refl. cbn [is_record negb]. unfold vget. cbn [own_fields]. simp_get.
  cbn [is_string negb str_of]. rewrite (verify_signed _ _ _ sig _ Hkp Hd Hsig) by done. rewrite Hd. cbn [negb err_if orb].
  change (VStr ED25519 !== VStr ED25519) with false. cbn [orb]. rewrite app_nil_r.
  cbn zeta in Hexp. destruct Hexp as [->| ->]; [done|]. by rewrite andb_false_r.
Qed.

Lemma signed_root fs id sk (name : jstr) m : signed_object fs id sk name m -> exists h, rootFromValue m = Ok h.
Proof.
  intros [_ (sig & h & _ & ->) Hj]. unfold rootFromValue.
  match goal with |- context [canonicalize ?v] => pose proof (canonicalize_is_ok v) as Hc;
    replace (json_data v) with true in Hc; [destruct (canonicalize v); [eauto|done]|] end.
  cbn [json_data] in *. rewrite forallb_app, Hj. reflexivity.
Qed.

(** All that is used of a signed and hashed object. *)
Lemma created_artifact fs key_id sk (name : jstr) signed m vopts id :
  signed_with fs key_id sk = Ok signed -> hashed_as name signed = Ok m -> key_id = VStr id -> trusted vopts id sk ->
  body_keys (keys fs) = true -> name ∈ unsigned_names -> name <> "signature" ->
  verifySignedRecord m vopts = [] /\ json_data (VObj fs) = true /\
  exists s h r, m = VObj (fs ++ [("signature" : jstr, VObj [("alg" : jstr, VStr ED25519); ("key_id" : jstr, VStr id);
                                                      ("value" : jstr, VStr s)]); (name, VStr h)]) /\
                rootFromValue m = Ok r.
Proof.
  intros Hs Hh Hid Ht Hb Hn Hne. destruct (signed_hashed _ _ _ _ _ _ Hb Hn Hne Hs Hh) as (id' & Hid' & Hso).
  rewrite Hid in Hid'. injection Hid' as <-. split; [by eapply signed_verifies|].
  destruct (signed_root _ _ _ _ _ Hso) as [r Hr]. destruct Hso as [_ (sig & h & _ & ->) Hj]. eauto 10.
Qed.

(** ** What is created verifies *)
Lemma root_fields_nil record (fields : list string) :
  Forall (λ f : string, exists r, vget record f = VStr r /\ re_full ROOT_RE r = true) fields ->
  root_field_errors record fields = [].
Proof.
  unfold root_field_errors. induction 1 as [|f fields (r & Hr & Hre) _ IH]; [done|]. cbn [flat_map].
  by rewrite Hr, (root_is_sha _ Hre), IH.
Qed.

Lemma required_fields_nil record (fields : list string) :
  Forall (λ f : string, non_empty_string (vget record f) = true) fields -> required_field_errors record fields = [].
Proof.
  unfold required_field_errors. induction 1 as [|f fields Hf _ IH]; [done|]. cbn [flat_map]. by rewrite Hf, IH.
Qed.

Lemma str_non_empty s : s <> [] -> non_empty_string (VStr s) = true.
Proof. by destruct s. Qed.

Lemma requiredString_non_empty v field s : requiredString v field = Ok s -> non_empty_string (VStr s) = true.
Proof. intros [_ H]%requiredString_str. by apply str_non_empty. Qed.

Lemma dateString_non_empty v field fallback s : dateString v field fallback = Ok s -> non_empty_string (VStr s) = true.
Proof.
  unfold dateString. intros H. apply res_bind_ok in H as (s' & Hs & H). destruct (date_parse s'); [|done].
  apply Ok_inj in H as <-. by eapply requiredString_non_empty.
Qed.

(** Reads a field of an explicit object. *)
Ltac read_field := unfold vget; cbn [own_fields]; simp_get; reflexivity.

Lemma capsule_verifies options vopts id m :
  createCapsuleManifest options = Ok m -> sg_key_id (signerFrom options VUndef) = VStr id ->
  trusted vopts id (sg_privateKey (signerFrom options VUndef)) -> non_empty_string (vget m "capsule_id") = true ->
  exists h, verifyCapsuleManifest m vopts = Ok (verificationResult (capsule_expectation_errors m vopts) (Some h)).
Proof.
  unfold createCapsuleManifest. cbn zeta. intros H Hkey Ht Hcid. inv_res.
  match goal with E : signed_with _ _ _ = Ok _ |- _ =>
    pose proof (created_artifact _ _ _ _ _ _ _ _ E H Hkey Ht) as Hm end.
  destruct Hm as (Hv & _ & sig & hash & h & -> & Hh);
    [vm_compute; reflexivity|apply mem_str_true; vm_compute; reflexivity|done|].
  exists h. unfold verifyCapsuleManifest. rewrite Hh, Hv, app_nil_r. cbn [is_record negb res_bind app] in *.
  match goal with |- context [capsule_shape_errors ?m] => assert (capsule_shape_errors m = []) as -> end; [|done].
  change (vget _ "capsule_id") with x4 in Hcid. destruct x4 as [| | | |cid| | | | | | | |]; try done.
  unfold capsule_shape_errors. rewrite root_fields_nil, required_fields_nil.
  - vm_compute. reflexivity.
  - repeat constructor; first [exact Hcid|by eapply requiredString_non_empty|by eapply dateString_non_empty].
  - repeat constructor; (eexists; split; [reflexivity|]); eauto using encrypted_hash_root, normalizeRoot_root.
Qed.

Lemma leak_given_id options a b prefix parts v :
  hasPlaintextLeak (VObj options) = false ->
  (fget options a ??! (fget options b ??! derived_id prefix parts)) = Ok v -> hasPlaintextLeak v = false.
Proof.
  intros Hl. unfold coalesce_res. intros H. destruct (is_nullish (fget options a)).
  - destruct (is_nullish (fget options b)).
    + unfold derived_id in H. inv_res. done.
    + apply Ok_inj in H as <-. by apply leak_fget.
  - apply Ok_inj in H as <-. by apply leak_fget.
Qed.

Lemma no_leak value context u : assertNoPlaintext value context = Ok u -> hasPlaintextLeak value = false.
Proof. unfold assertNoPlaintext. by destruct (hasPlaintextLeak value). Qed.

Lemma integer_atom v : is_nonneg_integer v = true -> exists n, v = VNum n.
Proof. destruct v; try done. eauto. Qed.

Lemma checkpoint_root_root s r a e p root : checkpoint_root_of s r a e p = Ok root -> re_full ROOT_RE root = true.
Proof. apply rootFromValue_root. Qed.

Lemma witness_expectations_ok c vopts n :
  vget c "epoch" = VNum n -> exists e, witness_expectation_errors c vopts = Ok e.
Proof.
  unfold witness_expectation_errors, below_epoch. intros ->. destruct (is_undef _); [by eexists|].
  destruct (fget vopts "minimumEpoch") as [| | |k| | | | | | | | |]; try by eexists.
  cbn [to_number res_bind]. destruct (num_is_integer k); by eexists.
Qed.

Lemma witness_shape_nil c root r a p :
  vget c "schema" = VStr WITNESS_SCHEMA -> vget c "checkpoint_root" = VStr root ->
  vget c "receipt_log_root" = VStr r -> vget c "active_set_root" = VStr a ->
  vget c "previous_witness_hash" = VStr p -> hasPlaintextLeak c = false ->
  Forall (λ x, re_full ROOT_RE x = true) [root; r; a; p] -> is_nonneg_integer (vget c "epoch") = true ->
  witness_shape_errors c root = [].
Proof.
  intros Hs Hroot Hr Ha Hp Hl Hre He. unfold witness_shape_errors. rewrite Hs, Hroot, Hl, He.
  rewrite root_fields_nil. { cbn [seq negb]. by rewrite !str_eqb_refl. }
  rewrite !Forall_cons in Hre. destruct Hre as (? & ? & ? & ? & _). repeat constructor; eauto.
Qed.

Lemma witness_verifies options vopts id c :
  createWitnessCheckpoint options = Ok c -> sg_key_id (signerFrom options VUndef) = VStr id ->
  trusted vopts id (sg_privateKey (signerFrom options VUndef)) ->
  exists e h, witness_expectation_errors c vopts = Ok e /\
    verifyWitnessCheckpoint c vopts = Ok (verificationResult e (Some h)).
Proof.
  unfold createWitnessCheckpoint. cbn zeta. intros H Hkey Ht. inv_res.
  match goal with E : signed_with _ _ _ = Ok _ |- _ =>
    pose proof (created_artifact _ _ _ _ _ _ _ _ E H Hkey Ht) as Hm end.
  destruct Hm as (Hv & _ & sig & hash & h & -> & Hh);
    [vm_compute; reflexivity|apply mem_str_true; vm_compute; reflexivity|done|].
  match goal with E : assertNoPlaintext _ _ = Ok _ |- _ => apply no_leak in E; rename E into Hleak end.
  match goal with E : _ ??! _ = Ok ?w |- _ => apply (leak_given_id _ _ _ _ _ _ Hleak) in E; rename w into wid, E into Hw end.
  match goal with E : negb (is_nonneg_integer _) = false |- _ => apply negb_false_iff in E; rename E into Hep end.
  destruct (integer_atom _ Hep) as [n En]. rewrite En in *.
  match goal with E : negb (_ =s= _) = false |- _ => apply negb_false_iff, str_eqb_eq in E as <- end.
  cbn [app] in *. unfold verifyWitnessCheckpoint. rewrite Hv, Hh. cbn [is_record negb].
  match goal with |- context [witness_expectation_errors ?c vopts] =>
    destruct (witness_expectations_ok c vopts n eq_refl) as [e He];
    assert (witness_shape_errors c x6 = []) as Hshape end.
  { eapply witness_shape_nil; [reflexivity..| | |exact Hep].
    - apply leak_fields. repeat constructor. exact Hw.
    - repeat constructor; eauto using normalizeRoot_root, checkpoint_root_root. }
  exists e, h. split; [exact He|].
  match goal with |- res_bind ?m _ = _ => change m with (checkpoint_root_of (VStr x1) (VStr x2) (VStr x3) (VNum n) (VStr x4)) end.
  match goal with E : checkpoint_root_of _ _ _ _ _ = Ok _ |- _ => rewrite E end. cbn [res_bind].
  rewrite He, Hshape. cbn [res_bind app]. by rewrite app_nil_r.
Qed.

(** ** Lists of strings *)
Lemma arrayOfStrings_items value field items :
  arrayOfStrings value field [] = Ok items -> Forall (λ x, x = VUndef \/ non_empty_string x = true) items.
Proof.
  unfold arrayOfStrings. destruct (is_undef value); intros H; [apply Ok_inj in H as <-; constructor|].
  destruct value as [| | | | | |l| | | | | |]; try done. inv_res. rename E into Hb.
  induction l as [|x l IH]; [constructor|]. cbn [existsb map] in *. apply orb_false_iff in Hb as [Hx Hb].
  constructor; [|by apply IH]. destruct x; cbn in Hx |- *; auto; by apply negb_false_iff in Hx; auto.
Qed.

Lemma sort_items_strings items :
  Forall (λ x, x = VUndef \/ non_empty_string x = true) items -> json_data (VArr (sort_items items)) = true ->
  is_string_array (VArr (sort_items items)) = true.
Proof.
  intros Hi Hj. unfold is_string_array. apply negb_true_iff, not_true_iff_false.
  intros (x & Hx & Hbad)%existsb_exists. apply list_elem_of_In in Hx.
  assert (json_data x = true) as Hjx.
  { cbn [json_data] in Hj. rewrite forallb_forall in Hj. by apply Hj, list_elem_of_In. }
  unfold sort_items in Hx. apply elem_of_app in Hx as [Hx|Hx].
  - apply list_elem_of_In, in_map_iff in Hx as (s & <- & Hs). apply list_elem_of_In in Hs.
    rewrite elem_of_sort_strings in Hs. apply list_elem_of_In, in_flat_map in Hs as (y & Hy & Hs).
    rewrite Forall_forall in Hi. apply list_elem_of_In, Hi in Hy as [->|Hy]; [done|].
    destruct y; try done. destruct Hs as [<-|[]]. cbn in *. by rewrite Hy in Hbad.
  - apply list_elem_of_In, filter_In in Hx as [_ Hu]. by destruct x.
Qed.

Lemma leak_strings v : is_string_array v = true -> hasPlaintextLeak v = false.
Proof.
  destruct v as [| | | | | |l| | | | | |]; try done. cbn [is_string_array hasPlaintextLeak]. intros Hb%negb_true_iff.
  induction l as [|x l IH]; [done|]. cbn [existsb] in *. apply orb_false_iff in Hb as [Hx Hb].
  rewrite (IH Hb), orb_false_r. by destruct x.
Qed.

Lemma grant_shape_nil g :
  vget g "schema" = VStr FEDERATION_GRANT_SCHEMA -> is_string_array (vget g "subjects") = true ->
  is_string_array (vget g "operations") = true -> hasPlaintextLeak g = false ->
  Forall (λ f : string, non_empty_string (vget g f) = true)
    ["grant_id"%string; "issuer"%string; "holder"%string; "purpose"%string; "issued_at"%string; "expires_at"%string] ->
  grant_shape_errors g = [].
Proof.
  intros Hs Hsub Hops Hl Hf. unfold grant_shape_errors. rewrite Hs, Hsub, Hops, Hl, (required_fields_nil _ _ Hf).
  cbn [seq negb]. by rewrite str_eqb_refl.
Qed.

Lemma grant_expectations_ok g vopts :
  is_string_array (vget g "subjects") = true -> is_string_array (vget g "operations") = true ->
  exists e, grant_expectation_errors g vopts = Ok e.
Proof.
  assert (forall v x m, is_string_array v = true -> exists e, granted_errors v x m = Ok e) as Hg.
  { intros v x m Hv. unfold granted_errors. destruct (is_undef x); [by eexists|]. destruct v; try done. by eexists. }
  intros H1 H2. unfold grant_expectation_errors.
  destruct (Hg _ (fget vopts "expectedSubject" ?? fget vopts "subject") "subject not granted" H1) as [e1 ->].
  destruct (Hg _ (fget vopts "expectedOperation" ?? fget vopts "operation") "operation not granted" H2) as [e2 ->].
  cbn [res_bind]. by eexists.
Qed.

Lemma grant_verifies options vopts id g :
  createFederationGrant options = Ok g -> sg_key_id (signerFrom options VUndef) = VStr id ->
  trusted vopts id (sg_privateKey (signerFrom options VUndef)) -> non_empty_string (vget g "grant_id") = true ->
  exists e h, grant_expectation_errors g vopts = Ok e /\
    verifyFederationGrant g vopts = Ok (verificationResult e (Some h)).
Proof.
  unfold createFederationGrant. cbn zeta. intros H Hkey Ht Hgid. inv_res.
  match goal with E : signed_with _ _ _ = Ok _ |- _ =>
    pose proof (created_artifact _ _ _ _ _ _ _ _ E H Hkey Ht) as Hm end.
  destruct Hm as (Hv & Hj & sig & hash & h & -> & Hh);
    [vm_compute; reflexivity|apply mem_str_true; vm_compute; reflexivity|done|].
  repeat match goal with E : arrayOfStrings _ _ _ = Ok _ |- _ => apply arrayOfStrings_items in E end.
  cbn [app] in *. cbn [json_data forallb fst snd] in Hj. rewrite ?andb_true_iff in Hj. destruct_and? Hj.
  repeat match goal with E : Forall _ ?l, F : forallb json_data (sort_items ?l) = true |- _ =>
    apply (sort_items_strings _ E) in F; clear E end.
  unfold verifyFederationGrant. rewrite Hv, Hh. cbn [is_record negb].
  match goal with |- context [grant_expectation_errors ?g vopts] =>
    destruct (grant_expectations_ok g vopts) as [e He]; [assumption..|];
    assert (grant_shape_errors g = []) as Hshape end.
  { match goal with E : _ ??! _ = Ok ?w |- _ =>
      change (non_empty_string w = true) in Hgid; destruct w as [| | | |gid| | | | | | | |]; try done end.
    apply grant_shape_nil; [reflexivity|assumption..| |].
    - apply leak_fields. repeat constructor; apply leak_strings; assumption.
    - repeat constructor; first [exact Hgid|by eapply requiredString_non_empty|by eapply dateString_non_empty]. }
  exists e, h. split; [exact He|]. rewrite He, Hshape. cbn [res_bind app]. by rewrite app_nil_r.
Qed.

(** What a node signs verifies: a capsule manifest, a witness checkpoint and a
    federation grant that were created are each accepted under the public key of their
    signer with no error but those the verifier's own expectations (roots, parties,
    epoch, scope, expiry) raise, provided a given identifier is a non-empty string. *)
Theorem mesh_artifacts_verify options vopts id :
  sg_key_id (signerFrom options VUndef) = VStr id -> trusted vopts id (sg_privateKey (signerFrom options VUndef)) ->
  (forall m, createCapsuleManifest options = Ok m -> non_empty_string (vget m "capsule_id") = true ->
     exists h, verifyCapsuleManifest m vopts = Ok (verificationResult (capsule_expectation_errors m vopts) (Some h))) /\
  (forall c, createWitnessCheckpoint options = Ok c ->
     exists e h, witness_expectation_errors c vopts = Ok e /\
       verifyWitnessCheckpoint c vopts = Ok (verificationResult e (Some h))) /\
  (forall g, createFederationGrant options = Ok g -> non_empty_string (vget g "grant_id") = true ->
     exists e h, grant_expectation_errors g vopts = Ok e /\
       verifyFederationGrant g vopts = Ok (verificationResult e (Some h))).
Proof.
  intros Hkey Ht. split_and!.
  - intros m H Hid. by eapply capsule_verifies.
  - intros c H. by eapply witness_verifies.
  - intros g H Hid. by eapply grant_verifies.
Qed.
End signing.

(** ** The relay store *)
Section relay.
Context {C : Crypto} {L : CryptoLaws C} {Hst : Host} {P : Platform}.

Definition relay_names : list jstr :=
  ["schema" : jstr; "record_id" : jstr; "store_id" : jstr; "capsule_id" : jstr; "encrypted_payload_hash" : jstr;
   "payload_storage" : jstr; "received_at" : jstr; "expires_at" : jstr].

(** A stored record: fixed fields, the hash of a payload, nothing named like plaintext. *)
Record hash_only (r : obj) : Prop := {
  ho_keys : keys r = relay_names \/ keys r = relay_names ++ ["signature" : jstr];
  ho_storage : fget r "payload_storage" = vstr "hash_only";
  ho_hash : exists h, fget r "encrypted_payload_hash" = VStr h /\ re_full ROOT_RE h = true;
  ho_leak : hasPlaintextLeak (VObj r) = false
}.

Lemma leak_signed_with fs key_id sk signed :
  body_keys (keys fs) = true -> signed_with fs key_id sk = Ok signed ->
  exists s, signed = fs ++ [("signature" : jstr, s)] /\ hasPlaintextLeak s = false.
Proof.
  intros Hb H. unfold signed_with, createSignature in H. inv_res. eexists. rewrite spread_snoc; [split; [reflexivity|]|].
  - vm_compute. reflexivity.
  - apply body_key; [done|]. apply mem_str_true. vm_compute. reflexivity.
Qed.

Lemma relay_record_hash_only store record r :
  hasPlaintextLeak (rs_store_id store) = false -> relay_record store record = Ok r -> hash_only r.
Proof.
  intros Hstore. unfold relay_record. cbn zeta. set (given := if is_undef record then _ else _). intros H. inv_res.
  match goal with E : assertNoPlaintext _ _ = Ok _ |- _ => apply no_leak in E; rename E into Hleak end.
  match goal with E : _ ??! _ = Ok ?w |- _ => rename w into rid; assert (hasPlaintextLeak rid = false) as Hrid end.
  { eapply leak_given_id; [|eassumption]. by destruct given. }
  assert (hasPlaintextLeak (fget (own_fields given) "capsule_id" ?? fget (own_fields given) "capsuleId" ?? VNull) = false) as Hcap.
  { assert (hasPlaintextLeak (VObj (own_fields given)) = false) as Hg by by destruct given.
    by apply leak_coalesce; [apply leak_fget|apply leak_coalesce; [apply leak_fget|]]. }
  match goal with E : (if truthy _ then _ else Ok VNull) = Ok ?w |- _ => rename w into exp;
    assert (hasPlaintextLeak exp = false) as Hexp by (destruct (truthy _); inv_res; by subst) end.
  remember (fget (own_fields given) "capsule_id" ?? fget (own_fields given) "capsuleId" ?? VNull) as cap eqn:Ecap.
  match type of H with (if ?b then ?m else Ok ?fs) = Ok _ =>
    assert (exists s, r = fs ++ s /\ hasPlaintextLeak (VObj s) = false /\
      (keys s = [] \/ keys s = ["signature" : jstr])) as (s & -> & Hs & Hk) end.
  { match type of H with (if ?b then _ else _) = _ => destruct b end.
    - apply leak_signed_with in H as (s & -> & Hs); [|vm_compute; reflexivity]. exists [("signature" : jstr, s)].
      split; [reflexivity|]. split; [|by right]. apply leak_fields. repeat constructor. exact Hs.
    - apply Ok_inj in H as <-. exists []. rewrite app_nil_r. auto. }
  split.
  - rewrite keys_app. destruct Hk as [->| ->]; [left|right]; reflexivity.
  - reflexivity.
  - eexists. split; [reflexivity|]. by eapply encrypted_hash_root.
  - rewrite leak_app, Hs, orb_false_r. apply leak_fields. repeat constructor; assumption.
Qed.

Lemma records_get_set m id r id' : records_get (records_set m (VStr id) r) id' = if id =s= id' then Some r else records_get m id'.
Proof.
  assert (forall k, same_value_zero k (VStr id) = (k === VStr id)) as Hk by by intros [| | |[]| | | | | | | | |].
  induction m as [|[k r0] m IH]; [done|]. cbn [records_set records_get]. rewrite Hk.
  destruct (k === VStr id) eqn:E; cbn [records_get].
  - apply seq_str in E as ->. cbn [seq]. by destruct (id =s= id').
  - rewrite IH. destruct (k === VStr id') eqn:E'; [|done]. apply seq_str in E' as ->. cbn [seq] in E.
    destruct (id =s= id') eqn:E2; [|done]. apply str_eqb_eq in E2 as ->. by rewrite str_eqb_refl in E.
Qed.

Lemma records_set_forall (Q : obj -> Prop) m id r :
  Forall (λ kr, Q kr.2) m -> Q r -> Forall (λ kr : jsval * obj, Q kr.2) (records_set m id r).
Proof.
  intros Hm Hr. induction Hm as [|[k r0] m Hq Hm IH]; cbn [records_set]; [by repeat constructor|].
  destruct (same_value_zero k id); by constructor.
Qed.

Lemma records_get_forall (Q : obj -> Prop) m id r : Forall (λ kr : jsval * obj, Q kr.2) m -> records_get m id = Some r -> Q r.
Proof. induction 1 as [|[k r0] m Hq Hm IH]; [done|]. cbn. destruct (k === VStr id); [by intros [= <-]|exact IH]. Qed.

Definition push_step (s s' : relay_store) : Prop := exists record, s' = (pushRelayRecord record s).2.

(** The store id never changes and every record is [hash_only]. *)
Record relay_ok (s : relay_store) : Prop := {
  ro_id : hasPlaintextLeak (rs_store_id s) = false;
  ro_records : Forall (λ kr, hash_only kr.2) (rs_records s)
}.

Lemma push_ok record s : relay_ok s -> relay_ok (pushRelayRecord record s).2.
Proof.
  intros [Hid Hr]. unfold pushRelayRecord. destruct (relay_record s record) as [r|] eqn:E; [|by split].
  split; [done|]. cbn [snd with_records rs_records]. apply records_set_forall; [done|].
  by eapply relay_record_hash_only.
Qed.

Lemma with_relay_id_get r (k : jstr) : k <> "relay_record_id" -> fget (with_relay_id r) k = fget r k.
Proof.
  intros Hk. unfold with_relay_id, spread. cbn [foldl fst snd]. rewrite fget_fset.
  by rewrite (proj2 (str_eqb_neq _ k)) by congruence.
Qed.

(** C23 The relay store keeps hashes only: after any pushes, accepted or refused, every
    record of the store has exactly the public fields, the root of its payload and
    nothing named like plaintext; every pull by an identifier answers; and what a push
    returned is what a pull by its identifier gives next, other identifiers aside. *)
Theorem relay_store_hash_only options s0 s :
  createRelayStore options = Ok s0 -> hasPlaintextLeak (rs_store_id s0) = false -> rtc push_step s0 s ->
  Forall (λ kr, hash_only kr.2) (rs_records s) /\
  (forall id, id <> [] -> exists v, pullRelayRecord s (VStr id) = Ok v) /\
  (forall record r s' id, pushRelayRecord record s = (Ok r, s') -> fget r "record_id" = VStr id -> id <> [] ->
     pullRelayRecord s' (VStr id) = Ok (VObj r) /\
     forall id', id' <> id -> pullRelayRecord s' (VStr id') = pullRelayRecord s (VStr id')).
Proof.
  intros H0 Hid Hr. assert (relay_ok s) as [Hs Hrec].
  { assert (relay_ok s0) as Hs0. { split; [done|]. unfold createRelayStore in H0. cbn zeta in H0. inv_res. constructor. }
    clear H0 Hid. induction Hr as [|s0 s1 s2 (record & ->) _ IH]; [done|]. by apply IH, push_ok. }
  split; [done|]. split.
  - intros id Hne. unfold pullRelayRecord. cbn [is_string]. rewrite (str_non_empty _ Hne). cbn [negb str_of].
    destruct (records_get _ _) as [r|] eqn:E; [|eauto].
    rewrite (ho_leak _ (records_get_forall _ _ _ _ Hrec E)). eauto.
  - intros record r s' id Hp Hrid Hne. unfold pushRelayRecord in Hp.
    destruct (relay_record s record) as [r0|] eqn:E; [|done]. injection Hp as <- <-.
    rewrite with_relay_id_get in Hrid by done. unfold pullRelayRecord. cbn [is_string with_records rs_records].
    rewrite Hrid. split.
    + rewrite (str_non_empty _ Hne). cbn [negb str_of]. rewrite records_get_set, str_eqb_refl.
      by rewrite (ho_leak _ (relay_record_hash_only _ _ _ Hs E)).
    + intros id' Hne'. cbn [str_of]. rewrite records_get_set. by rewrite (proj2 (str_eqb_neq id id')) by congruence.
Qed.

(** ** Payloads leave no trace *)
Definition payload_names : list jstr :=
  ["encrypted_payload" : jstr; "encryptedPayload" : jstr; "opaque_encrypted_record" : jstr;
   "opaqueEncryptedRecord" : jstr; "ciphertext" : jstr].

(** The pushed fields with the root in place of the payload. *)
Definition without_payload (fs : obj) (root : jstr) : obj :=
  fset (filter (λ kv : jstr * jsval, kv.1 ∉ payload_names) fs) "encrypted_payload_hash" (VStr root).

Lemma fget_without fs root (k : jstr) :
  fget (without_payload fs root) k =
  if ("encrypted_payload_hash" : jstr) =s= k then VStr root
  else if mem_str k payload_names then VUndef else fget fs k.
Proof.
  unfold without_payload. rewrite fget_fset. destruct (_ =s= k); [done|].
  induction fs as [|[k' v] fs IH]; [by destruct (mem_str k payload_names)|].
  destruct (decide (k' ∈ payload_names)) as [Hin|Hin].
  - rewrite filter_cons_False by (cbn; auto). rewrite IH. destruct (mem_str k payload_names) eqn:E; [done|].
    rewrite fget_cons. rewrite (proj2 (str_eqb_neq k' k)); [done|]. intros ->. by apply mem_str_false in E.
  - rewrite filter_cons_True by done. rewrite !fget_cons, IH. destruct (k' =s= k) eqn:E; [|done].
    apply str_eqb_eq in E as ->. by rewrite (proj2 (mem_str_false _ _) Hin).
Qed.

Lemma fget_without_other fs root (k : jstr) :
  mem_str k (("encrypted_payload_hash" : jstr) :: payload_names) = false -> fget (without_payload fs root) k = fget fs k.
Proof.
  rewrite mem_str_false, not_elem_of_cons, fget_without. intros [Hne Hn].
  by rewrite (proj2 (str_eqb_neq _ k)), (proj2 (mem_str_false _ _) Hn) by congruence.
Qed.

Lemma relay_record_hash store fs r :
  relay_record store (VObj fs) = Ok r ->
  exists h, normalizeEncryptedPayloadHash fs = Ok h /\ fget r "encrypted_payload_hash" = VStr h.
Proof.
  unfold relay_record. cbn [is_undef own_fields]. cbn zeta. intros H. inv_res. eexists. split; [eassumption|].
  match type of H with (if ?b then _ else _) = _ => destruct b end; [|by apply Ok_inj in H as <-].
  apply leak_signed_with in H as (s & -> & _); [reflexivity|vm_compute; reflexivity].
Qed.

Lemma only_relay_fields ks : assertOnlyRelayFields ks = Ok tt <-> Forall (λ k, k ∈ RELAY_INPUT_KEYS) ks.
Proof.
  induction ks as [|k ks IH]; [done|]. cbn [assertOnlyRelayFields]. rewrite Forall_cons, <- IH.
  destruct (mem_str k RELAY_INPUT_KEYS) eqn:E; cbn [negb].
  - apply mem_str_true in E. naive_solver.
  - apply mem_str_false in E. naive_solver.
Qed.

Lemma elem_of_fset fs k v (kv : jstr * jsval) : kv ∈ fset fs k v -> kv = (k, v) \/ kv ∈ fs.
Proof.
  unfold fset. destruct (fhas fs k).
  - induction fs as [|[k' v'] fs IH]; [by right|]. cbn. destruct (k' =s= k) eqn:E.
    + apply str_eqb_eq in E as ->. rewrite !elem_of_cons. naive_solver.
    + rewrite !elem_of_cons. naive_solver.
  - rewrite finsert_perm, elem_of_cons. done.
Qed.

Lemma without_payload_checks fs root :
  hasPlaintextLeak (VObj fs) = false -> Forall (λ k, k ∈ RELAY_INPUT_KEYS) (keys fs) ->
  hasPlaintextLeak (VObj (without_payload fs root)) = false /\
  Forall (λ k, k ∈ RELAY_INPUT_KEYS) (keys (without_payload fs root)).
Proof.
  intros Hl Hk. assert (forall kv, kv ∈ without_payload fs root -> kv = ("encrypted_payload_hash" : jstr, VStr root) \/ kv ∈ fs) as Hin.
  { intros kv [->|[_ H]%list_elem_of_filter]%elem_of_fset; auto. }
  split.
  - rewrite leak_fields, Forall_forall in *. intros kv [->|H]%Hin; [split; vm_compute; reflexivity|auto].
  - rewrite Forall_forall in *. intros k (kv & -> & [->|H]%Hin)%list_elem_of_fmap.
    + apply mem_str_true. vm_compute. reflexivity.
    + apply Hk. by apply list_elem_of_fmap_2.
Qed.

Lemma without_payload_hash fs root :
  re_full ROOT_RE root = true -> normalizeEncryptedPayloadHash (without_payload fs root) = Ok root.
Proof.
  intros Hr. unfold normalizeEncryptedPayloadHash. cbn zeta.
  rewrite !(fget_without _ _ "encrypted_payload"), !(fget_without _ _ "encryptedPayload"),
    !(fget_without _ _ "opaque_encrypted_record"), !(fget_without _ _ "opaqueEncryptedRecord"),
    !(fget_without _ _ "ciphertext").
  cbn [normalizeHashableRoot]. rewrite (fget_without _ _ "encrypted_payload_hash").
  rewrite str_eqb_refl. unfold normalizeRoot. cbn [is_undef is_nullish]. rewrite Hr.
  by vm_compute.
Qed.

(** The payload of a relay record leaves no trace but its root: pushing the root in
    place of the payload returns the same record and leaves the same store. *)
Theorem relay_keeps_no_payload store fs r store' root :
  pushRelayRecord (VObj fs) store = (Ok r, store') -> fget r "encrypted_payload_hash" = VStr root ->
  pushRelayRecord (VObj (without_payload fs root)) store = (Ok r, store').
Proof.
  unfold pushRelayRecord. destruct (relay_record store (VObj fs)) as [r0|] eqn:E; [|done]. intros [= <- <-] Hroot.
  rewrite with_relay_id_get in Hroot by done.
  enough (relay_record store (VObj (without_payload fs root)) = Ok r0) as -> by done.
  assert (re_full ROOT_RE root = true /\ normalizeEncryptedPayloadHash fs = Ok root) as [Hre Hn].
  { destruct (relay_record_hash _ _ _ E) as (h & Hh & Hg). rewrite Hroot in Hg. injection Hg as <-.
    split; [by eapply encrypted_hash_root|done]. }
  revert E. unfold relay_record. cbn [is_undef is_record own_fields spread_of negb].
  rewrite Hn, (without_payload_hash _ _ Hre).
  intros E. apply res_bind_ok in E as (u & Hl & E). apply res_bind_ok in E as ([] & Hk & E).
  apply no_leak in Hl. apply only_relay_fields in Hk.
  destruct (without_payload_checks _ root Hl Hk) as [Hl' Hk']. apply only_relay_fields in Hk'.
  unfold assertNoPlaintext. rewrite Hl', Hk'. cbn [res_bind] in *. rewrite !fget_without_other by (vm_compute; reflexivity).
  exact E.
Qed.
End relay.

(** ** Witnesses *)
Definition sample_node : jsval := match createMeshNode ("key" : jstr, "key" : jstr) [] with Ok n => n | Throw _ => VUndef end.

Definition sample_artifact_options : obj :=
  [("node" : jstr, sample_node); ("holder" : jstr, vstr "holder:one"); ("encrypted_payload" : jstr, VStr demo_payload);
   ("subjects" : jstr, VArr [vstr "b"; vstr "a"]); ("operations" : jstr, VArr [vstr "capsule.pull"]);
   ("purpose" : jstr, vstr "audit"); ("epoch" : jstr, vint 2)].

Definition sample_trust : obj := [("trustDescriptor" : jstr, vget sample_node "trust_descriptor")].

Definition sample_key_id : jstr := str_of (sg_key_id (signerFrom sample_artifact_options VUndef)).

Lemma sample_key_given : sg_key_id (signerFrom sample_artifact_options VUndef) = VStr sample_key_id.
Proof. vm_compute. reflexivity. Qed.

Lemma sample_trusted : trusted sample_trust sample_key_id (sg_privateKey (signerFrom sample_artifact_options VUndef)).
Proof. split; [vm_compute; reflexivity|]. split; [vm_compute; reflexivity|]. left. vm_compute. reflexivity. Qed.

Lemma sample_artifacts_ok :
  match createCapsuleManifest sample_artifact_options, createWitnessCheckpoint sample_artifact_options,
        createFederationGrant sample_artifact_options with
  | Ok m, Ok c, Ok g => non_empty_string (vget m "capsule_id") && non_empty_string (vget g "grant_id")
  | _, _, _ => false
  end = true.
Proof. vm_compute. reflexivity. Qed.

Lemma mesh_artifacts_verify_witness :
  exists m c g hm ec hc eg hg,
    createCapsuleManifest sample_artifact_options = Ok m /\
    verifyCapsuleManifest m sample_trust = Ok (verificationResult (capsule_expectation_errors m sample_trust) (Some hm)) /\
    createWitnessCheckpoint sample_artifact_options = Ok c /\
    verifyWitnessCheckpoint c sample_trust = Ok (verificationResult ec (Some hc)) /\
    createFederationGrant sample_artifact_options = Ok g /\
    verifyFederationGrant g sample_trust = Ok (verificationResult eg (Some hg)).
Proof.
  pose proof sample_artifacts_ok as Hok.
  destruct (createCapsuleManifest sample_artifact_options) as [m|] eqn:Em; [|discriminate Hok].
  destruct (createWitnessCheckpoint sample_artifact_options) as [c|] eqn:Ec; [|discriminate Hok].
  destruct (createFederationGrant sample_artifact_options) as [g|] eqn:Eg; [|discriminate Hok].
  apply andb_true_iff in Hok as [Hm Hg].
  destruct (mesh_artifacts_verify sample_artifact_options sample_trust sample_key_id sample_key_given sample_trusted)
    as (H1 & H2 & H3).
  destruct (H1 m Em Hm) as [hm Hvm]. destruct (H2 c Ec) as (ec & hc & _ & Hvc). destruct (H3 g Eg Hg) as (eg & hg & _ & Hvg).
  exists m, c, g, hm, ec, hc, eg, hg. auto 10.
Defined.

Definition sample_push : obj :=
  [("record_id" : jstr, vstr "r1"); ("opaque_encrypted_record" : jstr, VStr demo_payload)].

Lemma sample_push_ok :
  match createRelayStore [("node" : jstr, sample_node)] with
  | Ok s0 =>
      negb (hasPlaintextLeak (rs_store_id s0)) &&
      match (pushRelayRecord (VObj sample_push) s0).1 with
      | Ok r => (fget r "record_id" === vstr "r1") && is_string (fget r "encrypted_payload_hash")
      | Throw _ => false
      end
  | Throw _ => false
  end = true.
Proof. vm_compute. reflexivity. Qed.

Lemma relay_store_hash_only_witness :
  exists s0 r s, createRelayStore [("node" : jstr, sample_node)] = Ok s0 /\
    pushRelayRecord (VObj sample_push) s0 = (Ok r, s) /\
    Forall (λ kr, hash_only kr.2) (rs_records s) /\ exists v, pullRelayRecord s (vstr "r1") = Ok v.
Proof.
  pose proof sample_push_ok as Hok.
  destruct (createRelayStore [("node" : jstr, sample_node)]) as [s0|] eqn:E0; [|discriminate Hok].
  apply andb_true_iff in Hok as [Hl%negb_true_iff Hok].
  destruct (pushRelayRecord (VObj sample_push) s0) as [[r|] s] eqn:E1; [|discriminate Hok].
  assert (rtc push_step s0 s) as Hrun.
  { eapply rtc_l; [|apply rtc_refl]. exists (VObj sample_push). rewrite E1. reflexivity. }
  destruct (relay_store_hash_only [("node" : jstr, sample_node)] s0 s E0 Hl Hrun) as (H1 & H2 & _).
  exists s0, r, s. split; [reflexivity|]. split; [exact E1|]. split; [exact H1|]. apply (H2 "r1"). discriminate.
Defined.

Lemma relay_keeps_no_payload_witness :
  exists s0 r s root, createRelayStore [("node" : jstr, sample_node)] = Ok s0 /\
    pushRelayRecord (VObj sample_push) s0 = (Ok r, s) /\
    pushRelayRecord (VObj (without_payload sample_push root)) s0 = (Ok r, s).
Proof.
  pose proof sample_push_ok as Hok.
  destruct (createRelayStore [("node" : jstr, sample_node)]) as [s0|] eqn:E0; [|discriminate Hok].
  apply andb_true_iff in Hok as [_ Hok].
  destruct (pushRelayRecord (VObj sample_push) s0) as [[r|] s] eqn:E1; [|discriminate Hok].
  apply andb_true_iff in Hok as [_ Hs%string_value].
  exists s0, r, s, (str_of (fget r "encrypted_payload_hash")). split; [reflexivity|]. split; [exact E1|].
  exact (relay_keeps_no_payload s0 sample_push r s _ E1 Hs).
Defined.

(** The demonstration of the mesh succeeds, and fails once its artifacts have expired. *)
Definition demo_ok (options : obj) : jsval :=
  match runMeshDemo ("key" : jstr, "key" : jstr) options with Ok r => vget r "ok" | Throw _ => VUndef end.

Example demo_succeeds :
  demo_ok [] = VBool true /\ demo_ok [("now" : jstr, VStr DEFAULT_EXPIRY)] = VBool false.
Proof. vm_compute. auto. Qed.
