(* ===== verification/Enterprise.v ===== *)
(** * Enterprise policies

    [src/packages/enterprise/src/index.js]: a tenant's policy, the evaluation of a
    request under it, signed gateway decisions with their verification, and the
    projections that are logged.  Names of models, regions and memories leave the
    gateway only as hashes.  Functions take their options as the list of own
    properties; the fresh identifier, the clock and the fresh key pair are inputs. *)

From S2P Require Import Prelude JsValue Regex Canonical Hashing Receipt Dates VaultPublic Vault.

Definition POLICY_SCHEMA : jstr := "enigma.enterprise_policy.v1".
Definition EVALUATION_SCHEMA : jstr := "enigma.enterprise_policy_evaluation.v1".
Definition GATEWAY_DECISION_SCHEMA : jstr := "enigma.gateway_decision.v1".
Definition SIEM_EVENT_SCHEMA : jstr := "enigma.enterprise_siem_event.v1".
Definition DEFAULT_CREATED_AT : jstr := "1970-01-01T00:00:00.000Z".

(** [[...new Set(input.map(String).filter(nonempty))].sort()]; a value that is not an array
    stands for the array of it. *)
Definition item_text (item : jsval) : list jstr :=
  match item with VHole => [] | _ => if to_str item =s= [] then [] else [to_str item] end.

Definition uniqueStrings (value : jsval) : list jstr :=
  let input := match value with VArr l => l | _ => if is_nullish value then [] else [value] end in
  sort_strings (set_of_list (flat_map item_text input)).

Definition strings (l : list jstr) : jsval := VArr (map VStr l).

(** [Object.fromEntries(Object.entries(record).filter(([, value]) => value !== undefined))]. *)
Definition withoutUndefinedFields (record : obj) : obj :=
  List.filter (λ kv : jstr * jsval, negb (is_undef kv.2)) record.

(** [stableStringify]: JSON with sorted properties, without the undefined ones.  A hole
    of an array is joined as the empty text. *)
Definition stable_member (kt : jstr * jstr) : jstr := json_quote kt.1 +s+ ":" +s+ kt.2.

Fixpoint stableStringify (value : jsval) : res jstr :=
  match value with
  | VNull => Ok ("null" : jstr)
  | VStr s => Ok (json_quote s)
  | VNum n =>
      throw_if negb (num_is_finite n) with TypeError "stable JSON cannot encode non-finite numbers";
      Ok (num_text (match n with NNegZero => NInt 0 | _ => n end))
  | VBool b => Ok (if b then "true" : jstr else "false" : jstr)
  | VArr l =>
      let! parts := (fix go (l : list jsval) : res (list jstr) :=
         match l with
         | [] => Ok []
         | x :: l' =>
             let! t := match x with VHole => Ok [] | _ => stableStringify x end in
             let! ts := go l' in Ok (t :: ts)
         end) l in
      Ok ("[" +s+ join "," parts +s+ "]")
  | VObj fields | VInst _ fields =>
      let! parts := (fix go (fs : list (jstr * jsval)) : res (list (jstr * jstr)) :=
         match fs with
         | [] => Ok []
         | kv :: fs' =>
             if is_undef kv.2 then go fs'
             else let! t := stableStringify kv.2 in
                  let! ts := go fs' in Ok ((kv.1, t) :: ts)
         end) fields in
      Ok ("{" +s+ join "," (map stable_member (sort_keys parts)) +s+ "}")
  | VMap _ | VSet _ => Ok ("{}" : jstr)
  | VBytes _ b =>
      Ok ("{" +s+ join "," (map stable_member (sort_keys
            (imap (λ i n, (index_key i, units_of_string (pretty n))) b))) +s+ "}")
  | VUndef | VHole | VOpaque _ _ => Throw (TypeError ("stable JSON cannot encode " +s+ typeof value))
  end.

(** [hold_001], [hold_002], ... *)
Definition hold_number (index : nat) : jstr :=
  let text := nat_str (S index) in "hold_" +s+ replicate (3 - length text) 48%N +s+ text.

Definition includes (list : list jstr) (value : jsval) : bool := mem_str (to_str (value ?? VStr [])) list.

(** [hold.k && value && hold.k === value]. *)
Definition both_equal (a b : jsval) : bool := truthy a && truthy b && (a === b).

Definition activeLegalHoldMatches (hold : obj) (request : jsval) : bool :=
  let memoryAddr := vget request "memory_addr" ?? vget request "memoryAddr" in
  let memoryId := vget request "memory_id" ?? vget request "memoryId" in
  let subjectId := vget request "subject_id" ?? vget request "subjectId" in
  if truthy (fget hold "status") && (fget hold "status" !== vstr "active") then false
  else both_equal (fget hold "memory_addr") memoryAddr || both_equal (fget hold "memory_id") memoryId
       || both_equal (fget hold "subject_id") subjectId.

Definition policyForHash (policy : jsval) : obj := fdelete (fdelete (spread_of policy) "policy_hash") "policyHash".

Definition unsignedGatewayDecision (decision : jsval) : obj :=
  fdelete (fdelete (fdelete (fdelete (fdelete (fdelete (spread_of decision) "signature") "signer") "public_key")
    "publicKey") "verification_key") "verificationKey".

(** [args[k] ?? args.request?.[k]]. *)
Definition either (args : obj) (k : string) : jsval := fget args k ?? vget (fget args "request") k.

Definition either2 (args : obj) (k k' : string) : jsval :=
  fget args k ?? fget args k' ?? vget (fget args "request") k ?? vget (fget args "request") k'.

Definition requestFromArgs (args : obj) : obj :=
  withoutUndefinedFields (spread
    (if is_record (fget args "request") then spread_of (fget args "request") else [])
    [("operation" : jstr, either args "operation"); ("provider" : jstr, either args "provider");
     ("model" : jstr, either args "model"); ("region" : jstr, either args "region");
     ("purpose" : jstr, either args "purpose"); ("sensitivity" : jstr, either args "sensitivity");
     ("memory_addr" : jstr, either2 args "memory_addr" "memoryAddr");
     ("memory_id" : jstr, either2 args "memory_id" "memoryId");
     ("subject_id" : jstr, either2 args "subject_id" "subjectId");
     ("legal_hold_delete" : jstr, either2 args "legal_hold_delete" "legalHoldDelete")]).

(** [list.length] for an array, else 0. *)
Definition count_items (value : jsval) : jsval := vnat (length (items_of value)).

Definition minimized_constraints (policy : jsval) : obj :=
  map (λ k : string, (k : jstr, count_items (vget policy k)))
    ["allowed_operations"%string; "allowed_providers"%string; "allowed_models"%string; "allowed_regions"%string;
     "allowed_purposes"%string; "denied_sensitivities"%string; "legal_holds"%string].

(** ** The verdict *)

(** One attribute of a request against its list. *)
Definition dimension_reasons (allowed : list jstr) (value : jsval) (unknown denied : string) : list jstr :=
  if negb (truthy value) then [unknown : jstr]
  else if (length allowed =? 0)%nat || negb (includes allowed value) then [denied : jstr] else [].

Definition sensitivity_reasons (denied : list jstr) (value : jsval) : list jstr :=
  if negb (truthy value) then ["SENSITIVITY_UNKNOWN" : jstr]
  else if includes denied value then ["SENSITIVITY_DENIED" : jstr] else [].

Definition asks_hold_delete (request : jsval) : bool :=
  (vget request "legal_hold_delete" === VBool true) || (vget request "legalHoldDelete" === VBool true).

Definition hold_reasons (holds : list obj) (operation request : jsval) : list jstr :=
  if ((operation === vstr "delete") || asks_hold_delete request)
     && existsb (λ hold, activeLegalHoldMatches hold request) holds
  then ["LEGAL_HOLD_DELETE_DENIED" : jstr]
  else if asks_hold_delete request then ["LEGAL_HOLD_DELETE_DENIED" : jstr] else [].

(** The operation of a request as a text. *)
Definition requested_operation (request : jsval) : jsval :=
  let operation := vget request "operation" in
  if is_nullish operation || (operation === VStr []) then VUndef else VStr (to_str operation).

Definition operation_reasons (allowed : list jstr) (operation : jsval) : list jstr :=
  dimension_reasons allowed operation "OPERATION_UNKNOWN" "OPERATION_DENIED".

(** The lists of a policy. *)
Definition allowed_list (policy : jsval) (snake camel : string) : list jstr :=
  uniqueStrings (vget policy snake ?? vget policy camel).

Definition denied_sensitivities (policy : jsval) : list jstr :=
  uniqueStrings (vget policy "denied_sensitivities" ?? vget policy "sensitivity_deny_list"
    ?? vget policy "deniedSensitivities" ?? vget policy "sensitivityDenyList").

Definition policy_reasons (policy : jsval) (legalHolds : list obj) (operation request : jsval) : list jstr :=
  operation_reasons (allowed_list policy "allowed_operations" "allowedOperations") operation
  ++ dimension_reasons (allowed_list policy "allowed_providers" "allowedProviders") (vget request "provider")
       "PROVIDER_UNKNOWN" "PROVIDER_DENIED"
  ++ dimension_reasons (allowed_list policy "allowed_models" "allowedModels") (vget request "model")
       "MODEL_UNKNOWN" "MODEL_DENIED"
  ++ dimension_reasons (allowed_list policy "allowed_regions" "allowedRegions") (vget request "region")
       "REGION_UNKNOWN" "REGION_DENIED"
  ++ dimension_reasons (allowed_list policy "allowed_purposes" "allowedPurposes") (vget request "purpose")
       "PURPOSE_UNKNOWN" "PURPOSE_DENIED"
  ++ sensitivity_reasons (denied_sensitivities policy) (vget request "sensitivity")
  ++ hold_reasons legalHolds operation request.

Section enterprise.
Context {C : Crypto} {Hst : Host} {Loc : Locale} {P : Platform}.

(** ** Hashes *)
Definition hashValue (value : jsval) : res jstr :=
  let! text := match value with VStr s => Ok s | _ => stableStringify value end in
  Ok (SHA256_PREFIX +s+ sha256_text text).

(** [value ? hashValue(value) : undefined]. *)
Definition hash_if (value : jsval) : res jsval :=
  if truthy value then let! h := hashValue value in Ok (VStr h) else Ok VUndef.

Definition hashPolicy (policy : jsval) : res jstr :=
  if is_record policy then hashValue (VObj (policyForHash policy))
  else hashValue (VObj [("schema" : jstr, VStr POLICY_SCHEMA); ("invalid" : jstr, VBool true)]).

Definition DEFAULT_ACTIVE_ROOT : jstr := SHA256_PREFIX +s+ sha256_text "enigma.enterprise.empty_active_root.v1".

Definition keyIdFromPublicKey (publicKey : jsval) : res jstr :=
  let! h := sha256Hex publicKey in Ok ("ed25519:" +s+ slice_to 32 h).

Definition publicKeyFromPrivateKey (privateKey : jsval) : res jsval :=
  match public_of_private privateKey with
  | Some publicKey => Ok (VStr publicKey)
  | None => Throw (TypeError "createPublicKey rejected the private key")
  end.

(** [Number(value ?? fallback)] when it is a non-negative integer. *)
Definition positiveInteger (value fallback : jsval) : res jsval :=
  let! number := to_number (value ?? fallback) in
  Ok (if num_is_integer number && negb (num_ltb number (NInt 0)) then VNum number else fallback).

(** ** Policies *)
Definition normalizeKms (options : obj) : res obj :=
  let kms := fget options "kms" ?? fget options "kmsMetadata" ?? VObj [] in
  let! evidence_hash := vget kms "evidence_hash" ??! (vget kms "evidenceHash" ??! hash_if (vget kms "evidence")) in
  Ok (withoutUndefinedFields [
    ("provider" : jstr, vget kms "provider" ?? fget options "kms_provider" ?? fget options "kmsProvider"
                        ?? vstr "customer_kms");
    ("key_id" : jstr, vget kms "key_id" ?? vget kms "keyId" ?? fget options "kms_key_id" ?? fget options "kmsKeyId");
    ("key_version" : jstr, vget kms "key_version" ?? vget kms "keyVersion" ?? fget options "kms_key_version"
                           ?? fget options "kmsKeyVersion");
    ("region" : jstr, vget kms "region" ?? fget options "kms_region" ?? fget options "kmsRegion");
    ("evidence_hash" : jstr, evidence_hash)]).

(** A legal hold; [None] is dropped. *)
Definition normalize_hold (index : nat) (hold : jsval) : res (option obj) :=
  match hold with
  | VStr s =>
      Ok (Some [("hold_id" : jstr, VStr (hold_number index)); ("memory_addr" : jstr, VStr s);
                ("status" : jstr, vstr "active")])
  | _ =>
      if negb (is_record hold) then Ok None
      else
        let! scope_hash := vget hold "scope_hash" ??! (vget hold "scopeHash" ??! hash_if (vget hold "scope")) in
        Ok (Some (withoutUndefinedFields [
          ("hold_id" : jstr, VStr (to_str (vget hold "hold_id" ?? vget hold "holdId" ?? VStr (hold_number index))));
          ("memory_addr" : jstr, vget hold "memory_addr" ?? vget hold "memoryAddr");
          ("memory_id" : jstr, vget hold "memory_id" ?? vget hold "memoryId");
          ("subject_id" : jstr, vget hold "subject_id" ?? vget hold "subjectId");
          ("scope_hash" : jstr, scope_hash);
          ("reason_code" : jstr, vget hold "reason_code" ?? vget hold "reasonCode");
          ("status" : jstr, vget hold "status"
             ?? vstr (if vget hold "active" === VBool false then "released" else "active"))]))
  end.

(** A stable sort by the locale order of the texts. *)
Fixpoint text_insert (t : jstr * obj) (l : list (jstr * obj)) : list (jstr * obj) :=
  match l with
  | [] => [t]
  | u :: l' => if locale_leb t.1 u.1 then t :: l else u :: text_insert t l'
  end.

(** A single hold is not compared, so its text is not taken. *)
Definition sort_holds (holds : list obj) : res (list obj) :=
  match holds with
  | [] | [_] => Ok holds
  | _ =>
      let! texts := map_res (λ hold, let! t := stableStringify (VObj hold) in Ok (t, hold)) holds in
      Ok (foldr text_insert [] texts).*2
  end.

Definition normalizeLegalHolds (value : jsval) : res (list obj) :=
  let holds := match value with VArr l => l | _ => if is_nullish value then [] else [value] end in
  let! mapped := imap_res (λ index hold, normalize_hold index hold) holds in
  sort_holds (omap id mapped).

Definition sanitizeKeyEvidence (value0 : jsval) : res obj :=
  let value := if is_undef value0 then VObj [] else value0 in
  let! given := getx value "key_evidence" in
  let evidence := given ?? vget value "keyEvidence" ?? value in
  if negb (is_record evidence) then Ok []
  else
    let! evidence_hash := vget evidence "evidence_hash"
      ??! (vget evidence "evidenceHash" ??! hash_if (vget evidence "evidence")) in
    Ok (withoutUndefinedFields [
      ("provider" : jstr, vget evidence "provider");
      ("key_id" : jstr, vget evidence "key_id" ?? vget evidence "keyId");
      ("key_version" : jstr, vget evidence "key_version" ?? vget evidence "keyVersion");
      ("region" : jstr, vget evidence "region");
      ("evidence_hash" : jstr, evidence_hash)]).

Definition createEnterprisePolicy (uuid clock : jstr) (options : obj) : res jsval :=
  let! createdAt := fget options "created_at" ??! (fget options "createdAt" ??!
    (let! t := nowIso clock (fget options "now" ?? VStr DEFAULT_CREATED_AT) in Ok (VStr t))) in
  let! legal_holds := normalizeLegalHolds (fget options "legal_holds" ?? fget options "legalHolds") in
  let! retention_days := positiveInteger (fget options "retention_days" ?? fget options "retentionDays") (vint 365) in
  let! kms := normalizeKms options in
  let policy := [
    ("schema" : jstr, VStr POLICY_SCHEMA);
    ("policy_id" : jstr, fget options "policy_id" ?? fget options "policyId" ?? VStr ("policy_" +s+ uuid));
    ("tenant_id" : jstr, fget options "tenant_id" ?? fget options "tenantId" ?? vstr "tenant_local");
    ("mode" : jstr, fget options "mode" ?? vstr "byoc");
    ("created_at" : jstr, createdAt);
    ("updated_at" : jstr, fget options "updated_at" ?? fget options "updatedAt" ?? createdAt);
    ("default_action" : jstr, vstr "deny_unknown");
    ("public_proof" : jstr, fget options "public_proof" ?? fget options "publicProof" ?? vstr "hash_only");
    ("allowed_operations" : jstr, strings (uniqueStrings (fget options "allowed_operations"
       ?? fget options "allowedOperations" ?? VArr [vstr "retrieve"; vstr "remember"; vstr "write"; vstr "delete"])));
    ("allowed_providers" : jstr, strings (allowed_list (VObj options) "allowed_providers" "allowedProviders"));
    ("allowed_models" : jstr, strings (allowed_list (VObj options) "allowed_models" "allowedModels"));
    ("allowed_regions" : jstr, strings (allowed_list (VObj options) "allowed_regions" "allowedRegions"));
    ("denied_sensitivities" : jstr, strings (denied_sensitivities (VObj options)));
    ("allowed_purposes" : jstr, strings (uniqueStrings (fget options "allowed_purposes"
       ?? fget options "purpose_allow_list" ?? fget options "allowedPurposes" ?? fget options "purposeAllowList")));
    ("legal_holds" : jstr, VArr (map VObj legal_holds)); ("retention_days" : jstr, retention_days);
    ("kms" : jstr, VObj kms); ("provider_native_memory" : jstr, vstr "cache_only")] in
  let! policy_hash := hashPolicy (VObj policy) in
  Ok (VObj (spread policy [("policy_hash" : jstr, VStr policy_hash)])).

(** ** Evaluation *)
Definition evaluateEnterprisePolicy (clock : jstr) (policy request0 : jsval) : res jsval :=
  let request := if is_undef request0 then VObj [] else request0 in
  let! now := getx request "now" in
  let! evaluatedAt := nowIso clock now in
  if negb (is_record policy) || (vget policy "schema" !== VStr POLICY_SCHEMA) then
    let! policy_hash := hashPolicy policy in
    Ok (VObj [
      ("schema" : jstr, VStr EVALUATION_SCHEMA); ("allowed" : jstr, VBool false); ("allow" : jstr, VBool false);
      ("decision" : jstr, vstr "deny"); ("reason_codes" : jstr, VArr [vstr "POLICY_INVALID"]);
      ("policy_hash" : jstr, VStr policy_hash); ("evaluated_at" : jstr, VStr evaluatedAt)])
  else
    let! legalHolds := normalizeLegalHolds (vget policy "legal_holds" ?? vget policy "legalHolds") in
    let operation := requested_operation request in
    let reasonCodes := policy_reasons policy legalHolds operation request in
    let allowed := (length reasonCodes =? 0)%nat in
    let memoryAddr := vget request "memory_addr" ?? vget request "memoryAddr" in
    let! policy_hash := hashPolicy policy in
    let! memory_addr_hash := hash_if memoryAddr in
    Ok (VObj (withoutUndefinedFields [
      ("schema" : jstr, VStr EVALUATION_SCHEMA); ("allowed" : jstr, VBool allowed); ("allow" : jstr, VBool allowed);
      ("decision" : jstr, if allowed then vstr "allow" else vstr "deny");
      ("reason_codes" : jstr, if allowed then VArr [vstr "ALLOW"] else strings reasonCodes);
      ("policy_id" : jstr, vget policy "policy_id"); ("policy_hash" : jstr, VStr policy_hash);
      ("evaluated_at" : jstr, VStr evaluatedAt); ("operation" : jstr, operation);
      ("provider" : jstr, vget request "provider"); ("model" : jstr, vget request "model");
      ("region" : jstr, vget request "region"); ("purpose" : jstr, vget request "purpose");
      ("sensitivity" : jstr, vget request "sensitivity"); ("memory_addr_hash" : jstr, memory_addr_hash)])).

(** [source.k_hash ?? (value ? hashValue(value) : undefined)]. *)
Definition hash_field (given value : jsval) : res jsval := given ??! hash_if value.

Definition minimizeEnterpriseEvaluation (evaluation0 : jsval) : res jsval :=
  let evaluation := if is_undef evaluation0 then VObj [] else evaluation0 in
  let! schema := getx evaluation "schema" in
  let hashed (given raw : string) := hash_field (vget evaluation given) (vget evaluation raw) in
  let! operation_hash := hashed "operation_hash" "operation" in
  let! provider_hash := hashed "provider_hash" "provider" in
  let! model_hash := hashed "model_hash" "model" in
  let! region_hash := hashed "region_hash" "region" in
  let! purpose_hash := hashed "purpose_hash" "purpose" in
  let! sensitivity_hash := hashed "sensitivity_hash" "sensitivity" in
  Ok (VObj (withoutUndefinedFields [
    ("schema" : jstr, schema); ("allowed" : jstr, vget evaluation "allowed"); ("allow" : jstr, vget evaluation "allow");
    ("decision" : jstr, vget evaluation "decision"); ("reason_codes" : jstr, vget evaluation "reason_codes");
    ("policy_id" : jstr, vget evaluation "policy_id"); ("policy_hash" : jstr, vget evaluation "policy_hash");
    ("evaluated_at" : jstr, vget evaluation "evaluated_at");
    ("memory_addr_hash" : jstr, vget evaluation "memory_addr_hash"); ("operation_hash" : jstr, operation_hash);
    ("provider_hash" : jstr, provider_hash); ("model_hash" : jstr, model_hash); ("region_hash" : jstr, region_hash);
    ("purpose_hash" : jstr, purpose_hash); ("sensitivity_hash" : jstr, sensitivity_hash)])).

Definition minimizeEnterprisePolicy (policy0 : jsval) : res jsval :=
  let policy := if is_undef policy0 then VObj [] else policy0 in
  let! schema := getx policy "schema" in
  let! kms_hash := hashValue (vget policy "kms" ?? VObj []) in
  Ok (VObj [
    ("schema" : jstr, schema); ("policy_id" : jstr, vget policy "policy_id");
    ("tenant_id" : jstr, vget policy "tenant_id"); ("mode" : jstr, vget policy "mode");
    ("default_action" : jstr, vget policy "default_action");
    ("provider_native_memory" : jstr, vget policy "provider_native_memory");
    ("public_proof" : jstr, vget policy "public_proof"); ("policy_hash" : jstr, vget policy "policy_hash");
    ("created_at" : jstr, vget policy "created_at"); ("updated_at" : jstr, vget policy "updated_at");
    ("retention_days" : jstr, vget policy "retention_days");
    ("constraints" : jstr, VObj (minimized_constraints policy)); ("kms_hash" : jstr, VStr kms_hash)]).

(** ** Gateway decisions *)
Definition createGatewayDecision (uuid clock : jstr) (fresh : jstr * jstr) (args : obj) : res jsval :=
  let policy := fget args "policy" in
  throw_if negb (is_record policy) with TypeError "createGatewayDecision requires policy";
  let request := VObj (requestFromArgs args) in
  let! evaluation := fget args "evaluation" ??! evaluateEnterprisePolicy clock policy request in
  let keyPair := fget args "signingKeyPair" ?? fget args "keyPair"
    ?? (if truthy (fget args "privateKey") then VUndef
        else VObj (generateSigningKeyPair fresh.1 fresh.2
               [("key_id" : jstr, fget args "key_id" ?? fget args "keyId")])) in
  let privateKey := fget args "privateKey" ?? vget keyPair "privateKey" in
  throw_if negb (truthy privateKey) with TypeError "createGatewayDecision requires privateKey or signingKeyPair";
  let! publicKey := fget args "publicKey" ??! (fget args "public_key" ??! (vget keyPair "publicKey" ??!
    publicKeyFromPrivateKey privateKey)) in
  let! signer := fget args "signer" ??! (vget keyPair "signer" ??!
    (let! key_id := fget args "key_id" ??! (fget args "keyId" ??!
       (let! k := keyIdFromPublicKey publicKey in Ok (VStr k))) in
     Ok (VObj [("key_id" : jstr, key_id); ("alg" : jstr, VStr ED25519)]))) in
  let memoryAddr := vget request "memory_addr" ?? vget request "memoryAddr" in
  let! issuedAt := fget args "issued_at" ??! (fget args "issuedAt" ??!
    (let! t := nowIso clock (fget args "now") in Ok (VStr t))) in
  let! keyEvidence := sanitizeKeyEvidence (fget args "key_evidence" ?? fget args "keyEvidence" ?? vget policy "kms") in
  let! policyHash := hashPolicy policy in
  let operation := vget evaluation "operation" ?? vget request "operation" in
  let given k := vget request k ?? vget evaluation k in
  let! memory_addr_hash := hash_if memoryAddr in
  let! operation_hash := hash_if operation in
  let! provider_hash := hash_if (given "provider") in
  let! model_hash := hash_if (given "model") in
  let! region_hash := hash_if (given "region") in
  let! purpose_hash := hash_if (given "purpose") in
  let! sensitivity_hash := hash_if (given "sensitivity") in
  let! key_evidence_hash :=
    match keyEvidence with [] => Ok VUndef | _ => let! h := hashValue (VObj keyEvidence) in Ok (VStr h) end in
  let! request_hash := hashValue request in
  let! evaluation_hash := hashValue evaluation in
  let unsigned := withoutUndefinedFields [
    ("schema" : jstr, VStr GATEWAY_DECISION_SCHEMA);
    ("decision_id" : jstr, fget args "decision_id" ?? fget args "decisionId" ?? VStr ("gwd_" +s+ uuid));
    ("issued_at" : jstr, issuedAt);
    ("gateway_id" : jstr, fget args "gateway_id" ?? fget args "gatewayId" ?? vstr "gateway_local");
    ("tenant_id" : jstr, vget policy "tenant_id"); ("policy_id" : jstr, vget policy "policy_id");
    ("policy_hash" : jstr, VStr policyHash); ("memory_addr_hash" : jstr, memory_addr_hash);
    ("operation_hash" : jstr, operation_hash); ("provider_hash" : jstr, provider_hash);
    ("model_hash" : jstr, model_hash); ("region_hash" : jstr, region_hash);
    ("purpose_hash" : jstr, purpose_hash); ("sensitivity_hash" : jstr, sensitivity_hash);
    ("decision" : jstr, vget evaluation "decision"); ("allowed" : jstr, vget evaluation "allowed");
    ("reason_codes" : jstr, vget evaluation "reason_codes");
    ("active_root" : jstr, fget args "active_root" ?? fget args "activeRoot" ?? VStr DEFAULT_ACTIVE_ROOT);
    ("key_evidence_hash" : jstr, key_evidence_hash); ("request_hash" : jstr, VStr request_hash);
    ("evaluation_hash" : jstr, VStr evaluation_hash)] in
  let! text := stableStringify (VObj unsigned) in
  let! value := signPayload (VStr text) privateKey in
  Ok (VObj (spread unsigned [
    ("signer" : jstr, VObj [("key_id" : jstr, vget signer "key_id"); ("alg" : jstr, vget signer "alg" ?? VStr ED25519)]);
    ("signature" : jstr, VObj [("alg" : jstr, VStr ED25519); ("key_id" : jstr, vget signer "key_id");
                               ("value" : jstr, VStr value)]);
    ("public_key" : jstr, publicKey)])).

Record gateway_result := {
  gr_ok : bool;
  gr_errors : list jstr;
  gr_policy_hash : option jstr;
  gr_decision_id : jsval;
  gr_signer : jsval
}.

Definition err_if (b : bool) (code : string) : list jstr := if b then [code : jstr] else [].

(** The checks before the signature. *)
Definition decision_errors (decision policy publicKey trustedKeyId : jsval) : res (list jstr) :=
  let! policy_mismatch :=
    (if is_record decision
     then let! h := hashPolicy policy in Ok (vget decision "policy_hash" !== VStr h) else Ok false) in
  Ok (err_if (negb (is_record decision) || (vget decision "schema" !== VStr GATEWAY_DECISION_SCHEMA)) "DECISION_INVALID"
      ++ err_if policy_mismatch "POLICY_HASH_MISMATCH"
      ++ err_if (negb (truthy publicKey)) "TRUSTED_PUBLIC_KEY_REQUIRED"
      ++ err_if (negb (is_undef trustedKeyId) && (vget (vget decision "signer") "key_id" !== trustedKeyId))
           "TRUSTED_KEY_ID_MISMATCH"
      ++ err_if (negb (truthy (vget (vget decision "signature") "value" ?? vget decision "signature")))
           "SIGNATURE_MISSING").

Definition verifyGatewayDecision (args0 maybePolicy maybePublicKey : jsval) : res gateway_result :=
  let args := if is_undef args0 then VObj [] else args0 in
  let! schema := getx args "schema" in
  let decision := if schema === VStr GATEWAY_DECISION_SCHEMA then args else vget args "decision" in
  let policy := maybePolicy ?? vget args "policy" in
  let publicKey := maybePublicKey ?? vget args "trustedPublicKey" ?? vget args "trusted_public_key"
    ?? vget args "publicKey" ?? vget args "public_key" in
  let trustedKeyId := vget args "trustedKeyId" ?? vget args "trusted_key_id" in
  let signature := vget (vget decision "signature") "value" ?? vget decision "signature" in
  let! errors0 := decision_errors decision policy publicKey trustedKeyId in
  let! errors :=
    match errors0 with
    | [] =>
        let! text := stableStringify (VObj (unsignedGatewayDecision decision)) in
        Ok (err_if (negb (verifySignature (VStr text) signature publicKey)) "SIGNATURE_INVALID")
    | _ => Ok errors0
    end in
  let! policy_hash := (if is_record policy then let! h := hashPolicy policy in Ok (Some h) else Ok None) in
  Ok {| gr_ok := bool_decide (errors = []); gr_errors := errors; gr_policy_hash := policy_hash;
        gr_decision_id := vget decision "decision_id"; gr_signer := vget decision "signer" |}.

(** ** Events for the security log *)
Definition exportSiemEvent (uuid clock : jstr) (args0 : jsval) : res jsval :=
  let args := if is_undef args0 then VObj [] else args0 in
  let! schema := getx args "schema" in
  let decision := if schema === VStr GATEWAY_DECISION_SCHEMA then args else vget args "decision" in
  let evaluation := if schema === VStr EVALUATION_SCHEMA then args else vget args "evaluation" in
  let policy := vget args "policy" in
  let source := decision ?? evaluation ?? VObj [] in
  let raw k := vget source k ?? vget args k in
  let! emitted_at := vget args "emitted_at" ??! (vget args "emittedAt" ??!
    (let! t := nowIso clock (vget args "now") in Ok (VStr t))) in
  let! policy_hash := vget source "policy_hash" ??!
    (if truthy policy then let! h := hashPolicy policy in Ok (VStr h) else Ok VUndef) in
  let! operation_hash := hash_field (vget source "operation_hash") (vget source "operation") in
  let! memory_addr_hash := hash_field (vget source "memory_addr_hash") (vget source "memory_addr") in
  let! key_evidence_hash := hash_field (vget source "key_evidence_hash") (vget source "key_evidence") in
  let! provider_hash := hash_field (vget source "provider_hash") (raw "provider") in
  let! model_hash := hash_field (vget source "model_hash") (raw "model") in
  let! region_hash := hash_field (vget source "region_hash") (raw "region") in
  let! purpose_hash := hash_field (vget source "purpose_hash") (raw "purpose") in
  let! sensitivity_hash := hash_field (vget source "sensitivity_hash") (raw "sensitivity") in
  Ok (VObj (withoutUndefinedFields [
    ("schema" : jstr, VStr SIEM_EVENT_SCHEMA);
    ("event_id" : jstr, vget args "event_id" ?? vget args "eventId" ?? VStr ("siem_" +s+ uuid));
    ("emitted_at" : jstr, emitted_at); ("tenant_id" : jstr, vget source "tenant_id" ?? vget policy "tenant_id");
    ("gateway_id" : jstr, vget source "gateway_id");
    ("policy_id" : jstr, vget source "policy_id" ?? vget policy "policy_id"); ("policy_hash" : jstr, policy_hash);
    ("decision_id" : jstr, vget source "decision_id"); ("decision" : jstr, vget source "decision");
    ("allowed" : jstr, vget source "allowed"); ("reason_codes" : jstr, vget source "reason_codes" ?? VArr []);
    ("operation_hash" : jstr, operation_hash); ("memory_addr_hash" : jstr, memory_addr_hash);
    ("active_root" : jstr, vget source "active_root"); ("key_evidence_hash" : jstr, key_evidence_hash);
    ("provider_hash" : jstr, provider_hash); ("model_hash" : jstr, model_hash); ("region_hash" : jstr, region_hash);
    ("purpose_hash" : jstr, purpose_hash); ("sensitivity_hash" : jstr, sensitivity_hash)])).

(** ** The demonstration *)
Definition demo_policy_options (memoryAddr : jstr) : obj :=
  [("policy_id" : jstr, vstr "policy_acme_prod"); ("tenant_id" : jstr, vstr "tenant_acme"); ("mode" : jstr, vstr "byoc");
   ("allowed_providers" : jstr, VArr [vstr "anthropic"; vstr "kimi"]);
   ("allowed_models" : jstr, VArr [vstr "claude-3-5-sonnet"; vstr "kimi-k2"]);
   ("allowed_regions" : jstr, VArr [vstr "eu-central-1"; vstr "us-east-1"]);
   ("allowed_purposes" : jstr, VArr [vstr "agent_context"; vstr "support_retrieval"]);
   ("denied_sensitivities" : jstr, VArr [vstr "restricted"; vstr "secret"]);
   ("legal_holds" : jstr, VArr [VStr memoryAddr]); ("retention_days" : jstr, vint 365);
   ("kms" : jstr, VObj [
      ("provider" : jstr, vstr "aws_kms"); ("key_id" : jstr, vstr "arn:aws:kms:us-east-1:111122223333:key/demo");
      ("key_version" : jstr, vstr "k-17"); ("region" : jstr, vstr "us-east-1")]);
   ("now" : jstr, VStr DEFAULT_CREATED_AT)].

Definition demo_request (memoryAddr : jstr) : obj :=
  [("operation" : jstr, vstr "retrieve"); ("provider" : jstr, vstr "anthropic");
   ("model" : jstr, vstr "claude-3-5-sonnet"); ("region" : jstr, vstr "us-east-1");
   ("purpose" : jstr, vstr "support_retrieval"); ("sensitivity" : jstr, vstr "internal");
   ("memory_addr" : jstr, VStr memoryAddr)].

Record enterprise_demo := {
  ed_policy : jsval;
  ed_allow_retrieval : jsval;
  ed_deny_disallowed_region : jsval;
  ed_deny_legal_hold_delete : jsval;
  ed_siem_event : jsval;
  ed_gateway_decision : jsval;
  ed_verification : gateway_result
}.

(** [uuid i] is the identifier of the [i]-th [randomUUID]. *)
Definition runEnterpriseDemo (uuid : nat -> jstr) (clock : jstr) (fresh : jstr * jstr) (options : obj) : res enterprise_demo :=
  let signingKeyPair := VObj (generateSigningKeyPair fresh.1 fresh.2 [("key_id" : jstr, vstr "enterprise-demo-key")]) in
  let! memoryAddr := createMemoryAddress (VObj [
    ("secret" : jstr, fget options "address_key" ?? vstr "enterprise-demo-address-key");
    ("tenant_id" : jstr, vstr "tenant_acme"); ("subject_id" : jstr, vstr "employee_123");
    ("value" : jstr, vstr "enterprise-demo-source-object")]) VUndef [] in
  let! activeRoot := hashValue (VArr [vstr "active"; VStr memoryAddr]) in
  let! policy := createEnterprisePolicy (uuid 0) clock (demo_policy_options memoryAddr) in
  let baseRequest := demo_request memoryAddr in
  let outside := VObj (spread baseRequest [("region" : jstr, vstr "ap-south-1")]) in
  let! allowRetrieval := evaluateEnterprisePolicy clock policy (VObj baseRequest) in
  let! denyDisallowedRegion := evaluateEnterprisePolicy clock policy outside in
  let! denyLegalHoldDelete := evaluateEnterprisePolicy clock policy
    (VObj (spread baseRequest [("operation" : jstr, vstr "delete")])) in
  let decide i request evaluation := createGatewayDecision (uuid i) clock fresh [
    ("policy" : jstr, policy); ("request" : jstr, request); ("evaluation" : jstr, evaluation);
    ("active_root" : jstr, VStr activeRoot); ("signingKeyPair" : jstr, signingKeyPair)] in
  let! gatewayDecision := decide 0%nat (VObj baseRequest) allowRetrieval in
  let! verification := verifyGatewayDecision (VObj [
    ("decision" : jstr, gatewayDecision); ("policy" : jstr, policy);
    ("publicKey" : jstr, vget signingKeyPair "publicKey")]) VUndef VUndef in
  let! denied := decide 1%nat outside denyDisallowedRegion in
  let! siemEvent := exportSiemEvent (uuid 2) clock (VObj [("policy" : jstr, policy); ("decision" : jstr, denied)]) in
  Ok {| ed_policy := policy; ed_allow_retrieval := allowRetrieval; ed_deny_disallowed_region := denyDisallowedRegion;
        ed_deny_legal_hold_delete := denyLegalHoldDelete; ed_siem_event := siemEvent;
        ed_gateway_decision := gatewayDecision; ed_verification := verification |}.
End enterprise.
