(* ===== verification/EnterpriseSafety.v ===== *)
(** * What enterprise policies guarantee

    A request is allowed exactly when every attribute of it is known, listed and not
    denied and no legal hold is in the way; an address put on hold when the policy was
    created cannot be deleted; a created gateway decision verifies. *)

From S2P Require Import Prelude JsValue Objects Regex Canonical Hashing Receipt Dates VaultPublic Vault Samples Enterprise.

(** ** Lists of a policy *)
Lemma elem_of_item_text x item : x ∈ item_text item <-> item <> VHole /\ x <> [] /\ to_str item = x.
Proof.
  assert (forall (b : bool) (t : jstr), (t =s= []) = b -> x ∈ (if b then [] else [t]) <-> x <> [] /\ t = x) as Ht.
  { intros b t <-. destruct (t =s= []) eqn:E.
    - apply str_eqb_eq in E as ->. rewrite elem_of_nil. naive_solver.
    - apply str_eqb_neq in E. rewrite list_elem_of_singleton. naive_solver. }
  destruct item; cbn [item_text]; try (rewrite (Ht _ _ eq_refl); naive_solver). rewrite elem_of_nil. naive_solver.
Qed.

(** The items a list value offers. *)
Definition list_items (value : jsval) : list jsval :=
  match value with VArr l => l | _ => if is_nullish value then [] else [value] end.

Lemma elem_of_uniqueStrings x value :
  x ∈ uniqueStrings value <-> x <> [] /\ exists item, item ∈ list_items value /\ item <> VHole /\ to_str item = x.
Proof.
  unfold uniqueStrings. fold (list_items value). rewrite elem_of_sort_strings, elem_of_set_of_list.
  assert (forall l : list jsval, x ∈ flat_map item_text l <-> exists item, item ∈ l /\ x ∈ item_text item) as Hf.
  { induction l as [|item l IH]; cbn [flat_map].
    - rewrite elem_of_nil. setoid_rewrite elem_of_nil. naive_solver.
    - rewrite elem_of_app, IH. setoid_rewrite elem_of_cons. naive_solver. }
  rewrite Hf. setoid_rewrite elem_of_item_text. naive_solver.
Qed.

(** ** Objects without undefined properties *)
Lemma fget_defined fs k : NoDup (keys fs) -> is_undef (fget fs k) = false ->
  fget (withoutUndefinedFields fs) k = fget fs k.
Proof.
  induction fs as [|[k' v] fs IH]; [done|]. cbn. intros [Hn Hd]%NoDup_cons Hu.
  destruct (k' =s= k) eqn:E.
  - rewrite Hu. cbn. by rewrite E.
  - destruct (is_undef v); cbn [negb]; [by apply IH|]. cbn. rewrite E. by apply IH.
Qed.

Lemma fget_undefined fs k : NoDup (keys fs) -> is_undef (fget fs k) = true -> fget (withoutUndefinedFields fs) k = VUndef.
Proof.
  induction fs as [|[k' v] fs IH]; [done|]. cbn. intros [Hn Hd]%NoDup_cons Hu.
  destruct (k' =s= k) eqn:E.
  - rewrite Hu. cbn. apply str_eqb_eq in E as ->. apply fhas_false_fget.
    destruct (fhas _ k) eqn:Hh; [|done]. apply fhas_elem in Hh. destruct Hn.
    apply list_elem_of_fmap in Hh as (kv & -> & Hin). apply list_elem_of_fmap. exists kv. split; [done|].
    apply list_elem_of_In in Hin. apply list_elem_of_In. by apply List.filter_In in Hin as [? _].
  - destruct (is_undef v); cbn [negb]; [by apply IH|]. cbn. rewrite E. by apply IH.
Qed.

Lemma keys_withoutUndefined fs k : k ∈ keys (withoutUndefinedFields fs) -> k ∈ keys fs.
Proof.
  unfold keys. rewrite !list_elem_of_fmap. intros (kv & -> & Hin%list_elem_of_In). exists kv. split; [done|].
  apply list_elem_of_In. by apply List.filter_In in Hin as [? _].
Qed.

(** Reading a property of an object literal without its undefined properties. *)
Ltac get_defined :=
  unfold vget; cbn [own_fields]; rewrite fget_defined;
  [simp_get|cbn [keys fmap list_fmap fst]; apply (bool_decide_unpack _); by vm_compute|simp_get]; try reflexivity.

(** ** Verdicts *)

(** [value] is known and [l] lists its text. *)
Definition listed (l : list jstr) (value : jsval) : Prop := truthy value = true /\ to_str value ∈ l.

(** What a policy with the holds [holds] permits. *)
Record permitted (policy request : jsval) (holds : list obj) : Prop := {
  pm_schema : vget policy "schema" = VStr POLICY_SCHEMA;
  pm_operation : listed (allowed_list policy "allowed_operations" "allowedOperations") (requested_operation request);
  pm_provider : listed (allowed_list policy "allowed_providers" "allowedProviders") (vget request "provider");
  pm_model : listed (allowed_list policy "allowed_models" "allowedModels") (vget request "model");
  pm_region : listed (allowed_list policy "allowed_regions" "allowedRegions") (vget request "region");
  pm_purpose : listed (allowed_list policy "allowed_purposes" "allowedPurposes") (vget request "purpose");
  pm_sensitivity : truthy (vget request "sensitivity") = true /\
    to_str (vget request "sensitivity") ∉ denied_sensitivities policy;
  pm_no_hold_delete : asks_hold_delete request = false;
  pm_delete : requested_operation request = vstr "delete" ->
    Forall (λ hold, activeLegalHoldMatches hold request = false) holds
}.

Lemma truthy_coalesce value w : truthy value = true -> value ?? w = value.
Proof. by destruct value. Qed.

Lemma dimension_nil l value unknown denied : dimension_reasons l value unknown denied = [] <-> listed l value.
Proof.
  unfold dimension_reasons, listed, includes. destruct (truthy value) eqn:Et; cbn [negb]; [|split; [done|by intros [? _]]].
  rewrite (truthy_coalesce _ _ Et). destruct l as [|x l]; cbn [length Nat.eqb orb].
  - split; [done|]. by intros [_ ?%elem_of_nil].
  - destruct (mem_str (to_str value) (x :: l)) eqn:Em; cbn [negb].
    + apply mem_str_true in Em. naive_solver.
    + apply mem_str_false in Em. split; [done|naive_solver].
Qed.

Lemma sensitivity_nil l value : sensitivity_reasons l value = [] <-> truthy value = true /\ to_str value ∉ l.
Proof.
  unfold sensitivity_reasons, includes. destruct (truthy value) eqn:Et; cbn [negb]; [|split; [done|by intros [? _]]].
  rewrite (truthy_coalesce _ _ Et). destruct (mem_str (to_str value) l) eqn:Em.
  - apply mem_str_true in Em. naive_solver.
  - apply mem_str_false in Em. naive_solver.
Qed.

Lemma hold_nil holds operation request :
  hold_reasons holds operation request = [] <->
  asks_hold_delete request = false /\
  (operation = vstr "delete" -> Forall (λ hold, activeLegalHoldMatches hold request = false) holds).
Proof.
  unfold hold_reasons. destruct (asks_hold_delete request).
  - rewrite orb_true_r. destruct (existsb _ holds); cbn [andb]; (split; [done|by intros [? _]]).
  - rewrite orb_false_r. destruct (operation === vstr "delete") eqn:Eo; cbn [andb].
    + apply seq_str in Eo as ->. assert (existsb (λ hold, activeLegalHoldMatches hold request) holds = false <->
        Forall (λ hold, activeLegalHoldMatches hold request = false) holds) as Hx.
      { induction holds as [|h holds IH]; cbn [existsb]; [by split|].
        rewrite orb_false_iff, IH, Forall_cons. done. }
      destruct (existsb _ holds); naive_solver.
    + split; [|done]. intros _. split; [done|]. intros ->. by vm_compute in Eo.
Qed.

Lemma policy_reasons_nil policy holds request :
  vget policy "schema" = VStr POLICY_SCHEMA ->
  policy_reasons policy holds (requested_operation request) request = [] <-> permitted policy request holds.
Proof.
  intros Hs. unfold policy_reasons, operation_reasons. rewrite !app_nil, !dimension_nil, sensitivity_nil, hold_nil.
  split; [by intros (?&?&?&?&?&?&?&?)|by intros []].
Qed.

Section evaluation.
Context {C : Crypto} {Hst : Host} {Loc : Locale} {P : Platform}.

(** The holds a policy is evaluated with. *)
Definition policy_holds (policy : jsval) : res (list obj) :=
  normalizeLegalHolds (vget policy "legal_holds" ?? vget policy "legalHolds").

Lemma vget_schema_record policy s : vget policy "schema" = VStr s -> is_record policy = true.
Proof. destruct policy; done. Qed.

Lemma seq_neq_str v s : (v !== VStr s) = true <-> v <> VStr s.
Proof.
  rewrite negb_true_iff. destruct (v === VStr s) eqn:E.
  - apply seq_str in E as ->. naive_solver.
  - split; [intros _ ->; by rewrite (proj2 (seq_str (VStr s) s) eq_refl) in E|done].
Qed.

Lemma truthy_request request0 (request : jsval) now :
  request = (if is_undef request0 then VObj [] else request0) -> getx request "now" = Ok now -> is_nullish request = false.
Proof. intros _. by destruct request. Qed.

Lemma strings_nonempty l : l <> [] -> strings l <> VArr [].
Proof. by destruct l. Qed.

Lemma evaluation_verdict clock policy request ev :
  is_undef request = false -> evaluateEnterprisePolicy clock policy request = Ok ev ->
  exists allowed : bool,
    vget ev "allowed" = VBool allowed /\ vget ev "decision" = vstr (if allowed then "allow" else "deny") /\
    (allowed = true <-> exists holds, policy_holds policy = Ok holds /\ permitted policy request holds) /\
    (allowed = false -> exists reason reasons, vget ev "reason_codes" = strings (reason :: reasons)) /\
    exists h, hashPolicy policy = Ok h /\ vget ev "policy_hash" = VStr h.
Proof.
  intros Hu. unfold evaluateEnterprisePolicy. rewrite Hu. intros H. inv_res.
  destruct (negb (is_record policy) || (vget policy "schema" !== VStr POLICY_SCHEMA)) eqn:Ep.
  - inv_res. exists false. split_and!; [reflexivity..| | |eexists; split; [eassumption|reflexivity]].
    + split; [done|]. intros (holds & _ & [Hs]). rewrite (vget_schema_record _ _ Hs) in Ep.
      cbn [negb orb] in Ep. by apply seq_neq_str in Ep.
    + intros _. by exists ("POLICY_INVALID" : jstr), [].
  - apply orb_false_iff in Ep as [_ Es]. apply negb_false_iff, seq_str in Es. inv_res.
    match goal with E : normalizeLegalHolds _ = Ok ?hs |- _ => rename E into Hh; set (holds := hs) in * end.
    set (reasons := policy_reasons policy holds (requested_operation request) request) in *.
    exists (length reasons =? 0)%nat. split_and!.
    + get_defined.
    + get_defined; by destruct (length reasons =? 0)%nat.
    + unfold policy_holds. rewrite Hh. rewrite Nat.eqb_eq. split.
      * intros Hl%nil_length_inv. exists holds. split; [done|]. by apply policy_reasons_nil.
      * intros (? & [= <-] & Hp). by rewrite (proj2 (policy_reasons_nil _ _ _ Es) Hp : reasons = []).
    + intros Hf. rewrite Hf. destruct reasons as [|r rs]; [done|]. exists r, rs. get_defined.
    + eexists. split; [eassumption|]. get_defined.
Qed.

(** C24 A request is allowed exactly when the policy permits it: the policy is one, the
    operation, provider, model, region and purpose are known and listed, the sensitivity is
    known and not denied, no deletion under hold is asked for, and a deletion matches no
    active hold.  Otherwise it is denied with at least one reason. *)
Theorem enterprise_allow_iff clock policy request ev :
  is_undef request = false -> evaluateEnterprisePolicy clock policy request = Ok ev ->
  exists allowed : bool,
    vget ev "allowed" = VBool allowed /\ vget ev "decision" = vstr (if allowed then "allow" else "deny") /\
    (allowed = true <-> exists holds, policy_holds policy = Ok holds /\ permitted policy request holds) /\
    (allowed = false -> exists reason reasons, vget ev "reason_codes" = strings (reason :: reasons)) /\
    exists h, hashPolicy policy = Ok h /\ vget ev "policy_hash" = VStr h.
Proof. apply evaluation_verdict. Qed.

(** ** Legal holds *)
Lemma text_insert_perm t l : text_insert t l ≡ₚ t :: l.
Proof.
  induction l as [|u l IH]; [done|]. cbn [text_insert]. destruct (locale_leb _ _); [done|].
  rewrite IH. apply Permutation_swap.
Qed.

Lemma sort_holds_perm holds sorted : sort_holds holds = Ok sorted -> sorted ≡ₚ holds.
Proof.
  unfold sort_holds. intros H. destruct holds as [|h0 [|h1 holds]]; [by apply Ok_inj in H as <-..|].
  inv_res. match goal with E : map_res _ _ = Ok ?ts |- _ => rename E into Hm; set (texts := ts) in * end.
  assert (texts.*2 = h0 :: h1 :: holds) as <-.
  { apply map_res_ok in Hm. clearbody texts. revert Hm. generalize (h0 :: h1 :: holds). induction 1 as [|h t hs ts Ht Hts IH]; [done|].
    cbn [fmap list_fmap]. inv_res. cbn [snd]. by f_equal. }
  assert (forall ts, foldr text_insert [] ts ≡ₚ ts) as Hp.
  { induction ts as [|t ts IH]; [done|]. cbn [foldr]. etrans; [apply text_insert_perm|]. by rewrite IH. }
  by rewrite Hp.
Qed.

(** Every hold that normalises to a record is among the normalised ones. *)
Lemma elem_of_holds l holds index item hold :
  normalizeLegalHolds (VArr l) = Ok holds -> l !! index = Some item -> normalize_hold index item = Ok (Some hold) ->
  hold ∈ holds.
Proof.
  unfold normalizeLegalHolds. intros H Hi Hn. inv_res. apply sort_holds_perm in H as ->.
  match goal with E : imap_res _ _ = Ok _ |- _ => apply imap_res_from_ok in E as [_ Hk] end.
  destruct (Hk _ _ Hi) as (o & Ho & Hf). cbn [Nat.add] in Hf. rewrite Hn in Hf. apply Ok_inj in Hf as <-.
  apply list_elem_of_omap. exists (Some hold). split; [by eapply list_elem_of_lookup_2|done].
Qed.

(** The hold stands in the way of deleting [addr]. *)
Definition holds_address (addr : jstr) (hold : obj) : Prop :=
  fget hold "memory_addr" = VStr addr /\ fget hold "status" = vstr "active".

Lemma normalize_text_hold index addr :
  exists hold, normalize_hold index (VStr addr) = Ok (Some hold) /\ holds_address addr hold /\
    forall k, k ∈ keys hold -> k ∈ ["hold_id" : jstr; "memory_addr" : jstr; "status" : jstr].
Proof. eexists. split; [reflexivity|]. split; [done|]. by intros k Hk. Qed.

Lemma fget_unknown (hold : obj) (known : list jstr) k :
  (forall k, k ∈ keys hold -> k ∈ known) -> k ∉ known -> fget hold k = VUndef.
Proof.
  intros Hks Hk. apply fhas_false_fget. destruct (fhas hold k) eqn:E; [|done]. apply fhas_elem in E. destruct Hk. auto.
Qed.

(** A normalised hold is normalised to one that says the same. *)
Lemma normalize_again index addr hold :
  holds_address addr hold -> (forall k, k ∈ keys hold -> k ∈ ["hold_id" : jstr; "memory_addr" : jstr; "status" : jstr]) ->
  exists hold', normalize_hold index (VObj hold) = Ok (Some hold') /\ holds_address addr hold'.
Proof.
  intros [Ha Hs] Hks.
  assert (forall k : jstr, k ∉ ["hold_id" : jstr; "memory_addr" : jstr; "status" : jstr] -> vget (VObj hold) k = VUndef) as Hu.
  { intros k. unfold vget. cbn [own_fields]. by apply fget_unknown. }
  cbn [normalize_hold is_record negb]. rewrite !(Hu "scope_hash"), !(Hu "scopeHash"), !(Hu "scope") by (vm_compute; set_solver).
  cbn [coalesce_res is_nullish hash_if truthy res_bind]. eexists. split; [reflexivity|].
  unfold vget. cbn [own_fields]. rewrite Ha, Hs. cbn [coalesce is_nullish vstr].
  split; (rewrite fget_defined; [simp_get; reflexivity|cbn [keys fmap list_fmap fst]; apply (bool_decide_unpack _); by vm_compute|
    simp_get; reflexivity]).
Qed.

Lemma policy_created uuid clock options policy :
  createEnterprisePolicy uuid clock options = Ok policy ->
  exists holds, normalizeLegalHolds (fget options "legal_holds" ?? fget options "legalHolds") = Ok holds /\
    vget policy "schema" = VStr POLICY_SCHEMA /\ vget policy "legal_holds" = VArr (map VObj holds).
Proof.
  unfold createEnterprisePolicy. intros H. inv_res. eexists. split; [eassumption|].
  rewrite spread_append by (vm_compute; reflexivity). unfold vget. cbn [own_fields app]. by simp_get.
Qed.

Lemma both_equal_str a : a <> [] -> both_equal (VStr a) (VStr a) = true.
Proof. intros H%str_eqb_neq. unfold both_equal. cbn [truthy seq]. by rewrite H, str_eqb_refl. Qed.

(** A legal hold blocks deletion: no request to delete an address that was put on hold
    when the policy was created is allowed, whatever else it says. *)
Theorem legal_hold_blocks_delete uuid clock options policy held addr clock' request ev :
  createEnterprisePolicy uuid clock options = Ok policy ->
  fget options "legal_holds" = VArr held -> VStr addr ∈ held -> addr <> [] ->
  requested_operation request = vstr "delete" -> vget request "memory_addr" = VStr addr ->
  evaluateEnterprisePolicy clock' policy request = Ok ev ->
  vget ev "allowed" = VBool false /\ vget ev "decision" = vstr "deny" /\
  exists reasons, vget ev "reason_codes" = strings reasons /\ ("LEGAL_HOLD_DELETE_DENIED" : jstr) ∈ reasons.
Proof.
  intros Hp Hheld Hin Hne Hop Haddr. destruct (policy_created _ _ _ _ Hp) as (holds & Hh & Hs & Hl).
  rewrite Hheld in Hh. cbn [coalesce is_nullish] in Hh. apply list_elem_of_lookup in Hin as [i Hi].
  destruct (normalize_text_hold i addr) as (hold & Hn & Ha & Hks).
  pose proof (elem_of_holds _ _ _ _ _ Hh Hi Hn) as Hel. apply list_elem_of_lookup in Hel as [j Hj].
  destruct (normalize_again j addr hold Ha Hks) as (hold' & Hn' & Ha' & Hst').
  unfold evaluateEnterprisePolicy. assert (is_undef request = false) as -> by (by destruct request).
  intros H. inv_res. rewrite (vget_schema_record _ _ Hs), Hs in H.
  rewrite (proj2 (seq_str _ _) eq_refl) in H. cbn [negb orb] in H. rewrite Hl in H. cbn [coalesce is_nullish] in H. inv_res.
  match goal with E : normalizeLegalHolds _ = Ok ?hs |- _ => rename E into Hagain; set (again := hs) in * end.
  assert (hold' ∈ again) as Hin'.
  { eapply elem_of_holds; [exact Hagain| |exact Hn']. rewrite list_lookup_fmap, Hj. done. }
  assert (("LEGAL_HOLD_DELETE_DENIED" : jstr) ∈ policy_reasons policy again (requested_operation request) request) as Hr.
  { unfold policy_reasons. rewrite !elem_of_app. do 6 right. unfold hold_reasons. rewrite Hop.
    assert (existsb (λ hold, activeLegalHoldMatches hold request) again = true) as ->.
    { apply existsb_exists. exists hold'. split; [by apply list_elem_of_In|]. unfold activeLegalHoldMatches.
      rewrite Ha', Hst', Haddr. cbn [coalesce is_nullish]. rewrite (both_equal_str _ Hne). by vm_compute. }
    rewrite orb_true_l. cbn [andb]. by left. }
  set (reasons := policy_reasons _ _ _ _) in *. destruct reasons as [|r rs]; [by apply elem_of_nil in Hr|].
  cbn [length Nat.eqb]. split_and!; [get_defined|get_defined|]. exists (r :: rs). split; [get_defined|done].
Qed.
End evaluation.

(** ** Gateway decisions *)
Section decisions.
Context {C : Crypto} {L : CryptoLaws C} {Hst : Host} {Loc : Locale} {P : Platform}.

Definition signature_names : list jstr := ["signer" : jstr; "signature" : jstr; "public_key" : jstr].

(** What [createGatewayDecision] signs with. *)
Definition decision_key (fresh : jstr * jstr) (args : obj) : jsval :=
  let keyPair := fget args "signingKeyPair" ?? fget args "keyPair"
    ?? (if truthy (fget args "privateKey") then VUndef
        else VObj (generateSigningKeyPair fresh.1 fresh.2
               [("key_id" : jstr, fget args "key_id" ?? fget args "keyId")])) in
  fget args "privateKey" ?? vget keyPair "privateKey".

(** The names a decision signs, none of which the verifier leaves out. *)
Definition decision_names : list jstr :=
  ["schema" : jstr; "decision_id" : jstr; "issued_at" : jstr; "gateway_id" : jstr; "tenant_id" : jstr;
   "policy_id" : jstr; "policy_hash" : jstr; "memory_addr_hash" : jstr; "operation_hash" : jstr;
   "provider_hash" : jstr; "model_hash" : jstr; "region_hash" : jstr; "purpose_hash" : jstr;
   "sensitivity_hash" : jstr; "decision" : jstr; "allowed" : jstr; "reason_codes" : jstr; "active_root" : jstr;
   "key_evidence_hash" : jstr; "request_hash" : jstr; "evaluation_hash" : jstr].

Lemma unsigned_of_signed fs extra :
  (forall k, k ∈ keys fs -> k ∈ decision_names) -> keys extra = signature_names ->
  spread fs extra = fs ++ extra /\ unsignedGatewayDecision (VObj (fs ++ extra)) = fs.
Proof.
  intros Hks He. split.
  - apply spread_append. rewrite He. by apply (appended_keys_sub decision_names).
  - assert (forall k, k ∉ decision_names -> k ∉ keys fs) as Hn by naive_solver.
    unfold unsignedGatewayDecision. cbn [spread_of own_fields].
    destruct extra as [|[k1 v1] [|[k2 v2] [|[k3 v3] [|]]]]; try discriminate He. injection He as -> -> ->.
    rewrite !fdelete_app_right by (apply Hn; apply (bool_decide_unpack _); by vm_compute). cbn.
    apply app_nil_r.
Qed.

Lemma text_signature_verifies text sk pk sig :
  key_pair sk pk -> truthy pk = true -> signPayload (VStr text) sk = Ok sig ->
  sig <> [] /\ verifySignature (VStr text) (VStr sig) pk = true.
Proof.
  intros Hk Ht. unfold signPayload, verifySignature. cbn [is_record andb]. cbn [fget]. simp_str. intros H. inv_res.
  cbn [bytesForSigning] in *. match goal with E : Ok _ = Ok _ |- _ => apply Ok_inj in E; subst end.
  destruct (ed25519_sign _ _) as [s|] eqn:Es; [|done]. apply Ok_inj in H as ->.
  assert (is_undef pk = false) as -> by (by destruct pk). cbn [is_undef orb decodeSignature is_record].
  destruct (sign_alphabet _ _ _ Es) as [-> ->]. cbn [orb negb].
  split; [by eapply sign_nonempty|]. by rewrite (sign_verify _ _ _ _ Hk Es).
Qed.
Lemma signed_get (fs : obj) extra (k : jstr) :
  keys extra = signature_names -> k ∉ signature_names -> vget (VObj (fs ++ extra)) k = fget fs k.
Proof. intros He Hk. unfold vget. cbn [own_fields]. apply fget_app_left. by rewrite He. Qed.

(** What a created decision consists of. *)
Record decision_of (clock : jstr) (fresh : jstr * jstr) (args : obj) (decision : jsval) : Prop := {
  do_parts : exists unsigned signer key_id publicKey text sig,
    decision = VObj (unsigned ++ [("signer" : jstr, signer);
      ("signature" : jstr, VObj [("alg" : jstr, VStr ED25519); ("key_id" : jstr, key_id); ("value" : jstr, VStr sig)]);
      ("public_key" : jstr, publicKey)]) /\
    (forall k, k ∈ keys unsigned -> k ∈ decision_names) /\
    stableStringify (VObj unsigned) = Ok text /\ signPayload (VStr text) (decision_key fresh args) = Ok sig;
  do_schema : vget decision "schema" = VStr GATEWAY_DECISION_SCHEMA;
  do_policy : exists h, hashPolicy (fget args "policy") = Ok h /\ vget decision "policy_hash" = VStr h;
  do_record : is_record (fget args "policy") = true;
  do_evaluation : exists evaluation,
    fget args "evaluation" ??! evaluateEnterprisePolicy clock (fget args "policy") (VObj (requestFromArgs args)) =
      Ok evaluation /\
    (is_undef (vget evaluation "allowed") = false -> vget decision "allowed" = vget evaluation "allowed") /\
    (is_undef (vget evaluation "decision") = false -> vget decision "decision" = vget evaluation "decision")
}.

Lemma decision_created uuid clock fresh args decision :
  createGatewayDecision uuid clock fresh args = Ok decision -> decision_of clock fresh args decision.
Proof.
  unfold createGatewayDecision. intros H. inv_res.
  match goal with |- context [spread (withoutUndefinedFields ?fs) ?extra] => set (fields := fs) in *; set (ex := extra) in * end.
  set (unsigned := withoutUndefinedFields fields) in *.
  assert (forall k, k ∈ keys unsigned -> k ∈ decision_names) as Hks by (intros k; apply keys_withoutUndefined).
  assert (keys ex = signature_names) as He by reflexivity.
  destruct (unsigned_of_signed unsigned ex Hks He) as [Hsp _].
  assert (NoDup (keys fields)) as Hnd.
  { change (keys fields) with decision_names. apply (bool_decide_unpack _). by vm_compute. }
  assert (forall (k : jstr) v, k ∉ signature_names -> fget fields k = v -> is_undef v = false ->
    vget (VObj (spread unsigned ex)) k = v) as Hget.
  { intros k v Hk <- Hv. rewrite Hsp, signed_get by done. by apply fget_defined. }
  split.
  - rewrite Hsp. repeat eexists; try eassumption.
  - apply Hget; [apply (bool_decide_unpack _); by vm_compute|reflexivity|done].
  - eexists. split; [eassumption|].
    apply Hget; [apply (bool_decide_unpack _); by vm_compute|reflexivity|done].
  - by apply negb_false_iff.
  - eexists. split; [eassumption|]. split; intros Hv;
      (apply Hget; [apply (bool_decide_unpack _); by vm_compute|reflexivity|done]).
Qed.

(** [verifyGatewayDecision({ decision, policy, publicKey })]. *)
Definition verification_args (decision policy publicKey : jsval) : jsval :=
  VObj [("decision" : jstr, decision); ("policy" : jstr, policy); ("publicKey" : jstr, publicKey)].

Lemma verify_unfold decision policy pk :
  is_nullish pk = false ->
  verifyGatewayDecision (verification_args decision policy pk) VUndef VUndef =
  let signature := vget (vget decision "signature") "value" ?? vget decision "signature" in
  let! errors0 := decision_errors decision policy pk VUndef in
  let! errors :=
    match errors0 with
    | [] =>
        let! text := stableStringify (VObj (unsignedGatewayDecision decision)) in
        Ok (err_if (negb (verifySignature (VStr text) signature pk)) "SIGNATURE_INVALID")
    | _ => Ok errors0
    end in
  let! policy_hash := (if is_record policy then let! h := hashPolicy policy in Ok (Some h) else Ok None) in
  Ok {| gr_ok := bool_decide (errors = []); gr_errors := errors; gr_policy_hash := policy_hash;
        gr_decision_id := vget decision "decision_id"; gr_signer := vget decision "signer" |}.
Proof.
  intros Hpk. unfold verifyGatewayDecision. cbn [is_undef verification_args getx res_bind].
  replace (vget _ "schema" === VStr GATEWAY_DECISION_SCHEMA) with false by reflexivity. cbn beta iota zeta.
  set (args := verification_args decision policy pk). replace (vget args "decision") with decision by reflexivity.
  replace (vget args "policy") with policy by reflexivity. replace (vget args "publicKey") with pk by reflexivity.
  replace (vget args "trustedPublicKey") with VUndef by reflexivity.
  replace (vget args "trusted_public_key") with VUndef by reflexivity.
  replace (vget args "trustedKeyId") with VUndef by reflexivity.
  replace (vget args "trusted_key_id") with VUndef by reflexivity.
  replace (pk ?? vget args "public_key") with pk by (unfold coalesce; by rewrite Hpk). reflexivity.
Qed.

Lemma decision_verifies clock fresh args decision pk :
  decision_of clock fresh args decision -> key_pair (decision_key fresh args) pk -> truthy pk = true ->
  exists r, verifyGatewayDecision (verification_args decision (fget args "policy") pk) VUndef VUndef = Ok r /\
    gr_ok r = true /\ gr_errors r = [] /\ gr_decision_id r = vget decision "decision_id".
Proof.
  intros [(unsigned & signer & key_id & publicKey & text & sig & Hd & Hks & Htext & Hsig) Hs (h & Hh & Hph) Hrec _] Hk Ht.
  destruct (text_signature_verifies _ _ _ _ Hk Ht Hsig) as [Hne Hv].
  assert (is_record decision = true) as Hdr by (by rewrite Hd).
  assert (vget decision "signature" = VObj [("alg" : jstr, VStr ED25519); ("key_id" : jstr, key_id); ("value" : jstr, VStr sig)]) as Hsg.
  { rewrite Hd. unfold vget. cbn [own_fields]. rewrite fget_app_absent; [reflexivity|].
    intros Hin%Hks. revert Hin. change (("signature" : jstr) ∉ decision_names). apply (bool_decide_unpack _). by vm_compute. }
  assert (unsignedGatewayDecision decision = unsigned) as Hu.
  { rewrite Hd. by apply unsigned_of_signed. }
  rewrite verify_unfold by (by destruct pk). unfold decision_errors.
  rewrite Hdr, Hh, Hph, Hs, Hsg, Hrec, Ht, Hu, Htext.
  match goal with |- context [?a ?? VObj ?b] => replace (a ?? VObj b) with (VStr sig) by reflexivity end.
  assert (truthy (VStr sig) = true) as -> by (cbn [truthy]; by rewrite (proj2 (str_eqb_neq _ _) Hne)).
  cbn [res_bind]. rewrite !(proj2 (seq_str (VStr _) _) eq_refl). cbn [negb orb err_if is_undef andb app].
  rewrite Hv. cbn [negb err_if]. by eexists.
Qed.

(** A gateway decision verifies under the policy and the public key of its signer; made
    without a given evaluation it says what the policy permits, and a given evaluation is
    signed as it is. *)
Theorem gateway_decision_verifies uuid clock fresh args decision pk :
  createGatewayDecision uuid clock fresh args = Ok decision ->
  key_pair (decision_key fresh args) pk -> truthy pk = true ->
  (exists r, verifyGatewayDecision (verification_args decision (fget args "policy") pk) VUndef VUndef = Ok r /\
     gr_ok r = true /\ gr_errors r = [] /\ gr_decision_id r = vget decision "decision_id") /\
  (is_nullish (fget args "evaluation") = true ->
   exists allowed : bool,
     vget decision "allowed" = VBool allowed /\ vget decision "decision" = vstr (if allowed then "allow" else "deny") /\
     (allowed = true <-> exists holds, policy_holds (fget args "policy") = Ok holds /\
        permitted (fget args "policy") (VObj (requestFromArgs args)) holds)) /\
  (forall b, is_nullish (fget args "evaluation") = false -> vget (fget args "evaluation") "allowed" = VBool b ->
   vget decision "allowed" = VBool b).
Proof.
  intros Hc Hk Ht. pose proof (decision_created _ _ _ _ _ Hc) as Hd. split; [by eapply decision_verifies|].
  destruct (do_evaluation _ _ _ _ Hd) as (evaluation & He & Ha & Hdec). unfold coalesce_res in He. split.
  - intros Hn. rewrite Hn in He. destruct (evaluation_verdict _ _ (VObj (requestFromArgs args)) _ eq_refl He) as (b & H1 & H2 & H3 & _).
    exists b. rewrite Ha, Hdec, H1, H2 by (by rewrite ?H1, ?H2). done.
  - intros b Hn Hb. rewrite Hn in He. apply Ok_inj in He as <-. by rewrite Ha; rewrite Hb.
Qed.
End decisions.

(** ** Witnesses *)
Definition sample_clock : jstr := "2025-01-01T00:00:00.000Z".

Definition sample_policy : jsval :=
  match createEnterprisePolicy "p" sample_clock (demo_policy_options "mem:1") with Ok p => p | Throw _ => VUndef end.

Lemma sample_policy_ok : createEnterprisePolicy "p" sample_clock (demo_policy_options "mem:1") = Ok sample_policy.
Proof. vm_compute. reflexivity. Qed.

Definition sample_request (changes : obj) : jsval := VObj (spread (demo_request "mem:1") changes).

Lemma sample_evaluation changes :
  is_ok (evaluateEnterprisePolicy sample_clock sample_policy (sample_request changes)) = true ->
  exists ev, evaluateEnterprisePolicy sample_clock sample_policy (sample_request changes) = Ok ev.
Proof. destruct (evaluateEnterprisePolicy _ _ _) as [ev|]; [by exists ev|done]. Qed.

Lemma enterprise_allow_iff_witness :
  exists ev (allowed : bool),
    evaluateEnterprisePolicy sample_clock sample_policy (sample_request []) = Ok ev /\
    vget ev "allowed" = VBool allowed /\
    (allowed = true <-> exists holds, policy_holds sample_policy = Ok holds /\
       permitted sample_policy (sample_request []) holds).
Proof.
  destruct (sample_evaluation [] ltac:(vm_compute; reflexivity)) as [ev Hev].
  destruct (enterprise_allow_iff sample_clock sample_policy (sample_request []) ev eq_refl Hev)
    as (allowed & H1 & _ & H3 & _).
  exists ev, allowed. split; [exact Hev|]. split; [exact H1|exact H3].
Defined.

Definition delete_request : jsval := sample_request [("operation" : jstr, vstr "delete")].

Lemma legal_hold_blocks_delete_witness :
  exists ev, evaluateEnterprisePolicy sample_clock sample_policy delete_request = Ok ev /\
    vget ev "allowed" = VBool false.
Proof.
  destruct (sample_evaluation [("operation" : jstr, vstr "delete")] ltac:(vm_compute; reflexivity)) as [ev Hev].
  exists ev. split; [exact Hev|].
  apply (legal_hold_blocks_delete _ _ _ _ [VStr ("mem:1" : jstr)] ("mem:1" : jstr) _ delete_request ev sample_policy_ok
    eq_refl ltac:(left) ltac:(vm_compute; discriminate) ltac:(vm_compute; reflexivity) ltac:(vm_compute; reflexivity) Hev).
Defined.

(** A decision to delete the address under hold, with an evaluation that allows it. *)
Definition forged_args : obj :=
  [("policy" : jstr, sample_policy); ("request" : jstr, delete_request); ("privateKey" : jstr, vstr "key");
   ("evaluation" : jstr, VObj [("allowed" : jstr, VBool true); ("decision" : jstr, vstr "allow")])].

Lemma gateway_decision_verifies_witness :
  exists decision r, createGatewayDecision "g" sample_clock ("key" : jstr, "key" : jstr) forged_args = Ok decision /\
    verifyGatewayDecision (verification_args decision sample_policy (vstr "key")) VUndef VUndef = Ok r /\
    gr_ok r = true /\ vget decision "allowed" = VBool true.
Proof.
  assert (is_ok (createGatewayDecision "g" sample_clock ("key" : jstr, "key" : jstr) forged_args) = true) as Hok
    by (vm_compute; reflexivity).
  destruct (createGatewayDecision "g" sample_clock ("key" : jstr, "key" : jstr) forged_args) as [decision|] eqn:E;
    [|discriminate Hok].
  destruct (gateway_decision_verifies (L := SampleLaws) _ _ _ _ _ (vstr "key") E ltac:(vm_compute; reflexivity) eq_refl) as ((r & Hr & Hk & _) & _ & Hb).
  exists decision, r. split; [reflexivity|]. split; [exact Hr|]. split; [exact Hk|]. exact (Hb true eq_refl eq_refl).
Defined.

(** The demonstration allows the retrieval, denies the other two requests, and its decision
    verifies. *)
Example demo_outcome :
  match runEnterpriseDemo (λ i, nat_str i) sample_clock ("key" : jstr, "key" : jstr) [] with
  | Ok demo =>
      (vget (ed_allow_retrieval demo) "allowed" === VBool true)
      && (vget (ed_deny_disallowed_region demo) "allowed" === VBool false)
      && (vget (ed_deny_legal_hold_delete demo) "allowed" === VBool false) && gr_ok (ed_verification demo)
  | Throw _ => false
  end = true.
Proof. vm_compute. reflexivity. Qed.
