(* ===== verification/Settlement.v ===== *)
(** * Settlement

    [src/packages/settlement/src/index.js]: jobs with a maximal price, capacity
    profiles, operator quotes, settlement receipts with their verification, and batches
    of receipts.  Identifiers and hashes are taken over the JSON text of a copy with
    sorted properties.  Nothing is stored: every function maps an input object to an
    artifact or an error. *)

From S2P Require Import Prelude JsValue Doubles Regex Canonical Hashing Dates VaultPublic Vault.

Definition PERMISSIONLESS_MEMORY_JOB_SCHEMA : jstr := "enigma.permissionless_memory_job.v1".
Definition CONSUMER_GPU_CAPACITY_PROFILE_SCHEMA : jstr := "enigma.consumer_gpu_capacity_profile.v1".
Definition OPERATOR_SERVICE_QUOTE_SCHEMA : jstr := "enigma.operator_service_quote.v1".
Definition SERVICE_SETTLEMENT_RECEIPT_SCHEMA : jstr := "enigma.service_settlement_receipt.v1".
Definition SETTLEMENT_BATCH_SCHEMA : jstr := "enigma.settlement_batch.v1".

Definition SETTLEMENT_PRODUCT_THESIS : jstr :=
  "Use permissionless rails for access, service accountability, and settlement while keeping raw memory and hot-path optimization centralized or BYOC-controlled.".
Definition CONSUMER_GPU_MEMORY_MARKET_THESIS : jstr :=
  "Use consumer and workstation GPU operators for priced memory-optimization capacity only when they can prove bounded service receipts; do not decentralize raw memory or claim provider-wide discounts without measured evidence.".

Definition ACCEPTED_JOB_TYPES : list jstr :=
  ["memory.read" : jstr; "memory.write" : jstr; "memory.delete" : jstr; "context.pack" : jstr;
   "relay.store" : jstr; "witness.checkpoint" : jstr; "gateway.evaluate" : jstr].
Definition ACCEPTED_SERVICE_KINDS : list jstr :=
  ["relay" : jstr; "witness" : jstr; "gateway" : jstr; "memory_optimizer" : jstr; "settlement_gateway" : jstr].
Definition ACCEPTED_ASSETS : list jstr := ["USD" : jstr; "USDC" : jstr; "SOL" : jstr; "ENIGMA" : jstr; "CREDITS" : jstr].
Definition ACCEPTED_ACCELERATOR_CLASSES : list jstr := ["consumer_gpu" : jstr; "workstation_gpu" : jstr; "edge_gpu" : jstr].
Definition ACCEPTED_MODEL_FAMILIES : list jstr :=
  ["small-context" : jstr; "medium-context" : jstr; "long-context" : jstr; "embedding" : jstr;
   "reranker" : jstr; "memory-optimizer" : jstr].

Definition EPOCH : jstr := "1970-01-01T00:00:00.000Z".
Definition FAR_EXPIRY : jstr := "2100-01-01T00:00:00.000Z".

(** ** Texts *)

(** The flags [iu]: besides the ASCII cases, U+017F folds to [s] and U+212A to [k]. *)
Fixpoint fold_unicode (r : re) : re :=
  match r with
  | RNone => RNone
  | REps => REps
  | RCls neg ranges =>
      RCls neg (ranges ++ (if cls_match false ranges 115 then [(383, 383)] else [])
                       ++ (if cls_match false ranges 107 then [(8490, 8490)] else []))%N
  | RSeq r1 r2 => RSeq (fold_unicode r1) (fold_unicode r2)
  | RAlt r1 r2 => RAlt (fold_unicode r1) (fold_unicode r2)
  | RStar r1 => RStar (fold_unicode r1)
  end.

Definition re_iu (r : re) : re := fold_unicode (re_ci r).

Definition FORBIDDEN_WORDS : re :=
  rwords ["raw"%string; "plaintext"%string; "plain_text"%string; "prompt"%string; "prompts"%string;
          "message"%string; "messages"%string; "text"%string; "content"%string; "document"%string;
          "documents"%string; "transcript"%string; "response"%string; "responses"%string;
          "provider_response"%string; "response_body"%string; "credential"%string; "credentials"%string;
          "api_key"%string; "secret"%string; "password"%string; "private_key"%string; "seed"%string;
          "mnemonic"%string].

(** [FORBIDDEN_KEY_RE.test(key)]: a word between underscores or the ends of the key,
    which is the word between underscores once the key has one more at each end. *)
Definition FORBIDDEN_KEY_RE : re := re_iu (rseqs [rlit "_"; FORBIDDEN_WORDS; rlit "_"]).
Definition is_forbidden_key (key : jstr) : bool := re_search FORBIDDEN_KEY_RE ("_" +s+ key +s+ "_").

(** [[^\s...]]. *)
Definition not_space_nor (chars : jstr) : re :=
  RCls true (match rspace with RCls _ ranges => ranges | _ => [] end ++ class_ranges chars).

Definition SECRET_VALUE_RE : re :=
  re_iu (ralts [
    rseqs [rlit "Bearer"; rplus rspace; ratleast 12 (cset "A-Za-z0-9._~+/=-")];
    rseqs [rlit "Basic"; rplus rspace; ratleast 12 (cset "A-Za-z0-9+/=-")];
    rseqs [rlit "-----BEGIN "; RStar (cset "A-Z "); rlit "PRIVATE KEY-----"];
    rseqs [rlit "http"; ropt (rlit "s"); rlit "://"; rplus (not_space_nor "/:@"); rlit ":";
           rplus (not_space_nor "/@"); rlit "@"];
    rlit "raw memory"; rlit "private prompt"; rlit "full transcript"; rlit "decrypted capsule";
    rseqs [rlit "sk-"; ratleast 16 (cset "A-Za-z0-9_-")];
    rseqs [rlit "AKIA"; rrep 16 (cset "0-9A-Z")]]).

(** [/\.(claim_boundary\[\d+\]|product_thesis)$/.test(path)]. *)
Definition is_thesis_path (path : jstr) : bool :=
  re_suffix (rseqs [rlit "."; RAlt (rseqs [rlit "claim_boundary["; rplus rdigit; rlit "]"]) (rlit "product_thesis")]) path.

Definition is_space (c : N) : bool := re_full rspace [c].

Fixpoint drop_spaces (s : jstr) : jstr :=
  match s with [] => [] | c :: s' => if is_space c then drop_spaces s' else s end.

Definition trim (s : jstr) : jstr := reverse (drop_spaces (reverse (drop_spaces s))).

(** [toUpperCase] as far as a comparison with ASCII words sees it: these are the other
    characters with ASCII letters in their upper case. *)
Definition upper_unit (c : N) : jstr :=
  if ((97 <=? c) && (c <=? 122))%N then [(c - 32)%N]
  else if (c =? 305)%N then ("I" : jstr)
  else if (c =? 383)%N then ("S" : jstr)
  else if (c =? 223)%N then ("SS" : jstr)
  else if (c =? 64256)%N then ("FF" : jstr)
  else if (c =? 64257)%N then ("FI" : jstr)
  else if (c =? 64258)%N then ("FL" : jstr)
  else if (c =? 64259)%N then ("FFI" : jstr)
  else if (c =? 64260)%N then ("FFL" : jstr)
  else if ((c =? 64261) || (c =? 64262))%N then ("ST" : jstr)
  else [c].

Definition to_upper (s : jstr) : jstr := flat_map upper_unit s.

Definition requiredString (value : jsval) (field : jstr) : res jstr :=
  match value with
  | VStr s =>
      throw_if trim s =s= [] with TypeError (field +s+ " must be a non-empty string"); Ok (trim s)
  | _ => Throw (TypeError (field +s+ " must be a non-empty string"))
  end.

Definition optionalString (value fallback : jsval) : res jsval :=
  if is_nullish value || (value === VStr []) then Ok fallback
  else let! s := requiredString (VStr (to_str value)) "string" in Ok (VStr s).

(** A string from a set. *)
Definition accepted (set : list jstr) (value : jsval) (field : jstr) : res jstr :=
  let! s := requiredString value field in
  throw_if negb (mem_str s set) with TypeError (field +s+ " is not accepted"); Ok s.

Definition root (value : jsval) (field : jstr) : res jstr :=
  let! s := requiredString value field in
  throw_if negb (re_full ROOT_RE s) with TypeError (field +s+ " must be a sha256-prefixed digest"); Ok s.

Definition asset (value : jsval) (field : jstr) : res jstr :=
  let! s := requiredString value field in
  throw_if negb (mem_str (to_upper s) ACCEPTED_ASSETS)
    with TypeError (field +s+ " is not an accepted settlement asset");
  Ok (to_upper s).

Definition boundedStringArray (value : jsval) (field : jstr) (max : nat) : res jsval :=
  let bad := TypeError (field +s+ " must be a non-empty array with at most " +s+ nat_str max +s+ " entries") in
  match value with
  | VArr l =>
      throw_if (length l =? 0)%nat || (max <? length l)%nat with bad;
      let! items := map_items (λ index item,
        let! s := requiredString item (field +s+ "[" +s+ nat_str index +s+ "]") in Ok (VStr s)) l in
      Ok (VArr items)
  | _ => Throw bad
  end.

(** ** The scan for private data *)
Definition SAFE_FIELD_NAMES : list jstr :=
  ["raw_memory_on_chain" : jstr; "raw_memory_in_job" : jstr; "raw_memory_in_receipt" : jstr;
   "raw_memory_access_required" : jstr].

Fixpoint assertNoSensitivePayload (value : jsval) (path : jstr) : res unit :=
  match value with
  | VStr s =>
      throw_if negb (is_thesis_path path) && re_search SECRET_VALUE_RE s
        with TypeError (path +s+ " contains secret-looking data");
      Ok tt
  | VArr items =>
      (fix go (index : nat) (items : list jsval) : res unit :=
         match items with
         | [] => Ok tt
         | item :: items' =>
             let! _ := assertNoSensitivePayload item (path +s+ "[" +s+ nat_str index +s+ "]") in
             go (S index) items'
         end) 0%nat items
  | VObj fields | VInst _ fields =>
      (fix go (fields : list (jstr * jsval)) : res unit :=
         match fields with
         | [] => Ok tt
         | kv :: fields' =>
             throw_if is_forbidden_key kv.1 && negb (mem_str kv.1 SAFE_FIELD_NAMES)
               with TypeError (path +s+ "." +s+ kv.1 +s+ " is not allowed in settlement artifacts");
             let! _ := assertNoSensitivePayload kv.2 (path +s+ "." +s+ kv.1) in go fields'
         end) fields
  | _ => Ok tt
  end.

(** ** Hashes *)

Definition PROTO : jstr := "__proto__".

(** A copy with sorted properties; a buffer becomes the object of its bytes, any other
    object the object of its own properties.  The copy is built by assignments
    [out[key] = ...], and the assignment to [__proto__] makes no property. *)
Fixpoint canonical_copy (value : jsval) : jsval :=
  match value with
  | VArr items => VArr (map canonical_copy items)
  | VObj fields | VInst _ fields =>
      VObj (spread [] (sort_keys (fdelete (map (λ kv : jstr * jsval, (kv.1, canonical_copy kv.2)) fields) PROTO)))
  | VMap _ | VSet _ => VObj []
  | VBytes _ _ => VObj (spread_of value)
  | _ => value
  end.

Section settlement.
Context {C : Crypto} {Hst : Host} {Loc : Locale} {P : Platform}.

(** ** Operators *)

(** [ToPrimitive]: an object is its text. *)
Definition prim (v : jsval) : jsval :=
  match v with
  | VArr _ | VObj _ | VInst _ _ | VMap _ | VSet _ | VBytes _ _ | VOpaque OFunction _ => VStr (to_str v)
  | _ => v
  end.

(** [a < b]: texts by their units, anything else as numbers. *)
Definition less_than (a b : jsval) : res bool :=
  match prim a, prim b with
  | VStr s, VStr t => Ok (str_ltb s t)
  | a', b' => let! x := to_number a' in let! y := to_number b' in Ok (num_ltb x y)
  end.

(** [a + b]: concatenation if either is a text, addition otherwise.  A symbol throws, and
    so does a bigint with a number; the code always has a number on the left. *)
Definition plus (a b : jsval) : res jsval :=
  match prim a, prim b with
  | _, VOpaque OSymbol _ | VOpaque OSymbol _, _ => Throw (TypeError "Cannot convert a Symbol value")
  | VStr s, b' => Ok (VStr (s +s+ to_str b'))
  | a', VStr t => Ok (VStr (to_str a' +s+ t))
  | _, VOpaque OBigint _ | VOpaque OBigint _, _ =>
      Throw (TypeError "Cannot mix BigInt and other types, use explicit conversions")
  | a', b' => let! x := to_number a' in let! y := to_number b' in Ok (VNum (num_plus x y))
  end.

Definition nonNegativeNumber (value : jsval) (field : jstr) : res jsval :=
  let! n := to_number (value ?? vint 0) in
  throw_if negb (num_is_finite n) || num_ltb n (NInt 0)
    with TypeError (field +s+ " must be a non-negative number");
  Ok (VNum n).

Definition positiveNumber (value : jsval) (field : jstr) : res jsval :=
  let! n := to_number value in
  throw_if negb (num_is_finite n) || negb (num_ltb (NInt 0) n)
    with TypeError (field +s+ " must be a positive number");
  Ok (VNum n).

Definition positiveInteger (value : jsval) (field : jstr) : res jsval :=
  let! n := to_number value in
  throw_if negb (num_is_integer n) || negb (num_ltb (NInt 0) n)
    with TypeError (field +s+ " must be a positive integer");
  Ok (VNum n).

(** The default fallback is the epoch, also when the given one is [undefined]. *)
Definition isoTimestamp (value : jsval) (field : jstr) (fallback : jsval) : res jsval :=
  let! timestamp := optionalString value (if is_undef fallback then VStr EPOCH else fallback) in
  match date_parse (to_str timestamp) with
  | None => Throw (TypeError (field +s+ " must be ISO-parseable"))
  | Some _ => Ok timestamp
  end.

(** [Date.parse(a) <= Date.parse(b)]. *)
Definition not_later (a b : jsval) : bool :=
  match date_parse (to_str a), date_parse (to_str b) with Some x, Some y => (x <=? y)%Z | _, _ => false end.

(** ** Digests *)
Definition digest (value : jsval) : res jstr :=
  let! text := json_stringify (canonical_copy value) in
  match text with
  | None => Throw (TypeError "The data argument must be of type string or an instance of Buffer")
  | Some t => Ok (SHA256_PREFIX +s+ sha256_text t)
  end.

Definition id_from (prefix : jstr) (body : jsval) : res jstr :=
  let! d := digest body in Ok (prefix +s+ slice_to 32 (slice_from 7 d)).

Definition jobIdFrom : jsval -> res jstr := id_from "pjob_".
Definition quoteIdFrom : jsval -> res jstr := id_from "quote_".
Definition receiptIdFrom : jsval -> res jstr := id_from "settle_".
Definition batchIdFrom : jsval -> res jstr := id_from "batch_".

(** [{ ...body, [id]: ..., [hash]: digest(body) }], scanned once more. *)
Definition artifact (body : obj) (extra : obj) (hash path : jstr) : res jsval :=
  let! d := digest (VObj body) in
  let value := VObj (spread body (extra ++ [(hash, VStr d)])) in
  let! _ := assertNoSensitivePayload value path in
  Ok value.

(** The options of a function, which default to an empty object. *)
Definition options_object (input : jsval) (name : jstr) : res obj :=
  let value := if is_undef input then VObj [] else input in
  throw_if negb (is_record value) with TypeError (name +s+ " requires an options object");
  let! _ := assertNoSensitivePayload value "input" in
  Ok (own_fields value).

Definition field2 (o : obj) (a b : jstr) : jsval := fget o a ?? fget o b.

(** ** Jobs *)
Definition createPermissionlessMemoryJob (input : jsval) : res jsval :=
  let! o := options_object input "createPermissionlessMemoryJob" in
  let! jobType := accepted ACCEPTED_JOB_TYPES (field2 o "job_type" "jobType") "job_type" in
  let! maxPriceAmount := positiveNumber (field2 o "max_price_amount" "maxPriceAmount") "max_price_amount" in
  let! paymentAsset := asset (field2 o "payment_asset" "paymentAsset") "payment_asset" in
  let! tenant_id := requiredString (field2 o "tenant_id" "tenantId") "tenant_id" in
  let! memory_commitment_root := root (field2 o "memory_commitment_root" "memoryCommitmentRoot")
    "memory_commitment_root" in
  let! policy_hash := root (field2 o "policy_hash" "policyHash") "policy_hash" in
  let! usage_event_hash := root (field2 o "usage_event_hash" "usageEventHash") "usage_event_hash" in
  let! requested_at := isoTimestamp (field2 o "requested_at" "requestedAt") "requested_at" VUndef in
  let! expires_at := isoTimestamp (field2 o "expires_at" "expiresAt") "expires_at" (VStr FAR_EXPIRY) in
  let body := [
    ("schema" : jstr, VStr PERMISSIONLESS_MEMORY_JOB_SCHEMA);
    ("product_thesis" : jstr, VStr SETTLEMENT_PRODUCT_THESIS);
    ("tenant_id" : jstr, VStr tenant_id); ("job_type" : jstr, VStr jobType);
    ("memory_commitment_root" : jstr, VStr memory_commitment_root);
    ("policy_hash" : jstr, VStr policy_hash); ("usage_event_hash" : jstr, VStr usage_event_hash);
    ("requested_at" : jstr, requested_at); ("expires_at" : jstr, expires_at);
    ("max_price" : jstr, VObj [("amount" : jstr, maxPriceAmount); ("asset" : jstr, VStr paymentAsset)]);
    ("access_boundary" : jstr, VObj [
       ("permissionless_submission" : jstr, VBool true); ("raw_memory_on_chain" : jstr, VBool false);
       ("raw_memory_in_job" : jstr, VBool false); ("centralized_or_byoc_hot_path" : jstr, VBool true);
       ("token_roi_claim" : jstr, VBool false); ("provider_invoice_savings_claim" : jstr, VBool false)])] in
  throw_if not_later expires_at requested_at with RangeError "expires_at must be after requested_at";
  let! id := jobIdFrom (VObj body) in
  artifact body [("job_id" : jstr, VStr id)] "job_hash" "job".

(** ** Capacity profiles *)
Definition createConsumerGpuCapacityProfile (input : jsval) : res jsval :=
  let! o := options_object input "createConsumerGpuCapacityProfile" in
  let! acceleratorClass := accepted ACCEPTED_ACCELERATOR_CLASSES
    (field2 o "accelerator_class" "acceleratorClass") "accelerator_class" in
  let! modelFamily := accepted ACCEPTED_MODEL_FAMILIES (field2 o "model_family" "modelFamily") "model_family" in
  let! priceAmount := positiveNumber
    (field2 o "price_per_million_context_tokens" "pricePerMillionContextTokens")
    "price_per_million_context_tokens" in
  let! profileAsset := asset (fget o "asset" ?? fget o "settlement_asset" ?? fget o "settlementAsset") "asset" in
  let! operator_id := requiredString (field2 o "operator_id" "operatorId") "operator_id" in
  let! hardware_ref := requiredString (field2 o "hardware_ref" "hardwareRef") "hardware_ref" in
  let! region := requiredString (fget o "region") "region" in
  let! model_refs := boundedStringArray (field2 o "model_refs" "modelRefs") "model_refs" 12 in
  let! observed_at := isoTimestamp (field2 o "observed_at" "observedAt") "observed_at" VUndef in
  let! expires_at := isoTimestamp (field2 o "expires_at" "expiresAt") "expires_at" (VStr FAR_EXPIRY) in
  let! vram_gb := positiveNumber (field2 o "vram_gb" "vramGb") "vram_gb" in
  let! max_context := positiveInteger (field2 o "max_context_window_tokens" "maxContextWindowTokens")
    "max_context_window_tokens" in
  let! available := positiveInteger
    (field2 o "available_context_tokens_per_minute" "availableContextTokensPerMinute")
    "available_context_tokens_per_minute" in
  let! latency := positiveNumber (field2 o "p95_latency_ms" "p95LatencyMs") "p95_latency_ms" in
  let! capacity_ref := requiredString (field2 o "capacity_ref" "capacityRef") "capacity_ref" in
  let! terms_ref := requiredString (field2 o "terms_ref" "termsRef") "terms_ref" in
  let body := [
    ("schema" : jstr, VStr CONSUMER_GPU_CAPACITY_PROFILE_SCHEMA);
    ("product_thesis" : jstr, VStr CONSUMER_GPU_MEMORY_MARKET_THESIS);
    ("operator_id" : jstr, VStr operator_id); ("accelerator_class" : jstr, VStr acceleratorClass);
    ("hardware_ref" : jstr, VStr hardware_ref); ("region" : jstr, VStr region);
    ("model_family" : jstr, VStr modelFamily); ("model_refs" : jstr, model_refs);
    ("observed_at" : jstr, observed_at); ("expires_at" : jstr, expires_at);
    ("capacity" : jstr, VObj [
       ("vram_gb" : jstr, vram_gb); ("max_context_window_tokens" : jstr, max_context);
       ("available_context_tokens_per_minute" : jstr, available); ("p95_latency_ms" : jstr, latency)]);
    ("price_per_million_context_tokens" : jstr,
       VObj [("amount" : jstr, priceAmount); ("asset" : jstr, VStr profileAsset)]);
    ("service_boundary" : jstr, VObj [
       ("permissionless_discovery" : jstr, VBool true); ("permissionless_settlement" : jstr, VBool true);
       ("centralized_operator_hot_path" : jstr, VBool true);
       ("raw_memory_access_required" : jstr, VBool false); ("decentralization_claim" : jstr, VBool false);
       ("provider_discount_claim" : jstr, VBool false); ("measured_receipt_required" : jstr, VBool true)]);
    ("capacity_ref" : jstr, VStr capacity_ref); ("terms_ref" : jstr, VStr terms_ref)] in
  throw_if not_later expires_at observed_at with RangeError "capacity expires_at must be after observed_at";
  artifact body [] "capacity_profile_hash" "capacity_profile".

(** ** Quotes *)
Definition has_schema (v : jsval) (schema : jstr) : bool := is_record v && (vget v "schema" === VStr schema).

(** [o.a.b] on an object [o]. *)
Definition get2 (o : jsval) (a b : jstr) : res jsval := getx (vget o a) b.

(** What a capacity profile adds to the body of a quote. *)
Definition quote_capacity (body : obj) (capacityProfile : jsval) (serviceKind operator_id quoteAsset : jstr) : res obj :=
  match capacityProfile with
  | VNull => Ok body
  | _ =>
      throw_if negb (has_schema capacityProfile CONSUMER_GPU_CAPACITY_PROFILE_SCHEMA)
        with TypeError "capacity_profile must be an Enigma consumer GPU capacity profile";
      throw_if negb (serviceKind =s= "memory_optimizer")
        with TypeError "capacity_profile quotes must use service_kind memory_optimizer";
      throw_if vget capacityProfile "operator_id" !== VStr operator_id
        with TypeError "capacity_profile operator must match quote operator";
      let! a := get2 capacityProfile "price_per_million_context_tokens" "asset" in
      throw_if a !== VStr quoteAsset with TypeError "capacity_profile asset must match quote asset";
      Ok (fset (fset (fset body "capacity_ref" (vget capacityProfile "capacity_ref"))
                 "capacity_profile_hash" (vget capacityProfile "capacity_profile_hash"))
            "consumer_gpu_boundary" (vget capacityProfile "service_boundary"))
  end.

Definition createOperatorServiceQuote (input : jsval) : res jsval :=
  let! o := options_object input "createOperatorServiceQuote" in
  let job := fget o "job" in
  throw_if negb (has_schema job PERMISSIONLESS_MEMORY_JOB_SCHEMA)
    with TypeError "job must be an Enigma permissionless memory job";
  let! serviceKind := accepted ACCEPTED_SERVICE_KINDS (field2 o "service_kind" "serviceKind") "service_kind" in
  let! priceAmount := positiveNumber (field2 o "price_amount" "priceAmount") "price_amount" in
  let! givenAsset := fget o "asset" ??! (fget o "payment_asset" ??! (fget o "paymentAsset" ??!
    get2 job "max_price" "asset")) in
  let! quoteAsset := asset givenAsset "asset" in
  let! jobAsset := get2 job "max_price" "asset" in
  throw_if VStr quoteAsset !== jobAsset with TypeError "quote asset must match job max_price asset";
  let! jobAmount := get2 job "max_price" "amount" in
  let! above := less_than jobAmount priceAmount in
  throw_if above with RangeError "quote price exceeds job max_price";
  let capacityProfile := fget o "capacity_profile" ?? fget o "capacityProfile" ?? VNull in
  let! operator_id := requiredString (field2 o "operator_id" "operatorId") "operator_id" in
  let! quoted_at := isoTimestamp (field2 o "quoted_at" "quotedAt") "quoted_at" VUndef in
  let! expires_at := isoTimestamp (field2 o "expires_at" "expiresAt") "expires_at" (vget job "expires_at") in
  let! capacity_ref :=
    (if truthy capacityProfile then requiredString (vget capacityProfile "capacity_ref") "capacity_profile.capacity_ref"
     else requiredString (field2 o "capacity_ref" "capacityRef") "capacity_ref") in
  let! terms_ref := requiredString (field2 o "terms_ref" "termsRef") "terms_ref" in
  let body := [
    ("schema" : jstr, VStr OPERATOR_SERVICE_QUOTE_SCHEMA);
    ("product_thesis" : jstr, VStr SETTLEMENT_PRODUCT_THESIS);
    ("job_id" : jstr, vget job "job_id"); ("job_hash" : jstr, vget job "job_hash");
    ("tenant_id" : jstr, vget job "tenant_id"); ("operator_id" : jstr, VStr operator_id);
    ("service_kind" : jstr, VStr serviceKind); ("quoted_at" : jstr, quoted_at);
    ("expires_at" : jstr, expires_at);
    ("price" : jstr, VObj [("amount" : jstr, priceAmount); ("asset" : jstr, VStr quoteAsset)]);
    ("capacity_ref" : jstr, VStr capacity_ref); ("terms_ref" : jstr, VStr terms_ref);
    ("accountability_boundary" : jstr, VObj [
       ("service_receipt_required" : jstr, VBool true); ("raw_memory_access_required" : jstr, VBool false);
       ("operator_controls_hot_path" : jstr, VBool false); ("token_profit_claim" : jstr, VBool false)])] in
  let! body' := quote_capacity body capacityProfile serviceKind operator_id quoteAsset in
  throw_if not_later expires_at quoted_at with RangeError "quote expires_at must be after quoted_at";
  let! id := quoteIdFrom (VObj body') in
  artifact body' [("quote_id" : jstr, VStr id)] "quote_hash" "quote".

(** ** Settlement receipts *)
Definition RECEIPT_BOUNDARY : obj :=
  [("permissionless_access" : jstr, VBool true); ("raw_memory_on_chain" : jstr, VBool false);
   ("raw_memory_in_receipt" : jstr, VBool false); ("provider_invoice_savings_claim" : jstr, VBool false);
   ("token_roi_claim" : jstr, VBool false); ("token_profit_claim" : jstr, VBool false);
   ("model_forgetting_claim" : jstr, VBool false); ("provider_deletion_claim" : jstr, VBool false)].

Definition createServiceSettlementReceipt (input : jsval) : res jsval :=
  let! o := options_object input "createServiceSettlementReceipt" in
  let job := fget o "job" in
  let quote := fget o "quote" in
  throw_if negb (has_schema job PERMISSIONLESS_MEMORY_JOB_SCHEMA)
    with TypeError "job must be an Enigma permissionless memory job";
  throw_if negb (has_schema quote OPERATOR_SERVICE_QUOTE_SCHEMA)
    with TypeError "quote must be an Enigma operator service quote";
  throw_if (vget quote "job_hash" !== vget job "job_hash") || (vget quote "job_id" !== vget job "job_id")
    with TypeError "quote must reference job";
  let! given := fget o "settled_amount" ??! (fget o "settledAmount" ??! get2 quote "price" "amount") in
  let! settledAmount := nonNegativeNumber given "settled_amount" in
  let! quoted := get2 quote "price" "amount" in
  let! above := less_than quoted settledAmount in
  throw_if above with RangeError "settled_amount exceeds quoted price";
  let! completed_at := isoTimestamp (field2 o "completed_at" "completedAt") "completed_at" VUndef in
  let! settled_asset := get2 quote "price" "asset" in
  let! settlement_ref := requiredString (field2 o "settlement_ref" "settlementRef") "settlement_ref" in
  let! service_receipt_ref := requiredString (field2 o "service_receipt_ref" "serviceReceiptRef")
    "service_receipt_ref" in
  let body := [
    ("schema" : jstr, VStr SERVICE_SETTLEMENT_RECEIPT_SCHEMA);
    ("product_thesis" : jstr, VStr SETTLEMENT_PRODUCT_THESIS);
    ("job_id" : jstr, vget job "job_id"); ("job_hash" : jstr, vget job "job_hash");
    ("quote_id" : jstr, vget quote "quote_id"); ("quote_hash" : jstr, vget quote "quote_hash");
    ("tenant_id" : jstr, vget job "tenant_id"); ("operator_id" : jstr, vget quote "operator_id");
    ("service_kind" : jstr, vget quote "service_kind"); ("completed_at" : jstr, completed_at);
    ("usage_event_hash" : jstr, vget job "usage_event_hash");
    ("memory_commitment_root" : jstr, vget job "memory_commitment_root");
    ("policy_hash" : jstr, vget job "policy_hash");
    ("settled_price" : jstr, VObj [("amount" : jstr, settledAmount); ("asset" : jstr, settled_asset)]);
    ("settlement_ref" : jstr, VStr settlement_ref); ("service_receipt_ref" : jstr, VStr service_receipt_ref);
    ("settlement_boundary" : jstr, VObj RECEIPT_BOUNDARY)] in
  let! id := receiptIdFrom (VObj body) in
  artifact body [("settlement_receipt_id" : jstr, VStr id)] "settlement_receipt_hash" "receipt".

Definition mismatch (a b : jsval) (message : string) : list jstr :=
  if a === b then [] else [message : jstr].

(** The checks of a receipt against its job and quote once the schemas are right. *)
Definition receipt_errors (job quote receipt : jsval) : res (list jstr) :=
  let! receipt_asset := get2 receipt "settled_price" "asset" in
  let! quote_asset := get2 quote "price" "asset" in
  let! receipt_amount := get2 receipt "settled_price" "amount" in
  let! quote_amount := get2 quote "price" "amount" in
  let! above := less_than quote_amount receipt_amount in
  let boundary := vget receipt "settlement_boundary" in
  let body := VObj (fdelete (fdelete (spread_of receipt) "settlement_receipt_id") "settlement_receipt_hash") in
  let! id := receiptIdFrom body in
  let! hash := digest body in
  Ok ((if (vget receipt "job_hash" === vget job "job_hash") && (vget receipt "job_id" === vget job "job_id")
       then [] else ["receipt job reference mismatch" : jstr])
      ++ (if (vget receipt "quote_hash" === vget quote "quote_hash") && (vget receipt "quote_id" === vget quote "quote_id")
          then [] else ["receipt quote reference mismatch" : jstr])
      ++ (if (vget quote "job_hash" === vget job "job_hash") && (vget quote "job_id" === vget job "job_id")
          then [] else ["quote job reference mismatch" : jstr])
      ++ mismatch (vget receipt "usage_event_hash") (vget job "usage_event_hash") "usage event reference mismatch"
      ++ mismatch (vget receipt "memory_commitment_root") (vget job "memory_commitment_root")
           "memory commitment reference mismatch"
      ++ mismatch (vget receipt "policy_hash") (vget job "policy_hash") "policy hash reference mismatch"
      ++ mismatch receipt_asset quote_asset "settlement asset mismatch"
      ++ (if above then ["settlement amount exceeds quote" : jstr] else [])
      ++ mismatch (vget boundary "raw_memory_on_chain") (VBool false) "receipt must not put raw memory on-chain"
      ++ mismatch (vget boundary "token_roi_claim") (VBool false) "receipt must not claim token ROI"
      ++ mismatch (vget receipt "settlement_receipt_id") (VStr id) "settlement receipt id mismatch"
      ++ mismatch (vget receipt "settlement_receipt_hash") (VStr hash) "settlement receipt hash mismatch").

Definition schema_error (v : jsval) (schema : jstr) (message : string) : list jstr :=
  if has_schema v schema then [] else [message : jstr].

Definition verifyServiceSettlementReceipt (input : jsval) : res verification :=
  let value := if is_undef input then VObj [] else input in
  let! job := getx value "job" in
  let quote := vget value "quote" in
  let receipt := vget value "receipt" in
  let errors :=
    match assertNoSensitivePayload value "verification" with Ok _ => [] | Throw e => [exn_message e] end
    ++ schema_error job PERMISSIONLESS_MEMORY_JOB_SCHEMA "job schema mismatch"
    ++ schema_error quote OPERATOR_SERVICE_QUOTE_SCHEMA "quote schema mismatch"
    ++ schema_error receipt SERVICE_SETTLEMENT_RECEIPT_SCHEMA "receipt schema mismatch" in
  match errors with
  | [] => let! errors' := receipt_errors job quote receipt in Ok (verificationResult errors')
  | _ => Ok (verificationResult errors)
  end.

(** ** Batches *)

(** A map with values as keys. *)
Fixpoint totals_get (totals : list (jsval * jsval)) (key : jsval) : jsval :=
  match totals with
  | [] => VUndef
  | (k, v) :: totals' => if same_value_zero k key then v else totals_get totals' key
  end.

Fixpoint totals_set (totals : list (jsval * jsval)) (key value : jsval) : list (jsval * jsval) :=
  match totals with
  | [] => [(key, value)]
  | (k, v) :: totals' =>
      if same_value_zero k key then (k, value) :: totals' else (k, v) :: totals_set totals' key value
  end.

(** One turn of the loop: the total and the totals of the operators. *)
Definition add_receipt (assetName : jstr) (index : nat) (state : jsval * list (jsval * jsval)) (receipt : jsval)
    : res (jsval * list (jsval * jsval)) :=
  let '(total, operatorTotals) := state in
  let path := "receipts[" +s+ nat_str index +s+ "]" in
  throw_if negb (has_schema receipt SERVICE_SETTLEMENT_RECEIPT_SCHEMA)
    with TypeError (path +s+ " must be a service settlement receipt");
  let! _ := assertNoSensitivePayload receipt path in
  let! a := get2 receipt "settled_price" "asset" in
  throw_if a !== VStr assetName with TypeError "all receipts must use the batch asset";
  let! amount := get2 receipt "settled_price" "amount" in
  let! total' := plus total amount in
  let operator := vget receipt "operator_id" in
  let! sum := plus (totals_get operatorTotals operator ?? vint 0) amount in
  Ok (total', totals_set operatorTotals operator sum).

Fixpoint add_receipts (assetName : jstr) (index : nat) (state : jsval * list (jsval * jsval)) (receipts : list jsval)
    : res (jsval * list (jsval * jsval)) :=
  match receipts with
  | [] => Ok state
  | r :: receipts' =>
      let! state' := add_receipt assetName index state (elem r) in add_receipts assetName (S index) state' receipts'
  end.

(** A stable sort by [a.operator_id.localeCompare(b.operator_id)]. *)
Fixpoint operator_insert (t : jsval * jsval) (l : list (jsval * jsval)) : list (jsval * jsval) :=
  match l with
  | [] => [t]
  | u :: l' => if locale_leb (str_of t.1) (str_of u.1) then t :: l else u :: operator_insert t l'
  end.

(** With two operators or more every identifier is compared and has to be a text. *)
Definition sorted_totals (totals : list (jsval * jsval)) : res (list (jsval * jsval)) :=
  throw_if (1 <? length totals)%nat && negb (forallb (λ t : jsval * jsval, is_string t.1) totals)
    with TypeError "localeCompare is not a function";
  Ok (foldr operator_insert [] totals).

Definition BATCH_CLAIM_BOUNDARY : list jsval :=
  [vstr "Settlement batches aggregate service receipts only; they are not investment, profit, yield, equity, or provider invoice evidence.";
   vstr "Permissionless access means open job submission/settlement boundary, not decentralized raw-memory inference.";
   vstr "Raw memory, prompts, transcripts, provider responses, credentials, keys, seed phrases, and decrypted content are forbidden in settlement artifacts."].

Definition createSettlementBatch (input : jsval) : res jsval :=
  let! o := options_object input "createSettlementBatch" in
  let receipts := items_of (fget o "receipts") in
  throw_if (length receipts =? 0)%nat with TypeError "receipts must be non-empty";
  let first := elem (hd VUndef receipts) in
  let! assetName := asset (fget o "asset" ?? vget (vget first "settled_price") "asset") "asset" in
  let! state := add_receipts assetName 0 (vint 0, []) receipts in
  let! generated_at := isoTimestamp (field2 o "generated_at" "generatedAt") "generated_at" VUndef in
  let! batch_ref := requiredString (field2 o "batch_ref" "batchRef") "batch_ref" in
  let! operators := sorted_totals state.2 in
  let body := [
    ("schema" : jstr, VStr SETTLEMENT_BATCH_SCHEMA);
    ("product_thesis" : jstr, VStr SETTLEMENT_PRODUCT_THESIS);
    ("generated_at" : jstr, generated_at); ("batch_ref" : jstr, VStr batch_ref);
    ("asset" : jstr, VStr assetName); ("receipt_count" : jstr, vnat (length receipts));
    ("receipt_hashes" : jstr, VArr (map (λ r, vget r "settlement_receipt_hash") receipts));
    ("total_settled_amount" : jstr, state.1);
    ("operator_totals" : jstr, VArr (map (λ t : jsval * jsval, VObj [
       ("operator_id" : jstr, t.1); ("amount" : jstr, t.2); ("asset" : jstr, VStr assetName)]) operators));
    ("claim_boundary" : jstr, VArr BATCH_CLAIM_BOUNDARY)] in
  let! id := batchIdFrom (VObj body) in
  artifact body [("batch_id" : jstr, VStr id)] "batch_hash" "batch".
End settlement.
