(* ===== verification/SettlementSafety.v ===== *)
(** * What settlement guarantees

    A receipt created for a quote of a job verifies and never settles more than the job
    allows; the totals of a batch add up.  Verification, however, does not recompute the
    hashes of the job and the quote. *)

From S2P Require Import Prelude JsValue Objects Doubles Regex Canonical Hashing Dates VaultPublic Vault Samples MapFacts VaultBundle VaultSafety Settlement.

(** ** Where a pattern avoids a character *)
Fixpoint re_avoids (c : N) (r : re) : bool :=
  match r with
  | RNone | REps => true
  | RCls neg ranges => negb (cls_match neg ranges c)
  | RSeq r1 r2 | RAlt r1 r2 => re_avoids c r1 && re_avoids c r2
  | RStar r1 => re_avoids c r1
  end.

Lemma avoids_lang c r s : re_avoids c r = true -> re_lang r s -> c ∉ s.
Proof.
  intros Ha H.
  induction H as [|neg rs d Hd|r1 r2 s1 s2 _ IH1 _ IH2|r1 r2 s _ IH|r1 r2 s _ IH|r|r s1 s2 _ IH1 _ IH2];
    cbn [re_avoids] in Ha; rewrite ?andb_true_iff in Ha; rewrite ?not_elem_of_app; try naive_solver;
    try apply not_elem_of_nil.
  rewrite list_elem_of_singleton. intros ->. by rewrite Hd in Ha.
Qed.

Lemma re_suffix_spec r s : re_suffix r s = true <-> exists a b, s = a ++ b /\ re_lang r b.
Proof.
  induction s as [|c s IH]; cbn [re_suffix]; rewrite orb_true_iff, re_full_spec.
  - split; [intros [H|]; [by exists [], []|done]|]. intros (a & b & Hab & H). symmetry in Hab.
    apply app_nil in Hab as [-> ->]. by left.
  - rewrite IH. split.
    + intros [H|(a & b & -> & H)]; [by exists [], (c :: s)|by exists (c :: a), b].
    + intros ([|c' a] & b & Hab & H); [left; by rewrite Hab|]. injection Hab as <- ->. right. by exists a, b.
Qed.

(** ** The scan depends on a path only after its first dot *)
Lemma thesis_path_suffix p rest : is_thesis_path (p ++ 46%N :: rest) = is_thesis_path (46%N :: rest).
Proof.
  apply eq_bool_prop_intro. unfold is_thesis_path. rewrite !Is_true_true, !re_suffix_spec.
  set (r := rseqs _). assert (forall b, re_lang r b -> exists b', b = 46%N :: b' /\ 46%N ∉ b') as Hr.
  { intros b Hb. unfold r, rseqs in Hb. cbn [foldr] in Hb. rewrite lang_rlit_seq in Hb.
    destruct Hb as (b' & -> & Hb'). exists b'. split; [done|]. eapply avoids_lang; [|exact Hb']. vm_compute. reflexivity. }
  split.
  - intros (a & b & Hab & Hb). destruct (Hr _ Hb) as (b' & -> & Hn).
    destruct (decide (length a < length p)) as [Hlt|Hge].
    + exfalso. apply Hn. assert (drop (length a) (p ++ 46%N :: rest) = 46%N :: b') as Hd by (rewrite Hab; apply drop_app_length).
      rewrite drop_app_le in Hd by lia. destruct (drop (length a) p) as [|c d] eqn:Ed.
      { apply (f_equal length) in Ed. rewrite length_drop in Ed. cbn in Ed. lia. }
      injection Hd as _ <-. apply elem_of_app. right. by left.
    + exists (drop (length p) a), (46%N :: b'). split; [|done].
      assert (drop (length p) (p ++ 46%N :: rest) = drop (length p) (a ++ 46%N :: b')) as Hd by by rewrite Hab.
      rewrite drop_app_length in Hd. rewrite drop_app_le in Hd by lia. done.
  - intros (a & b & Hab & Hb). exists (p ++ a), b. by rewrite <- app_assoc, <- Hab.
Qed.

(** [assertNoSensitivePayload] on the fields of an object and the items of an array. *)
Definition field_ok (path : jstr) (kv : jstr * jsval) : Prop :=
  is_forbidden_key kv.1 && negb (mem_str kv.1 SAFE_FIELD_NAMES) = false /\
  assertNoSensitivePayload kv.2 (path +s+ "." +s+ kv.1) = Ok tt.

Lemma scan_fields_ok path fields :
  (assertNoSensitivePayload (VObj fields) path = Ok tt <-> Forall (field_ok path) fields) /\
  forall t, assertNoSensitivePayload (VInst t fields) path = assertNoSensitivePayload (VObj fields) path.
Proof.
  split; [|reflexivity]. cbn [assertNoSensitivePayload]. induction fields as [|kv fields IH]; [done|].
  rewrite Forall_cons, <- IH. unfold field_ok. destruct (is_forbidden_key kv.1 && _); [split; [done|intros [[? _] _]; done]|].
  rewrite res_bind_ok. split; [intros ([] & ? & ?)|intros [[_ ?] ?]; exists tt]; auto.
Qed.

Lemma scan_items_ok path items :
  assertNoSensitivePayload (VArr items) path = Ok tt <->
  forall i x, items !! i = Some x -> assertNoSensitivePayload x (path +s+ "[" +s+ nat_str i +s+ "]") = Ok tt.
Proof.
  cbn [assertNoSensitivePayload].
  enough (forall k, (fix go (index : nat) (items : list jsval) : res unit :=
         match items with
         | [] => Ok tt
         | item :: items' =>
             let! _ := assertNoSensitivePayload item (path +s+ "[" +s+ nat_str index +s+ "]") in go (S index) items'
         end) k items = Ok tt <->
    forall i x, items !! i = Some x -> assertNoSensitivePayload x (path +s+ "[" +s+ nat_str (k + i) +s+ "]") = Ok tt) as H
    by apply (H 0%nat).
  induction items as [|y items IH]; intros k; [done|]. rewrite res_bind_ok. split.
  - intros ([] & Hy & H) [|i] x Hx; cbn in Hx.
    + injection Hx as <-. by rewrite Nat.add_0_r.
    + rewrite Nat.add_succ_r. by apply (proj1 (IH (S k)) H).
  - intros H. exists tt. split; [specialize (H 0%nat y eq_refl); by rewrite Nat.add_0_r in H|].
    apply IH. intros i x Hx. specialize (H (S i) x Hx). by rewrite Nat.add_succ_r in H.
Qed.

(** Below a dot, the rest of the path does not matter. *)
Lemma scan_path_dot v p p' rest :
  assertNoSensitivePayload v (p ++ 46%N :: rest) = Ok tt -> assertNoSensitivePayload v (p' ++ 46%N :: rest) = Ok tt.
Proof.
  revert rest. induction v as [| |b|n|s| |l IH|fs IH|t fs IH|fs IH|l IH|t b|k t] using jsval_ind; intros rest; try done.
  - cbn [assertNoSensitivePayload]. rewrite !thesis_path_suffix. by destruct (negb _ && _).
  - rewrite !scan_items_ok. intros H i x Hx. specialize (H i x Hx).
    rewrite <- !app_assoc in *. cbn [app] in *. rewrite Forall_lookup in IH. by apply (IH i x Hx).
  - rewrite !(proj1 (scan_fields_ok _ _)), !Forall_forall in *. intros H kv Hkv. destruct (H kv Hkv) as [Hf Hs].
    split; [done|]. rewrite <- !app_assoc in *. cbn [app] in *. by apply (IH kv Hkv).
  - rewrite !(proj2 (scan_fields_ok _ _)), !(proj1 (scan_fields_ok _ _)), !Forall_forall in *.
    intros H kv Hkv. destruct (H kv Hkv) as [Hf Hs].
    split; [done|]. rewrite <- !app_assoc in *. cbn [app] in *. by apply (IH kv Hkv).
Qed.

Lemma scan_path_record v p p' :
  is_record v = true -> assertNoSensitivePayload v p = Ok tt -> assertNoSensitivePayload v p' = Ok tt.
Proof.
  assert (forall fs, assertNoSensitivePayload (VObj fs) p = Ok tt -> assertNoSensitivePayload (VObj fs) p' = Ok tt) as Hobj.
  { intros fs. rewrite !(proj1 (scan_fields_ok _ _)), !Forall_forall. intros H kv Hkv. destruct (H kv Hkv) as [Hf Hs].
    split; [done|]. by apply (scan_path_dot _ p p'). }
  destruct v; try done; intros _; [apply Hobj|]. rewrite !(proj2 (scan_fields_ok _ _)). apply Hobj.
Qed.

Lemma scan_field fs k p :
  assertNoSensitivePayload (VObj fs) p = Ok tt -> is_record (fget fs k) = true ->
  forall p', assertNoSensitivePayload (fget fs k) p' = Ok tt.
Proof.
  rewrite (proj1 (scan_fields_ok _ _)). induction 1 as [|[k' v] fs [_ Hv] _ IH]; [done|]. cbn [fget].
  destruct (k' =s= k); [|exact IH]. intros Hr p'. by eapply scan_path_record.
Qed.

(** ** The order of numbers *)
Lemma dec_ltb_at e m1 e1 m2 e2 :
  (e <= e1)%Z -> (e <= e2)%Z -> dec_ltb (m1, e1) (m2, e2) = (m1 * 10 ^ (e1 - e) <? m2 * 10 ^ (e2 - e))%Z.
Proof.
  intros H1 H2. unfold dec_ltb. cbn [fst snd]. set (e0 := Z.min e1 e2).
  replace (e1 - e)%Z with ((e1 - e0) + (e0 - e))%Z by lia. replace (e2 - e)%Z with ((e2 - e0) + (e0 - e))%Z by lia.
  rewrite !Z.pow_add_r, !Z.mul_assoc by lia. pose proof (Z.pow_pos_nonneg 10 (e0 - e) ltac:(lia) ltac:(lia)) as Hp.
  apply eq_bool_prop_intro. rewrite !Is_true_true, !Z.ltb_lt. apply Z.mul_lt_mono_pos_r. exact Hp.
Qed.

Lemma num_ltb_finite a b :
  num_is_finite a = true -> num_is_finite b = true -> num_ltb a b = dec_ltb (num_decimal a) (num_decimal b).
Proof. by destruct a, b. Qed.

(** [a <= b] and [b <= c] give [a <= c] on finite numbers. *)
Lemma num_le_trans a b c :
  num_is_finite a = true -> num_is_finite b = true -> num_is_finite c = true ->
  num_ltb b a = false -> num_ltb c b = false -> num_ltb c a = false.
Proof.
  intros Ha Hb Hc. rewrite !num_ltb_finite by done.
  destruct (num_decimal a) as [ma ea], (num_decimal b) as [mb eb], (num_decimal c) as [mc ec].
  set (e := Z.min ea (Z.min eb ec)). rewrite !(dec_ltb_at e) by lia. rewrite !Z.ltb_ge. lia.
Qed.

Section flow.
Context {C : Crypto} {Hst : Host} {Loc : Locale} {P : Platform}.

(** ** Artifacts *)

Lemma artifact_ok body extra hash path m :
  artifact body extra hash path = Ok m -> appended_keys (keys body) (keys extra ++ [hash]) = true ->
  exists d, digest (VObj body) = Ok d /\ m = VObj (body ++ extra ++ [(hash, VStr d)]) /\
    assertNoSensitivePayload m path = Ok tt.
Proof.
  unfold artifact. intros H Hk. apply res_bind_ok in H as (d & Hd & H). apply res_bind_ok in H as ([] & Hs & H).
  apply Ok_inj in H as <-. exists d. rewrite spread_append in * by by rewrite keys_app. done.
Qed.

Lemma options_object_ok fields name o :
  options_object (VObj fields) name = Ok o -> o = fields /\ assertNoSensitivePayload (VObj fields) "input" = Ok tt.
Proof.
  unfold options_object. cbn [is_undef is_record negb own_fields]. intros H. apply res_bind_ok in H as ([] & Hs & H).
  apply Ok_inj in H as <-. auto.
Qed.

Lemma same_string v : is_string v = true -> (v === v) = true.
Proof. destruct v; try done. intros _. apply str_eqb_refl. Qed.

Lemma mismatch_same v message : is_string v = true -> mismatch v v message = [].
Proof. intros H. unfold mismatch. by rewrite same_string. Qed.

Lemma seq_refl_r a b : (a === b) = true -> (b === b) = true.
Proof.
  destruct a, b; cbn [seq]; try done; intros H.
  - apply Bool.eqb_reflx.
  - destruct n0 as [[]| | | |]; try by apply bool_decide_eq_true. by destruct n as [[]| | | |].
  - apply str_eqb_refl.
  - apply andb_true_iff. split; [by apply bool_decide_eq_true|apply str_eqb_refl].
Qed.

(** The fields of a job and a quote that a receipt repeats are texts. *)
Record text_fields (job quote : jsval) : Prop := {
  tf_job : Forall (λ k : string, is_string (vget job k) = true)
             ["usage_event_hash"%string; "memory_commitment_root"%string; "policy_hash"%string];
  tf_quote : Forall (λ k : string, is_string (vget quote k) = true) ["quote_hash"%string; "quote_id"%string];
  tf_asset : is_string (vget (vget quote "price") "asset") = true
}.

Definition verification_input (job quote receipt : jsval) : jsval :=
  VObj [("job" : jstr, job); ("quote" : jstr, quote); ("receipt" : jstr, receipt)].

Lemma has_schema_record v schema : negb (has_schema v schema) = false -> is_record v = true.
Proof. unfold has_schema. by destruct (is_record v). Qed.

Lemma verification_scan job quote receipt p :
  assertNoSensitivePayload job (p +s+ ".job") = Ok tt -> assertNoSensitivePayload quote (p +s+ ".quote") = Ok tt ->
  assertNoSensitivePayload receipt (p +s+ ".receipt") = Ok tt ->
  assertNoSensitivePayload (verification_input job quote receipt) p = Ok tt.
Proof.
  intros. apply scan_fields_ok. repeat constructor; cbn [fst snd]; try assumption; vm_compute; reflexivity.
Qed.

Lemma verify_checked job quote receipt :
  has_schema job PERMISSIONLESS_MEMORY_JOB_SCHEMA = true -> has_schema quote OPERATOR_SERVICE_QUOTE_SCHEMA = true ->
  has_schema receipt SERVICE_SETTLEMENT_RECEIPT_SCHEMA = true ->
  assertNoSensitivePayload (verification_input job quote receipt) "verification" = Ok tt ->
  verifyServiceSettlementReceipt (verification_input job quote receipt) =
    let! errors := receipt_errors job quote receipt in Ok (verificationResult errors).
Proof.
  intros Hj Hq Hr Hs. unfold verifyServiceSettlementReceipt.
  change (if is_undef (verification_input job quote receipt) then VObj [] else verification_input job quote receipt)
    with (verification_input job quote receipt). cbn zeta.
  change (getx (verification_input job quote receipt) "job") with (Ok job). cbn [res_bind].
  change (vget (verification_input job quote receipt) "quote") with quote.
  change (vget (verification_input job quote receipt) "receipt") with receipt.
  unfold schema_error. rewrite Hs, Hj, Hq, Hr. reflexivity.
Qed.

Lemma get2_ok o a b v : get2 o a b = Ok v -> v = vget (vget o a) b.
Proof. unfold get2, getx. destruct (vget o a); try done; by intros <-%Ok_inj. Qed.

Lemma receipt_errors_nil job quote receipt body asset amount quoted id d :
  get2 receipt "settled_price" "asset" = Ok asset -> get2 quote "price" "asset" = Ok asset ->
  get2 receipt "settled_price" "amount" = Ok amount -> get2 quote "price" "amount" = Ok quoted ->
  less_than quoted amount = Ok false ->
  fdelete (fdelete (spread_of receipt) "settlement_receipt_id") "settlement_receipt_hash" = body ->
  receiptIdFrom (VObj body) = Ok id -> digest (VObj body) = Ok d ->
  (vget quote "job_hash" === vget job "job_hash") = true -> (vget quote "job_id" === vget job "job_id") = true ->
  vget receipt "settlement_boundary" = VObj RECEIPT_BOUNDARY ->
  vget receipt "settlement_receipt_id" = VStr id -> vget receipt "settlement_receipt_hash" = VStr d ->
  Forall (λ k : string, vget receipt k = vget job k)
    ["job_hash"%string; "job_id"%string; "usage_event_hash"%string; "memory_commitment_root"%string; "policy_hash"%string] ->
  Forall (λ k : string, vget receipt k = vget quote k) ["quote_hash"%string; "quote_id"%string] ->
  text_fields job quote -> receipt_errors job quote receipt = Ok [].
Proof.
  intros Ha Hqa Hm Hqm Hl Hbody Hid Hd Hjh Hji Hb Hrid Hrd Hrj Hrq [Htj Htq Hta].
  apply Forall_cons in Hrj as [E1 [E2 [E3 [E4 [E5 _]%Forall_cons]%Forall_cons]%Forall_cons]%Forall_cons].
  apply Forall_cons in Hrq as [E6 [E7 _]%Forall_cons]. apply Forall_cons in Htq as [T6 [T7 _]%Forall_cons].
  apply Forall_cons in Htj as [T3 [T4 [T5 _]%Forall_cons]%Forall_cons].
  unfold receipt_errors. rewrite Ha, Hqa, Hm, Hqm, Hbody. cbn [res_bind]. rewrite Hl, Hid, Hd. cbn [res_bind].
  rewrite E1, E2, E3, E4, E5, E6, E7, Hb, Hrid, Hrd, Hjh, Hji, (seq_refl_r _ _ Hjh), (seq_refl_r _ _ Hji).
  assert (is_string asset = true) as Tas by (rewrite (get2_ok _ _ _ _ Hqa); exact Hta).
  rewrite !same_string, !mismatch_same by (assumption || apply str_eqb_refl || reflexivity). unfold mismatch. cbn [seq].
  rewrite !str_eqb_refl. vm_compute. reflexivity.
Qed.

Lemma receipt_verifies ri receipt :
  createServiceSettlementReceipt (VObj ri) = Ok receipt -> text_fields (fget ri "job") (fget ri "quote") ->
  verifyServiceSettlementReceipt (verification_input (fget ri "job") (fget ri "quote") receipt) =
    Ok (verificationResult []).
Proof.
  unfold createServiceSettlementReceipt. intros H [Hjob Hquote Hasset].
  apply res_bind_ok in H as (o & Ho & H). apply options_object_ok in Ho as [-> Hscan]. cbn zeta in H.
  set (job := fget ri "job") in *. set (quote := fget ri "quote") in *. inv_res.
  match goal with E : artifact _ _ _ _ = Ok _ |- _ => apply artifact_ok in E; [|vm_compute; reflexivity] end.
  destruct H as (d & Hd & Hr & Hrs).
  match goal with E : negb (has_schema job _) = false, F : negb (has_schema quote _) = false |- _ =>
    pose proof (has_schema_record _ _ E) as Hjr; pose proof (has_schema_record _ _ F) as Hqr;
    apply negb_false_iff in E, F; rewrite verify_checked; [|exact E|exact F|by rewrite Hr|] end.
  2: { apply verification_scan; [by apply (scan_field _ _ _ Hscan)|by apply (scan_field _ _ _ Hscan)|].
       eapply scan_path_record; [|exact Hrs]. by rewrite Hr. }
  enough (receipt_errors job quote receipt = Ok []) as -> by done.
  match goal with H : get2 quote _ _ = Ok ?a, H' : get2 quote _ _ = Ok ?b |- _ => rename H into Hqa, H' into Hqb end.
  match goal with H : _ || _ = false |- _ => apply orb_false_iff in H as [Hjh%negb_false_iff Hji%negb_false_iff] end.
  rewrite Hr. eapply receipt_errors_nil with (body := _);
    [reflexivity|eassumption|reflexivity|eassumption|eassumption|vm_compute; reflexivity|eassumption|exact Hd|exact Hjh|exact Hji|reflexivity|reflexivity|reflexivity|repeat constructor|repeat constructor|by split].
Qed.

(** ** Jobs and quotes that were created *)
Definition price (amount : jsnum) (asset : jstr) : jsval :=
  VObj [("amount" : jstr, VNum amount); ("asset" : jstr, VStr asset)].

Lemma positiveNumber_ok v field w : positiveNumber v field = Ok w -> exists n, w = VNum n /\ num_is_finite n = true.
Proof.
  unfold positiveNumber. intros H. inv_res. subst. eexists. split; [reflexivity|].
  match goal with E : _ || _ = false |- _ => by apply orb_false_iff in E as [?%negb_false_iff _] end.
Qed.

Lemma nonNegativeNumber_ok v field w : nonNegativeNumber v field = Ok w -> exists n, w = VNum n /\ num_is_finite n = true.
Proof.
  unfold nonNegativeNumber. intros H. inv_res. subst. eexists. split; [reflexivity|].
  match goal with E : _ || _ = false |- _ => by apply orb_false_iff in E as [?%negb_false_iff _] end.
Qed.

Lemma job_created ji job :
  createPermissionlessMemoryJob (VObj ji) = Ok job ->
  Forall (λ k : string, is_string (vget job k) = true)
    ["usage_event_hash"%string; "memory_commitment_root"%string; "policy_hash"%string] /\
  exists n a, vget job "max_price" = price n a /\ num_is_finite n = true.
Proof.
  unfold createPermissionlessMemoryJob. intros H. apply res_bind_ok in H as (o & Ho & H).
  apply options_object_ok in Ho as [-> _]. cbn zeta in H. inv_res.
  match goal with E : positiveNumber _ _ = Ok _ |- _ => apply positiveNumber_ok in E as (n & -> & Hn) end.
  apply artifact_ok in H as (d & _ & -> & _); [|vm_compute; reflexivity].
  split; [repeat constructor|]. eexists n, _. split; [reflexivity|done].
Qed.

Lemma quote_capacity_ok body profile kind operator asset body' :
  quote_capacity body profile kind operator asset = Ok body' ->
  body' = body \/
  exists c h b, body' = fset (fset (fset body "capacity_ref" c) "capacity_profile_hash" h) "consumer_gpu_boundary" b.
Proof.
  unfold quote_capacity. intros H. destruct profile; inv_res; subst; eauto.
Qed.

Lemma quote_created qi quote :
  createOperatorServiceQuote (VObj qi) = Ok quote ->
  Forall (λ k : string, is_string (vget quote k) = true) ["quote_hash"%string; "quote_id"%string] /\
  exists n a m, vget quote "price" = price n a /\ num_is_finite n = true /\
    get2 (fget qi "job") "max_price" "amount" = Ok m /\ less_than m (VNum n) = Ok false.
Proof.
  unfold createOperatorServiceQuote. intros H. apply res_bind_ok in H as (o & Ho & H).
  apply options_object_ok in Ho as [-> _]. cbn zeta in H. inv_res.
  match goal with E : positiveNumber _ _ = Ok _ |- _ => apply positiveNumber_ok in E as (n & -> & Hn) end.
  match goal with E : quote_capacity _ _ _ _ _ = Ok _ |- _ => apply quote_capacity_ok in E as [-> |(c & h & b & ->)] end.
  - apply artifact_ok in H as (d & _ & -> & _); [|vm_compute; reflexivity].
    split; [repeat constructor|]. eexists n, _, _. split; [reflexivity|]. subst; eauto.
  - apply artifact_ok in H as (d & _ & -> & _); [|vm_compute; reflexivity].
    split.
    + repeat (apply Forall_cons_2 || apply Forall_nil_2); unfold vget; cbn [own_fields];
        rewrite fget_app_absent by (apply mem_str_false; vm_compute; reflexivity); reflexivity.
    + eexists n, _, _. split; [|subst; eauto]. unfold vget. cbn [own_fields].
      rewrite fget_app_present by (apply mem_str_true; vm_compute; reflexivity). rewrite !fget_fset. simp_str. reflexivity.
Qed.

(** The options of a quote name the job, those of a receipt the job and the quote. *)
Record flow (ji qi ri : obj) (job quote receipt : jsval) : Prop := {
  fl_job : createPermissionlessMemoryJob (VObj ji) = Ok job;
  fl_quote : createOperatorServiceQuote (VObj qi) = Ok quote;
  fl_quoted : fget qi "job" = job;
  fl_receipt : createServiceSettlementReceipt (VObj ri) = Ok receipt;
  fl_for_job : fget ri "job" = job;
  fl_for_quote : fget ri "quote" = quote
}.

Lemma flow_texts ji qi ri job quote receipt : flow ji qi ri job quote receipt -> text_fields job quote.
Proof.
  intros [Hj Hq _ _ _ _]. destruct (job_created _ _ Hj) as [Ht _], (quote_created _ _ Hq) as (Htq & n & a & m & Hp & _).
  split; [done|done|]. by rewrite Hp.
Qed.

(** A settlement receipt verifies: the receipt that is created for a created quote of a
    created job is accepted by [verifyServiceSettlementReceipt] without an error. *)
Theorem settlement_flow_verifies ji qi ri job quote receipt :
  flow ji qi ri job quote receipt ->
  verifyServiceSettlementReceipt (verification_input job quote receipt) = Ok (verificationResult []).
Proof.
  intros Hf. pose proof (flow_texts _ _ _ _ _ _ Hf) as Ht. destruct Hf as [_ _ _ Hr <- <-].
  by apply receipt_verifies.
Qed.

Lemma receipt_price ri receipt :
  createServiceSettlementReceipt (VObj ri) = Ok receipt ->
  exists n quoted, vget (vget receipt "settled_price") "amount" = VNum n /\ num_is_finite n = true /\
    get2 (fget ri "quote") "price" "amount" = Ok quoted /\ less_than quoted (VNum n) = Ok false.
Proof.
  unfold createServiceSettlementReceipt. intros H. apply res_bind_ok in H as (o & Ho & H).
  apply options_object_ok in Ho as [-> _]. cbn zeta in H. inv_res.
  match goal with E : nonNegativeNumber _ _ = Ok _ |- _ => apply nonNegativeNumber_ok in E as (n & -> & Hn) end.
  apply artifact_ok in H as (d & _ & -> & _); [|vm_compute; reflexivity].
  eexists n, _. split; [reflexivity|]. subst. eauto.
Qed.

(** C25 The settlement of an honest flow is bounded: for a job, a quote and a receipt that the
    package created, the job passed on unchanged to the quote and both to the receipt
    ([flow]), what the receipt settles is at most the quoted price, which is at most the
    maximal price of the job.  A quote whose price was changed on the way is not noticed
    ([forged_quote_price_verifies]). *)
Theorem settlement_flow_bounded ji qi ri job quote receipt :
  flow ji qi ri job quote receipt ->
  exists settled quoted maximal,
    vget (vget receipt "settled_price") "amount" = VNum settled /\ vget (vget quote "price") "amount" = VNum quoted /\
    vget (vget job "max_price") "amount" = VNum maximal /\
    num_ltb quoted settled = false /\ num_ltb maximal quoted = false /\ num_ltb maximal settled = false.
Proof.
  intros [Hj Hq Hqj Hr Hrj Hrq]. destruct (job_created _ _ Hj) as (_ & maximal & a & Hmax & Hfm).
  destruct (quote_created _ _ Hq) as (_ & quoted & a' & m & Hp & Hfq & Hm & Hl1).
  destruct (receipt_price _ _ Hr) as (settled & q & Hs & Hfs & Hqp & Hl2).
  rewrite Hqj in Hm. apply get2_ok in Hm. rewrite Hmax in Hm. change (vget (price maximal a) "amount") with (VNum maximal) in Hm.
  rewrite Hrq in Hqp. apply get2_ok in Hqp. rewrite Hp in Hqp. change (vget (price quoted a') "amount") with (VNum quoted) in Hqp.
  subst m q. unfold less_than in Hl1, Hl2. cbn [prim to_number res_bind] in Hl1, Hl2.
  apply Ok_inj in Hl1, Hl2. exists settled, quoted, maximal. rewrite Hmax, Hp. split_and!; try done.
  by apply (num_le_trans settled quoted maximal).
Qed.

(** Verification looks at the hash a quote carries and not at what it should be: a quote
    whose price was raised after it was made is still settled, and the receipt verifies. *)
Definition with_price (quote : jsval) (amount : jsnum) (asset : jstr) : jsval :=
  VObj (fset (own_fields quote) "price" (price amount asset)).

Theorem forged_quote_price_verifies ji qi job quote ri receipt amount asset :
  createPermissionlessMemoryJob (VObj ji) = Ok job -> createOperatorServiceQuote (VObj qi) = Ok quote ->
  fget ri "job" = job -> fget ri "quote" = with_price quote amount asset ->
  createServiceSettlementReceipt (VObj ri) = Ok receipt ->
  verifyServiceSettlementReceipt (verification_input job (with_price quote amount asset) receipt) =
    Ok (verificationResult []).
Proof.
  intros Hj Hq Hrj Hrq Hr. rewrite <- Hrj, <- Hrq. apply receipt_verifies; [done|]. rewrite Hrj, Hrq.
  destruct (job_created _ _ Hj) as [Ht _], (quote_created _ _ Hq) as (Htq & _). split; [done| |].
  - apply Forall_cons in Htq as [H1 [H2 _]%Forall_cons].
    repeat (apply Forall_cons_2 || apply Forall_nil_2); unfold with_price, vget; cbn [own_fields]; rewrite fget_fset;
      simp_str; [exact H1|exact H2].
  - unfold with_price, vget at 2. cbn [own_fields]. rewrite fget_fset, str_eqb_refl. reflexivity.
Qed.
End flow.

(** ** Batches *)

(** The receipt settles an amount for an operator. *)
Definition settles (receipt : jsval) (oa : jstr * Z) : Prop :=
  vget receipt "operator_id" = VStr oa.1 /\ get2 receipt "settled_price" "amount" = Ok (vint oa.2) /\ (0 <= oa.2)%Z.

Definition total_of (settled : list (jstr * Z)) : Z := foldr (λ oa s, oa.2 + s)%Z 0%Z settled.

Definition operator_total (operator : jstr) (settled : list (jstr * Z)) : Z :=
  foldr (λ oa s, if oa.1 =s= operator then oa.2 + s else s)%Z 0%Z settled.

(** The totals as the loop builds them, in order of first appearance. *)
Definition tally_step (m : list (jstr * Z)) (oa : jstr * Z) : list (jstr * Z) :=
  map_set m oa.1 (default 0%Z (map_get m oa.1) + oa.2)%Z.

Definition tally (settled : list (jstr * Z)) : list (jstr * Z) := foldl tally_step [] settled.

Definition as_total (oz : jstr * Z) : jsval * jsval := (VStr oz.1, vint oz.2).

Lemma totals_get_tally m op : totals_get (map as_total m) (VStr op) = from_option vint VUndef (map_get m op).
Proof.
  induction m as [|[k z] m IH]; [done|]. cbn [map as_total fst snd totals_get map_get].
  change (same_value_zero (VStr k) (VStr op)) with (k =s= op). by destruct (k =s= op).
Qed.

Lemma totals_set_tally m op z : totals_set (map as_total m) (VStr op) (vint z) = map as_total (map_set m op z).
Proof.
  induction m as [|[k z0] m IH]; [done|]. cbn [map as_total fst snd totals_set map_set].
  change (same_value_zero (VStr k) (VStr op)) with (k =s= op). destruct (k =s= op); [done|]. by rewrite IH.
Qed.

Lemma total_of_set m op z : total_of (map_set m op z) = (total_of m - default 0 (map_get m op) + z)%Z.
Proof.
  induction m as [|[k z0] m IH]; cbn [map_set map_get total_of foldr snd]; [cbn; lia|].
  destruct (k =s= op); cbn [total_of foldr snd]; [cbn [from_option id]; lia|]. unfold total_of in IH. rewrite IH. lia.
Qed.

Lemma total_of_nonneg m : Forall (λ oz : jstr * Z, 0 <= oz.2)%Z m -> (0 <= total_of m)%Z.
Proof. induction 1 as [|oz m H _ IH]; cbn; [done|]. unfold total_of in IH. lia. Qed.

Lemma get_le_total m op : Forall (λ oz : jstr * Z, 0 <= oz.2)%Z m -> (0 <= default 0 (map_get m op) <= total_of m)%Z.
Proof.
  induction 1 as [|[k z] m H Hm IH]; cbn [map_get total_of foldr snd]; [done|]. pose proof (total_of_nonneg m Hm) as Ht.
  cbn [snd] in H. unfold total_of in *. destruct (k =s= op); [cbn [from_option id]; lia|]. destruct IH. lia.
Qed.

Lemma tally_step_nonneg m oa :
  Forall (λ oz : jstr * Z, 0 <= oz.2)%Z m -> (0 <= oa.2)%Z -> Forall (λ oz : jstr * Z, 0 <= oz.2)%Z (tally_step m oa).
Proof.
  intros Hm Ha. unfold tally_step. pose proof (get_le_total m oa.1 Hm) as [Hg _].
  generalize (default 0 (map_get m oa.1) + oa.2)%Z (Z.add_nonneg_nonneg _ _ Hg Ha). intros z Hz. clear Hg.
  induction Hm as [|[k z0] m H Hm IH]; cbn [map_set]; [by repeat constructor|]. destruct (k =s= oa.1); by constructor.
Qed.

Lemma total_of_tally m oa : total_of (tally_step m oa) = (total_of m + oa.2)%Z.
Proof. unfold tally_step. rewrite total_of_set. lia. Qed.

Section batch.
Context {C : Crypto} {Hst : Host} {Loc : Locale} {P : Platform}.

Lemma plus_int x y : (Z.abs (x + y) < 2 ^ 53)%Z -> plus (vint x) (vint y) = Ok (vint (x + y)).
Proof.
  intros H. unfold plus, vint. cbn [prim to_number res_bind num_plus]. unfold int_result.
  by rewrite (proj2 (Z.ltb_lt _ _) H).
Qed.

Lemma add_receipt_run assetName k m receipt oa st :
  settles receipt oa -> Forall (λ oz : jstr * Z, 0 <= oz.2)%Z m -> (total_of m + oa.2 < 2 ^ 53)%Z ->
  add_receipt assetName k (vint (total_of m), map as_total m) receipt = Ok st ->
  st = (vint (total_of (tally_step m oa)), map as_total (tally_step m oa)).
Proof.
  intros (Ho & Ha & Hn) Hm Hlt. pose proof (get_le_total m oa.1 Hm) as [Hg1 Hg2]. pose proof (total_of_nonneg m Hm) as Ht.
  unfold add_receipt. rewrite Ha, Ho, totals_get_tally. intros H. inv_res.
  rewrite total_of_tally. unfold tally_step.
  assert ((from_option vint VUndef (map_get m oa.1) ?? vint 0) = vint (default 0%Z (map_get m oa.1))) as Hd
    by by destruct (map_get m oa.1).
  match goal with E1 : plus _ _ = Ok _, E2 : plus (_ ?? _) _ = Ok _ |- _ =>
    rewrite Hd in E2; rewrite plus_int in E1, E2 by lia; apply Ok_inj in E1 as <-; apply Ok_inj in E2 as <- end.
  by rewrite totals_set_tally.
Qed.

Lemma add_receipts_run assetName k m receipts settled st :
  Forall2 settles (map elem receipts) settled -> Forall (λ oz : jstr * Z, 0 <= oz.2)%Z m ->
  (total_of m + total_of settled < 2 ^ 53)%Z ->
  add_receipts assetName k (vint (total_of m), map as_total m) receipts = Ok st ->
  st = (vint (total_of m + total_of settled), map as_total (foldl tally_step m settled)).
Proof.
  revert k m settled. induction receipts as [|r receipts IH]; intros k m settled Hs Hm Hlt H.
  - apply Forall2_nil_inv_l in Hs as ->. cbn in *. apply Ok_inj in H as <-. by rewrite Z.add_0_r.
  - cbn [map] in Hs. apply Forall2_cons_inv_l in Hs as (oa & settled' & Hr & Hs & ->).
    cbn [add_receipts] in H. apply res_bind_ok in H as (st' & H1 & H).
    assert (Forall (λ oz : jstr * Z, 0 <= oz.2)%Z settled') as Hn.
    { clear -Hs. revert Hs. generalize (map elem receipts). intros l H. by induction H as [|? ? ? ? (_ & _ & ?)]; constructor. }
    pose proof (total_of_nonneg _ Hn) as Hn'. change (total_of (oa :: settled')) with (oa.2 + total_of settled')%Z in *.
    destruct Hr as (Ho & Ha & Hoa). apply (add_receipt_run _ _ _ _ oa) in H1 as ->; [|by split|done|lia].
    cbn [foldl]. apply (IH _ (tally_step m oa) settled' Hs) in H as ->; [|by apply tally_step_nonneg|].
    + rewrite total_of_tally. by rewrite Z.add_assoc.
    + rewrite total_of_tally. lia.
Qed.


(** ** What the tally says *)
Lemma map_get_step m oa op :
  map_get (tally_step m oa) op =
  if oa.1 =s= op then Some (default 0 (map_get m op) + oa.2)%Z else map_get m op.
Proof.
  unfold tally_step. rewrite map_get_set. destruct (oa.1 =s= op) eqn:E; [|done]. by apply str_eqb_eq in E as ->.
Qed.

Lemma map_get_tally settled m op :
  map_get (foldl tally_step m settled) op =
  if mem_str op settled.*1 then Some (default 0 (map_get m op) + operator_total op settled)%Z else map_get m op.
Proof.
  revert m. induction settled as [|oa settled IH]; intros m; [done|]. cbn [foldl]. rewrite IH, map_get_step.
  cbn [operator_total foldr]. fold (operator_total op settled). csimpl.
  destruct (oa.1 =s= op) eqn:E.
  - apply str_eqb_eq in E as <-. rewrite (proj2 (mem_str_true oa.1 (oa.1 :: settled.*1))) by by left.
    destruct (mem_str oa.1 settled.*1) eqn:Em; cbn [from_option id]; f_equal; [lia|].
    assert (operator_total oa.1 settled = 0)%Z; [|lia]. apply mem_str_false in Em. clear -Em.
    induction settled as [|[o a] settled IH]; [done|]. csimpl in Em. apply not_elem_of_cons in Em as [Hne Hn].
    cbn [operator_total foldr fst snd]. rewrite (proj2 (str_eqb_neq o oa.1)) by congruence. by apply IH.
  - apply str_eqb_neq in E. destruct (mem_str op settled.*1) eqn:Em.
    + rewrite (proj2 (mem_str_true _ _)); [done|]. right. by apply mem_str_true.
    + rewrite (proj2 (mem_str_false _ _)); [done|]. apply not_elem_of_cons. split; [congruence|by apply mem_str_false].
Qed.

Lemma tally_keys settled m : NoDup m.*1 -> NoDup (foldl tally_step m settled).*1.
Proof.
  revert m. induction settled as [|oa settled IH]; intros m H; [done|]. cbn [foldl]. apply IH.
  unfold tally_step. rewrite map_set_keys. by apply NoDup_set_add.
Qed.

Lemma tally_spec settled op z :
  (op, z) ∈ tally settled <-> op ∈ settled.*1 /\ z = operator_total op settled.
Proof.
  unfold tally. rewrite map_get_elem by (apply tally_keys; constructor). rewrite map_get_tally.
  destruct (mem_str op settled.*1) eqn:E; cbn [map_get from_option id].
  - apply mem_str_true in E. rewrite Z.add_0_l. naive_solver.
  - apply mem_str_false in E. naive_solver.
Qed.

Lemma total_of_perm m m' : m ≡ₚ m' -> total_of m = total_of m'.
Proof. induction 1 as [|x l l' _ IH|x y l|]; cbn; unfold total_of in *; lia. Qed.

Lemma total_of_run settled m : total_of (foldl tally_step m settled) = (total_of m + total_of settled)%Z.
Proof.
  revert m. induction settled as [|oa settled IH]; intros m; cbn [foldl]; [cbn; lia|].
  rewrite IH, total_of_tally. cbn. unfold total_of. lia.
Qed.

Lemma sorted_totals_perm totals sorted : sorted_totals totals = Ok sorted -> sorted ≡ₚ totals.
Proof.
  unfold sorted_totals. intros H. inv_res. subst. clear E. assert (forall t l, operator_insert t l ≡ₚ t :: l) as Hi.
  { intros t l. induction l as [|u l IH]; [done|]. cbn [operator_insert]. destruct (locale_leb _ _); [done|].
    rewrite IH. apply Permutation_swap. }
  induction totals as [|t totals IH]; [done|]. cbn [foldr]. rewrite Hi. apply perm_skip, IH.
Qed.

Definition operator_total_value (assetName : jstr) (oz : jstr * Z) : jsval :=
  VObj [("operator_id" : jstr, VStr oz.1); ("amount" : jstr, vint oz.2); ("asset" : jstr, VStr assetName)].

(** A batch adds up: for receipts that settle whole non-negative amounts with an exact
    sum, the total of the batch is the sum of the amounts, every operator with a receipt
    has exactly one entry with the sum of its amounts, and the entries sum to the total. *)
Theorem settlement_batch_totals o receipts settled batch :
  fget o "receipts" = VArr receipts -> Forall2 settles (map elem receipts) settled -> (total_of settled < 2 ^ 53)%Z ->
  createSettlementBatch (VObj o) = Ok batch ->
  vget batch "total_settled_amount" = vint (total_of settled) /\ vget batch "receipt_count" = vnat (length settled) /\
  exists assetName totals,
    vget batch "operator_totals" = VArr (map (operator_total_value assetName) totals) /\
    NoDup totals.*1 /\ total_of totals = total_of settled /\
    forall op z, (op, z) ∈ totals <-> op ∈ settled.*1 /\ z = operator_total op settled.
Proof.
  unfold createSettlementBatch. intros Hrec Hs Hlt H. apply res_bind_ok in H as (o' & Ho & H).
  apply options_object_ok in Ho as [-> _]. rewrite Hrec in H. cbn [items_of] in H. cbn zeta in H. inv_res.
  match goal with E : add_receipts _ _ _ _ = Ok _ |- _ =>
    apply (add_receipts_run _ _ [] _ _ _ Hs) in E as ->; [|constructor|exact Hlt] end.
  match goal with E : sorted_totals _ = Ok _ |- _ =>
    apply sorted_totals_perm in E; cbn [snd] in E; apply Permutation_map_inv in E as (totals & -> & Hp) end.
  apply artifact_ok in H as (d & _ & -> & _); [|vm_compute; reflexivity].
  rewrite <- (Forall2_length _ _ _ Hs), length_map. split; [reflexivity|]. split; [reflexivity|].
  match goal with E : asset _ _ = Ok ?a |- _ => exists a, totals end. split.
  { cbn [app]. unfold vget. cbn [own_fields]. simp_get. f_equal. rewrite map_map. done. }
  change (foldl tally_step [] settled) with (tally settled) in Hp. split_and!.
  - rewrite <- Hp. apply tally_keys. constructor.
  - rewrite <- (total_of_perm _ _ Hp). unfold tally. by rewrite total_of_run.
  - intros op z. rewrite <- Hp. apply tally_spec.
Qed.
End batch.

(** ** Witnesses *)
Definition sample_root : jstr := SHA256_PREFIX +s+ replicate 64 97%N.

Definition sample_job : obj :=
  [("job_type" : jstr, vstr "memory.read"); ("max_price_amount" : jstr, vint 10); ("payment_asset" : jstr, vstr "usdc");
   ("tenant_id" : jstr, vstr "tenant"); ("memory_commitment_root" : jstr, VStr sample_root);
   ("policy_hash" : jstr, VStr sample_root); ("usage_event_hash" : jstr, VStr sample_root)].

Definition sample_quote (job : jsval) : obj :=
  [("job" : jstr, job); ("service_kind" : jstr, vstr "relay"); ("price_amount" : jstr, VNum (NDec 95 (-1)));
   ("operator_id" : jstr, vstr "operator"); ("capacity_ref" : jstr, vstr "capacity"); ("terms_ref" : jstr, vstr "terms")].

Definition sample_receipt (job quote : jsval) : obj :=
  [("job" : jstr, job); ("quote" : jstr, quote); ("settled_amount" : jstr, vint 9);
   ("settlement_ref" : jstr, vstr "settled"); ("service_receipt_ref" : jstr, vstr "served")].

Lemma sample_flow : exists job quote receipt,
  flow sample_job (sample_quote job) (sample_receipt job quote) job quote receipt.
Proof.
  assert (match createPermissionlessMemoryJob (VObj sample_job) with
          | Ok job =>
              match createOperatorServiceQuote (VObj (sample_quote job)) with
              | Ok quote => is_ok (createServiceSettlementReceipt (VObj (sample_receipt job quote)))
              | _ => false
              end
          | _ => false
          end = true) as Hok by (vm_compute; reflexivity).
  destruct (createPermissionlessMemoryJob (VObj sample_job)) as [job|] eqn:Ej; [|discriminate Hok].
  destruct (createOperatorServiceQuote (VObj (sample_quote job))) as [quote|] eqn:Eq; [|discriminate Hok].
  destruct (createServiceSettlementReceipt (VObj (sample_receipt job quote))) as [receipt|] eqn:Er; [|discriminate Hok].
  exists job, quote, receipt. by split.
Qed.

Lemma settlement_flow_verifies_witness : exists job quote receipt,
  flow sample_job (sample_quote job) (sample_receipt job quote) job quote receipt /\
  verifyServiceSettlementReceipt (verification_input job quote receipt) = Ok (verificationResult []).
Proof.
  destruct sample_flow as (job & quote & receipt & Hf). exists job, quote, receipt. split; [exact Hf|].
  exact (settlement_flow_verifies _ _ _ _ _ _ Hf).
Defined.

Lemma settlement_flow_bounded_witness : exists job quote receipt,
  flow sample_job (sample_quote job) (sample_receipt job quote) job quote receipt /\
  exists settled quoted maximal,
    vget (vget receipt "settled_price") "amount" = VNum settled /\ vget (vget quote "price") "amount" = VNum quoted /\
    vget (vget job "max_price") "amount" = VNum maximal /\
    num_ltb quoted settled = false /\ num_ltb maximal quoted = false /\ num_ltb maximal settled = false.
Proof.
  destruct sample_flow as (job & quote & receipt & Hf). exists job, quote, receipt. split; [exact Hf|].
  exact (settlement_flow_bounded _ _ _ _ _ _ Hf).
Defined.

(** A receipt of 1000 USDC for a job of at most 10, on a quote whose price was raised. *)
Definition forged_receipt (job quote : jsval) : obj :=
  [("job" : jstr, job); ("quote" : jstr, with_price quote (NInt 1000) "USDC"); ("settlement_ref" : jstr, vstr "settled");
   ("service_receipt_ref" : jstr, vstr "served")].

Example forged_price_is_settled :
  match createPermissionlessMemoryJob (VObj sample_job) with
  | Ok job =>
      match createOperatorServiceQuote (VObj (sample_quote job)) with
      | Ok quote =>
          match createServiceSettlementReceipt (VObj (forged_receipt job quote)) with
          | Ok receipt =>
              match verifyServiceSettlementReceipt (verification_input job (with_price quote (NInt 1000) "USDC") receipt) with
              | Ok r => v_ok r && (vget (vget receipt "settled_price") "amount" === vint 1000)
                        && (vget (vget job "max_price") "amount" === vint 10)
              | _ => false
              end
          | _ => false
          end
      | _ => false
      end
  | _ => false
  end = true.
Proof. vm_compute. reflexivity. Qed.

Definition settled_receipt (operator hash : jstr) (amount : Z) : jsval :=
  VObj [("schema" : jstr, VStr SERVICE_SETTLEMENT_RECEIPT_SCHEMA); ("operator_id" : jstr, VStr operator);
        ("settled_price" : jstr, VObj [("amount" : jstr, vint amount); ("asset" : jstr, vstr "USD")]);
        ("settlement_receipt_hash" : jstr, VStr hash)].

Definition sample_receipts : list jsval :=
  [settled_receipt "b" "h1" 3; settled_receipt "a" "h2" 4; settled_receipt "b" "h3" 5].

Definition sample_batch : obj := [("receipts" : jstr, VArr sample_receipts); ("batch_ref" : jstr, vstr "batch")].

Lemma settlement_batch_totals_witness : exists batch assetName totals,
  createSettlementBatch (VObj sample_batch) = Ok batch /\ vget batch "total_settled_amount" = vint 12 /\
  vget batch "operator_totals" = VArr (map (operator_total_value assetName) totals) /\ (("b" : jstr), 8%Z) ∈ totals.
Proof.
  assert (is_ok (createSettlementBatch (VObj sample_batch)) = true) as Hok by (vm_compute; reflexivity).
  destruct (createSettlementBatch (VObj sample_batch)) as [batch|] eqn:E; [|discriminate Hok].
  assert (Forall2 settles (map elem sample_receipts) [("b" : jstr, 3%Z); ("a" : jstr, 4%Z); ("b" : jstr, 5%Z)]) as Hs.
  { repeat constructor; cbn; lia. }
  destruct (settlement_batch_totals sample_batch sample_receipts _ batch eq_refl Hs ltac:(vm_compute; reflexivity) E)
    as (Ht & _ & a & totals & Hv & _ & _ & Hspec).
  exists batch, a, totals. split; [reflexivity|]. split; [exact Ht|]. split; [exact Hv|].
  apply Hspec. split; [left; reflexivity|vm_compute; reflexivity].
Defined.
