(* ===== verification/Optimizer.v ===== *)
(** * The context optimizer

    [src/packages/optimizer/src/index.js] and [text-estimate.js]: candidate memories are
    deduplicated by the hash of their content, scored by importance and recency, put into
    tiers, and the plan says how many prompt tokens each takes; access receipts commit to
    the items of a plan.  The exported JSON schemas are data that no function reads.
    Canonical texts and hashes are those of the core package, whose code is repeated
    there. *)

From S2P Require Import Prelude JsValue Doubles Regex Canonical Hashing PublicSafe Dates VaultPublic Vault.

Definition PLAN_SCHEMA_ID : jstr := "enigma.memory_optimization_plan.v1".
Definition RECEIPT_SCHEMA_ID : jstr := "enigma.memory_access_receipt.v1".
Definition COMMITMENT_SCHEME : jstr := "sha256-canonical-json-v1".
Definition MEMORY_OPTIMIZATION_PRODUCT_THESIS : jstr :=
  "Centralized high-performance memory optimization service; blockchain and permissionless rails are access, settlement, and proof anchoring boundaries only, not decentralized inference or decentralized memory storage.".

Definition DISALLOWED_PUBLIC_KEYS : list jstr :=
  ["body" : jstr; "candidate" : jstr; "candidates" : jstr; "content" : jstr; "contents" : jstr; "document" : jstr;
   "documents" : jstr; "message" : jstr; "messages" : jstr; "metadata" : jstr; "plain_text" : jstr;
   "plaintext" : jstr; "prompt" : jstr; "prompts" : jstr; "raw" : jstr; "raw_content" : jstr; "raw_memory" : jstr;
   "response" : jstr; "responses" : jstr; "text" : jstr; "transcript" : jstr; "value" : jstr].

Definition SAFE_PUBLIC_KEYS : list jstr :=
  ["content_hash" : jstr; "metadata_commitment" : jstr; "commitment" : jstr; "commitments" : jstr;
   "commitment_scheme" : jstr; "estimated_cost" : jstr; "estimated_tokens" : jstr; "baseline_prompt_tokens" : jstr;
   "optimized_prompt_tokens" : jstr; "total_estimated_tokens" : jstr].

Definition OPTIONAL_HASH_RE : re := re_ci (mk_seq (ropt (rlit "sha256:")) (rrep 64 hex_class)).

(** ** Token estimates *)

(** ASCII letters, digits and the underscore. *)
Definition is_word (c : N) : bool :=
  (((48 <=? c) && (c <=? 57)) || ((65 <=? c) && (c <=? 90)) || ((97 <=? c) && (c <=? 122)) || (c =? 95))%N.

(** [Math.max(1, Math.ceil(length / 4))]. *)
Definition word_tokens (length : nat) : nat := Nat.max 1 ((length + 3) / 4).

(** The loop, with the length of the word it is in. *)
Fixpoint tokens_from (word : nat) (s : jstr) : nat :=
  match s with
  | [] => if (word =? 0)%nat then 0 else word_tokens word
  | c :: s' =>
      if is_word c then tokens_from (S word) s'
      else (if (word =? 0)%nat then 0 else word_tokens word) + (if (32 <? c)%N then 1 else 0) + tokens_from 0 s'
  end.

Definition estimateTextTokens (text : jsval) : nat :=
  if is_nullish text then 0 else tokens_from 0 (to_str text).

(** ** Numbers *)
Definition num_opp (n : jsnum) : jsnum :=
  match n with
  | NInt z => if (z =? 0)%Z then NNegZero else NInt (- z)
  | NNegZero => NInt 0
  | NDec m e => NDec (- m) e
  | NInf neg => NInf (negb neg)
  | NNaN => NNaN
  end.

(** [a - b]. *)
Definition num_minus (a b : jsnum) : jsnum := num_plus a (num_opp b).

Definition clamp01 (value : jsnum) : jsnum := num_max (NInt 0) (num_min (NInt 1) value).

Definition round6 (value : jsnum) : jsnum :=
  num_quot (num_round (num_times (num_plus value EPSILON) (NInt 1000000))) (NInt 1000000).

Definition percentReduction (baseline optimized : jsnum) : jsnum :=
  if num_seq baseline (NInt 0) then NInt 0
  else round6 (num_max (NInt 0) (num_min (NInt 100)
         (num_times (num_quot (num_minus baseline optimized) baseline) (NInt 100)))).

Definition combinedScore (importance recency : jsnum) : jsnum :=
  clamp01 (num_plus (num_times importance (NDec 7 (-1))) (num_times recency (NDec 3 (-1)))).

(** ** Tiers *)
Inductive tier := Hot | Warm | Cold | ProofOnly.

#[export] Instance tier_eq_dec : EqDecision tier.
Proof. solve_decision. Defined.

Definition TIER_ORDER : list tier := [Hot; Warm; Cold; ProofOnly].

Definition tier_name (t : tier) : jstr :=
  match t with Hot => "hot" | Warm => "warm" | Cold => "cold" | ProofOnly => "proof_only" end.

Definition TIER_RANK (t : tier) : nat := match t with Hot => 0 | Warm => 1 | Cold => 2 | ProofOnly => 3 end.

Record plan_options := {
  po_defaultImportance : jsnum;
  po_referenceTimeMs : Z;
  po_hotThreshold : jsnum;
  po_warmThreshold : jsnum;
  po_coldThreshold : jsnum;
  po_warmTokenRatio : jsnum;
  po_coldPointerTokens : jsnum;
  po_proofOnlyTokens : jsnum
}.

Definition optimizedTokensForTier (tokens : jsnum) (t : tier) (options : plan_options) : jsnum :=
  match t with
  | Hot => tokens
  | Warm => num_min tokens (num_ceil (num_times tokens (po_warmTokenRatio options)))
  | Cold => num_min tokens (po_coldPointerTokens options)
  | ProofOnly => num_min tokens (po_proofOnlyTokens options)
  end.

(** [score >= threshold]. *)
Definition num_geb (a b : jsnum) : bool := num_ltb b a || num_seq a b.

Definition tierForScore (score : jsnum) (options : plan_options) : tier :=
  if num_geb score (po_hotThreshold options) then Hot
  else if num_geb score (po_warmThreshold options) then Warm
  else if num_geb score (po_coldThreshold options) then Cold
  else ProofOnly.

(** ** Names of public properties *)
Definition normalizePublicKey (key : jstr) : jstr :=
  to_lower (strip_underscores (collapse_from false (snake_boundaries key))).

Definition is_raw_key (key : jstr) : bool :=
  mem_str (normalizePublicKey key) DISALLOWED_PUBLIC_KEYS && negb (mem_str (normalizePublicKey key) SAFE_PUBLIC_KEYS).

Fixpoint scanPublicOutput (value : jsval) (path : jstr) : res unit :=
  match value with
  | VArr items =>
      (fix go (index : nat) (items : list jsval) : res unit :=
         match items with
         | [] => Ok tt
         | item :: items' =>
             let! _ := scanPublicOutput item (path +s+ "[" +s+ nat_str index +s+ "]") in go (S index) items'
         end) 0%nat items
  | VObj fields =>
      (fix go (fields : list (jstr * jsval)) : res unit :=
         match fields with
         | [] => Ok tt
         | kv :: fields' =>
             throw_if is_raw_key kv.1
               with TypeError ("public output contains raw memory field at " +s+ path +s+ "." +s+ kv.1);
             let! _ := scanPublicOutput kv.2 (path +s+ "." +s+ kv.1) in go fields'
         end) fields
  | VInst _ _ | VMap _ | VSet _ | VBytes _ _ =>
      Throw (TypeError ("public output contains unsupported object at " +s+ path))
  | _ => Ok tt
  end.

Definition assertNoRawMemoryOutput (value : jsval) : res unit := scanPublicOutput value "$".

(** ** Arguments *)
Definition stringOrDefault (value : jsval) (fallback : jstr) : jstr :=
  if is_nullish value || (value === VStr []) then fallback else to_str value.

Definition requiredString (value : jsval) (name : jstr) : res jstr :=
  match value with
  | VStr s => throw_if s =s= [] with TypeError (name +s+ " must be a non-empty string"); Ok s
  | _ => Throw (TypeError (name +s+ " must be a non-empty string"))
  end.

Definition normalizeSha256Root (value : jsval) (name : jstr) : res jstr :=
  let text := to_str value in
  throw_if negb (re_full OPTIONAL_HASH_RE text) with TypeError (name +s+ " must be a sha256 hash");
  Ok (SHA256_PREFIX +s+ to_lower (if starts_with SHA256_PREFIX text then slice_from 7 text else text)).

Definition normalizePrefixedId (value : jsval) (prefix name : jstr) : res jstr :=
  let! text := requiredString value name in
  throw_if negb (re_full (rseqs [rlit prefix; rlit "_"; rrep 32 hex_class]) text)
    with TypeError (name +s+ " must match " +s+ prefix +s+ "_[a-f0-9]{32}");
  Ok text.

Section optimizer.
Context {C : Crypto} {Hst : Host} {P : Platform}.

Definition numberOrDefault (value : jsval) (fallback : jsnum) : res jsnum :=
  if is_nullish value || (value === VStr []) then Ok fallback
  else
    let! number := to_number value in
    throw_if negb (num_is_finite number) with TypeError "value must be a finite number";
    Ok number.

Definition nonNegativeInteger (value : jsval) (name : jstr) : res jsnum :=
  let! number := to_number value in
  throw_if negb (num_is_integer number) || num_ltb number (NInt 0)
    with TypeError (name +s+ " must be a non-negative integer");
  Ok number.

Definition nonNegativeNumber (value : jsval) (name : jstr) : res jsnum :=
  let! number := to_number value in
  throw_if negb (num_is_finite number) || num_ltb number (NInt 0)
    with TypeError (name +s+ " must be a non-negative number");
  Ok number.

Definition prefixedSha256 (text : jstr) : jstr := SHA256_PREFIX +s+ sha256_text text.

Definition commitmentFor (value : jsval) : res jstr := let! text := canonicalize value in Ok (prefixedSha256 text).

Fixpoint redactForCommitment (value : jsval) : res jsval :=
  match value with
  | VArr items =>
      let! items' := map_res redactForCommitment items in Ok (VArr items')
  | VObj fields =>
      let entries := map (λ kv, (kv.1, if is_raw_key kv.1 then let! h := commitmentFor kv.2 in Ok (VStr h)
                                       else redactForCommitment kv.2)) fields in
      let! redacted := map_res (λ entry : jstr * res jsval, let! x := entry.2 in Ok (entry.1, x)) (sort_keys entries) in
      Ok (VObj (spread [] redacted))
  | VInst _ _ | VMap _ | VSet _ | VBytes _ _ => Ok (VStr (to_str value))
  | _ => Ok value
  end.

(** ** Prices *)
Record pricing := {
  pr_currency : jstr;
  pr_price : jsnum
}.

Definition pricing_value (p : option pricing) : jsval :=
  match p with
  | Some p => VObj [("currency" : jstr, VStr (pr_currency p)); ("price_per_million_tokens" : jstr, VNum (pr_price p))]
  | None => VNull
  end.

(** [normalizePricing(value, false)]: every call passes [false]. *)
Definition normalizePricing (value : jsval) : res (option pricing) :=
  match value with
  | VUndef | VNull | VHole => Ok None
  | VNum n =>
      let! price := nonNegativeNumber value "price_per_million_tokens" in
      Ok (Some {| pr_currency := "USD"; pr_price := price |})
  | _ =>
      throw_if negb (is_plain value) with TypeError "pricing must be an object or number";
      let! price := nonNegativeNumber
        (vget value "price_per_million_tokens" ?? vget value "pricePerMillionTokens"
         ?? vget value "input_price_per_million_tokens" ?? vget value "inputPricePerMillionTokens")
        "price_per_million_tokens" in
      Ok (Some {| pr_currency := stringOrDefault (vget value "currency") "USD"; pr_price := price |})
  end.

Record token_cost := {
  tc_tokens : jsnum;
  tc_currency : jstr;
  tc_price : jsnum;
  tc_estimated_cost : jsnum
}.

Definition estimateTokenCost (tokensOrArgs maybePricePerMillionTokens : jsval) : res token_cost :=
  let args := if is_plain tokensOrArgs then own_fields tokensOrArgs
              else [("tokens" : jstr, tokensOrArgs); ("price_per_million_tokens" : jstr, maybePricePerMillionTokens)] in
  let! tokens := nonNegativeInteger (fget args "tokens" ?? fget args "prompt_tokens" ?? fget args "input_tokens") "tokens" in
  let! price := nonNegativeNumber
    (fget args "price_per_million_tokens" ?? fget args "pricePerMillionTokens"
     ?? fget args "input_price_per_million_tokens" ?? fget args "inputPricePerMillionTokens")
    "price_per_million_tokens" in
  Ok {| tc_tokens := tokens; tc_currency := stringOrDefault (fget args "currency") "USD"; tc_price := price;
        tc_estimated_cost := num_times (num_quot tokens (NInt 1000000)) price |}.

(** [pricing === null ? null : estimateTokenCost({ tokens, ...pricing }).estimated_cost]. *)
Definition cost_of (tokens : jsnum) (p : option pricing) : res jsval :=
  match p with
  | None => Ok VNull
  | Some _ =>
      let! c := estimateTokenCost (VObj (spread [("tokens" : jstr, VNum tokens)] (own_fields (pricing_value p)))) VUndef in
      Ok (VNum (tc_estimated_cost c))
  end.

(** ** Options *)
Definition referenceTimeMs (value : jsval) : res Z :=
  if is_nullish value || (value === VStr []) then Ok 1767225600000%Z
  else match date_parse (to_str value) with
       | Some t => Ok t
       | None => Throw (TypeError "reference_time must be an ISO timestamp")
       end.

Definition normalizePlanOptions (args : obj) : res plan_options :=
  let clamped given fallback := let! n := numberOrDefault given fallback in Ok (clamp01 n) in
  let! defaultImportance := clamped (fget args "default_importance" ?? fget args "defaultImportance") (NDec 5 (-1)) in
  let! reference := referenceTimeMs (fget args "reference_time" ?? fget args "referenceTime" ?? fget args "now") in
  let! hotThreshold := clamped (fget args "hot_threshold" ?? fget args "hotThreshold") (NDec 72 (-2)) in
  let! warmThreshold := clamped (fget args "warm_threshold" ?? fget args "warmThreshold") (NDec 45 (-2)) in
  let! coldThreshold := clamped (fget args "cold_threshold" ?? fget args "coldThreshold") (NDec 2 (-1)) in
  let! warmTokenRatio := nonNegativeNumber
    (fget args "warm_token_ratio" ?? fget args "warmTokenRatio" ?? VNum (NDec 35 (-2))) "warm_token_ratio" in
  let! coldPointerTokens := nonNegativeInteger
    (fget args "cold_pointer_tokens" ?? fget args "coldPointerTokens" ?? vint 24) "cold_pointer_tokens" in
  let! proofOnlyTokens := nonNegativeInteger
    (fget args "proof_only_tokens" ?? fget args "proofOnlyTokens" ?? vint 8) "proof_only_tokens" in
  Ok {| po_defaultImportance := defaultImportance; po_referenceTimeMs := reference; po_hotThreshold := hotThreshold;
        po_warmThreshold := warmThreshold; po_coldThreshold := coldThreshold; po_warmTokenRatio := warmTokenRatio;
        po_coldPointerTokens := coldPointerTokens; po_proofOnlyTokens := proofOnlyTokens |}.

Definition recencyScore (value : jsval) (referenceTime : Z) : jsnum :=
  if is_nullish value || (value === VStr []) then NInt 0
  else match date_parse (to_str value) with
       | None => NInt 0
       | Some accessed =>
           let ageMs := num_max (NInt 0) (int_result (referenceTime - accessed)) in
           let ageDays := num_quot ageMs (NInt 86400000) in
           if num_geb (NInt 1) ageDays then NInt 1
           else if num_geb ageDays (NInt 90) then NInt 0
           else round6 (num_minus (NInt 1) (num_quot ageDays (NInt 90)))
       end.

(** ** Candidates *)
Record candidate := {
  cd_address : jstr;
  cd_content_hash : jstr;
  cd_metadata_commitment : option jstr;
  cd_estimated_tokens : jsnum;
  cd_importance : jsnum;
  cd_recency_score : jsnum
}.

Definition normalizeContentHash (value content : jsval) : res jstr :=
  if negb (is_nullish value || (value === VStr [])) then normalizeSha256Root value "content_hash"
  else if negb (is_nullish content) then Ok (prefixedSha256 (to_str content))
  else Throw (TypeError "candidate requires content_hash or local content for hashing").

Definition explicit_tokens (c : obj) : jsval :=
  fget c "estimated_tokens" ?? fget c "estimatedTokens" ?? fget c "token_count" ?? fget c "tokenCount"
  ?? vget (fget c "metadata") "estimated_tokens" ?? vget (fget c "metadata") "token_count".

Definition estimateCandidateTokens (c : obj) : res jsnum :=
  if negb (is_undef (explicit_tokens c)) then nonNegativeInteger (explicit_tokens c) "estimated_tokens"
  else Ok (NInt (Z.of_nat (estimateTextTokens (fget c "content")))).

Definition normalizeCandidate (value : jsval) (index : nat) (options : plan_options) : res candidate :=
  throw_if negb (is_plain value) with TypeError ("candidate " +s+ nat_str index +s+ " must be an object");
  let c := own_fields value in
  let! contentHash := normalizeContentHash (fget c "content_hash" ?? fget c "contentHash") (fget c "content") in
  let given := fget c "address" in
  let address := if is_nullish given || (given === VStr []) then "mem_" +s+ slice_to 16 (slice_from 7 contentHash)
                 else to_str given in
  let! metadataCommitment :=
    (if is_undef (fget c "metadata") then Ok None
     else let! m := redactForCommitment (fget c "metadata") in let! h := commitmentFor m in Ok (Some h)) in
  let! estimatedTokens := estimateCandidateTokens c in
  let! importance := numberOrDefault (fget c "importance") (po_defaultImportance options) in
  let lastAccessedAt := fget c "last_accessed_at" ?? fget c "lastAccessedAt" ?? VNull in
  Ok {| cd_address := address; cd_content_hash := contentHash; cd_metadata_commitment := metadataCommitment;
        cd_estimated_tokens := estimatedTokens; cd_importance := clamp01 importance;
        cd_recency_score := recencyScore lastAccessedAt (po_referenceTimeMs options) |}.

(** [compareCandidatePreference(left, right) < 0]. *)
Definition preferred (left right : candidate) : bool :=
  let leftScore := combinedScore (cd_importance left) (cd_recency_score left) in
  let rightScore := combinedScore (cd_importance right) (cd_recency_score right) in
  if negb (num_seq leftScore rightScore) then num_ltb rightScore leftScore
  else if negb (num_seq (cd_estimated_tokens left) (cd_estimated_tokens right))
  then num_ltb (cd_estimated_tokens right) (cd_estimated_tokens left)
  else str_ltb (cd_address left) (cd_address right).

(** One turn of the loop: [byHash] in the order of first insertion. *)
Definition dedupe_step (byHash : list (jstr * candidate)) (c : candidate) : list (jstr * candidate) :=
  match map_get byHash (cd_content_hash c) with
  | Some current => if preferred c current then map_set byHash (cd_content_hash c) c else byHash
  | None => map_set byHash (cd_content_hash c) c
  end.

Definition dedupeCandidates (candidates : list jsval) (options : plan_options) : res (list candidate) :=
  let! normalized := imap_res (λ index c, normalizeCandidate (elem c) index options) candidates in
  Ok (foldl dedupe_step [] normalized).*2.

(** ** Items *)
Record plan_item := {
  pi_address : jstr;
  pi_content_hash : jstr;
  pi_metadata_commitment : option jstr;
  pi_tier : tier;
  pi_estimated_tokens : jsnum;
  pi_optimized_prompt_tokens : jsnum;
  pi_commitment : jstr
}.

Definition item_body (address content_hash : jstr) (metadata_commitment : option jstr) (t : tier)
    (estimated_tokens optimized : jsnum) : obj :=
  [("address" : jstr, VStr address); ("content_hash" : jstr, VStr content_hash)]
  ++ match metadata_commitment with Some m => [("metadata_commitment" : jstr, VStr m)] | None => [] end
  ++ [("tier" : jstr, VStr (tier_name t)); ("estimated_tokens" : jstr, VNum estimated_tokens);
      ("optimized_prompt_tokens" : jstr, VNum optimized)].

Definition item_value (i : plan_item) : jsval :=
  VObj (item_body (pi_address i) (pi_content_hash i) (pi_metadata_commitment i) (pi_tier i) (pi_estimated_tokens i)
          (pi_optimized_prompt_tokens i) ++ [("commitment" : jstr, VStr (pi_commitment i))]).

Definition planItemFromCandidate (options : plan_options) (c : candidate) : res plan_item :=
  let t := tierForScore (combinedScore (cd_importance c) (cd_recency_score c)) options in
  let optimized := optimizedTokensForTier (cd_estimated_tokens c) t options in
  let! commitment := commitmentFor (VObj (item_body (cd_address c) (cd_content_hash c) (cd_metadata_commitment c) t
                                            (cd_estimated_tokens c) optimized)) in
  Ok {| pi_address := cd_address c; pi_content_hash := cd_content_hash c;
        pi_metadata_commitment := cd_metadata_commitment c; pi_tier := t;
        pi_estimated_tokens := cd_estimated_tokens c; pi_optimized_prompt_tokens := optimized;
        pi_commitment := commitment |}.

(** [comparePlanItems(left, right) <= 0]. *)
Definition item_leb (left right : plan_item) : bool :=
  if negb (TIER_RANK (pi_tier left) =? TIER_RANK (pi_tier right))%nat
  then (TIER_RANK (pi_tier left) <? TIER_RANK (pi_tier right))%nat
  else if negb (num_seq (pi_optimized_prompt_tokens left) (pi_optimized_prompt_tokens right))
  then num_ltb (pi_optimized_prompt_tokens right) (pi_optimized_prompt_tokens left)
  else if negb (num_seq (pi_estimated_tokens left) (pi_estimated_tokens right))
  then num_ltb (pi_estimated_tokens right) (pi_estimated_tokens left)
  else negb (str_ltb (pi_content_hash right) (pi_content_hash left)).

Fixpoint item_insert (i : plan_item) (l : list plan_item) : list plan_item :=
  match l with
  | [] => [i]
  | j :: l' => if item_leb i j then i :: l else j :: item_insert i l'
  end.

Definition sort_items (l : list plan_item) : list plan_item := foldr item_insert [] l.

(** [tiers[item.tier].push(item)]. *)
Definition tiers_value (items : list plan_item) : jsval :=
  VObj (map (λ t, (tier_name t, VArr (map item_value (List.filter (λ i, bool_decide (pi_tier i = t)) items)))) TIER_ORDER).

(** ** Plans *)
Record plan := {
  pl_plan_id : jstr;
  pl_pricing : option pricing;
  pl_baseline_prompt_tokens : jsnum;
  pl_optimized_prompt_tokens : jsnum;
  pl_baseline_cost : jsval;
  pl_optimized_cost : jsval;
  pl_items : list plan_item;
  pl_input_candidates : nat
}.

Definition plan_totals (p : plan) : jsval :=
  VObj [("input_candidates" : jstr, vnat (pl_input_candidates p));
        ("deduped_candidates" : jstr, vnat (length (pl_items p)));
        ("duplicates_removed" : jstr, vint (Z.of_nat (pl_input_candidates p) - Z.of_nat (length (pl_items p))));
        ("total_estimated_tokens" : jstr, VNum (pl_baseline_prompt_tokens p))].

Definition savings_pct (p : plan) : jsval :=
  VNum (percentReduction (pl_baseline_prompt_tokens p) (pl_optimized_prompt_tokens p)).

(** [orderPlan(plan)]. *)
Definition orderPlan (p : plan) : jsval :=
  VObj [
    ("schema" : jstr, VStr PLAN_SCHEMA_ID); ("product_thesis" : jstr, VStr MEMORY_OPTIMIZATION_PRODUCT_THESIS);
    ("plan_id" : jstr, VStr (pl_plan_id p)); ("commitment_scheme" : jstr, VStr COMMITMENT_SCHEME);
    ("pricing" : jstr, pricing_value (pl_pricing p));
    ("baseline_prompt_tokens" : jstr, VNum (pl_baseline_prompt_tokens p));
    ("optimized_prompt_tokens" : jstr, VNum (pl_optimized_prompt_tokens p));
    ("baseline_cost" : jstr, pl_baseline_cost p); ("optimized_cost" : jstr, pl_optimized_cost p);
    ("savings_pct" : jstr, savings_pct p); ("tiers" : jstr, tiers_value (pl_items p));
    ("items" : jstr, VArr (map item_value (pl_items p))); ("totals" : jstr, plan_totals p)].

(** The body the identifier of the plan is derived from: the plan without it. *)
Definition plan_body (p : plan) : jsval := VObj (fdelete (own_fields (orderPlan p)) "plan_id").

Definition add_tokens (l : list jsnum) (start : jsnum) : jsnum := foldl num_plus start l.

Definition shared_tokens (args : obj) : res jsnum :=
  let basePromptTokens := fget args "prompt_tokens" ?? fget args "promptTokens" ?? fget args "base_prompt_tokens"
    ?? fget args "basePromptTokens" in
  if is_undef basePromptTokens
  then Ok (NInt (Z.of_nat (estimateTextTokens (fget args "prompt" ?? fget args "base_prompt" ?? fget args "basePrompt"
                                               ?? VStr []))))
  else nonNegativeInteger basePromptTokens "prompt_tokens".

(** The arguments of a plan: an array is its candidates. *)
Definition plan_args (input : jsval) : res obj :=
  let value := match input with VArr _ => VObj [("candidates" : jstr, input)] | VUndef => VObj [] | _ => input end in
  throw_if negb (is_plain value)
    with TypeError "createMemoryOptimizationPlan requires an options object or candidate array";
  throw_if negb (is_array (vget value "candidates")) with TypeError "candidates must be an array";
  Ok (own_fields value).

Definition createMemoryOptimizationPlan (input : jsval) : res plan :=
  let! args := plan_args input in
  let candidates := items_of (fget args "candidates") in
  let! options := normalizePlanOptions args in
  let! deduped := dedupeCandidates candidates options in
  let! items0 := map_res (planItemFromCandidate options) deduped in
  let items := sort_items items0 in
  let! shared := shared_tokens args in
  let baseline := add_tokens (map pi_estimated_tokens items) shared in
  let optimized := add_tokens (map pi_optimized_prompt_tokens items) shared in
  let! prices := normalizePricing (fget args "pricing" ?? fget args "price" ?? fget args "price_per_million_tokens"
    ?? fget args "pricePerMillionTokens") in
  let! baselineCost := cost_of baseline prices in
  let! optimizedCost := cost_of optimized prices in
  let plan_with id := {| pl_plan_id := id; pl_pricing := prices; pl_baseline_prompt_tokens := baseline;
    pl_optimized_prompt_tokens := optimized; pl_baseline_cost := baselineCost; pl_optimized_cost := optimizedCost;
    pl_items := items; pl_input_candidates := length candidates |} in
  let! text := canonicalize (plan_body (plan_with [])) in
  let derivedPlanId := "mopt_" +s+ slice_to 32 (sha256_text text) in
  let! plan_id := normalizePrefixedId (fget args "plan_id" ?? fget args "planId" ?? VStr derivedPlanId) "mopt" "plan_id" in
  let! _ := assertNoRawMemoryOutput (orderPlan (plan_with plan_id)) in
  Ok (plan_with plan_id).

(** ** Access receipts *)

(** The source of a receipt with its address, hash and commitment normalised. *)
Definition normalizeReceiptSource (input : jsval) : res obj :=
  let source := vget input "item" ?? vget input "accessed" ?? vget input "access" ?? vget input "memory"
    ?? vget input "candidate" ?? input in
  throw_if negb (is_plain source) with TypeError "receipt source must be an object";
  let! contentHash := normalizeContentHash (vget source "content_hash" ?? vget source "contentHash")
    (vget source "content") in
  let! address := requiredString (vget source "address" ?? vget input "address") "address" in
  let commitment := vget source "commitment" ?? vget input "commitment" in
  let! commitment' := (if is_undef commitment then Ok VUndef
                       else let! c := normalizeSha256Root commitment "commitment" in Ok (VStr c)) in
  Ok (spread (own_fields source) [("address" : jstr, VStr address); ("content_hash" : jstr, VStr contentHash);
                                  ("commitment" : jstr, commitment')]).

Definition planHashOrUndefined (p : jsval) : res jsval :=
  match p with
  | VUndef | VNull | VHole => Ok VUndef
  | VStr _ => let! h := normalizeSha256Root p "plan_hash" in Ok (VStr h)
  | _ => let! h := commitmentFor p in Ok (VStr h)
  end.

Definition ACCESS_BOUNDARY : jsval :=
  VObj [("permissionless_access" : jstr, VBool true);
        ("settlement" : jstr, vstr "external_or_offline_receipt_settlement");
        ("proof_anchor" : jstr, vstr "content_hash_and_commitment_only");
        ("decentralized_storage_claim" : jstr, VBool false)].

(** The properties of a receipt in their final order; [plan_hash] is left out when it is
    [undefined]. *)
Definition orderReceipt (id : list (jstr * jsval)) (address content_hash commitment plan_hash timestamp sequence tokens
    prices cost : jsval) : obj :=
  [("schema" : jstr, VStr RECEIPT_SCHEMA_ID); ("product_thesis" : jstr, VStr MEMORY_OPTIMIZATION_PRODUCT_THESIS)]
  ++ id
  ++ [("operation" : jstr, vstr "memory.access.receipt_anchor"); ("commitment_scheme" : jstr, VStr COMMITMENT_SCHEME);
      ("address" : jstr, address); ("content_hash" : jstr, content_hash); ("commitment" : jstr, commitment)]
  ++ (if is_undef plan_hash then [] else [("plan_hash" : jstr, plan_hash)])
  ++ [("timestamp" : jstr, timestamp); ("sequence" : jstr, sequence); ("estimated_prompt_tokens" : jstr, tokens);
      ("pricing" : jstr, prices); ("estimated_cost" : jstr, cost); ("access_boundary" : jstr, ACCESS_BOUNDARY)].

Definition createMemoryAccessReceipt (input0 : jsval) : res jsval :=
  let input := if is_undef input0 then VObj [] else input0 in
  throw_if negb (is_plain input) with TypeError "createMemoryAccessReceipt requires an options object";
  let! source := normalizeReceiptSource input in
  let! prices := normalizePricing (vget input "pricing" ?? vget input "price" ?? vget input "price_per_million_tokens"
    ?? vget input "pricePerMillionTokens") in
  let! estimatedTokens := nonNegativeInteger
    (vget input "estimated_prompt_tokens" ?? vget input "estimatedTokens" ?? vget input "optimized_prompt_tokens"
     ?? fget source "optimized_prompt_tokens" ?? fget source "estimated_tokens" ?? vint 0) "estimated_prompt_tokens" in
  let! commitment := fget source "commitment" ??!
    (let! h := commitmentFor (VObj [("address" : jstr, fget source "address");
                                    ("content_hash" : jstr, fget source "content_hash")]) in Ok (VStr h)) in
  let! plan_hash := vget input "plan_hash" ??! (vget input "planHash" ??! planHashOrUndefined (vget input "plan")) in
  let timestamp := vget input "timestamp" ?? vget input "accessed_at" ?? vget input "accessedAt" ?? vget input "now"
    ?? VNull in
  let! sequence := nonNegativeInteger (vget input "sequence" ?? vint 0) "sequence" in
  let! cost := cost_of estimatedTokens prices in
  let body id := orderReceipt id (fget source "address") (fget source "content_hash") commitment plan_hash timestamp
    (VNum sequence) (VNum estimatedTokens) (pricing_value prices) cost in
  let! text := canonicalize (VObj (body [])) in
  let derivedReceiptId := "mar_" +s+ slice_to 32 (sha256_text text) in
  let! receipt_id := normalizePrefixedId (vget input "receipt_id" ?? vget input "receiptId" ?? VStr derivedReceiptId)
    "mar" "receipt_id" in
  let ordered := VObj (body [("receipt_id" : jstr, VStr receipt_id)]) in
  let! _ := assertNoRawMemoryOutput ordered in
  Ok ordered.
End optimizer.
