(* ===== verification/OptimizerSafety.v ===== *)
(** * What the optimizer guarantees

    A plan lists every distinct content once, the tiers in order; its totals are the sums
    of its items and never exceed what the candidates take; and nothing of the content
    but its hash and its token estimate reaches it. *)

From S2P Require Import Prelude JsValue Objects Doubles Regex Canonical Hashing PublicSafe Dates VaultPublic Vault Samples MapFacts Optimizer.

(** ** Token estimates *)
Lemma tokens_word k w : Forall is_word w -> tokens_from k w = tokens_from (k + length w) [].
Proof.
  intros H. revert k. induction H as [|c w Hc _ IH]; intros k; cbn [tokens_from length].
  - by rewrite Nat.add_0_r.
  - apply Is_true_true in Hc. by rewrite Hc, IH, Nat.add_succ_r.
Qed.

Lemma tokens_split k a c b :
  is_word c = false ->
  tokens_from k (a ++ c :: b) = (tokens_from k a + (if (32 <? c)%N then 1 else 0) + tokens_from 0 b)%nat.
Proof.
  intros Hc. revert k. induction a as [|d a IH]; intros k; cbn [app tokens_from].
  - by rewrite Hc.
  - destruct (is_word d); [apply IH|]. rewrite IH. lia.
Qed.

Lemma word_tokens_bounds n : (0 < n)%nat -> (word_tokens n <= n /\ n <= 4 * word_tokens n)%nat.
Proof.
  intros Hn. unfold word_tokens. pose proof (Nat.div_mod_eq (n + 3) 4) as Hd.
  pose proof (Nat.mod_upper_bound (n + 3) 4 ltac:(lia)). lia.
Qed.

(** The characters a token is counted for. *)
Definition visible (s : jstr) : jstr := List.filter (λ c, is_word c || (32 <? c)%N) s.

Lemma tokens_bounds k s :
  (tokens_from k s <= k + length (visible s) /\ k + length (visible s) <= 4 * tokens_from k s)%nat.
Proof.
  revert k. induction s as [|c s IH]; intros k.
  - cbn [tokens_from visible List.filter length]. destruct k as [|k]; cbn [Nat.eqb]; [lia|].
    pose proof (word_tokens_bounds (S k)). lia.
  - cbn [tokens_from visible List.filter]. fold (visible s). destruct (is_word c); cbn [orb].
    + destruct (IH (S k)). cbn [length]. lia.
    + destruct (IH 0%nat). destruct k as [|k]; cbn [Nat.eqb]; [|pose proof (word_tokens_bounds (S k))];
        destruct (32 <? c)%N; cbn [length]; lia.
Qed.

(** ** Duplicates *)
Record deduped (l : list candidate) (m : list (jstr * candidate)) : Prop := {
  dd_distinct : NoDup m.*1;
  dd_complete h : h ∈ m.*1 <-> h ∈ map cd_content_hash l;
  dd_kept h c : (h, c) ∈ m -> cd_content_hash c = h /\ exists l1 l2, l = l1 ++ c :: l2 /\
    forall c', c' ∈ l2 -> cd_content_hash c' = h -> preferred c' c = false
}.

Lemma dedupe_inv l : deduped l (foldl dedupe_step [] l).
Proof.
  induction l as [|c l IH] using rev_ind.
  { split; cbn; [constructor|done|]. by intros ? ? ?%elem_of_nil. }
  rewrite foldl_app. cbn [foldl]. set (m := foldl dedupe_step [] l) in *. destruct IH as [Hd Hc Hk].
  assert (deduped (l ++ [c]) (map_set m (cd_content_hash c) c)) as Hset.
  { split.
    - rewrite map_set_keys. by apply NoDup_set_add.
    - intros h. rewrite map_set_keys, elem_of_set_add, Hc, map_app, elem_of_app. cbn.
      rewrite list_elem_of_singleton. naive_solver.
    - intros h c0. rewrite map_get_elem by (rewrite map_set_keys; by apply NoDup_set_add).
      rewrite map_get_set. destruct (_ =s= h) eqn:E.
      + apply str_eqb_eq in E as <-. intros [= <-]. split; [done|]. exists l, []. split; [done|].
        by intros ? ?%elem_of_nil.
      + apply str_eqb_neq in E. rewrite <- map_get_elem by done. intros (Hh & l1 & l2 & -> & Hp)%Hk. split; [done|].
        exists l1, (l2 ++ [c]). split; [by rewrite <- app_assoc|]. intros c'. rewrite elem_of_app, list_elem_of_singleton.
        intros [?| ->]; [by apply Hp|done]. }
  unfold dedupe_step. destruct (map_get m (cd_content_hash c)) as [current|] eqn:Eg; [|done].
  destruct (preferred c current) eqn:Ep; [done|]. apply map_get_elem in Eg; [|done].
  split; [done| |].
  - intros h. rewrite Hc, map_app, elem_of_app. cbn. rewrite list_elem_of_singleton. split; [by left|].
    intros [?| ->]; [done|]. apply Hc. apply list_elem_of_fmap. by exists (cd_content_hash c, current).
  - intros h c0 Hin. destruct (Hk _ _ Hin) as (Hh & l1 & l2 & -> & Hp). split; [done|].
    exists l1, (l2 ++ [c]). split; [by rewrite <- app_assoc|]. intros c'. rewrite elem_of_app, list_elem_of_singleton.
    intros [?| ->]; [by apply Hp|]. intros <-. apply map_get_elem in Eg, Hin; [|done..].
    rewrite Eg in Hin. by injection Hin as ->.
Qed.

(** ** The order of the items *)
Lemma item_insert_perm i l : item_insert i l ≡ₚ i :: l.
Proof. induction l as [|j l IH]; cbn; [done|]. destruct (item_leb i j); [done|]. rewrite IH. apply perm_swap. Qed.

Lemma sort_items_perm l : sort_items l ≡ₚ l.
Proof. induction l as [|i l IH]; [done|]. cbn [sort_items foldr]. fold (sort_items l). by rewrite item_insert_perm, IH. Qed.

Definition tier_le (i j : plan_item) : Prop := (TIER_RANK (pi_tier i) <= TIER_RANK (pi_tier j))%nat.

Lemma item_leb_tier i j : if item_leb i j then tier_le i j else tier_le j i.
Proof.
  unfold item_leb, tier_le. destruct (Nat.eqb_spec (TIER_RANK (pi_tier i)) (TIER_RANK (pi_tier j))) as [->|Hn]; cbn [negb].
  - repeat case_match; lia.
  - destruct (Nat.ltb_spec (TIER_RANK (pi_tier i)) (TIER_RANK (pi_tier j))); lia.
Qed.

Lemma sort_items_tiers l : StronglySorted tier_le (sort_items l).
Proof.
  induction l as [|i l IH]; [constructor|]. cbn [sort_items foldr]. fold (sort_items l).
  induction IH as [|j l' Hl IH Hj]; cbn; [by repeat constructor|].
  pose proof (item_leb_tier i j) as Ht. destruct (item_leb i j).
  - repeat constructor; [done|done|done|]. eapply Forall_impl; [exact Hj|]. unfold tier_le in *. cbn. lia.
  - constructor; [done|]. rewrite item_insert_perm. by constructor.
Qed.

(** ** Numbers that are not negative *)

(** The value of an integer below [2^53]. *)
Definition safe_tokens (n : jsnum) : option Z :=
  match n with NInt z => if (0 <=? z)%Z then Some z else None | NNegZero => Some 0%Z | _ => None end.

Definition nonneg (n : jsnum) : Prop :=
  match n with
  | NInt z => (0 <= z)%Z
  | NNegZero => True
  | NDec m e => (0 <= m)%Z /\ ((e < 0)%Z \/ (2 ^ 53 <= m * 10 ^ e)%Z)
  | NInf neg => neg = false
  | NNaN => False
  end.

Lemma strip_zeros_nonneg fuel m e : (0 <= m)%Z -> (0 <= (strip_zeros fuel m e).1)%Z.
Proof.
  revert m e. induction fuel as [|fuel IH]; intros m e Hm; [done|]. cbn [strip_zeros].
  destruct (_ =? 0)%Z; [|done]. apply IH. by apply Z.div_pos.
Qed.

Lemma dec_result_nonneg m e : (0 <= m)%Z -> nonneg (dec_result m e).
Proof.
  intros Hm. unfold dec_result. destruct (_ && _) eqn:E; [apply andb_true_iff in E as [He _]|clear E].
  - apply Z.leb_le in He. apply Z.mul_nonneg_nonneg; [done|]. by apply Z.pow_nonneg.
  - pose proof (strip_zeros_nonneg 400 m e Hm) as Hs. destruct (strip_zeros 400 m e) as [m' e']. cbn [fst] in Hs.
    destruct ((0 <=? e') && _)%Z eqn:E.
    + apply andb_true_iff in E as [He _]. apply Z.mul_nonneg_nonneg; [done|]. by apply Z.pow_nonneg.
    + split; [done|]. apply andb_false_iff in E as [E|E]; [left; lia|]. apply Z.ltb_ge in E.
      destruct (Z.ltb_spec e' 0); [by left|right]. rewrite Z.abs_eq in E; [done|].
      apply Z.mul_nonneg_nonneg; [done|]. by apply Z.pow_nonneg.
Qed.

Lemma scaled_nonneg n d k : (0 <= n)%Z -> (0 < d)%Z -> (0 <= (scaled n d k).1)%Z /\ (0 < (scaled n d k).2)%Z.
Proof.
  intros Hn Hd. unfold scaled. pose proof (Z.pow_nonneg 2 k ltac:(done)).
  destruct (Z.leb_spec 0 k) as [Hk|Hk]; cbn [fst snd]; split; try done; [nia|].
  apply Z.mul_pos_pos; [done|]. apply Z.pow_pos_nonneg; lia.
Qed.

Lemma round_div_nonneg n d : (0 <= n)%Z -> (0 < d)%Z -> (0 <= round_div n d)%Z.
Proof. intros Hn Hd. unfold round_div. pose proof (Z.div_pos n d Hn Hd). destruct (_ || _); lia. Qed.

Lemma to_double_nonneg n d : (0 <= n)%Z -> (0 < d)%Z -> (0 <= (to_double n d).1)%Z.
Proof.
  intros Hn Hd. unfold to_double. set (q := Z.max _ _). destruct (scaled_nonneg n d (- q) Hn Hd) as [H1 H2].
  destruct (scaled n d (- q)) as [a b]. destruct (_ =? 2 ^ 53)%Z; [done|]. by apply round_div_nonneg.
Qed.

Lemma near_decimals_nonneg n d p k : (0 <= n)%Z -> (0 < d)%Z -> Forall (λ me, 0 <= me.1)%Z (near_decimals n d p k).
Proof.
  intros Hn Hd. unfold near_decimals.
  assert (0 <= (if 0 <=? p - k then (n, d * 10 ^ (p - k)) else (n * 10 ^ (- (p - k)), d)).1 /\
          0 < (if 0 <=? p - k then (n, d * 10 ^ (p - k)) else (n * 10 ^ (- (p - k)), d)).2)%Z as [Ha Hb].
  { destruct (Z.leb_spec 0 (p - k)); cbn [fst snd]; split; try done.
    - apply Z.mul_pos_pos; [done|]. by apply Z.pow_pos_nonneg.
    - apply Z.mul_nonneg_nonneg; [done|]. by apply Z.pow_nonneg. }
  destruct (if 0 <=? p - k then _ else _)%Z as [a b]. cbn [fst snd] in Ha, Hb.
  pose proof (Z.div_pos a b Ha Hb). destruct (_ <? _)%Z; repeat constructor; cbn [fst]; lia.
Qed.

Lemma shortest_from_nonneg fuel n d p k f q : (0 <= n)%Z -> (0 < d)%Z -> (0 <= (shortest_from fuel n d p k f q).1)%Z.
Proof.
  intros Hn Hd. revert k. induction fuel as [|fuel IH]; intros k; cbn [shortest_from].
  - pose proof (near_decimals_nonneg n d p 17 Hn Hd) as Hf. by destruct Hf.
  - pose proof (near_decimals_nonneg n d p k Hn Hd) as Hf. destruct (List.filter _ _) as [|me l] eqn:E; [apply IH|].
    rewrite Forall_forall in Hf. apply Hf. apply list_elem_of_In.
    apply (proj1 (List.filter_In (reads_as f q) me (near_decimals n d p k))). rewrite E. by left.
Qed.

Lemma ratio_num_nonneg n d : (0 <= n)%Z -> (0 < d)%Z -> nonneg (ratio_num false n d).
Proof.
  intros Hn Hd. unfold ratio_num. destruct (n =? 0)%Z; [done|]. pose proof (to_double_nonneg n d Hn Hd) as Hf.
  destruct (to_double n d) as [f q]. cbn [fst] in Hf. destruct (f =? 0)%Z; [done|]. destruct (1024 <=? _)%Z; [done|].
  destruct (scaled_nonneg f 1 q Hf ltac:(done)) as [Hs1 Hs2]. unfold shortest.
  destruct (scaled f 1 q) as [a b]. pose proof (shortest_from_nonneg 17 a b (dec_digits a b) 1 f q Hs1 Hs2) as Hm.
  destruct (shortest_from _ _ _ _ _ _ _) as [m e]. by apply dec_result_nonneg.
Qed.

Lemma num_double_nonneg m e : (0 <= m)%Z -> (0 <= (num_double (NDec m e)).1)%Z.
Proof.
  intros Hm. unfold num_double. cbn [num_decimal]. destruct (Z.eqb_spec m 0) as [|Hz]; [done|].
  unfold dec_fraction.
  assert (0 <= (if 0 <=? e then (Z.abs m * 10 ^ e, 1) else (Z.abs m, 10 ^ (- e))).1 /\
          0 < (if 0 <=? e then (Z.abs m * 10 ^ e, 1) else (Z.abs m, 10 ^ (- e))).2)%Z as [Ha Hb].
  { destruct (Z.leb_spec 0 e); cbn [fst snd]; split; lia. }
  destruct (if 0 <=? e then _ else _)%Z as [a b]. pose proof (to_double_nonneg a b Ha Hb) as Hf.
  destruct (to_double a b) as [f q]. cbn [fst] in *. nia.
Qed.

(** A product of numbers that are not negative rounds up to a safe integer, or is larger. *)
Lemma num_ceil_nonneg n :
  nonneg n -> nonneg (num_ceil n) /\ num_is_integer (num_ceil n) || negb (num_is_finite (num_ceil n)) = true.
Proof.
  destruct n as [z| |m e|[]|]; cbn [num_ceil nonneg]; try done. intros [Hm He].
  destruct (Z.leb_spec 0 e) as [H0|H0]; [split; [by split|]; cbn; by rewrite (proj2 (Z.leb_le _ _) H0)|].
  pose proof (num_double_nonneg m e Hm) as Hf. destruct (num_double (NDec m e)) as [f q]. cbn [fst] in Hf.
  rewrite (proj2 (Z.ltb_ge m 0)), andb_false_r by done. split; [|done]. cbn [nonneg].
  pose proof (Z.pow_nonneg 2 (- q) ltac:(done)) as H2.
  destruct (Z.eq_dec (2 ^ (- q)) 0) as [->|]; [by rewrite Z.div_0_r|].
  pose proof (Z.div_le_upper_bound (- f) (2 ^ (- q)) 0 ltac:(lia) ltac:(lia)). lia.
Qed.

(** A finite number that is not below zero. *)
Definition nonneg_ratio (n : jsnum) : bool := num_is_finite n && negb (num_ltb n (NInt 0)).

Lemma num_times_nonneg t r z : safe_tokens t = Some z -> nonneg_ratio r = true -> nonneg (num_times t r).
Proof.
  intros Ht [Hfin Hneg%negb_true_iff]%andb_true_iff.
  assert (forall (x y : Z * Z) k, (0 <= x.1)%Z -> (0 <= y.1)%Z ->
    nonneg (let '(n, d) := scaled (Z.abs (x.1 * y.1)) 1 k in ratio_num false n d)) as Hprod.
  { intros x y k Hx Hy. destruct (scaled_nonneg (Z.abs (x.1 * y.1)) 1 k ltac:(lia) ltac:(lia)) as [H1 H2].
    destruct (scaled _ 1 k) as [n d]. by apply ratio_num_nonneg. }
  assert (forall n, match n with NInt z => (0 <= z)%Z | NDec m _ => (0 <= m)%Z | NNegZero => True | _ => False end ->
    (0 <= (num_double n).1)%Z) as Hd.
  { intros [y| |m e|?|] Hn; try done; [|by apply num_double_nonneg]. by apply (num_double_nonneg y 0). }
  assert (forall b, nonneg (signed_zero b)) as Hz by by intros [].
  assert (nonneg_int : forall m e, num_ltb (NDec m e) (NInt 0) = false -> (0 <= m)%Z).
  { intros m e H. cbn [num_ltb num_decimal] in H. unfold dec_ltb in H. cbn [fst snd] in H. apply Z.ltb_ge in H.
    pose proof (Z.pow_pos_nonneg 10 (e - Z.min e 0) ltac:(lia) ltac:(lia)). nia. }
  assert (Hr : match r with NInt z => (0 <= z)%Z | NDec m _ => (0 <= m)%Z | NNegZero => True | _ => False end).
  { destruct r as [y| |m e|?|]; try done; [|by eapply nonneg_int].
    cbn [num_ltb num_decimal] in Hneg. unfold dec_ltb in Hneg. cbn in Hneg. apply Z.ltb_ge in Hneg. lia. }
  assert (Ht' : match t with NInt z => (0 <= z)%Z | NNegZero => True | _ => False end).
  { destruct t as [y| | | |]; try done. cbn in Ht. by destruct (Z.leb_spec 0 y). }
  destruct t as [x| |? ?|?|]; try done; destruct r as [y| |m e|?|]; try done; cbn [num_times num_is_zero];
    rewrite ?orb_true_r, ?orb_true_l; try apply Hz.
  - destruct (_ || _); [apply Hz|]. cbn [num_is_neg].
    rewrite (proj2 (Z.ltb_ge x 0) Ht'), (proj2 (Z.ltb_ge y 0) Hr). cbn [xorb].
    pose proof (Hprod _ _ ((num_double (NInt x)).2 + (num_double (NInt y)).2)%Z (Hd (NInt x) Ht') (Hd (NInt y) Hr)) as Hp.
    by destruct (num_double (NInt x)), (num_double (NInt y)).
  - destruct (_ || _); [apply Hz|]. cbn [num_is_neg].
    rewrite (proj2 (Z.ltb_ge x 0) Ht'), (proj2 (Z.ltb_ge m 0) Hr). cbn [xorb].
    pose proof (Hprod _ _ ((num_double (NInt x)).2 + (num_double (NDec m e)).2)%Z (Hd (NInt x) Ht') (Hd (NDec m e) Hr)) as Hp.
    by destruct (num_double (NInt x)), (num_double (NDec m e)).
Qed.

(** The lesser of a safe number of tokens and an integer. *)
Lemma num_min_safe t n z :
  safe_tokens t = Some z -> (z < 2 ^ 53)%Z -> nonneg n -> num_is_integer n || negb (num_is_finite n) = true ->
  exists o, safe_tokens (num_min t n) = Some o /\ (0 <= o <= z)%Z.
Proof.
  intros Ht Hz Hn Hi.
  assert (Hl : forall x m e, (0 <= e)%Z -> num_ltb (NDec m e) (NInt x) = (m * 10 ^ e <? x)%Z).
  { intros x m e He. cbn [num_ltb num_decimal]. unfold dec_ltb. cbn [fst snd]. rewrite Z.min_r by done.
    by rewrite Z.sub_0_r, Z.mul_1_r. }
  assert (Hl' : forall x y, dec_ltb (x, 0%Z) (y, 0%Z) = (x <? y)%Z).
  { intros x y. unfold dec_ltb. cbn. by rewrite !Z.mul_1_r. }
  destruct t as [x| |? ?|?|]; try done; cbn [safe_tokens] in Ht.
  - destruct (Z.leb_spec 0 x); [|done]. injection Ht as ->. destruct n as [y| |m e|[]|]; try done; cbn [nonneg] in Hn.
    + replace (num_min (NInt z) (NInt y)) with (if (y <? z)%Z then NInt y else NInt z)
        by (cbn [num_min num_ltb num_decimal]; rewrite Hl'; by destruct z).
      destruct (Z.ltb_spec y z); cbn [safe_tokens]; rewrite (proj2 (Z.leb_le 0 _)) by lia; eexists; (split; [done|lia]).
    + replace (num_min (NInt z) NNegZero) with (if (z =? 0)%Z || (0 <? z)%Z then NNegZero else NInt z)
        by (cbn [num_min num_ltb num_decimal]; rewrite Hl'; by destruct z).
      rewrite (proj2 (orb_true_iff _ _)) by (rewrite Z.eqb_eq, Z.ltb_lt; lia). by exists 0%Z.
    + cbn in Hi. rewrite orb_false_r in Hi. apply Z.leb_le in Hi. destruct Hn as [_ Hn].
      replace (num_min (NInt z) (NDec m e)) with (NInt z).
      { exists z. cbn [safe_tokens]. by rewrite (proj2 (Z.leb_le 0 _)) by lia. }
      unfold num_min. rewrite Hl by done. rewrite (proj2 (Z.ltb_ge _ _)) by lia. by destruct z.
    + exists z. replace (num_min (NInt z) (NInf false)) with (NInt z) by by destruct z.
      cbn [safe_tokens]. by rewrite (proj2 (Z.leb_le 0 _)) by lia.
  - injection Ht as <-. exists 0%Z. split; [|lia]. destruct n as [y| |m e|[]|]; try done; cbn [nonneg] in Hn.
    + unfold num_min. cbn [num_ltb num_decimal]. rewrite Hl', (proj2 (Z.ltb_ge y 0)) by done. done.
    + unfold num_min. replace (num_ltb (NDec m e) NNegZero) with (num_ltb (NDec m e) (NInt 0)) by done.
      cbn in Hi. rewrite orb_false_r in Hi. apply Z.leb_le in Hi.
      rewrite Hl by done. rewrite (proj2 (Z.ltb_ge _ _)); [done|]. pose proof (Z.pow_nonneg 10 e). nia.
Qed.

Lemma safe_nonneg n z : safe_tokens n = Some z -> nonneg n /\ num_is_integer n || negb (num_is_finite n) = true.
Proof. destruct n as [y| | | |]; try done. cbn. by destruct (Z.leb_spec 0 y). Qed.

Lemma optimized_bounds options n z t :
  nonneg_ratio (po_warmTokenRatio options) = true -> is_Some (safe_tokens (po_coldPointerTokens options)) ->
  is_Some (safe_tokens (po_proofOnlyTokens options)) -> safe_tokens n = Some z -> (z < 2 ^ 53)%Z ->
  exists o, safe_tokens (optimizedTokensForTier n t options) = Some o /\ (0 <= o <= z)%Z.
Proof.
  intros Hr [c Hc] [p Hp] Hn Hz. destruct t; cbn [optimizedTokensForTier].
  - exists z. split; [done|]. destruct n as [y| | | |]; try done; cbn in Hn; [|by injection Hn as <-].
    destruct (Z.leb_spec 0 y); [|done]. by injection Hn as <-.
  - destruct (num_ceil_nonneg _ (num_times_nonneg _ _ _ Hn Hr)). by apply num_min_safe.
  - apply num_min_safe; try done; by eapply safe_nonneg.
  - apply num_min_safe; try done; by eapply safe_nonneg.
Qed.

(** ** Sums *)
Lemma sum_nonneg l : Forall (Z.le 0) l -> (0 <= foldr Z.add 0 l)%Z.
Proof. induction 1; cbn; lia. Qed.

Lemma safe_tokens_pos n z : safe_tokens n = Some z -> (0 <= z)%Z.
Proof. destruct n as [y| | | |]; try done; cbn; [destruct (Z.leb_spec 0 y); [|done]|]; intros [= <-]; done. Qed.

Lemma add_tokens_safe l zs start z :
  map safe_tokens l = map Some zs -> safe_tokens start = Some z -> (z + foldr Z.add 0 zs < 2 ^ 53)%Z ->
  Forall (Z.le 0) zs -> safe_tokens (add_tokens l start) = Some (z + foldr Z.add 0 zs)%Z.
Proof.
  unfold add_tokens. intros Hl Hs Hb Hnn. revert l start z Hl Hs Hb.
  induction Hnn as [|x zs Hx Hnn IH]; intros [|n l] start z Hl Hs Hb; try done.
  - cbn. by rewrite Z.add_0_r.
  - injection Hl as Hn Hl. cbn [foldl foldr] in *. rewrite Z.add_assoc. apply IH; [done| |lia].
    pose proof (sum_nonneg zs Hnn). pose proof (safe_tokens_pos _ _ Hs).
    destruct n as [x'| | | |]; try done; cbn in Hn; [destruct (Z.leb_spec 0 x'); [|done]|]; injection Hn as <-;
      (destruct start as [y| | | |]; try done; cbn in Hs; [destruct (Z.leb_spec 0 y); [|done]|]; injection Hs as <-);
      cbn [num_plus]; rewrite ?Z.add_0_l, ?Z.add_0_r; cbn [safe_tokens]; try done;
      try (by rewrite (proj2 (Z.leb_le 0 _)) by lia).
    unfold int_result. rewrite (proj2 (Z.ltb_lt _ _)) by lia. cbn [safe_tokens]. by rewrite (proj2 (Z.leb_le 0 _)) by lia.
Qed.

(** ** The steps of a plan *)
Section plans.
Context {C : Crypto} {Hst : Host} {P : Platform}.

Definition normalized_candidates (args : obj) (options : plan_options) : res (list candidate) :=
  imap_res (λ index c, normalizeCandidate (elem c) index options) (items_of (fget args "candidates")).

Lemma created_plan input p :
  createMemoryOptimizationPlan input = Ok p ->
  exists args options normalized items0 shared,
    plan_args input = Ok args /\ normalizePlanOptions args = Ok options /\
    normalized_candidates args options = Ok normalized /\
    map_res (planItemFromCandidate options) (foldl dedupe_step [] normalized).*2 = Ok items0 /\
    shared_tokens args = Ok shared /\ pl_items p = sort_items items0 /\
    pl_baseline_prompt_tokens p = add_tokens (map pi_estimated_tokens (pl_items p)) shared /\
    pl_optimized_prompt_tokens p = add_tokens (map pi_optimized_prompt_tokens (pl_items p)) shared /\
    pl_input_candidates p = length (items_of (fget args "candidates")).
Proof.
  unfold createMemoryOptimizationPlan, dedupeCandidates. intros H. inv_res.
  match goal with H1 : imap_res _ _ = Ok ?n, H2 : map_res _ _ = Ok ?i, H3 : shared_tokens _ = Ok ?s |- _ =>
    eexists _, _, n, i, s; repeat split; eassumption || reflexivity end.
Qed.

Lemma warm_ratio_nonneg args options : normalizePlanOptions args = Ok options -> nonneg_ratio (po_warmTokenRatio options) = true.
Proof.
  unfold normalizePlanOptions, nonNegativeNumber. intros H. inv_res. cbn [po_warmTokenRatio].
  match goal with H : _ || num_ltb ?n _ = false |- nonneg_ratio ?n = true => revert H end.
  unfold nonneg_ratio. by rewrite orb_false_iff, andb_true_iff, negb_false_iff, negb_true_iff.
Qed.

Lemma item_of_candidate options c i :
  planItemFromCandidate options c = Ok i ->
  pi_content_hash i = cd_content_hash c /\ pi_estimated_tokens i = cd_estimated_tokens c /\
  pi_optimized_prompt_tokens i = optimizedTokensForTier (cd_estimated_tokens c) (pi_tier i) options.
Proof. unfold planItemFromCandidate. intros H. inv_res. done. Qed.

(** A plan lists each distinct content of the candidates exactly once, hot items
    first and proof-only ones last, and the item of a content is that of a candidate
    that no later candidate with the same content is preferred to. *)
Theorem plan_dedupes input p :
  createMemoryOptimizationPlan input = Ok p ->
  exists args options candidates,
    plan_args input = Ok args /\ normalizePlanOptions args = Ok options /\
    normalized_candidates args options = Ok candidates /\ pl_input_candidates p = length candidates /\
    NoDup (map pi_content_hash (pl_items p)) /\
    (forall h, h ∈ map pi_content_hash (pl_items p) <-> h ∈ map cd_content_hash candidates) /\
    StronglySorted tier_le (pl_items p) /\
    forall i, i ∈ pl_items p -> exists l1 c l2,
      candidates = l1 ++ c :: l2 /\ planItemFromCandidate options c = Ok i /\
      forall c', c' ∈ l2 -> cd_content_hash c' = pi_content_hash i -> preferred c' c = false.
Proof.
  intros (args & options & l & items & shared & Ha & Ho & Hn & Hi & _ & Hp & _ & _ & Hlen)%created_plan.
  exists args, options, l. pose proof (dedupe_inv l) as [Hd Hc Hk]. apply map_res_ok in Hi.
  set (m := foldl dedupe_step [] l) in *.
  assert (map pi_content_hash items = m.*1) as Hh.
  { assert (Forall (λ kc, cd_content_hash kc.2 = kc.1) m) as Hm.
    { apply Forall_forall. intros [h c] Hin. by destruct (Hk _ _ Hin). }
    clear -Hi Hm. revert items Hi. induction Hm as [|[h c] m Hh _ IH]; intros items Hi; inversion Hi as [|? i ? js Hi1 Hi2];
      subst; [done|]. cbn. f_equal; [|by apply IH]. by apply item_of_candidate in Hi1 as [-> _]. }
  rewrite Hp. pose proof (sort_items_perm items) as Hperm.
  repeat split; try done.
  - rewrite Hlen. unfold normalized_candidates, imap_res in Hn. by apply imap_res_from_ok in Hn as [-> _].
  - by rewrite Hperm, Hh.
  - by rewrite Hperm, Hh, Hc.
  - by rewrite Hperm, Hh, Hc.
  - apply sort_items_tiers.
  - intros i. rewrite Hperm. intros Hin. apply list_elem_of_lookup in Hin as [k Hk'].
    eapply Forall2_lookup_r in Hi as (c & Hc' & Hi); [|done].
    apply list_elem_of_lookup_2, list_elem_of_fmap in Hc' as ([h c0] & -> & Hin). cbn in *.
    destruct (Hk _ _ Hin) as (Hh' & l1 & l2 & Hl & Hpref). exists l1, c0, l2. repeat split; [done|done|].
    intros c' Hc' Hs. apply Hpref; [done|]. apply item_of_candidate in Hi as [Hi _]. congruence.
Qed.

(** C26 The totals of a plan add up: when the candidates, together with the shared prompt,
    take fewer than [2^53] tokens, the baseline is the sum of the estimates, every item
    is given between none and all of its tokens, and the optimized total is the sum of
    those, so that it never exceeds the baseline. *)
Theorem plan_totals_add_up input p args options shared n tokens :
  createMemoryOptimizationPlan input = Ok p ->
  plan_args input = Ok args -> normalizePlanOptions args = Ok options -> shared_tokens args = Ok shared ->
  is_Some (safe_tokens (po_coldPointerTokens options)) -> is_Some (safe_tokens (po_proofOnlyTokens options)) ->
  safe_tokens shared = Some n -> map (safe_tokens ∘ pi_estimated_tokens) (pl_items p) = map Some tokens ->
  (n + foldr Z.add 0 tokens < 2 ^ 53)%Z ->
  exists optimized,
    map (safe_tokens ∘ pi_optimized_prompt_tokens) (pl_items p) = map Some optimized /\
    Forall2 (λ o t, 0 <= o <= t)%Z optimized tokens /\
    safe_tokens (pl_baseline_prompt_tokens p) = Some (n + foldr Z.add 0 tokens)%Z /\
    safe_tokens (pl_optimized_prompt_tokens p) = Some (n + foldr Z.add 0 optimized)%Z /\
    (foldr Z.add 0 optimized <= foldr Z.add 0 tokens)%Z.
Proof.
  intros (args' & options' & l & items & shared' & Ha & Ho & Hn & Hi & Hs & Hp & Hb & Hop & _)%created_plan.
  rewrite Ha. intros <-%Ok_inj. rewrite Ho. intros <-%Ok_inj. rewrite Hs. intros <-%Ok_inj Hcold Hproof Hshared Htok Hlt.
  assert (Hopt : Forall (λ i, pi_optimized_prompt_tokens i =
                   optimizedTokensForTier (pi_estimated_tokens i) (pi_tier i) options') (pl_items p)).
  { rewrite Hp, sort_items_perm. apply map_res_ok in Hi. clear -Hi.
    induction Hi as [|c i cs is' Hi _ IH]; constructor; [|done]. by apply item_of_candidate in Hi as (_ & -> & ?). }
  assert (Hratio : nonneg_ratio (po_warmTokenRatio options') = true) by by eapply warm_ratio_nonneg.
  assert (0 <= n)%Z as Hn0 by (by apply safe_tokens_pos in Hshared).
  assert (Hpos : Forall (Z.le 0) tokens).
  { apply Forall_forall. intros z Hz. assert (Some z ∈ map Some tokens) as Hin by (apply list_elem_of_fmap; by exists z).
    rewrite <- Htok in Hin. apply list_elem_of_fmap in Hin as (i & Hi' & _). by eapply safe_tokens_pos. }
  assert (exists optimized, map (safe_tokens ∘ pi_optimized_prompt_tokens) (pl_items p) = map Some optimized /\
    Forall2 (λ o t, 0 <= o <= t)%Z optimized tokens) as (optimized & Hmap & Hle).
  { clear Hb Hop Hp. revert tokens Htok Hlt Hpos. induction Hopt as [|i is' Hi' _ IH]; intros [|z zs] Htok Hlt Hpos; try done.
    - by exists [].
    - injection Htok as Hz Htok. apply Forall_cons in Hpos as [Hz0 Hpos]. cbn [foldr] in Hlt.
      assert (0 <= foldr Z.add 0 zs)%Z by by apply sum_nonneg.
      destruct (IH zs Htok ltac:(lia) Hpos) as (os & Hos & Hle).
      destruct (optimized_bounds options' _ z (pi_tier i) Hratio Hcold Hproof Hz ltac:(lia)) as (o & Ho' & Hb).
      exists (o :: os). split; [|by constructor]. cbn. rewrite Hos. f_equal. by rewrite Hi'. }
  assert (foldr Z.add 0 optimized <= foldr Z.add 0 tokens)%Z as Hsum by (clear -Hle; induction Hle; cbn; lia).
  exists optimized. rewrite Hb, Hop. repeat split; try done.
  - apply add_tokens_safe; [by rewrite map_map|done..].
  - apply add_tokens_safe; [by rewrite map_map|done|lia|]. clear -Hle. induction Hle; constructor; [lia|done].
Qed.

(** ** Content does not reach a plan *)
Definition given (value : jsval) : bool := negb (is_nullish value || (value === VStr [])).

(** Two candidates with the same properties but for their content: the content hash is
    given or the contents have the same, and the tokens are given or the contents are
    estimated the same. *)
Record same_memory (fs1 fs2 : obj) : Prop := {
  sm_fields (k : jstr) : k <> "content" -> fget fs1 k = fget fs2 k;
  sm_hash : given (fget fs1 "content_hash" ?? fget fs1 "contentHash") = true \/
    normalizeContentHash VUndef (fget fs1 "content") = normalizeContentHash VUndef (fget fs2 "content");
  sm_tokens : is_undef (explicit_tokens fs1) = false \/
    estimateTextTokens (fget fs1 "content") = estimateTextTokens (fget fs2 "content")
}.

Lemma normalizeCandidate_same fs1 fs2 index options :
  same_memory fs1 fs2 -> normalizeCandidate (VObj fs1) index options = normalizeCandidate (VObj fs2) index options.
Proof.
  intros [Hf Hh Ht]. unfold normalizeCandidate. cbn [is_plain negb own_fields].
  assert (forall k, (k =s= "content") = false -> fget fs2 k = fget fs1 k) as Hf'.
  { intros k Hk. symmetry. apply Hf. by apply str_eqb_neq. }
  assert (explicit_tokens fs2 = explicit_tokens fs1) as He.
  { unfold explicit_tokens. by rewrite !Hf' by reflexivity. }
  unfold estimateCandidateTokens. rewrite He, (Hf' "content_hash"), (Hf' "contentHash"), (Hf' "address"), (Hf' "metadata"),
    (Hf' "importance"), (Hf' "last_accessed_at"), (Hf' "lastAccessedAt") by reflexivity.
  assert (forall h, given h = true \/ normalizeContentHash VUndef (fget fs1 "content") =
                    normalizeContentHash VUndef (fget fs2 "content") ->
    normalizeContentHash h (fget fs1 "content") = normalizeContentHash h (fget fs2 "content")) as Hn.
  { intros h [Hg|Hn]; unfold normalizeContentHash in *; fold (given h).
    - by rewrite Hg.
    - destruct (given h); [done|exact Hn]. }
  rewrite (Hn _ Hh). destruct Ht as [Ht|Ht]; [by rewrite Ht|by rewrite Ht].
Qed.

(** Nothing of a memory's content but its hash and its token estimate reaches a plan:
    candidates that agree on these and on their other properties give the same plan, and
    the same error. *)
Theorem plan_hides_content args l1 l2 :
  Forall2 same_memory l1 l2 ->
  createMemoryOptimizationPlan (VObj (fset args "candidates" (VArr (map VObj l1)))) =
  createMemoryOptimizationPlan (VObj (fset args "candidates" (VArr (map VObj l2)))).
Proof.
  intros Hs. set (args1 := fset args "candidates" (VArr (map VObj l1))).
  set (args2 := fset args "candidates" (VArr (map VObj l2))).
  assert (forall k : jstr, (("candidates" : jstr) =s= k) = false -> fget args2 k = fget args1 k) as Hk.
  { intros k E. unfold args1, args2. by rewrite !fget_fset, E. }
  assert (forall args l, plan_args (VObj (fset args "candidates" (VArr l))) = Ok (fset args "candidates" (VArr l))) as Hp.
  { intros args0 l. unfold plan_args, vget. cbn [is_plain negb own_fields]. by rewrite fget_fset, str_eqb_refl. }
  assert (normalizePlanOptions args2 = normalizePlanOptions args1) as Ho.
  { unfold normalizePlanOptions. by rewrite !Hk by reflexivity. }
  assert (shared_tokens args2 = shared_tokens args1) as Ht.
  { unfold shared_tokens. by rewrite !Hk by reflexivity. }
  assert (forall options, dedupeCandidates (items_of (fget args1 "candidates")) options =
                     dedupeCandidates (items_of (fget args2 "candidates")) options) as Hd.
  { intros options. unfold args1, args2, dedupeCandidates, imap_res. rewrite !fget_fset, !str_eqb_refl. cbn [items_of].
    f_equal. clear -Hs. generalize 0%nat. induction Hs as [|fs1 fs2 l1 l2 Hs _ IH]; intros k; [done|].
    cbn [map imap_res_from elem]. by rewrite (normalizeCandidate_same _ _ _ _ Hs), IH. }
  unfold createMemoryOptimizationPlan. unfold args1 at 1, args2 at 1. rewrite !Hp. cbn [res_bind].
  fold args1 args2. rewrite Ho, Ht. destruct (normalizePlanOptions args1) as [options|]; cbn [res_bind]; [|reflexivity].
  rewrite Hd, (Hk "pricing"), (Hk "price"), (Hk "price_per_million_tokens"), (Hk "pricePerMillionTokens"),
    (Hk "plan_id"), (Hk "planId") by reflexivity.
  replace (length (items_of (fget args2 "candidates"))) with (length (items_of (fget args1 "candidates"))); [done|].
  unfold args1, args2. rewrite !fget_fset, !str_eqb_refl. cbn [items_of]. rewrite !length_map. by eapply Forall2_length.
Qed.
End plans.

(** The estimate of a text: words take a token for every four characters, every other
    visible character takes one, and blanks take none; so a text takes at most a token a
    visible character and at least one for four of them. *)
Theorem estimate_by_words :
  (forall w, Forall is_word w -> estimateTextTokens (VStr w) = ((length w + 3) / 4)%nat) /\
  (forall a c b, is_word c = false ->
     estimateTextTokens (VStr (a ++ c :: b)) =
     (estimateTextTokens (VStr a) + (if (32 <? c)%N then 1 else 0) + estimateTextTokens (VStr b))%nat) /\
  (forall s, estimateTextTokens (VStr s) <= length (visible s) <= 4 * estimateTextTokens (VStr s))%nat.
Proof.
  unfold estimateTextTokens. cbn [is_nullish to_str]. split; [|split].
  - intros w Hw. rewrite tokens_word by done. destruct (length w) as [|n]; [done|]. cbn [tokens_from Nat.add Nat.eqb].
    unfold word_tokens. rewrite Nat.max_r; [done|]. apply (Nat.div_le_lower_bound _ 4 1); lia.
  - intros a c b Hc. by apply tokens_split.
  - intros s. by pose proof (tokens_bounds 0 s).
Qed.

(** ** A plan *)
Definition sample_memory (content importance : jsval) : obj :=
  [("content" : jstr, content); ("importance" : jstr, importance)].

Definition sample_input : jsval :=
  VObj [("candidates" : jstr, VArr [VObj (sample_memory (vstr "first note") (vint 1));
                                    VObj (sample_memory (vstr "second, longer note") (VNum (NDec 5 (-1))));
                                    VObj (sample_memory (vstr "first note") (vint 0))]);
        ("prompt" : jstr, vstr "a question"); ("pricing" : jstr, vint 3)].

Lemma plan_dedupes_witness :
  exists p, createMemoryOptimizationPlan sample_input = Ok p /\ NoDup (map pi_content_hash (pl_items p)).
Proof.
  destruct (createMemoryOptimizationPlan sample_input) as [p|e] eqn:E; [|by vm_compute in E].
  exists p. split; [reflexivity|]. destruct (plan_dedupes sample_input p E) as (_ & _ & _ & _ & _ & _ & _ & H & _). exact H.
Defined.

Lemma plan_totals_add_up_witness :
  exists p, createMemoryOptimizationPlan sample_input = Ok p /\
    safe_tokens (pl_baseline_prompt_tokens p) = Some 12%Z /\
    exists o, safe_tokens (pl_optimized_prompt_tokens p) = Some (3 + foldr Z.add 0 o)%Z /\ (foldr Z.add 0 o <= 9)%Z.
Proof.
  destruct (createMemoryOptimizationPlan sample_input) as [p|e] eqn:E; [|by vm_compute in E].
  destruct (normalizePlanOptions (own_fields sample_input)) as [options|e] eqn:Eo; [|by vm_compute in Eo].
  exists p. split; [reflexivity|].
  destruct (plan_totals_add_up sample_input p (own_fields sample_input) options (NInt 3) 3 [3; 6]%Z E eq_refl Eo
    ltac:(vm_compute; reflexivity)) as (o & _ & _ & Hb & Ho & Hle).
  - revert Eo. vm_compute. intros [= <-]. by eexists.
  - revert Eo. vm_compute. intros [= <-]. by eexists.
  - reflexivity.
  - revert E. vm_compute. intros [= <-]. reflexivity.
  - reflexivity.
  - split; [exact Hb|]. exists o. split; [exact Ho|exact Hle].
Defined.

Definition hashed_memory (content : jsval) : obj :=
  [("content" : jstr, content); ("content_hash" : jstr, VStr (replicate 64 97%N)); ("token_count" : jstr, vint 5)].

Lemma plan_hides_content_witness :
  is_ok (createMemoryOptimizationPlan (VObj [("candidates" : jstr, VArr [VObj (hashed_memory (vstr "my secret"))])])) = true /\
  createMemoryOptimizationPlan (VObj [("candidates" : jstr, VArr [VObj (hashed_memory (vstr "my secret"))])]) =
  createMemoryOptimizationPlan (VObj [("candidates" : jstr, VArr [VObj (hashed_memory VUndef)])]).
Proof.
  split; [vm_compute; reflexivity|].
  apply (plan_hides_content [] [hashed_memory (vstr "my secret")] [hashed_memory VUndef]).
  constructor; [|constructor]. split; [|by left..].
  intros k Hk. cbn [hashed_memory fget]. by rewrite (proj2 (str_eqb_neq _ _)) by (apply not_eq_sym; exact Hk).
Defined.

(** An upper-case prefix matches the pattern of a hash but is not taken off it. *)
Example prefix_doubled :
  normalizeSha256Root (VStr ("SHA256:" +s+ replicate 64 97%N)) "content_hash" =
  Ok ("sha256:sha256:" +s+ replicate 64 97%N).
Proof. vm_compute. reflexivity. Qed.
