(* ===== verification/PassportSafety.v ===== *)
(** * What context packs guarantee

    A pack that [compileContextPack] returns holds exactly the live texts of the selected
    memories and verifies under the key of its vault; an accepted pack names only active
    memories, each with a signed retrieval and a signed injection.  The contents of the
    memories, however, are not covered by the verification. *)

From S2P Require Import Prelude JsValue Objects Doubles Regex Canonical Hashing Merkle Receipt PublicSafe Dates VaultPublic Vault Samples MapFacts VaultBundle VaultSafety VaultRecall VaultRefinement VaultErasure VaultReplay Settlement Optimizer Passport.

(** ** Compiling a pack moves the vault by reads and events *)
Section along_compile.
Context {C : Crypto} {Hst : Host} {Loc : Locale} {P : Platform}.
Context (R : relation Vault) {HR : PreOrder R}.
Context (read : forall addr, along R (getPlaintext addr)).
Context (append : forall clock uuid fields, along R (appendEvent clock uuid fields)).

#[local] Hint Resolve read append : vault.

Lemma along_candidates addresses : along R (candidates_of addresses).
Proof using HR read.
  induction addresses as [|addr addresses IH]; cbn [candidates_of]; [apply along_ret; apply _|].
  apply along_bind; [apply _| |intros c; apply along_bind; [apply _|done|intros; apply along_ret; apply _]].
  unfold optimizationCandidateFrom. cbn zeta. along_all ltac:(idtac).
Qed.

Lemma along_select args limit : along R (select_memories args limit).
Proof using HR read.
  unfold select_memories, optimizedSelectionFrom. cbn zeta. pose proof along_candidates. along_all ltac:(idtac).
Qed.

Lemma along_inject d args cid i selected : along R (inject_memories d args cid i selected).
Proof using HR append read.
  revert i. induction selected as [|addr selected IH]; intros i; cbn [inject_memories]; [apply along_ret; apply _|].
  cbn zeta. along_all ltac:(idtac).
Qed.

Lemma along_compile d args : along R (compileContextPack d args).
Proof using HR append read.
  unfold compileContextPack. cbn zeta. pose proof along_select. pose proof along_inject. along_all ltac:(idtac).
Qed.
End along_compile.

Section compiled.
Context {C : Crypto} {L : CryptoLaws C} {Hst : Host} {Loc : Locale} {P : Platform}.

Lemma getPlaintext_step addr v x v' :
  getPlaintext addr v = (x, v') ->
  v' = v \/ exists a m m', addr = VStr a /\ map_get (v_memories v) a = Some m /\
                      decryptContent v m = (x, m') /\ v' = put_memory a m' v.
Proof.
  unfold getPlaintext. cbn [vbind vread]. destruct (getRecord v addr) as [m|] eqn:E; [|by intros [= _ <-]; left].
  unfold getRecord in E. destruct addr as [| | | |a| | | | | | | |]; try done. cbn [str_of].
  destruct (decryptContent v m) as [t m'] eqn:Ed. cbn [vbind vmodify vlift]. intros [= <- <-]. right. by exists a, m, m'.
Qed.

Lemma along_getPlaintext (R : relation Vault) {HR : PreOrder R} addr :
  (forall v a m x m', map_get (v_memories v) a = Some m -> decryptContent v m = (x, m') -> R v (put_memory a m' v)) ->
  along R (getPlaintext addr).
Proof.
  intros Hp v. destruct (getPlaintext addr v) as [x v'] eqn:E. cbn [snd].
  apply getPlaintext_step in E as [->|(a & m & m' & _ & Hm & Hd & ->)]; [reflexivity|by eapply Hp].
Qed.

Lemma along_eq {A} (R : relation Vault) (m : VM A) v x v' : along R m -> m v = (x, v') -> R v v'.
Proof. intros H E. specialize (H v). by rewrite E in H. Qed.

Lemma compile_log pk d args : along (log_step pk) (compileContextPack d args).
Proof.
  apply along_compile; [apply _| |apply log_appendEvent]. intros addr. apply along_getPlaintext; [apply _|].
  intros. by apply log_step_frame.
Qed.

#[local] Instance sets_preorder : PreOrder same_sets.
Proof. split; unfold same_sets; [done|]. intros v1 v2 v3 [] []. split; congruence. Qed.

Lemma compile_sets d args : along same_sets (compileContextPack d args).
Proof.
  apply along_compile; [apply _| |apply appendEvent_sets]. intros addr. apply along_getPlaintext; [apply _|done].
Qed.

(** What a successful compilation did. *)
Record compiled (d : draws) (args : obj) (v : Vault) (pack : jsval) (v' : Vault) (selected : list jsval)
    (entries : list pack_entry) : Prop := {
  cm_selection : exists v1 cid,
    (exists limit x, select_memories args limit v = (Ok x, v1) /\ x.1 = selected) /\
    Forall (λ a, selection_errors v1 (map VStr (v_activeAddresses v)) (map VStr (v_tombstones v).*1) a = []) selected /\
    inject_memories d args cid 2 selected v1 = (Ok entries, v');
  cm_pack : exists cid pid generatedAt roots p receipts,
    pack = context_pack args cid pid generatedAt selected entries roots p receipts
}.

Lemma compile_inv d args v pack v' :
  compileContextPack d args v = (Ok pack, v') -> exists selected entries, compiled d args v pack v' selected entries.
Proof.
  unfold compileContextPack. cbn zeta. intros H.
  apply vbind_ok in H as (? & ? & [= <- <-] & H). apply vbind_ok in H as (passport & ? & [= Hpass <-] & H).
  apply vbind_ok in H as (limit & ? & [= Hlimit <-] & H). apply vbind_ok in H as (sel & v1 & Hsel & H).
  apply vbind_ok in H as (? & ? & [= <- <-] & H). apply vbind_ok in H as ([] & ? & [= Hrej <-] & H).
  apply vbind_ok in H as (generatedAt & ? & [= Hgen <-] & H). apply vbind_ok in H as (entries & v2 & Hinj & H).
  apply vbind_ok in H as (ors & ? & [= Hors <-] & H). apply vbind_ok in H as (? & ? & [= <- <-] & H).
  apply vbind_ok in H as (roots & ? & [= Hroots <-] & H). injection H as <- <-.
  exists sel.1, entries. split.
  - eexists _, _. split; [by exists limit, sel|]. split; [|exact Hinj].
    unfold rejectInvalid in Hrej. destruct (flat_map _ sel.1) eqn:E; [|done]. rewrite flat_map_nil in E.
    by apply Forall_forall.
  - by eexists _, _, _, _, _, _.
Qed.

(** ** The receipts of a pack *)
Lemma receipt_body_strings now o body :
  receipt_body now o = Ok body ->
  (exists s, fget body "operation" = VStr s) /\ (exists s, fget body "tenant_id" = VStr s) /\
  (exists s, fget body "subject_id" = VStr s).
Proof.
  unfold receipt_body. intros H. cbn zeta in H. inv_res.
  split_and!; rewrite ?fget_copyOptional by (vm_compute; reflexivity); simp_get; eauto.
Qed.

Lemma root_text v : is_root v -> re_full ROOT_RE (to_str (v ?? VStr [])) = true.
Proof. by intros (s & -> & H). Qed.

Lemma previous_text s : s = GENESIS \/ re_full ROOT_RE s = true -> re_full PREVIOUS_RECEIPT_RE s = true.
Proof.
  intros [->|H]; [by vm_compute|]. apply re_full_spec. apply lang_alt_r. by apply re_full_spec in H.
Qed.

Lemma created_shape pk now o body rid sig :
  let r := VObj (receipt_of body (VStr rid) (VObj [("alg" : jstr, VStr ED25519); ("value" : jstr, VStr sig)])) in
  receipt_body now o = Ok body -> receipt_accepted (chain_options pk) r = true -> receiptHasPublicShape r = true.
Proof.
  cbn zeta. intros Hbody Ha. rewrite receipt_accepted_eq in Ha by reflexivity. cbn [is_record] in Ha.
  apply bool_decide_eq_true in Ha. unfold Receipt.receipt_errors in Ha.
  pose proof (receipt_body_ok _ _ _ Hbody) as Hb.
  destruct (receipt_body_strings _ _ _ Hbody) as ((op & Hop) & (tn & Htn) & (sb & Hsb)).
  destruct (receipt_of_fields body (VStr rid) (VObj [("alg" : jstr, VStr ED25519); ("value" : jstr, VStr sig)]) Hb)
    as (F1 & F2 & F3 & F4 & F5 & F6 & F7 & F8 & F9).
  set (r := VObj (receipt_of _ _ _)) in *. destruct Hb as [_ B2 B3 B4 B5 (prev & B6 & B6') (kid & alg & B7 & B7') _].
  assert (vget r "operation" = VStr op) as F10 by (unfold r, vget; cbn [own_fields]; receipt_field; by rewrite Hop).
  assert (vget r "tenant_id" = VStr tn) as F11 by (unfold r, vget; cbn [own_fields]; receipt_field; by rewrite Htn).
  assert (vget r "subject_id" = VStr sb) as F12 by (unfold r, vget; cbn [own_fields]; receipt_field; by rewrite Hsb).
  rewrite F7, F8, B7' in Ha. cbn [elem] in Ha. rewrite !app_nil in Ha. destruct Ha as (_ & _ & Hsig & Hval & _).
  assert (sig <> []) as Hne by (intros ->; by vm_compute in Hval).
  assert (alg = VStr ED25519) as ->.
  { apply seq_str. destruct (alg === VStr ED25519) eqn:E; [done|]. exfalso. revert Hsig. unfold vget. cbn [own_fields is_record].
    simp_get. by rewrite E. }
  assert (forallb (λ key, mem_str key RECEIPT_TOP_LEVEL_FIELDS && negb (mem_str key PUBLIC_PLAINTEXT_KEYS))
            (keys (own_fields r)) = true) as Hkeys.
  { apply forallb_forall. intros k Hk%list_elem_of_In%keys_pick.
    assert (forallb (λ key, mem_str key RECEIPT_TOP_LEVEL_FIELDS && negb (mem_str key PUBLIC_PLAINTEXT_KEYS))
              Receipt.RECEIPT_TOP_LEVEL_FIELDS = true) as Hall by by vm_compute.
    rewrite forallb_forall in Hall. by apply Hall, list_elem_of_In. }
  assert (forall s : jstr, s <> [] -> non_empty_string (VStr s) = true) as Hs by (intros [|] ?; done).
  unfold receiptHasPublicShape. rewrite Hkeys, F1, F2, F3, F4, F5, F6, F7, F8, F9, F10, F11, F12, B2, B6, B7', !root_text by done.
  cbn [elem coalesce is_nullish to_str]. rewrite previous_text by done. unfold vget. cbn [own_fields]. simp_get.
  rewrite !Hs by done. by vm_compute.
Qed.

Lemma appendEvent_next clock uuid fields v er v' :
  appendEvent clock uuid fields v = (Ok er, v') ->
  exists e, next_receipt clock uuid fields v = Ok (e, er.2) /\ v_receipts v' = v_receipts v ++ [er.2].
Proof.
  unfold appendEvent. intros H. run_vm H. unfold applyLifecycleRoots in *.
  match goal with E : vbind (vread _) _ _ = _ |- _ => run_vm E end.
  match goal with E : next_receipt _ _ _ _ = Ok ?a |- _ => destruct a as [e r] end. by exists e.
Qed.

Lemma next_receipt_created clock uuid fields v e r :
  next_receipt clock uuid fields v = Ok (e, r) ->
  exists o body rid sig, receipt_body clock o = Ok body /\
    r = VObj (receipt_of body (VStr rid) (VObj [("alg" : jstr, VStr ED25519); ("value" : jstr, VStr sig)])).
Proof.
  unfold next_receipt. intros H. inv_res.
  match goal with E : context [build_event ?v ?u ?t ?f ?m] |- _ =>
    destruct (build_event_obj v u t f m) as (ev & Eev & _); rewrite Eev in * end.
  match goal with E : (_, _) = (_, _) |- _ => injection E as _ <- end.
  match goal with E : buildReceipt _ _ _ _ _ _ _ = Ok _ |- _ => apply buildReceipt_inv in E as (r0 & Hr0 & ->) end.
  apply created_from_args in Hr0 as (body & rid & sig & Hbody & Hid & Hsig & ->).
  rewrite prune_json by by eapply json_receipt. by eexists _, body, rid, sig.
Qed.

(** A receipt that a verification of a pack accepts as one of [op] on [a]. *)
Record shows (pk : jsval) (op a : jstr) (r : jsval) : Prop := {
  sh_accepted : receipt_accepted (chain_options pk) r = true;
  sh_shape : receiptHasPublicShape r = true;
  sh_operation : vget r "operation" = VStr op;
  sh_address : vget r "memory_addr" = VStr a
}.

Lemma appended_shows pk clock uuid fields v er v' op a :
  log_ok pk v -> appendEvent clock uuid fields v = (Ok er, v') ->
  fget fields "operation" = VStr op -> fget fields "memory_addr" = VStr a -> shows pk op a er.2.
Proof.
  intros Hlog H Ho Ha. destruct (appendEvent_next _ _ _ _ _ _ H) as (e & Hnext & Hr).
  destruct (next_receipt_logged _ _ _ _ _ _ _ Hlog Hnext) as (active & Hl).
  destruct (appended _ _ _ _ _ _ H) as (fs & Hr' & [_ _ Hg]). rewrite Hr in Hr'. apply app_inv_head in Hr'.
  injection Hr' as Hfs. destruct (next_receipt_created _ _ _ _ _ _ Hnext) as (o & body & rid & sig & Hbody & Er).
  destruct Hl as [Hacc _ _ _ _ _]. split; [done| |rewrite Hfs; apply Hg; [by left|done]|].
  - rewrite Er in *. by eapply created_shape.
  - rewrite Hfs. apply Hg; [right; by left|done].
Qed.

Lemma injected_receipts pk d args cid i names v entries v' :
  log_ok pk v -> (Z.of_nat (length (v_receipts v')) < 2 ^ 53)%Z ->
  inject_memories d args cid i (map VStr names) v = (Ok entries, v') ->
  Forall2 (λ a e, shows pk "retrieve" a (pe_retrieval e) /\ shows pk "inject" a (pe_injection e)) names entries.
Proof.
  revert i v entries. induction names as [|a names IH]; intros i v entries Hlog Hlen H.
  - cbn in H. injection H as <- _. constructor.
  - cbn [map inject_memories] in H. cbn zeta in H.
    apply vbind_ok in H as (content & v1 & Hc & H). apply vbind_ok in H as (? & ? & [= <- <-] & H).
    apply vbind_ok in H as (r1 & v2 & H1 & H). apply vbind_ok in H as (r2 & v3 & H2 & H).
    apply vbind_ok in H as (rest & v4 & Hrest & H). injection H as <- <-.
    assert (along (log_step pk) (getPlaintext (VStr a))) as Hg.
    { apply along_getPlaintext; [apply _|]. intros. by apply log_step_frame. }
    pose proof (along_eq _ _ _ _ _ Hg Hc) as [P1 L1].
    pose proof (along_eq _ _ _ _ _ (log_appendEvent pk _ _ _) H1) as [P2 L2].
    pose proof (along_eq _ _ _ _ _ (log_appendEvent pk _ _ _) H2) as [P3 L3].
    assert (along (log_step pk) (inject_memories d args cid (S (S i)) (map VStr names))) as Hi.
    { apply along_inject; [apply _| |apply log_appendEvent]. intros addr. apply along_getPlaintext; [apply _|].
      intros. by apply log_step_frame. }
    pose proof (along_eq _ _ _ _ _ Hi Hrest) as [P4 L4].
    apply prefix_length in P1, P2, P3, P4.
    assert (log_ok pk v1) as O1 by (apply L1; [lia|done]). assert (log_ok pk v2) as O2 by (apply L2; [lia|done]).
    assert (log_ok pk v3) as O3 by (apply L3; [lia|done]).
    constructor; [|by eapply IH]. cbn [pe_retrieval pe_injection].
    split; [eapply appended_shows; [exact O1|exact H1|done..]|eapply appended_shows; [exact O2|exact H2|done..]].
Qed.

(** ** Records name their addresses *)
Definition named_records (v : Vault) : Prop :=
  forall a m, map_get (v_memories v) a = Some m -> fget (m_fields m) "memory_addr" = VStr a.

Lemma named_memories v v' : v_memories v' = v_memories v -> named_records v -> named_records v'.
Proof. unfold named_records. by intros ->. Qed.

Lemma named_append clock uuid fields v x v' :
  appendEvent clock uuid fields v = (x, v') -> named_records v -> named_records v'.
Proof. intros [Em _ _ _ _ _]%appendEvent_ok. by apply named_memories. Qed.

Lemma named_put a m v :
  fget (m_fields m) "memory_addr" = VStr a -> named_records v -> named_records (put_memory a m v).
Proof.
  intros Hm Hv b m'. cbn [v_memories put_memory with_memories]. rewrite map_get_set. destruct (a =s= b) eqn:E.
  - apply str_eqb_eq in E as <-. by intros [= <-].
  - apply Hv.
Qed.

Lemma decrypt_address v m x m' :
  decryptContent v m = (x, m') -> fget (m_fields m') "memory_addr" = fget (m_fields m) "memory_addr".
Proof.
  unfold decryptContent, getPlaintextCache. destruct (m_plaintext m); [by intros [= _ <-]|].
  assert (fget (fdelete (m_fields m) "plaintext") "memory_addr" = fget (m_fields m) "memory_addr") as E
    by (rewrite fget_fdelete; reflexivity).
  cbn [m_fields]. destruct (res_bind _ _); intros [= _ <-]; exact E.
Qed.

(** [named_walk] follows the records through the updates of an operation. *)
Ltac named_walk :=
  repeat match goal with
    | E : appendEvent _ _ _ _ = (_, ?v) |- named_records ?v => apply (named_append _ _ _ _ _ _ E); clear E
    | |- named_records (put_memory _ _ _) => apply named_put
    | |- named_records (with_active _ ?v) => apply (named_memories v); [done|]
    | |- named_records (with_tombstones _ ?v) => apply (named_memories v); [done|]
    end.

Lemma run_op_named op v : named_records v -> named_records (run_op op v).
Proof.
  intros Hv. destruct op as [d args|d args|d args|d args|d args]; cbn [run_op].
  - destruct (remember d args v) as [x v'] eqn:H. revert H. unfold remember. cbn zeta. intros H.
    cbn [snd]. run_vm H; named_walk; try done.
    all: match goal with E : memory_record _ _ _ _ _ _ _ _ _ = Ok _ |- _ => unfold memory_record in E; inv_res end.
    all: cbn [m_fields]; rewrite fget_prune by (apply distinct_keys; vm_compute; reflexivity); by simp_get.
  - destruct (recall d args v) as [x v'] eqn:H. revert H. unfold recall. cbn zeta. intros H.
    cbn [snd]. run_vm H; named_walk; try done.
    all: match goal with E : decryptContent _ _ = _ |- _ => rewrite (decrypt_address _ _ _ _ E); by apply Hv end.
  - destruct (updateMemory d args v) as [x v'] eqn:H. revert H. unfold updateMemory. cbn zeta. intros H.
    cbn [snd]. run_vm H; named_walk; try done.
    all: unfold set_field; cbn [m_fields]; rewrite ?fget_fset; try (by apply Hv).
    all: match goal with E : publicRecord _ = Ok ?p |- fget (prune_fields (spread ?p _)) _ = _ =>
      apply publicRecord_keys in E as [Hd _] end.
    all: rewrite fget_prune, fget_spread by (by apply NoDup_keys_spread); reflexivity.
  - destruct (deleteMemory d args v) as [x v'] eqn:H. revert H. unfold deleteMemory. cbn zeta. intros H.
    cbn [snd]. run_vm H; named_walk; try done.
    all: match goal with E : delete_record _ _ _ _ _ = _ |- _ => unfold delete_record in E; run_vm E end; named_walk; try done.
    all: unfold set_field; cbn [m_fields]; rewrite ?fget_fdelete, ?fget_fset; by apply Hv.
  - revert Hv. apply (along_def (λ v v', named_records v -> named_records v')), along_exportBundle.
    + split; [by intros ? ?|intros ? ? ? H1 H2 H; auto].
    + intros clock uuid fields v0. apply (named_append clock uuid fields v0 _ _ (surjective_pairing _)).
Qed.

Lemma reachable_named d args v0 v : createVault d args = Ok v0 -> reachable v0 v -> named_records v.
Proof.
  intros H Hr. induction Hr as [|v op _ IH]; [|by apply run_op_named]. unfold createVault in H. cbn zeta in H. inv_res.
  repeat match goal with p : _ * _ |- _ => destruct p end. inv_res. subst. by intros ? ?.
Qed.

(** ** A compiled pack verifies *)
Lemma createVault_key d args v :
  createVault d args = Ok v -> is_nullish (fget args "signingKeyPair") = true -> is_nullish (publicKey v) = false.
Proof.
  intros H Hp. unfold createVault in H. cbn zeta in H. inv_res.
  repeat match goal with p : _ * _ |- _ => destruct p end. inv_res. subst. unfold publicKey. cbn [v_signingKeyPair with_roots].
  unfold coalesce. rewrite Hp. unfold signingPair. by repeat case_match.
Qed.

Lemma elem_of_value_set x l : arr_includes (value_set (map VStr l)) (VStr x) = true <-> x ∈ l.
Proof.
  unfold value_set.
  assert (forall out, (forall y, y ∈ out -> is_string y = true) ->
    arr_includes (foldl (λ out x, if arr_includes out x then out else out ++ [x]) out (map VStr l)) (VStr x) = true <->
    VStr x ∈ out \/ x ∈ l) as H.
  { induction l as [|y l IH]; intros out Ho; cbn [map foldl].
    - rewrite elem_of_nil. unfold arr_includes. rewrite existsb_exists. setoid_rewrite <- list_elem_of_In. split.
      + intros (z & Hz & E). left. pose proof (Ho z Hz). destruct z; try done. cbn in E. by apply str_eqb_eq in E as ->.
      + intros [Hx|[]]. exists (VStr x). split; [done|]. apply str_eqb_refl.
    - destruct (arr_includes out (VStr y)) eqn:E.
      + rewrite IH by done. rewrite elem_of_cons. split; [tauto|]. intros [?|[->|?]]; [by left| |by right]. left.
        unfold arr_includes in E. apply existsb_exists in E as (z & Hz%list_elem_of_In & E).
        pose proof (Ho z Hz). destruct z; try done. cbn in E. by apply str_eqb_eq in E as ->.
      + rewrite IH.
        * rewrite elem_of_app, list_elem_of_singleton, elem_of_cons. split; [intros [[?|[= ->]]|?]|intros [?|[->|?]]]; tauto.
        * intros z. rewrite elem_of_app, list_elem_of_singleton. intros [?| ->]; [by apply Ho|done]. }
  rewrite H by by intros y ?%elem_of_nil. rewrite elem_of_nil. tauto.
Qed.

Lemma injected_addresses d args cid i names v entries v' :
  named_records v -> inject_memories d args cid i (map VStr names) v = (Ok entries, v') ->
  map (λ e, vget (pe_memory e) "memory_addr") entries = map VStr names.
Proof.
  revert i v entries. induction names as [|a names IH]; intros i v entries Hn H.
  - cbn in H. by injection H as <- _.
  - cbn [map inject_memories] in H. cbn zeta in H.
    apply vbind_ok in H as (content & v1 & Hc & H). apply vbind_ok in H as (? & ? & [= <- <-] & H).
    apply vbind_ok in H as (r1 & v2 & H1 & H). apply vbind_ok in H as (r2 & v3 & H2 & H).
    apply vbind_ok in H as (rest & v4 & Hrest & H). injection H as <- <-. cbn [map pe_memory].
    assert (named_records v1 /\ exists m, map_get (v_memories v1) a = Some m) as [Hn1 [m Hm]].
    { unfold getPlaintext in Hc. cbn [vbind vread] in Hc. destruct (getRecord v (VStr a)) as [m|] eqn:E; [|done].
      destruct (decryptContent v m) as [t m'] eqn:Ed. cbn [vbind vmodify vlift str_of] in Hc. injection Hc as _ <-.
      cbn [getRecord] in E. split; [apply named_put; [|done]; rewrite (decrypt_address _ _ _ _ Ed); by apply Hn|].
      exists m'. cbn [v_memories put_memory with_memories]. by rewrite map_get_set, str_eqb_refl. }
    f_equal.
    + unfold publicMemory, vget. cbn [own_fields getRecord]. rewrite Hm. cbn [record_fields]. simp_get. by apply Hn1.
    + eapply IH; [|exact Hrest]. eapply named_append; [exact H2|]. by eapply named_append.
Qed.

Lemma shown_receipt pk op a r :
  shows pk op a r -> pack_receipt_errors (Some (chain_options pk)) r = Ok [] /\ elem r = r.
Proof.
  intros [Ha Hs Ho _]. unfold pack_receipt_errors. rewrite Hs. cbn [negb orb].
  unfold verifyReceiptBestEffort. fold (receipt_accepted (chain_options pk) r). rewrite Ha.
  assert (is_nullish r = false /\ elem r = r) as [Hn ->] by by destruct r. by destruct r.
Qed.

Definition pack_args (pack pk : jsval) : obj := [("contextPack" : jstr, pack); ("publicKey" : jstr, pk)].

Lemma has_operation_in pk op a rs : a <> [] -> (exists r, r ∈ rs /\ shows pk op a r) ->
  existsb (λ receipt, truthy (vget receipt "memory_addr") && same_value_zero (vget receipt "memory_addr") (VStr a)
                      && (vget receipt "operation" === VStr op)) rs = true.
Proof.
  intros Hne (r & Hr & [_ _ Ho Ha]). apply existsb_exists. exists r. split; [by apply list_elem_of_In|].
  rewrite Ho, Ha. cbn. rewrite !str_eqb_refl. by destruct a.
Qed.

Lemma coalesce_some a b : is_nullish a = false -> (a ?? b) = a.
Proof. unfold coalesce. by intros ->. Qed.

Lemma pack_args_trust pack pk :
  is_nullish pk = false -> trustedKeyOptions (pack_args pack pk) = Some (chain_options pk).
Proof.
  intros Hpk. unfold trustedKeyOptions, trusted_key.
  assert (fget (pack_args pack pk) "publicKey" = pk) as -> by reflexivity.
  rewrite coalesce_some by done. by destruct pk.
Qed.

Lemma pack_args_other pack pk (k : jstr) :
  (("contextPack" : jstr) =s= k) = false -> (("publicKey" : jstr) =s= k) = false -> fget (pack_args pack pk) k = VUndef.
Proof. unfold pack_args. intros H1 H2. cbn [fget]. by rewrite H1, H2. Qed.

Lemma pack_args_tombstones v pack pk :
  known_tombstones (Live v) (pack_args pack pk) = Ok (value_set (map VStr (v_tombstones v).*1)).
Proof.
  unfold known_tombstones. rewrite !pack_args_other by reflexivity. cbn -[value_set]. by rewrite app_nil_r.
Qed.

Lemma pack_args_active v pack pk :
  known_active (Live v) (pack_args pack pk) = value_set (map VStr (v_activeAddresses v)).
Proof.
  unfold known_active. rewrite !pack_args_other by reflexivity. cbn -[value_set]. by rewrite app_nil_r.
Qed.

Lemma elem_strings (l : list jstr) : map elem (map VStr l) = map VStr l.
Proof. by rewrite map_map. Qed.

Lemma value_set_strings l : forall x, x ∈ value_set (map VStr l) -> exists a, x = VStr a /\ a ∈ l.
Proof.
  unfold value_set.
  assert (forall out x, x ∈ foldl (λ out x, if arr_includes out x then out else out ++ [x]) out (map VStr l) ->
    x ∈ out \/ exists a, x = VStr a /\ a ∈ l) as H.
  { induction l as [|y l IH]; intros out x; cbn [map foldl]; [by left|].
    intros [Hx|(a & -> & Ha)]%IH; [|right; exists a; split; [done|by right]].
    destruct (arr_includes out (VStr y)); [by left|]. apply elem_of_app in Hx as [Hx| ->%list_elem_of_singleton]; [by left|].
    right. exists y. split; [done|by left]. }
  intros x Hx. by apply H in Hx as [?%elem_of_nil|].
Qed.

Lemma list_filter_strings (l : list jstr) :
  Forall (λ a, a <> []) l -> List.filter truthy (map VStr l) = map VStr l.
Proof. induction 1 as [|a l Ha _ IH]; [done|]. cbn. rewrite IH. by destruct a. Qed.

Lemma concat_nils {A B} (l : list A) : concat (map (λ _, @nil B) l) = [].
Proof. by induction l. Qed.

(** Arguments that trust [pk] and name no more addresses than the vault. *)
Record plain_args (pk : jsval) (v : Vault) (args : obj) : Prop := {
  pa_trust : trustedKeyOptions args = Some (chain_options pk);
  pa_active : known_active (Live v) args = value_set (map VStr (v_activeAddresses v));
  pa_tombstones : known_tombstones (Live v) args = Ok (value_set (map VStr (v_tombstones v).*1))
}.

Lemma pack_args_plain v pack pk : is_nullish pk = false -> plain_args pk v (pack_args pack pk).
Proof. intros Hpk. split; [by apply pack_args_trust|apply pack_args_active|apply pack_args_tombstones]. Qed.

(** A pack whose receipts show the retrieval and the injection of its active addresses
    has no error. *)
Lemma compiled_errors pk v args vargs cid pid g roots p ors names entries :
  plain_args pk v vargs ->
  Forall2 (λ a e, shows pk "retrieve" a (pe_retrieval e) /\ shows pk "inject" a (pe_injection e)) names entries ->
  map (λ e, vget (pe_memory e) "memory_addr") entries = map VStr names ->
  Forall (λ a, a ∈ v_activeAddresses v /\ (a ∉ (v_tombstones v).*1) /\ a <> []) names ->
  let pack := context_pack args cid pid g (map VStr names) entries roots p ors in
  pack_errors (Live v) vargs pack = Ok [].
Proof.
  intros [Htrust Hact Htomb] Hshow Hmem Hnames pack.
  set (rs := map pe_retrieval entries ++ map pe_injection entries).
  assert (Forall (λ r, exists op a, shows pk op a r) rs) as Hrs.
  { unfold rs. clear -Hshow. rewrite Forall_app, !Forall_fmap. split;
      induction Hshow as [|a e names entries [H1 H2] _ IH]; constructor; eauto. }
  assert (Forall (λ a, (exists r, r ∈ rs /\ shows pk "retrieve" a r) /\ (exists r, r ∈ rs /\ shows pk "inject" a r)) names) as Hops.
  { apply Forall_lookup. intros k a Hk. eapply Forall2_lookup_l in Hshow as (e & He & H1 & H2); [|done].
    apply list_elem_of_lookup_2 in He. unfold rs. split.
    - exists (pe_retrieval e). split; [|done]. rewrite elem_of_app. left. by apply list_elem_of_fmap_2.
    - exists (pe_injection e). split; [|done]. rewrite elem_of_app. right. by apply list_elem_of_fmap_2. }
  assert (map_res (pack_receipt_errors (Some (chain_options pk))) rs = Ok (map (λ _, []) rs) /\ map elem rs = rs) as [Hre Hel].
  { clear -L Hrs. induction Hrs as [|r rs (op & a & H) _ [IH1 IH2]]; [done|]. cbn [map_res map].
    destruct (shown_receipt _ _ _ _ H) as [-> ->]. by rewrite IH1, IH2. }
  unfold pack_errors. rewrite Htrust, Htomb, Hact. cbn zeta. cbn [res_bind].
  assert (vget pack "memory_addresses" = VArr (map VStr names)) as Ea by (unfold pack, context_pack, vget; cbn [own_fields]; by simp_get).
  assert (vget pack "memories" = VArr (map pe_memory entries)) as Em by (unfold pack, context_pack, vget; cbn [own_fields]; by simp_get).
  assert (vget pack "receipts" = VArr rs) as Er by (unfold pack, context_pack, vget; cbn [own_fields]; by simp_get).
  unfold memoryAddressesFromPack, iterate_given. rewrite Ea, Em, Er. cbn [coalesce is_nullish iterate res_bind].
  rewrite Hel, Hre, elem_strings. cbn [res_bind].
  assert (map (λ memory, vget memory "memory_addr") (map elem (map pe_memory entries)) = map VStr names) as ->.
  { rewrite <- Hmem, !map_map. apply map_ext_in. intros e _. by destruct (pe_memory e). }
  rewrite (list_filter_strings names) by (eapply Forall_impl; [exact Hnames|by intros a (? & ? & ?)]).
  rewrite <- map_app. f_equal. rewrite !app_nil, concat_nils.
  split_and!; [done| |done|]; apply flat_map_nil.
  - intros x (a & -> & Ha)%value_set_strings. rewrite elem_of_app in Ha.
    assert (a ∈ names) as Hn by tauto. eapply Forall_forall in Hnames as (H1 & H2 & _); [|exact Hn].
    unfold address_errors. apply elem_of_value_set in H1 as ->. rewrite <- elem_of_value_set in H2.
    by destruct (arr_includes _ _).
  - intros x (a & -> & Ha)%list_elem_of_fmap. eapply Forall_forall in Hops as (H1 & H2); [|exact Ha].
    eapply Forall_forall in Hnames as (_ & _ & Hne); [|exact Ha].
    unfold missing_receipts, has_operation, vstr. by rewrite !(has_operation_in pk) by done.
Qed.

Lemma selected_address v1 active tombstones a :
  selection_errors v1 (map VStr active) (map VStr tombstones) a = [] ->
  exists s, a = VStr s /\ s ∈ active /\ s ∉ tombstones.
Proof.
  assert (forall (l : list jstr) x, arr_includes (map VStr l) (VStr x) = true <-> x ∈ l) as Hin.
  { intros l x. unfold arr_includes. rewrite existsb_exists. setoid_rewrite <- list_elem_of_In.
    setoid_rewrite list_elem_of_fmap. split.
    - intros (y & (z & -> & Hz) & E). cbn in E. by apply str_eqb_eq in E as ->.
    - intros Hx. exists (VStr x). split; [by exists x|]. cbn. apply str_eqb_refl. }
  unfold selection_errors. intros [Ht [Ha _]%app_nil]%app_nil.
  destruct (arr_includes (map VStr active) a) eqn:Ea; [|done].
  assert (exists s, a = VStr s) as [s ->].
  { unfold arr_includes in Ea. apply existsb_exists in Ea as (y & Hy%list_elem_of_In & E).
    apply list_elem_of_fmap in Hy as (z & -> & _). destruct a; try done. by eexists. }
  exists s. split; [done|]. split; [by apply Hin|]. intros H%Hin. by rewrite H in Ht.
Qed.

Lemma selected_strings v1 active tombstones selected :
  Forall (λ a, selection_errors v1 (map VStr active) (map VStr tombstones) a = []) selected ->
  exists names, selected = map VStr names /\ Forall (λ s, s ∈ active /\ s ∉ tombstones) names.
Proof.
  induction 1 as [|a selected Ha _ (names & -> & Hn)]; [by exists []|].
  apply selected_address in Ha as (s & -> & Hs). exists (s :: names). by split; [|constructor].
Qed.

Definition keeps_names (v v' : Vault) : Prop := named_records v -> named_records v'.

#[local] Instance keeps_names_preorder : PreOrder keeps_names.
Proof. split; unfold keeps_names; [by intros ? ?|intros ? ? ? H1 H2 H; auto]. Qed.

Lemma getPlaintext_names addr : along keeps_names (getPlaintext addr).
Proof.
  apply along_getPlaintext; [apply _|]. intros v a m x m' Hm Hd Hn. apply named_put; [|done].
  rewrite (decrypt_address _ _ _ _ Hd). by apply Hn.
Qed.

Lemma select_log pk args limit : along (log_step pk) (select_memories args limit).
Proof.
  apply along_select; [apply _|]. intros addr. apply along_getPlaintext; [apply _|]. intros. by apply log_step_frame.
Qed.

Lemma inject_log pk d args cid i selected : along (log_step pk) (inject_memories d args cid i selected).
Proof.
  apply along_inject; [apply _| |apply log_appendEvent]. intros addr. apply along_getPlaintext; [apply _|].
  intros. by apply log_step_frame.
Qed.

(** The verdict on a pack without errors. *)
Definition accepted_verdict (pack : jsval) : res pack_verdict :=
  let! publicPack := publicContextPack pack in
  let! text := canonical publicPack in
  let! addresses := iterate_given (vget pack "memory_addresses") in
  Ok {| pv_valid := true; pv_errors := []; pv_context_pack_id := vget pack "context_pack_id";
        pv_memory_addresses := addresses; pv_public := publicPack; pv_canonical := text |}.

Lemma no_errors_accepted vault args pack :
  pack_of_args args = pack -> vget pack "schema" = VStr CONTEXT_PACK_SCHEMA -> pack_errors vault args pack = Ok [] ->
  verifyContextPack vault args = accepted_verdict pack.
Proof.
  intros Hp Hs He. unfold verifyContextPack, accepted_verdict. rewrite Hp, He, Hs.
  assert (truthy pack = true) as -> by by destruct pack. cbn [seq]. by rewrite str_eqb_refl.
Qed.

Lemma compiled_no_errors d0 args0 v0 v d args pack v' :
  createVault d0 args0 = Ok v0 -> is_nullish (fget args0 "signingKeyPair") = true ->
  is_nullish (fget args0 "signer") = true -> key_generation d0 -> reachable v0 v ->
  compileContextPack d args v = (Ok pack, v') -> (Z.of_nat (length (v_receipts v')) < 2 ^ 53)%Z ->
  vget pack "schema" = VStr CONTEXT_PACK_SCHEMA /\ is_nullish (publicKey v0) = false /\
  forall vargs, plain_args (publicKey v0) v' vargs -> pack_errors (Live v') vargs pack = Ok [].
Proof.
  intros Hc Hp Hs Hg Hr H Hlen. destruct (createVault_log _ _ _ Hc Hp Hs Hg) as [Ho _].
  destruct (reachable_log (publicKey v0) _ _ Hr) as [_ Hk].
  pose proof (along_eq _ _ _ _ _ (compile_sets d args) H) as [Eact Etomb].
  pose proof (along_eq _ _ _ _ _ (compile_log (publicKey v0) d args) H) as [Hpre _].
  apply compile_inv in H as (selected & entries & [(v1 & cid & (limit & x & Hsel & Hx) & Herr & Hinj) Hpack]).
  pose proof (along_eq _ _ _ _ _ (select_log (publicKey v0) args limit) Hsel) as [_ K1].
  pose proof (along_eq _ _ _ _ _ (inject_log (publicKey v0) d args cid 2 selected) Hinj) as [P2 _].
  apply prefix_length in Hpre, P2. specialize (K1 ltac:(lia) (Hk ltac:(lia) Ho)).
  assert (named_records v1) as Hn1.
  { eapply (along_eq keeps_names); [|exact Hsel|by eapply reachable_named]. apply along_select; [apply _|].
    apply getPlaintext_names. }
  apply selected_strings in Herr as (names & -> & Hnames).
  destruct Hpack as (cid' & pid & g & roots & p & ors & ->).
  split; [reflexivity|]. split; [by eapply createVault_key|]. intros vargs Hplain.
  eapply compiled_errors; [done|by eapply injected_receipts|by eapply injected_addresses|].
  rewrite Eact, Etomb. apply Forall_forall. intros a Ha. eapply Forall_forall in Hnames as [H1 H2]; [|exact Ha].
  split_and!; [done|done|]. by eapply reachable_nonempty.
Qed.

(** C27 A pack that a vault compiles verifies under the key of the vault: of a vault created
    with generated keys, whatever operations came before, the pack of the memories that a
    compilation selected is accepted, without an error, by [verifyContextPack] with the vault
    after the compilation and its public key; nothing can refuse it except the canonical form
    of its public projection. *)
Theorem compiled_pack_verifies d0 args0 v0 v d args pack v' :
  createVault d0 args0 = Ok v0 -> is_nullish (fget args0 "signingKeyPair") = true ->
  is_nullish (fget args0 "signer") = true -> key_generation d0 -> reachable v0 v ->
  compileContextPack d args v = (Ok pack, v') -> (Z.of_nat (length (v_receipts v')) < 2 ^ 53)%Z ->
  verifyContextPack (Live v') (pack_args pack (publicKey v0)) = accepted_verdict pack.
Proof.
  intros Hc Hp Hs Hg Hr H Hlen. destruct (compiled_no_errors _ _ _ _ _ _ _ _ Hc Hp Hs Hg Hr H Hlen) as (Hschema & Hpk & He).
  apply no_errors_accepted; [|done|by apply He, pack_args_plain].
  apply (coalesce_some pack). by destruct pack.
Qed.

(** ** What an accepted pack shows *)
Lemma num_seq_spec a b :
  num_seq a b = true <-> a <> NNaN /\ (a = b \/ (a = NNegZero /\ b = NInt 0) \/ (a = NInt 0 /\ b = NNegZero)).
Proof.
  unfold num_seq. destruct a as [[]| | | |], b as [[]| | | |]; rewrite ?bool_decide_eq_true; naive_solver.
Qed.

Lemma same_value_zero_compat x y z :
  same_value_zero y x = true -> same_value_zero z y = true -> same_value_zero z x = true.
Proof.
  assert (forall a b, same_value_zero (VNum a) (VNum b) = true <-> (a = NNaN /\ b = NNaN) \/ num_seq a b = true) as Hn.
  { intros [] []; cbn [same_value_zero seq]; naive_solver. }
  destruct x, y; try done; destruct z; try done; try (rewrite !Hn, !num_seq_spec; naive_solver);
    cbn [same_value_zero seq].
  - rewrite !eqb_true_iff. congruence.
  - intros ?%str_eqb_eq ?%str_eqb_eq. subst. apply str_eqb_refl.
  - rewrite !andb_true_iff, !bool_decide_eq_true. intros [-> ->%str_eqb_eq] [-> ->%str_eqb_eq]. by rewrite str_eqb_refl.
Qed.

Lemma same_value_zero_sym x y : same_value_zero x y = same_value_zero y x.
Proof.
  apply Bool.eq_iff_eq_true. revert x y.
  assert (forall x y, same_value_zero x y = true -> same_value_zero y x = true) as H; [|by split; apply H].
  intros x y. destruct x as [| | |n| | | | | | | | |], y as [| | |n0| | | | | | | | |];
    try done; try (by destruct n).
  - cbn [same_value_zero seq]. rewrite !eqb_true_iff. congruence.
  - destruct n as [[]| | | |], n0 as [[]| | | |]; try done; cbn [same_value_zero seq num_seq];
      rewrite ?bool_decide_eq_true; naive_solver.
  - cbn [same_value_zero seq]. rewrite !str_eqb_eq. congruence.
  - cbn [same_value_zero seq]. rewrite !andb_true_iff, !bool_decide_eq_true, !str_eqb_eq. naive_solver.
Qed.

Lemma arr_includes_same l x y : same_value_zero y x = true -> arr_includes l y = arr_includes l x.
Proof.
  intros H. unfold arr_includes. induction l as [|z l IH]; [done|]. cbn [existsb]. rewrite IH. f_equal.
  apply Bool.eq_iff_eq_true. split; intros Hz; [by eapply same_value_zero_compat|].
  eapply same_value_zero_compat; [|exact Hz]. by rewrite same_value_zero_sym.
Qed.

(** Every value is in the set of a list, or one that a set takes for the same. *)
Lemma value_set_covers l x : x ∈ l -> exists y, y ∈ value_set l /\ (y = x \/ same_value_zero y x = true).
Proof.
  unfold value_set.
  assert (forall out, x ∈ out \/ x ∈ l ->
    exists y, y ∈ foldl (λ out x, if arr_includes out x then out else out ++ [x]) out l /\ (y = x \/ same_value_zero y x = true))
    as H; [|intros Hx; apply H; by right].
  induction l as [|z l IH]; intros out Hx; cbn [foldl].
  - destruct Hx as [Hx|Hx%elem_of_nil]; [|done]. exists x. split; [done|by left].
  - rewrite elem_of_cons in Hx. destruct Hx as [Hx|[<-|Hx]].
    + apply IH. left. destruct (arr_includes out z); [done|]. apply elem_of_app. by left.
    + destruct (arr_includes out x) eqn:E.
      * unfold arr_includes in E. apply existsb_exists in E as (y & Hy%list_elem_of_In & Hs).
        assert (forall l out, y ∈ out -> y ∈ foldl (λ out x, if arr_includes out x then out else out ++ [x]) out l) as Hk.
        { clear. induction l as [|z l IH]; intros out Hy; cbn [foldl]; [done|]. apply IH.
          destruct (arr_includes out z); [done|]. apply elem_of_app. by left. }
        exists y. split; [by apply Hk|by right].
      * apply IH. left. apply elem_of_app. right. by apply list_elem_of_singleton.
    + apply IH. by right.
Qed.

(** Every address of a pack without errors is active and not tombstoned. *)
Lemma no_address_errors active tombstones addresses a :
  flat_map (address_errors active tombstones) (value_set addresses) = [] -> a ∈ addresses ->
  arr_includes active a = true /\ arr_includes tombstones a = false.
Proof.
  rewrite flat_map_nil. intros H (y & Hy & Hs)%value_set_covers. specialize (H y Hy). unfold address_errors in H.
  assert (arr_includes active y = arr_includes active a /\ arr_includes tombstones y = arr_includes tombstones a) as [E1 E2].
  { destruct Hs as [->|Hs]; [done|]. by rewrite !(arr_includes_same _ _ _ Hs). }
  rewrite E1, E2 in H. apply app_nil in H as [Ht Ha]. by destruct (arr_includes tombstones a), (arr_includes active a).
Qed.

Lemma map_res_forall {A B} (f : A -> res B) l ys :
  map_res f l = Ok ys -> Forall2 (λ x y, f x = Ok y) l ys.
Proof.
  revert ys. induction l as [|x l IH]; intros ys H; cbn [map_res] in H; inv_res; [constructor|]. constructor; [done|by apply IH].
Qed.

Lemma has_operation_inv receipts a op :
  has_operation receipts a op = true ->
  exists r, r ∈ receipts /\ same_value_zero (vget r "memory_addr") a = true /\ vget r "operation" = VStr op.
Proof.
  intros (r & Hr%list_elem_of_In & [[_ Ha]%andb_true_iff Ho]%andb_true_iff)%existsb_exists. exists r.
  by apply seq_str in Ho.
Qed.

Lemma receipts_accepted options receipts errors :
  map_res (pack_receipt_errors (Some options)) receipts = Ok errors -> concat errors = [] ->
  forall rc, rc ∈ receipts -> receiptHasPublicShape rc = true /\ verifyReceiptBestEffort rc (Some options) = true.
Proof.
  intros H%map_res_forall. induction H as [|rc es receipts errors H _ IH]; cbn [concat]; intros Hn rc' Hin.
  - by apply elem_of_nil in Hin.
  - apply app_nil in Hn as [-> Hn]. apply elem_of_cons in Hin as [->|Hin]; [|by apply IH].
    unfold pack_receipt_errors in H. inv_res. subst.
    by destruct (receiptHasPublicShape rc), (verifyReceiptBestEffort rc (Some options)).
Qed.

(** C34 An accepted pack shows what it claims: when [verifyContextPack] calls a pack valid,
    its receipts all have the public shape and are accepted by [verifyReceipt] under the
    trusted key, every address it lists and every address of its memories is among the
    known active ones and not among the known tombstones, and for every listed address
    the receipts hold a retrieval and an injection of that address. *)
Theorem accepted_pack_sound vault args r :
  verifyContextPack vault args = Ok r -> pv_valid r = true ->
  exists options tombstones receipts memories,
    trustedKeyOptions args = Some options /\ known_tombstones vault args = Ok tombstones /\
    iterate_given (vget (pack_of_args args) "receipts") = Ok receipts /\
    iterate_given (vget (pack_of_args args) "memories") = Ok memories /\
    (forall rc, rc ∈ receipts -> receiptHasPublicShape rc = true /\ verifyReceiptBestEffort rc (Some options) = true) /\
    (forall m, m ∈ memories -> truthy (vget m "memory_addr") = true ->
       arr_includes (known_active vault args) (vget m "memory_addr") = true /\
       arr_includes tombstones (vget m "memory_addr") = false) /\
    forall a, a ∈ pv_memory_addresses r ->
      arr_includes (known_active vault args) a = true /\ arr_includes tombstones a = false /\
      forall op, op = "retrieve"%string \/ op = "inject"%string ->
        exists rc, rc ∈ receipts /\ same_value_zero (vget rc "memory_addr") a = true /\ vget rc "operation" = VStr op.
Proof.
  unfold verifyContextPack. cbn zeta. intros H Hv. inv_res. subst. cbn [pv_valid pv_memory_addresses] in *.
  apply negb_true_iff in Hv. rewrite Hv in *.
  match goal with E : rejectInvalid ?l = Ok _ |- _ => destruct l; [|discriminate E] end.
  unfold pack_errors, memoryAddressesFromPack in *. cbn zeta in *. inv_res.
  match goal with E : _ ++ _ = [] |- _ => apply app_nil in E as [Htrust [Haddr [Hrec Hops]%app_nil]%app_nil] end.
  destruct (trustedKeyOptions args) as [options|]; [|discriminate Htrust].
  rewrite flat_map_nil in Hops.
  repeat match goal with E : ?x = Ok _, E' : ?x = Ok _ |- _ => rewrite E in E'; injection E' as -> end.
  eexists options, _, _, _. do 4 (split; [done|]). split_and!.
  - by eapply receipts_accepted.
  - intros m Hm Ht. eapply no_address_errors; [exact Haddr|]. apply elem_of_app. right.
    apply list_elem_of_In, filter_In. split; [|done]. by apply (in_map (λ memory, vget memory "memory_addr")), list_elem_of_In.
  - intros a Ha. destruct (no_address_errors _ _ _ a Haddr) as [-> ->]; [apply elem_of_app; by left|].
    do 2 (split; [done|]). intros op Hop. apply has_operation_inv. specialize (Hops a Ha). unfold missing_receipts in Hops.
    apply app_nil in Hops as [Hr Hi]. by destruct Hop as [-> | ->]; [clear Hi|clear Hr]; destruct (has_operation _ _ _).
Qed.

(** ** Verification and the contents of the memories *)

(** Memories that differ in nothing but their contents. *)
Definition same_but_content (m m' : jsval) : Prop :=
  exists fs fs', m = VObj fs /\ m' = VObj fs' /\ forall k : jstr, (k =s= "content") = false -> fget fs k = fget fs' k.

(** Packs whose memories differ in nothing but their contents. *)
Definition same_but_contents (pack pack' : jsval) : Prop :=
  exists fs fs' ms ms', pack = VObj fs /\ pack' = VObj fs' /\ fget fs "memories" = VArr ms /\ fget fs' "memories" = VArr ms' /\
    Forall2 same_but_content ms ms' /\ forall k : jstr, (k =s= "memories") = false -> fget fs k = fget fs' k.

Lemma contents_addresses ms ms' :
  Forall2 same_but_content ms ms' ->
  map (λ memory, vget memory "memory_addr") (map elem ms) = map (λ memory, vget memory "memory_addr") (map elem ms').
Proof.
  induction 1 as [|m m' ms ms' (fs & fs' & -> & -> & H) _ IH]; [done|]. cbn [map elem]. rewrite IH. f_equal. by apply H.
Qed.

Lemma contents_public m m' : same_but_content m m' -> publicContextMemory m = publicContextMemory m'.
Proof.
  intros (fs & fs' & -> & -> & H). unfold publicContextMemory, vget. cbn [own_fields].
  by rewrite !(H _) by reflexivity.
Qed.

Lemma contents_publics ms ms' :
  Forall2 same_but_content ms ms' -> map_present publicContextMemory ms = map_present publicContextMemory ms'.
Proof.
  induction 1 as [|m m' ms ms' H _ IH]; [done|]. unfold map_present in *. cbn [map]. rewrite IH. f_equal.
  pose proof (contents_public _ _ H) as Hp. destruct H as (fs & fs' & -> & -> & _). exact Hp.
Qed.

Lemma contents_pack pack pack' : same_but_contents pack pack' -> publicContextPack pack = publicContextPack pack'.
Proof.
  intros (fs & fs' & ms & ms' & -> & -> & Hm & Hm' & Hms & H). unfold publicContextPack, vget. cbn [own_fields].
  rewrite Hm, Hm'. unfold map_if_array at 1. unfold map_if_array at 4. cbn [items_of]. rewrite (contents_publics _ _ Hms).
  by rewrite !(H _) by reflexivity.
Qed.

Definition with_pack (pack : jsval) (args : obj) : obj := ("contextPack" : jstr, pack) :: args.

Lemma with_pack_other pack args (k : jstr) : (("contextPack" : jstr) =s= k) = false -> fget (with_pack pack args) k = fget args k.
Proof. unfold with_pack. cbn [fget]. by intros ->. Qed.

Lemma with_pack_tombstones vault pack args : known_tombstones vault (with_pack pack args) = known_tombstones vault args.
Proof. unfold known_tombstones. by rewrite !with_pack_other by reflexivity. Qed.

Lemma with_pack_active vault pack args : known_active vault (with_pack pack args) = known_active vault args.
Proof. unfold known_active. by rewrite !with_pack_other by reflexivity. Qed.

Lemma with_pack_trust pack args : trustedKeyOptions (with_pack pack args) = trustedKeyOptions args.
Proof. unfold trustedKeyOptions, trusted_key, trusted_keys. by rewrite !with_pack_other by reflexivity. Qed.

(** C35 Verification says nothing of the contents and shows nothing of them: for two packs
    that differ only in the [content] of their memories, [verifyContextPack] with the same
    arguments gives the same verdict, the same errors, and the same public projection with
    the same canonical text.  A reader learns nothing of the contents from a verdict, and
    contents that were replaced after the compilation are accepted like the original ones. *)
Theorem verification_ignores_contents vault args pack pack' :
  (fget args "schema" === VStr CONTEXT_PACK_SCHEMA) = false -> same_but_contents pack pack' ->
  verifyContextPack vault (with_pack pack args) = verifyContextPack vault (with_pack pack' args).
Proof.
  intros Hs Hp. unfold verifyContextPack.
  assert (forall p, truthy p = true -> pack_of_args (with_pack p args) = p) as Hof.
  { intros p Ht. unfold pack_of_args, with_pack. cbn [fget]. simp_get. rewrite Hs. by destruct p. }
  pose proof (contents_pack _ _ Hp) as Hpub.
  destruct Hp as (fs & fs' & ms & ms' & -> & -> & Hm & Hm' & Hms & H).
  rewrite !Hof by done. cbn zeta. rewrite Hpub.
  assert (pack_errors vault (with_pack (VObj fs) args) (VObj fs) = pack_errors vault (with_pack (VObj fs') args) (VObj fs')) as ->.
  { unfold pack_errors, memoryAddressesFromPack. rewrite !with_pack_trust, !with_pack_tombstones, !with_pack_active.
    assert (forall k : jstr, (k =s= "memories") = false -> vget (VObj fs) k = vget (VObj fs') k) as Hk by done.
    assert (iterate_given (vget (VObj fs) "memories") = Ok (map elem ms)) as -> by (unfold vget; cbn [own_fields]; by rewrite Hm).
    assert (iterate_given (vget (VObj fs') "memories") = Ok (map elem ms')) as -> by (unfold vget; cbn [own_fields]; by rewrite Hm').
    rewrite !(Hk _) by reflexivity. cbn [res_bind]. by rewrite (contents_addresses _ _ Hms). }
  unfold vget. cbn [own_fields]. by rewrite !(H _) by reflexivity.
Qed.

(** ** The texts of a pack *)
Context {AL : AeadLaws P}.

(** Whatever store [v] implements, [v'] implements it too. *)
Definition refines_same (v v' : Vault) : Prop := forall s, abstracts v s -> abstracts v' s.

#[local] Instance refines_same_preorder : PreOrder refines_same.
Proof. split; unfold refines_same; repeat intro; eauto. Qed.

Lemma abstracts_same v v' s :
  same_sets v v' -> (forall a t, well_formed t = true -> holds a t v -> holds a t v') -> abstracts v s -> abstracts v' s.
Proof.
  intros [Ea Et] Hh Hab. split.
  - intros a. unfold tombstoned. rewrite Et. apply (ab_dead _ _ Hab).
  - intros a t Hl. apply (ab_live _ _ Hab) in Hl as [H Hw]. split; [by apply Hh|done].
  - intros a Hl. unfold is_active, tombstoned. rewrite Ea, Et. apply (ab_gone _ _ Hab a Hl).
Qed.

(** Decrypting a record changes nothing of what the vault holds. *)
Lemma decrypt_holds v a m x m' addr text :
  map_get (v_memories v) a = Some m -> decryptContent v m = (x, m') -> well_formed text = true ->
  holds addr text v -> holds addr text (put_memory a m' v) /\ (a = addr -> x = Ok text).
Proof.
  intros Hm Hd Hw Hh. destruct (decide (a = addr)) as [->|Hne].
  - destruct Hh as [H1 H2 (fields & cache & H3 & H4 & H5)]. rewrite H3 in Hm. injection Hm as <-.
    rewrite (decrypt_readable addr text) in Hd by done. injection Hd as <- <-. split; [|done].
    split; [done|done|]. exists fields, (Some text). cbn [v_memories put_memory with_memories v_vaultKey].
    rewrite map_get_set, str_eqb_refl. auto.
  - split; [|done]. eapply frame_holds; [|exact Hh]. by apply frame_put.
Qed.

Lemma getPlaintext_same addr : along refines_same (getPlaintext addr).
Proof.
  apply along_getPlaintext; [apply _|]. intros v a m x m' Hm Hd s. apply abstracts_same; [by split|].
  intros b t Hw Hh. by apply (decrypt_holds _ _ _ _ _ b t Hm Hd Hw).
Qed.

Lemma appendEvent_same clock uuid fields : along refines_same (appendEvent clock uuid fields).
Proof.
  intros v s. destruct (appendEvent clock uuid fields v) as [x v'] eqn:E. cbn [snd]. apply abstracts_same.
  - pose proof (appendEvent_sets clock uuid fields v) as H. by rewrite E in H.
  - intros a t _. apply frame_holds. by eapply frame_append.
Qed.

Lemma compile_same d args : along refines_same (compileContextPack d args).
Proof. apply along_compile; [apply _|apply getPlaintext_same|apply appendEvent_same]. Qed.

Lemma select_same args limit : along refines_same (select_memories args limit).
Proof. apply along_select; [apply _|apply getPlaintext_same]. Qed.

Lemma getPlaintext_live v s a text x v' :
  abstracts v s -> s_live s !! a = Some text -> getPlaintext (VStr a) v = (x, v') -> x = Ok text.
Proof.
  intros Hab Hl. destruct (ab_live _ _ Hab _ _ Hl) as [Hh Hw]. pose proof (h_record _ _ _ Hh) as (fs & c & Hm & _).
  unfold getPlaintext. cbn [vbind vread getRecord]. rewrite Hm.
  destruct (decryptContent v _) as [y m'] eqn:Ed. cbn [vbind vmodify vlift]. intros [= <- _].
  by apply (decrypt_holds _ _ _ _ _ a text Hm Ed Hw Hh).
Qed.

(** The texts of the entries are those of the store. *)
Lemma injected_texts d args cid i selected v s entries v' :
  abstracts v s -> inject_memories d args cid i (map VStr selected) v = (Ok entries, v') ->
  forall texts, Forall2 (λ a t, s_live s !! a = Some t) selected texts ->
  map (λ e, vget (pe_memory e) "content") entries = map VStr texts.
Proof.
  revert i v entries. induction selected as [|a selected IH]; intros i v entries Hab H texts Ht.
  - inversion Ht. cbn in H. by injection H as <- _.
  - inversion Ht as [|? t ? ts Ha Hts]; subst. cbn [map inject_memories] in H. cbn zeta in H.
    apply vbind_ok in H as (content & v1 & Hc & H). apply vbind_ok in H as (? & ? & [= <- <-] & H).
    apply vbind_ok in H as (r1 & v2 & H1 & H). apply vbind_ok in H as (r2 & v3 & H2 & H).
    apply vbind_ok in H as (rest & v4 & Hrest & H). injection H as <- <-. cbn [map pe_memory].
    pose proof (getPlaintext_live _ _ _ _ _ _ Hab Ha Hc) as [= ->].
    apply (along_eq refines_same) in Hc, H1, H2; [|apply appendEvent_same|apply appendEvent_same|apply getPlaintext_same].
    f_equal. eapply IH; [|exact Hrest|exact Hts]. auto.
Qed.

(** C28 A compiled pack holds exactly the live texts of the selected memories: of a vault
    that implements a store of live texts and dead addresses, every selected address is
    live, the contents of the pack are its texts in the same order, and the vault still
    implements the same store. *)
Theorem pack_holds_live_texts d args v s pack v' :
  abstracts v s -> compileContextPack d args v = (Ok pack, v') ->
  abstracts v' s /\
  exists selected texts,
    vget pack "memory_addresses" = VArr (map VStr selected) /\
    Forall2 (λ a t, s_live s !! a = Some t) selected texts /\ (forall a, a ∈ selected -> a ∉ s_dead s) /\
    map (λ m, vget m "content") (items_of (vget pack "memories")) = map VStr texts.
Proof.
  intros Hab H. split; [by apply (along_eq refines_same) in H; [apply H|apply compile_same]|].
  apply compile_inv in H as (selected & entries & [(v1 & cid & (limit & x & Hsel & Hx) & Hs & Hinj) Hpack]).
  apply (along_eq refines_same) in Hsel; [|apply select_same]. pose proof (Hsel s Hab) as Hab1.
  apply selected_strings in Hs as (names & -> & Hn).
  assert (exists texts, Forall2 (λ a t, s_live s !! a = Some t) names texts) as [texts Ht].
  { clear -L AL Hab Hn. induction Hn as [|a names [Ha Ht] _ [texts IH]]; [by exists []|].
    destruct (active_is_live _ _ a Hab) as [t Hl]; [by apply mem_str_true|by apply bool_decide_eq_false|].
    exists (t :: texts). by constructor. }
  exists names, texts. destruct Hpack as (cid' & pid & g & roots & p & ors & ->). split_and!; [done|done| |].
  - intros a Ha. eapply Forall_forall in Hn as [_ Hn]; [|exact Ha]. rewrite (ab_dead _ _ Hab).
    unfold tombstoned. by apply not_true_iff_false, bool_decide_eq_false.
  - rewrite <- (injected_texts _ _ _ _ _ _ _ _ _ Hab1 Hinj texts Ht). unfold context_pack, vget. cbn [own_fields].
    simp_get. cbn [items_of]. by rewrite map_map.
Qed.
End compiled.

(** ** Witnesses *)
Definition sample_pack (v : Vault) : res jsval * Vault := compileContextPack (sample_draws 3) [] (sample_stored v).

(** The sample pack holds one memory, verifies, and is 3 receipts from the empty log. *)
Lemma sample_pack_ok :
  match createVault (sample_draws 0) [] with
  | Ok v0 =>
      match sample_pack v0 with
      | (Ok pack, v') =>
          match verifyContextPack (Live v') (pack_args pack (publicKey v0)) with
          | Ok r => pv_valid r && (length (pv_memory_addresses r) =? 1) && (length (v_receipts v') =? 3)
          | Throw _ => false
          end
      | _ => false
      end
  | _ => false
  end = true.
Proof. vm_compute. reflexivity. Qed.

Lemma compiled_pack_verifies_witness :
  exists v0 pack v', createVault (sample_draws 0) [] = Ok v0 /\ sample_pack v0 = (Ok pack, v') /\
    verifyContextPack (Live v') (pack_args pack (publicKey v0)) = accepted_verdict pack.
Proof.
  pose proof sample_pack_ok as Hok.
  destruct (createVault (sample_draws 0) []) as [v0|] eqn:E0; [|discriminate Hok].
  destruct (sample_pack v0) as [[pack|] v'] eqn:E1; [|discriminate Hok].
  destruct (verifyContextPack _ _) as [r|] eqn:E2; [|discriminate Hok].
  apply andb_true_iff in Hok as [_ Hlen%Nat.eqb_eq]. exists v0, pack, v'. split; [reflexivity|]. split; [exact E1|].
  apply (compiled_pack_verifies (L := SampleLaws) (sample_draws 0) [] v0 (sample_stored v0) (sample_draws 3) [] pack v');
    [exact E0|reflexivity|reflexivity|apply sample_keys|apply reach_op, reach_start|exact E1|rewrite Hlen; lia].
Defined.

Lemma accepted_pack_sound_witness :
  exists v0 pack v' r, sample_pack v0 = (Ok pack, v') /\
    verifyContextPack (Live v') (pack_args pack (publicKey v0)) = Ok r /\ pv_valid r = true /\
    exists options, trustedKeyOptions (pack_args pack (publicKey v0)) = Some options.
Proof.
  pose proof sample_pack_ok as Hok.
  destruct (createVault (sample_draws 0) []) as [v0|] eqn:E0; [|discriminate Hok].
  destruct (sample_pack v0) as [[pack|] v'] eqn:E1; [|discriminate Hok].
  destruct (verifyContextPack (Live v') (pack_args pack (publicKey v0))) as [r|] eqn:E2; [|discriminate Hok].
  apply andb_true_iff in Hok as [[Hv _]%andb_true_iff _]. exists v0, pack, v', r.
  destruct (accepted_pack_sound (L := SampleLaws) (Live v') (pack_args pack (publicKey v0)) r E2 Hv)
    as (options & _ & _ & _ & Ho & _).
  split; [exact E1|]. split; [exact E2|]. split; [exact Hv|]. exists options. exact Ho.
Defined.

Lemma str_eqb_swap (a b : jstr) : (a =s= b) = false -> (b =s= a) = false.
Proof. rewrite !str_eqb_neq. congruence. Qed.

(** A pack of one memory, and the same pack with another content. *)
Definition sample_contents (content : string) : jsval :=
  VObj [("schema" : jstr, VStr CONTEXT_PACK_SCHEMA);
        ("memories" : jstr, VArr [VObj [("memory_addr" : jstr, vstr "addr"); ("content" : jstr, vstr content)]])].

Lemma verification_ignores_contents_witness :
  (fget [] "schema" === VStr CONTEXT_PACK_SCHEMA) = false /\
  same_but_contents (sample_contents "tea") (sample_contents "coffee") /\
  verifyContextPack (Data (VObj [("activeState" : jstr, VArr [vstr "addr"])])) (with_pack (sample_contents "tea") []) =
  verifyContextPack (Data (VObj [("activeState" : jstr, VArr [vstr "addr"])])) (with_pack (sample_contents "coffee") []).
Proof.
  assert (same_but_contents (sample_contents "tea") (sample_contents "coffee")) as H.
  { eexists _, _, _, _. split; [reflexivity|]. split; [reflexivity|]. split; [reflexivity|]. split; [reflexivity|]. split.
    - constructor; [|constructor]. eexists _, _. split; [reflexivity|]. split; [reflexivity|].
      intros k Hk. cbn [fget]. rewrite (str_eqb_swap _ _ Hk). reflexivity.
    - intros k Hk. cbn [fget]. rewrite (str_eqb_swap _ _ Hk). reflexivity. }
  split; [reflexivity|]. split; [exact H|].
  apply (verification_ignores_contents (L := SampleLaws)); [reflexivity|exact H].
Defined.

Lemma pack_holds_live_texts_witness :
  exists v0 pack v' s, sample_pack v0 = (Ok pack, v') /\ abstracts (sample_stored v0) s /\ abstracts v' s /\
    exists selected texts, vget pack "memory_addresses" = VArr (map VStr selected) /\
      map (λ m, vget m "content") (items_of (vget pack "memories")) = map VStr texts.
Proof.
  pose proof sample_pack_ok as Hok.
  destruct (createVault (sample_draws 0) []) as [v0|] eqn:E0; [|discriminate Hok].
  destruct (sample_pack v0) as [[pack|] v'] eqn:E1; [|discriminate Hok]. clear Hok.
  destruct (remember (sample_draws 1) sample_content v0) as [[r1|] v1] eqn:Er.
  2: { exfalso. apply (f_equal fst) in Er. vm_compute in E0. injection E0 as <-. vm_compute in Er. discriminate. }
  assert (sample_stored v0 = v1) as Hst by (unfold sample_stored, run_op; by rewrite Er).
  destruct (remember_refines v0 empty_store (sample_draws 1) sample_content r1 v1) as (s & _ & Hs);
    [by eapply createVault_empty|exact Er|vm_compute; reflexivity|].
  rewrite <- Hst in Hs.
  destruct (pack_holds_live_texts (L := SampleLaws) (sample_draws 3) [] (sample_stored v0) s pack v' Hs E1)
    as (Hs' & selected & texts & Ha & _ & _ & Ht).
  exists v0, pack, v', s. split; [exact E1|]. split; [exact Hs|]. split; [exact Hs'|]. exists selected, texts. auto.
Defined.

(** A memory of a pack that is not listed needs no receipt: the pack of [sample_contents],
    which has none, is accepted. *)
Lemma unlisted_memory_accepted :
  match verifyContextPack (Data VUndef)
          [("contextPack" : jstr, sample_contents "anything"); ("publicKey" : jstr, vstr "key");
           ("active_state" : jstr, VArr [vstr "addr"])] with
  | Ok r => pv_valid r
  | Throw _ => false
  end = true.
Proof. vm_compute. reflexivity. Qed.
