(* ===== verification/ContextPassport.v ===== *)
(** * Context passports and proofs of non-use

    The second part of [src/packages/passport/src/index.js]: artifacts that commit to the
    memories that a context selected, omitted and had tombstoned by Merkle roots and counts
    over sorted references, and the functions that create and verify them.  Creating one
    without a given pack compiles a pack, which changes the vault; the vault is therefore
    given and returned.  The values of [args] other than the vault are an object; a vault
    that is not [Live] has no internals.  [invalidBoundaryResult] gives its first error also
    as [error] and [reason]. *)

From S2P Require Import Prelude JsValue Objects Doubles Regex Canonical Hashing Merkle Receipt PublicSafe Dates VaultPublic Vault Settlement Optimizer Passport.

Definition CONTEXT_PASSPORT_SCHEMA : jstr := "enigma.context_passport.v1".
Definition PROOF_OF_NON_USE_SCHEMA : jstr := "enigma.proof_of_non_use.v1".
Definition VERIFIED_STATUS : jstr := "verified".
Definition FAILED_PROOF_STATUS : jstr := "failed".
Definition FAIL_CLOSED_STATUS : jstr := "fail_closed".

Definition PROOF_POLICY_DECISIONS : list jstr :=
  ["allow" : jstr; "deny" : jstr; "redact" : jstr; "quarantine" : jstr; "tombstone_only" : jstr].

Definition PROOF_VERIFIER_STATUSES : list jstr := [VERIFIED_STATUS; FAILED_PROOF_STATUS; ("inconclusive" : jstr)].

Definition CONTEXT_PASSPORT_FIELDS : list jstr :=
  ["schema" : jstr; "passport_id" : jstr; "issued_at" : jstr; "subject_ref" : jstr; "query_commitment" : jstr;
   "selected_context_root" : jstr; "omitted_context_root" : jstr; "tombstone_context_root" : jstr;
   "selected_count" : jstr; "omitted_count" : jstr; "tombstone_count" : jstr; "capability_ids" : jstr;
   "policy_ids" : jstr; "proof_refs" : jstr].

Definition PROOF_OF_NON_USE_FIELDS : list jstr :=
  ["schema" : jstr; "proof_id" : jstr; "issued_at" : jstr; "subject_ref" : jstr; "query_commitment" : jstr;
   "candidate_set_root" : jstr; "selected_set_root" : jstr; "omitted_set_root" : jstr; "tombstone_set_root" : jstr;
   "candidate_count" : jstr; "selected_count" : jstr; "omitted_count" : jstr; "tombstone_count" : jstr;
   "policy_id" : jstr; "policy_decision" : jstr; "verifier_status" : jstr; "verifier_ref" : jstr;
   "receipt_log_root" : jstr; "receipt_refs" : jstr].

(** ** References *)

(** The texts of the values that have one that is not empty. *)
Definition ref_texts (values : list jsval) : list jstr :=
  List.filter (λ ref, negb (ref =s= [])) (map to_str (List.filter (λ value, negb (is_nullish value)) values)).

(** [[...new Set(refs)].sort()]. *)
Definition sort_refs (refs : list jstr) : list jstr := sort_strings (set_of_list refs).

Definition refs_of (values : list jsval) : list jstr := sort_refs (ref_texts values).

Definition sortedRefs (values : jsval) : res (list jstr) := let! items := iterate_given values in Ok (refs_of items).

(** The first of two properties, an absent one being [undefined]. *)
Definition given (args : obj) (snakeKey camelKey : jstr) : jsval := fget args snakeKey ?? fget args camelKey.

Definition explicitRefs (args : obj) (snakeKey camelKey : jstr) : res (option (list jstr)) :=
  let refs := given args snakeKey camelKey in
  if is_undef refs then Ok None else let! l := sortedRefs refs in Ok (Some l).

(** [a ?? b] on references. *)
Definition or_refs (a : res (option (list jstr))) (b : res (list jstr)) : res (list jstr) :=
  let! refs := a in match refs with Some l => Ok l | None => b end.

Section artifacts.
Context {C : Crypto} {Hst : Host} {Loc : Locale} {P : Platform}.

Definition merkleRootFrom (values : list jstr) : res jstr :=
  let! m := ms_new (map VStr (refs_of (map VStr values))) in Ok (ms_root m).

(** [receiptDigest(publicReceipt(receipt)) ?? receiptDigest(receipt)]. *)
Definition receipt_ref (receipt : jsval) : list jstr :=
  let digest := match receipt with
                | VStr s => Some s
                | _ => match receiptDigest (publicReceipt receipt) with Some h => Some h | None => receiptDigest receipt end
                end in
  match digest with Some h => if h =s= [] then [] else [h] | None => [] end.

Definition receiptRefsFromReceipts (receipts : jsval) : res (list jstr) :=
  let! items := iterate_given receipts in Ok (refs_of (map VStr (flat_map receipt_ref items))).

Definition receiptRefsFromContextPack (contextPack : jsval) : res (list jstr) :=
  let! hashes := iterate_given (vget contextPack "receipt_hashes") in
  let! receipts := receiptRefsFromReceipts (vget contextPack "receipts") in
  let! retrievals := receiptRefsFromReceipts (vget contextPack "retrieval_receipts") in
  let! injections := receiptRefsFromReceipts (vget contextPack "injection_receipts") in
  Ok (refs_of (hashes ++ map VStr (receipts ++ retrievals ++ injections))).

Definition receiptRefsFromArgs (args : obj) (contextPack : jsval) : res (list jstr) :=
  let! proofs := iterate_given (given args "proof_refs" "proofRefs") in
  let! receipts := iterate_given (given args "receipt_refs" "receiptRefs") in
  let! ofPack := receiptRefsFromContextPack contextPack in
  Ok (refs_of (proofs ++ receipts ++ map VStr ofPack)).

Definition hashedRef (prefix : string) (value : jsval) : res jsval :=
  let! text := canonical value in
  let! digest := sha256Hex (VStr text) in
  Ok (VStr (prefix +s+ "_" +s+ slice_to 32 digest)).

Definition queryCommitment (args : obj) (contextPack : jsval) : jstr :=
  let explicit := given args "query_commitment" "queryCommitment" in
  if negb (is_undef explicit) then to_str explicit
  else sha_root (to_str (fget args "query" ?? vget contextPack "query" ?? VStr [])).

(** [(contextPack?.receipts ?? []).map(f)], which only lists have. *)
Definition receipt_items (contextPack : jsval) : res (list jsval) :=
  match vget contextPack "receipts" with
  | VUndef | VNull | VHole => Ok []
  | VArr items => Ok (map elem items)
  | VBytes _ _ => Ok []
  | _ => Throw (TypeError "receipts is not a list")
  end.

Definition policyIdsFrom (args : obj) (passport contextPack : jsval) : res (list jstr) :=
  let! explicit := iterate_given (given args "policy_ids" "policyIds") in
  let! policies := iterate_given (vget passport "policies") in
  let! receipts := receipt_items contextPack in
  let ids := refs_of (explicit ++ policies ++ List.filter truthy (map (λ receipt, vget receipt "policy_id") receipts)) in
  Ok (match ids with [] => ["local-default" : jstr] | _ => ids end).

Definition capabilityIdsFrom (args : obj) : res (list jstr) :=
  sortedRefs (fget args "capability_ids" ?? fget args "capabilityIds" ?? VArr [vstr "capability:context-passport"]).

Definition pack_in (args : obj) : jsval := fget args "contextPack" ?? fget args "context_pack" ?? fget args "pack".

(** With the vault after a compilation. *)
Definition contextPackFromArgs (d : draws) (vault : vault_arg) (args : obj) : res jsval * vault_arg :=
  if truthy (pack_in args) then (Ok (pack_in args), vault)
  else match vault with
  | Live v => let '(pack, v') := compileContextPack d args v in (pack, Live v')
  | Data x =>
      (if truthy x then Throw (PlainError "compileContextPack requires a live vault created by packages/vault")
       else Ok VUndef, vault)
  end.

(** ** Summaries *)
Record selection_summary := {
  ss_selected : list jstr;
  ss_omitted : list jstr;
  ss_tombstone : list jstr;
  ss_selected_root : jstr;
  ss_omitted_root : jstr;
  ss_tombstone_root : jstr
}.

(** The active references that the arguments name. *)
Definition active_refs (vault : vault_arg) (args : obj) : list jstr :=
  refs_of (activeAddressesFrom (given args "active_state" "activeState") ++ vault_active vault
           ++ activeAddressesFrom (fget args "passport")).

Definition tombstone_refs_of (vault : vault_arg) (args : obj) : res (list jstr) :=
  let! given := tombstoneAddressesFrom (fget args "tombstones") in
  let! of_vault := vault_tombstones vault in
  let! of_passport := tombstoneAddressesFrom (fget args "passport") in
  let! addresses := iterate_given (vget (fget args "passport") "tombstone_addresses") in
  Ok (refs_of (given ++ of_vault ++ of_passport ++ addresses)).

Definition contextSelectionSummary (vault : vault_arg) (args : obj) : res selection_summary :=
  let! selected :=
    or_refs (explicitRefs args "selected_context_refs" "selectedContextRefs")
      (or_refs (explicitRefs args "selected_refs" "selectedRefs")
         (let! addresses := memoryAddressesFromPack (pack_in args) in Ok (refs_of addresses))) in
  let! omitted :=
    or_refs (explicitRefs args "omitted_context_refs" "omittedContextRefs")
      (or_refs (explicitRefs args "omitted_refs" "omittedRefs")
         (Ok (List.filter (λ ref, negb (mem_str ref selected)) (active_refs vault args)))) in
  let! tombstone :=
    or_refs (explicitRefs args "tombstone_context_refs" "tombstoneContextRefs")
      (or_refs (explicitRefs args "tombstone_refs" "tombstoneRefs") (tombstone_refs_of vault args)) in
  let! selected_root := merkleRootFrom selected in
  let! omitted_root := merkleRootFrom omitted in
  let! tombstone_root := merkleRootFrom tombstone in
  Ok {| ss_selected := selected; ss_omitted := omitted; ss_tombstone := tombstone; ss_selected_root := selected_root;
        ss_omitted_root := omitted_root; ss_tombstone_root := tombstone_root |}.

Record proof_summary := {
  ps_base : selection_summary;
  ps_candidate : list jstr;
  ps_candidate_root : jstr;
  ps_selected_root : jstr;
  ps_omitted_root : jstr;
  ps_tombstone_root : jstr
}.

Definition proofSelectionSummary (vault : vault_arg) (args : obj) : res proof_summary :=
  let! base := contextSelectionSummary vault args in
  let! candidate := or_refs (explicitRefs args "candidate_refs" "candidateRefs")
    (Ok (refs_of (map VStr (ss_selected base ++ ss_omitted base ++ ss_tombstone base)))) in
  let! candidate_root := merkleRootFrom candidate in
  let! selected_root := merkleRootFrom (ss_selected base) in
  let! omitted_root := merkleRootFrom (ss_omitted base) in
  let! tombstone_root := merkleRootFrom (ss_tombstone base) in
  Ok {| ps_base := base; ps_candidate := candidate; ps_candidate_root := candidate_root;
        ps_selected_root := selected_root; ps_omitted_root := omitted_root; ps_tombstone_root := tombstone_root |}.

(** ** Checks of an artifact *)
Definition missingBoundaryFields (artifact : jsval) (requiredFields : list jstr) : list jstr :=
  flat_map (λ field : jstr, if is_nullish (vget artifact field) then ["missing " +s+ field] else []) requiredFields.

Definition invalid (field : jstr) : jstr := "invalid " +s+ field.

Definition validateRootField (artifact : jsval) (field : jstr) : list jstr :=
  if re_full ROOT_RE (to_str (vget artifact field ?? VStr [])) then [] else [invalid field].

Definition validateCountField (artifact : jsval) (field : jstr) : list jstr :=
  if is_nonneg_integer (vget artifact field) then [] else [invalid field].

Definition validateRefArray (artifact : jsval) (field : jstr) : list jstr :=
  match vget artifact field with
  | VArr (ref :: refs) => flat_map (λ r, if non_empty_string r then [] else [invalid field]) (ref :: refs)
  | _ => ["missing " +s+ field]
  end.

Definition compareRootAndCount (artifact : jsval) (root : jstr) (count : nat) (rootField countField : jstr) : list jstr :=
  (if vget artifact rootField === VStr root then [] else [rootField +s+ " mismatch"])
  ++ (if vget artifact countField === vnat count then [] else [countField +s+ " mismatch"]).

Definition verifyRequiredReceiptRefs (artifactRefs : jsval) (expectedRefs : list jstr) (field : jstr) : res (list jstr) :=
  match expectedRefs with
  | [] => Ok []
  | _ =>
      let! items := iterate artifactRefs in
      Ok (flat_map (λ ref, if arr_includes items (VStr ref) then []
                           else ["missing " +s+ field +s+ " receipt ref: " +s+ ref]) expectedRefs)
  end.

Definition pack_failure (reason : jstr) : jstr := "context pack verification failed: " +s+ reason.

Definition verifyContextPackWhenTrusted (vault : vault_arg) (args : obj) (contextPack : jsval) : list jstr :=
  if negb (truthy contextPack) || bool_decide (trustedKeyOptions args = None) then []
  else match verifyContextPack vault (fset args "contextPack" contextPack) with
  | Ok result => if pv_valid result then [] else [pack_failure (default ("invalid" : jstr) (head (pv_errors result)))]
  | Throw e => [pack_failure (exn_message e)]
  end.

Definition publicBoundaryArtifact (artifact : jsval) : jsval :=
  if negb (is_object artifact) then VNull
  else
    let fields :=
      if vget artifact "schema" === VStr CONTEXT_PASSPORT_SCHEMA then CONTEXT_PASSPORT_FIELDS
      else if vget artifact "schema" === VStr PROOF_OF_NON_USE_SCHEMA then PROOF_OF_NON_USE_FIELDS
      else [] in
    match fields with
    | [] => VNull
    | _ => VObj (flat_map (λ field : jstr, if is_undef (vget artifact field) then [] else [(field, vget artifact field)]) fields)
    end.

Record boundary_verdict := {
  bv_valid : bool;
  bv_verifier_status : jstr;
  bv_errors : list jstr;
  bv_public_artifact : jsval;
  bv_canonical : option jstr
}.

Definition invalidBoundaryResult (artifact : jsval) (errors : list jstr) (status : jstr) : res boundary_verdict :=
  let publicArtifact := publicBoundaryArtifact artifact in
  let! text := if truthy publicArtifact then let! t := canonical publicArtifact in Ok (Some t) else Ok None in
  Ok {| bv_valid := false; bv_verifier_status := status; bv_errors := errors; bv_public_artifact := publicArtifact;
        bv_canonical := text |}.

Definition validBoundaryResult (artifact : jsval) : res boundary_verdict :=
  let! text := canonical artifact in
  Ok {| bv_valid := true; bv_verifier_status := VERIFIED_STATUS; bv_errors := []; bv_public_artifact := artifact;
        bv_canonical := Some text |}.

(** ** Context passports *)

(** [args.passport ?? (args.vault ? createPassport({ vault, now }) : undefined)]. *)
Definition passport_for (d : draws) (vault : vault_arg) (args : obj) : res jsval :=
  fget args "passport" ??!
    (if vault_given vault then createPassport (d_uuid d 0) (d_clock d) vault [("now" : jstr, fget args "now")] else Ok VUndef).

(** [{ ...args, contextPack, passport }]. *)
Definition with_context (args : obj) (contextPack passport : jsval) : obj :=
  fset (fset args "contextPack" contextPack) "passport" passport.

(** [args.subject_ref ?? args.subjectRef ?? hashedRef('subject', ...)]. *)
Definition subject_ref (vault : vault_arg) (args : obj) (contextPack passport : jsval) : res jsval :=
  fget args "subject_ref" ??! fget args "subjectRef" ??!
    hashedRef "subject" (vget (vget passport "owner") "subject_id" ?? vault_get vault "subject_id"
                         ?? vget contextPack "passport_id" ?? vstr "local-subject").

Definition refs_value (refs : list jstr) : jsval := VArr (map VStr refs).

(** What follows the compilation of the pack. *)
Definition contextPassport_with (d : draws) (vault : vault_arg) (args : obj) (contextPack : jsval) : res jsval :=
  let! passport := passport_for d vault args in
  let! summary := contextSelectionSummary vault (with_context args contextPack passport) in
  let! proofRefs := receiptRefsFromArgs args contextPack in
  throw_if (length proofRefs =? 0)%nat
    with PlainError "createContextPassport requires proof_refs or context pack receipts";
  let! issuedAt := nowIso (d_clock d) (fget args "now") in
  let! subjectRef := subject_ref vault args contextPack passport in
  let! capabilityIds := capabilityIdsFrom args in
  let! policyIds := policyIdsFrom args passport contextPack in
  Ok (VObj [
    ("schema" : jstr, VStr CONTEXT_PASSPORT_SCHEMA);
    ("passport_id" : jstr, fget args "passport_id" ?? fget args "passportId" ?? vget contextPack "passport_id"
       ?? vget passport "passport_id" ?? VStr ("context_passport_" +s+ d_uuid d 1));
    ("issued_at" : jstr, VStr issuedAt); ("subject_ref" : jstr, subjectRef);
    ("query_commitment" : jstr, VStr (queryCommitment args contextPack));
    ("selected_context_root" : jstr, VStr (ss_selected_root summary));
    ("omitted_context_root" : jstr, VStr (ss_omitted_root summary));
    ("tombstone_context_root" : jstr, VStr (ss_tombstone_root summary));
    ("selected_count" : jstr, vnat (length (ss_selected summary)));
    ("omitted_count" : jstr, vnat (length (ss_omitted summary)));
    ("tombstone_count" : jstr, vnat (length (ss_tombstone summary)));
    ("capability_ids" : jstr, refs_value capabilityIds); ("policy_ids" : jstr, refs_value policyIds);
    ("proof_refs" : jstr, refs_value proofRefs)]).

(** [d] is drawn from by the compilation of a pack, [d'] afterwards. *)
Definition createContextPassport (d d' : draws) (vault : vault_arg) (args : obj) : res jsval * vault_arg :=
  match contextPackFromArgs d vault args with
  | (Ok contextPack, vault') => (contextPassport_with d' vault' args contextPack, vault')
  | (Throw e, vault') => (Throw e, vault')
  end.

(** Whether the arguments of a verification give something to compare with. *)
Definition has_evidence (vault : vault_arg) (args : obj) : bool :=
  truthy (pack_in args) || vault_given vault || truthy (fget args "passport") || truthy (fget args "active_state")
  || truthy (fget args "activeState") || truthy (fget args "tombstones").

Definition passport_shape_errors (contextPassport : jsval) : list jstr :=
  missingBoundaryFields contextPassport CONTEXT_PASSPORT_FIELDS
  ++ flat_map (validateRootField contextPassport)
       ["query_commitment" : jstr; "selected_context_root" : jstr; "omitted_context_root" : jstr; "tombstone_context_root" : jstr]
  ++ flat_map (validateCountField contextPassport) ["selected_count" : jstr; "omitted_count" : jstr; "tombstone_count" : jstr]
  ++ flat_map (validateRefArray contextPassport) ["capability_ids" : jstr; "policy_ids" : jstr; "proof_refs" : jstr].

Definition passport_root_errors (contextPassport : jsval) (expected : selection_summary) : list jstr :=
  compareRootAndCount contextPassport (ss_selected_root expected) (length (ss_selected expected))
    "selected_context_root" "selected_count"
  ++ compareRootAndCount contextPassport (ss_omitted_root expected) (length (ss_omitted expected))
       "omitted_context_root" "omitted_count"
  ++ compareRootAndCount contextPassport (ss_tombstone_root expected) (length (ss_tombstone expected))
       "tombstone_context_root" "tombstone_count".

Definition passport_errors (vault : vault_arg) (args : obj) (contextPassport : jsval) : res (list jstr) :=
  let contextPack := pack_in args in
  let! mismatches :=
    (if has_evidence vault args then
       let! expected := contextSelectionSummary vault (fset args "contextPack" contextPack) in
       Ok (passport_root_errors contextPassport expected)
     else Ok []) in
  let! expectedRefs := receiptRefsFromContextPack contextPack in
  let! missing := verifyRequiredReceiptRefs (vget contextPassport "proof_refs" ?? VArr []) expectedRefs "proof_refs" in
  Ok (passport_shape_errors contextPassport ++ mismatches ++ verifyContextPackWhenTrusted vault args contextPack ++ missing).

Definition passport_of_args (args : obj) : jsval :=
  if fget args "schema" === VStr CONTEXT_PASSPORT_SCHEMA then VObj args
  else fget args "contextPassport" ?? fget args "context_passport" ?? fget args "passportArtifact" ?? fget args "artifact".

Definition verifyContextPassport (vault : vault_arg) (args : obj) : res boundary_verdict :=
  let contextPassport := passport_of_args args in
  if negb (truthy contextPassport) || (vget contextPassport "schema" !== VStr CONTEXT_PASSPORT_SCHEMA)
  then invalidBoundaryResult contextPassport
         ["verifyContextPassport requires an enigma.context_passport.v1 artifact" : jstr] FAIL_CLOSED_STATUS
  else
    let! errors := passport_errors vault args contextPassport in
    match errors with
    | [] => validBoundaryResult contextPassport
    | _ => invalidBoundaryResult contextPassport errors FAIL_CLOSED_STATUS
    end.

(** ** Proofs of non-use *)

(** [policies?.[0]]. *)
Definition first_policy (policies : jsval) : jsval :=
  match policies with
  | VArr (x :: _) => elem x
  | VStr (c :: _) => VStr [c]
  | VBytes _ (n :: _) => VNum (NInt (Z.of_N n))
  | _ => vget policies "0"
  end.

(** [contextPack?.receipts?.find((receipt) => receipt?.policy_id)?.policy_id]. *)
Definition receipt_policy (contextPack : jsval) : res jsval :=
  let! receipts := receipt_items contextPack in
  Ok (match List.find (λ receipt, truthy (vget receipt "policy_id")) receipts with
      | Some receipt => vget receipt "policy_id"
      | None => VUndef
      end).

Definition policy_for (vault : vault_arg) (args : obj) (contextPack passport : jsval) : res jsval :=
  fget args "policy_id" ??! fget args "policyId" ??!
    (let! ofReceipts := receipt_policy contextPack in
     Ok (ofReceipts ?? first_policy (vget passport "policies") ?? vault_get vault "policy_id" ?? vstr "local-default")).

(** What follows the compilation of the pack. *)
Definition proofOfNonUse_with (d : draws) (vault : vault_arg) (args : obj) (contextPack : jsval) : res jsval :=
  let! passport := passport_for d vault args in
  let! roots := rootsFromVault vault in
  let receiptLogRoot := given args "receipt_log_root" "receiptLogRoot" ?? vget contextPack "receipt_log_root" ?? roots.2 in
  let! policyId := policy_for vault args contextPack passport in
  let policyDecision := given args "policy_decision" "policyDecision" ?? vstr "allow" in
  let! verifierRef := fget args "verifier_ref" ??! fget args "verifierRef" ??!
    hashedRef "verifier" (VObj [("schema" : jstr, VStr PROOF_OF_NON_USE_SCHEMA); ("policy_id" : jstr, policyId)]) in
  throw_if negb (is_string policyDecision && mem_str (str_of policyDecision) PROOF_POLICY_DECISIONS)
    with PlainError "createProofOfNonUse policy_decision must be allow, deny, redact, quarantine, or tombstone_only";
  let! summary := proofSelectionSummary vault (with_context args contextPack passport) in
  let! receiptRefs := receiptRefsFromArgs args contextPack in
  throw_if (length receiptRefs =? 0)%nat
    with PlainError "createProofOfNonUse requires receipt_refs or context pack receipts";
  let! issuedAt := nowIso (d_clock d) (fget args "now") in
  let! subjectRef := subject_ref vault args contextPack passport in
  let base := ps_base summary in
  Ok (VObj [
    ("schema" : jstr, VStr PROOF_OF_NON_USE_SCHEMA);
    ("proof_id" : jstr, fget args "proof_id" ?? fget args "proofId" ?? VStr ("proof_non_use_" +s+ d_uuid d 1));
    ("issued_at" : jstr, VStr issuedAt); ("subject_ref" : jstr, subjectRef);
    ("query_commitment" : jstr, VStr (queryCommitment args contextPack));
    ("candidate_set_root" : jstr, VStr (ps_candidate_root summary));
    ("selected_set_root" : jstr, VStr (ps_selected_root summary));
    ("omitted_set_root" : jstr, VStr (ps_omitted_root summary));
    ("tombstone_set_root" : jstr, VStr (ps_tombstone_root summary));
    ("candidate_count" : jstr, vnat (length (ps_candidate summary)));
    ("selected_count" : jstr, vnat (length (ss_selected base)));
    ("omitted_count" : jstr, vnat (length (ss_omitted base)));
    ("tombstone_count" : jstr, vnat (length (ss_tombstone base)));
    ("policy_id" : jstr, VStr (to_str policyId)); ("policy_decision" : jstr, policyDecision);
    ("verifier_status" : jstr, VStr VERIFIED_STATUS); ("verifier_ref" : jstr, verifierRef);
    ("receipt_log_root" : jstr, receiptLogRoot); ("receipt_refs" : jstr, refs_value receiptRefs)]).

Definition createProofOfNonUse (d d' : draws) (vault : vault_arg) (args : obj) : res jsval * vault_arg :=
  match contextPackFromArgs d vault args with
  | (Ok contextPack, vault') => (proofOfNonUse_with d' vault' args contextPack, vault')
  | (Throw e, vault') => (Throw e, vault')
  end.

Definition one_of_texts (value : jsval) (texts : list jstr) : bool := is_string value && mem_str (str_of value) texts.

Definition proof_shape_errors (proof : jsval) : list jstr :=
  let refuse (b : bool) (field : jstr) := if b then [] else [invalid field] in
  missingBoundaryFields proof PROOF_OF_NON_USE_FIELDS
  ++ flat_map (validateRootField proof)
       ["query_commitment" : jstr; "candidate_set_root" : jstr; "selected_set_root" : jstr; "omitted_set_root" : jstr;
        "tombstone_set_root" : jstr]
  ++ flat_map (validateCountField proof)
       ["candidate_count" : jstr; "selected_count" : jstr; "omitted_count" : jstr; "tombstone_count" : jstr]
  ++ refuse (non_empty_string (vget proof "policy_id")) "policy_id"
  ++ refuse (one_of_texts (vget proof "policy_decision") PROOF_POLICY_DECISIONS) "policy_decision"
  ++ refuse (one_of_texts (vget proof "verifier_status") PROOF_VERIFIER_STATUSES) "verifier_status"
  ++ refuse (non_empty_string (vget proof "verifier_ref")) "verifier_ref"
  ++ validateRootField proof "receipt_log_root" ++ validateRefArray proof "receipt_refs".

Definition proof_root_errors (proof : jsval) (expected : proof_summary) : list jstr :=
  let base := ps_base expected in
  compareRootAndCount proof (ps_candidate_root expected) (length (ps_candidate expected)) "candidate_set_root" "candidate_count"
  ++ compareRootAndCount proof (ps_selected_root expected) (length (ss_selected base)) "selected_set_root" "selected_count"
  ++ compareRootAndCount proof (ps_omitted_root expected) (length (ss_omitted base)) "omitted_set_root" "omitted_count"
  ++ compareRootAndCount proof (ps_tombstone_root expected) (length (ss_tombstone base)) "tombstone_set_root" "tombstone_count".

Definition proof_errors (vault : vault_arg) (args : obj) (proof : jsval) : res (list jstr) :=
  let contextPack := pack_in args in
  let! mismatches :=
    (if has_evidence vault args || truthy (fget args "candidate_refs") || truthy (fget args "candidateRefs") then
       let! expected := proofSelectionSummary vault (fset args "contextPack" contextPack) in
       Ok (proof_root_errors proof expected)
     else Ok []) in
  let log_error :=
    if truthy contextPack && (vget proof "receipt_log_root" !== vget contextPack "receipt_log_root")
    then ["receipt_log_root mismatch" : jstr] else [] in
  let! expectedRefs := receiptRefsFromContextPack contextPack in
  let! missing := verifyRequiredReceiptRefs (vget proof "receipt_refs" ?? VArr []) expectedRefs "receipt_refs" in
  Ok (proof_shape_errors proof ++ mismatches ++ log_error ++ verifyContextPackWhenTrusted vault args contextPack ++ missing).

Definition proof_of_args (args : obj) : jsval :=
  if fget args "schema" === VStr PROOF_OF_NON_USE_SCHEMA then VObj args
  else fget args "proofOfNonUse" ?? fget args "proof_of_non_use" ?? fget args "proof" ?? fget args "artifact".

(** [{ ...proof, verifier_status }]. *)
Definition with_status (proof : jsval) (status : jstr) : jsval :=
  VObj (spread (spread [] (spread_of proof)) [("verifier_status" : jstr, VStr status)]).

Definition verifyProofOfNonUse (vault : vault_arg) (args : obj) : res boundary_verdict :=
  let proof := proof_of_args args in
  if negb (truthy proof) || (vget proof "schema" !== VStr PROOF_OF_NON_USE_SCHEMA)
  then invalidBoundaryResult proof ["verifyProofOfNonUse requires an enigma.proof_of_non_use.v1 artifact" : jstr] FAIL_CLOSED_STATUS
  else
    let! errors := proof_errors vault args proof in
    match errors with
    | [] => validBoundaryResult (with_status proof VERIFIED_STATUS)
    | _ => invalidBoundaryResult (with_status proof FAILED_PROOF_STATUS) errors FAIL_CLOSED_STATUS
    end.
End artifacts.
