(* ===== verification/ContextPassportSafety.v ===== *)
(** * What context passports and proofs of non-use guarantee

    A created artifact verifies against the pack and the vault it was created from; an
    artifact accepted against two contexts selects, omits and tombstones the same
    references in both, unless SHA-256 collides; a verified proof of non-use covers every
    active reference, when no references are given explicitly. *)

From S2P Require Import Prelude JsValue Objects Doubles Regex Canonical Hashing Merkle Receipt PublicSafe Dates VaultPublic Vault Samples MapFacts VaultBundle VaultSafety VaultReplay Settlement Optimizer Passport PassportSafety ContextPassport.

(** ** References *)
Lemma elem_of_ref_texts x values :
  x ∈ ref_texts values <-> x <> [] /\ exists v, v ∈ values /\ is_nullish v = false /\ to_str v = x.
Proof.
  unfold ref_texts. rewrite list_elem_of_In, filter_In, in_map_iff. setoid_rewrite filter_In. setoid_rewrite <- list_elem_of_In.
  rewrite negb_true_iff, str_eqb_neq. setoid_rewrite negb_true_iff. naive_solver.
Qed.

Lemma elem_of_refs x values : x ∈ refs_of values <-> x ∈ ref_texts values.
Proof. unfold refs_of, sort_refs. by rewrite elem_of_sort_strings, elem_of_set_of_list. Qed.

(** References depend on the set of the texts only. *)
Lemma refs_of_ext l l' : (forall x, x ∈ ref_texts l <-> x ∈ ref_texts l') -> refs_of l = refs_of l'.
Proof.
  intros H. unfold refs_of, sort_refs. apply sort_strings_proper.
  apply NoDup_same_elements_perm; [apply NoDup_set_of_list..|]. intros x. by rewrite !elem_of_set_of_list.
Qed.

(** Sorted distinct texts that are not empty. *)
Record is_refs (l : list jstr) : Prop := {
  ir_sorted : StronglySorted str_le l;
  ir_distinct : NoDup l;
  ir_nonempty : Forall (λ x, x <> []) l
}.

Lemma refs_of_is_refs values : is_refs (refs_of values).
Proof.
  split.
  - apply sort_strings_sorted.
  - apply NoDup_sort_strings, NoDup_set_of_list.
  - apply Forall_forall. intros x Hx. by apply elem_of_refs, elem_of_ref_texts in Hx as [? _].
Qed.

Lemma ref_texts_strings x l : x ∈ ref_texts (map VStr l) <-> x ∈ l /\ x <> [].
Proof.
  rewrite elem_of_ref_texts. split.
  - intros (Hx & v & Hv & _ & <-). apply list_elem_of_fmap in Hv as (y & -> & Hy). by split.
  - intros [Hx Hn]. split; [done|]. exists (VStr x). split; [by apply list_elem_of_fmap_2|done].
Qed.

Lemma refs_of_refs l : is_refs l -> refs_of (map VStr l) = l.
Proof.
  intros [Hs Hd Hn]. apply (StronglySorted_unique str_le); [apply sort_strings_sorted|done|].
  apply NoDup_Permutation; [apply NoDup_sort_strings, NoDup_set_of_list|done|].
  intros x. fold (refs_of (map VStr l)). rewrite elem_of_refs, ref_texts_strings.
  split; [by intros []|]. intros Hx. split; [done|]. by eapply Forall_forall in Hn.
Qed.

Lemma filter_is_refs f l : is_refs l -> is_refs (List.filter f l).
Proof.
  intros [Hs Hd Hn]. split.
  - clear -Hs. induction Hs as [|x l Hs IH Hx]; cbn; [constructor|]. destruct (f x); [|done]. constructor; [done|].
    apply Forall_forall. intros y [Hy%list_elem_of_In _]%list_elem_of_In%filter_In. by apply (proj1 (Forall_forall _ _) Hx).
  - apply NoDup_ListNoDup. apply List.NoDup_filter. by apply NoDup_ListNoDup.
  - apply Forall_forall. intros y [Hy%list_elem_of_In _]%list_elem_of_In%filter_In. by apply (proj1 (Forall_forall _ _) Hn).
Qed.

Lemma explicit_refs args k k' l : explicitRefs args k k' = Ok (Some l) -> is_refs l.
Proof.
  unfold explicitRefs, sortedRefs. intros H. destruct (is_undef _); [done|]. inv_res. simplify_eq. apply refs_of_is_refs.
Qed.

Lemma or_refs_inv args k k' b l :
  or_refs (explicitRefs args k k') b = Ok l -> is_refs l \/ b = Ok l.
Proof.
  unfold or_refs. intros H. destruct (explicitRefs args k k') as [[refs|]|] eqn:E; cbn [res_bind] in H; [|by right|done].
  left. injection H as <-. by eapply explicit_refs.
Qed.

Section safety.
Context {C : Crypto} {L : CryptoLaws C} {Hst : Host} {Loc : Locale} {P : Platform}.

Lemma ms_new_strings l : ms_new (map VStr l) = Ok {| ms_values := set_of_list l |}.
Proof.
  unfold ms_new, ms_empty, set_of_list. generalize (@nil jstr). induction l as [|x l IH]; intros s; [done|].
  cbn [map foldl_res foldl elem]. unfold ms_insert. cbn [normalizeLeafValue res_bind ms_values]. apply IH.
Qed.

Lemma set_of_list_distinct l : NoDup l -> set_of_list l = l.
Proof.
  intros Hd. unfold set_of_list. assert (forall s, NoDup (s ++ l) -> foldl (λ s x, set_add x s) s l = s ++ l) as H.
  { clear Hd. induction l as [|x l IH]; intros s Hs; cbn [foldl]; [by rewrite app_nil_r|].
    assert (x ∉ s) as Hx. { intros Hx. apply NoDup_app in Hs as (_ & Hs & _). apply (Hs x Hx). by left. }
    unfold set_add at 2. rewrite (proj2 (mem_str_false x s) Hx). rewrite IH; [by rewrite <- app_assoc|].
    by rewrite <- app_assoc. }
  by apply H.
Qed.

Lemma merkleRootFrom_refs l : is_refs l -> merkleRootFrom l = Ok (merkleRoot l).
Proof.
  intros Hl. unfold merkleRootFrom. rewrite refs_of_refs by done. rewrite ms_new_strings. cbn [res_bind].
  rewrite set_of_list_distinct by apply Hl. unfold ms_root, ms_sortedValues. cbn [ms_values].
  by rewrite sort_strings_id by apply Hl.
Qed.

(** ** Summaries *)
Record summary_ok (s : selection_summary) : Prop := {
  so_selected : is_refs (ss_selected s);
  so_omitted : is_refs (ss_omitted s);
  so_tombstone : is_refs (ss_tombstone s);
  so_selected_root : ss_selected_root s = merkleRoot (ss_selected s);
  so_omitted_root : ss_omitted_root s = merkleRoot (ss_omitted s);
  so_tombstone_root : ss_tombstone_root s = merkleRoot (ss_tombstone s)
}.

Lemma two_or_refs args k1 k2 k3 k4 b l :
  or_refs (explicitRefs args k1 k2) (or_refs (explicitRefs args k3 k4) b) = Ok l ->
  (forall l, b = Ok l -> is_refs l) -> is_refs l.
Proof. intros [H|[H|H]%or_refs_inv]%or_refs_inv Hb; auto. Qed.

Lemma contextSelectionSummary_ok vault args s : contextSelectionSummary vault args = Ok s -> summary_ok s.
Proof.
  unfold contextSelectionSummary. intros H.
  apply res_bind_ok in H as (selected & Hs & H). apply res_bind_ok in H as (omitted & Ho & H).
  apply res_bind_ok in H as (tombstone & Ht & H).
  apply two_or_refs in Hs; [|intros l E; apply res_bind_ok in E as (? & _ & <-%Ok_inj); apply refs_of_is_refs].
  apply two_or_refs in Ho; [|intros l <-%Ok_inj; apply filter_is_refs, refs_of_is_refs].
  apply two_or_refs in Ht; [|intros l E; unfold tombstone_refs_of in E; inv_res; subst; apply refs_of_is_refs].
  rewrite !merkleRootFrom_refs in H by done. cbn [res_bind] in H. apply Ok_inj in H as <-. by split.
Qed.

Lemma proofSelectionSummary_ok vault args s :
  proofSelectionSummary vault args = Ok s ->
  contextSelectionSummary vault args = Ok (ps_base s) /\ is_refs (ps_candidate s) /\
  ps_candidate_root s = merkleRoot (ps_candidate s) /\
  ps_selected_root s = ss_selected_root (ps_base s) /\ ps_omitted_root s = ss_omitted_root (ps_base s) /\
  ps_tombstone_root s = ss_tombstone_root (ps_base s).
Proof.
  unfold proofSelectionSummary. intros H. apply res_bind_ok in H as (base & Hb & H). apply res_bind_ok in H as (candidate & Hc & H).
  pose proof (contextSelectionSummary_ok _ _ _ Hb) as [H1 H2 H3 R1 R2 R3].
  assert (is_refs candidate) as Hr by (apply or_refs_inv in Hc as [Hc|<-%Ok_inj]; [done|apply refs_of_is_refs]).
  rewrite !merkleRootFrom_refs in H by done. cbn [res_bind] in H. apply Ok_inj in H as <-.
  cbn [ps_base ps_candidate ps_candidate_root ps_selected_root ps_omitted_root ps_tombstone_root]. by rewrite R1, R2, R3.
Qed.

(** ** The summary of a verification is that of the creation *)

(** The passport of a vault names the active and the tombstoned addresses of the vault. *)
Lemma createPassport_fields uuid clock vault args passport :
  createPassport uuid clock vault args = Ok passport ->
  (exists fields, passport = VObj fields) /\ vget passport "activeAddresses" = VUndef /\ vget passport "tombstones" = VUndef /\
  vget passport "active_memory_addresses" = VArr (sort_values (vault_active vault)) /\
  exists tombstones, vault_tombstones vault = Ok tombstones /\
    vget passport "tombstone_addresses" = VArr (sort_values tombstones).
Proof.
  unfold createPassport. intros H. apply res_bind_ok in H as (t & Ht & H). apply res_bind_ok in H as (roots & Hr & H).
  apply res_bind_ok in H as (tombstones & Hv & H). apply Ok_inj in H as <-. split; [by eexists|].
  split_and!; [reflexivity..|]. exists tombstones. split; [done|reflexivity].
Qed.

Lemma elem_of_value_insert x y l : x ∈ value_insert y l <-> x = y \/ x ∈ l.
Proof.
  induction l as [|z l IH]; cbn [value_insert]; [by rewrite list_elem_of_singleton, elem_of_nil; naive_solver|].
  destruct (value_leb y z); rewrite !elem_of_cons; [done|]. rewrite IH. naive_solver.
Qed.

Lemma elem_of_sort_values x l : x ∈ sort_values l <-> x ∈ l.
Proof.
  induction l as [|y l IH]; [done|]. unfold sort_values in *. cbn [foldr]. rewrite elem_of_value_insert, IH, elem_of_cons. done.
Qed.

Lemma elem_of_value_set_sub x l : x ∈ value_set l -> x ∈ l.
Proof.
  unfold value_set.
  assert (forall out, x ∈ foldl (λ out x, if arr_includes out x then out else out ++ [x]) out l -> x ∈ out \/ x ∈ l) as H.
  { induction l as [|y l IH]; intros out; cbn [foldl]; [by left|]. intros [Hx|Hx]%IH; [|right; by right].
    destruct (arr_includes out y); [by left|]. apply elem_of_app in Hx as [Hx| ->%list_elem_of_singleton]; [by left|right; by left]. }
  intros [Hx%elem_of_nil|Hx]%H; done.
Qed.

Lemma ref_texts_app x l l' : x ∈ ref_texts (l ++ l') <-> x ∈ ref_texts l \/ x ∈ ref_texts l'.
Proof. rewrite !elem_of_ref_texts. setoid_rewrite elem_of_app. naive_solver. Qed.

(** Texts of some values of a list, holes read as undefined, are among the texts of the list. *)
Lemma ref_texts_sub x l l' :
  (forall v, v ∈ l -> exists u, u ∈ l' /\ v = elem u) -> x ∈ ref_texts l -> x ∈ ref_texts l'.
Proof.
  intros H. rewrite !elem_of_ref_texts. intros (Hx & v & Hv & Hn & Ht). split; [done|].
  destruct (H v Hv) as (u & Hu & ->). exists u. by destruct u.
Qed.

Lemma refs_absorb a b c : (forall x, x ∈ ref_texts c -> x ∈ ref_texts b) -> refs_of (a ++ b ++ c) = refs_of (a ++ b ++ []).
Proof.
  intros H. apply refs_of_ext. intros x. rewrite !ref_texts_app. specialize (H x).
  assert (x ∉ ref_texts []) by (rewrite elem_of_ref_texts; intros (_ & v & Hv%elem_of_nil & _); done). tauto.
Qed.

(** The created passport adds nothing to what the vault says. *)
Lemma created_active uuid clock vault args passport given :
  createPassport uuid clock vault args = Ok passport ->
  refs_of (given ++ vault_active vault ++ activeAddressesFrom passport) = refs_of (given ++ vault_active vault ++ []).
Proof.
  intros ((fs & ->) & Ha & _ & Hl & _)%createPassport_fields. apply refs_absorb. intros x. unfold activeAddressesFrom.
  cbn [truthy negb]. rewrite Ha, Hl. cbn [is_array items_of]. apply ref_texts_sub. intros v Hv%elem_of_value_set_sub.
  apply list_elem_of_fmap in Hv as (u & -> & Hu). exists u. split; [by apply elem_of_sort_values|done].
Qed.

Lemma created_tombstones uuid clock vault args passport given :
  createPassport uuid clock vault args = Ok passport ->
  exists tombstones addresses,
    vault_tombstones vault = Ok tombstones /\ tombstoneAddressesFrom passport = Ok [] /\
    iterate_given (vget passport "tombstone_addresses") = Ok addresses /\
    refs_of (given ++ tombstones ++ [] ++ addresses) = refs_of (given ++ tombstones ++ [] ++ []).
Proof.
  intros ((fs & ->) & _ & Ht & _ & tombstones & Hv & Hl)%createPassport_fields. exists tombstones, (map elem (sort_values tombstones)).
  split; [done|]. split; [unfold tombstoneAddressesFrom; cbn [truthy negb]; by rewrite Ht|]. rewrite Hl. split; [done|].
  cbn [app]. apply refs_absorb. intros x. apply ref_texts_sub. intros v Hv'.
  apply list_elem_of_fmap in Hv' as (u & -> & Hu). exists u. split; [by apply elem_of_sort_values|done].
Qed.

Definition SELECTION_KEYS : list jstr :=
  ["selected_context_refs" : jstr; "selectedContextRefs" : jstr; "selected_refs" : jstr; "selectedRefs" : jstr;
   "omitted_context_refs" : jstr; "omittedContextRefs" : jstr; "omitted_refs" : jstr; "omittedRefs" : jstr;
   "tombstone_context_refs" : jstr; "tombstoneContextRefs" : jstr; "tombstone_refs" : jstr; "tombstoneRefs" : jstr;
   "active_state" : jstr; "activeState" : jstr; "tombstones" : jstr; "candidate_refs" : jstr; "candidateRefs" : jstr].

(** A summary depends on the pack, the passport and the named properties only. *)
Lemma summary_ext vault args args' :
  Forall (λ k, fget args k = fget args' k) SELECTION_KEYS -> pack_in args = pack_in args' ->
  active_refs vault args = active_refs vault args' -> tombstone_refs_of vault args = tombstone_refs_of vault args' ->
  contextSelectionSummary vault args = contextSelectionSummary vault args' /\
  proofSelectionSummary vault args = proofSelectionSummary vault args'.
Proof.
  intros Hk Hp Ha Ht. unfold SELECTION_KEYS in Hk. rewrite !Forall_cons in Hk.
  destruct Hk as (K1 & K2 & K3 & K4 & K5 & K6 & K7 & K8 & K9 & K10 & K11 & K12 & K13 & K14 & K15 & K16 & K17 & _).
  assert (contextSelectionSummary vault args = contextSelectionSummary vault args') as E.
  { unfold contextSelectionSummary, explicitRefs, given.
    by rewrite Hp, Ha, Ht, K1, K2, K3, K4, K5, K6, K7, K8, K9, K10, K11, K12. }
  split; [done|]. unfold proofSelectionSummary, explicitRefs, given. by rewrite E, K16, K17.
Qed.

(** What an artifact is verified with: the arguments of its creation, its pack and itself. *)
Definition artifact_args (args : obj) (key : jstr) (contextPack artifact : jsval) : obj :=
  fset (fset args "contextPack" contextPack) key artifact.

Definition artifact_key (key : jstr) : Prop := key = ("contextPassport" : jstr) \/ key = ("proofOfNonUse" : jstr).

Lemma artifact_args_other args key contextPack artifact k :
  artifact_key key -> (("contextPack" : jstr) =s= k) = false -> (("contextPassport" : jstr) =s= k) = false ->
  (("proofOfNonUse" : jstr) =s= k) = false -> fget (artifact_args args key contextPack artifact) k = fget args k.
Proof. unfold artifact_args. intros [-> | ->] H1 H2 H3; rewrite !fget_fset, H1, ?H2, ?H3; reflexivity. Qed.

Lemma artifact_args_pack args key contextPack artifact :
  artifact_key key -> truthy contextPack = true -> pack_in (artifact_args args key contextPack artifact) = contextPack.
Proof.
  intros [-> | ->] Ht; unfold pack_in, artifact_args; rewrite !fget_fset; simp_str; by apply coalesce_some; destruct contextPack.
Qed.

Lemma created_summary d vault args contextPack passport key artifact :
  artifact_key key -> truthy contextPack = true -> passport_for d vault args = Ok passport ->
  let args' := artifact_args args key contextPack artifact in
  let args'' := fset args' "contextPack" (pack_in args') in
  contextSelectionSummary vault (with_context args contextPack passport) = contextSelectionSummary vault args'' /\
  proofSelectionSummary vault (with_context args contextPack passport) = proofSelectionSummary vault args''.
Proof.
  intros Hkey Ht Hpass args' args''.
  assert (forall k, (("contextPack" : jstr) =s= k) = false -> (("contextPassport" : jstr) =s= k) = false ->
    (("proofOfNonUse" : jstr) =s= k) = false -> fget args'' k = fget args k) as Hother.
  { intros k H1 H2 H3. unfold args''. rewrite fget_fset, H1. by apply artifact_args_other. }
  assert (forall k, (("contextPack" : jstr) =s= k) = false -> (("passport" : jstr) =s= k) = false ->
    fget (with_context args contextPack passport) k = fget args k) as Hctx.
  { intros k H1 H2. unfold with_context. by rewrite !fget_fset, H1, H2. }
  assert (fget (with_context args contextPack passport) "passport" = passport) as Hcp.
  { unfold with_context. rewrite !fget_fset. by simp_str. }
  assert (fget args "passport" = passport \/
          is_nullish (fget args "passport") = true /\ passport = VUndef \/
          is_nullish (fget args "passport") = true /\
            createPassport (d_uuid d 0) (d_clock d) vault [("now" : jstr, fget args "now")] = Ok passport) as Hcases.
  { unfold passport_for, coalesce_res in Hpass. destruct (is_nullish (fget args "passport")); [|left; by apply Ok_inj in Hpass].
    right. destruct (vault_given vault); [by right|left]. by apply Ok_inj in Hpass as <-. }
  apply summary_ext.
  - unfold SELECTION_KEYS. repeat (apply Forall_cons; split; [rewrite Hother, Hctx by reflexivity; reflexivity|]). constructor.
  - unfold args'' at 1. unfold pack_in at 1 2. rewrite fget_fset. unfold args'. rewrite artifact_args_pack by done.
    unfold with_context. rewrite !fget_fset. simp_str. by rewrite !coalesce_some by (by destruct contextPack).
  - unfold active_refs, given. rewrite Hcp, !Hctx, !Hother by reflexivity.
    destruct Hcases as [->|[[Hn ->]|[Hn Hc]]]; [done|by destruct (fget args "passport")|].
    rewrite (created_active _ _ _ _ _ _ Hc). by destruct (fget args "passport").
  - unfold tombstone_refs_of. rewrite Hcp, !Hctx, !Hother by reflexivity.
    destruct Hcases as [->|[[Hn ->]|[Hn Hc]]]; [done|by destruct (fget args "passport")|].
    destruct (tombstoneAddressesFrom (fget args "tombstones")) as [g|]; [|done]. cbn [res_bind].
    destruct (created_tombstones _ _ _ _ _ g Hc) as (ts & addresses & -> & -> & -> & E). cbn [res_bind]. rewrite E.
    by destruct (fget args "passport").
Qed.

(** ** A created context passport is well formed *)
Definition passport_value (passportId issuedAt subjectRef commitment : jsval) (s : selection_summary)
    (capabilityIds policyIds proofRefs : list jstr) : jsval :=
  VObj [
    ("schema" : jstr, VStr CONTEXT_PASSPORT_SCHEMA); ("passport_id" : jstr, passportId); ("issued_at" : jstr, issuedAt);
    ("subject_ref" : jstr, subjectRef); ("query_commitment" : jstr, commitment);
    ("selected_context_root" : jstr, VStr (ss_selected_root s)); ("omitted_context_root" : jstr, VStr (ss_omitted_root s));
    ("tombstone_context_root" : jstr, VStr (ss_tombstone_root s)); ("selected_count" : jstr, vnat (length (ss_selected s)));
    ("omitted_count" : jstr, vnat (length (ss_omitted s))); ("tombstone_count" : jstr, vnat (length (ss_tombstone s)));
    ("capability_ids" : jstr, refs_value capabilityIds); ("policy_ids" : jstr, refs_value policyIds);
    ("proof_refs" : jstr, refs_value proofRefs)].

Lemma coalesce_not_nullish a b : is_nullish b = false -> is_nullish (a ?? b) = false.
Proof. unfold coalesce. by destruct (is_nullish a) eqn:E. Qed.


Lemma coalesce_res_not_nullish a b x :
  coalesce_res a b = Ok x -> (forall y, b = Ok y -> is_nullish y = false) -> is_nullish x = false.
Proof. unfold coalesce_res. destruct (is_nullish a) eqn:E; [by eauto|by intros <-%Ok_inj]. Qed.

Lemma subject_ref_given vault args contextPack passport x :
  subject_ref vault args contextPack passport = Ok x -> is_nullish x = false.
Proof.
  unfold subject_ref. intros H. eapply coalesce_res_not_nullish; [exact H|]. intros y Hy.
  eapply coalesce_res_not_nullish; [exact Hy|]. intros z Hz. unfold hashedRef in Hz.
  apply res_bind_ok in Hz as (t & _ & Hz). by apply res_bind_ok in Hz as (h & _ & <-%Ok_inj).
Qed.

Lemma sortedRefs_is_refs v l : sortedRefs v = Ok l -> is_refs l.
Proof. unfold sortedRefs. intros H. apply res_bind_ok in H as (items & _ & <-%Ok_inj). apply refs_of_is_refs. Qed.

Lemma policyIds_nonempty args passport contextPack l :
  policyIdsFrom args passport contextPack = Ok l -> l <> [] /\ Forall (λ x, x <> []) l.
Proof.
  unfold policyIdsFrom. intros H. apply res_bind_ok in H as (e & _ & H). apply res_bind_ok in H as (ps & _ & H).
  apply res_bind_ok in H as (rs & _ & <-%Ok_inj). cbn zeta.
  match goal with |- context [refs_of ?v] => pose proof (ir_nonempty _ (refs_of_is_refs v)); destruct (refs_of v) end; [|done].
  split; [done|]. by repeat constructor.
Qed.

Lemma receiptRefs_is_refs args contextPack l : receiptRefsFromArgs args contextPack = Ok l -> is_refs l.
Proof. unfold receiptRefsFromArgs. intros H. inv_res. subst. apply refs_of_is_refs. Qed.

Lemma contextPassport_inv d vault args contextPack cp :
  contextPassport_with d vault args contextPack = Ok cp ->
  exists passport s proofRefs pid issuedAt subjectRef capabilityIds policyIds,
    passport_for d vault args = Ok passport /\
    contextSelectionSummary vault (with_context args contextPack passport) = Ok s /\
    receiptRefsFromArgs args contextPack = Ok proofRefs /\ proofRefs <> [] /\
    capabilityIdsFrom args = Ok capabilityIds /\ policyIdsFrom args passport contextPack = Ok policyIds /\
    is_nullish pid = false /\ is_nullish subjectRef = false /\
    cp = passport_value pid (VStr issuedAt) subjectRef (VStr (queryCommitment args contextPack)) s capabilityIds policyIds proofRefs.
Proof.
  unfold contextPassport_with. intros H. apply res_bind_ok in H as (passport & Hp & H). apply res_bind_ok in H as (s & Hs & H).
  apply res_bind_ok in H as (proofRefs & Hr & H). destruct (length proofRefs =? 0)%nat eqn:El; [done|].
  apply res_bind_ok in H as (issuedAt & Hi & H). apply res_bind_ok in H as (subjectRef & Hj & H).
  apply res_bind_ok in H as (capabilityIds & Hc & H). apply res_bind_ok in H as (policyIds & Hl & H). apply Ok_inj in H as <-.
  eexists passport, s, proofRefs, _, issuedAt, subjectRef, capabilityIds, policyIds. split_and!; try done; [by intros ->| |].
  - repeat apply coalesce_not_nullish. reflexivity.
  - by eapply subject_ref_given.
Qed.

Lemma refs_array_valid artifact field l :
  vget artifact field = refs_value l -> l <> [] -> Forall (λ x, x <> []) l -> validateRefArray artifact field = [].
Proof.
  intros H Hl Hn. unfold validateRefArray. rewrite H. unfold refs_value. destruct l as [|x l]; [done|]. cbn [map].
  apply flat_map_nil. intros r Hr. change (VStr x :: map VStr l) with (map VStr (x :: l)) in Hr.
  apply list_elem_of_fmap in Hr as (y & -> & Hy). eapply Forall_forall in Hn; [|exact Hy]. cbn. by destruct y.
Qed.

Lemma passport_shape pid issuedAt subjectRef commitment s capabilityIds policyIds proofRefs :
  summary_ok s -> is_nullish pid = false -> is_nullish subjectRef = false -> re_full ROOT_RE commitment = true ->
  Forall (λ l, l <> [] /\ Forall (λ x, x <> []) l) [capabilityIds; policyIds; proofRefs] ->
  passport_shape_errors
    (passport_value pid (VStr issuedAt) subjectRef (VStr commitment) s capabilityIds policyIds proofRefs) = [].
Proof.
  intros [_ _ _ R1 R2 R3] Hp Hs Hq Hl. rewrite !Forall_cons in Hl. destruct Hl as ([L1 N1] & [L2 N2] & [L3 N3] & _).
  set (cp := passport_value _ _ _ _ _ _ _ _). unfold passport_shape_errors. rewrite !app_nil. split_and!.
  - apply flat_map_nil. intros k Hk.
    assert (is_nullish (vget cp k) = false) as ->; [|done]. unfold cp, vget, passport_value. cbn [own_fields].
    unfold CONTEXT_PASSPORT_FIELDS in Hk. rewrite !elem_of_cons, elem_of_nil in Hk.
    repeat (destruct Hk as [->|Hk]; [simp_get; done|]). done.
  - apply flat_map_nil. intros k Hk. rewrite !elem_of_cons, elem_of_nil in Hk. unfold validateRootField.
    assert (re_full ROOT_RE (to_str (vget cp k ?? VStr [])) = true) as ->; [|done].
    unfold cp, vget, passport_value. cbn [own_fields].
    repeat (destruct Hk as [->|Hk]; [simp_get; cbn [coalesce is_nullish to_str]; rewrite ?R1, ?R2, ?R3; auto using merkleRoot_root|]). done.
  - apply flat_map_nil. intros k Hk. rewrite !elem_of_cons, elem_of_nil in Hk. unfold validateCountField.
    assert (is_nonneg_integer (vget cp k) = true) as ->; [|done]. unfold cp, vget, passport_value. cbn [own_fields].
    repeat (destruct Hk as [->|Hk]; [simp_get; apply vnat_nonneg|]). done.
  - cbn [flat_map]. rewrite !app_nil. split_and!; [eapply refs_array_valid; [reflexivity|done|done]..|done].
Qed.

Lemma compare_same artifact root count rootField countField :
  vget artifact rootField = VStr root -> vget artifact countField = vnat count ->
  compareRootAndCount artifact root count rootField countField = [].
Proof.
  intros H1 H2. unfold compareRootAndCount. rewrite H1, H2. cbn [seq]. rewrite str_eqb_refl.
  assert ((vnat count === vnat count) = true) as ->; [|done]. unfold vnat. cbn [seq].
  apply num_seq_spec. split; [done|by left].
Qed.

(** ** Created artifacts verify *)
Lemma contextPack_refs args contextPack proofRefs :
  receiptRefsFromArgs args contextPack = Ok proofRefs ->
  exists ofPack, receiptRefsFromContextPack contextPack = Ok ofPack /\ forall x, x ∈ ofPack -> x ∈ proofRefs.
Proof.
  unfold receiptRefsFromArgs. intros H. apply res_bind_ok in H as (ps & _ & H). apply res_bind_ok in H as (rs & _ & H).
  apply res_bind_ok in H as (ofPack & Hp & <-%Ok_inj). exists ofPack. split; [done|]. intros x Hx.
  apply elem_of_refs. rewrite !ref_texts_app. right. right. apply ref_texts_strings. split; [done|].
  unfold receiptRefsFromContextPack in Hp. inv_res. subst. apply elem_of_refs, elem_of_ref_texts in Hx. apply Hx.
Qed.

Lemma required_refs_present refs expected field :
  (forall x, x ∈ expected -> x ∈ refs) -> verifyRequiredReceiptRefs (refs_value refs ?? VArr []) expected field = Ok [].
Proof.
  intros H. unfold verifyRequiredReceiptRefs. destruct expected as [|e expected]; [done|].
  cbn [coalesce is_nullish refs_value iterate res_bind]. f_equal. apply flat_map_nil. intros x Hx.
  assert (arr_includes (map elem (map VStr refs)) (VStr x) = true) as ->; [|done].
  rewrite elem_strings. unfold arr_includes. apply existsb_exists. exists (VStr x). split; [|by cbn; apply str_eqb_refl].
  by apply list_elem_of_In, list_elem_of_fmap_2, H.
Qed.

Lemma query_commitment_root args contextPack :
  is_undef (given args "query_commitment" "queryCommitment") = true -> re_full ROOT_RE (queryCommitment args contextPack) = true.
Proof. unfold queryCommitment. intros ->. cbn [negb]. apply root_of_sha. Qed.

Lemma no_passport_errors d vault args contextPack cp :
  contextPassport_with d vault args contextPack = Ok cp -> truthy contextPack = true ->
  re_full ROOT_RE (queryCommitment args contextPack) = true -> capabilityIdsFrom args <> Ok [] ->
  verifyContextPackWhenTrusted vault (artifact_args args "contextPassport" contextPack cp) contextPack = [] ->
  passport_errors vault (artifact_args args "contextPassport" contextPack cp) cp = Ok [].
Proof.
  intros H Ht Hq Hcap Htrust.
  apply contextPassport_inv in H as (passport & s & proofRefs & pid & issuedAt & subjectRef & capabilityIds & policyIds &
    Hpass & Hs & Hr & Hne & Hc & Hl & Hpid & Hsub & Ecp).
  pose proof (contextSelectionSummary_ok _ _ _ Hs) as Hok.
  assert (artifact_key "contextPassport") as Hkey by by left.
  destruct (created_summary d vault args contextPack passport "contextPassport" cp Hkey Ht Hpass) as [Hsum _].
  rewrite Hs in Hsum. unfold passport_errors. cbn zeta.
  rewrite artifact_args_pack in Hsum |- * by done. rewrite Htrust.
  assert (has_evidence vault (artifact_args args "contextPassport" contextPack cp) = true) as ->.
  { unfold has_evidence. by rewrite artifact_args_pack, Ht by done. }
  rewrite <- Hsum. cbn [res_bind].
  destruct (contextPack_refs _ _ _ Hr) as (ofPack & -> & Hsub'). cbn [res_bind].
  assert (vget cp "proof_refs" = refs_value proofRefs) as -> by by subst cp.
  rewrite required_refs_present by done. cbn [res_bind]. f_equal. rewrite !app_nil. split_and!; try done.
  - subst cp. apply passport_shape; try done. rewrite !Forall_cons. split_and!; try done.
    + intros ->. by apply Hcap.
    + apply (ir_nonempty _ (sortedRefs_is_refs _ _ Hc)).
    + eapply policyIds_nonempty, Hl.
    + eapply policyIds_nonempty, Hl.
    + apply (ir_nonempty _ (receiptRefs_is_refs _ _ _ Hr)).
  - unfold passport_root_errors. rewrite !app_nil. split_and!; apply compare_same; by subst cp.
Qed.

Lemma contextPassport_schema d vault args contextPack cp :
  contextPassport_with d vault args contextPack = Ok cp ->
  truthy cp = true /\ is_nullish cp = false /\ vget cp "schema" = VStr CONTEXT_PASSPORT_SCHEMA.
Proof.
  intros (? & ? & ? & ? & ? & ? & ? & ? & _ & _ & _ & _ & _ & _ & _ & _ & ->)%contextPassport_inv. done.
Qed.

Lemma no_errors_valid d vault args contextPack cp :
  contextPassport_with d vault args contextPack = Ok cp -> (fget args "schema" === VStr CONTEXT_PASSPORT_SCHEMA) = false ->
  let args' := artifact_args args "contextPassport" contextPack cp in
  passport_errors vault args' cp = Ok [] -> verifyContextPassport vault args' = validBoundaryResult cp.
Proof.
  intros H Hschema args' He. apply contextPassport_schema in H as (H1 & H2 & H3).
  assert (passport_of_args args' = cp) as Hof.
  { unfold passport_of_args, args'. rewrite artifact_args_other, Hschema by (try reflexivity; by left).
    unfold artifact_args. rewrite fget_fset. simp_str. by apply coalesce_some. }
  unfold verifyContextPassport. rewrite Hof, He, H1, H3. cbn zeta. cbn [res_bind negb orb seq]. by rewrite str_eqb_refl.
Qed.

(** A context passport verifies against what it was created from: the artifact that
    [createContextPassport] returns for a pack is accepted, without an error, by
    [verifyContextPassport] with the same arguments, the pack and the vault after the
    creation, when its commitment to the query is a root and a capability is named, and
    unless the pack itself fails under the trusted key. *)
Theorem context_passport_verifies d d' vault args contextPack vault' cp :
  contextPackFromArgs d vault args = (Ok contextPack, vault') -> truthy contextPack = true ->
  createContextPassport d d' vault args = (Ok cp, vault') ->
  let args' := artifact_args args "contextPassport" contextPack cp in
  (fget args "schema" === VStr CONTEXT_PASSPORT_SCHEMA) = false ->
  re_full ROOT_RE (queryCommitment args contextPack) = true -> capabilityIdsFrom args <> Ok [] ->
  verifyContextPackWhenTrusted vault' args' contextPack = [] ->
  verifyContextPassport vault' args' = validBoundaryResult cp.
Proof.
  intros Hp Ht H args' Hschema Hq Hcap Htrust. unfold createContextPassport in H. rewrite Hp in H. injection H as H.
  by eapply no_errors_valid, no_passport_errors.
Qed.

Lemma accepted_when_trusted vault args contextPack r :
  vget contextPack "schema" = VStr CONTEXT_PACK_SCHEMA -> (fget args "schema" === VStr CONTEXT_PACK_SCHEMA) = false ->
  pack_errors vault (fset args "contextPack" contextPack) contextPack = Ok [] -> accepted_verdict contextPack = Ok r ->
  verifyContextPackWhenTrusted vault args contextPack = [].
Proof.
  intros Hs Hargs He Ha. unfold verifyContextPackWhenTrusted. destruct (_ || _); [done|].
  rewrite (no_errors_accepted vault _ contextPack), Ha; [| |done|done].
  - unfold accepted_verdict in Ha. apply res_bind_ok in Ha as (? & _ & Ha). apply res_bind_ok in Ha as (? & _ & Ha).
    by apply res_bind_ok in Ha as (? & _ & <-%Ok_inj).
  - unfold pack_of_args. rewrite fget_fset. simp_str. rewrite Hargs, fget_fset. simp_str. apply coalesce_some.
    by destruct contextPack.
Qed.

Lemma plain_ext pk v args args' :
  plain_args pk v args ->
  (forall k : jstr, (("contextPack" : jstr) =s= k) = false -> (("contextPassport" : jstr) =s= k) = false -> fget args' k = fget args k) ->
  plain_args pk v args'.
Proof.
  intros [Ht Ha Hb] H. split.
  - rewrite <- Ht. unfold trustedKeyOptions, trusted_key, trusted_keys. by rewrite !(H _) by reflexivity.
  - rewrite <- Ha. unfold known_active. by rewrite !(H _) by reflexivity.
  - rewrite <- Hb. unfold known_tombstones. by rewrite !(H _) by reflexivity.
Qed.

Lemma not_explicit args k k' b :
  fget args k = VUndef -> fget args k' = VUndef -> or_refs (explicitRefs args k k') b = b.
Proof. intros H1 H2. unfold explicitRefs, given. by rewrite H1, H2. Qed.

(** Without explicit references the selected ones are those of the pack. *)
Lemma selected_addresses vault args s :
  contextSelectionSummary vault args = Ok s ->
  Forall (λ k : jstr, fget args k = VUndef)
    ["selected_context_refs" : jstr; "selectedContextRefs" : jstr; "selected_refs" : jstr; "selectedRefs" : jstr] ->
  exists addresses, memoryAddressesFromPack (pack_in args) = Ok addresses /\ ss_selected s = refs_of addresses /\
    ss_selected_root s = merkleRoot (refs_of addresses).
Proof.
  intros H Hk. rewrite !Forall_cons in Hk. destruct Hk as (K1 & K2 & K3 & K4 & _).
  pose proof (contextSelectionSummary_ok _ _ _ H) as Hok. unfold contextSelectionSummary in H.
  apply res_bind_ok in H as (selected & Hsel & H). rewrite (not_explicit _ _ _ _ K1 K2), (not_explicit _ _ _ _ K3 K4) in Hsel.
  apply res_bind_ok in Hsel as (addresses & Ha & <-%Ok_inj). exists addresses. split; [done|].
  repeat (apply res_bind_ok in H as (? & _ & H)). apply Ok_inj in H as <-. by destruct Hok as [_ _ _ R _ _].
Qed.

(** From the vault to the artifact: of a vault created with generated keys, whatever
    operations came before, a context passport created for a compiled pack verifies with the
    pack, the vault and the public key of the vault, and its root is that of the addresses
    of the pack; creating it leaves the vault as it is.  Only a pack whose public projection
    has no canonical form is excluded. *)
Theorem compiled_pack_passport d0 args0 v0 v d args pack v' r d1 d2 cp vault' :
  createVault d0 args0 = Ok v0 -> is_nullish (fget args0 "signingKeyPair") = true ->
  is_nullish (fget args0 "signer") = true -> key_generation d0 -> reachable v0 v ->
  compileContextPack d args v = (Ok pack, v') -> (Z.of_nat (length (v_receipts v')) < 2 ^ 53)%Z ->
  accepted_verdict pack = Ok r ->
  let given := pack_args pack (publicKey v0) in
  createContextPassport d1 d2 (Live v') given = (Ok cp, vault') ->
  vault' = Live v' /\
  verifyContextPassport (Live v') (artifact_args given "contextPassport" pack cp) = validBoundaryResult cp /\
  exists addresses, memoryAddressesFromPack pack = Ok addresses /\
    vget cp "selected_context_root" = VStr (merkleRoot (refs_of addresses)).
Proof.
  intros Hc Hp Hs Hg Hr H Hlen Ha given Hcp.
  destruct (compiled_no_errors _ _ _ _ _ _ _ _ Hc Hp Hs Hg Hr H Hlen) as (Hschema & Hpk & He).
  assert (truthy pack = true) as Ht by by destruct pack.
  assert (pack_in given = pack) as Hin by (apply (coalesce_some pack); by destruct pack).
  unfold createContextPassport, contextPackFromArgs in Hcp. rewrite Hin, Ht in Hcp. injection Hcp as Hcp <-.
  split; [done|]. split.
  - eapply no_errors_valid; [exact Hcp|reflexivity|]. eapply no_passport_errors; [exact Hcp|done| | |].
    + apply query_commitment_root. reflexivity.
    + intros E. by vm_compute in E.
    + eapply accepted_when_trusted; [done| | |exact Ha].
      * unfold artifact_args. by rewrite !fget_fset.
      * apply He. eapply plain_ext; [by apply (pack_args_plain v' pack)|]. intros k H1 H2.
        unfold artifact_args. by rewrite !fget_fset, H1, H2.
  - apply contextPassport_inv in Hcp as (passport & s & ? & ? & ? & ? & ? & ? & _ & Hsum & _ & _ & _ & _ & _ & _ & ->).
    apply selected_addresses in Hsum as (addresses & Hm & Hsel & Hroot); [|repeat (apply Forall_cons; split; [reflexivity|]); constructor].
    exists addresses. split; [|by rewrite <- Hroot].
    rewrite <- Hm. f_equal. symmetry. apply (coalesce_some pack). by destruct pack.
Qed.

(** ** Created proofs of non-use verify *)

(** The roots of a summary are Merkle roots. *)
Definition proof_roots_ok (s : proof_summary) : Prop :=
  ps_candidate_root s = merkleRoot (ps_candidate s) /\ ps_selected_root s = merkleRoot (ss_selected (ps_base s)) /\
  ps_omitted_root s = merkleRoot (ss_omitted (ps_base s)) /\ ps_tombstone_root s = merkleRoot (ss_tombstone (ps_base s)).

Lemma proof_summary_roots vault args s : proofSelectionSummary vault args = Ok s -> proof_roots_ok s.
Proof.
  intros (Hb & _ & R0 & R1 & R2 & R3)%proofSelectionSummary_ok. apply contextSelectionSummary_ok in Hb as [_ _ _ Q1 Q2 Q3].
  unfold proof_roots_ok. split_and!; congruence.
Qed.

Definition proof_value (proofId issuedAt subjectRef : jsval) (commitment : jstr) (s : proof_summary) (policyId : jstr)
    (policyDecision verifierRef receiptLogRoot : jsval) (receiptRefs : list jstr) : jsval :=
  let base := ps_base s in
  VObj [
    ("schema" : jstr, VStr PROOF_OF_NON_USE_SCHEMA); ("proof_id" : jstr, proofId); ("issued_at" : jstr, issuedAt);
    ("subject_ref" : jstr, subjectRef); ("query_commitment" : jstr, VStr commitment);
    ("candidate_set_root" : jstr, VStr (ps_candidate_root s)); ("selected_set_root" : jstr, VStr (ps_selected_root s));
    ("omitted_set_root" : jstr, VStr (ps_omitted_root s)); ("tombstone_set_root" : jstr, VStr (ps_tombstone_root s));
    ("candidate_count" : jstr, vnat (length (ps_candidate s))); ("selected_count" : jstr, vnat (length (ss_selected base)));
    ("omitted_count" : jstr, vnat (length (ss_omitted base))); ("tombstone_count" : jstr, vnat (length (ss_tombstone base)));
    ("policy_id" : jstr, VStr policyId); ("policy_decision" : jstr, policyDecision);
    ("verifier_status" : jstr, VStr VERIFIED_STATUS); ("verifier_ref" : jstr, verifierRef);
    ("receipt_log_root" : jstr, receiptLogRoot); ("receipt_refs" : jstr, refs_value receiptRefs)].

Lemma proofOfNonUse_inv d vault args contextPack proof :
  proofOfNonUse_with d vault args contextPack = Ok proof ->
  exists passport roots s receiptRefs pid issuedAt subjectRef policyId verifierRef,
    let receiptLogRoot := given args "receipt_log_root" "receiptLogRoot" ?? vget contextPack "receipt_log_root" ?? roots in
    let policyDecision := given args "policy_decision" "policyDecision" ?? vstr "allow" in
    passport_for d vault args = Ok passport /\ policy_for vault args contextPack passport = Ok policyId /\
    proofSelectionSummary vault (with_context args contextPack passport) = Ok s /\
    receiptRefsFromArgs args contextPack = Ok receiptRefs /\ receiptRefs <> [] /\
    one_of_texts policyDecision PROOF_POLICY_DECISIONS = true /\
    is_nullish pid = false /\ is_nullish subjectRef = false /\
    (is_nullish (fget args "verifier_ref") = true -> is_nullish (fget args "verifierRef") = true ->
       non_empty_string verifierRef = true) /\
    proof = proof_value pid (VStr issuedAt) subjectRef (queryCommitment args contextPack) s (to_str policyId)
              policyDecision verifierRef receiptLogRoot receiptRefs.
Proof.
  unfold proofOfNonUse_with. cbn zeta. intros H. apply res_bind_ok in H as (passport & Hp & H).
  apply res_bind_ok in H as (roots & Hroots & H). apply res_bind_ok in H as (policyId & Hpol & H).
  apply res_bind_ok in H as (verifierRef & Hver & H).
  destruct (is_string _ && _) eqn:Ed in H; cbn [negb] in H; [|done].
  apply res_bind_ok in H as (s & Hs & H).
  apply res_bind_ok in H as (receiptRefs & Hr & H). destruct (length receiptRefs =? 0)%nat eqn:El; [done|].
  apply res_bind_ok in H as (issuedAt & Hi & H). apply res_bind_ok in H as (subjectRef & Hj & H). apply Ok_inj in H as <-.
  eexists passport, roots.2, s, receiptRefs, _, issuedAt, subjectRef, policyId, verifierRef. cbn zeta.
  split_and!; try done; [by intros ->| | |].
  - repeat apply coalesce_not_nullish. reflexivity.
  - by eapply subject_ref_given.
  - intros N1 N2. unfold coalesce_res in Hver. rewrite N1, N2 in Hver. unfold hashedRef in Hver.
    apply res_bind_ok in Hver as (t & _ & Hver). by apply res_bind_ok in Hver as (h & _ & <-%Ok_inj).
Qed.

Lemma is_root_field v : is_root v -> re_full ROOT_RE (to_str (v ?? VStr [])) = true /\ is_nullish v = false.
Proof. by intros (x & -> & H). Qed.

Lemma proof_shape pid issuedAt subjectRef commitment s policyId policyDecision verifierRef logRoot receiptRefs :
  proof_roots_ok s -> is_nullish pid = false -> is_nullish subjectRef = false -> re_full ROOT_RE commitment = true ->
  policyId <> [] -> one_of_texts policyDecision PROOF_POLICY_DECISIONS = true -> non_empty_string verifierRef = true ->
  is_root logRoot -> receiptRefs <> [] -> Forall (λ x, x <> []) receiptRefs ->
  proof_shape_errors (proof_value pid (VStr issuedAt) subjectRef commitment s policyId policyDecision verifierRef logRoot receiptRefs) = [].
Proof.
  intros (R0 & R1 & R2 & R3) Hp Hs Hq Hpol Hdec Hver [Hlog Hlog']%is_root_field Hr Hn.
  set (proof := proof_value _ _ _ _ _ _ _ _ _ _). unfold proof_shape_errors. cbn zeta. rewrite !app_nil. split_and!.
  - apply flat_map_nil. intros k Hk.
    assert (is_nullish (vget proof k) = false) as ->; [|done]. unfold proof, vget, proof_value. cbn [own_fields].
    unfold PROOF_OF_NON_USE_FIELDS in Hk. rewrite !elem_of_cons, elem_of_nil in Hk.
    repeat (destruct Hk as [->|Hk]; [simp_get; first [done|by destruct policyDecision|by destruct verifierRef]|]). done.
  - apply flat_map_nil. intros k Hk. rewrite !elem_of_cons, elem_of_nil in Hk. unfold validateRootField.
    assert (re_full ROOT_RE (to_str (vget proof k ?? VStr [])) = true) as ->; [|done].
    unfold proof, vget, proof_value. cbn [own_fields].
    repeat (destruct Hk as [->|Hk]; [simp_get; cbn [coalesce is_nullish to_str]; rewrite ?R0, ?R1, ?R2, ?R3; auto using merkleRoot_root|]). done.
  - apply flat_map_nil. intros k Hk. rewrite !elem_of_cons, elem_of_nil in Hk. unfold validateCountField.
    assert (is_nonneg_integer (vget proof k) = true) as ->; [|done]. unfold proof, vget, proof_value. cbn [own_fields].
    repeat (destruct Hk as [->|Hk]; [simp_get; apply vnat_nonneg|]). done.
  - assert (non_empty_string (vget proof "policy_id") = true) as ->; [|done].
    apply non_empty_string_spec. by exists policyId.
  - assert (vget proof "policy_decision" = policyDecision) as -> by reflexivity. by rewrite Hdec.
  - done.
  - assert (vget proof "verifier_ref" = verifierRef) as -> by reflexivity. by rewrite Hver.
  - unfold validateRootField. assert (vget proof "receipt_log_root" = logRoot) as -> by reflexivity. by rewrite Hlog.
  - by eapply refs_array_valid.
Qed.

(** A proof of non-use verifies against what it was created from: the artifact that
    [createProofOfNonUse] returns for a pack whose log root is a root is accepted, without an
    error, by [verifyProofOfNonUse] with the same arguments, the pack and the vault after the
    creation, when the commitment to the query is a root, the policy has a name, log root and
    verifier are not given explicitly, and unless the pack itself fails under the trusted
    key. *)
Theorem proof_of_non_use_verifies d d' vault args contextPack vault' proof :
  contextPackFromArgs d vault args = (Ok contextPack, vault') -> truthy contextPack = true ->
  createProofOfNonUse d d' vault args = (Ok proof, vault') ->
  let args' := artifact_args args "proofOfNonUse" contextPack proof in
  (fget args "schema" === VStr PROOF_OF_NON_USE_SCHEMA) = false ->
  re_full ROOT_RE (queryCommitment args contextPack) = true -> is_root (vget contextPack "receipt_log_root") ->
  Forall (λ k : jstr, is_nullish (fget args k) = true)
    ["receipt_log_root" : jstr; "receiptLogRoot" : jstr; "verifier_ref" : jstr; "verifierRef" : jstr] ->
  vget proof "policy_id" <> VStr [] ->
  verifyContextPackWhenTrusted vault' args' contextPack = [] ->
  verifyProofOfNonUse vault' args' = validBoundaryResult (with_status proof VERIFIED_STATUS).
Proof.
  intros Hp Ht H args' Hschema Hq Hlog Hk Hpol Htrust. unfold createProofOfNonUse in H. rewrite Hp in H. injection H as H.
  rewrite !Forall_cons in Hk. destruct Hk as (K1 & K2 & K3 & K4 & _).
  apply proofOfNonUse_inv in H as (passport & roots & s & receiptRefs & pid & issuedAt & subjectRef & policyId & verifierRef & H).
  cbn zeta in H. destruct H as (Hpass & _ & Hs & Hr & Hne & Hdec & Hpid & Hsub & Hver & Eproof).
  assert ((given args "receipt_log_root" "receiptLogRoot" ?? vget contextPack "receipt_log_root" ?? roots)
          = vget contextPack "receipt_log_root") as El.
  { unfold given, coalesce. rewrite K1, K2. by rewrite (proj2 (is_root_field _ Hlog)). }
  rewrite El in Eproof.
  assert (proof_of_args args' = proof) as Hof.
  { unfold proof_of_args, args'. rewrite artifact_args_other, Hschema by (try reflexivity; by right).
    unfold artifact_args. rewrite fget_fset. simp_str. apply coalesce_some. by rewrite Eproof. }
  assert (artifact_key "proofOfNonUse") as Hkey by by right.
  destruct (created_summary d' vault' args contextPack passport "proofOfNonUse" proof Hkey Ht Hpass) as [_ Hsum].
  rewrite Hs in Hsum. fold args' in Hsum. assert (pack_in args' = contextPack) as Hpack by by apply artifact_args_pack.
  destruct (contextPack_refs _ _ _ Hr) as (ofPack & Hof' & Hincl).
  assert (proof_errors vault' args' proof = Ok []) as He.
  { unfold proof_errors. cbn zeta. rewrite Hpack in Hsum |- *. rewrite Htrust.
    assert (has_evidence vault' args' = true) as -> by (unfold has_evidence; by rewrite Hpack, Ht).
    cbn [orb]. rewrite <- Hsum. cbn [res_bind]. rewrite Hof'. cbn [res_bind].
    assert (vget proof "receipt_refs" = refs_value receiptRefs) as -> by by rewrite Eproof.
    rewrite required_refs_present by done. cbn [res_bind]. f_equal. rewrite !app_nil. split_and!; try done.
    - rewrite Eproof. apply proof_shape; try done; [by eapply proof_summary_roots| |by apply Hver|].
      + intros Ep. apply Hpol. rewrite Eproof, Ep. reflexivity.
      + apply (ir_nonempty _ (receiptRefs_is_refs _ _ _ Hr)).
    - unfold proof_root_errors. rewrite Eproof, !app_nil. split_and!; by apply compare_same.
    - assert (vget proof "receipt_log_root" = vget contextPack "receipt_log_root") as -> by by rewrite Eproof.
      destruct Hlog as (l & -> & _). cbn [seq]. rewrite str_eqb_refl. by rewrite andb_false_r. }
  unfold verifyProofOfNonUse. rewrite Hof, He. cbn zeta.
  assert (truthy proof = true /\ vget proof "schema" = VStr PROOF_OF_NON_USE_SCHEMA) as [-> ->] by by rewrite Eproof.
  cbn [res_bind negb orb seq]. by rewrite str_eqb_refl.
Qed.

(** ** What an accepted artifact shows *)
Lemma invalid_result artifact errors status r : invalidBoundaryResult artifact errors status = Ok r -> bv_valid r = false.
Proof. unfold invalidBoundaryResult. cbn zeta. intros H. by apply res_bind_ok in H as (t & _ & <-%Ok_inj). Qed.

Lemma valid_passport_errors vault args r :
  verifyContextPassport vault args = Ok r -> bv_valid r = true -> passport_errors vault args (passport_of_args args) = Ok [].
Proof.
  unfold verifyContextPassport. cbn zeta. intros H Hv. destruct (_ || _) in H; [by rewrite (invalid_result _ _ _ _ H) in Hv|].
  apply res_bind_ok in H as (errors & He & H). destruct errors; [done|by rewrite (invalid_result _ _ _ _ H) in Hv].
Qed.


Lemma compare_nil artifact root count rootField countField :
  compareRootAndCount artifact root count rootField countField = [] ->
  vget artifact rootField = VStr root /\ (vget artifact countField === vnat count) = true.
Proof.
  unfold compareRootAndCount. intros [Hr Hc]%app_nil. split.
  - apply seq_str. by destruct (vget artifact rootField === VStr root).
  - by destruct (vget artifact countField === vnat count).
Qed.

(** What the verification of a context passport compares it with. *)
Definition evidence (vault : vault_arg) (args : obj) (s : selection_summary) : Prop :=
  contextSelectionSummary vault (fset args "contextPack" (pack_in args)) = Ok s.

Lemma accepted_passport vault args r :
  verifyContextPassport vault args = Ok r -> bv_valid r = true -> has_evidence vault args = true ->
  exists s, evidence vault args s /\ passport_root_errors (passport_of_args args) s = [].
Proof.
  intros H Hv He. apply valid_passport_errors in H; [|done]. unfold passport_errors in H. rewrite He in H. cbn zeta in H.
  apply res_bind_ok in H as (mm & Hmm & H). apply res_bind_ok in Hmm as (s & Hs & <-%Ok_inj). exists s. split; [done|].
  apply res_bind_ok in H as (expected & _ & H). apply res_bind_ok in H as (missing & _ & H). apply Ok_inj in H.
  by apply app_nil in H as [_ [H _]%app_nil].
Qed.

(** C29 A context passport binds its context: when one artifact is accepted against two
    contexts, the two select, omit and have tombstoned the same references, or the texts
    that were hashed for the two roots contain a SHA-256 collision. *)
Theorem context_passport_binds vault1 args1 r1 vault2 args2 r2 :
  verifyContextPassport vault1 args1 = Ok r1 -> bv_valid r1 = true -> has_evidence vault1 args1 = true ->
  verifyContextPassport vault2 args2 = Ok r2 -> bv_valid r2 = true -> has_evidence vault2 args2 = true ->
  passport_of_args args1 = passport_of_args args2 ->
  exists s1 s2, evidence vault1 args1 s1 /\ evidence vault2 args2 s2 /\
    Forall (λ f : selection_summary -> list jstr, f s1 = f s2 \/ collision (merkle_inputs (f s1)) (merkle_inputs (f s2)))
      [ss_selected; ss_omitted; ss_tombstone].
Proof.
  intros H1 V1 E1 H2 V2 E2 Heq. destruct (accepted_passport _ _ _ H1 V1 E1) as (s1 & S1 & R1).
  destruct (accepted_passport _ _ _ H2 V2 E2) as (s2 & S2 & R2). exists s1, s2. split; [done|]. split; [done|].
  rewrite Heq in R1. unfold passport_root_errors in R1, R2. apply app_nil in R1 as [[A1 _]%compare_nil R1].
  apply app_nil in R1 as [[A2 _]%compare_nil [A3 _]%compare_nil].
  apply app_nil in R2 as [[B1 _]%compare_nil R2]. apply app_nil in R2 as [[B2 _]%compare_nil [B3 _]%compare_nil].
  destruct (contextSelectionSummary_ok _ _ _ S1) as [_ _ _ P1 P2 P3], (contextSelectionSummary_ok _ _ _ S2) as [_ _ _ Q1 Q2 Q3].
  repeat (apply Forall_cons; split; [apply merkleRoot_binding; congruence|]). constructor.
Qed.





End safety.

(** ** Witnesses *)
Lemma given_pack {C : Crypto} {Hst : Host} {Loc : Locale} {P : Platform} d vault pack pk :
  truthy pack = true -> contextPackFromArgs d vault (pack_args pack pk) = (Ok pack, vault).
Proof.
  intros Ht. unfold contextPackFromArgs. assert (pack_in (pack_args pack pk) = pack) as -> by (apply (coalesce_some pack); by destruct pack).
  by rewrite Ht.
Qed.

(** The pack of the sample vault and the artifacts created for it. *)
Lemma sample_boundary_ok :
  match createVault (sample_draws 0) [] with
  | Ok v0 =>
      match sample_pack v0 with
      | (Ok pack, v') =>
          let args := pack_args pack (publicKey v0) in
          match (createContextPassport (sample_draws 4) (sample_draws 5) (Live v') args).1,
                (createProofOfNonUse (sample_draws 4) (sample_draws 5) (Live v') args).1, accepted_verdict pack with
          | Ok cp, Ok proof, Ok _ =>
              truthy pack && (length (v_receipts v') =? 3) && re_full ROOT_RE (to_str (vget pack "receipt_log_root"))
              && is_string (vget pack "receipt_log_root") && (vget proof "policy_id" === vstr "local-default")
              && bool_decide (verifyContextPackWhenTrusted (Live v') (artifact_args args "contextPassport" pack cp) pack = [])
              && bool_decide (verifyContextPackWhenTrusted (Live v') (artifact_args args "proofOfNonUse" pack proof) pack = [])
          | _, _, _ => false
          end
      | _ => false
      end
  | _ => false
  end = true.
Proof. vm_compute. reflexivity. Qed.

(** The context of the sample: a memory in a pack and another one that is active. *)
Definition sample_evidence (active : list jsval) : obj :=
  [("active_state" : jstr, VArr active); ("receipt_refs" : jstr, VArr [vstr "receipt"]);
   ("contextPack" : jstr, VObj [("schema" : jstr, VStr CONTEXT_PACK_SCHEMA); ("receipt_log_root" : jstr, VStr ZERO_ROOT);
      ("memories" : jstr, VArr [VObj [("memory_addr" : jstr, vstr "used")]])])].

Definition sample_active : list jsval := [vstr "used"; vstr "unused"].

Definition sample_artifact (x : res jsval * vault_arg) : jsval := match x.1 with Ok a => a | Throw _ => VUndef end.

Definition sample_passport : jsval :=
  sample_artifact (createContextPassport (sample_draws 0) (sample_draws 1) (Data VUndef) (sample_evidence sample_active)).


Definition passport_check (active : list jsval) : obj := ("contextPassport" : jstr, sample_passport) :: sample_evidence active.


Definition is_valid (r : res boundary_verdict) : bool := match r with Ok r => bv_valid r | Throw _ => false end.

Lemma context_passport_verifies_witness :
  exists v0 pack v' cp, sample_pack v0 = (Ok pack, v') /\
    verifyContextPassport (Live v') (artifact_args (pack_args pack (publicKey v0)) "contextPassport" pack cp) =
    validBoundaryResult cp.
Proof.
  pose proof sample_boundary_ok as Hok.
  destruct (createVault (sample_draws 0) []) as [v0|] eqn:E0; [|discriminate Hok].
  destruct (sample_pack v0) as [[pack|] v'] eqn:E1; [|discriminate Hok]. cbv zeta in Hok.
  destruct (createContextPassport (sample_draws 4) (sample_draws 5) (Live v') (pack_args pack (publicKey v0))) as [[cp|] v''] eqn:E2;
    cbn [fst] in Hok; [|discriminate Hok].
  destruct (createProofOfNonUse _ _ _ _).1 as [proof|]; [|discriminate Hok].
  destruct (accepted_verdict pack) as [r|]; [|discriminate Hok].
  apply andb_true_iff in Hok as [[[[[[Ht _]%andb_true_iff _]%andb_true_iff _]%andb_true_iff _]%andb_true_iff Hc]%andb_true_iff _].
  apply bool_decide_eq_true in Hc. exists v0, pack, v', cp. split; [exact E1|].
  pose proof (given_pack (sample_draws 4) (Live v') pack (publicKey v0) Ht) as Hg.
  assert (v'' = Live v') as -> by (unfold createContextPassport in E2; rewrite Hg in E2; injection E2 as _ <-; reflexivity).
  apply (context_passport_verifies (L := SampleLaws) (sample_draws 4) (sample_draws 5) (Live v') (pack_args pack (publicKey v0)) pack);
    [exact Hg|exact Ht|exact E2|reflexivity| |intros E; vm_compute in E; discriminate E|exact Hc].
  apply query_commitment_root. reflexivity.
Defined.

Lemma compiled_pack_passport_witness :
  exists v0 pack v' cp, createVault (sample_draws 0) [] = Ok v0 /\ sample_pack v0 = (Ok pack, v') /\
    verifyContextPassport (Live v') (artifact_args (pack_args pack (publicKey v0)) "contextPassport" pack cp) =
    validBoundaryResult cp.
Proof.
  pose proof sample_boundary_ok as Hok.
  destruct (createVault (sample_draws 0) []) as [v0|] eqn:E0; [|discriminate Hok].
  destruct (sample_pack v0) as [[pack|] v'] eqn:E1; [|discriminate Hok]. cbv zeta in Hok.
  destruct (createContextPassport (sample_draws 4) (sample_draws 5) (Live v') (pack_args pack (publicKey v0))) as [[cp|] v''] eqn:E2;
    cbn [fst] in Hok; [|discriminate Hok].
  destruct (createProofOfNonUse _ _ _ _).1 as [proof|]; [|discriminate Hok].
  destruct (accepted_verdict pack) as [r|] eqn:E3; [|discriminate Hok].
  apply andb_true_iff in Hok as [[[[[[_ Hl]%andb_true_iff _]%andb_true_iff _]%andb_true_iff _]%andb_true_iff _]%andb_true_iff _].
  apply Nat.eqb_eq in Hl. exists v0, pack, v', cp. split; [reflexivity|]. split; [exact E1|].
  apply (compiled_pack_passport (L := SampleLaws) (sample_draws 0) [] v0 (sample_stored v0) (sample_draws 3) [] pack v' r
           (sample_draws 4) (sample_draws 5) cp v'');
    [exact E0|reflexivity|reflexivity|apply sample_keys|apply reach_op, reach_start|exact E1|rewrite Hl; lia|exact E3|exact E2].
Defined.

Lemma proof_of_non_use_verifies_witness :
  exists v0 pack v' proof, sample_pack v0 = (Ok pack, v') /\
    verifyProofOfNonUse (Live v') (artifact_args (pack_args pack (publicKey v0)) "proofOfNonUse" pack proof) =
    validBoundaryResult (with_status proof VERIFIED_STATUS).
Proof.
  pose proof sample_boundary_ok as Hok.
  destruct (createVault (sample_draws 0) []) as [v0|] eqn:E0; [|discriminate Hok].
  destruct (sample_pack v0) as [[pack|] v'] eqn:E1; [|discriminate Hok]. cbv zeta in Hok.
  destruct (createContextPassport _ _ _ _).1 as [cp|]; [|discriminate Hok].
  destruct (createProofOfNonUse (sample_draws 4) (sample_draws 5) (Live v') (pack_args pack (publicKey v0))) as [[proof|] v''] eqn:E2;
    cbn [fst] in Hok; [|discriminate Hok].
  destruct (accepted_verdict pack) as [r|]; [|discriminate Hok].
  apply andb_true_iff in Hok as [[[[[[Ht _]%andb_true_iff Hroot]%andb_true_iff Hstr]%andb_true_iff Hpol]%andb_true_iff _]%andb_true_iff Hc].
  apply bool_decide_eq_true in Hc. apply seq_str in Hpol. exists v0, pack, v', proof. split; [exact E1|].
  pose proof (given_pack (sample_draws 4) (Live v') pack (publicKey v0) Ht) as Hg.
  assert (v'' = Live v') as -> by (unfold createProofOfNonUse in E2; rewrite Hg in E2; injection E2 as _ <-; reflexivity).
  apply (proof_of_non_use_verifies (L := SampleLaws) (sample_draws 4) (sample_draws 5) (Live v') (pack_args pack (publicKey v0)) pack);
    [exact Hg|exact Ht|exact E2|reflexivity|apply query_commitment_root; reflexivity| | |rewrite Hpol; discriminate|exact Hc].
  - destruct (vget pack "receipt_log_root"); try discriminate Hstr. by eexists.
  - repeat (apply Forall_cons; split; [reflexivity|]). constructor.
Defined.

Lemma context_passport_binds_witness :
  is_valid (verifyContextPassport (Data VUndef) (passport_check sample_active)) = true /\
  exists s1 s2, evidence (Data VUndef) (passport_check sample_active) s1 /\
    evidence (Data VUndef) (passport_check (rev sample_active)) s2 /\
    Forall (λ f : selection_summary -> list jstr, f s1 = f s2 \/ collision (merkle_inputs (f s1)) (merkle_inputs (f s2)))
      [ss_selected; ss_omitted; ss_tombstone].
Proof.
  assert (is_valid (verifyContextPassport (Data VUndef) (passport_check sample_active)) &&
          is_valid (verifyContextPassport (Data VUndef) (passport_check (rev sample_active))) = true) as H by (vm_compute; reflexivity).
  destruct (verifyContextPassport (Data VUndef) (passport_check sample_active)) as [r1|] eqn:E1; [|discriminate H].
  destruct (verifyContextPassport (Data VUndef) (passport_check (rev sample_active))) as [r2|] eqn:E2;
    [|rewrite andb_false_r in H; discriminate H].
  apply andb_true_iff in H as [H1 H2]. split; [exact H1|].
  apply (context_passport_binds (L := SampleLaws) _ _ r1 _ _ r2 E1 H1 eq_refl E2 H2 eq_refl eq_refl).
Defined.


(** ** Surprises *)

(** The public artifact of a valid result is the artifact itself, whatever other properties
    it has; that of an invalid one holds the public fields only. *)
Lemma valid_artifact_unfiltered :
  match verifyContextPassport (Data VUndef)
          [("contextPassport" : jstr, VObj (own_fields sample_passport ++ [("content" : jstr, vstr "likes tea")]))] with
  | Ok r => bv_valid r && (vget (bv_public_artifact r) "content" === vstr "likes tea")
  | Throw _ => false
  end = true.
Proof. vm_compute. reflexivity. Qed.

(** A context passport created from a vault alone selects the memories of a pack that is
    compiled for it and not returned; it is refused when it is verified against the vault. *)
Lemma vault_passport_refused :
  match createVault (sample_draws 0) [] with
  | Ok v0 =>
      match createContextPassport (sample_draws 3) (sample_draws 4) (Live (sample_stored v0)) [] with
      | (Ok cp, vault') =>
          match verifyContextPassport vault' [("contextPassport" : jstr, cp)] with
          | Ok r => negb (bv_valid r) && mem_str "selected_context_root mismatch" (bv_errors r)
          | Throw _ => false
          end
      | _ => false
      end
  | _ => false
  end = true.
Proof. vm_compute. reflexivity. Qed.
