(* ===== verification/Health.v ===== *)
(** * Memory-drive health

    The health reports of [src/packages/passport/src/index.js]: ten metrics over the
    records, tombstones, receipts and derived artifacts of a vault, each with a status and a
    score, a scan of the report for private data, an overall score, and whether the report
    may be anchored by the proof network. *)

From S2P Require Import Prelude JsValue Doubles Rounding Regex Canonical Hashing Merkle Dates VaultPublic Vault Settlement Passport.

Definition MEMORY_DRIVE_HEALTH_SCHEMA : jstr := "enigma.memory_drive_health_report.v1".
Definition DEFAULT_HEALTH_NOW : jstr := "2026-06-25T00:00:00.000Z".
Definition DEFAULT_TOKENS_PER_MEMORY : Z := 64.

(** The names of [HEALTH_METRIC_NAMES] as a type, in their order. *)
Inductive metric_name :=
  | Freshness | DuplicateRate | TombstoneRisk | StaleDerivedArtifacts | RetrievalHitRate | TokenReduction
  | LeakageScan | ReceiptCoverage | ConnectorHealth | SyncForkRisk.

Definition HEALTH_METRIC_NAMES : list metric_name :=
  [Freshness; DuplicateRate; TombstoneRisk; StaleDerivedArtifacts; RetrievalHitRate; TokenReduction;
   LeakageScan; ReceiptCoverage; ConnectorHealth; SyncForkRisk].

Definition metric_key (name : metric_name) : jstr :=
  match name with
  | Freshness => "freshness" | DuplicateRate => "duplicate_rate" | TombstoneRisk => "tombstone_risk"
  | StaleDerivedArtifacts => "stale_derived_artifacts" | RetrievalHitRate => "retrieval_hit_rate"
  | TokenReduction => "token_reduction" | LeakageScan => "leakage_scan" | ReceiptCoverage => "receipt_coverage"
  | ConnectorHealth => "connector_health" | SyncForkRisk => "sync_fork_risk"
  end.

Definition HEALTH_METRIC_WEIGHTS (name : metric_name) : Z :=
  match name with
  | Freshness => 10 | DuplicateRate => 8 | TombstoneRisk => 12 | StaleDerivedArtifacts => 10
  | RetrievalHitRate => 14 | TokenReduction => 8 | LeakageScan => 14 | ReceiptCoverage => 10
  | ConnectorHealth => 8 | SyncForkRisk => 6
  end.

Definition HEALTH_EVIDENCE_PREFIX (name : metric_name) : jstr :=
  match name with
  | Freshness => "freshness_scan" | DuplicateRate => "dedupe_scan" | TombstoneRisk => "tombstone_scan"
  | StaleDerivedArtifacts => "artifact_inventory" | RetrievalHitRate => "benchmark_report"
  | TokenReduction => "optimizer_report" | LeakageScan => "leakage_scan" | ReceiptCoverage => "receipt_inventory"
  | ConnectorHealth => "connector_inventory" | SyncForkRisk => "replica_roots"
  end.

Definition decimal (m e : Z) : jsval := VNum (NDec m e).

Definition DEFAULT_HEALTH_POLICY : obj := [
  ("freshness_window_hours" : jstr, vint 48); ("freshness_healthy_ratio" : jstr, decimal 95 (-2));
  ("freshness_watch_ratio" : jstr, decimal 85 (-2)); ("freshness_degraded_ratio" : jstr, decimal 7 (-1));
  ("duplicate_rate_watch_floor" : jstr, decimal 2 (-2)); ("duplicate_rate_degraded_floor" : jstr, decimal 5 (-2));
  ("duplicate_rate_critical_floor" : jstr, decimal 12 (-2)); ("tombstone_ack_window_hours" : jstr, vint 24);
  ("retrieval_top_k" : jstr, vint 5); ("hit_at_k_floor" : jstr, decimal 9 (-1));
  ("exact_coverage_floor" : jstr, decimal 85 (-2)); ("abstention_correctness_floor" : jstr, decimal 95 (-2));
  ("token_reduction_floor" : jstr, decimal 5 (-1)); ("receipt_coverage_healthy_floor" : jstr, decimal 99 (-2));
  ("receipt_coverage_watch_floor" : jstr, decimal 95 (-2)); ("receipt_coverage_degraded_floor" : jstr, decimal 85 (-2));
  ("connector_max_error_rate_24h" : jstr, decimal 1 (-2)); ("sync_max_read_only_lag_versions" : jstr, vint 1)].

Definition FORBIDDEN_WORDS : re :=
  rwords ["raw"%string; "plaintext"%string; "plain_text"%string; "prompt"%string; "prompts"%string;
          "message"%string; "messages"%string; "text"%string; "content"%string; "document"%string;
          "documents"%string; "transcript"%string; "transcripts"%string; "completion"%string;
          "completions"%string; "embedding"%string; "embeddings"%string; "provider_response"%string;
          "provider_responses"%string; "response_body"%string; "credential"%string; "credentials"%string;
          "api_key"%string; "secret"%string; "password"%string; "private_key"%string; "seed"%string;
          "seed_phrase"%string; "mnemonic"%string; "tenant_name"%string; "customer_name"%string;
          "organization_name"%string; "org_name"%string].

(** [HEALTH_FORBIDDEN_KEY_RE.test(key)], as in [Settlement]: a word between underscores or
    the ends of the key. *)
Definition HEALTH_FORBIDDEN_KEY_RE : re := re_iu (rseqs [rlit "_"; FORBIDDEN_WORDS; rlit "_"]).
Definition is_forbidden_health_key (key : jstr) : bool := re_search HEALTH_FORBIDDEN_KEY_RE ("_" +s+ key +s+ "_").

Definition HEALTH_SECRET_VALUE_RE : re :=
  re_iu (ralts [
    rseqs [rlit "Bearer"; rplus rspace; ratleast 12 (cset "A-Za-z0-9._~+/=-")];
    rseqs [rlit "Basic"; rplus rspace; ratleast 12 (cset "A-Za-z0-9+/=-")];
    rseqs [rlit "-----BEGIN "; RStar (cset "A-Z "); rlit "PRIVATE KEY-----"];
    rseqs [rlit "http"; ropt (rlit "s"); rlit "://"; rplus (not_space_nor "/:@"); rlit ":";
           rplus (not_space_nor "/@"); rlit "@"];
    rseqs [rlit "sk-"; ratleast 16 (cset "A-Za-z0-9_-")];
    rseqs [rlit "AKIA"; rrep 16 (cset "0-9A-Z")];
    rlit "seed phrase"; rlit "mnemonic phrase"; rlit "raw memory"; rlit "private prompt";
    rlit "full transcript"; rlit "provider response"; rlit "embedding vector"]).

Definition HEALTH_SAFE_KEYS : list jstr :=
  ["transaction_submitted" : jstr; "raw_memory_on_chain" : jstr; "provider_deletion_claim" : jstr;
   "model_forgetting_claim" : jstr; "hosted_saas_claim" : jstr; "report_ref" : jstr; "drive_ref" : jstr;
   "namespace_ref" : jstr; "source_root" : jstr; "policy_ref" : jstr; "artifact_root" : jstr;
   "instruction_ref" : jstr; "latest_anchor_batch_ref" : jstr; "private_payloads_included" : jstr;
   "connector_bodies_included" : jstr; "identity_labels_included" : jstr; "secret_material_included" : jstr;
   "provider_bodies_included" : jstr; "secret_value_hits" : jstr; "forbidden_payload_key_hits" : jstr;
   "secret_value_hits_allowed" : jstr; "forbidden_payload_key_hits_allowed" : jstr].

(** ** Scores *)
Inductive health_status := Healthy | Watch | Degraded | Critical.

#[export] Instance health_status_eq_dec : EqDecision health_status.
Proof. solve_decision. Defined.

Definition status_text (s : health_status) : jstr :=
  match s with Healthy => "healthy" | Watch => "watch" | Degraded => "degraded" | Critical => "critical" end.

Definition clamp01 (value : jsnum) : jsnum :=
  if negb (num_is_finite value) then NInt 0
  else if num_ltb value (NInt 0) then NInt 0
  else if num_ltb (NInt 1) value then NInt 1
  else value.

Definition bandScore (status : health_status) (goodness : jsnum) : jsnum :=
  let r := clamp01 goodness in
  match status with
  | Healthy => num_plus (NInt 90) (num_round (num_times (NInt 10) r))
  | Watch => num_plus (NInt 75) (num_round (num_times (NInt 14) r))
  | Degraded => num_plus (NInt 50) (num_round (num_times (NInt 24) r))
  | Critical => num_round (num_times (NInt 49) r)
  end.

Definition statusFromScore (score : jsnum) : health_status :=
  if num_le (NInt 90) score then Healthy
  else if num_le (NInt 75) score then Watch
  else if num_le (NInt 50) score then Degraded
  else Critical.

Definition count (n : nat) : jsnum := NInt (Z.of_nat n).

Definition roundRatio (value : jsnum) : jsnum :=
  if negb (num_is_finite value) then NInt 0 else num_quot (num_round (num_times value (NInt 10000))) (NInt 10000).

(** ** The scan *)
Record scan_hits := hits { h_keys : list jstr; h_secret : list jstr }.

Definition hits_app (a b : scan_hits) : scan_hits := hits (h_keys a ++ h_keys b) (h_secret a ++ h_secret b).

Definition no_hits : scan_hits := hits [] [].

Definition child_path (path key : jstr) : jstr := if path =s= [] then key else path +s+ "." +s+ key.

Fixpoint healthScan (value : jsval) (path : jstr) : scan_hits :=
  match value with
  | VStr s =>
      if re_search HEALTH_SECRET_VALUE_RE s then hits [] [if path =s= [] then "<root>" : jstr else path] else no_hits
  | VArr items =>
      (fix go (index : nat) (items : list jsval) : scan_hits :=
         match items with
         | [] => no_hits
         | item :: items' =>
             hits_app (healthScan item (path +s+ "[" +s+ nat_str index +s+ "]")) (go (S index) items')
         end) 0%nat items
  | VObj fields | VInst _ fields =>
      (fix go (fields : list (jstr * jsval)) : scan_hits :=
         match fields with
         | [] => no_hits
         | kv :: fields' =>
             let childPath := child_path path kv.1 in
             hits_app (if is_forbidden_health_key kv.1 && negb (mem_str kv.1 HEALTH_SAFE_KEYS) then hits [childPath] [] else no_hits)
               (hits_app (healthScan kv.2 childPath) (go fields'))
         end) fields
  | _ => no_hits
  end.

Section health.
Context {C : Crypto} {Hst : Host} {Loc : Locale} {P : Platform}.

(** ** Numbers of unknown values *)

(** A number where a bigint would throw: [Math.max], or arithmetic with a number. *)
Definition to_numeric (v : jsval) : res jsnum :=
  match v with
  | VOpaque OBigint _ => Throw (TypeError "Cannot mix BigInt and other types, use explicit conversions")
  | _ => to_number v
  end.

(** [a <= b]. *)
Definition less_eq (a b : jsval) : res bool :=
  match prim a, prim b with
  | VStr s, VStr t => Ok (negb (str_ltb t s))
  | a', b' => let! x := to_number a' in let! y := to_number b' in Ok (num_le x y)
  end.

Definition nonNegativeInt (value : jsval) : res jsnum :=
  let! n := to_number value in
  Ok (if negb (num_is_finite n) || num_ltb n (NInt 0) then NInt 0 else num_floor n).

Definition clampRatio (value : jsval) : res jsnum := let! n := to_number value in Ok (clamp01 n).

(** The hours since a time, [Infinity] for an unreadable one. *)
Definition ageHours (iso : jsval) (nowMs : option Z) : res jsnum :=
  match iso with
  | VOpaque OSymbol _ => Throw (TypeError "Cannot convert a Symbol value to a string")
  | _ =>
      Ok (match date_parse (to_str iso) with
          | None => NInf false
          | Some t =>
              match nowMs with
              | Some now => num_max (NInt 0) (num_quot (NInt (now - t)) (NInt 3600000))
              | None => NNaN
              end
          end)
  end.

Definition healthDigest (value : jsval) : res jstr := let! t := canonical value in Ok (sha_root t).

Definition healthEvidenceRef (name : metric_name) (observed : jsval) : res jstr :=
  let! d := healthDigest observed in Ok (HEALTH_EVIDENCE_PREFIX name +s+ "_" +s+ d).

Record metric := {
  m_status : health_status;
  m_score : jsnum;
  m_observed : jsval;
  m_thresholds : jsval;
  m_evidence : jstr;
  m_actions : list jstr
}.

(** [healthMetric] with the evidence reference of the observation. *)
Definition healthMetric (name : metric_name) (status : health_status) (score : jsnum) (observed thresholds : obj)
    (actions : list jstr) : res metric :=
  let! evidence := healthEvidenceRef name (VObj observed) in
  Ok {| m_status := status; m_score := score; m_observed := VObj observed; m_thresholds := VObj thresholds;
        m_evidence := evidence; m_actions := actions |}.

Definition metric_value (m : metric) : jsval := VObj [
  ("status" : jstr, VStr (status_text (m_status m))); ("score" : jstr, VNum (m_score m));
  ("observed" : jstr, m_observed m); ("thresholds" : jstr, m_thresholds m);
  ("evidence_refs" : jstr, VArr [VStr (m_evidence m)]);
  ("recommended_actions" : jstr, VArr (map VStr (m_actions m)))].

(** Actions that a status other than healthy recommends. *)
Definition unless_healthy (status : health_status) (actions : list jstr) : list jstr :=
  match status with Healthy => [] | _ => actions end.

Definition when (b : bool) (action : string) : list jstr := if b then [action : jstr] else [].

(** ** What the metrics read *)
Definition vaultRecord (vault : vault_arg) (addr : jsval) : jsval :=
  match vault with
  | Live v => match getRecord v addr with Some m => VObj (m_fields m) | None => VNull end
  | Data x =>
      match vget x "memories" with
      | VMap entries => match addr with VStr a => from_option id VNull (map_get entries a) ?? VNull | _ => VNull end
      | _ =>
          match vget x "memory_objects" with
          | VArr l =>
              match List.find (λ record, vget record "memory_addr" === addr) (map elem l) with
              | Some record => record ?? VNull
              | None => VNull
              end
          | _ => VNull
          end
      end
  end.

(** [vault.vault] of a bundle. *)
Definition bundle_vault (vault : vault_arg) : vault_arg :=
  if vault_get vault "schema" === vstr "enigma.vault_bundle.v1" then
    match vault with Data x => Data (vget x "vault") | Live _ => Data VUndef end
  else vault.

Definition driveIdentity (vault : vault_arg) (passport : jsval) : obj :=
  let bundleVault := bundle_vault vault in
  let owner := vget (vget passport "owner") "subject_id" in
  let of_vault k := vault_get bundleVault k ?? vault_get vault k in
  [("vault_id" : jstr, of_vault "vault_id" ?? vget (vget passport "vault") "vault_id" ?? vstr "local-vault");
   ("tenant_id" : jstr, of_vault "tenant_id" ?? owner ?? vstr "local");
   ("subject_id" : jstr, of_vault "subject_id" ?? owner ?? vstr "local-subject");
   ("policy_id" : jstr, of_vault "policy_id" ?? vstr "local-default")].

Record derived := {
  d_type : jsval;
  d_source_root : jsval;
  d_generated_at : jsval;
  d_addresses : jsval;
  d_serving : bool
}.

Definition serving_flag (v : jsval) : bool := negb (vget v "serving" === VBool false).

Definition pack_artifact (pack : jsval) : list derived :=
  if negb (truthy pack) then [] else
  [{| d_type := vget pack "artifact_type" ?? vstr "context_pack";
      d_source_root := vget pack "active_set_root" ?? vget pack "activeSetRoot" ?? vget pack "source_root" ?? vget pack "sourceRoot";
      d_generated_at := vget pack "generated_at" ?? vget pack "generatedAt";
      d_addresses := vget pack "memory_addresses" ?? VArr []; d_serving := serving_flag pack |}].

Definition extra_artifact (artifact : jsval) : list derived :=
  if negb (truthy artifact) then [] else
  [{| d_type := vget artifact "artifact_type" ?? vget artifact "artifactType" ?? vstr "derived_artifact";
      d_source_root := vget artifact "source_root" ?? vget artifact "sourceRoot";
      d_generated_at := vget artifact "generated_at" ?? vget artifact "generatedAt";
      d_addresses := vget artifact "memory_addresses" ?? VArr []; d_serving := serving_flag artifact |}].

Definition normalizeContextPacks (args : obj) : list derived :=
  let fromArgs := fget args "contextPacks" ?? fget args "context_packs" ?? VArr [] in
  let single := fget args "contextPack" ?? fget args "context_pack" ?? fget args "pack" in
  let list := if truthy single then [single] else map elem (items_of fromArgs) in
  let extras := fget args "derivedArtifacts" ?? fget args "derived_artifacts" ?? VArr [] in
  flat_map pack_artifact list ++ flat_map extra_artifact (map elem (items_of extras)).

(** [artifact.memory_addresses] where it has to be an array, or a [Buffer]. *)
Definition addresses_of (a : derived) : res (list jsval) :=
  match d_addresses a with
  | VArr l => Ok l
  | VBytes _ bytes => Ok (map (λ n, VNum (NInt (Z.of_N n))) bytes)
  | _ => Throw (TypeError "artifact.memory_addresses.some is not a function")
  end.

(** ** Conditions that may throw *)
Definition or_res (a b : res bool) : res bool := let! x := a in if x then Ok true else b.

(** The status of the first condition that holds. *)
Fixpoint first_status (conditions : list (res bool * health_status)) (otherwise : health_status) : res health_status :=
  match conditions with
  | [] => Ok otherwise
  | (c, s) :: conditions' => let! b := c in if b then Ok s else first_status conditions' otherwise
  end.

Definition below (n : jsnum) (bound : jsval) : res bool := less_than (VNum n) bound.
Definition above (n : jsnum) (bound : jsval) : res bool := less_than bound (VNum n).
Definition at_least (n : jsnum) (bound : jsval) : res bool := less_eq bound (VNum n).

(** ** Freshness *)

(** The finite ages and how many records have none. *)
Fixpoint record_ages (records : list jsval) (nowMs : option Z) : res (list jsnum * nat) :=
  match records with
  | [] => Ok ([], 0)
  | r :: records' =>
      let! age := ageHours (vget r "updated_at") nowMs in
      let! rest := record_ages records' nowMs in
      Ok (if num_is_finite age then (age :: rest.1, rest.2) else (rest.1, S rest.2))
  end.

Fixpoint age_insert (a : jsnum) (l : list jsnum) : list jsnum :=
  match l with [] => [a] | b :: l' => if num_le a b then a :: l else b :: age_insert a l' end.

Definition sort_ages (l : list jsnum) : list jsnum := foldr age_insert [] l.

Fixpoint count_res {A} (f : A -> res bool) (l : list A) : res nat :=
  match l with
  | [] => Ok 0
  | x :: l' => let! b := f x in let! n := count_res f l' in Ok (if b then S n else n)
  end.

Definition hours (age : jsnum) : jsval := if num_is_finite age then VNum (num_round age) else VNull.

Definition nth_age (index : jsnum) (ages : list jsnum) : jsnum :=
  match index with NInt i => nth (Z.to_nat i) ages (NInf false) | _ => NInf false end.

Definition computeFreshness (records : list jsval) (policy : obj) (nowMs : option Z) : res metric :=
  let window := fget policy "freshness_window_hours" in
  let thresholds := [
    ("fresh_records_ratio_watch_floor" : jstr, fget policy "freshness_watch_ratio");
    ("fresh_records_ratio_degraded_floor" : jstr, fget policy "freshness_degraded_ratio");
    ("policy_window_hours" : jstr, window)] in
  if (length records =? 0)%nat then
    healthMetric Freshness Healthy (NInt 100) [
      ("active_ref_count" : jstr, vint 0); ("fresh_records_ratio" : jstr, vint 1);
      ("p95_active_age_hours" : jstr, vint 0); ("oldest_unrefreshed_age_hours" : jstr, vint 0)] thresholds []
  else
    let! found := record_ages records nowMs in
    let finiteAges := sort_ages found.1 in
    let n := length finiteAges in
    let! freshCount := count_res (λ age, less_eq (VNum age) window) finiteAges in
    let ratio := num_quot (count freshCount) (count (length records)) in
    let p95Index := num_min (count (n - 1)) (num_floor (num_times (count n) (NDec 95 (-2)))) in
    let p95Age := if (n =? 0)%nat then NInf false else nth_age p95Index finiteAges in
    let oldestAge := if (n =? 0)%nat then NInf false else nth (n - 1) finiteAges (NInf false) in
    let! status := first_status [
      (or_res (Ok (0 <? found.2)%nat) (below ratio (fget policy "freshness_degraded_ratio")), Critical);
      (or_res (below ratio (fget policy "freshness_watch_ratio"))
         (let! w := to_numeric window in Ok (num_ltb (num_times (NInt 2) w) oldestAge)), Degraded);
      (or_res (below ratio (fget policy "freshness_healthy_ratio")) (above p95Age window), Watch)] Healthy in
    let! old := (match status with Healthy => Ok false | _ => above oldestAge window end) in
    let critical := match status with Critical => true | _ => false end in
    healthMetric Freshness status (bandScore status ratio) [
      ("active_ref_count" : jstr, vnat (length records)); ("fresh_records_ratio" : jstr, VNum (roundRatio ratio));
      ("p95_active_age_hours" : jstr, hours p95Age); ("oldest_unrefreshed_age_hours" : jstr, hours oldestAge)] thresholds
      (unless_healthy status (
        ["Run local revalidation for stale namespaces." : jstr]
        ++ when old "Rebuild the retrieval index for stale partitions."
        ++ when critical "Restore freshness metadata for active records before anchoring.")).

(** ** Duplicates *)
Fixpoint count_key (counts : list (jsval * nat)) (key : jsval) : list (jsval * nat) :=
  match counts with
  | [] => [(key, 1)]
  | (k, n) :: counts' => if same_value_zero k key then (k, S n) :: counts' else (k, n) :: count_key counts' key
  end.

Definition content_key (record : jsval) : jsval :=
  vget record "content_hash" ?? vget record "content_commitment" ?? vget record "memory_addr".

Definition duplicates (records : list jsval) : nat :=
  foldr (λ kn d, (if (1 <? kn.2)%nat then kn.2 - 1 else 0) + d) 0
    (foldl (λ counts r, count_key counts (content_key r)) [] records).

Definition computeDuplicateRate (records : list jsval) (policy : obj) : res metric :=
  let thresholds := [
    ("watch_floor" : jstr, fget policy "duplicate_rate_watch_floor");
    ("degraded_floor" : jstr, fget policy "duplicate_rate_degraded_floor");
    ("critical_floor" : jstr, fget policy "duplicate_rate_critical_floor")] in
  let duplicateCandidateCount := duplicates records in
  let duplicateRate := if (0 <? length records)%nat
    then num_quot (count duplicateCandidateCount) (count (length records)) else NInt 0 in
  let! status := first_status [
    (above duplicateRate (fget policy "duplicate_rate_critical_floor"), Critical);
    (at_least duplicateRate (fget policy "duplicate_rate_degraded_floor"), Degraded);
    (at_least duplicateRate (fget policy "duplicate_rate_watch_floor"), Watch)] Healthy in
  healthMetric DuplicateRate status (bandScore status (num_minus (NInt 1) duplicateRate)) [
    ("active_ref_count" : jstr, vnat (length records));
    ("duplicate_candidate_count" : jstr, vnat duplicateCandidateCount);
    ("duplicate_rate" : jstr, VNum (roundRatio duplicateRate));
    ("dedupe_savings_estimated_tokens" : jstr, vint (Z.of_nat duplicateCandidateCount * DEFAULT_TOKENS_PER_MEMORY))]
    thresholds
    (unless_healthy status ["Merge duplicate candidates using local canonical refs." : jstr;
                            "Preserve receipt lineage for merged records." : jstr]).

(** ** Tombstones *)
Definition mentions (tombstones : list jsval) (a : derived) : res bool :=
  let! addresses := addresses_of a in
  Ok (existsb (λ addr, match addr with VHole => false | _ => arr_includes tombstones addr end) addresses).

Fixpoint filter_res {A} (f : A -> res bool) (l : list A) : res (list A) :=
  match l with
  | [] => Ok []
  | x :: l' => let! b := f x in let! rest := filter_res f l' in Ok (if b then x :: rest else rest)
  end.

Definition computeTombstoneRisk (tombstones deleted : list jsval) (artifacts : list derived)
    (connectorReplayWindowHours : jsval) (policy : obj) : res metric :=
  let tombstoneCount := length tombstones in
  let unsettled := length (List.filter (λ addr, negb (arr_includes deleted addr)) tombstones) in
  let! mentioning := filter_res (mentions tombstones) artifacts in
  let derivedCount := length mentioning in
  let serving := length (List.filter d_serving mentioning) in
  let! window := to_numeric (connectorReplayWindowHours ?? vint 0) in
  let replayWindow := num_max (NInt 0) window in
  let! status := first_status [
    (Ok (0 <? serving)%nat, Critical);
    (or_res (Ok (0 <? derivedCount)%nat) (above replayWindow (fget policy "tombstone_ack_window_hours")), Degraded);
    (Ok ((0 <? tombstoneCount)%nat && ((0 <? unsettled)%nat || num_ltb (NInt 0) replayWindow)), Watch)] Healthy in
  let goodness := if (tombstoneCount =? 0)%nat then NInt 1
    else num_minus (NInt 1) (clamp01 (num_quot (count (unsettled + derivedCount)) (count (Nat.max 1 tombstoneCount)))) in
  healthMetric TombstoneRisk status (bandScore status goodness) [
    ("tombstone_count" : jstr, vnat tombstoneCount); ("unsettled_tombstone_count" : jstr, vnat unsettled);
    ("derived_artifacts_referencing_tombstones" : jstr, vnat derivedCount);
    ("tombstone_replay_window_hours" : jstr, VNum (num_round replayWindow))]
    [("max_ack_lag_hours" : jstr, fget policy "tombstone_ack_window_hours")]
    (unless_healthy status (
      when (0 <? derivedCount)%nat "Invalidate derived artifacts that depend on tombstoned refs."
      ++ when (0 <? serving)%nat "Quarantine serving artifacts that can replay tombstoned content."
      ++ ["Rebuild context packs and exports from active refs only." : jstr])).

(** ** Stale artifacts *)
Definition is_stale (currentRoot : jsval) (a : derived) : bool :=
  truthy (d_source_root a) && (d_source_root a !== currentRoot).

Definition max_lag (lags : list jsnum) : jsnum :=
  foldl (λ m lag, if num_is_finite lag then num_max m lag else m) (NInt 0) lags.

Definition computeStaleDerivedArtifacts (artifacts : list derived) (currentRoot : jsval) (nowMs : option Z)
    (policy : obj) : res metric :=
  let! lags := map_res (λ a, ageHours (d_generated_at a) nowMs) artifacts in
  let stale := List.filter (λ al, is_stale currentRoot al.1) (combine artifacts lags) in
  let staleServing := length (List.filter (λ al : derived * jsnum, d_serving al.1) stale) in
  let staleTypes := sort_values (value_set (map (λ al : derived * jsnum, d_type al.1) stale)) in
  let status := if (0 <? staleServing)%nat then Degraded else if (0 <? length stale)%nat then Watch else Healthy in
  let maxLagHours := max_lag (map snd stale) in
  let goodness := num_minus (NInt 1)
    (clamp01 (num_quot (count (length stale)) (count (Nat.max 1 (length artifacts))))) in
  healthMetric StaleDerivedArtifacts status (bandScore status goodness) [
    ("stale_artifact_count" : jstr, vnat (length stale)); ("artifact_types_stale" : jstr, VArr staleTypes);
    ("max_artifact_lag_versions" : jstr, vint (if (0 <? length stale)%nat then 1 else 0));
    ("max_artifact_lag_hours" : jstr, VNum (if num_is_finite maxLagHours then num_round maxLagHours else NInt 0))]
    [("serving_path_stale_artifacts_allowed" : jstr, vint 0)]
    (unless_healthy status (
      ["Rebuild active derived artifacts from the current source root." : jstr]
      ++ when (0 <? staleServing)%nat "Quarantine proof packets made from stale roots."
      ++ ["Require artifact builders to declare source_root and artifact_root." : jstr])).

(** ** Retrieval *)
Definition summary_field (summary : jsval) (snake camel : jstr) : jsval := vget summary snake ?? vget summary camel.

(** [value < floor + 0.05]. *)
Definition below_margin (value : jsnum) (floor : jsval) : res bool :=
  let! bound := plus floor (decimal 5 (-2)) in below value bound.

Definition retrieval_actions : list jstr :=
  ["Rebuild retrieval indexes." : jstr; "Inspect namespace filters and capability scopes." : jstr;
   "Compare against the last healthy benchmark report hash." : jstr].

Definition computeRetrievalHitRate (benchmarkSummary : jsval) (policy : obj) : res metric :=
  let hit_floor := fget policy "hit_at_k_floor" in
  let exact_floor := fget policy "exact_coverage_floor" in
  let abstention_floor := fget policy "abstention_correctness_floor" in
  let thresholds := [("hit_at_k_floor" : jstr, hit_floor); ("exact_coverage_floor" : jstr, exact_floor);
                     ("abstention_correctness_floor" : jstr, abstention_floor)] in
  let observed probes k hit exact abstention measured := [
    ("probe_count" : jstr, VNum probes); ("top_k" : jstr, k); ("hit_at_k" : jstr, VNum hit);
    ("exact_coverage" : jstr, VNum exact); ("abstention_correctness" : jstr, VNum abstention);
    ("measured" : jstr, VBool measured)] in
  if negb (truthy benchmarkSummary) then
    healthMetric RetrievalHitRate Healthy (NInt 90)
      (observed (NInt 0) (fget policy "retrieval_top_k") (NInt 0) (NInt 0) (NInt 0) false) thresholds
      ["Supply benchmark_summary to measure retrieval hit rate." : jstr]
  else
    let field := summary_field benchmarkSummary in
    let! probeCount := nonNegativeInt (field "probe_count" "probeCount") in
    let! topK := nonNegativeInt (field "top_k" "topK" ?? fget policy "retrieval_top_k") in
    let! hitAtK := clampRatio (field "hit_at_k" "hitAtK") in
    let! exactCoverage := clampRatio (field "exact_coverage" "exactCoverage") in
    let! abstention := clampRatio (field "abstention_correctness" "abstentionCorrectness") in
    let returnsTombstoned := truthy (field "returned_tombstoned_refs" "returnedTombstonedRefs") in
    let! status := first_status [
      (Ok (returnsTombstoned || num_seq probeCount (NInt 0)), Critical);
      (or_res (below hitAtK hit_floor) (or_res (below exactCoverage exact_floor) (below abstention abstention_floor)), Degraded);
      (or_res (below_margin hitAtK hit_floor)
         (or_res (below_margin exactCoverage exact_floor) (below_margin abstention abstention_floor)), Watch)] Healthy in
    let goodness := num_quot (num_plus (num_plus hitAtK exactCoverage) abstention) (NInt 3) in
    healthMetric RetrievalHitRate status (bandScore status goodness)
      (observed probeCount (VNum topK) hitAtK exactCoverage abstention true) thresholds
      (unless_healthy status retrieval_actions).

(** ** Tokens *)
Definition computeTokenReduction (activeCount : nat) (contextPackProvided : bool) (selectedCount : nat)
    (retrievalGuardPassed : bool) (policy : obj) : res metric :=
  let floor := fget policy "token_reduction_floor" in
  let thresholds := [("token_reduction_floor" : jstr, floor); ("quality_guard_required" : jstr, VBool true)] in
  let baseline := (Z.of_nat activeCount * DEFAULT_TOKENS_PER_MEMORY)%Z in
  let observed selected ratio measured := [
    ("baseline_estimated_tokens" : jstr, vint baseline); ("selected_estimated_tokens" : jstr, vint selected);
    ("token_reduction_ratio" : jstr, VNum ratio); ("quality_guard_passed" : jstr, VBool retrievalGuardPassed);
    ("measured" : jstr, VBool measured)] in
  if negb contextPackProvided then
    healthMetric TokenReduction Healthy (NInt 90) (observed 0%Z (NInt 0) false) thresholds
      ["Supply a context pack or benchmark summary to measure token reduction." : jstr]
  else
    let selected := (Z.of_nat selectedCount * DEFAULT_TOKENS_PER_MEMORY)%Z in
    let ratio := if (0 <? baseline)%Z then clamp01 (num_minus (NInt 1) (num_quot (NInt selected) (NInt baseline)))
                 else NInt 0 in
    let! reached := at_least ratio floor in
    let status := if negb retrievalGuardPassed then (if reached then Degraded else Critical)
                  else if reached then Healthy else Watch in
    healthMetric TokenReduction status (bandScore status ratio) (observed selected (roundRatio ratio) true) thresholds
      (unless_healthy status [
        "Tune ranking thresholds only if the retrieval guard remains satisfied." : jstr;
        "Dedupe before reducing top-k." : jstr; "Never optimize tokens by suppressing required evidence refs." : jstr]).

(** ** Leakage *)
Definition scan_all (inputs : list jsval) : scan_hits := foldr (λ v acc, hits_app (healthScan v []) acc) no_hits inputs.

(** The body of the report is scanned after the inputs, which hold it as well. *)
Definition computeLeakageScan (reportBody : jsval) (scanInputs : list jsval) : res metric :=
  let found := scan_all (scanInputs ++ [reportBody]) in
  let forbiddenHits := length (h_keys found) in
  let secretHits := length (h_secret found) in
  let leaking := (0 <? forbiddenHits)%nat || (0 <? secretHits)%nat in
  let! refs := (if leaking then
    let! d := healthDigest (VObj [("forbiddenHits" : jstr, vnat forbiddenHits); ("secretHits" : jstr, vnat secretHits)]) in
    Ok [VStr ("leakage_scan_" +s+ d)] else Ok []) in
  let status := if leaking then Critical else Healthy in
  healthMetric LeakageScan status (if leaking then bandScore Critical (NInt 0) else NInt 100) [
    ("scanned_artifact_count" : jstr, vnat (length scanInputs));
    ("forbidden_payload_key_hits" : jstr, vnat forbiddenHits); ("secret_value_hits" : jstr, vnat secretHits);
    ("unsafe_artifact_refs" : jstr, VArr refs)]
    [("forbidden_payload_key_hits_allowed" : jstr, vint 0); ("secret_value_hits_allowed" : jstr, vint 0)]
    (unless_healthy status [
      "Quarantine unsafe artifacts." : jstr; "Regenerate reports from public-safe fields only." : jstr;
      "Block proof-network packet creation until the leakage scan is clean." : jstr]).

(** ** Receipts *)
Definition receipt_addr (receipt : jsval) : list jsval :=
  if is_object receipt then
    match vget receipt "memory_addr" ?? vget receipt "memoryAddr" with VStr a => [VStr a] | _ => [] end
  else [].

Definition foreign_receipt (receipt : jsval) : bool :=
  is_object receipt && truthy (vget receipt "schema") && (vget receipt "schema" !== vstr "enigma.receipt.v1").

Definition computeReceiptCoverage (activeAddrs receipts : list jsval) (latestAnchorBatchRef : jsval) (policy : obj)
    : res metric :=
  let thresholds := [
    ("healthy_floor" : jstr, fget policy "receipt_coverage_healthy_floor");
    ("watch_floor" : jstr, fget policy "receipt_coverage_watch_floor");
    ("degraded_floor" : jstr, fget policy "receipt_coverage_degraded_floor")] in
  let coveredAddrs := flat_map receipt_addr receipts in
  let invalidReceiptCount := length (List.filter foreign_receipt receipts) in
  let observed covered ratio := [
    ("active_ref_count" : jstr, vnat (length activeAddrs)); ("covered_ref_count" : jstr, vnat covered);
    ("receipt_coverage_ratio" : jstr, VNum ratio); ("invalid_receipt_count" : jstr, vnat invalidReceiptCount);
    ("latest_anchor_batch_ref" : jstr, latestAnchorBatchRef ?? VNull)] in
  if (length activeAddrs =? 0)%nat then
    healthMetric ReceiptCoverage Healthy (NInt 100) (observed 0 (NInt 1)) thresholds []
  else
    let coveredCount := length (List.filter (arr_includes coveredAddrs) activeAddrs) in
    let ratio := num_quot (count coveredCount) (count (length activeAddrs)) in
    let! status := first_status [
      (below ratio (fget policy "receipt_coverage_degraded_floor"), Critical);
      (or_res (Ok (0 <? invalidReceiptCount)%nat) (below ratio (fget policy "receipt_coverage_watch_floor")), Degraded);
      (below ratio (fget policy "receipt_coverage_healthy_floor"), Watch)] Healthy in
    healthMetric ReceiptCoverage status (bandScore status ratio) (observed coveredCount (roundRatio ratio)) thresholds
      (unless_healthy status [
        "Issue local receipts for uncovered active refs." : jstr; "Regenerate inclusion roots after compaction." : jstr;
        "Verify anchor batches before external publication." : jstr]).

(** ** Connectors *)
Definition computeConnectorHealth (connectorSummary : jsval) (policy : obj) : res metric :=
  let max_rate := fget policy "connector_max_error_rate_24h" in
  let thresholds := [("cursor_gap_count_allowed" : jstr, vint 0); ("max_error_rate_24h" : jstr, max_rate)] in
  let observed n healthy lagging rate gaps measured := [
    ("connector_count" : jstr, VNum n); ("healthy_connector_count" : jstr, VNum healthy);
    ("lagging_connector_count" : jstr, VNum lagging); ("error_rate_24h" : jstr, VNum rate);
    ("cursor_gap_count" : jstr, VNum gaps); ("measured" : jstr, VBool measured)] in
  if negb (truthy connectorSummary) then
    healthMetric ConnectorHealth Healthy (NInt 100) (observed (NInt 0) (NInt 0) (NInt 0) (NInt 0) (NInt 0) false)
      thresholds ["Supply connector_summary to measure connector health." : jstr]
  else
    let field := summary_field connectorSummary in
    let! connectorCount := nonNegativeInt (field "connector_count" "connectorCount") in
    let! healthy := nonNegativeInt (field "healthy_connector_count" "healthyConnectorCount") in
    let! lagging := nonNegativeInt (field "lagging_connector_count" "laggingConnectorCount") in
    let! errorRate := clampRatio (field "error_rate_24h" "errorRate24h") in
    let! cursorGaps := nonNegativeInt (field "cursor_gap_count" "cursorGapCount") in
    let! status := first_status [
      (Ok (num_ltb (NInt 0) cursorGaps), Critical);
      (or_res (above errorRate max_rate) (Ok (num_ltb (NInt 0) lagging)), Degraded)] Healthy in
    let goodness := if num_seq connectorCount (NInt 0) then NInt 1 else num_quot healthy connectorCount in
    healthMetric ConnectorHealth status (bandScore status goodness)
      (observed connectorCount healthy lagging (roundRatio errorRate) cursorGaps true) thresholds
      (unless_healthy status [
        "Pause unhealthy connector scopes before replay." : jstr;
        "Repair cursor gaps from receipt refs, not raw provider payloads." : jstr;
        "Require connector imports to emit idempotency refs." : jstr]).

(** ** Replicas *)
Record fork_state := {
  f_disagreement : nat;
  f_maxLag : jsnum;
  f_unmerged : nat;
  f_conflicting : jsnum
}.

Definition fork_step (currentRoot : jsval) (s : fork_state) (replica : jsval) : res fork_state :=
  let! reported := getx replica "reported_root" in
  let reportedRoot := reported ?? vget replica "reportedRoot" in
  let! lag := nonNegativeInt (summary_field replica "lag_versions" "lagVersions") in
  let isActive := negb (vget replica "active" === VBool false) in
  let! conflicts := nonNegativeInt (summary_field replica "conflicting_capabilities" "conflictingCapabilities") in
  Ok {| f_disagreement := (if truthy reportedRoot && (reportedRoot !== currentRoot) && isActive then 1 else 0) + f_disagreement s;
        f_maxLag := num_max (f_maxLag s) lag;
        f_unmerged := (if truthy (summary_field replica "unmerged_branch" "unmergedBranch") then 1 else 0) + f_unmerged s;
        f_conflicting := num_plus (f_conflicting s) conflicts |}.

Definition computeSyncForkRisk (replicas currentRoot : jsval) (policy : obj) : res metric :=
  let thresholds := [("active_root_disagreement_allowed" : jstr, vint 0);
                     ("conflicting_capability_count_allowed" : jstr, vint 0)] in
  let replicaList := map elem (items_of replicas) in
  let replicaCount := length replicaList in
  let observed s measured := [
    ("replica_count" : jstr, vnat replicaCount); ("root_disagreement_count" : jstr, vnat (f_disagreement s));
    ("max_root_lag_versions" : jstr, VNum (f_maxLag s)); ("unmerged_branch_count" : jstr, vnat (f_unmerged s));
    ("conflicting_capability_count" : jstr, VNum (f_conflicting s)); ("measured" : jstr, VBool measured)] in
  let start := {| f_disagreement := 0; f_maxLag := NInt 0; f_unmerged := 0; f_conflicting := NInt 0 |} in
  if (replicaCount =? 0)%nat then
    healthMetric SyncForkRisk Healthy (NInt 100) (observed start false) thresholds
      ["Supply replicas to measure sync fork risk." : jstr]
  else
    let! s := foldl_res (fork_step currentRoot) start replicaList in
    let! status := first_status [
      (Ok (num_ltb (NInt 0) (f_conflicting s)), Critical);
      (Ok (0 <? f_disagreement s)%nat, Degraded);
      (or_res (above (f_maxLag s) (fget policy "sync_max_read_only_lag_versions")) (Ok (0 <? f_unmerged s)%nat), Watch)] Healthy in
    let goodness := num_minus (NInt 1) (clamp01 (num_quot (num_plus (count (f_disagreement s)) (f_conflicting s))
      (count (Nat.max 1 replicaCount)))) in
    healthMetric SyncForkRisk status (bandScore status goodness) (observed s true) thresholds
      (unless_healthy status [
        "Freeze write grants for forked namespaces." : jstr;
        "Merge by public-safe root/ref lineage and tombstone nullifiers." : jstr;
        "Publish only the post-merge root after validation." : jstr]).

(** ** The report *)

(** What the report reads of the vault and the arguments. *)
Record health_inputs := {
  hi_created_at : jstr;
  hi_identity : obj;
  hi_roots : jsval * jsval;
  hi_policy : obj;
  hi_active : list jsval;
  hi_tombstones : list jsval;
  hi_records : list jsval;
  hi_receipts : list jsval;
  hi_artifacts : list derived;
  hi_benchmark : jsval;
  hi_connector : jsval;
  hi_replicas : jsval;
  hi_anchor : jsval
}.

Definition vault_receipts (vault : vault_arg) : list jsval :=
  match vault with Live v => v_receipts v | Data x => map elem (items_of (vget x "receipts")) end.

Definition healthInputs (clock : jstr) (vault : vault_arg) (args : obj) : res health_inputs :=
  let! createdAt := nowIso clock (fget args "now" ?? VStr DEFAULT_HEALTH_NOW) in
  let! roots := rootsFromVault vault in
  let! tombstones := vault_tombstones vault in
  let active := vault_active vault in
  Ok {| hi_created_at := createdAt;
        hi_identity := driveIdentity vault (fget args "passport");
        hi_roots := roots;
        hi_policy := spread DEFAULT_HEALTH_POLICY (spread_of (fget args "policy" ?? VObj []));
        hi_active := active;
        hi_tombstones := tombstones;
        hi_records := List.filter truthy (map (vaultRecord vault) active);
        hi_receipts := vault_receipts vault;
        hi_artifacts := normalizeContextPacks args;
        hi_benchmark := fget args "benchmarkSummary" ?? fget args "benchmark_summary" ?? VNull;
        hi_connector := fget args "connectorSummary" ?? fget args "connector_summary" ?? VNull;
        hi_replicas := fget args "replicas" ?? VNull;
        hi_anchor := fget args "latest_anchor_batch_ref" ?? fget args "latestAnchorBatchRef" ?? VNull |}.

Definition deleteReceiptAddrs (receipts : list jsval) : list jsval :=
  map (λ r, vget r "memory_addr")
    (List.filter (λ r, (vget r "operation" === vstr "delete") && truthy (vget r "memory_addr")) receipts).

Definition selected_count (artifacts : list derived) : nat :=
  foldr (λ a n, match d_addresses a with VBytes _ bytes => length bytes | v => length (items_of v) end + n) 0 artifacts.

Definition is_healthy (s : health_status) : bool := bool_decide (s = Healthy).

(** The metrics before the leakage scan. *)
Record nine_metrics := {
  n_freshness : metric;
  n_duplicate_rate : metric;
  n_tombstone_risk : metric;
  n_stale_derived_artifacts : metric;
  n_retrieval_hit_rate : metric;
  n_token_reduction : metric;
  n_receipt_coverage : metric;
  n_connector_health : metric;
  n_sync_fork_risk : metric
}.

Definition nineMetrics (i : health_inputs) : res nine_metrics :=
  let policy := hi_policy i in
  let nowMs := date_parse (hi_created_at i) in
  let currentRoot := (hi_roots i).1 in
  let artifacts := hi_artifacts i in
  let replay := vget (hi_connector i) "tombstone_replay_window_hours"
                ?? vget (hi_connector i) "tombstoneReplayWindowHours" ?? vint 0 in
  let! freshness := computeFreshness (hi_records i) policy nowMs in
  let! duplicate := computeDuplicateRate (hi_records i) policy in
  let! tombstone := computeTombstoneRisk (hi_tombstones i) (deleteReceiptAddrs (hi_receipts i)) artifacts replay policy in
  let! stale := computeStaleDerivedArtifacts artifacts currentRoot nowMs policy in
  let! retrieval := computeRetrievalHitRate (hi_benchmark i) policy in
  let! token := computeTokenReduction (length (hi_active i)) (0 <? length artifacts)%nat (selected_count artifacts)
                  (is_healthy (m_status retrieval)) policy in
  let! connector := computeConnectorHealth (hi_connector i) policy in
  let! fork := computeSyncForkRisk (hi_replicas i) currentRoot policy in
  let! receipt := computeReceiptCoverage (hi_active i) (hi_receipts i) (hi_anchor i) policy in
  Ok {| n_freshness := freshness; n_duplicate_rate := duplicate; n_tombstone_risk := tombstone;
        n_stale_derived_artifacts := stale; n_retrieval_hit_rate := retrieval; n_token_reduction := token;
        n_receipt_coverage := receipt; n_connector_health := connector; n_sync_fork_risk := fork |}.

Definition metric_of (nine : nine_metrics) (leakage : metric) (name : metric_name) : metric :=
  match name with
  | Freshness => n_freshness nine | DuplicateRate => n_duplicate_rate nine
  | TombstoneRisk => n_tombstone_risk nine | StaleDerivedArtifacts => n_stale_derived_artifacts nine
  | RetrievalHitRate => n_retrieval_hit_rate nine | TokenReduction => n_token_reduction nine
  | LeakageScan => leakage | ReceiptCoverage => n_receipt_coverage nine
  | ConnectorHealth => n_connector_health nine | SyncForkRisk => n_sync_fork_risk nine
  end.

Definition nine_value (nine : nine_metrics) : obj := [
  ("freshness" : jstr, metric_value (n_freshness nine));
  ("duplicate_rate" : jstr, metric_value (n_duplicate_rate nine));
  ("tombstone_risk" : jstr, metric_value (n_tombstone_risk nine));
  ("stale_derived_artifacts" : jstr, metric_value (n_stale_derived_artifacts nine));
  ("retrieval_hit_rate" : jstr, metric_value (n_retrieval_hit_rate nine));
  ("token_reduction" : jstr, metric_value (n_token_reduction nine));
  ("receipt_coverage" : jstr, metric_value (n_receipt_coverage nine));
  ("connector_health" : jstr, metric_value (n_connector_health nine));
  ("sync_fork_risk" : jstr, metric_value (n_sync_fork_risk nine))].

Definition privacyBoundaries : jsval := VObj [
  ("private_payloads_included" : jstr, VBool false); ("connector_bodies_included" : jstr, VBool false);
  ("identity_labels_included" : jstr, VBool false); ("secret_material_included" : jstr, VBool false);
  ("provider_bodies_included" : jstr, VBool false)].

Definition healthClaimBoundaries : jsval := VObj [
  ("description" : jstr, vstr "Local operational SMART-style health evidence computed from public-safe counters, roots, receipt metadata, tombstones, and derived/context-pack refs only.");
  ("excludes" : jstr, VArr [
     vstr "Does not prove provider deletion or model forgetting."; vstr "Does not certify compliance.";
     vstr "Does not prove live-chain settlement or a submitted transaction.";
     vstr "Does not include plaintext payloads, prompts, connector bodies, identity labels, or secret material."])].

Definition artifact_summary (a : derived) : jsval := VObj [
  ("artifact_type" : jstr, d_type a); ("source_root" : jstr, d_source_root a);
  ("memory_addresses" : jstr, d_addresses a); ("generated_at" : jstr, d_generated_at a)].

Definition reportProxy (nine : nine_metrics) : jsval := VObj [
  ("schema" : jstr, VStr MEMORY_DRIVE_HEALTH_SCHEMA); ("metrics" : jstr, VObj (nine_value nine));
  ("privacy_boundaries" : jstr, privacyBoundaries); ("claim_boundaries" : jstr, healthClaimBoundaries)].

Definition scanInputs (i : health_inputs) (nine : nine_metrics) : list jsval :=
  reportProxy nine :: map artifact_summary (hi_artifacts i)
    ++ (if truthy (hi_benchmark i) then [hi_benchmark i] else [])
    ++ (if truthy (hi_connector i) then [hi_connector i] else []).

(** The weighted average of the scores, capped by the worst status and rounded. *)
Definition weightedAverage (metrics : metric_name -> metric) : jsnum :=
  let weightedSum := foldl (λ sum name, num_plus sum (num_times (m_score (metrics name)) (NInt (HEALTH_METRIC_WEIGHTS name))))
                       (NInt 0) HEALTH_METRIC_NAMES in
  let totalWeight := foldl (λ sum name, num_plus sum (NInt (HEALTH_METRIC_WEIGHTS name))) (NInt 0) HEALTH_METRIC_NAMES in
  if num_ltb (NInt 0) totalWeight then num_quot weightedSum totalWeight else NInt 0.

Definition has_status (metrics : metric_name -> metric) (s : health_status) : bool :=
  existsb (λ name, bool_decide (m_status (metrics name) = s)) HEALTH_METRIC_NAMES.

Definition overallScore (metrics : metric_name -> metric) : jsnum :=
  let average := weightedAverage metrics in
  num_round (if has_status metrics Critical then num_min average (NInt 49)
             else if has_status metrics Degraded then num_min average (NInt 70)
             else average).

Definition recommendedActions (metrics : metric_name -> metric) : list jstr :=
  let actions := foldl (λ out action, if mem_str action out then out else out ++ [action]) []
                   (flat_map (λ name, m_actions (metrics name)) HEALTH_METRIC_NAMES) in
  match actions with [] => ["Keep normal monitoring cadence." : jstr] | _ => actions end.

Definition blockingReasons (metrics : metric_name -> metric) : list jstr :=
  let status name := m_status (metrics name) in
  let critical name := bool_decide (status name = Critical) in
  when (negb (is_healthy (status LeakageScan))) "leakage_scan.status is not healthy"
  ++ when (critical TombstoneRisk) "tombstone_risk.status is critical"
  ++ when (critical SyncForkRisk) "sync_fork_risk.status is critical"
  ++ (if critical StaleDerivedArtifacts || bool_decide (status StaleDerivedArtifacts = Degraded)
      then [("stale_derived_artifacts.status is " : jstr) +s+ status_text (status StaleDerivedArtifacts)] else [])
  ++ when (critical ReceiptCoverage) "receipt_coverage.status is critical"
  ++ when (critical RetrievalHitRate) "retrieval_hit_rate.status is critical".

Record health_refs := {
  hr_drive : jstr;
  hr_namespace : jstr;
  hr_policy : jstr
}.

Definition healthRefs (i : health_inputs) : res health_refs :=
  let id k : jstr * jsval := (k, fget (hi_identity i) k) in
  let! drive := healthDigest (VObj [id "vault_id"; id "tenant_id"; id "subject_id"]) in
  let! namespace := healthDigest (VObj [id "tenant_id"; id "subject_id"; id "policy_id"]) in
  let! policy := healthDigest (VObj (hi_policy i)) in
  Ok {| hr_drive := "drive_" +s+ drive; hr_namespace := "namespace_" +s+ namespace;
        hr_policy := "memory_health_policy_" +s+ policy |}.

Definition health_connector_count (i : health_inputs) : res jsnum :=
  if truthy (hi_connector i)
  then nonNegativeInt (summary_field (hi_connector i) "connector_count" "connectorCount") else Ok (NInt 0).

Definition proofNetworkReady (i : health_inputs) (nine : nine_metrics) (metrics : metric_name -> metric)
    (connectorCount : jsnum) (artifactRoot : obj) : jsval :=
  let reasons := blockingReasons metrics in
  VObj [
    ("eligible_for_anchor_batch" : jstr, VBool (length reasons =? 0)%nat);
    ("blocking_reasons" : jstr, VArr (value_set (map VStr reasons)));
    ("public_payload_only" : jstr, VBool true);
    ("suggested_anchor_fields" : jstr, VObj ([
       ("artifact_type" : jstr, vstr "memory_drive_health_report");
       ("artifact_schema" : jstr, VStr MEMORY_DRIVE_HEALTH_SCHEMA);
       ("source_root" : jstr, VStr (("memory_root_" : jstr) +s+ to_str (hi_roots i).1));
       ("counts" : jstr, VObj [
          ("active_ref_count" : jstr, vnat (length (hi_active i)));
          ("scanned_artifact_count" : jstr, vnat (length (scanInputs i nine)));
          ("connector_count" : jstr, VNum connectorCount)])] ++ artifactRoot))].

(** The report, with the artifact root among the anchor fields once it is known. *)
Definition reportCore (i : health_inputs) (nine : nine_metrics) (leakage : metric) (refs : health_refs)
    (connectorCount : jsnum) (artifactRoot : obj) : obj :=
  let metrics := metric_of nine leakage in
  let score := overallScore metrics in [
    ("schema" : jstr, VStr MEMORY_DRIVE_HEALTH_SCHEMA); ("created_at" : jstr, VStr (hi_created_at i));
    ("drive_ref" : jstr, VStr (hr_drive refs)); ("namespace_ref" : jstr, VStr (hr_namespace refs));
    ("source_root" : jstr, VStr (("memory_root_" : jstr) +s+ to_str (hi_roots i).1));
    ("policy_ref" : jstr, VStr (hr_policy refs));
    ("overall_status" : jstr, VStr (status_text (statusFromScore score))); ("overall_score" : jstr, VNum score);
    ("transaction_submitted" : jstr, VBool false); ("raw_memory_on_chain" : jstr, VBool false);
    ("privacy_boundaries" : jstr, privacyBoundaries);
    ("roots" : jstr, VObj [("active_set_root" : jstr, (hi_roots i).1); ("receipt_log_root" : jstr, (hi_roots i).2)]);
    ("metrics" : jstr, VObj (nine_value nine ++ [("leakage_scan" : jstr, metric_value leakage)]));
    ("recommended_actions" : jstr, VArr (map VStr (recommendedActions metrics)));
    ("claim_boundaries" : jstr, healthClaimBoundaries);
    ("proof_network_ready" : jstr, proofNetworkReady i nine metrics connectorCount artifactRoot)].

Definition createMemoryDriveHealthReport (clock : jstr) (vault : vault_arg) (args : obj) : res jsval :=
  let! i := healthInputs clock vault args in
  let! nine := nineMetrics i in
  let! leakage := computeLeakageScan (reportProxy nine) (scanInputs i nine) in
  let! refs := healthRefs i in
  let! connectorCount := health_connector_count i in
  let core := reportCore i nine leakage refs connectorCount in
  let! digest := healthDigest (VObj (core [])) in
  let reportRef := VStr (("health_report_" : jstr) +s+ digest) in
  Ok (VObj (core [("artifact_root" : jstr, reportRef)] ++ [("report_ref" : jstr, reportRef)])).
End health.
