(* ===== verification/HealthSafety.v ===== *)
(** * Properties of the health reports

    Scores lie in the bands of their statuses; what is eligible for an anchor batch shows
    nothing private, and what it serves names no tombstone and no other root. *)

From S2P Require Import Prelude JsValue Doubles Rounding RoundingFacts Regex Canonical Hashing Merkle Dates PublicSafe VaultPublic Vault Samples Settlement Passport Health.

(** ** Bands *)
Lemma clamp01_reads value : reads_to 1 (clamp01 value).
Proof.
  unfold clamp01. destruct (num_is_finite value) eqn:Hf; [|apply int_reads_to; lia]. cbn [negb].
  destruct (num_ltb value (NInt 0)) eqn:H0; [apply int_reads_to; lia|].
  destruct (num_ltb (NInt 1) value) eqn:H1; [apply int_reads_to; lia|].
  destruct value as [z| |m e| |]; try done; unfold num_ltb, dec_ltb in H0, H1; cbn [num_decimal fst snd] in H0, H1;
    apply Z.ltb_ge in H0, H1.
  - rewrite Z.min_id, !Z.sub_diag in *. simpl in *. apply int_reads_to; lia.
  - split; [done|]. split; [by left|]. unfold num_double. simpl. split; [by right|]. simpl. lia.
  - assert (0 <= m /\ if 0 <=? e then m * 10 ^ e <= 1 else m <= 1 * 10 ^ (- e))%Z as [Hm Hb].
    { destruct (Z.leb_spec 0 e).
      - rewrite Z.min_r in H0 by lia. rewrite Z.min_l in H1 by lia. rewrite !Z.sub_0_r in *. pose proof (pow10_pos e ltac:(done)).
        change (10 ^ 0)%Z with 1%Z in *. split; nia.
      - rewrite Z.min_l in H0 by lia. rewrite Z.min_r in H1 by lia. rewrite !Z.sub_diag in *. rewrite Z.sub_0_l in *.
        change (10 ^ 0)%Z with 1%Z in *. lia. }
    assert (num_is_neg (NDec m e) = false) as Hn by (by apply Z.ltb_ge).
    split; [done|]. split; [by right|]. rewrite num_double_reads by auto. by apply dec_fraction_in.
Qed.

Definition band (s : health_status) : Z * Z :=
  match s with Healthy => (90, 100) | Watch => (75, 89) | Degraded => (50, 74) | Critical => (0, 49) end%Z.

(** A score with the band of a status: an integer, or [-0] as the lowest one. *)
Definition in_band (s : health_status) (score : jsnum) : Prop :=
  s = Critical /\ score = NNegZero \/ exists z, score = NInt z /\ ((band s).1 <= z <= (band s).2)%Z.

Lemma bandScore_in s goodness : in_band s (bandScore s goodness).
Proof.
  unfold bandScore. pose proof (clamp01_reads goodness) as Hr.
  assert (forall k, (0 < k < 128)%Z -> num_round (num_times (NInt k) (clamp01 goodness)) = NNegZero \/
            exists z, num_round (num_times (NInt k) (clamp01 goodness)) = NInt z /\ (0 <= z <= k)%Z) as Hround.
  { intros k Hk. destruct (num_round_in 0 k _ ltac:(done) (num_times_in k _ Hk Hr)) as [(-> & _)|Hz]; auto. }
  assert (forall base k, (0 < base)%Z -> (0 < k < 128)%Z -> (base + k <= 100)%Z -> exists z,
            num_plus (NInt base) (num_round (num_times (NInt k) (clamp01 goodness))) = NInt z /\ (base <= z <= base + k)%Z) as Hplus.
  { intros base k Hbase Hk Hle. destruct (Hround k Hk) as [->|(z & -> & Hz)]; [exists base; simpl; split; [done|lia]|].
    exists (base + z)%Z. split; [|lia]. simpl. unfold int_result. by rewrite (proj2 (Z.ltb_lt _ _)) by lia. }
  unfold in_band. cbv zeta. destruct s; cbn [band fst snd].
  - right. by apply (Hplus 90 10)%Z.
  - right. by apply (Hplus 75 14)%Z.
  - right. by apply (Hplus 50 24)%Z.
  - destruct (Hround 49%Z ltac:(done)) as [->|Hz]; [by left|by right].
Qed.

Lemma statusFromScore_band s score : in_band s score -> statusFromScore score = s.
Proof.
  assert (forall z k, num_le (NInt k) (NInt z) = (k <=? z)%Z) as Hle.
  { intros z k. unfold num_le, num_ltb, dec_ltb. simpl. rewrite !Z.mul_1_r. by rewrite Z.ltb_antisym, negb_involutive. }
  intros [[-> ->]|(z & -> & Hz)]; [done|]. unfold statusFromScore. rewrite !Hle.
  destruct s; simpl in Hz; repeat (case_match; try done);
    repeat match goal with H : (_ <=? _)%Z = true |- _ => apply Z.leb_le in H | H : (_ <=? _)%Z = false |- _ => apply Z.leb_gt in H end;
    lia.
Qed.

(** ** The weighted average *)
Definition score_int (score : jsnum) : Z := match score with NInt z => z | _ => 0%Z end.

Lemma products_ok :
  forallb (λ w, forallb (λ n, bool_decide (num_times (NInt (Z.of_nat n)) (NInt w) = NInt (Z.of_nat n * w)))
                  (List.seq 0 101)) [6; 8; 10; 12; 14]%Z = true.
Proof. vm_compute. reflexivity. Qed.

Lemma weight_listed name : In (HEALTH_METRIC_WEIGHTS name) [6; 8; 10; 12; 14]%Z.
Proof. destruct name; simpl; tauto. Qed.

Lemma in_band_int s score : in_band s score -> ((band s).1 <= score_int score <= (band s).2)%Z /\ (0 <= score_int score <= 100)%Z.
Proof. intros [[-> ->]|(z & -> & Hz)]; [done|]. simpl. split; [done|]. destruct s; simpl in Hz; lia. Qed.

Lemma num_plus_small x y : (0 <= x)%Z -> (0 <= y)%Z -> (x + y < 2 ^ 53)%Z -> num_plus (NInt x) (NInt y) = NInt (x + y).
Proof. intros. simpl. unfold int_result. by rewrite (proj2 (Z.ltb_lt _ _)) by lia. Qed.

(** A weighted score added to a sum of integers. *)
Lemma add_weighted sum s score name :
  in_band s score -> (0 <= sum < 2 ^ 50)%Z ->
  num_plus (NInt sum) (num_times score (NInt (HEALTH_METRIC_WEIGHTS name)))
  = NInt (sum + score_int score * HEALTH_METRIC_WEIGHTS name).
Proof.
  intros Hb Hs. pose proof (weight_listed name) as Hw. pose proof products_ok as Hp. rewrite forallb_forall in Hp.
  specialize (Hp _ Hw). rewrite forallb_forall in Hp.
  assert (0 < HEALTH_METRIC_WEIGHTS name < 15)%Z as Hwb by by destruct name.
  destruct (in_band_int _ _ Hb) as [_ Hz]. destruct Hb as [[-> ->]|(z & -> & _)]; simpl in Hz.
  - assert (num_times NNegZero (NInt (HEALTH_METRIC_WEIGHTS name)) = NNegZero) as -> by by destruct name.
    simpl. by rewrite Z.add_0_r.
  - specialize (Hp (Z.to_nat z) ltac:(apply in_seq; lia)). apply bool_decide_eq_true in Hp. rewrite Z2Nat.id in Hp by lia.
    rewrite Hp. cbn [score_int]. apply num_plus_small; nia.
Qed.

Definition weighted (metrics : metric_name -> metric) (names : list metric_name) : Z :=
  foldr (λ name sum, (score_int (m_score (metrics name)) * HEALTH_METRIC_WEIGHTS name + sum)%Z) 0%Z names.

Lemma weighted_sum metrics names sum :
  (forall name, in_band (m_status (metrics name)) (m_score (metrics name))) ->
  (0 <= sum)%Z -> (sum + 1500 * Z.of_nat (length names) < 2 ^ 50)%Z ->
  foldl (λ sum name, num_plus sum (num_times (m_score (metrics name)) (NInt (HEALTH_METRIC_WEIGHTS name)))) (NInt sum) names
  = NInt (sum + weighted metrics names).
Proof.
  intros Hb. revert sum. induction names as [|name names IH]; intros sum Hs Hl; cbn [foldl]; [by rewrite Z.add_0_r|].
  cbn [length] in Hl. unfold weighted. cbn [foldr]. fold (weighted metrics names). destruct (in_band_int _ _ (Hb name)) as [_ Hz].
  assert (0 < HEALTH_METRIC_WEIGHTS name < 15)%Z as Hw by by destruct name.
  rewrite (add_weighted sum (m_status (metrics name))) by (done || lia). rewrite IH by nia. f_equal. lia.
Qed.

Lemma weighted_bounds metrics lo hi :
  (forall name, (lo <= score_int (m_score (metrics name)) <= hi)%Z) ->
  (100 * lo <= weighted metrics HEALTH_METRIC_NAMES <= 100 * hi)%Z.
Proof.
  intros H. unfold weighted, HEALTH_METRIC_NAMES. cbn [foldr HEALTH_METRIC_WEIGHTS].
  pose proof (H Freshness). pose proof (H DuplicateRate). pose proof (H TombstoneRisk). pose proof (H StaleDerivedArtifacts).
  pose proof (H RetrievalHitRate). pose proof (H TokenReduction). pose proof (H LeakageScan). pose proof (H ReceiptCoverage).
  pose proof (H ConnectorHealth). pose proof (H SyncForkRisk). lia.
Qed.

Definition banded (m : metric) : Prop := in_band (m_status m) (m_score m).

Lemma average_in metrics lo :
  (forall name, banded (metrics name)) -> (0 <= lo)%Z ->
  (forall name, (lo <= score_int (m_score (metrics name)))%Z) -> num_in lo 100 (weightedAverage metrics).
Proof.
  intros Hb Hlo Hs. unfold weightedAverage. rewrite weighted_sum by (done || lia). rewrite Z.add_0_l.
  assert (foldl (λ sum name, num_plus sum (NInt (HEALTH_METRIC_WEIGHTS name))) (NInt 0) HEALTH_METRIC_NAMES = NInt 100) as ->
    by (vm_compute; reflexivity).
  change (num_ltb (NInt 0) (NInt 100)) with true. cbv iota.
  destruct (weighted_bounds metrics lo 100) as [H1 H2].
  { intros name. split; [done|]. by apply (in_band_int _ _ (Hb name)). }
  apply num_quot_in; lia.
Qed.

(** The integer of a rounded number between integers, [-0] as [0]. *)
Lemma rounded_in lo hi n : (0 <= lo)%Z -> num_in lo hi n ->
  (num_round n = NNegZero \/ num_round n = NInt (score_int (num_round n))) /\ (lo <= score_int (num_round n) <= hi)%Z.
Proof. intros Hlo H. destruct (num_round_in lo hi n Hlo H) as [(-> & -> & ?)|(z & -> & ?)]; simpl; auto. Qed.

Lemma has_status_spec metrics s : has_status metrics s = true <-> exists name, m_status (metrics name) = s.
Proof.
  unfold has_status. rewrite existsb_exists. split.
  - intros (name & _ & H). exists name. by apply bool_decide_eq_true in H.
  - intros (name & H). exists name. split; [destruct name; simpl; tauto|by apply bool_decide_eq_true].
Qed.

(** The overall score: an integer up to [100], at most [49] with a critical metric and at
    most [70] with a degraded one, and at least [90] when every metric is healthy. *)
Lemma overallScore_in metrics :
  (forall name, banded (metrics name)) ->
  let score := overallScore metrics in
  let z := score_int score in
  (score = NNegZero \/ score = NInt z) /\ (0 <= z <= 100)%Z
  /\ (forall name, m_status (metrics name) = Critical -> z <= 49)%Z
  /\ (forall name, m_status (metrics name) = Degraded -> z <= 70)%Z
  /\ ((forall name, m_status (metrics name) = Healthy) -> 90 <= z)%Z.
Proof.
  intros Hb. cbv zeta. unfold overallScore.
  assert (num_in 0 100 (weightedAverage metrics)) as Ha.
  { apply average_in; [done|done|]. intros name. by apply (in_band_int _ _ (Hb name)). }
  destruct (has_status metrics Critical) eqn:Hc; [|destruct (has_status metrics Degraded) eqn:Hd].
  - destruct (rounded_in 0 49 (num_min (weightedAverage metrics) (NInt 49)) ltac:(done)) as [H1 H2].
    { by apply (num_min_in 0 100 49). }
    split; [done|]. split; [split; [apply H2|eapply Z.le_trans; [apply H2|done]]|]. split; [intros; apply H2|]. split; [intros; eapply Z.le_trans; [apply H2|done]|].
    intros H. apply has_status_spec in Hc as (name & Hn). by rewrite H in Hn.
  - destruct (rounded_in 0 70 (num_min (weightedAverage metrics) (NInt 70)) ltac:(done)) as [H1 H2].
    { by apply (num_min_in 0 100 70). }
    split; [done|]. split; [split; [apply H2|eapply Z.le_trans; [apply H2|done]]|]. split.
    { intros name Hn. assert (has_status metrics Critical = true) as E by (apply has_status_spec; eauto). by rewrite Hc in E. }
    split; [intros; apply H2|]. intros H. apply has_status_spec in Hd as (name & Hn). by rewrite H in Hn.
  - destruct (rounded_in 0 100 _ ltac:(done) Ha) as [H1 H2]. split; [done|]. split; [done|].
    assert (forall s name, m_status (metrics name) = s -> has_status metrics s = true) as Hh by (intros; apply has_status_spec; eauto).
    split; [intros name Hn; apply Hh in Hn; by rewrite Hc in Hn|]. split; [intros name Hn; apply Hh in Hn; by rewrite Hd in Hn|].
    intros H. apply (rounded_in 90 100 (weightedAverage metrics) ltac:(done)). apply average_in; [done|done|].
    intros name. destruct (in_band_int _ _ (Hb name)) as [Hz _]. rewrite H in Hz. apply Hz.
Qed.

(** ** The metrics *)
Section metrics.
Context {C : Crypto} {Hst : Host} {Loc : Locale} {P : Platform}.

Lemma healthMetric_ok name status score observed thresholds actions m :
  healthMetric name status score observed thresholds actions = Ok m -> m_status m = status /\ m_score m = score.
Proof. unfold healthMetric. intros H. by inv_res. Qed.

Lemma healthMetric_band name status goodness observed thresholds actions m :
  healthMetric name status (bandScore status goodness) observed thresholds actions = Ok m -> banded m.
Proof. intros [Hs Hz]%healthMetric_ok. unfold banded. rewrite Hs, Hz. apply bandScore_in. Qed.

Lemma healthMetric_const name z observed thresholds actions m :
  healthMetric name Healthy (NInt z) observed thresholds actions = Ok m -> (90 <= z <= 100)%Z -> banded m.
Proof. intros [Hs Hz]%healthMetric_ok ?. unfold banded. rewrite Hs, Hz. right. by exists z. Qed.

Ltac banded H :=
  inv_res; first [by apply healthMetric_band in H | by apply healthMetric_const in H].

Lemma computeFreshness_band records policy now m : computeFreshness records policy now = Ok m -> banded m.
Proof. unfold computeFreshness. cbv zeta. intros H. destruct (_ =? _)%nat; banded H. Qed.

Lemma computeDuplicateRate_band records policy m : computeDuplicateRate records policy = Ok m -> banded m.
Proof. unfold computeDuplicateRate. cbv zeta. intros H. banded H. Qed.

Lemma computeTombstoneRisk_band ts ds artifacts replay policy m :
  computeTombstoneRisk ts ds artifacts replay policy = Ok m -> banded m.
Proof. unfold computeTombstoneRisk. cbv zeta. intros H. banded H. Qed.

Lemma computeStale_band artifacts root now policy m :
  computeStaleDerivedArtifacts artifacts root now policy = Ok m -> banded m.
Proof. unfold computeStaleDerivedArtifacts. cbv zeta. intros H. banded H. Qed.

Lemma computeRetrieval_band summary policy m : computeRetrievalHitRate summary policy = Ok m -> banded m.
Proof. unfold computeRetrievalHitRate. cbv zeta. intros H. destruct (negb _); banded H. Qed.

Lemma computeTokenReduction_band active provided selected passed policy m :
  computeTokenReduction active provided selected passed policy = Ok m -> banded m.
Proof. unfold computeTokenReduction. cbv zeta. intros H. destruct (negb provided); banded H. Qed.

Lemma computeReceiptCoverage_band addrs receipts anchor policy m :
  computeReceiptCoverage addrs receipts anchor policy = Ok m -> banded m.
Proof. unfold computeReceiptCoverage. cbv zeta. intros H. destruct (_ =? _)%nat; banded H. Qed.

Lemma computeConnectorHealth_band summary policy m : computeConnectorHealth summary policy = Ok m -> banded m.
Proof. unfold computeConnectorHealth. cbv zeta. intros H. destruct (negb _); banded H. Qed.

Lemma computeSyncForkRisk_band replicas root policy m : computeSyncForkRisk replicas root policy = Ok m -> banded m.
Proof. unfold computeSyncForkRisk. cbv zeta. intros H. destruct (_ =? _)%nat; banded H. Qed.

Lemma computeLeakageScan_band body inputs m : computeLeakageScan body inputs = Ok m -> banded m.
Proof.
  unfold computeLeakageScan. cbv zeta. intros H. apply res_bind_ok in H as (refs & _ & H).
  destruct (_ || _); apply healthMetric_ok in H as [Hs Hz]; unfold banded; rewrite Hs, Hz; [apply bandScore_in|].
  right. by exists 100%Z.
Qed.

Lemma nineMetrics_band i nine leakage name :
  nineMetrics i = Ok nine -> banded leakage -> banded (metric_of nine leakage name).
Proof.
  unfold nineMetrics. cbv zeta. intros H Hl. inv_res.
  destruct name; cbn [metric_of n_freshness n_duplicate_rate n_tombstone_risk n_stale_derived_artifacts n_retrieval_hit_rate
    n_token_reduction n_receipt_coverage n_connector_health n_sync_fork_risk]; [..|done| | |];
    eauto using computeFreshness_band, computeDuplicateRate_band, computeTombstoneRisk_band, computeStale_band,
      computeRetrieval_band, computeTokenReduction_band, computeReceiptCoverage_band, computeConnectorHealth_band,
      computeSyncForkRisk_band.
Qed.
End metrics.

(** ** The scan *)

(** A text that looks like a secret, or an object with a private key. *)
Definition exposing (w : jsval) : bool :=
  match w with
  | VStr s => re_search HEALTH_SECRET_VALUE_RE s
  | VObj fields | VInst _ fields =>
      existsb (λ kv : jstr * jsval, is_forbidden_health_key kv.1 && negb (mem_str kv.1 HEALTH_SAFE_KEYS)) fields
  | _ => false
  end.

Definition private_free (v : jsval) : Prop := forall w, occurs w v -> exposing w = false.

Lemma hits_app_none a b : hits_app a b = no_hits <-> a = no_hits /\ b = no_hits.
Proof.
  destruct a as [ka sa], b as [kb sb]. unfold hits_app, no_hits. simpl. split.
  - intros [= Hk Hs]. apply app_nil in Hk as [-> ->]. by apply app_nil in Hs as [-> ->].
  - by intros [[= -> ->] [= -> ->]].
Qed.

Definition scan_items (path : jstr) : nat -> list jsval -> scan_hits :=
  fix go (index : nat) (items : list jsval) : scan_hits :=
    match items with
    | [] => no_hits
    | item :: items' => hits_app (healthScan item (path +s+ "[" +s+ nat_str index +s+ "]")) (go (S index) items')
    end.

Definition scan_fields (path : jstr) : list (jstr * jsval) -> scan_hits :=
  fix go (fields : list (jstr * jsval)) : scan_hits :=
    match fields with
    | [] => no_hits
    | kv :: fields' =>
        let childPath := child_path path kv.1 in
        hits_app (if is_forbidden_health_key kv.1 && negb (mem_str kv.1 HEALTH_SAFE_KEYS) then hits [childPath] [] else no_hits)
          (hits_app (healthScan kv.2 childPath) (go fields'))
    end.

Lemma scan_items_none path index items :
  Forall (λ x, forall path, healthScan x path = no_hits <-> private_free x) items ->
  scan_items path index items = no_hits <-> Forall private_free items.
Proof.
  intros H. revert index. induction H as [|x items Hx _ IH]; intros index; [done|].
  cbn [scan_items]. by rewrite hits_app_none, IH, Forall_cons, Hx.
Qed.

Lemma scan_fields_none path fields :
  Forall (λ kv : jstr * jsval, forall path, healthScan kv.2 path = no_hits <-> private_free kv.2) fields ->
  scan_fields path fields = no_hits <->
  existsb (λ kv : jstr * jsval, is_forbidden_health_key kv.1 && negb (mem_str kv.1 HEALTH_SAFE_KEYS)) fields = false
  /\ Forall (λ kv : jstr * jsval, private_free kv.2) fields.
Proof.
  intros H. induction H as [|kv fields Hx _ IH]; [done|].
  cbn [scan_fields existsb]. cbv zeta. rewrite !hits_app_none, IH, Forall_cons, Hx, orb_false_iff.
  assert ((if is_forbidden_health_key kv.1 && negb (mem_str kv.1 HEALTH_SAFE_KEYS)
           then hits [child_path path kv.1] [] else no_hits) = no_hits <->
          is_forbidden_health_key kv.1 && negb (mem_str kv.1 HEALTH_SAFE_KEYS) = false) as ->.
  { by destruct (is_forbidden_health_key kv.1 && negb (mem_str kv.1 HEALTH_SAFE_KEYS)). }
  naive_solver.
Qed.

Lemma healthScan_none v path : healthScan v path = no_hits <-> private_free v.
Proof.
  unfold private_free.
  revert path. induction v as [| |b|n|s| |l IH|fs IH|t fs IH|fs IH|l IH|t b|k t] using jsval_ind; intros path.
  all: try (rewrite occurs_atom_iff; [|done|naive_solver]; done).
  - rewrite occurs_atom_iff by (done || naive_solver). cbn [healthScan exposing]. by destruct (re_search HEALTH_SECRET_VALUE_RE s).
  - rewrite occurs_arr_iff. change (healthScan (VArr l) path) with (scan_items path 0 l).
    rewrite scan_items_none by done. unfold private_free. naive_solver.
  - rewrite occurs_obj_iff. change (healthScan (VObj fs) path) with (scan_fields path fs). by rewrite scan_fields_none.
  - rewrite occurs_inst_iff. change (healthScan (VInst t fs) path) with (scan_fields path fs). by rewrite scan_fields_none.
Qed.

Lemma private_free_obj fields :
  existsb (λ kv : jstr * jsval, is_forbidden_health_key kv.1 && negb (mem_str kv.1 HEALTH_SAFE_KEYS)) fields = false ->
  Forall (λ kv : jstr * jsval, private_free kv.2) fields -> private_free (VObj fields).
Proof. intros Hk Hf. unfold private_free. rewrite occurs_obj_iff. naive_solver. Qed.

Lemma scan_all_none inputs : scan_all inputs = no_hits <-> Forall private_free inputs.
Proof.
  unfold scan_all. induction inputs as [|v inputs IH]; [done|]. cbn [foldr].
  by rewrite hits_app_none, IH, healthScan_none, Forall_cons.
Qed.

Section reports.
Context {C : Crypto} {L : CryptoLaws C} {Hst : Host} {Loc : Locale} {P : Platform}.

(** ** What a status rules out *)
Lemma first_status_head b s cs otherwise status :
  first_status ((Ok b, s) :: cs) otherwise = Ok status -> b = true /\ status = s \/ b = false /\ first_status cs otherwise = Ok status.
Proof. cbn [first_status res_bind]. destruct b; [intros [= ->]|]; auto. Qed.

Lemma filter_res_in {A} (f : A -> res bool) l l' : filter_res f l = Ok l' ->
  Forall (λ x, exists b, f x = Ok b /\ (b = true -> x ∈ l')) l.
Proof.
  revert l'. induction l as [|x l IH]; intros l' H; [by constructor|]. cbn [filter_res] in H.
  apply res_bind_ok in H as (b & Hb & H). apply res_bind_ok in H as (rest & Hr & H). apply Ok_inj in H as <-.
  constructor.
  - exists b. split; [done|]. intros ->. by left.
  - eapply Forall_impl; [exact (IH _ Hr)|]. intros y (b' & Hb' & Hin). exists b'. split; [done|]. intros Ht.
    destruct b; [right|]; auto.
Qed.

Lemma no_match {A} (f : A -> bool) l x : length (List.filter f l) = 0 -> In x l -> f x = false.
Proof.
  intros Hl Hx. apply length_zero_iff_nil in Hl. destruct (f x) eqn:E; [|done].
  assert (In x (List.filter f l)) as Hin by by apply List.filter_In. by rewrite Hl in Hin.
Qed.

(** No artifact that is served names a tombstoned address unless the risk is critical. *)
Lemma tombstone_risk_clean ts ds artifacts replay policy m :
  computeTombstoneRisk ts ds artifacts replay policy = Ok m -> m_status m <> Critical ->
  Forall (λ a, d_serving a = true -> mentions ts a = Ok false) artifacts.
Proof.
  unfold computeTombstoneRisk. cbv zeta. intros H Hm.
  apply res_bind_ok in H as (mentioning & Hf & H). apply res_bind_ok in H as (window & _ & H).
  apply res_bind_ok in H as (status & Hs & H). apply healthMetric_ok in H as [Hms _].
  apply first_status_head in Hs as [[_ ->]|[H0 _]]; [done|]. apply Nat.ltb_ge in H0.
  eapply Forall_impl; [exact (filter_res_in _ _ _ Hf)|]. intros a (b & Hb & Hin) Hserv.
  destruct b; [|done]. specialize (Hin eq_refl). apply list_elem_of_In in Hin.
  assert (d_serving a = false) by (apply (no_match d_serving mentioning); [lia|done]). congruence.
Qed.

(** No artifact that is served is stale unless the status is degraded. *)
Lemma stale_artifacts_clean artifacts root now policy m :
  computeStaleDerivedArtifacts artifacts root now policy = Ok m -> m_status m <> Degraded ->
  Forall (λ a, d_serving a = true -> is_stale root a = false) artifacts.
Proof.
  unfold computeStaleDerivedArtifacts. cbv zeta. intros H Hm. apply res_bind_ok in H as (lags & Hl & H).
  apply healthMetric_ok in H as [Hms _]. set (stale := List.filter (λ al : derived * jsnum, is_stale root al.1) (combine artifacts lags)) in *.
  rewrite Hms in Hm. revert Hm. destruct (Nat.ltb_spec 0 (length (List.filter (λ al : derived * jsnum, d_serving al.1) stale))) as [|Hz]; intros Hm; [by destruct Hm|].
  apply map_res_ok in Hl. apply Forall_forall. intros a Ha Hserv. destruct (is_stale root a) eqn:E; [|done]. exfalso.
  assert (exists lag, In (a, lag) (combine artifacts lags)) as (lag & Hin).
  { clear - Hl Ha. induction Hl as [|x y l ys Hxy _ IH]; [by apply elem_of_nil in Ha|].
    apply elem_of_cons in Ha as [->|Ha]; [exists y; by left|]. destruct (IH Ha) as (lag & ?). exists lag. by right. }
  assert (In (a, lag) stale) as Hs by (apply List.filter_In; by split).
  assert (d_serving a = false); [|congruence].
  apply (no_match (λ al : derived * jsnum, d_serving al.1) stale (a, lag)); [lia|done].
Qed.

(** A retrieval that is not critical was not measured, or it probed and returned nothing
    that is tombstoned. *)
Lemma retrieval_clean summary policy m :
  computeRetrievalHitRate summary policy = Ok m -> m_status m <> Critical -> truthy summary = true ->
  truthy (summary_field summary "returned_tombstoned_refs" "returnedTombstonedRefs") = false.
Proof.
  unfold computeRetrievalHitRate. cbv zeta. intros H Hm Ht. rewrite Ht in H. cbn [negb] in H.
  do 5 (apply res_bind_ok in H as (? & _ & H)). apply res_bind_ok in H as (status & Hs & H).
  apply healthMetric_ok in H as [Hms _]. apply first_status_head in Hs as [[_ ->]|[H0 _]]; [done|].
  by apply orb_false_iff in H0 as [? _].
Qed.

Lemma leakage_healthy body inputs m :
  computeLeakageScan body inputs = Ok m -> m_status m = Healthy <-> private_free body /\ Forall private_free inputs.
Proof.
  unfold computeLeakageScan. cbv zeta. intros H. apply res_bind_ok in H as (refs & _ & H). apply healthMetric_ok in H as [Hs _].
  rewrite Hs. transitivity (scan_all (inputs ++ [body]) = no_hits).
  - destruct (scan_all (inputs ++ [body])) as [ks ss]. cbn [h_keys h_secret]. unfold no_hits.
    destruct ks, ss; simpl; naive_solver.
  - rewrite scan_all_none, Forall_app, Forall_singleton. naive_solver.
Qed.

(** The characters of the evidence of the scan: hexadecimal digits and those of the prefixes. *)
Definition EVIDENCE_ALPHABET : jstr := "0123456789abcdefhsnklg_:".

Lemma evidence_text_free root : Forall (λ c, c ∈ EVIDENCE_ALPHABET) root -> private_free (VStr root).
Proof.
  intros H. apply (proj1 (healthScan_none _ [])). cbn [healthScan].
  rewrite (search_needs EVIDENCE_ALPHABET); [done|vm_compute; reflexivity|done].
Qed.

Lemma scan_evidence observed evidence : healthEvidenceRef LeakageScan observed = Ok evidence -> private_free (VStr evidence).
Proof.
  unfold healthEvidenceRef, healthDigest, sha_root, sha256_text. intros H. inv_res. apply evidence_text_free. rewrite !Forall_app. split_and!.
  1,2,3: apply in_alphabet; vm_compute; reflexivity.
  eapply Forall_impl; [apply sha256_hex|]. intros c. apply hex_alphabet. vm_compute. reflexivity.
Qed.

(** A scan that is healthy found nothing, and its metric has nothing private itself. *)
Lemma leakage_metric_free body inputs m :
  computeLeakageScan body inputs = Ok m -> m_status m = Healthy ->
  private_free (metric_value m) /\
  vget (m_observed m) "forbidden_payload_key_hits" = vnat 0 /\ vget (m_observed m) "secret_value_hits" = vnat 0.
Proof.
  unfold computeLeakageScan. cbv zeta. intros H Hm. apply res_bind_ok in H as (refs & Hrefs & H).
  destruct (_ || _) eqn:E.
  { apply healthMetric_ok in H as [Hs _]. by rewrite Hs in Hm. }
  injection Hrefs as <-. unfold healthMetric in H. apply res_bind_ok in H as (evidence & He & H). apply Ok_inj in H as <-.
  apply scan_evidence in He. apply orb_false_iff in E as [E1%Nat.ltb_ge E2%Nat.ltb_ge].
  cbn [m_observed]. assert (length (h_keys (scan_all (inputs ++ [body]))) = 0) as -> by lia.
  assert (length (h_secret (scan_all (inputs ++ [body]))) = 0) as -> by lia. split; [|done].
  apply private_free_obj; [vm_compute; reflexivity|]. cbn [m_status m_score m_observed m_thresholds m_evidence m_actions].
  assert (forall s : string, healthScan (VStr s) [] = no_hits -> private_free (VStr s)) as Hstr by (intros s; apply healthScan_none).
  assert (forall n, private_free (VNum n)) as Hnum by (intros n; by apply (proj1 (healthScan_none (VNum n) []))).
  assert (private_free (VArr [])) as Hnil by by apply (proj1 (healthScan_none (VArr []) [])).
  repeat constructor; cbn [snd]; try done.
  - apply Hstr. vm_compute. reflexivity.
  - apply private_free_obj; [vm_compute; reflexivity|]. repeat constructor; apply Hnum || apply Hnil.
  - apply private_free_obj; [vm_compute; reflexivity|]. repeat constructor; apply Hnum.
  - apply (proj1 (healthScan_none _ [])). change (healthScan (VArr [VStr evidence]) []) with (scan_items [] 0 [VStr evidence]).
    apply scan_items_none; apply Forall_singleton; [|exact He]. intros path. apply healthScan_none.
Qed.

(** A source root that is not stale is the current root. *)
Lemma seq_truthy a b : truthy a = true -> (a === b) = true -> a = b.
Proof.
  destruct a as [| |[]|n| | | | | | | | |], b as [| |[]|n'| | | | | | | | |]; try done; cbn [JsValue.seq].
  - intros Ht. destruct n as [[]| | | |], n' as [[]| | | |]; try done; cbn [num_seq]; intros H%bool_decide_eq_true; congruence.
  - intros _ H. apply str_eqb_eq in H. by subst.
  - intros _ [H1%bool_decide_eq_true H2%str_eqb_eq]%andb_true_iff. by subst.
Qed.

Lemma not_stale root a : is_stale root a = false -> truthy (d_source_root a) = true -> d_source_root a = root.
Proof.
  unfold is_stale. intros H Ht. rewrite Ht in H. cbn [andb] in H. apply seq_truthy; [done|]. by apply negb_false_iff.
Qed.

(** ** The report *)
Lemma report_made clock vault args report :
  createMemoryDriveHealthReport clock vault args = Ok report ->
  exists i nine leakage refs n digest,
    healthInputs clock vault args = Ok i /\ nineMetrics i = Ok nine /\
    computeLeakageScan (reportProxy nine) (scanInputs i nine) = Ok leakage /\
    let reportRef := VStr (("health_report_" : jstr) +s+ digest) in
    report = VObj (reportCore i nine leakage refs n [("artifact_root" : jstr, reportRef)] ++ [("report_ref" : jstr, reportRef)]).
Proof.
  unfold createMemoryDriveHealthReport. cbv zeta. intros H. inv_res.
  do 6 eexists. split; [eassumption|]. split; [eassumption|]. split; [eassumption|]. reflexivity.
Qed.

Lemma report_metric i nine leakage refs n root tail name :
  let report := VObj (reportCore i nine leakage refs n root ++ tail) in
  vget (vget report "metrics") (metric_key name) = metric_value (metric_of nine leakage name).
Proof. by destruct name. Qed.

Lemma report_overall i nine leakage refs n root tail :
  let report := VObj (reportCore i nine leakage refs n root ++ tail) in
  let score := overallScore (metric_of nine leakage) in
  vget report "overall_score" = VNum score /\ vget report "overall_status" = VStr (status_text (statusFromScore score)).
Proof. split; reflexivity. Qed.

Lemma report_eligible i nine leakage refs n root tail :
  let report := VObj (reportCore i nine leakage refs n root ++ tail) in
  vget (vget report "proof_network_ready") "eligible_for_anchor_batch"
  = VBool (length (blockingReasons (metric_of nine leakage)) =? 0)%nat.
Proof. reflexivity. Qed.

Lemma total_band score z :
  (score = NNegZero \/ score = NInt z) -> (0 <= z <= 100)%Z -> in_band (statusFromScore score) score.
Proof.
  assert (forall s, (band s).1 <= z <= (band s).2 -> in_band (statusFromScore (NInt z)) (NInt z))%Z as Hs.
  { intros s Hz. assert (in_band s (NInt z)) as Hb by (right; by exists z). by rewrite (statusFromScore_band s). }
  intros [->| ->] Hz; [by left|].
  destruct (Z.le_gt_cases z 49); [apply (Hs Critical); simpl; lia|].
  destruct (Z.le_gt_cases z 74); [apply (Hs Degraded); simpl; lia|].
  destruct (Z.le_gt_cases z 89); [apply (Hs Watch)|apply (Hs Healthy)]; simpl; lia.
Qed.

(** A score at or under a bound has one of the lower statuses. *)
Lemma band_below s score cap : in_band s score -> (score_int score <= cap)%Z -> ((band s).1 <= cap)%Z.
Proof. intros Hb Hc. destruct (in_band_int _ _ Hb) as [H _]. lia. Qed.

Lemma band_49 s : ((band s).1 <= 49)%Z -> s = Critical.
Proof. by destruct s. Qed.

Lemma band_70 s : ((band s).1 <= 70)%Z -> s = Critical \/ s = Degraded.
Proof. destruct s; try done; auto. Qed.

Lemma band_90 s : (90 <= (band s).2)%Z -> s = Healthy.
Proof. by destruct s. Qed.

(** C10 Every metric of a health report has a score in the band of its status, and so has
    the overall score, an integer from 0 to 100 (or [-0]).  The overall status is critical
    as soon as one metric is, critical or degraded as soon as one is degraded, and healthy
    when every metric is. *)
Theorem health_scores_banded clock vault args report :
  createMemoryDriveHealthReport clock vault args = Ok report ->
  exists (status : metric_name -> health_status) (score : metric_name -> jsnum) overall total,
    (forall name,
       vget (vget (vget report "metrics") (metric_key name)) "status" = VStr (status_text (status name)) /\
       vget (vget (vget report "metrics") (metric_key name)) "score" = VNum (score name) /\
       in_band (status name) (score name)) /\
    vget report "overall_status" = VStr (status_text overall) /\
    vget report "overall_score" = VNum total /\ in_band overall total /\
    (forall name, status name = Critical -> overall = Critical) /\
    (forall name, status name = Degraded -> overall = Critical \/ overall = Degraded) /\
    ((forall name, status name = Healthy) -> overall = Healthy).
Proof.
  intros (i & nine & leakage & refs & n & digest & _ & Hn & Hl & ->)%report_made.
  set (metrics := metric_of nine leakage).
  assert (forall name, banded (metrics name)) as Hb.
  { intros name. apply (nineMetrics_band i); [done|]. by eapply computeLeakageScan_band. }
  set (ref := VStr (("health_report_" : jstr) +s+ digest)).
  destruct (report_overall i nine leakage refs n [("artifact_root" : jstr, ref)] [("report_ref" : jstr, ref)]) as [-> ->].
  fold metrics. pose proof (overallScore_in metrics Hb) as Ho. cbv zeta in Ho. generalize dependent (overallScore metrics).
  intros total (Hform & Hz & Hcrit & Hdeg & Hall). pose proof (total_band _ _ Hform Hz) as Htotal.
  exists (λ name, m_status (metrics name)), (λ name, m_score (metrics name)), (statusFromScore total), total.
  split; [intros name; rewrite report_metric; exact (conj eq_refl (conj eq_refl (Hb name)))|].
  split; [reflexivity|]. split; [reflexivity|]. split; [exact Htotal|].
  destruct (in_band_int _ _ Htotal) as [Hband _]. split_and!.
  - intros name H. by apply band_49, (band_below _ _ _ Htotal), (Hcrit name).
  - intros name H. by apply band_70, (band_below _ _ _ Htotal), (Hdeg name).
  - intros H. apply band_90. exact (Z.le_trans _ _ _ (Hall H) (proj2 Hband)).
Qed.

(** What the nine metrics come from, for those that block a report. *)
Lemma nine_made i nine : nineMetrics i = Ok nine ->
  (exists replay, computeTombstoneRisk (hi_tombstones i) (deleteReceiptAddrs (hi_receipts i)) (hi_artifacts i) replay (hi_policy i)
     = Ok (n_tombstone_risk nine)) /\
  computeStaleDerivedArtifacts (hi_artifacts i) (hi_roots i).1 (date_parse (hi_created_at i)) (hi_policy i)
    = Ok (n_stale_derived_artifacts nine) /\
  computeRetrievalHitRate (hi_benchmark i) (hi_policy i) = Ok (n_retrieval_hit_rate nine).
Proof.
  unfold nineMetrics. cbv zeta. intros H. inv_res. cbn. split; [by eexists|]. by split.
Qed.

(** What an eligible report says of its metrics. *)
Lemma no_blocking metrics : length (blockingReasons metrics) = 0 ->
  m_status (metrics LeakageScan) = Healthy /\ m_status (metrics TombstoneRisk) <> Critical /\
  m_status (metrics StaleDerivedArtifacts) <> Degraded /\ m_status (metrics RetrievalHitRate) <> Critical.
Proof.
  unfold blockingReasons, when, is_healthy. cbv zeta. rewrite !length_app. intros H.
  split_and!.
  - destruct (decide (m_status (metrics LeakageScan) = Healthy)) as [|Hne]; [done|].
    rewrite (bool_decide_eq_false_2 (m_status (metrics LeakageScan) = Healthy)) in H by done. simpl in H. lia.
  - intros E. rewrite (bool_decide_eq_true_2 (m_status (metrics TombstoneRisk) = Critical)) in H by done. simpl in H. lia.
  - intros E. rewrite (bool_decide_eq_true_2 (m_status (metrics StaleDerivedArtifacts) = Degraded)) in H by done.
    rewrite orb_true_r in H. simpl in H. lia.
  - intros E. rewrite (bool_decide_eq_true_2 (m_status (metrics RetrievalHitRate) = Critical)) in H by done. simpl in H. lia.
Qed.

Lemma private_free_field v k x : private_free v -> (k, x) ∈ own_fields v -> private_free x.
Proof.
  intros Hv Hin w Hw. apply Hv. destruct v; cbn [own_fields] in Hin; try (by apply elem_of_nil in Hin).
  - by eapply (occurs_field _ _ (k, x)).
  - by eapply (occurs_inst _ _ _ (k, x)).
Qed.

Lemma proxy_metric_free nine leakage name :
  private_free (reportProxy nine) -> name <> LeakageScan -> private_free (metric_value (metric_of nine leakage name)).
Proof.
  intros H Hne. assert (private_free (VObj (nine_value nine))) as Hm.
  { eapply (private_free_field _ "metrics"); [exact H|]. cbn [own_fields reportProxy]. right. by left. }
  eapply (private_free_field _ (metric_key name)); [exact Hm|]. unfold own_fields, nine_value.
  apply list_elem_of_In. destruct name; try done; cbn [metric_of metric_key In]; tauto.
Qed.

Lemma scan_or_not name : name = LeakageScan \/ name <> LeakageScan.
Proof. destruct name; ((by left) || by right). Qed.

(** C9 A health report that is eligible for an anchor batch is clean: neither its ten
    metrics, the one of the scan itself included, nor the summaries of the artifacts, the
    benchmark and the connectors it was made from expose a secret text or a private key at
    any depth, and the scan counts no hit.  Every artifact that is served names no
    tombstoned address and, if it names a root it was built from, names the current root,
    which is the one the report shows; an artifact that names no root is not checked by the
    code.  The benchmark did not return anything tombstoned. *)
Theorem eligible_report_clean clock vault args i report :
  healthInputs clock vault args = Ok i -> createMemoryDriveHealthReport clock vault args = Ok report ->
  vget (vget report "proof_network_ready") "eligible_for_anchor_batch" = VBool true ->
  (forall name, private_free (vget (vget report "metrics") (metric_key name))) /\
  (let observed := vget (vget (vget report "metrics") "leakage_scan") "observed" in
   vget observed "forbidden_payload_key_hits" = vnat 0 /\ vget observed "secret_value_hits" = vnat 0) /\
  vget (vget report "roots") "active_set_root" = (hi_roots i).1 /\
  Forall (λ a, private_free (artifact_summary a) /\
               (d_serving a = true -> mentions (hi_tombstones i) a = Ok false /\
                  (truthy (d_source_root a) = true -> d_source_root a = (hi_roots i).1)))
    (hi_artifacts i) /\
  (truthy (hi_connector i) = true -> private_free (hi_connector i)) /\
  (truthy (hi_benchmark i) = true -> private_free (hi_benchmark i) /\
     truthy (summary_field (hi_benchmark i) "returned_tombstoned_refs" "returnedTombstonedRefs") = false).
Proof.
  intros Hi (i' & nine & leakage & refs & n & digest & Hi' & Hn & Hl & ->)%report_made He.
  rewrite Hi in Hi'. apply Ok_inj in Hi' as <-. rewrite report_eligible in He.
  injection He as He. apply Nat.eqb_eq in He. destruct (no_blocking _ He) as (Hleak & Htomb & Hstale & Hret).
  cbn [metric_of] in Hleak, Htomb, Hstale, Hret. destruct (nine_made _ _ Hn) as ((replay & Ht) & Hs & Hb).
  destruct (leakage_metric_free _ _ _ Hl Hleak) as (Hfree & Hkeys & Hsecret).
  apply (leakage_healthy _ _ _ Hl) in Hleak as [Hproxy Hscan].
  unfold scanInputs in Hscan. rewrite Forall_cons, !Forall_app in Hscan. destruct Hscan as (_ & Hsum & Hbench & Hconn).
  split; [|split; [|split; [|split; [|split]]]].
  - intros name. rewrite report_metric.
    destruct (scan_or_not name) as [->|Hne]; [exact Hfree|].
    exact (proxy_metric_free _ _ _ Hproxy Hne).
  - exact (conj Hkeys Hsecret).
  - reflexivity.
  - pose proof (tombstone_risk_clean _ _ _ _ _ _ Ht Htomb) as H1. pose proof (stale_artifacts_clean _ _ _ _ _ Hs Hstale) as H2.
    rewrite Forall_map in Hsum. rewrite Forall_forall in *. intros a Ha. split; [exact (Hsum a Ha)|].
    intros Hserv. exact (conj (H1 a Ha Hserv) (not_stale _ _ (H2 a Ha Hserv))).
  - intros Hc. rewrite Hc in Hconn. exact (proj1 (Forall_singleton _ _) Hconn).
  - intros Hc. rewrite Hc in Hbench. split; [exact (proj1 (Forall_singleton _ _) Hbench)|].
    exact (retrieval_clean _ _ _ Hb Hret Hc).
Qed.
End reports.

(** ** Witnesses *)

(** A bundle with a fresh record under a receipt and a settled tombstone. *)
Definition sample_bundle : jsval := VObj [
  ("active_set_root" : jstr, VStr ZERO_ROOT);
  ("memories" : jstr, VMap [("a" : jstr, VObj [("memory_addr" : jstr, vstr "a");
                                               ("updated_at" : jstr, vstr "2026-06-24T00:00:00.000Z")])]);
  ("activeAddresses" : jstr, VSet [vstr "a"]); ("tombstones" : jstr, VArr [vstr "t"]);
  ("receipts" : jstr, VArr [VObj [("memory_addr" : jstr, vstr "a")];
                            VObj [("operation" : jstr, vstr "delete"); ("memory_addr" : jstr, vstr "t")]])].

Definition sample_health (addr : string) : obj := [
  ("contextPack" : jstr, VObj [("active_set_root" : jstr, VStr ZERO_ROOT); ("memory_addresses" : jstr, VArr [vstr addr])]);
  ("benchmark_summary" : jstr, VObj [("probe_count" : jstr, vint 10); ("hit_at_k" : jstr, vint 1);
     ("exact_coverage" : jstr, vint 1); ("abstention_correctness" : jstr, vint 1)]);
  ("connector_summary" : jstr, VObj [("connector_count" : jstr, vint 3); ("healthy_connector_count" : jstr, vint 1)])].

Definition sample_report (addr : string) : jsval :=
  match createMemoryDriveHealthReport "2025-01-01T00:00:00.000Z" (Data sample_bundle) (sample_health addr) with
  | Ok report => report | Throw _ => VUndef end.

Lemma sample_report_made :
  createMemoryDriveHealthReport "2025-01-01T00:00:00.000Z" (Data sample_bundle) (sample_health "t") = Ok (sample_report "t")
  /\ createMemoryDriveHealthReport "2025-01-01T00:00:00.000Z" (Data sample_bundle) (sample_health "a") = Ok (sample_report "a").
Proof. vm_compute. split; reflexivity. Qed.

Lemma health_scores_banded_witness :
  createMemoryDriveHealthReport "2025-01-01T00:00:00.000Z" (Data sample_bundle) (sample_health "t") = Ok (sample_report "t")
  /\ vget (vget (vget (sample_report "t") "metrics") "tombstone_risk") "status" = vstr "critical"
  /\ vget (sample_report "t") "overall_status" = vstr "critical".
Proof.
  assert (vget (vget (vget (sample_report "t") "metrics") (metric_key TombstoneRisk)) "status" = vstr "critical") as E
    by (vm_compute; reflexivity).
  split; [exact (proj1 sample_report_made)|]. split; [exact E|].
  destruct (health_scores_banded _ _ _ _ (proj1 sample_report_made)) as (status & score & overall & total & Hm & Ho & _ & _ & Hc & _).
  destruct (Hm TombstoneRisk) as (Hs & _). rewrite E in Hs. rewrite Ho, (Hc TombstoneRisk); [reflexivity|].
  by destruct (status TombstoneRisk).
Defined.

Definition sample_inputs : health_inputs :=
  match healthInputs "2025-01-01T00:00:00.000Z" (Data sample_bundle) (sample_health "a") with
  | Ok i => i
  | Throw _ => {| hi_created_at := []; hi_identity := []; hi_roots := (VUndef, VUndef); hi_policy := []; hi_active := [];
                  hi_tombstones := []; hi_records := []; hi_receipts := []; hi_artifacts := []; hi_benchmark := VUndef;
                  hi_connector := VUndef; hi_replicas := VUndef; hi_anchor := VUndef |}
  end.

Lemma eligible_report_clean_witness :
  vget (vget (sample_report "a") "proof_network_ready") "eligible_for_anchor_batch" = VBool true /\
  length (hi_artifacts sample_inputs) = 1 /\
  Forall (λ a, mentions (hi_tombstones sample_inputs) a = Ok false) (hi_artifacts sample_inputs).
Proof.
  assert (vget (vget (sample_report "a") "proof_network_ready") "eligible_for_anchor_batch" = VBool true) as He
    by (vm_compute; reflexivity).
  split; [exact He|]. split; [vm_compute; reflexivity|].
  assert (healthInputs "2025-01-01T00:00:00.000Z" (Data sample_bundle) (sample_health "a") = Ok sample_inputs) as Hi
    by (vm_compute; reflexivity).
  destruct (eligible_report_clean _ _ _ _ _ Hi (proj2 sample_report_made) He) as (_ & _ & _ & Ha & _).
  assert (Forall (λ a, d_serving a = true) (hi_artifacts sample_inputs)) as Hs by (repeat constructor).
  apply Forall_forall. intros a Hin.
  exact (proj1 (proj2 (proj1 (Forall_forall _ _) Ha a Hin) (proj1 (Forall_forall _ _) Hs a Hin))).
Defined.
