(* ===== verification/HealthVault.v ===== *)
(** * The health of a vault after its operations

    What the health report says of a live vault: its own receipts cover every active
    address, and the address that an update retires stays unsettled. *)

From S2P Require Import Prelude JsValue Doubles Rounding RoundingFacts Regex Canonical Hashing Merkle Receipt Dates PublicSafe VaultPublic Vault Samples MapFacts VaultBundle VaultSafety VaultRecall VaultRefinement VaultReplay Settlement Optimizer Passport PassportSafety Health HealthSafety.

(** [n / n]. *)
Lemma quot_self n : (0 < n < 2 ^ 50)%Z -> num_quot (NInt n) (NInt n) = NInt 1.
Proof.
  intros Hn. unfold num_quot. cbv zeta.
  assert (num_is_zero (NInt n) = false) as -> by (simpl; apply Z.eqb_neq; lia).
  destruct (int_double n Hn) as (q & Hq & ->). rewrite xorb_nilpotent, Z.sub_diag.
  pose proof (pow2_pos (- q) ltac:(lia)). assert (0 < n * 2 ^ (- q))%Z as Hp by nia.
  revert Hp. generalize (n * 2 ^ (- q))%Z. intros f Hp. rewrite Z.abs_eq by lia.
  unfold scaled. change (0 <=? 0)%Z with true. cbv iota beta. change (2 ^ 0)%Z with 1%Z. rewrite Z.mul_1_r.
  unfold ratio_num. rewrite (proj2 (Z.eqb_neq f 0)) by lia.
  assert (to_double f f = to_double 1 1) as -> by (rewrite <- (Z.mul_1_l f); by apply to_double_scale).
  vm_compute. reflexivity.
Qed.

Section vault_health.
Context {C : Crypto} {L : CryptoLaws C} {Hst : Host} {Loc : Locale} {P : Platform} {AL : AeadLaws P}.

(** ** The receipts of a vault *)

(** Every active address has a receipt that names it. *)
Definition covered (v : Vault) : Prop :=
  forall a, a ∈ v_activeAddresses v -> exists r, r ∈ v_receipts v /\ vget r "memory_addr" = VStr a.

Lemma logged_covers op addr source v v' :
  covered v -> logged op addr source (v_receipts v) v' ->
  (forall a, a ∈ v_activeAddresses v' -> a ∈ v_activeAddresses v \/ addr = Some a) -> covered v'.
Proof.
  intros Hv (fs & Hr & _ & _ & _ & Hm & _) Hsub a Ha. rewrite Hr. destruct (Hsub a Ha) as [Hin|E].
  - destruct (Hv a Hin) as (r & Hin' & E). exists r. split; [apply elem_of_app; by left|done].
  - exists (VObj fs). split; [apply elem_of_app; right; by left|]. exact (Hm a E).
Qed.

Lemma step_covers v v' : covered v -> replay_step v v' -> covered v'.
Proof.
  intros Hv [d args r v1 H|d args r v1 op H Ho Hq|d args r v1 old H Hn Hold Hdead|d args r v1 H|d args b v1 H].
  - destruct (remember_ok _ _ _ _ _ H) as (_ & _ & _ & Ea). destruct (remember_logged _ _ _ _ _ H) as [_ Hl].
    eapply logged_covers; [exact Hv|exact Hl|]. intros a. rewrite Ea, elem_of_set_add. naive_solver.
  - destruct (recall_logged _ _ _ _ _ _ H Ho) as [_ Hl]. pose proof (recall_sets d args v) as [Ea _].
    rewrite H in Ea. cbn [snd] in Ea. eapply logged_covers; [exact Hv|exact Hl|]. intros a. rewrite Ea. auto.
  - destruct (updateMemory_ok _ _ _ _ _ _ H Hn) as (_ & _ & Ea & _). destruct (updateMemory_logged _ _ _ _ _ _ H Hn) as (_ & _ & Hl).
    eapply logged_covers; [exact Hv|exact Hl|]. intros a. rewrite Ea, elem_of_set_add. intros [->|Hin]; [by right|left].
    eapply elem_of_sublist; [exact Hin|apply set_delete_sublist].
  - destruct (deleteMemory_ok _ _ _ _ _ H) as (_ & _ & _ & Ea & _). destruct (deleteMemory_logged _ _ _ _ _ H) as [_ Hl].
    eapply logged_covers; [exact Hv|exact Hl|]. intros a. rewrite Ea. intros Hin. left.
    eapply elem_of_sublist; [exact Hin|apply set_delete_sublist].
  - pose proof (exportBundle_logged _ _ _ _ _ H) as Hl. pose proof (exportBundle_sets d args v) as [Ea _].
    rewrite H in Ea. cbn [snd] in Ea. eapply logged_covers; [exact Hv|exact Hl|]. intros a. rewrite Ea. auto.
Qed.

(** Every receipt has the schema of receipts. *)
Definition own_receipts (v : Vault) : Prop := Forall (λ r, vget r "schema" = VStr RECEIPT_SCHEMA) (v_receipts v).

Definition owns_step (v v' : Vault) : Prop := own_receipts v -> own_receipts v'.

#[local] Instance owns_preorder : PreOrder owns_step.
Proof. split; unfold owns_step; repeat intro; auto. Qed.

Lemma owns_appendEvent clock uuid fields : along owns_step (appendEvent clock uuid fields).
Proof.
  intros v. unfold appendEvent. cbn [vbind vread vlift].
  destruct (next_receipt clock uuid fields v) as [[e r]|x] eqn:E; [|reflexivity].
  cbn [vbind vmodify]. cbn [fst snd]. etransitivity.
  2: { apply (along_bind owns_step applyLifecycleRoots); [|intros _; apply along_ret; apply _].
       unfold applyLifecycleRoots. along_all ltac:(by intros ?). }
  intros Hv. destruct (next_receipt_created _ _ _ _ _ _ E) as (o & body & rid & sig & Hb & ->).
  unfold own_receipts. apply Forall_app. split; [exact Hv|]. apply Forall_singleton.
  apply (receipt_of_fields body). by eapply receipt_body_ok.
Qed.

Lemma run_op_owns op v : owns_step v (run_op op v).
Proof. apply along_op; [apply _|apply owns_appendEvent|..]; intros; intros Hv; exact Hv. Qed.

Lemma step_run_op v v' : replay_step v v' -> exists op, v' = run_op op v.
Proof.
  intros [d args r v1 H|d args r v1 op H Ho Hq|d args r v1 old H Hn Hold Hdead|d args r v1 H|d args b v1 H].
  - exists (Remember d args). cbn [run_op]. by rewrite H.
  - exists (Recall d args). cbn [run_op]. by rewrite H.
  - exists (UpdateMemory d args). cbn [run_op]. by rewrite H.
  - exists (DeleteMemory d args). cbn [run_op]. by rewrite H.
  - exists (ExportBundle d args). cbn [run_op]. by rewrite H.
Qed.

Lemma run_covers d args v0 v : createVault d args = Ok v0 -> rtc replay_step v0 v -> covered v /\ own_receipts v.
Proof.
  intros H0 Hr. assert (covered v0 /\ own_receipts v0) as Hv.
  { revert H0. unfold createVault. cbn zeta. intros H. inv_res.
    repeat match goal with p : _ * _ |- _ => destruct p end. inv_res. subst. split; [|by constructor].
    intros a Ha. by apply elem_of_nil in Ha. }
  clear H0. induction Hr as [v|v v1 v2 Hs _ IH]; [done|]. apply IH. destruct Hv as [Hc Ho]. split; [by eapply step_covers|].
  destruct (step_run_op _ _ Hs) as (op & ->). by apply run_op_owns.
Qed.

(** ** The coverage of a vault *)
Lemma receipt_addr_str r a : vget r "memory_addr" = VStr a -> receipt_addr r = [VStr a].
Proof. intros H. unfold receipt_addr. rewrite H. by destruct r. Qed.

Lemma own_not_foreign r : vget r "schema" = VStr RECEIPT_SCHEMA -> foreign_receipt r = false.
Proof. intros H. unfold foreign_receipt. rewrite H. by destruct (is_object r). Qed.

Lemma arr_includes_str l a : VStr a ∈ l -> arr_includes l (VStr a) = true.
Proof.
  intros H. apply existsb_exists. exists (VStr a). split; [by apply list_elem_of_In|]. apply str_eqb_refl.
Qed.

Lemma covered_addresses v : covered v ->
  List.filter (arr_includes (flat_map receipt_addr (v_receipts v))) (map VStr (v_activeAddresses v)) = map VStr (v_activeAddresses v).
Proof.
  intros Hv. apply filter_all, Forall_forall. intros x (a & -> & Ha)%list_elem_of_fmap. apply arr_includes_str.
  destruct (Hv a Ha) as (r & Hr & E). apply list_elem_of_In, in_flat_map. exists r.
  split; [by apply list_elem_of_In|]. rewrite (receipt_addr_str _ _ E). by left.
Qed.

Lemma full_coverage v anchor m :
  covered v -> own_receipts v -> (Z.of_nat (length (v_activeAddresses v)) < 2 ^ 50)%Z ->
  computeReceiptCoverage (map VStr (v_activeAddresses v)) (v_receipts v) anchor DEFAULT_HEALTH_POLICY = Ok m ->
  m_status m = Healthy /\ m_score m = NInt 100 /\
  vget (m_observed m) "covered_ref_count" = vnat (length (v_activeAddresses v)) /\
  vget (m_observed m) "invalid_receipt_count" = vint 0.
Proof.
  intros Hc Ho Hlen. unfold computeReceiptCoverage. cbv zeta. rewrite (covered_addresses v Hc), length_map.
  rewrite (filter_none foreign_receipt (v_receipts v)) by (eapply Forall_impl; [exact Ho|apply own_not_foreign]).
  destruct (length (v_activeAddresses v) =? 0)%nat eqn:E.
  - apply Nat.eqb_eq in E. rewrite E. intros H. unfold healthMetric in H. inv_res. by split_and!.
  - apply Nat.eqb_neq in E. unfold count. rewrite quot_self by lia.
    assert (first_status [
      (below (NInt 1) (fget DEFAULT_HEALTH_POLICY "receipt_coverage_degraded_floor"), Critical);
      (or_res (Ok (0 <? length (@nil jsval))%nat) (below (NInt 1) (fget DEFAULT_HEALTH_POLICY "receipt_coverage_watch_floor")), Degraded);
      (below (NInt 1) (fget DEFAULT_HEALTH_POLICY "receipt_coverage_healthy_floor"), Watch)] Healthy = Ok Healthy) as ->
      by (vm_compute; reflexivity).
    cbn [res_bind]. intros H. unfold healthMetric in H. inv_res. split_and!; reflexivity.
Qed.

(** What the receipt coverage of a report comes from. *)
Lemma nine_coverage i nine : nineMetrics i = Ok nine ->
  computeReceiptCoverage (hi_active i) (hi_receipts i) (hi_anchor i) (hi_policy i) = Ok (n_receipt_coverage nine).
Proof. unfold nineMetrics. cbv zeta. intros H. by inv_res. Qed.

Lemma live_inputs clock v args i : healthInputs clock (Live v) args = Ok i ->
  hi_active i = map VStr (v_activeAddresses v) /\ hi_receipts i = v_receipts v /\
  hi_tombstones i = map VStr (v_tombstones v).*1 /\
  (is_nullish (fget args "policy") = true -> hi_policy i = DEFAULT_HEALTH_POLICY).
Proof.
  unfold healthInputs. cbv zeta. intros H. inv_res. cbn [hi_active hi_receipts hi_tombstones hi_policy].
  split; [reflexivity|]. split; [reflexivity|]. split.
  - match goal with E : vault_tombstones _ = Ok _ |- _ => by injection E as <- end.
  - intros Hp. assert (fget args "policy" ?? VObj [] = VObj []) as -> by by destruct (fget args "policy"). reflexivity.
Qed.

(** The receipts of a vault cover it: in the health report of a vault after any run of
    operations that return, under the default policy, the receipt coverage is healthy with
    a full score, each of the active addresses is counted as covered and no receipt as
    invalid. *)
Theorem vault_receipts_cover d args v0 v clock hargs report :
  createVault d args = Ok v0 -> rtc replay_step v0 v ->
  (Z.of_nat (length (v_activeAddresses v)) < 2 ^ 50)%Z -> is_nullish (fget hargs "policy") = true ->
  createMemoryDriveHealthReport clock (Live v) hargs = Ok report ->
  let coverage := vget (vget report "metrics") "receipt_coverage" in
  vget coverage "status" = vstr "healthy" /\ vget coverage "score" = vint 100 /\
  vget (vget coverage "observed") "covered_ref_count" = vnat (length (v_activeAddresses v)) /\
  vget (vget coverage "observed") "invalid_receipt_count" = vint 0.
Proof.
  intros H0 Hr Hlen Hp (i & nine & leakage & refs & n & digest & Hi & Hn & _ & ->)%report_made. cbv zeta.
  destruct (run_covers _ _ _ _ H0 Hr) as [Hc Ho]. destruct (live_inputs _ _ _ _ Hi) as (Ea & Er & _ & Ep).
  apply nine_coverage in Hn. rewrite Ea, Er, (Ep Hp) in Hn. apply full_coverage in Hn as (Hs & Hz & H1 & H2); [|done..].
  change ("receipt_coverage" : jstr) with (metric_key ReceiptCoverage). rewrite report_metric. cbn [metric_of].
  unfold metric_value, vget at 1 2 4 6. cbn [own_fields]. simp_get. rewrite Hs, Hz. by split_and!.
Qed.

(** ** Updates *)

(** A tombstone that no receipt of a deletion names is not settled, and the risk is not
    healthy. *)
Lemma unsettled_not_healthy ts ds artifacts replay policy m a :
  computeTombstoneRisk ts ds artifacts replay policy = Ok m -> a ∈ ts -> arr_includes ds a = false ->
  m_status m <> Healthy.
Proof.
  unfold computeTombstoneRisk. cbv zeta. intros H Ha Hd.
  apply res_bind_ok in H as (mentioning & _ & H). apply res_bind_ok in H as (window & _ & H).
  apply res_bind_ok in H as (status & Hs & H). apply healthMetric_ok in H as [-> _]. intros ->.
  apply first_status_head in Hs as [[_ ?]|[_ Hs]]; [done|].
  cbn [first_status] in Hs. apply res_bind_ok in Hs as (b & _ & Hs). destruct b; [done|].
  apply res_bind_ok in Hs as (b & Hb & Hs). destruct b; [done|]. injection Hb as Hb.
  assert (0 < length ts)%nat as Hts by (destruct ts; [by apply elem_of_nil in Ha|simpl; lia]).
  set (unsettled := List.filter (λ addr, negb (arr_includes ds addr)) ts) in *.
  assert (0 < length unsettled)%nat as Hu.
  { assert (In a unsettled) as Hin by (apply List.filter_In; split; [by apply list_elem_of_In|by rewrite Hd]).
    destruct unsettled; [done|simpl; lia]. }
  rewrite (proj2 (Nat.ltb_lt _ _) Hts), (proj2 (Nat.ltb_lt _ _) Hu) in Hb. done.
Qed.

(** A receipt of the deletion of an address. *)
Definition deletes (a : jstr) (r : jsval) : Prop := vget r "operation" = vstr "delete" /\ vget r "memory_addr" = VStr a.

Lemma undeleted receipts a : Forall (λ r, ~ deletes a r) receipts -> arr_includes (deleteReceiptAddrs receipts) (VStr a) = false.
Proof.
  intros H. destruct (arr_includes _ _) eqn:E; [|done]. exfalso. apply existsb_exists in E as (x & Hx & Hs).
  unfold deleteReceiptAddrs in Hx. apply in_map_iff in Hx as (r & <- & Hr). apply List.filter_In in Hr as [Hr Hop].
  apply andb_true_iff in Hop as [Hop _]. rewrite Forall_forall in H. apply (H r); [by apply list_elem_of_In|]. split.
  - by apply seq_str in Hop.
  - destruct (vget r "memory_addr") as [| | |[]|s| | | | | | | |]; try done. by apply str_eqb_eq in Hs as ->.
Qed.

(** A deletion that is logged names a tombstoned address. *)
Definition deletions_dead (v : Vault) : Prop :=
  forall a r, r ∈ v_receipts v -> deletes a r -> tombstoned v a = true.

(** How the receipts of deletions grow with a step: by one that names an address that
    becomes tombstoned, or not at all. *)
Lemma step_deletes v v' : replay_step v v' ->
  exists r, v_receipts v' = v_receipts v ++ [r] /\ forall a, deletes a r -> tombstoned v a = false /\ tombstoned v' a = true.
Proof.
  assert (forall op addr source v', logged op addr source (v_receipts v) v' ->
    (op = "delete" -> exists a, addr = Some a /\ tombstoned v a = false /\ tombstoned v' a = true) ->
    exists r, v_receipts v' = v_receipts v ++ [r] /\ forall a, deletes a r -> tombstoned v a = false /\ tombstoned v' a = true) as Hlog.
  { intros op addr source v1 (fs & Hr & _ & _ & Hop & Hm & _) Hd. exists (VObj fs). split; [done|].
    intros a [Ho Ha]. unfold vget in Ho, Ha. cbn [own_fields] in Ho, Ha. rewrite Hop in Ho. injection Ho as Ho.
    destruct (Hd Ho) as (b & E & Hb). rewrite (Hm b E) in Ha. by injection Ha as <-. }
  intros [d args r v1 H|d args r v1 op H Ho Hq|d args r v1 old H Hn Hold Hdead|d args r v1 H|d args b v1 H].
  - destruct (remember_logged _ _ _ _ _ H) as [_ Hl]. by apply (Hlog _ _ _ _ Hl).
  - destruct (recall_logged _ _ _ _ _ _ H Ho) as [_ Hl]. apply (Hlog _ _ _ _ Hl). intros ->. exfalso. apply Hq.
    unfold lifecycle_operations. right. right. by left.
  - destruct (updateMemory_logged _ _ _ _ _ _ H Hn) as (_ & _ & Hl). by apply (Hlog _ _ _ _ Hl).
  - destruct (deleteMemory_ok _ _ _ _ _ H) as (_ & _ & Hd & _ & t & Et). destruct (deleteMemory_logged _ _ _ _ _ H) as [_ Hl].
    apply (Hlog _ _ _ _ Hl). intros _. exists (o_memory_addr r). split; [done|]. split; [done|].
    unfold tombstoned. by rewrite Et, map_has_set, str_eqb_refl.
  - pose proof (exportBundle_logged _ _ _ _ _ H) as Hl. by apply (Hlog _ _ _ _ Hl).
Qed.

Lemma step_tombs v v' a : replay_step v v' -> tombstoned v a = true -> tombstoned v' a = true.
Proof. intros (op & ->)%step_run_op. apply run_op_tombs. Qed.

Lemma run_dead d args v0 v : createVault d args = Ok v0 -> rtc replay_step v0 v -> deletions_dead v.
Proof.
  intros H0 Hr. assert (deletions_dead v0) as Hv.
  { revert H0. unfold createVault. cbn zeta. intros H. inv_res.
    repeat match goal with p : _ * _ |- _ => destruct p end. inv_res. subst. intros a r Hin. by apply elem_of_nil in Hin. }
  clear H0. induction Hr as [v|v v1 v2 Hs _ IH]; [done|]. apply IH. intros a r Hin Hd.
  destruct (step_deletes _ _ Hs) as (r' & Er & Hr'). rewrite Er in Hin. apply elem_of_app in Hin as [Hin|Hin].
  - eapply step_tombs; [exact Hs|]. by eapply Hv.
  - apply list_elem_of_singleton in Hin as ->. by apply Hr'.
Qed.

(** An address that is tombstoned without a deletion stays so. *)
Definition undeleted_tombstone (a : jstr) (v : Vault) : Prop :=
  tombstoned v a = true /\ Forall (λ r, ~ deletes a r) (v_receipts v).

Lemma run_undeleted d args v0 v a :
  createVault d args = Ok v0 -> rtc replay_step v0 v -> tombstoned v a = false -> Forall (λ r, ~ deletes a r) (v_receipts v).
Proof. intros H0 Hr Ha. apply Forall_forall. intros r Hin Hd. pose proof (run_dead _ _ _ _ H0 Hr a r Hin Hd). congruence. Qed.

(** No receipt of a deletion of [a] is added, whether the operation returns or throws. *)
Definition quiet (a : jstr) (v v' : Vault) : Prop :=
  Forall (λ r, ~ deletes a r) (v_receipts v) -> Forall (λ r, ~ deletes a r) (v_receipts v').

#[local] Instance quiet_preorder a : PreOrder (quiet a).
Proof. split; unfold quiet; repeat intro; auto. Qed.

Lemma quiet_append a clock uuid fields :
  (exists op, fget fields "operation" = VStr op /\ op <> "delete") \/
  (exists b, fget fields "memory_addr" = VStr b /\ b <> a) ->
  along (quiet a) (appendEvent clock uuid fields).
Proof.
  intros Hf v. unfold appendEvent. cbn [vbind vread vlift].
  destruct (next_receipt clock uuid fields v) as [[e r]|x] eqn:E; [|reflexivity].
  cbn [vbind vmodify]. cbn [fst snd]. etransitivity.
  2: { apply (along_bind (quiet a) applyLifecycleRoots); [|intros _; apply along_ret; apply _].
       unfold applyLifecycleRoots. along_all ltac:(by intros ?). }
  intros Hv. apply next_receipt_says in E as (fs & -> & [_ _ Hg]). apply Forall_app. split; [exact Hv|].
  apply Forall_singleton. intros [Ho Hm]. unfold vget in Ho, Hm. cbn [own_fields] in Ho, Hm.
  destruct Hf as [(op & Hop & Hne)|(b & Hb & Hne)].
  - apply Hg in Hop; [|by left]. rewrite Hop in Ho. by injection Ho.
  - apply Hg in Hb; [|right; by left]. rewrite Hb in Hm. by injection Hm.
Qed.

Lemma quiet_remember a d args : along (quiet a) (remember d args).
Proof.
  unfold remember. cbn zeta. along_all ltac:(by intros ?). apply quiet_append. left. by eexists.
Qed.

Lemma quiet_export a d args : along (quiet a) (exportBundle d args).
Proof. unfold exportBundle. cbn zeta. along_all ltac:(by intros ?). apply quiet_append. left. by eexists. Qed.

Lemma quiet_update a d args : along (quiet a) (updateMemory d args).
Proof. unfold updateMemory. cbn zeta. along_all ltac:(by intros ?). apply quiet_append. left. by eexists. Qed.

(** A recall or a deletion that does not name [a]. *)
Lemma quiet_recall a d args : named_address args <> VStr a -> along (quiet a) (recall d args).
Proof.
  unfold recall, named_address. cbn zeta. generalize (fget args "memory_addr" ?? fget args "memoryAddr"). intros x Hx.
  destruct (is_string x) eqn:Es; [|cbn [andb negb]; along_all ltac:(by intros ?)].
  destruct x as [| | | |s| | | | | | | |]; try discriminate Es. cbn [str_of].
  along_all ltac:(by intros ?); apply quiet_append; right; exists s; (split; [reflexivity|congruence]).
Qed.

Lemma quiet_delete a d args : named_address args <> VStr a -> along (quiet a) (deleteMemory d args).
Proof.
  unfold deleteMemory, delete_record, named_address. cbn zeta. generalize (fget args "memory_addr" ?? fget args "memoryAddr"). intros x Hx.
  destruct (is_string x) eqn:Es; [|cbn [andb negb]; along_all ltac:(by intros ?)].
  destruct x as [| | | |s| | | | | | | |]; try discriminate Es. cbn [str_of].
  along_all ltac:(by intros ?); apply quiet_append; right; exists s; (split; [reflexivity|congruence]).
Qed.

(** A call on a tombstoned address throws and changes nothing. *)
Lemma dead_call a d args v : tombstoned v a = true -> named_address args = VStr a ->
  (recall d args v).2 = v /\ (deleteMemory d args v).2 = v.
Proof.
  intros Ht Hn. destruct (decide (a = [])) as [->|Hne].
  - unfold recall, deleteMemory. cbn zeta. unfold named_address in Hn. rewrite Hn. done.
  - destruct (tombstoned_refused v a d args Ht) as [H _]. destruct (H Hn Hne) as (-> & _ & e & ->). done.
Qed.

Lemma is_text_or_not x a : x = VStr a \/ x <> VStr a.
Proof. rewrite <- seq_str. destruct (x === VStr a); auto. Qed.

Lemma op_undeleted op a v : undeleted_tombstone a v -> undeleted_tombstone a (run_op op v).
Proof.
  intros [Ht Hu]. split; [by apply run_op_tombs|]. destruct op as [d args|d args|d args|d args|d args]; cbn [run_op].
  - by apply quiet_remember.
  - destruct (is_text_or_not (named_address args) a) as [E|E]; [|by apply quiet_recall].
    by rewrite (proj1 (dead_call a d args v Ht E)).
  - by apply quiet_update.
  - destruct (is_text_or_not (named_address args) a) as [E|E]; [|by apply quiet_delete].
    by rewrite (proj2 (dead_call a d args v Ht E)).
  - by apply quiet_export.
Qed.

Lemma reachable_undeleted a v v' : reachable v v' -> undeleted_tombstone a v -> undeleted_tombstone a v'.
Proof. induction 1 as [|v' op _ IH]; [done|]. intros H. by apply op_undeleted, IH. Qed.

Lemma update_undeleted d args v r v1 old :
  updateMemory d args v = (Ok r, v1) -> named_address args = VStr old ->
  Forall (λ r, ~ deletes old r) (v_receipts v) -> undeleted_tombstone old v1.
Proof.
  intros H Hn Hu. destruct (updateMemory_ok _ _ _ _ _ _ H Hn) as (_ & _ & _ & (t & Et) & _).
  split; [unfold tombstoned; by rewrite Et, map_has_set, str_eqb_refl|].
  pose proof (quiet_update old d args v Hu) as Hq. by rewrite H in Hq.
Qed.

Lemma undeleted_risk a v clock hargs report :
  undeleted_tombstone a v -> createMemoryDriveHealthReport clock (Live v) hargs = Ok report ->
  vget (vget (vget report "metrics") "tombstone_risk") "status" <> vstr "healthy".
Proof.
  intros [Hdead Hu] (i & nine & leakage & refs & n & digest & Hi & Hnine & _ & ->)%report_made.
  destruct (live_inputs _ _ _ _ Hi) as (_ & Hr & Ht & _). destruct (nine_made _ _ Hnine) as ((replay & Hrisk) & _).
  change ("tombstone_risk" : jstr) with (metric_key TombstoneRisk). rewrite report_metric. cbn [metric_of].
  intros E. apply (unsettled_not_healthy _ _ _ _ _ _ (VStr a)) in Hrisk.
  - unfold metric_value, vget in E. cbn [own_fields] in E. revert E. simp_get. by destruct (m_status _).
  - rewrite Ht. apply list_elem_of_fmap. exists a. split; [done|].
    destruct (decide (a ∈ (v_tombstones v).*1)) as [|Hno]; [done|]. unfold tombstoned, map_has in Hdead.
    by rewrite (bool_decide_eq_false_2 _ Hno) in Hdead.
  - rewrite Hr. by apply undeleted.
Qed.

(** C11 A vault never gets over an update: the receipt of the update names the new address,
    only the receipts of deletions settle tombstones, and a tombstoned address can neither
    be deleted nor recalled any more.  So in the health report of the vault after an update
    of an address, under whatever arguments, the tombstone risk is not healthy, whatever
    vault operations follow, those that throw included, as long as no receipt logged before
    the update says that the address was deleted. *)
Theorem update_leaves_risk d args v r v1 old v2 clock hargs report :
  Forall (λ r, ~ deletes old r) (v_receipts v) ->
  updateMemory d args v = (Ok r, v1) -> named_address args = VStr old -> reachable v1 v2 ->
  createMemoryDriveHealthReport clock (Live v2) hargs = Ok report ->
  vget (vget (vget report "metrics") "tombstone_risk") "status" <> vstr "healthy".
Proof.
  intros Hu H Hn Hr. eapply undeleted_risk. eapply reachable_undeleted; [exact Hr|]. by eapply update_undeleted.
Qed.

(** No receipt says so in a vault that was created and run with returning operations under
    their own names, since the address was alive. *)
Lemma live_undeleted d0 args0 v0 d args v r v1 old :
  createVault d0 args0 = Ok v0 -> rtc replay_step v0 v ->
  updateMemory d args v = (Ok r, v1) -> named_address args = VStr old -> Forall (λ r, ~ deletes old r) (v_receipts v).
Proof.
  intros H0 Hrun H Hn. destruct (updateMemory_ok _ _ _ _ _ _ H Hn) as (_ & Hlive & _). by eapply run_undeleted.
Qed.
End vault_health.

(** ** Witnesses *)
Definition updated_content (addr : jstr) : obj := [("memory_addr" : jstr, VStr addr); ("content" : jstr, vstr "a later text")].

Lemma sample_update_ok :
  match createVault (sample_draws 0) [] with
  | Ok v0 =>
      match remember (sample_draws 1) sample_content v0 with
      | (Ok r1, v1) =>
          match updateMemory (sample_draws 2) (updated_content (o_memory_addr r1)) v1 with
          | (Ok r2, v2) =>
              negb (o_memory_addr r2 =s= o_memory_addr r1) && negb (tombstoned v1 (o_memory_addr r2))
              && (length (v_activeAddresses v2) =? 1)
              && match createMemoryDriveHealthReport "2025-01-01T00:00:00.000Z" (Live v2) [] with Ok _ => true | _ => false end
          | _ => false
          end
      | _ => false
      end
  | _ => false
  end = true.
Proof. vm_compute. reflexivity. Qed.

(** The vault with an updated memory, and its report. *)
Lemma sample_update_run : exists v0 v1 r2 v2 addr report,
  createVault (sample_draws 0) [] = Ok v0 /\ rtc replay_step v0 v1 /\
  updateMemory (sample_draws 2) (updated_content addr) v1 = (Ok r2, v2) /\ rtc replay_step v0 v2 /\
  length (v_activeAddresses v2) = 1 /\ createMemoryDriveHealthReport "2025-01-01T00:00:00.000Z" (Live v2) [] = Ok report.
Proof.
  pose proof sample_update_ok as H.
  destruct (createVault (sample_draws 0) []) as [v0|] eqn:E0; [|done].
  destruct (remember (sample_draws 1) sample_content v0) as [[r1|] v1] eqn:E1; [|done].
  destruct (updateMemory (sample_draws 2) (updated_content (o_memory_addr r1)) v1) as [[r2|] v2] eqn:E2; [|done].
  destruct (createMemoryDriveHealthReport _ _ _) as [report|] eqn:E3; [|by rewrite andb_false_r in H].
  rewrite !andb_true_iff, !negb_true_iff, Nat.eqb_eq in H. destruct H as [[[Hne Hd] Hl] _].
  exists v0, v1, r2, v2, (o_memory_addr r1), report.
  assert (rtc replay_step v0 v1) as H1 by (eapply rtc_once, rs_remember, E1).
  split_and!; [done|done|done| |done|done]. eapply rtc_r; [exact H1|]. eapply rs_update; [exact E2|reflexivity| |exact Hd].
  by apply str_eqb_neq.
Qed.

Lemma vault_receipts_cover_witness : exists v report,
  createMemoryDriveHealthReport "2025-01-01T00:00:00.000Z" (Live v) [] = Ok report /\ length (v_activeAddresses v) = 1 /\
  vget (vget (vget report "metrics") "receipt_coverage") "score" = vint 100.
Proof.
  destruct sample_update_run as (v0 & v1 & r2 & v2 & addr & report & E0 & _ & _ & Hr & Hl & E3).
  exists v2, report. split; [exact E3|]. split; [exact Hl|].
  assert (Z.of_nat (length (v_activeAddresses v2)) < 2 ^ 50)%Z as Hlen by (rewrite Hl; reflexivity).
  exact (proj1 (proj2 (vault_receipts_cover (L := SampleLaws) _ _ _ _ _ [] _ E0 Hr Hlen eq_refl E3))).
Defined.

Lemma update_leaves_risk_witness : exists v report,
  createMemoryDriveHealthReport "2025-01-01T00:00:00.000Z" (Live v) [] = Ok report /\
  vget (vget (vget report "metrics") "tombstone_risk") "status" <> vstr "healthy".
Proof.
  destruct sample_update_run as (v0 & v1 & r2 & v2 & addr & report & E0 & H1 & E2 & _ & _ & E3).
  exists v2, report. split; [exact E3|].
  exact (update_leaves_risk (L := SampleLaws) _ (updated_content addr) _ _ _ addr _ _ _ _
    (live_undeleted (L := SampleLaws) _ _ _ _ (updated_content addr) _ _ _ addr E0 H1 E2 eq_refl) E2 eq_refl (reach_start _) E3).
Defined.
