(* ===== verification/ProofNetwork.v ===== *)
(** * Proof network

    [src/packages/proof-network/src/index.js]: anchor batches of memory roots, capability
    grants and revocations, benchmark attestations, packets of artifacts, and the entries
    and batches of the registry.  Every artifact carries an identifier and a hash of the
    JSON text of its other properties, and every kind has a validator that collects the
    messages of what is wrong.  Nothing is stored: creation maps an input object to an
    artifact or an error. *)

From S2P Require Import Prelude JsValue Regex Canonical Hashing Dates VaultPublic Vault Settlement.

Definition PROOF_NETWORK_ANCHOR_BATCH_SCHEMA : jstr := "enigma.proof_network.anchor_batch.v1".
Definition PROOF_NETWORK_CAPABILITY_GRANT_SCHEMA : jstr := "enigma.proof_network.capability_grant.v1".
Definition PROOF_NETWORK_CAPABILITY_REVOCATION_SCHEMA : jstr := "enigma.proof_network.capability_revocation.v1".
Definition PROOF_NETWORK_BENCHMARK_ATTESTATION_SCHEMA : jstr := "enigma.proof_network.benchmark_attestation.v1".
Definition PROOF_NETWORK_PACKET_SCHEMA : jstr := "enigma.proof_network.packet.v1".
Definition PROOF_NETWORK_REGISTRY_ENTRY_SCHEMA : jstr := "enigma.proof_network.registry_entry.v1".
Definition PROOF_NETWORK_REGISTRY_BATCH_SCHEMA : jstr := "enigma.proof_network.registry_batch.v1".

Definition PROOF_NETWORK_SCHEMAS : obj :=
  [("anchor_batch" : jstr, VStr PROOF_NETWORK_ANCHOR_BATCH_SCHEMA);
   ("capability_grant" : jstr, VStr PROOF_NETWORK_CAPABILITY_GRANT_SCHEMA);
   ("capability_revocation" : jstr, VStr PROOF_NETWORK_CAPABILITY_REVOCATION_SCHEMA);
   ("benchmark_attestation" : jstr, VStr PROOF_NETWORK_BENCHMARK_ATTESTATION_SCHEMA);
   ("packet" : jstr, VStr PROOF_NETWORK_PACKET_SCHEMA);
   ("registry_entry" : jstr, VStr PROOF_NETWORK_REGISTRY_ENTRY_SCHEMA);
   ("registry_batch" : jstr, VStr PROOF_NETWORK_REGISTRY_BATCH_SCHEMA)].

Definition REF_RE : re := mk_seq (cset "a-z0-9") (rrange 2 191 (cset "a-z0-9._:/@+-")).
Definition SIGNATURE_REF_RE : re :=
  rseqs [rwords ["ed25519"%string; "secp256k1"%string; "signature"%string]; rlit ":";
         rrange 16 256 (cset "A-Za-z0-9._~+/=-")].
Definition SCOPE_RE : re := mk_seq (cset "a-z") (rrange 1 63 (cset "a-z0-9._:-")).

Definition SAFE_BOOLEAN_BOUNDARIES : obj :=
  [("transaction_submitted" : jstr, VBool false); ("raw_memory_on_chain" : jstr, VBool false);
   ("provider_deletion_claim" : jstr, VBool false); ("model_forgetting_claim" : jstr, VBool false);
   ("hosted_saas_claim" : jstr, VBool false)].
Definition SAFE_FIELD_NAMES : list jstr := keys SAFE_BOOLEAN_BOUNDARIES.

Definition FORBIDDEN_WORDS : re :=
  rwords ["raw"%string; "plaintext"%string; "plain_text"%string; "prompt"%string; "prompts"%string;
          "message"%string; "messages"%string; "text"%string; "content"%string; "document"%string;
          "documents"%string; "transcript"%string; "transcripts"%string; "completion"%string;
          "completions"%string; "embedding"%string; "embeddings"%string; "acl"%string; "acl_body"%string;
          "access_control_list"%string; "provider_response"%string; "provider_responses"%string;
          "response_body"%string; "credential"%string; "credentials"%string; "api_key"%string;
          "secret"%string; "password"%string; "private_key"%string; "seed"%string; "seed_phrase"%string;
          "mnemonic"%string; "tenant_name"%string; "customer_name"%string; "organization_name"%string;
          "org_name"%string].

(** [FORBIDDEN_KEY_RE.test(key)], as in [Settlement]: a word between underscores or the
    ends of the key. *)
Definition FORBIDDEN_KEY_RE : re := re_iu (rseqs [rlit "_"; FORBIDDEN_WORDS; rlit "_"]).
Definition is_forbidden_key (key : jstr) : bool := re_search FORBIDDEN_KEY_RE ("_" +s+ key +s+ "_").

Definition SECRET_VALUE_RE : re :=
  re_iu (ralts [
    rseqs [rlit "Bearer"; rplus rspace; ratleast 12 (cset "A-Za-z0-9._~+/=-")];
    rseqs [rlit "Basic"; rplus rspace; ratleast 12 (cset "A-Za-z0-9+/=-")];
    rseqs [rlit "-----BEGIN "; RStar (cset "A-Z "); rlit "PRIVATE KEY-----"];
    rseqs [rlit "http"; ropt (rlit "s"); rlit "://"; rplus (not_space_nor "/:@"); rlit ":";
           rplus (not_space_nor "/@"); rlit "@"];
    rseqs [rlit "sk-"; ratleast 16 (cset "A-Za-z0-9_-")];
    rseqs [rlit "AKIA"; rrep 16 (cset "0-9A-Z")];
    rlit "seed phrase"; rlit "mnemonic phrase"; rlit "raw memory"; rlit "private prompt";
    rlit "full transcript"; rlit "provider response"; rlit "embedding vector"]).

Definition SUPPORTED_ARTIFACT_SCHEMAS : list jstr := flat_map (λ kv : jstr * jsval, [to_str kv.2]) PROOF_NETWORK_SCHEMAS.

Definition REGISTRY_ENTRY_TYPES : list jstr :=
  ["anchor_batch" : jstr; "benchmark_attestation" : jstr; "connector_conformance" : jstr;
   "health_report" : jstr; "operator_receipt" : jstr; "settlement_job" : jstr].

(** ** JSON values *)

(** [value.forEach] skips the holes of an array. *)
Fixpoint assertJsonValue (value : jsval) (path : jstr) : res unit :=
  match value with
  | VNull | VStr _ | VBool _ | VHole => Ok tt
  | VNum n => throw_if negb (num_is_finite n) with TypeError (path +s+ " must be finite"); Ok tt
  | VArr items =>
      (fix go (index : nat) (items : list jsval) : res unit :=
         match items with
         | [] => Ok tt
         | item :: items' =>
             let! _ := assertJsonValue item (path +s+ "[" +s+ nat_str index +s+ "]") in go (S index) items'
         end) 0%nat items
  | VObj fields | VInst _ fields =>
      (fix go (fields : list (jstr * jsval)) : res unit :=
         match fields with
         | [] => Ok tt
         | kv :: fields' =>
             throw_if is_undef kv.2 with TypeError (path +s+ "." +s+ kv.1 +s+ " must not be undefined");
             let! _ := assertJsonValue kv.2 (path +s+ "." +s+ kv.1) in go fields'
         end) fields
  | VMap _ | VSet _ | VBytes _ _ => Ok tt
  | VUndef | VOpaque _ _ => Throw (TypeError (path +s+ " must be JSON-serializable"))
  end.

(** The copy with sorted properties.  It is built by assignments [out[key] = ...], and
    the assignment to [__proto__] makes no property. *)
Fixpoint canonical_value (value : jsval) : jsval :=
  match value with
  | VArr items => VArr (map canonical_value items)
  | VObj fields | VInst _ fields =>
      VObj (spread [] (sort_keys (fdelete (map (λ kv : jstr * jsval, (kv.1, canonical_value kv.2)) fields) PROTO)))
  | VMap _ | VSet _ => VObj []
  | VBytes _ _ => VObj (spread_of value)
  | _ => value
  end.

(** Each recursive call checks its value once more, which cannot fail below a value that
    was checked. *)
Definition canonicalize (value : jsval) : res jsval :=
  let! _ := assertJsonValue value "value" in Ok (canonical_value value).

(** ** The scan for private data *)
Fixpoint assertNoPrivateProofPayload (value : jsval) (path : jstr) : res unit :=
  match value with
  | VStr s =>
      throw_if re_search SECRET_VALUE_RE s
        with TypeError (path +s+ " contains private or secret-looking data");
      Ok tt
  | VArr items =>
      (fix go (index : nat) (items : list jsval) : res unit :=
         match items with
         | [] => Ok tt
         | item :: items' =>
             let! _ := assertNoPrivateProofPayload item (path +s+ "[" +s+ nat_str index +s+ "]") in
             go (S index) items'
         end) 0%nat items
  | VObj fields | VInst _ fields =>
      (fix go (fields : list (jstr * jsval)) : res unit :=
         match fields with
         | [] => Ok tt
         | kv :: fields' =>
             throw_if is_forbidden_key kv.1 && negb (mem_str kv.1 SAFE_FIELD_NAMES)
               with TypeError (path +s+ "." +s+ kv.1 +s+ " is not allowed in proof-network artifacts");
             throw_if mem_str kv.1 SAFE_FIELD_NAMES && (kv.2 !== VBool false)
               with TypeError (path +s+ "." +s+ kv.1 +s+ " must be false");
             let! _ := assertNoPrivateProofPayload kv.2 (path +s+ "." +s+ kv.1) in go fields'
         end) fields
  | _ => Ok tt
  end.

(** ** Collecting errors

    The validators push messages on a list and may throw; [errors] are the messages
    pushed so far. *)
Record checks (A : Type) := checked { errors : list jstr; outcome : res A }.
Arguments checked {A} _ _.
Arguments errors {A} _.
Arguments outcome {A} _.

Definition chk_bind {A B} (m : checks A) (k : A -> checks B) : checks B :=
  match outcome m with
  | Throw e => checked (errors m) (Throw e)
  | Ok a => let m' := k a in checked (errors m ++ errors m') (outcome m')
  end.

Notation "'chk!' x ':=' m 'in' k" :=
  (chk_bind m (λ x, k)) (at level 10, x pattern, m at level 100, k at level 200,
   format "'[v' 'chk!'  x  ':='  m  'in' '/' k ']'") : js_scope.

Definition chk {A} (m : res A) : checks A := checked [] m.

(** [if (b) errors.push(message)]. *)
Definition push_if (b : bool) (message : jstr) : checks unit := checked (if b then [message] else []) (Ok tt).

Definition collectValidation (validate : checks unit) : verification :=
  verificationResult (errors validate ++ match outcome validate with Ok _ => [] | Throw e => [exn_message e] end).

Section proof_network.
Context {C : Crypto} {Hst : Host} {Loc : Locale} {P : Platform}.

Definition sha256Json (value : jsval) : res jstr :=
  let! _ := assertNoPrivateProofPayload value "proof" in
  let! canonical := canonicalize value in
  let! text := json_stringify canonical in
  match text with
  | None => Throw (TypeError "The data argument must be of type string or an instance of Buffer")
  | Some t => Ok (SHA256_PREFIX +s+ sha256_text t)
  end.

(** ** Fields *)
Definition at_index (field : jstr) (index : nat) : jstr := field +s+ "[" +s+ nat_str index +s+ "]".

Definition requiredObject (value : jsval) (field : jstr) : res unit :=
  throw_if negb (is_record value) with TypeError (field +s+ " must be an object"); Ok tt.

Definition requiredString (value : jsval) (field : jstr) : res jstr :=
  match value with
  | VStr s =>
      throw_if trim s =s= [] with TypeError (field +s+ " must be a non-empty string"); Ok (trim s)
  | _ => Throw (TypeError (field +s+ " must be a non-empty string"))
  end.

(** [value === undefined || value === null || value === '']. *)
Definition is_blank (value : jsval) : bool := is_nullish value || (value === VStr []).

Definition optionalString (value : jsval) (fallback field : jstr) : res jstr :=
  if is_blank value then Ok fallback else requiredString value field.

(** A required string in the language of a pattern. *)
Definition matching (r : re) (what : jstr) (value : jsval) (field : jstr) : res jstr :=
  let! string := requiredString value field in
  throw_if negb (re_full r string) with TypeError (field +s+ " must be " +s+ what); Ok string.

Definition publicRef : jsval -> jstr -> res jstr := matching REF_RE "an opaque public ref".
Definition digestRef : jsval -> jstr -> res jstr := matching ROOT_RE "a sha256-prefixed digest".
Definition signatureRef : jsval -> jstr -> res jstr := matching SIGNATURE_REF_RE "an opaque signature ref".
Definition scopeToken : jsval -> jstr -> res jstr := matching SCOPE_RE "a public scope token".

Definition optionalPublicRef (value : jsval) (fallback field : jstr) : res jstr :=
  if is_blank value then Ok fallback else publicRef value field.

Definition optionalDigestRef (value : jsval) (fallback field : jstr) : res jstr :=
  if is_blank value then Ok fallback else digestRef value field.

(** The 32 digits an identifier takes from a digest. *)
Definition short (digest : jstr) : jstr := slice_to 32 (slice_from 7 digest).

Definition refFromDigest (prefix digest : jstr) : jstr := prefix +s+ ":" +s+ short digest.

Definition isoTimestamp (value : jsval) (field fallback : jstr) : res jstr :=
  let! timestamp := optionalString value fallback field in
  match date_parse timestamp with
  | None => Throw (TypeError (field +s+ " must be ISO-parseable"))
  | Some _ => Ok timestamp
  end.

Definition nonNegativeInteger (value : jsval) (field : jstr) (fallback : Z) : res jsval :=
  let! number := to_number (value ?? vint fallback) in
  throw_if negb (num_is_integer number) || num_ltb number (NInt 0)
    with TypeError (field +s+ " must be a non-negative integer");
  Ok (VNum number).

Definition positiveInteger (value : jsval) (field : jstr) : res jsval :=
  let! number := to_number value in
  throw_if negb (num_is_integer number) || negb (num_ltb (NInt 0) number)
    with TypeError (field +s+ " must be a positive integer");
  Ok (VNum number).

(** ** Lists *)

(** [Array.isArray(value) ? value : [value]]. *)
Definition array_or_one (value : jsval) : list jsval := match value with VArr l => l | _ => [value] end.

Definition arrayInput (value : jsval) : list jsval := if is_nullish value then [] else array_or_one value.

Definition texts_of (l : list jsval) : list jstr := flat_map (λ v, match v with VStr s => [s] | _ => [] end) l.

Definition text_values (l : list jstr) : list jsval := map VStr l.

(** [list.sort()] on strings and holes, which come last. *)
Definition default_sort (l : list jsval) : list jsval :=
  text_values (sort_strings (texts_of l)) ++ List.filter (λ v, negb (is_string v)) l.

(** [[...new Set(list)]] on strings and holes, read as one [undefined]; its place is
    lost in the sort that follows. *)
Definition unique_values (l : list jsval) : list jsval :=
  text_values (set_of_list (texts_of l)) ++ (if forallb is_string l then [] else [VUndef]).

Definition out_of_bounds (l : list jsval) (min max : nat) : bool := (length l <? min)%nat || (max <? length l)%nat.

Definition as_string (m : res jstr) : res jsval := let! s := m in Ok (VStr s).

Definition publicScopes (value : jsval) (field : jstr) : res jsval :=
  let scopes := array_or_one value in
  throw_if (length scopes =? 0)%nat || (32 <? length scopes)%nat
    with TypeError (field +s+ " must contain 1-32 scopes");
  let! items := map_items (λ index scope, as_string (scopeToken scope (at_index field index))) scopes in
  Ok (VArr (default_sort (unique_values items))).

Definition bounds_text (min max : nat) (what : jstr) : jstr :=
  " must contain " +s+ nat_str min +s+ "-" +s+ nat_str max +s+ " " +s+ what.

Definition digestArray (value : jsval) (field : jstr) (min max : nat) : res jsval :=
  let list := array_or_one value in
  throw_if out_of_bounds list min max with TypeError (field +s+ bounds_text min max "digest refs");
  let! items := map_items (λ index item, as_string (digestRef item (at_index field index))) list in
  Ok (VArr items).

Definition publicRefArray (value : jsval) (field : jstr) (min max : nat) : res (list jsval) :=
  let list := arrayInput value in
  throw_if out_of_bounds list min max with TypeError (field +s+ bounds_text min max "refs");
  let! items := map_items (λ index item, as_string (publicRef item (at_index field index))) list in
  Ok (default_sort items).

(** The first property of the object that is neither [undefined] nor [null]. *)
Fixpoint field_of (o : obj) (names : list jstr) : jsval :=
  match names with [] => VUndef | k :: names' => fget o k ?? field_of o names' end.

(** ** Commitments *)
Definition commitmentKind (value : jsval) : res jstr :=
  let! kind := optionalString value "memory_root" "kind" in
  throw_if negb (re_full SCOPE_RE kind) with TypeError "kind must be a public scope token"; Ok kind.

Definition normalizeCommitment (index : nat) (item : jsval) : res jsval :=
  match item with
  | VStr _ =>
      let! root := digestRef item (at_index "roots" index) in
      Ok (VObj [("kind" : jstr, vstr "memory_root"); ("root" : jstr, VStr root)])
  | _ =>
      let path := at_index "commitments" index in
      let! _ := requiredObject item path in
      let object := own_fields item in
      let! kind := commitmentKind (fget object "kind") in
      let! root := digestRef (field_of object ["root" : jstr; "commitment_root" : jstr; "commitmentRoot" : jstr])
        (path +s+ ".root") in
      let ref := field_of object ["ref" : jstr; "public_ref" : jstr; "publicRef" : jstr] in
      let! refs := (if is_blank ref then Ok []
                    else let! r := publicRef ref (path +s+ ".ref") in Ok [("ref" : jstr, VStr r)]) in
      let count := field_of object ["count" : jstr; "leaf_count" : jstr; "leafCount" : jstr] in
      let! counts := (if is_nullish count then Ok []
                      else let! n := positiveInteger count (path +s+ ".count") in Ok [("count" : jstr, n)]) in
      Ok (VObj ([("kind" : jstr, VStr kind); ("root" : jstr, VStr root)] ++ refs ++ counts))
  end.

(** The text [compareCommitments] gives to [localeCompare]. *)
Definition commitment_text (c : jsval) : jstr :=
  to_str (vget c "kind") +s+ ":" +s+ to_str (vget c "root") +s+ ":" +s+ to_str (vget c "ref" ?? VStr []).

Fixpoint commitment_insert (c : jsval) (l : list jsval) : list jsval :=
  match l with
  | [] => [c]
  | d :: l' => if locale_leb (commitment_text c) (commitment_text d) then c :: l else d :: commitment_insert c l'
  end.

(** [list.sort(compareCommitments)]: stable, and holes come last. *)
Definition sort_commitments (l : list jsval) : list jsval :=
  foldr commitment_insert [] (List.filter is_record l) ++ List.filter (λ v, negb (is_record v)) l.

(** A root that is a text is paired with the reference of the same index, the references
    being sorted already. *)
Definition with_ref (refs : list jsval) (index : nat) (item : jsval) : jsval :=
  match item, nth index refs VUndef with
  | VStr _, VStr r =>
      VObj [("kind" : jstr, vstr "memory_root"); ("root" : jstr, item); ("ref" : jstr, VStr r)]
  | _, _ => item
  end.

Definition COMMITMENT_FIELDS : list jstr :=
  ["commitments" : jstr; "memory_roots" : jstr; "memoryRoots" : jstr; "roots" : jstr; "commitment_roots" : jstr;
   "commitmentRoots" : jstr; "event_roots" : jstr; "eventRoots" : jstr].

Definition normalizeCommitments (input : obj) : res (list jsval) :=
  let raw := field_of input COMMITMENT_FIELDS in
  let! refs := publicRefArray (field_of input ["refs" : jstr; "artifact_refs" : jstr; "artifactRefs" : jstr])
    "refs" 0 64 in
  let list := imap (with_ref refs) (arrayInput raw) in
  throw_if (length list =? 0)%nat || is_nullish raw with TypeError "commitments must be non-empty";
  let! items := map_items normalizeCommitment list in
  Ok (sort_commitments items).

(** ** Identities *)
Definition identifier (prefix hash : jstr) : jstr := prefix +s+ "_" +s+ short hash.

Definition freezeArtifact (body : obj) (idField hashField prefix : jstr) : res jsval :=
  let! hash := sha256Json (VObj body) in
  let artifact := VObj (spread body [(idField, VStr (identifier prefix hash)); (hashField, VStr hash)]) in
  let! _ := assertNoPrivateProofPayload artifact "proof" in
  Ok artifact.

Definition bodyWithoutIdentity (artifact : jsval) (idField hashField : jstr) : obj :=
  fdelete (fdelete (spread_of artifact) idField) hashField.

Definition requireSafeBoundaries (artifact : jsval) (path : jstr) : checks unit :=
  checked (flat_map (λ kv : jstr * jsval,
             if vget artifact kv.1 === kv.2 then [] else [path +s+ "." +s+ kv.1 +s+ " must be " +s+ to_str kv.2])
             SAFE_BOOLEAN_BOUNDARIES) (Ok tt).

Definition validateIdentity (artifact : jsval) (idField hashField prefix : jstr) : checks unit :=
  chk! expectedHash := chk (sha256Json (VObj (bodyWithoutIdentity artifact idField hashField))) in
  chk! _ := push_if (vget artifact hashField !== VStr expectedHash) (hashField +s+ " mismatch") in
  push_if (vget artifact idField !== VStr (identifier prefix expectedHash)) (idField +s+ " mismatch").

(** What every validator checks first. *)
Definition validate_header (artifact : jsval) (path schema : jstr) : checks unit :=
  chk! _ := chk (requiredObject artifact path) in
  chk! _ := chk (assertNoPrivateProofPayload artifact path) in
  chk! _ := push_if (vget artifact "schema" !== VStr schema) ("schema must be " +s+ schema) in
  requireSafeBoundaries artifact path.

(** The input of a creation, an empty object by default. *)
Definition input_object (input : jsval) : res obj :=
  let value := if is_undef input then VObj [] else input in
  let! _ := requiredObject value "input" in
  let! _ := assertNoPrivateProofPayload value "input" in
  Ok (own_fields value).

(** [...((input.signature_ref ?? input.signatureRef) ? { signature_ref } : {})]. *)
Definition signature_field (o : obj) : res obj :=
  let given := field_of o ["signature_ref" : jstr; "signatureRef" : jstr] in
  if truthy given then let! s := signatureRef given "signature_ref" in Ok [("signature_ref" : jstr, VStr s)]
  else Ok [].

(** [if (value.signature_ref !== undefined) signatureRef(...)]. *)
Definition check_signature (artifact : jsval) : checks unit :=
  let given := vget artifact "signature_ref" in
  if is_undef given then chk (Ok tt)
  else chk! _ := chk (signatureRef given "signature_ref") in chk (Ok tt).

(** ** Anchor batches *)
Definition TIMESTAMP_FIELDS : list jstr := ["created_at" : jstr; "createdAt" : jstr; "generated_at" : jstr; "generatedAt" : jstr].

Definition createProofNetworkAnchorBatch (input : jsval) : res jsval :=
  let! o := input_object input in
  let! commitments := normalizeCommitments o in
  let! commitmentRoot := sha256Json (VArr commitments) in
  let! generated_at := isoTimestamp
    (field_of o ["generated_at" : jstr; "generatedAt" : jstr; "created_at" : jstr; "createdAt" : jstr])
    "generated_at" EPOCH in
  let! anchor_ref := optionalPublicRef
    (field_of o ["anchor_ref" : jstr; "anchorRef" : jstr; "batch_ref" : jstr; "batchRef" : jstr])
    (refFromDigest "anchor" commitmentRoot) "anchor_ref" in
  let! chain := optionalPublicRef
    (field_of o ["chain" : jstr; "network" : jstr; "public_chain_ref" : jstr; "publicChainRef" : jstr])
    "solana" "chain" in
  let! cluster_ref := optionalPublicRef (field_of o ["cluster_ref" : jstr; "clusterRef" : jstr; "cluster" : jstr])
    "solana:mainnet-ready" "cluster_ref" in
  let! instruction_ref := optionalPublicRef (field_of o ["instruction_ref" : jstr; "instructionRef" : jstr])
    "proof-network-anchor-batch-v1" "instruction_ref" in
  freezeArtifact ([
    ("schema" : jstr, VStr PROOF_NETWORK_ANCHOR_BATCH_SCHEMA); ("generated_at" : jstr, VStr generated_at);
    ("anchor_ref" : jstr, VStr anchor_ref); ("chain" : jstr, VStr chain); ("cluster_ref" : jstr, VStr cluster_ref);
    ("commitment_count" : jstr, vnat (length commitments)); ("root_count" : jstr, vnat (length commitments));
    ("commitment_root" : jstr, VStr commitmentRoot); ("commitments" : jstr, VArr commitments);
    ("solana_ready_anchor" : jstr, VObj [
       ("payload_hash" : jstr, VStr commitmentRoot);
       ("account_derivation_ref" : jstr, VStr ("proofnet:" +s+ short commitmentRoot));
       ("instruction_ref" : jstr, VStr instruction_ref); ("opaque_payload_only" : jstr, VBool true)])]
    ++ SAFE_BOOLEAN_BOUNDARIES) "anchor_batch_id" "anchor_batch_hash" "pna".

Definition validateProofNetworkAnchorBatch (batch : jsval) : verification :=
  collectValidation (
    chk! _ := validate_header batch "batch" PROOF_NETWORK_ANCHOR_BATCH_SCHEMA in
    chk! _ := chk (isoTimestamp (vget batch "generated_at") "generated_at" EPOCH) in
    chk! _ := chk (publicRef (vget batch "anchor_ref") "anchor_ref") in
    chk! _ := chk (publicRef (vget batch "chain") "chain") in
    chk! _ := chk (publicRef (vget batch "cluster_ref") "cluster_ref") in
    chk! commitments := chk (normalizeCommitments [("commitments" : jstr, vget batch "commitments")]) in
    let count := vnat (length commitments) in
    chk! _ := push_if (vget batch "commitment_count" !== count) "commitment_count mismatch" in
    chk! _ := push_if (negb (is_undef (vget batch "root_count")) && (vget batch "root_count" !== count))
      "root_count mismatch" in
    chk! expectedRoot := chk (sha256Json (VArr commitments)) in
    chk! _ := push_if (vget batch "commitment_root" !== VStr expectedRoot) "commitment_root mismatch" in
    let anchor := vget batch "solana_ready_anchor" in
    chk! _ := push_if (vget anchor "payload_hash" !== VStr expectedRoot) "solana_ready_anchor.payload_hash mismatch" in
    chk! _ := push_if (vget anchor "opaque_payload_only" !== VBool true)
      "solana_ready_anchor.opaque_payload_only must be true" in
    chk! _ := chk (publicRef (vget anchor "instruction_ref") "solana_ready_anchor.instruction_ref") in
    validateIdentity batch "anchor_batch_id" "anchor_batch_hash" "pna").

(** ** Capability grants *)
Definition RESOURCE_FIELDS : list jstr :=
  ["resource_roots" : jstr; "resourceRoots" : jstr; "scope_hashes" : jstr; "scopeHashes" : jstr; "scope_roots" : jstr;
   "scopeRoots" : jstr; "policy_hash" : jstr; "policyHash" : jstr; "policy_root" : jstr; "policyRoot" : jstr;
   "proof_root" : jstr; "proofRoot" : jstr; "roots" : jstr].

Definition createCapabilityGrant (input : jsval) : res jsval :=
  let! o := input_object input in
  let! resourceRoots := digestArray (field_of o RESOURCE_FIELDS) "resource_roots" 1 64 in
  let! resourceRoot := sha256Json resourceRoots in
  let! grantRef := optionalPublicRef (field_of o ["grant_ref" : jstr; "grantRef" : jstr])
    (refFromDigest "grant" resourceRoot) "grant_ref" in
  let! issued_at := isoTimestamp (field_of o ["issued_at" : jstr; "issuedAt" : jstr]) "issued_at" EPOCH in
  let! expires_at := isoTimestamp (field_of o ["expires_at" : jstr; "expiresAt" : jstr]) "expires_at" FAR_EXPIRY in
  let! issuer_ref := publicRef (field_of o ["issuer_ref" : jstr; "issuerRef" : jstr]) "issuer_ref" in
  let! subject_ref := publicRef (field_of o ["subject_ref" : jstr; "subjectRef" : jstr]) "subject_ref" in
  let! audience_ref := optionalPublicRef (field_of o ["audience_ref" : jstr; "audienceRef" : jstr])
    "audience:proof-network" "audience_ref" in
  let! scopes := publicScopes
    (field_of o ["scopes" : jstr; "scope" : jstr; "capability_scope" : jstr; "capabilityScope" : jstr; "capability" : jstr])
    "scopes" in
  let! max_uses := nonNegativeInteger (field_of o ["max_uses" : jstr; "maxUses" : jstr]) "max_uses" 0 in
  let! fallback := sha256Json (VObj [("grant_ref" : jstr, VStr grantRef); ("resource_roots" : jstr, resourceRoots)]) in
  let! nonce_hash := optionalDigestRef (field_of o ["nonce_hash" : jstr; "nonceHash" : jstr]) fallback "nonce_hash" in
  let! signature := signature_field o in
  throw_if not_later (VStr expires_at) (VStr issued_at) with RangeError "expires_at must be after issued_at";
  freezeArtifact ([
    ("schema" : jstr, VStr PROOF_NETWORK_CAPABILITY_GRANT_SCHEMA); ("issued_at" : jstr, VStr issued_at);
    ("expires_at" : jstr, VStr expires_at); ("grant_ref" : jstr, VStr grantRef);
    ("issuer_ref" : jstr, VStr issuer_ref); ("subject_ref" : jstr, VStr subject_ref);
    ("audience_ref" : jstr, VStr audience_ref); ("scopes" : jstr, scopes);
    ("resource_root" : jstr, VStr resourceRoot); ("resource_roots" : jstr, resourceRoots);
    ("max_uses" : jstr, max_uses); ("nonce_hash" : jstr, VStr nonce_hash)]
    ++ signature ++ SAFE_BOOLEAN_BOUNDARIES) "capability_grant_id" "capability_grant_hash" "png".

Definition validateCapabilityGrant (grant : jsval) : verification :=
  collectValidation (
    chk! _ := validate_header grant "grant" PROOF_NETWORK_CAPABILITY_GRANT_SCHEMA in
    chk! _ := chk (isoTimestamp (vget grant "issued_at") "issued_at" EPOCH) in
    chk! _ := chk (isoTimestamp (vget grant "expires_at") "expires_at" EPOCH) in
    chk! _ := push_if (not_later (vget grant "expires_at") (vget grant "issued_at"))
      "expires_at must be after issued_at" in
    chk! _ := chk (publicRef (vget grant "grant_ref") "grant_ref") in
    chk! _ := chk (publicRef (vget grant "issuer_ref") "issuer_ref") in
    chk! _ := chk (publicRef (vget grant "subject_ref") "subject_ref") in
    chk! _ := chk (publicRef (vget grant "audience_ref") "audience_ref") in
    chk! resourceRoots := chk (digestArray (vget grant "resource_roots") "resource_roots" 1 64) in
    chk! resourceRoot := chk (sha256Json resourceRoots) in
    chk! _ := push_if (vget grant "resource_root" !== VStr resourceRoot) "resource_root mismatch" in
    chk! _ := chk (publicScopes (vget grant "scopes") "scopes") in
    chk! _ := chk (nonNegativeInteger (vget grant "max_uses") "max_uses" 0) in
    chk! _ := chk (digestRef (vget grant "nonce_hash") "nonce_hash") in
    chk! _ := check_signature grant in
    validateIdentity grant "capability_grant_id" "capability_grant_hash" "png").

(** ** Revocations *)
Definition REASON_FIELDS : list jstr :=
  ["reason_ref" : jstr; "reasonRef" : jstr; "revocation_reason" : jstr; "revocationReason" : jstr].

Definition createCapabilityRevocation (input : jsval) : res jsval :=
  let! o := input_object input in
  let! grantHash := digestRef (field_of o ["grant_hash" : jstr; "grantHash" : jstr]) "grant_hash" in
  let! fallback := sha256Json (VObj [("grant_hash" : jstr, VStr grantHash);
    ("reason_ref" : jstr, field_of o REASON_FIELDS ?? vstr "reason:unspecified")]) in
  let! nullifierRoot := optionalDigestRef
    (field_of o ["nullifier_root" : jstr; "nullifierRoot" : jstr; "nullifier_hash" : jstr; "nullifierHash" : jstr])
    fallback "nullifier_root" in
  let! revocationRef := optionalPublicRef (field_of o ["revocation_ref" : jstr; "revocationRef" : jstr])
    (refFromDigest "revocation" grantHash) "revocation_ref" in
  let! grantId := optionalPublicRef (field_of o ["grant_id" : jstr; "grantId" : jstr])
    (refFromDigest "grant" grantHash) "grant_id" in
  let! nullifierRef := optionalPublicRef (field_of o ["nullifier_ref" : jstr; "nullifierRef" : jstr])
    (refFromDigest "nullifier" nullifierRoot) "nullifier_ref" in
  let! revoked_at := isoTimestamp (field_of o ["revoked_at" : jstr; "revokedAt" : jstr]) "revoked_at" EPOCH in
  let! issuer_ref := optionalPublicRef (field_of o ["issuer_ref" : jstr; "issuerRef" : jstr])
    "issuer:proof-network" "issuer_ref" in
  let! reason_ref := optionalPublicRef (field_of o REASON_FIELDS) "reason:unspecified" "reason_ref" in
  let! signature := signature_field o in
  freezeArtifact ([
    ("schema" : jstr, VStr PROOF_NETWORK_CAPABILITY_REVOCATION_SCHEMA); ("revoked_at" : jstr, VStr revoked_at);
    ("revocation_ref" : jstr, VStr revocationRef); ("grant_id" : jstr, VStr grantId);
    ("grant_hash" : jstr, VStr grantHash); ("issuer_ref" : jstr, VStr issuer_ref);
    ("reason_ref" : jstr, VStr reason_ref); ("nullifier_ref" : jstr, VStr nullifierRef);
    ("nullifier_root" : jstr, VStr nullifierRoot)]
    ++ signature ++ SAFE_BOOLEAN_BOUNDARIES) "capability_revocation_id" "capability_revocation_hash" "pnr".

Definition validateCapabilityRevocation (revocation : jsval) : verification :=
  collectValidation (
    chk! _ := validate_header revocation "revocation" PROOF_NETWORK_CAPABILITY_REVOCATION_SCHEMA in
    chk! _ := chk (isoTimestamp (vget revocation "revoked_at") "revoked_at" EPOCH) in
    chk! _ := chk (publicRef (vget revocation "revocation_ref") "revocation_ref") in
    chk! _ := chk (publicRef (vget revocation "grant_id") "grant_id") in
    chk! _ := chk (digestRef (vget revocation "grant_hash") "grant_hash") in
    chk! _ := chk (publicRef (vget revocation "issuer_ref") "issuer_ref") in
    chk! _ := chk (publicRef (vget revocation "reason_ref") "reason_ref") in
    chk! _ := chk (publicRef (vget revocation "nullifier_ref") "nullifier_ref") in
    chk! _ := chk (digestRef (vget revocation "nullifier_root") "nullifier_root") in
    chk! _ := check_signature revocation in
    validateIdentity revocation "capability_revocation_id" "capability_revocation_hash" "pnr").

(** ** Benchmark attestations *)
Definition METRIC_FIELDS : list jstr :=
  ["metric_roots" : jstr; "metricRoots" : jstr; "metrics_hash" : jstr; "metricsHash" : jstr; "result_roots" : jstr;
   "resultRoots" : jstr; "score_refs" : jstr; "scoreRefs" : jstr].

Definition createBenchmarkAttestation (input : jsval) : res jsval :=
  let! o := input_object input in
  let! reportHash := digestRef
    (field_of o ["report_hash" : jstr; "reportHash" : jstr; "report_file_hash" : jstr; "reportFileHash" : jstr])
    "report_hash" in
  let! metricRoots := digestArray (field_of o METRIC_FIELDS ?? VStr reportHash) "metric_roots" 1 64 in
  let! attested_at := isoTimestamp
    (field_of o ["attested_at" : jstr; "attestedAt" : jstr; "generated_at" : jstr; "generatedAt" : jstr;
                 "created_at" : jstr; "createdAt" : jstr]) "attested_at" EPOCH in
  let! benchmark_ref := optionalPublicRef (field_of o ["benchmark_ref" : jstr; "benchmarkRef" : jstr])
    "benchmark:memory-v1" "benchmark_ref" in
  let! dataset_ref := publicRef (field_of o ["dataset_ref" : jstr; "datasetRef" : jstr]) "dataset_ref" in
  let! runner_ref := publicRef (field_of o ["runner_ref" : jstr; "runnerRef" : jstr]) "runner_ref" in
  let! package_ref := publicRef (field_of o ["package_ref" : jstr; "packageRef" : jstr]) "package_ref" in
  let! metric_root := sha256Json metricRoots in
  let! sample_count := nonNegativeInteger (field_of o ["sample_count" : jstr; "sampleCount" : jstr]) "sample_count" 0 in
  let! run_count := positiveInteger (field_of o ["run_count" : jstr; "runCount" : jstr] ?? vint 1) "run_count" in
  let! signature := signature_field o in
  freezeArtifact ([
    ("schema" : jstr, VStr PROOF_NETWORK_BENCHMARK_ATTESTATION_SCHEMA); ("attested_at" : jstr, VStr attested_at);
    ("benchmark_ref" : jstr, VStr benchmark_ref); ("dataset_ref" : jstr, VStr dataset_ref);
    ("runner_ref" : jstr, VStr runner_ref); ("package_ref" : jstr, VStr package_ref);
    ("report_hash" : jstr, VStr reportHash); ("metric_root" : jstr, VStr metric_root);
    ("metric_roots" : jstr, metricRoots); ("sample_count" : jstr, sample_count); ("run_count" : jstr, run_count)]
    ++ signature ++ SAFE_BOOLEAN_BOUNDARIES) "benchmark_attestation_id" "benchmark_attestation_hash" "pnb".

Definition validateBenchmarkAttestation (attestation : jsval) : verification :=
  collectValidation (
    chk! _ := validate_header attestation "attestation" PROOF_NETWORK_BENCHMARK_ATTESTATION_SCHEMA in
    chk! _ := chk (isoTimestamp (vget attestation "attested_at") "attested_at" EPOCH) in
    chk! _ := chk (publicRef (vget attestation "benchmark_ref") "benchmark_ref") in
    chk! _ := chk (publicRef (vget attestation "dataset_ref") "dataset_ref") in
    chk! _ := chk (publicRef (vget attestation "runner_ref") "runner_ref") in
    chk! _ := chk (publicRef (vget attestation "package_ref") "package_ref") in
    chk! _ := chk (digestRef (vget attestation "report_hash") "report_hash") in
    chk! metricRoots := chk (digestArray (vget attestation "metric_roots") "metric_roots" 1 64) in
    chk! metricRoot := chk (sha256Json metricRoots) in
    chk! _ := push_if (vget attestation "metric_root" !== VStr metricRoot) "metric_root mismatch" in
    chk! _ := chk (nonNegativeInteger (vget attestation "sample_count") "sample_count" 0) in
    chk! _ := chk (positiveInteger (vget attestation "run_count") "run_count") in
    chk! _ := check_signature attestation in
    validateIdentity attestation "benchmark_attestation_id" "benchmark_attestation_hash" "pnb").

(** ** Registry entries *)
Definition REGISTRY_FIELDS : list jstr :=
  ["registry_ref" : jstr; "registryRef" : jstr; "marketplace_ref" : jstr; "marketplaceRef" : jstr].

Definition not_an_entry_type (field : jstr) : jstr := field +s+ " must be one of " +s+ join ", " REGISTRY_ENTRY_TYPES.

Definition registryEntryType (value : jsval) (field : jstr) : res jstr :=
  if is_blank value then Throw (TypeError (not_an_entry_type field))
  else
    let! type := requiredString value field in
    throw_if negb (mem_str type REGISTRY_ENTRY_TYPES) with TypeError (not_an_entry_type field); Ok type.

Definition createRegistryEntry (input : jsval) : res jsval :=
  let! o := input_object input in
  let! entryType := registryEntryType (field_of o ["entry_type" : jstr; "entryType" : jstr; "type" : jstr]) "entry_type" in
  let! artifactHash := digestRef
    (field_of o ["artifact_hash" : jstr; "artifactHash" : jstr; "digest_ref" : jstr; "digestRef" : jstr])
    "artifact_hash" in
  let! artifactSchemaRef := publicRef
    (field_of o ["artifact_schema_ref" : jstr; "artifactSchemaRef" : jstr; "schema_ref" : jstr; "schemaRef" : jstr])
    "artifact_schema_ref" in
  let! digestRefs := digestArray
    (field_of o ["digest_refs" : jstr; "digestRefs" : jstr; "digest_roots" : jstr; "digestRoots" : jstr; "roots" : jstr]
     ?? VStr artifactHash) "digest_refs" 1 64 in
  let! signerRefs := publicRefArray
    (field_of o ["signer_refs" : jstr; "signerRefs" : jstr; "signer_ref" : jstr; "signerRef" : jstr])
    "signer_refs" 0 64 in
  let! entryRef := optionalPublicRef (field_of o ["entry_ref" : jstr; "entryRef" : jstr])
    (refFromDigest "registry-entry" artifactHash) "entry_ref" in
  let! registered_at := isoTimestamp (field_of o (["registered_at" : jstr; "registeredAt" : jstr] ++ TIMESTAMP_FIELDS))
    "registered_at" EPOCH in
  let! registry_ref := optionalPublicRef (field_of o REGISTRY_FIELDS) "registry:memory-drive-marketplace" "registry_ref" in
  let! digest_root := sha256Json digestRefs in
  let! entry_count := nonNegativeInteger (field_of o ["entry_count" : jstr; "entryCount" : jstr; "count" : jstr])
    "entry_count" 1 in
  let! signature := signature_field o in
  freezeArtifact ([
    ("schema" : jstr, VStr PROOF_NETWORK_REGISTRY_ENTRY_SCHEMA); ("registered_at" : jstr, VStr registered_at);
    ("entry_type" : jstr, VStr entryType); ("entry_ref" : jstr, VStr entryRef);
    ("registry_ref" : jstr, VStr registry_ref); ("artifact_schema_ref" : jstr, VStr artifactSchemaRef);
    ("artifact_hash" : jstr, VStr artifactHash); ("digest_root" : jstr, VStr digest_root);
    ("digest_refs" : jstr, digestRefs); ("signer_refs" : jstr, VArr signerRefs); ("entry_count" : jstr, entry_count)]
    ++ signature ++ SAFE_BOOLEAN_BOUNDARIES) "registry_entry_id" "registry_entry_hash" "pnrg".

Definition validateRegistryEntry (entry : jsval) : verification :=
  collectValidation (
    chk! _ := validate_header entry "entry" PROOF_NETWORK_REGISTRY_ENTRY_SCHEMA in
    chk! _ := chk (isoTimestamp (vget entry "registered_at") "registered_at" EPOCH) in
    chk! _ := push_if (negb (set_has REGISTRY_ENTRY_TYPES (vget entry "entry_type"))) (not_an_entry_type "entry_type") in
    chk! _ := chk (publicRef (vget entry "entry_ref") "entry_ref") in
    chk! _ := chk (publicRef (vget entry "registry_ref") "registry_ref") in
    chk! _ := chk (publicRef (vget entry "artifact_schema_ref") "artifact_schema_ref") in
    chk! _ := chk (digestRef (vget entry "artifact_hash") "artifact_hash") in
    chk! digestRefs := chk (digestArray (vget entry "digest_refs") "digest_refs" 1 64) in
    chk! digestRoot := chk (sha256Json digestRefs) in
    chk! _ := push_if (vget entry "digest_root" !== VStr digestRoot) "digest_root mismatch" in
    chk! _ := chk (publicRefArray (vget entry "signer_refs") "signer_refs" 0 64) in
    chk! _ := chk (nonNegativeInteger (vget entry "entry_count") "entry_count" 0) in
    chk! _ := check_signature entry in
    validateIdentity entry "registry_entry_id" "registry_entry_hash" "pnrg").

Definition createProofRegistryEntry : jsval -> res jsval := createRegistryEntry.
Definition validateProofRegistryEntry : jsval -> verification := validateRegistryEntry.

(** ** Lists of artifacts *)

(** [`${where} is invalid: ${errors.join('; ')}`]. *)
Definition invalid (path : jstr) (validation : verification) : jstr :=
  path +s+ " is invalid: " +s+ join "; " (v_errors validation).

(** [JSON.stringify(a) !== JSON.stringify(b)]. *)
Definition json_differs (a b : jsval) : res bool :=
  let! s := json_stringify a in let! t := json_stringify b in Ok (negb (bool_decide (s = t))).

(** The end of the two validators of lists: the count, the root and the sorted hashes.
    [hashes] are those the loop collected. *)
Definition check_listing (artifact : jsval) (countField rootField hashesField : jstr) (count : nat)
    (hashes : list jstr) : checks unit :=
  let sorted := VArr (text_values (sort_strings hashes)) in
  chk! _ := push_if (vget artifact countField !== vnat count) (countField +s+ " mismatch") in
  chk! root := chk (sha256Json sorted) in
  chk! _ := push_if (vget artifact rootField !== VStr root) (rootField +s+ " mismatch") in
  chk! differs := chk (json_differs (vget artifact hashesField) sorted) in
  push_if differs (hashesField +s+ " mismatch").

(** ** Registry batches *)
Definition must_be_entry (path : jstr) : jstr := path +s+ " must be a " +s+ PROOF_NETWORK_REGISTRY_ENTRY_SCHEMA.

Definition registry_entry (index : nat) (entry : jsval) : res jsval :=
  let path := at_index "entries" index in
  let! _ := requiredObject entry path in
  throw_if vget entry "schema" !== VStr PROOF_NETWORK_REGISTRY_ENTRY_SCHEMA with TypeError (must_be_entry path);
  let validation := validateRegistryEntry entry in
  throw_if negb (v_ok validation) with TypeError (invalid path validation);
  Ok entry.

(** [input.entries]: a map, a set or a buffer inherits a method of this name. *)
Definition entries_field (input : jsval) : jsval :=
  match input with
  | VMap _ | VSet _ | VBytes _ _ => VOpaque OFunction "function entries() { [native code] }"
  | _ => field_of (own_fields input) ["entries" : jstr; "registry_entries" : jstr; "registryEntries" : jstr]
  end.

Definition createRegistryBatch (input : jsval) : res jsval :=
  let! o := input_object input in
  let! entries := map_items registry_entry (arrayInput (entries_field input)) in
  throw_if (length entries =? 0)%nat with TypeError "entries must be non-empty";
  throw_if (128 <? length entries)%nat with TypeError "entries must contain at most 128 entries";
  let! hashes := map_items (λ _ entry,
    as_string (requiredString (vget entry "registry_entry_hash") "entries.registry_entry_hash")) entries in
  let entryHashes := default_sort hashes in
  let! registryRoot := sha256Json (VArr entryHashes) in
  let! created_at := isoTimestamp (field_of o TIMESTAMP_FIELDS) "created_at" EPOCH in
  let! registry_ref := optionalPublicRef (field_of o REGISTRY_FIELDS)
    (refFromDigest "registry-batch" registryRoot) "registry_ref" in
  freezeArtifact ([
    ("schema" : jstr, VStr PROOF_NETWORK_REGISTRY_BATCH_SCHEMA); ("created_at" : jstr, VStr created_at);
    ("registry_ref" : jstr, VStr registry_ref); ("entry_count" : jstr, vnat (length entries));
    ("registry_root" : jstr, VStr registryRoot); ("entry_hashes" : jstr, VArr entryHashes);
    ("entries" : jstr, VArr entries)]
    ++ SAFE_BOOLEAN_BOUNDARIES) "registry_batch_id" "registry_batch_hash" "pnrb".

(** The loop over the entries, which collects their hashes. *)
Fixpoint check_entries (index : nat) (entries : list jsval) : checks (list jstr) :=
  match entries with
  | [] => chk (Ok [])
  | e :: entries' =>
      let entry := elem e in
      let path := at_index "entries" index in
      chk! _ := chk (requiredObject entry path) in
      if vget entry "schema" !== VStr PROOF_NETWORK_REGISTRY_ENTRY_SCHEMA then
        chk! _ := push_if true (must_be_entry path) in check_entries (S index) entries'
      else
        let validation := validateRegistryEntry entry in
        chk! _ := push_if (negb (v_ok validation)) (invalid path validation) in
        chk! hash := chk (requiredString (vget entry "registry_entry_hash") (path +s+ ".registry_entry_hash")) in
        chk! hashes := check_entries (S index) entries' in
        chk (Ok (hash :: hashes))
  end.

Definition validateRegistryBatch (batch : jsval) : verification :=
  collectValidation (
    chk! _ := validate_header batch "batch" PROOF_NETWORK_REGISTRY_BATCH_SCHEMA in
    chk! _ := chk (isoTimestamp (vget batch "created_at") "created_at" EPOCH) in
    chk! _ := chk (publicRef (vget batch "registry_ref") "registry_ref") in
    let entries := items_of (vget batch "entries") in
    chk! _ := push_if (out_of_bounds entries 1 128) "entries must contain 1-128 entries" in
    chk! hashes := check_entries 0 entries in
    chk! _ := check_listing batch "entry_count" "registry_root" "entry_hashes" (length entries) hashes in
    validateIdentity batch "registry_batch_id" "registry_batch_hash" "pnrb").

Definition createProofRegistryBatch : jsval -> res jsval := createRegistryBatch.
Definition validateProofRegistryBatch : jsval -> verification := validateRegistryBatch.

(** ** Packets *)

(** [artifact?.schema] as a text of the table of schemas. *)
Definition schema_is (artifact : jsval) (schema : jstr) : bool := vget artifact "schema" === VStr schema.

(** The field [artifactHash] reads. *)
Definition hash_field (artifact : jsval) : option jstr :=
  if schema_is artifact PROOF_NETWORK_ANCHOR_BATCH_SCHEMA then Some ("anchor_batch_hash" : jstr)
  else if schema_is artifact PROOF_NETWORK_CAPABILITY_GRANT_SCHEMA then Some ("capability_grant_hash" : jstr)
  else if schema_is artifact PROOF_NETWORK_CAPABILITY_REVOCATION_SCHEMA then Some ("capability_revocation_hash" : jstr)
  else if schema_is artifact PROOF_NETWORK_BENCHMARK_ATTESTATION_SCHEMA then Some ("benchmark_attestation_hash" : jstr)
  else if schema_is artifact PROOF_NETWORK_PACKET_SCHEMA then Some ("proof_network_packet_hash" : jstr)
  else if schema_is artifact PROOF_NETWORK_REGISTRY_ENTRY_SCHEMA then Some ("registry_entry_hash" : jstr)
  else if schema_is artifact PROOF_NETWORK_REGISTRY_BATCH_SCHEMA then Some ("registry_batch_hash" : jstr)
  else None.

Definition artifactHash (index : nat) (artifact : jsval) : res jstr :=
  let path := at_index "artifacts" index in
  match hash_field artifact with
  | Some field => requiredString (vget artifact field) (path +s+ "." +s+ field)
  | None => Throw (TypeError (path +s+ " has unsupported schema"))
  end.

(** [validateSupportedArtifact] on anything but a packet: both callers inside packets
    refuse a nested packet first. *)
Definition validateOtherArtifact (artifact : jsval) : verification :=
  if schema_is artifact PROOF_NETWORK_ANCHOR_BATCH_SCHEMA then validateProofNetworkAnchorBatch artifact
  else if schema_is artifact PROOF_NETWORK_CAPABILITY_GRANT_SCHEMA then validateCapabilityGrant artifact
  else if schema_is artifact PROOF_NETWORK_CAPABILITY_REVOCATION_SCHEMA then validateCapabilityRevocation artifact
  else if schema_is artifact PROOF_NETWORK_BENCHMARK_ATTESTATION_SCHEMA then validateBenchmarkAttestation artifact
  else if schema_is artifact PROOF_NETWORK_REGISTRY_ENTRY_SCHEMA then validateRegistryEntry artifact
  else if schema_is artifact PROOF_NETWORK_REGISTRY_BATCH_SCHEMA then validateRegistryBatch artifact
  else verificationResult ["unsupported artifact schema" : jstr].

Definition packet_artifact (index : nat) (artifact : jsval) : res jsval :=
  let path := at_index "artifacts" index in
  let! _ := requiredObject artifact path in
  throw_if negb (set_has SUPPORTED_ARTIFACT_SCHEMAS (vget artifact "schema")) || schema_is artifact PROOF_NETWORK_PACKET_SCHEMA
    with TypeError (path +s+ " has unsupported schema");
  let validation := validateOtherArtifact artifact in
  throw_if negb (v_ok validation) with TypeError (invalid path validation);
  Ok artifact.

(** The properties that list artifacts, spread one after the other. *)
Definition ARTIFACT_FIELDS : list (list jstr) :=
  [["artifacts" : jstr]; ["anchor_batch" : jstr; "anchorBatch" : jstr]; ["anchor_batches" : jstr; "anchorBatches" : jstr];
   ["capability_grants" : jstr; "capabilityGrants" : jstr]; ["grants" : jstr];
   ["capability_revocations" : jstr; "capabilityRevocations" : jstr]; ["revocations" : jstr];
   ["benchmark_attestations" : jstr; "benchmarkAttestations" : jstr]; ["attestations" : jstr]].

Definition createProofNetworkPacket (input : jsval) : res jsval :=
  let! o := input_object input in
  let artifacts := flat_map (λ names, map elem (arrayInput (field_of o names))) ARTIFACT_FIELDS in
  throw_if (length artifacts =? 0)%nat with TypeError "artifacts must be non-empty";
  throw_if (128 <? length artifacts)%nat with TypeError "artifacts must contain at most 128 entries";
  let! validatedArtifacts := imap_res packet_artifact artifacts in
  let! hashes := imap_res artifactHash validatedArtifacts in
  let artifactHashes := VArr (text_values (sort_strings hashes)) in
  let! artifactRoot := sha256Json artifactHashes in
  let! created_at := isoTimestamp (field_of o TIMESTAMP_FIELDS) "created_at" EPOCH in
  let! packet_ref := optionalPublicRef (field_of o ["packet_ref" : jstr; "packetRef" : jstr])
    (refFromDigest "packet" artifactRoot) "packet_ref" in
  freezeArtifact ([
    ("schema" : jstr, VStr PROOF_NETWORK_PACKET_SCHEMA); ("created_at" : jstr, VStr created_at);
    ("packet_ref" : jstr, VStr packet_ref); ("artifact_count" : jstr, vnat (length validatedArtifacts));
    ("artifact_root" : jstr, VStr artifactRoot); ("artifact_hashes" : jstr, artifactHashes);
    ("artifacts" : jstr, VArr validatedArtifacts)]
    ++ SAFE_BOOLEAN_BOUNDARIES) "proof_network_packet_id" "proof_network_packet_hash" "pnp".

(** The loop over the artifacts, which collects their hashes. *)
Fixpoint check_artifacts (index : nat) (artifacts : list jsval) : checks (list jstr) :=
  match artifacts with
  | [] => chk (Ok [])
  | a :: artifacts' =>
      let artifact := elem a in
      let path := at_index "artifacts" index in
      chk! _ := chk (requiredObject artifact path) in
      if schema_is artifact PROOF_NETWORK_PACKET_SCHEMA then
        chk! _ := push_if true (path +s+ " must not be a nested packet") in check_artifacts (S index) artifacts'
      else
        let validation := validateOtherArtifact artifact in
        chk! _ := push_if (negb (v_ok validation)) (invalid path validation) in
        chk! hash := chk (artifactHash index artifact) in
        chk! hashes := check_artifacts (S index) artifacts' in
        chk (Ok (hash :: hashes))
  end.

Definition validateProofNetworkPacket (packet : jsval) : verification :=
  collectValidation (
    chk! _ := validate_header packet "packet" PROOF_NETWORK_PACKET_SCHEMA in
    chk! _ := chk (isoTimestamp (vget packet "created_at") "created_at" EPOCH) in
    chk! _ := chk (publicRef (vget packet "packet_ref") "packet_ref") in
    let artifacts := items_of (vget packet "artifacts") in
    chk! _ := push_if (out_of_bounds artifacts 1 128) "artifacts must contain 1-128 entries" in
    chk! hashes := check_artifacts 0 artifacts in
    chk! _ := check_listing packet "artifact_count" "artifact_root" "artifact_hashes" (length artifacts) hashes in
    validateIdentity packet "proof_network_packet_id" "proof_network_packet_hash" "pnp").

Definition validateSupportedArtifact (artifact : jsval) : verification :=
  if schema_is artifact PROOF_NETWORK_PACKET_SCHEMA then validateProofNetworkPacket artifact
  else validateOtherArtifact artifact.
End proof_network.
