(* ===== verification/ProofNetworkFields.v ===== *)
(** * Fields of proof-network artifacts

    Every field an artifact is created with passes the check of the validator, the sorts of
    lists and commitments are stable under themselves, and so the artifacts that list no
    other artifact are accepted by their validators. *)

From S2P Require Import Prelude JsValue Objects Regex Canonical Hashing LaunchLedger Dates VaultPublic Vault Samples Settlement ProofNetwork.

(** Two texts compare one way or the other. *)
Class LocaleLaws (L : Locale) := { locale_total : forall a b, locale_leb a b = true \/ locale_leb b a = true }.

(** ** Collected errors *)
Definition passed {A} (m : checks A) (a : A) : Prop := m = checked [] (Ok a).

Lemma passed_bind {A B} (m : checks A) (k : A -> checks B) b :
  passed (chk_bind m k) b <-> exists a, passed m a /\ passed (k a) b.
Proof.
  unfold passed, chk_bind. destruct m as [es [a|e]]; cbn [errors outcome].
  - split.
    + destruct (k a) as [es' o] eqn:Ek. cbn [errors outcome]. intros H. injection H as H ->.
      apply app_nil in H as [-> ->]. by exists a.
    + intros (a' & [= -> ->] & ->). done.
  - split; [intros H; by injection H|]. by intros (a' & H & _).
Qed.

Lemma passed_chk {A} (m : res A) a : passed (chk m) a <-> m = Ok a.
Proof. unfold passed, chk. split; [by intros [= ->]|by intros ->]. Qed.

Lemma passed_push b message a : passed (push_if b message) a <-> b = false.
Proof. unfold passed, push_if. destruct a, b; naive_solver. Qed.

Lemma collect_passed m : collectValidation m = verificationResult [] <-> passed m tt.
Proof.
  unfold collectValidation, passed. destruct m as [[|e es] [[]|x]]; cbn [errors outcome]; unfold verificationResult; naive_solver.
Qed.

Lemma collect_ok m : v_ok (collectValidation m) = true <-> passed m tt.
Proof.
  rewrite <- collect_passed. unfold collectValidation, verificationResult. cbn [v_ok].
  rewrite bool_decide_eq_true. split; [by intros ->|]. intros H. by injection H.
Qed.

(** Every step of a validator passes: [run_checks] in the goal, [inv_checks] in a
    hypothesis. *)
Ltac run_checks :=
  repeat (apply passed_bind; eexists; split;
    [first [apply passed_chk | apply (passed_push _ _ tt) | idtac]|]; cbn beta).

Ltac inv_checks H :=
  repeat (let a := fresh "a" in let Hm := fresh "Hc" in apply passed_bind in H as (a & Hm & H);
    first [apply passed_chk in Hm | apply passed_push in Hm | idtac]; cbn beta in H).

(** ** The scan and the JSON check as predicates *)
Fixpoint no_private (value : jsval) : bool :=
  match value with
  | VStr s => negb (re_search SECRET_VALUE_RE s)
  | VArr items => forallb no_private items
  | VObj fields | VInst _ fields =>
      forallb (λ kv : jstr * jsval,
        negb (is_forbidden_key kv.1 && negb (mem_str kv.1 SAFE_FIELD_NAMES))
        && negb (mem_str kv.1 SAFE_FIELD_NAMES && (kv.2 !== VBool false)) && no_private kv.2) fields
  | _ => true
  end.

Lemma scan_spec value path : assertNoPrivateProofPayload value path = Ok tt <-> no_private value = true.
Proof.
  revert path. induction value as [| |b|x|s| |items IH|fields IH|t fields IH| | |t b|k t] using jsval_ind; intros path;
    lazymatch goal with |- context [VStr] => idtac | |- context [VArr] => idtac | |- context [VObj] => idtac
      | |- context [VInst] => idtac | _ => by split end.
  - cbn [assertNoPrivateProofPayload no_private]. destruct (re_search SECRET_VALUE_RE s); by split.
  - cbn [assertNoPrivateProofPayload no_private]. generalize 0%nat. induction IH as [|v items Hv _ IHi]; intros n; [by split|].
    cbn [forallb]. rewrite res_bind_ok, andb_true_iff. split.
    + intros ([] & Hh & Ht). split; [by eapply Hv|by eapply IHi].
    + intros [Hh Ht]. exists tt. split; [by apply Hv|by apply IHi].
  - cbn [assertNoPrivateProofPayload no_private]. induction IH as [|kv fields Hv _ IHf]; [by split|]. cbn [forallb].
    destruct (is_forbidden_key kv.1 && _); [by split|]. destruct (mem_str kv.1 SAFE_FIELD_NAMES && _); [by split|].
    cbn [negb andb]. rewrite res_bind_ok, andb_true_iff, <- IHf. split.
    + intros ([] & Hh & Ht). split; [by eapply Hv|done].
    + intros [Hh Ht]. exists tt. split; [by apply Hv|done].
  - cbn [assertNoPrivateProofPayload no_private]. induction IH as [|kv fields Hv _ IHf]; [by split|]. cbn [forallb].
    destruct (is_forbidden_key kv.1 && _); [by split|]. destruct (mem_str kv.1 SAFE_FIELD_NAMES && _); [by split|].
    cbn [negb andb]. rewrite res_bind_ok, andb_true_iff, <- IHf. split.
    + intros ([] & Hh & Ht). split; [by eapply Hv|done].
    + intros [Hh Ht]. exists tt. split; [by apply Hv|done].
Qed.

Fixpoint json_value (value : jsval) : bool :=
  match value with
  | VNum n => num_is_finite n
  | VArr items => forallb json_value items
  | VObj fields | VInst _ fields => forallb (λ kv : jstr * jsval, negb (is_undef kv.2) && json_value kv.2) fields
  | VUndef | VOpaque _ _ => false
  | _ => true
  end.

Lemma json_spec value path : assertJsonValue value path = Ok tt <-> json_value value = true.
Proof.
  revert path. induction value as [| |b|x|s| |items IH|fields IH|t fields IH| | |t b|k t] using jsval_ind; intros path;
    lazymatch goal with |- context [VNum] => idtac | |- context [VArr] => idtac | |- context [VObj] => idtac
      | |- context [VInst] => idtac | _ => by split end.
  - cbn [assertJsonValue json_value]. destruct (num_is_finite x); by split.
  - cbn [assertJsonValue json_value]. generalize 0%nat. induction IH as [|v items Hv _ IHi]; intros n; [by split|].
    cbn [forallb]. rewrite res_bind_ok, andb_true_iff. split.
    + intros ([] & Hh & Ht). split; [by eapply Hv|by eapply IHi].
    + intros [Hh Ht]. exists tt. split; [by apply Hv|by apply IHi].
  - cbn [assertJsonValue json_value]. induction IH as [|kv fields Hv _ IHf]; [by split|]. cbn [forallb].
    destruct (is_undef kv.2); [by split|]. cbn [negb andb]. rewrite res_bind_ok, andb_true_iff, <- IHf. split.
    + intros ([] & Hh & Ht). split; [by eapply Hv|done].
    + intros [Hh Ht]. exists tt. split; [by apply Hv|done].
  - cbn [assertJsonValue json_value]. induction IH as [|kv fields Hv _ IHf]; [by split|]. cbn [forallb].
    destruct (is_undef kv.2); [by split|]. cbn [negb andb]. rewrite res_bind_ok, andb_true_iff, <- IHf. split.
    + intros ([] & Hh & Ht). split; [by eapply Hv|done].
    + intros [Hh Ht]. exists tt. split; [by apply Hv|done].
Qed.

(** ** Texts *)
Lemma drop_spaces_again s : drop_spaces (drop_spaces s) = drop_spaces s.
Proof. induction s as [|c s IH]; [done|]. cbn [drop_spaces]. destruct (is_space c) eqn:E; [done|]. cbn [drop_spaces]. by rewrite E. Qed.

Lemma drop_spaces_suffix s : exists a, s = a ++ drop_spaces s.
Proof.
  induction s as [|c s [a IH]]; [by exists []|]. cbn [drop_spaces]. destruct (is_space c); [|by exists []].
  exists (c :: a). cbn [app]. by rewrite <- IH.
Qed.

Lemma drop_spaces_prefix a b : drop_spaces (a ++ b) = a ++ b -> a <> [] -> drop_spaces a = a.
Proof.
  destruct a as [|c a]; [done|]. cbn [app drop_spaces]. destruct (is_space c) eqn:E; [|by intros]. intros H _. exfalso.
  destruct (drop_spaces_suffix (a ++ b)) as [p Hp]. rewrite H in Hp. apply (f_equal length) in Hp.
  rewrite !length_app in Hp. cbn [length] in Hp. rewrite length_app in Hp. lia.
Qed.

Lemma trim_again s : trim (trim s) = trim s.
Proof.
  unfold trim. set (t := drop_spaces s). destruct (drop_spaces_suffix (reverse t)) as [a Ha].
  set (u := reverse (drop_spaces (reverse t))).
  assert (t = u ++ reverse a) as Ht.
  { rewrite <- (reverse_involutive t), Ha, reverse_app. done. }
  assert (drop_spaces u = u) as ->.
  { destruct (decide (u = [])) as [->|Hn]; [done|]. apply (drop_spaces_prefix u (reverse a)); [|done].
    rewrite <- Ht. apply drop_spaces_again. }
  unfold u. rewrite reverse_involutive. by rewrite drop_spaces_again.
Qed.

Lemma no_spaces_trim s : Forall (λ c, is_space c = false) s -> trim s = s.
Proof.
  assert (forall l, Forall (λ c, is_space c = false) l -> drop_spaces l = l) as H.
  { intros l [|c l' Hc _]; [done|]. cbn [drop_spaces]. by rewrite Hc. }
  intros Hs. unfold trim. rewrite (H s Hs), (H (reverse s)); [by rewrite reverse_involutive|]. by apply Forall_reverse.
Qed.

(** ** What is read back *)
Section reread.
#[local] Opaque class_ranges.
Context {C : Crypto} {Hst : Host} {Loc : Locale} {P : Platform}.

Lemma requiredString_stable v f s g : requiredString v f = Ok s -> requiredString (VStr s) g = Ok s.
Proof.
  destruct v; try done. cbn [requiredString]. intros H. inv_res. by rewrite trim_again, E.
Qed.

Lemma requiredString_blank v f s : requiredString v f = Ok s -> is_blank (VStr s) = false.
Proof. destruct v; try done. cbn [requiredString]. intros H. inv_res. done. Qed.

Lemma matching_stable r what v f s g : matching r what v f = Ok s -> matching r what (VStr s) g = Ok s.
Proof.
  unfold matching. intros H. inv_res. rewrite (requiredString_stable _ _ _ g H0). cbn [res_bind]. by rewrite E.
Qed.


(** A reference: a first unit and 2 to 191 more of the class. *)
Definition ref_unit (c : N) : bool := cls_match false (class_ranges "a-z0-9._:/@+-") c.

Definition ref_text (s : jstr) : bool :=
  match s with
  | [] => false
  | c :: t => cls_match false (class_ranges "a-z0-9") c && forallb ref_unit t
              && (2 <=? length t)%nat && (length t <=? 191)%nat
  end.

Lemma ascii_units (f g : N -> bool) c :
  forallb (λ i, implb (f (N.of_nat i)) (g (N.of_nat i))) (List.seq 0 128) = true -> (c < 128)%N -> f c = true -> g c = true.
Proof.
  rewrite forallb_forall. intros H Hc Hf. specialize (H (N.to_nat c)). rewrite N2Nat.id, Hf in H.
  apply H, in_seq. lia.
Qed.

Lemma class_ascii s c :
  forallb (λ lh : N * N, (lh.2 <? 128)%N) (class_ranges s) = true -> cls_match false (class_ranges s) c = true -> (c < 128)%N.
Proof.
  unfold cls_match. rewrite xorb_false_l, forallb_forall, existsb_exists.
  intros Hf (lh & Hin & [_ Hc%N.leb_le]%andb_true_iff). specialize (Hf _ Hin). cbn beta in Hf. apply N.ltb_lt in Hf. lia.
Qed.

Definition no_space_unit (c : N) : bool := negb (is_space c).

Lemma ref_unit_ascii c : ref_unit c = true -> (c < 128)%N.
Proof. unfold ref_unit. apply class_ascii. by vm_compute. Qed.

Lemma hex_ascii c : is_hex c = true -> (c < 128)%N.
Proof. unfold is_hex. apply class_ascii. by vm_compute. Qed.

Lemma ref_unit_spaces : forallb (λ i, implb (ref_unit (N.of_nat i)) (no_space_unit (N.of_nat i))) (List.seq 0 128) = true.
Proof. by vm_compute. Qed.

Lemma hex_ref_units : forallb (λ i, implb (is_hex (N.of_nat i)) (ref_unit (N.of_nat i))) (List.seq 0 128) = true.
Proof. by vm_compute. Qed.

Lemma ref_unit_no_space c : ref_unit c = true -> is_space c = false.
Proof.
  intros H. apply negb_true_iff.
  exact (ascii_units ref_unit no_space_unit c ref_unit_spaces (ref_unit_ascii c H) H).
Qed.

Lemma hex_ref_unit c : is_hex c = true -> ref_unit c = true.
Proof. intros H. exact (ascii_units is_hex ref_unit c hex_ref_units (hex_ascii c H) H). Qed.

Lemma lang_rupto_cls n neg rs s :
  length s <= n -> Forall (λ c, cls_match neg rs c = true) s -> re_lang (rupto n (RCls neg rs)) s.
Proof.
  revert s. induction n as [|n IH]; intros s Hl Hs; cbn [rupto].
  - destruct s; [constructor|cbn in Hl; lia].
  - destruct Hs as [|c s Hc Hs]; [apply lang_alt_l; constructor|]. apply lang_alt_r, lang_mk_seq.
    apply (lang_seq _ _ [c]); [by constructor|]. apply IH; [cbn in Hl; lia|done].
Qed.

Lemma lang_rrange_cset m n cs s :
  m <= length s <= n -> Forall (λ c, cls_match false (class_ranges cs) c = true) s -> re_lang (rrange m n (cset cs)) s.
Proof.
  unfold cset. generalize (class_ranges cs) as rs. generalize false as neg. intros neg rs.
  intros Hl Hs. rewrite <- (take_drop m s) in Hs |- *. apply Forall_app in Hs as [H1 H2].
  unfold rrange. apply lang_mk_seq. constructor.
  - apply lang_rrep_cls. split; [rewrite length_take; lia|done].
  - apply lang_rupto_cls; [rewrite length_drop; lia|done].
Qed.

Lemma REF_RE_lang c t :
  cls_match false (class_ranges "a-z0-9") c = true -> Forall (λ c, ref_unit c = true) t -> 2 <= length t <= 191 ->
  re_lang REF_RE (c :: t).
Proof.
  intros Hc Ht Hl. unfold REF_RE. apply lang_mk_seq.
  exact (lang_seq _ _ [c] t (lang_cls _ _ _ Hc) (lang_rrange_cset 2 191 _ t Hl Ht)).
Qed.

Lemma ref_text_lang s : ref_text s = true -> re_full REF_RE s = true.
Proof.
  destruct s as [|c t]; [done|]. unfold ref_text. rewrite !andb_true_iff, !Nat.leb_le, forallb_forall.
  intros [[[Hc Ht] H2] H191]. apply re_full_spec. apply REF_RE_lang; [exact Hc| |split; assumption].
  apply Forall_forall. intros x Hx%list_elem_of_In. exact (Ht x Hx).
Qed.

Lemma ref_text_publicRef s f : ref_text s = true -> publicRef (VStr s) f = Ok s.
Proof.
  intros H. unfold publicRef, matching, requiredString. assert (trim s = s) as ->.
  { apply no_spaces_trim. destruct s as [|c t]; [done|]. unfold ref_text in H. rewrite !andb_true_iff, forallb_forall in H.
    destruct H as [[[Hc Ht] _] _]. constructor; [|apply Forall_forall; intros x Hx%list_elem_of_In; by apply ref_unit_no_space, Ht].
    apply ref_unit_no_space. unfold ref_unit, cls_match in *. revert Hc. vm_compute class_ranges. cbn [existsb fst snd].
    rewrite !xorb_false_l, !orb_true_iff. naive_solver. }
  destruct (s =s= []) eqn:E; [by apply str_eqb_eq in E as ->|]. cbn [res_bind]. by rewrite (ref_text_lang _ H).
Qed.

(** Digests: [sha256:] and 64 hexadecimal digits. *)
Lemma short_hex h : is_hex64 h -> length (short (SHA256_PREFIX +s+ h)) = 32 /\
  forallb ref_unit (short (SHA256_PREFIX +s+ h)) = true.
Proof.
  intros [Hl Hf]. unfold short, slice_from, slice_to. change (drop 7 (SHA256_PREFIX +s+ h)) with h.
  rewrite length_take, Hl. split; [done|]. apply forallb_forall. intros c Hc%list_elem_of_In.
  apply hex_ref_unit. rewrite Forall_forall in Hf. apply Hf. apply elem_of_take in Hc as (i & Hi & _). by eapply list_elem_of_lookup_2.
Qed.

Lemma refFromDigest_ref prefix d f :
  ref_text (prefix +s+ ":" +s+ replicate 32 97%N) = true -> re_full ROOT_RE d = true ->
  publicRef (VStr (refFromDigest prefix d)) f = Ok (refFromDigest prefix d).
Proof.
  intros Hp (h & -> & [Hl Hf]%short_hex)%ROOT_RE_spec. apply ref_text_publicRef. unfold refFromDigest. revert Hp.
  destruct prefix as [|c t]; [done|]. cbn [app ref_text].
  rewrite !forallb_app, !length_app, Hl, length_replicate, Hf. cbn [length].
  rewrite !andb_true_iff. tauto.
Qed.

(** ** Fields of an artifact pass the check that made them *)
Lemma required_text fb f : trim fb = fb -> fb <> [] -> requiredString (VStr fb) f = Ok fb.
Proof. intros H Hn. cbn [requiredString]. rewrite H. destruct (fb =s= []) eqn:E; [by apply str_eqb_eq in E|done]. Qed.

Lemma isoTimestamp_stable v f fb t g fb' :
  trim fb = fb -> fb <> [] -> isoTimestamp v f fb = Ok t -> isoTimestamp (VStr t) g fb' = Ok t.
Proof.
  intros Hf Hn. unfold isoTimestamp, optionalString. intros H. apply res_bind_ok in H as (s & Hs & H).
  assert (s = t /\ date_parse t <> None) as [-> Hd] by (destruct (date_parse s) eqn:Ed; [apply Ok_inj in H; subst; by rewrite Ed|done]).
  assert (requiredString (VStr t) g = Ok t /\ is_blank (VStr t) = false) as [Hr Hb].
  { destruct (is_blank v).
    - apply Ok_inj in Hs as <-. pose proof (required_text _ g Hf Hn) as Hr. split; [done|by eapply requiredString_blank].
    - split; [by eapply requiredString_stable|by eapply requiredString_blank]. }
  rewrite Hb, Hr. cbn [res_bind]. by destruct (date_parse t).
Qed.

Lemma publicRef_stable v f s g : publicRef v f = Ok s -> publicRef (VStr s) g = Ok s.
Proof. apply matching_stable. Qed.

Lemma digestRef_stable v f s g : digestRef v f = Ok s -> digestRef (VStr s) g = Ok s.
Proof. apply matching_stable. Qed.

Lemma optionalPublicRef_stable v fb f s g :
  publicRef (VStr fb) g = Ok fb -> optionalPublicRef v fb f = Ok s -> publicRef (VStr s) g = Ok s.
Proof.
  intros Hf. unfold optionalPublicRef. destruct (is_blank v); [by intros <-%Ok_inj|]. apply publicRef_stable.
Qed.

Lemma digestRef_root v f d : digestRef v f = Ok d -> re_full ROOT_RE d = true.
Proof. unfold digestRef, matching. intros H. inv_res. by apply negb_false_iff in E. Qed.

Lemma root_digestRef d g : re_full ROOT_RE d = true -> digestRef (VStr d) g = Ok d.
Proof.
  intros H. unfold digestRef, matching. rewrite required_text; [cbn [res_bind]; by rewrite H| |].
  - apply ROOT_RE_spec in H as (h & -> & [_ Hf]). apply no_spaces_trim. apply Forall_app. split.
    + apply Forall_forall, Forall_forall. by repeat constructor.
    + eapply Forall_impl; [exact Hf|]. intros c Hc. by apply ref_unit_no_space, hex_ref_unit.
  - intros ->. by apply ROOT_RE_spec in H as (h & [=] & _).
Qed.

Lemma optionalDigestRef_root v fb f d :
  re_full ROOT_RE fb = true -> optionalDigestRef v fb f = Ok d -> re_full ROOT_RE d = true.
Proof.
  intros Hf. unfold optionalDigestRef. destruct (is_blank v); [by intros <-%Ok_inj|]. apply digestRef_root.
Qed.

Lemma nonNegativeInteger_stable v f fb w g fb' :
  nonNegativeInteger v f fb = Ok w -> nonNegativeInteger w g fb' = Ok w.
Proof. unfold nonNegativeInteger. intros H. inv_res. cbn [coalesce is_nullish to_number res_bind]. by rewrite E. Qed.

Lemma positiveInteger_stable v f w g : positiveInteger v f = Ok w -> positiveInteger w g = Ok w.
Proof. unfold positiveInteger. intros H. inv_res. cbn [to_number res_bind]. by rewrite E. Qed.

Lemma signatureRef_stable v f s g : signatureRef v f = Ok s -> signatureRef (VStr s) g = Ok s.
Proof. apply matching_stable. Qed.

Lemma as_string_ok m w : as_string m = Ok w -> exists s, m = Ok s /\ w = VStr s.
Proof. unfold as_string. intros H. inv_res. by eexists. Qed.

Lemma map_items_length f l items : map_items f l = Ok items -> length items = length l.
Proof. by intros [Hl _]%imap_res_from_ok. Qed.

Lemma map_items_again f g l items :
  (forall i v w, f i v = Ok w -> forall j, g j w = Ok w) -> map_items f l = Ok items -> map_items g items = Ok items.
Proof.
  intros Hf. unfold map_items, imap_res. generalize 0%nat at 1. intros i. generalize 0%nat. revert i items.
  induction l as [|v l IH]; intros i items j H; cbn [imap_res_from] in H; [by apply Ok_inj in H as <-|].
  apply res_bind_ok in H as (x & Hx & H). apply res_bind_ok in H as (xs & Hxs & <-%Ok_inj). cbn [imap_res_from].
  assert (match x with VHole => Ok VHole | _ => g j x end = Ok x) as ->.
  { destruct v; try (apply Ok_inj in Hx as <-; done); destruct x; try done; exact (Hf _ _ _ Hx j). }
  cbn [res_bind]. by rewrite (IH _ _ _ Hxs).
Qed.

(** The strings a list of references, digests or scopes is read as. *)
Definition read_items (r : re) (what field : jstr) : list jsval -> res (list jsval) :=
  map_items (λ index item, as_string (matching r what item (at_index field index))).

Lemma read_items_again r what field field' l items :
  read_items r what field l = Ok items -> read_items r what field' items = Ok items.
Proof.
  apply map_items_again. intros i x y (s & Hs & ->)%as_string_ok j. unfold as_string.
  by rewrite (matching_stable _ _ _ _ _ _ Hs).
Qed.

Lemma digestArray_stable v f w g : digestArray v f 1 64 = Ok w -> digestArray w g 1 64 = Ok w.
Proof.
  unfold digestArray. intros H. destruct (out_of_bounds _ 1 64) eqn:Eb; [done|]. apply res_bind_ok in H as (items & Hi & <-%Ok_inj).
  cbn [array_or_one]. assert (out_of_bounds items 1 64 = false) as ->.
  { unfold out_of_bounds in *. by rewrite (map_items_length _ _ _ Hi). }
  apply (read_items_again _ _ _ g) in Hi. unfold read_items in Hi. unfold digestRef. by rewrite Hi.
Qed.

Definition reads (r : re) (what : jstr) (x : jsval) : Prop :=
  x = VHole \/ exists s, x = VStr s /\ forall g, matching r what (VStr s) g = Ok s.

Lemma read_items_reads r what field l items : read_items r what field l = Ok items -> Forall (reads r what) items.
Proof.
  apply imap_res_Forall. intros i a b H. destruct a; try (apply Ok_inj in H as <-; by left);
    apply as_string_ok in H as (s' & Hs & ->); right; exists s'; (split; [done|]); intros g;
    by eapply matching_stable.
Qed.

Lemma reads_read_items r what field l : Forall (reads r what) l -> read_items r what field l = Ok l.
Proof.
  unfold read_items, map_items, imap_res. generalize 0%nat. induction l as [|x l IH]; intros i; [done|].
  rewrite Forall_cons. intros [Hx Hl]. cbn [imap_res_from]. rewrite (IH (S i) Hl).
  destruct Hx as [->|(s & -> & Hs)]; [done|]. unfold as_string. by rewrite Hs.
Qed.

Lemma default_sort_perm l : default_sort l ≡ₚ l.
Proof.
  unfold default_sort, text_values. rewrite (Permutation_map VStr (sort_strings_perm (texts_of l))).
  unfold texts_of. induction l as [|x l IH]; [done|]. destruct x; cbn [flat_map app map List.filter is_string negb];
    rewrite <- ?Permutation_middle; by rewrite IH.
Qed.

Lemma publicRefArray_again v f l g :
  publicRefArray v f 0 64 = Ok l -> publicRefArray (VArr l) g 0 64 = Ok (default_sort l).
Proof.
  unfold publicRefArray. intros H. destruct (out_of_bounds _ 0 64) eqn:Eb; [done|].
  apply res_bind_ok in H as (items & Hi & <-%Ok_inj). cbn [arrayInput is_nullish array_or_one].
  assert (out_of_bounds (default_sort items) 0 64 = false) as ->.
  { unfold out_of_bounds in *. by rewrite default_sort_perm, (map_items_length _ _ _ Hi). }
  apply read_items_reads in Hi. rewrite <- (default_sort_perm items) in Hi.
  apply (reads_read_items _ _ g) in Hi. unfold read_items in Hi. unfold publicRef. by rewrite Hi.
Qed.

Lemma length_set_of_list l : length (set_of_list l) <= length l.
Proof.
  unfold set_of_list. assert (forall s, length (foldl (λ s x, set_add x s) s l) <= length s + length l) as H.
  { induction l as [|x l IH]; intros s; cbn [foldl length]; [lia|]. etransitivity; [apply IH|]. unfold set_add.
    destruct (mem_str x s); [lia|]. rewrite length_app. cbn. lia. }
  apply (H []).
Qed.

Lemma strings_texts l : forallb is_string l = true -> l = text_values (texts_of l).
Proof.
  induction l as [|x l IH]; [done|]. destruct x; try done. cbn [forallb is_string andb]. intros H.
  change (VStr s :: l = VStr s :: text_values (texts_of l)). by rewrite <- (IH H).
Qed.

Lemma publicScopes_again v f w g :
  publicScopes v f = Ok w -> json_value w = true -> exists w', publicScopes w g = Ok w'.
Proof.
  unfold publicScopes. intros H Hj.
  destruct ((length (array_or_one v) =? 0)%nat || (32 <? length (array_or_one v))%nat) eqn:Eb; [done|].
  apply orb_false_iff in Eb as [E0%Nat.eqb_neq E32%Nat.ltb_ge].
  apply res_bind_ok in H as (items & Hi & <-%Ok_inj). pose proof (map_items_length _ _ _ Hi) as Hl.
  apply read_items_reads in Hi. cbn [array_or_one].
  assert (forallb is_string items = true) as Hs.
  { destruct (forallb is_string items) eqn:E; [done|]. exfalso. cbn [json_value] in Hj. rewrite forallb_forall in Hj.
    unfold unique_values in Hj. rewrite E in Hj. specialize (Hj VUndef). cbn in Hj. apply diff_false_true, Hj, list_elem_of_In.
    rewrite default_sort_perm. apply elem_of_app. right. by left. }
  unfold unique_values. rewrite Hs, app_nil_r. set (ts := text_values _).
  assert (Forall (reads SCOPE_RE "a public scope token") ts) as Hr.
  { apply Forall_forall. intros x Hx. unfold ts, text_values in Hx. apply list_elem_of_In, in_map_iff in Hx as (s & <- & Hx%list_elem_of_In).
    rewrite elem_of_set_of_list in Hx. rewrite Forall_forall in Hi. apply Hi. rewrite (strings_texts _ Hs).
    apply list_elem_of_In, in_map, list_elem_of_In. done. }
  rewrite <- (default_sort_perm ts) in Hr. apply (reads_read_items _ _ g) in Hr. unfold read_items in Hr.
  assert (length (default_sort ts) <> 0 /\ length (default_sort ts) <= 32) as [H0 H32].
  { rewrite default_sort_perm. unfold ts, text_values. rewrite length_map. split.
    - destruct items as [|x items]; [cbn in Hl; lia|]. destruct x; try done. intros Hz%length_zero_iff_nil.
      assert (s ∈ set_of_list (texts_of (VStr s :: items))) as Hin by (apply elem_of_set_of_list; by left).
      rewrite Hz in Hin. by apply elem_of_nil in Hin.
    - etransitivity; [apply length_set_of_list|]. rewrite (strings_texts _ Hs) in Hl. unfold text_values in Hl.
      rewrite length_map in Hl. lia. }
  rewrite (proj2 (Nat.eqb_neq _ _) H0), (proj2 (Nat.ltb_ge _ _) H32). cbn [orb]. unfold scopeToken. rewrite Hr. by eexists.
Qed.
End reread.

(** ** Created artifacts *)
(** ** Tactics *)

(** Reads of the properties of an artifact become their values, which are looked up in
    the list of its properties. *)
Ltac lookup_in fields k :=
  lazymatch fields with
  | cons (pair k ?v) _ => v
  | cons _ ?rest => lookup_in rest k
  | nil => constr:(VUndef)
  end.

Ltac read_fields Hg :=
  rewrite ?Hg;
  repeat match goal with
    | |- context [vget (VObj ?fields) ?k] => change (vget (VObj fields) k) with (fget fields k)
    | |- context [fget ?fields ?k] =>
        let v := lookup_in fields k in replace (fget fields k) with v by (vm_compute; reflexivity)
    end.

Ltac read_fields_in H :=
  match type of H with
  | context [fget ?fields ?k] =>
      let v := lookup_in fields k in replace (fget fields k) with v in H by (vm_compute; reflexivity)
  end.

(** Reads of the properties of an object given by a list. *)
Ltac read_listed :=
  repeat match goal with
    | |- context [fget ?fields ?k] =>
        let v := lookup_in fields k in replace (fget fields k) with v by (vm_compute; reflexivity)
    end.

Section created.
Context {C : Crypto} {CL : CryptoLaws C} {Hst : Host} {Loc : Locale} {LL : LocaleLaws Loc} {P : Platform}.

Lemma sha256Json_root v d : sha256Json v = Ok d -> re_full ROOT_RE d = true.
Proof.
  unfold sha256Json. intros H. apply res_bind_ok in H as (_ & _ & H). apply res_bind_ok in H as (c & _ & H).
  apply res_bind_ok in H as ([t|] & _ & H); [|done]. apply Ok_inj in H as <-. apply root_of_sha.
Qed.

Lemma sha256Json_clean v d : sha256Json v = Ok d -> no_private v = true /\ json_value v = true.
Proof.
  unfold sha256Json, canonicalize. intros H. apply res_bind_ok in H as ([] & Hs%scan_spec & H).
  apply res_bind_ok in H as (c & Hc & _). apply res_bind_ok in Hc as ([] & Hj%json_spec & _). done.
Qed.

Lemma freeze_inv body idField hashField prefix a :
  appended_keys (keys body) [idField; hashField] = true ->
  freezeArtifact body idField hashField prefix = Ok a -> exists h, sha256Json (VObj body) = Ok h /\
    a = VObj (body ++ [(idField, VStr (identifier prefix h)); (hashField, VStr h)]) /\ no_private a = true.
Proof.
  intros Hk. unfold freezeArtifact. intros H. apply res_bind_ok in H as (h & Hh & H).
  apply res_bind_ok in H as ([] & Hs%scan_spec & <-%Ok_inj). exists h. by rewrite (spread_append _ [(idField, _); (hashField, _)] Hk) in Hs |- *.
Qed.

Lemma header_passes a path schema :
  is_record a = true -> no_private a = true -> vget a "schema" = VStr schema ->
  forallb (λ kv : jstr * jsval, vget a kv.1 === kv.2) SAFE_BOOLEAN_BOUNDARIES = true -> passed (validate_header a path schema) tt.
Proof.
  intros Hr Hn Hs Hb. unfold validate_header, requiredObject. rewrite Hr, Hs. cbn [negb].
  apply passed_bind. exists tt. split; [by apply passed_chk|]. apply passed_bind. exists tt. split; [by apply passed_chk, scan_spec|].
  apply passed_bind. exists tt. split; [apply passed_push; cbn; by rewrite str_eqb_refl|].
  unfold requireSafeBoundaries, passed. f_equal. revert Hb. generalize SAFE_BOOLEAN_BOUNDARIES. intros l.
  induction l as [|kv l IH]; [done|]. cbn [forallb flat_map]. intros [-> H]%andb_true_iff. by apply IH.
Qed.

Lemma identity_passes body idField hashField prefix h :
  sha256Json (VObj body) = Ok h -> idField ∉ keys body -> hashField ∉ keys body -> idField <> hashField ->
  passed (validateIdentity (VObj (body ++ [(idField, VStr (identifier prefix h)); (hashField, VStr h)])) idField hashField prefix) tt.
Proof.
  intros Hh Hi Hs Hne. unfold validateIdentity.
  assert (bodyWithoutIdentity (VObj (body ++ [(idField, VStr (identifier prefix h)); (hashField, VStr h)])) idField hashField = body) as ->.
  { unfold bodyWithoutIdentity. cbn [spread_of own_fields]. rewrite (fdelete_app_right _ _ _ Hi), (fdelete_app_right _ _ _ Hs).
    unfold fdelete. rewrite filter_cons_False by (cbn; auto). rewrite filter_cons_True by (cbn; congruence).
    rewrite filter_nil, filter_cons_False by (cbn; auto). by rewrite filter_nil, app_nil_r. }
  apply passed_bind. exists h. split; [by apply passed_chk|]. cbn [vget own_fields].
  unfold vget. cbn [own_fields]. rewrite !(fget_app_absent body _ _) by done. cbn [fget].
  rewrite !str_eqb_refl, (proj2 (str_eqb_neq idField hashField)) by done.
  apply passed_bind. exists tt. split; apply passed_push; cbn [seq]; by rewrite str_eqb_refl.
Qed.

Lemma signature_field_ok o sg : signature_field o = Ok sg ->
  sg = [] \/ exists s, sg = [("signature_ref" : jstr, VStr s)] /\ signatureRef (VStr s) "signature_ref" = Ok s.
Proof.
  unfold signature_field. destruct (truthy _); [|intros <-%Ok_inj; by left]. intros H.
  apply res_bind_ok in H as (s & Hs & <-%Ok_inj). right. exists s. split; [done|]. by eapply signatureRef_stable.
Qed.

Lemma vget_object a fs : a = VObj fs -> forall k, vget a k = fget fs k.
Proof. by intros ->. Qed.

Lemma frozen_json body idField hashField prefix a k v :
  freezeArtifact body idField hashField prefix = Ok a -> (k, v) ∈ body -> json_value v = true.
Proof.
  unfold freezeArtifact. intros H Hin. apply res_bind_ok in H as (h & [_ Hj]%sha256Json_clean & _). cbn [json_value] in Hj.
  rewrite forallb_forall in Hj. apply list_elem_of_In, Hj, andb_true_iff in Hin. tauto.
Qed.

Lemma signature_passes a :
  vget a "signature_ref" = VUndef \/
    (exists s, vget a "signature_ref" = VStr s /\ signatureRef (VStr s) "signature_ref" = Ok s) -> passed (check_signature a) tt.
Proof.
  unfold check_signature. intros [->|(s & -> & Hs)]; cbn [is_undef]; [by apply passed_chk|].
  apply passed_bind. exists s. split; [by apply passed_chk|by apply passed_chk].
Qed.

Lemma entry_type_known v f t : registryEntryType v f = Ok t -> negb (set_has REGISTRY_ENTRY_TYPES (VStr t)) = false.
Proof. unfold registryEntryType. intros H. destruct (is_blank v); [done|]. apply res_bind_ok in H as (s & _ & H). cbn [set_has]. by inv_res. Qed.

(** *** Commitments *)
Definition stable_item (f : nat -> jsval -> res jsval) (x : jsval) : Prop := x = VHole \/ forall j, f j x = Ok x.

Lemma stable_map_items f l : Forall (stable_item f) l -> map_items f l = Ok l.
Proof.
  unfold map_items, imap_res. generalize 0%nat. induction l as [|x l IH]; intros i; [done|].
  rewrite Forall_cons. intros [Hx Hl]. cbn [imap_res_from]. rewrite (IH (S i) Hl).
  destruct Hx as [->|Hx]; [done|]. destruct x; try (by rewrite Hx); done.
Qed.

Lemma map_items_stable_item f l items :
  (forall i v w, f i v = Ok w -> forall j, f j w = Ok w) -> map_items f l = Ok items -> Forall (stable_item f) items.
Proof.
  intros Hf. apply imap_res_Forall. intros i a b H. destruct a; try (right; by eapply Hf). apply Ok_inj in H as <-. by left.
Qed.

Lemma commitmentKind_stable v k : commitmentKind v = Ok k -> commitmentKind (VStr k) = Ok k.
Proof.
  unfold commitmentKind, optionalString. intros H. apply res_bind_ok in H as (s & Hs & H).
  destruct (negb (re_full SCOPE_RE s)) eqn:E; [done|]. apply Ok_inj in H as ->.
  assert (requiredString (VStr k) "kind" = Ok k) as Hr.
  { destruct (is_blank v); [apply Ok_inj in Hs as <-; by vm_compute|by eapply requiredString_stable]. }
  rewrite (requiredString_blank _ _ _ Hr), Hr. cbn [res_bind]. by rewrite E.
Qed.

Definition commitment_obj (kind root : jstr) (ref : option jstr) (count : option jsval) : jsval :=
  VObj ([("kind" : jstr, VStr kind); ("root" : jstr, VStr root)]
        ++ match ref with Some r => [("ref" : jstr, VStr r)] | None => [] end
        ++ match count with Some n => [("count" : jstr, n)] | None => [] end).

Lemma normalizeCommitment_shape i v w : normalizeCommitment i v = Ok w ->
  exists k d ref count, w = commitment_obj k d ref count /\ commitmentKind (VStr k) = Ok k /\ re_full ROOT_RE d = true /\
    (forall r, ref = Some r -> forall g, publicRef (VStr r) g = Ok r) /\
    (forall n, count = Some n -> is_nullish n = false /\ forall g, positiveInteger n g = Ok n).
Proof.
  intros H. destruct v as [| |b|x|s| |l|fs|t fs|m|l|t b|kd t]; unfold normalizeCommitment in H; cbn beta iota zeta in H.
  5: { apply res_bind_ok in H as (d & Hd & <-%Ok_inj). exists "memory_root", d, None, None. split_and!; [done|by vm_compute|by eapply digestRef_root|done|done]. }
  all: apply res_bind_ok in H as (_ & _ & H); apply res_bind_ok in H as (k & Hk & H); apply res_bind_ok in H as (d & Hd & H);
    apply res_bind_ok in H as (refs & Hr & H); apply res_bind_ok in H as (counts & Hc & <-%Ok_inj).
  all: assert (exists ref, refs = match ref with Some r => [("ref" : jstr, VStr r)] | None => [] end /\
      forall r, ref = Some r -> forall g, publicRef (VStr r) g = Ok r) as (ref & -> & Hrr) by
    (destruct (is_blank _); [apply Ok_inj in Hr as <-; by exists None|];
     apply res_bind_ok in Hr as (r & Hr & <-%Ok_inj); exists (Some r); split; [done|]; intros r' [= <-] g; by eapply publicRef_stable);
   assert (exists count, counts = match count with Some n => [("count" : jstr, n)] | None => [] end /\
      forall n, count = Some n -> is_nullish n = false /\ forall g, positiveInteger n g = Ok n) as (count & -> & Hcc) by
    (destruct (is_nullish _); [apply Ok_inj in Hc as <-; by exists None|];
     apply res_bind_ok in Hc as (n & Hn & <-%Ok_inj); exists (Some n); split; [done|]; intros n' [= <-]; split;
       [unfold positiveInteger in Hn; by inv_res|intros g; by eapply positiveInteger_stable]);
   exists k, d, ref, count; split_and!; [done|by eapply commitmentKind_stable|by eapply digestRef_root|exact Hrr|exact Hcc].
Qed.

Lemma publicRef_not_blank r g : publicRef (VStr r) g = Ok r -> is_blank (VStr r) = false.
Proof. unfold publicRef, matching. intros H. apply res_bind_ok in H as (s & Hs & H). inv_res. by eapply requiredString_blank. Qed.

Lemma commitment_normal k d ref count j :
  commitmentKind (VStr k) = Ok k -> re_full ROOT_RE d = true ->
  (forall r, ref = Some r -> forall g, publicRef (VStr r) g = Ok r) ->
  (forall n, count = Some n -> is_nullish n = false /\ forall g, positiveInteger n g = Ok n) ->
  normalizeCommitment j (commitment_obj k d ref count) = Ok (commitment_obj k d ref count).
Proof.
  intros Hk Hd Hr Hc.
  unfold normalizeCommitment, commitment_obj, requiredObject. cbn [is_record negb res_bind own_fields field_of].
  destruct ref as [r|]; [specialize (Hr r eq_refl); pose proof (publicRef_not_blank _ "" (Hr "")) as Hb|];
    (destruct count as [n|]; [specialize (Hc n eq_refl) as [Hn Hc]|]);
    cbn [app]; read_listed; unfold coalesce; cbn [is_nullish]; rewrite ?Hn; cbn [is_nullish]; rewrite ?Hn, Hk; cbn [res_bind];
    rewrite (root_digestRef _ _ Hd); cbn [res_bind]; rewrite ?Hb, ?Hr, ?Hc, ?Hn; reflexivity.
Qed.

Lemma normalizeCommitment_stable i v w : normalizeCommitment i v = Ok w -> forall j, normalizeCommitment j w = Ok w.
Proof. intros (k & d & ref & count & -> & ? & ? & ? & ?)%normalizeCommitment_shape j. by apply commitment_normal. Qed.

(** The sort is stable under itself. *)
Definition commitment_le (c d : jsval) : Prop := locale_leb (commitment_text c) (commitment_text d) = true.

Lemma commitment_insert_perm c l : commitment_insert c l ≡ₚ c :: l.
Proof.
  induction l as [|d l IH]; [done|]. cbn [commitment_insert]. destruct (locale_leb _ _); [done|].
  rewrite IH. constructor.
Qed.

Lemma insertion_perm l : foldr commitment_insert [] l ≡ₚ l.
Proof. induction l as [|c l IH]; [done|]. cbn [foldr]. by rewrite commitment_insert_perm, IH. Qed.

Lemma commitment_insert_sorted c l : Sorted commitment_le l -> Sorted commitment_le (commitment_insert c l).
Proof.
  intros H. induction H as [|d l Hs IH Hh]; [by repeat constructor|]. cbn [commitment_insert].
  destruct (locale_leb (commitment_text c) (commitment_text d)) eqn:E; [by repeat constructor|].
  assert (commitment_le d c) as Hdc.
  { unfold commitment_le. destruct (locale_total (commitment_text c) (commitment_text d)) as [H|H]; [by rewrite H in E|done]. }
  constructor; [done|]. destruct l as [|x l]; [by constructor|]. cbn [commitment_insert].
  destruct (locale_leb (commitment_text c) (commitment_text x)); [by constructor|]. inversion Hh; by constructor.
Qed.

Lemma insertion_sorted l : Sorted commitment_le (foldr commitment_insert [] l).
Proof. induction l as [|c l IH]; [constructor|]. by apply commitment_insert_sorted. Qed.

Lemma insertion_id l : Sorted commitment_le l -> foldr commitment_insert [] l = l.
Proof.
  intros H. induction H as [|c l Hs IH Hh]; [done|]. cbn [foldr]. rewrite IH. destruct Hh as [|d l Hd]; [done|].
  cbn [commitment_insert]. by rewrite Hd.
Qed.

Lemma filter_partition {A} (f : A -> bool) l : List.filter f l ++ List.filter (λ x, negb (f x)) l ≡ₚ l.
Proof.
  induction l as [|x l IH]; [done|]. cbn [List.filter]. destruct (f x); cbn [negb app].
  - by rewrite IH.
  - rewrite <- Permutation_middle. by rewrite IH.
Qed.

Lemma sort_commitments_perm l : sort_commitments l ≡ₚ l.
Proof. unfold sort_commitments. rewrite insertion_perm. apply filter_partition. Qed.

Lemma Forall_filter {A} (f : A -> bool) l : Forall (λ x, f x = true) (List.filter f l).
Proof. apply Forall_forall. intros x Hx%list_elem_of_In. apply filter_In in Hx. tauto. Qed.

Lemma sort_commitments_again l : sort_commitments (sort_commitments l) = sort_commitments l.
Proof.
  unfold sort_commitments. set (a := foldr commitment_insert [] (List.filter is_record l)).
  set (b := List.filter (λ v, negb (is_record v)) l). rewrite !List.filter_app.
  assert (Forall (λ x, is_record x = true) a) as Ha by (unfold a; rewrite insertion_perm; apply Forall_filter).
  assert (Forall (λ x, negb (is_record x) = true) b) as Hb by apply Forall_filter.
  rewrite (filter_all _ a Ha), (filter_all _ b Hb), (filter_none is_record b), (filter_none _ a), app_nil_r.
  - cbn [app]. f_equal. apply insertion_id, insertion_sorted.
  - eapply Forall_impl; [exact Ha|]. by intros x ->.
  - eapply Forall_impl; [exact Hb|]. by intros x ->%negb_true_iff.
Qed.

Lemma imap_with_no_ref l : imap (with_ref []) l = l.
Proof.
  assert (forall i x, with_ref [] i x = x) as H by (intros [|i] []; done).
  transitivity (imap (λ _ x, x) l); [apply imap_ext; intros; apply H|]. induction l as [|x l IH]; [done|].
  rewrite imap_cons. f_equal. exact IH.
Qed.

Lemma no_refs f : publicRefArray VUndef f 0 64 = Ok [].
Proof. by vm_compute. Qed.

Lemma commitments_reread l : normalizeCommitments [("commitments" : jstr, VArr l)] =
  throw_if (length l =? 0)%nat with TypeError "commitments must be non-empty";
  let! items := map_items normalizeCommitment l in Ok (sort_commitments items).
Proof.
  unfold normalizeCommitments. unfold field_of, COMMITMENT_FIELDS. read_listed. unfold coalesce. cbn [is_nullish].
  rewrite no_refs. cbn [res_bind]. unfold arrayInput. cbn [is_nullish array_or_one].
  rewrite imap_with_no_ref, orb_false_r. reflexivity.
Qed.

Lemma normalizeCommitments_stable o l :
  normalizeCommitments o = Ok l -> normalizeCommitments [("commitments" : jstr, VArr l)] = Ok l.
Proof.
  unfold normalizeCommitments at 1. intros H. apply res_bind_ok in H as (refs & _ & H). inv_res.
  apply orb_false_iff in E as [Hl%Nat.eqb_neq _]. pose proof (map_items_length _ _ _ H0) as Hlen.
  apply map_items_stable_item in H0; [|apply normalizeCommitment_stable].
  rewrite <- (sort_commitments_perm x) in H0. apply stable_map_items in H0.
  pose proof (commitments_reread (sort_commitments x)) as Hre.
  assert (length (sort_commitments x) <> 0) as Hn by by rewrite sort_commitments_perm, Hlen.
  rewrite Hre, H0, (proj2 (Nat.eqb_neq _ _) Hn). cbn [res_bind]. by rewrite sort_commitments_again.
Qed.

Lemma vnat_same n : (vnat n === vnat n) = true.
Proof. unfold vnat. cbn [seq]. unfold num_seq. destruct (Z.of_nat n); by rewrite bool_decide_eq_true_2. Qed.

End created.

Create HintDb digests.
#[export] Hint Resolve sha256Json_root digestRef_root optionalDigestRef_root : digests.

(** A field read back by the check that made it. *)
Ltac reads_back :=
  lazymatch goal with
  | |- isoTimestamp _ _ _ = _ => eapply isoTimestamp_stable; [| |eassumption]; [by vm_compute|done]
  | |- publicRef _ _ = _ =>
      first
        [ eapply publicRef_stable; eassumption
        | eapply optionalPublicRef_stable; [|eassumption];
          first [apply refFromDigest_ref; [by vm_compute|by eauto with digests] | apply ref_text_publicRef; by vm_compute] ]
  | |- digestArray _ _ _ _ = _ => eapply digestArray_stable; eassumption
  | |- digestRef _ _ = _ => first [eapply digestRef_stable; eassumption | eapply root_digestRef; by eauto with digests]
  | |- publicRefArray _ _ _ _ = _ => eapply publicRefArray_again; eassumption
  | |- nonNegativeInteger _ _ _ = _ => eapply nonNegativeInteger_stable; eassumption
  | |- positiveInteger _ _ = _ => eapply positiveInteger_stable; eassumption
  | |- passed (check_signature _) _ =>
      apply signature_passes; first [left; assumption|right; eexists; split; [eassumption|eassumption]]
  | |- negb (set_has _ _) = false => eapply entry_type_known; eassumption
  | |- normalizeCommitments _ = _ => eapply normalizeCommitments_stable; eassumption
  | |- negb (vnat _ === vnat _) = false => by rewrite vnat_same
  | |- negb (is_undef _) && negb (vnat _ === vnat _) = false => by rewrite vnat_same
  | |- negb (vget (VObj ?fields) ?k === _) = false =>
      change (vget (VObj fields) k) with (fget fields k); read_listed; cbn [seq]; rewrite ?str_eqb_refl; reflexivity
  | |- negb _ = false => cbn [seq]; rewrite str_eqb_refl; reflexivity
  | |- _ = Ok _ => first [eassumption|reflexivity]
  | |- not_later _ _ = false => eassumption
  end.

Ltac inv_steps H := repeat (apply res_bind_ok in H as (? & ? & H)).

(** The artifact of a successful [freezeArtifact] passes the header check; the other checks
    are left, with the properties they read. *)
Ltac check_created H :=
  let h := fresh "h" in let Hh := fresh "Hh" in let Ha := fresh "Ha" in let Hn := fresh "Hn" in let Hg := fresh "Hg" in
  apply freeze_inv in H as (h & Hh & Ha & Hn); [|vm_compute; reflexivity];
  pose proof (vget_object _ _ Ha) as Hg; unfold SAFE_BOOLEAN_BOUNDARIES in Hg; cbn [app] in Hg;
  apply collect_passed; apply passed_bind; exists tt; split;
    [apply header_passes; [by rewrite Ha|exact Hn|read_fields Hg; reflexivity|rewrite Ha; by vm_compute]|];
  let Hsg := fresh "Hsg" in pose proof (Hg "signature_ref") as Hsg; read_fields_in Hsg;
  read_fields Hg; run_checks;
  try (rewrite Ha; apply identity_passes; [exact Hh|by apply mem_str_false; vm_compute|by apply mem_str_false; vm_compute|done]).

(** The optional signature, present or not. *)
Ltac split_signature :=
  match goal with E : signature_field _ = Ok _ |- _ => apply signature_field_ok in E as [->|(? & -> & ?)] end.

Section creations.
Context {C : Crypto} {CL : CryptoLaws C} {Hst : Host} {Loc : Locale} {LL : LocaleLaws Loc} {P : Platform}.

#[local] Opaque freezeArtifact validateIdentity check_signature validate_header.

Lemma created_grant input a : createCapabilityGrant input = Ok a -> validateCapabilityGrant a = verificationResult [].
Proof.
  unfold createCapabilityGrant. intros H. inv_steps H. destruct (not_later _ _) eqn:Hl in H; [done|].
  match goal with E : publicScopes _ _ = Ok ?w |- _ =>
    assert (json_value w = true) as Hj by
      (eapply (frozen_json _ _ _ _ _ "scopes" w H); cbn [app]; apply list_elem_of_In; cbn [In]; tauto);
    destruct (publicScopes_again _ _ _ "scopes" E Hj) end.
  split_signature; check_created H; reads_back.
Qed.

Lemma created_revocation input a :
  createCapabilityRevocation input = Ok a -> validateCapabilityRevocation a = verificationResult [].
Proof.
  unfold createCapabilityRevocation. intros H. inv_steps H. split_signature; check_created H; reads_back.
Qed.

Lemma created_attestation input a :
  createBenchmarkAttestation input = Ok a -> validateBenchmarkAttestation a = verificationResult [].
Proof.
  unfold createBenchmarkAttestation. intros H. inv_steps H. split_signature; check_created H; reads_back.
Qed.

Lemma created_entry input a : createRegistryEntry input = Ok a -> validateRegistryEntry a = verificationResult [].
Proof.
  unfold createRegistryEntry. intros H. inv_steps H.
  split_signature; check_created H; reads_back.
Qed.

Lemma created_anchor input a :
  createProofNetworkAnchorBatch input = Ok a -> validateProofNetworkAnchorBatch a = verificationResult [].
Proof.
  unfold createProofNetworkAnchorBatch. intros H. inv_steps H. check_created H; reads_back.
Qed.
End creations.
