(* ===== verification/ProofNetworkSafety.v ===== *)
(** * What the proof network guarantees

    Every artifact the package creates is accepted by its validator; an accepted packet
    lists accepted artifacts of other kinds with their hashes; nothing accepted holds a
    private name or text at any depth.  A property called [__proto__] is not hashed. *)

From S2P Require Import Prelude JsValue Objects Regex Canonical Hashing LaunchLedger Dates VaultPublic Vault Samples Settlement ProofNetwork ProofNetworkFields.

Section listed.
Context {C : Crypto} {CL : CryptoLaws C} {Hst : Host} {Loc : Locale} {LL : LocaleLaws Loc} {P : Platform}.

#[local] Opaque freezeArtifact validateIdentity check_signature validate_header.

(** *** Lists of artifacts *)
Lemma requiredString_field v f g s : requiredString v f = Ok s -> requiredString v g = Ok s.
Proof. destruct v; try done. cbn [requiredString]. intros H. by inv_res. Qed.

Lemma canonical_texts l : canonical_value (VArr (text_values l)) = VArr (text_values l).
Proof. cbn [canonical_value]. f_equal. unfold text_values. rewrite map_map. by apply map_ext. Qed.

Lemma default_sort_texts l : default_sort (text_values l) = text_values (sort_strings l).
Proof.
  unfold default_sort. assert (texts_of (text_values l) = l) as ->.
  { induction l as [|x l IH]; [done|]. change (x :: texts_of (text_values l) = x :: l). by rewrite IH. }
  rewrite filter_none; [by rewrite app_nil_r|]. unfold text_values. apply Forall_forall. intros x Hx%list_elem_of_In.
  by apply in_map_iff in Hx as (y & <- & _).
Qed.

Lemma listing_passes a countField rootField hashesField n hs root :
  vget a countField = vnat n -> vget a rootField = VStr root ->
  vget a hashesField = VArr (text_values (sort_strings hs)) -> sha256Json (VArr (text_values (sort_strings hs))) = Ok root ->
  passed (check_listing a countField rootField hashesField n hs) tt.
Proof.
  intros Hc Hr Hh Hroot. unfold check_listing. rewrite Hc, Hr, Hh.
  apply passed_bind. exists tt. split; [apply passed_push; by rewrite vnat_same|].
  apply passed_bind. exists root. split; [by apply passed_chk|].
  apply passed_bind. exists tt. split; [apply passed_push; cbn [seq]; by rewrite str_eqb_refl|].
  apply passed_bind. exists false. split; [|by apply passed_push]. apply passed_chk.
  unfold sha256Json, canonicalize in Hroot. apply res_bind_ok in Hroot as (_ & _ & H).
  apply res_bind_ok in H as (c & Hcan & H). apply res_bind_ok in Hcan as (_ & _ & <-%Ok_inj).
  rewrite canonical_texts in H. apply res_bind_ok in H as (t & Ht & _). unfold json_differs. rewrite Ht. cbn [res_bind].
  by rewrite bool_decide_eq_true_2.
Qed.

Lemma bounds_1_128 (l : list jsval) :
  (length l =? 0)%nat = false -> (128 <? length l)%nat = false -> out_of_bounds l 1 128 = false.
Proof. unfold out_of_bounds. rewrite Nat.eqb_neq, orb_false_iff, !Nat.ltb_ge. lia. Qed.

Definition good_entry (e : jsval) : Prop :=
  is_record e = true /\ vget e "schema" = VStr PROOF_NETWORK_REGISTRY_ENTRY_SCHEMA /\ v_ok (validateRegistryEntry e) = true.

Lemma registry_entry_ok i e e' : registry_entry i e = Ok e' -> e' = e /\ good_entry e.
Proof.
  unfold registry_entry, requiredObject. intros H. apply res_bind_ok in H as ([] & Hr & H).
  destruct (is_record e) eqn:Er; [|done]. destruct (vget e "schema" === _) eqn:Es; [|done]. cbn [negb] in H.
  destruct (v_ok (validateRegistryEntry e)) eqn:Ev; [|done]. apply Ok_inj in H as <-. split; [done|]. by apply seq_str in Es.
Qed.

Lemma good_entries l entries : VHole ∉ l -> map_items registry_entry l = Ok entries -> Forall good_entry entries.
Proof.
  intros Hh. unfold map_items, imap_res. generalize 0%nat. revert entries. induction l as [|x l IH]; intros entries k H.
  - cbn [imap_res_from] in H. by apply Ok_inj in H as <-.
  - apply not_elem_of_cons in Hh as [Hx Hh]. cbn [imap_res_from] in H. apply res_bind_ok in H as (e & He & H).
    apply res_bind_ok in H as (es & Hes & <-%Ok_inj). constructor; [|by eapply IH].
    destruct x; try done; by apply registry_entry_ok in He as [-> ?].
Qed.

Lemma entries_pass l f k hashes : Forall good_entry l ->
  imap_res_from k (λ _ e, match e with VHole => Ok VHole | _ => as_string (requiredString (vget e "registry_entry_hash") f) end) l = Ok hashes ->
  exists hs, hashes = text_values hs /\ forall i, passed (check_entries i l) hs.
Proof.
  intros Hg. revert k hashes. induction Hg as [|e l (Hr & Hs & Hv) _ IH]; intros k hashes H; cbn [imap_res_from] in H.
  - apply Ok_inj in H as <-. by exists [].
  - apply res_bind_ok in H as (x & Hx & H). apply res_bind_ok in H as (xs & (hs & -> & Hp)%IH & <-%Ok_inj).
    assert (exists h, x = VStr h /\ forall g, requiredString (vget e "registry_entry_hash") g = Ok h) as (h & -> & Hh).
    { destruct e; try done; apply as_string_ok in Hx as (h & Hh & ->); exists h; (split; [done|]); intros g;
        by eapply requiredString_field. }
    exists (h :: hs). split; [done|]. intros i. cbn [check_entries].
    assert (elem e = e) as -> by by destruct e. unfold requiredObject. rewrite Hr, Hs, Hv, Hh. cbn [negb seq].
    rewrite str_eqb_refl. cbn [negb]. apply passed_bind. exists tt. split; [by apply passed_chk|].
    apply passed_bind. exists tt. split; [by apply passed_push|]. apply passed_bind. exists h. split; [by apply passed_chk|].
    apply passed_bind. exists hs. split; [apply Hp|by apply passed_chk].
Qed.

#[local] Opaque check_listing.

Lemma created_batch input a : VHole ∉ arrayInput (entries_field input) ->
  createRegistryBatch input = Ok a -> validateRegistryBatch a = verificationResult [].
Proof.
  unfold createRegistryBatch. intros Hh H. apply res_bind_ok in H as (o & _ & H).
  apply res_bind_ok in H as (entries & Hes%(good_entries _ _ Hh) & H). destruct (length entries =? 0)%nat eqn:E0; [done|].
  destruct (128 <? length entries)%nat eqn:E1; [done|]. pose proof (bounds_1_128 _ E0 E1) as Hb.
  apply res_bind_ok in H as (hashes & (hs & -> & Hp)%entries_pass & H); [|done]. rewrite default_sort_texts in H.
  inv_steps H. check_created H; first [reads_back|exact Hb|apply Hp|eapply listing_passes; read_fields Hg; first [reflexivity|eassumption]].
Qed.

Definition good_artifact (a : jsval) : Prop :=
  is_record a = true /\ schema_is a PROOF_NETWORK_PACKET_SCHEMA = false /\ v_ok (validateOtherArtifact a) = true.

Lemma packet_artifact_ok i a a' : packet_artifact i a = Ok a' -> a' = a /\ good_artifact a.
Proof.
  unfold packet_artifact, requiredObject, good_artifact. intros H. apply res_bind_ok in H as ([] & Hr & H).
  destruct (is_record a) eqn:Er; [|done].
  destruct (negb (set_has SUPPORTED_ARTIFACT_SCHEMAS (vget a "schema")) || schema_is a PROOF_NETWORK_PACKET_SCHEMA) eqn:Es; [done|].
  apply orb_false_iff in Es as [_ Es]. destruct (v_ok (validateOtherArtifact a)) eqn:Ev; [|done]. by apply Ok_inj in H as <-.
Qed.

Lemma good_artifacts l artifacts : imap_res packet_artifact l = Ok artifacts -> Forall good_artifact artifacts.
Proof. apply imap_res_Forall. intros i a b H. by apply packet_artifact_ok in H as [-> ?]. Qed.

Lemma artifactHash_index i a h j : artifactHash i a = Ok h -> artifactHash j a = Ok h.
Proof. unfold artifactHash. destruct (hash_field a); [|done]. apply requiredString_field. Qed.

Lemma artifacts_pass l k hs : Forall good_artifact l -> imap_res_from k artifactHash l = Ok hs ->
  forall i, passed (check_artifacts i l) hs.
Proof.
  intros Hg. revert k hs. induction Hg as [|a l (Hr & Hs & Hv) _ IH]; intros k hs H i; cbn [imap_res_from] in H.
  - by apply Ok_inj in H as <-.
  - apply res_bind_ok in H as (h & Hh & H). apply res_bind_ok in H as (hs' & Hp & <-%Ok_inj). cbn [check_artifacts].
    assert (elem a = a) as -> by by destruct a. unfold requiredObject. rewrite Hr, Hs, Hv. cbn [negb].
    apply passed_bind. exists tt. split; [by apply passed_chk|]. apply passed_bind. exists tt. split; [by apply passed_push|].
    apply passed_bind. exists h. split; [apply passed_chk; by eapply artifactHash_index|].
    apply passed_bind. exists hs'. split; [by eapply IH|by apply passed_chk].
Qed.

Lemma created_packet input a : createProofNetworkPacket input = Ok a -> validateProofNetworkPacket a = verificationResult [].
Proof.
  unfold createProofNetworkPacket. intros H. apply res_bind_ok in H as (o & _ & H).
  set (given := flat_map _ _) in H. destruct (length given =? 0)%nat eqn:E0; [done|].
  destruct (128 <? length given)%nat eqn:E1; [done|]. apply res_bind_ok in H as (artifacts & Ha & H).
  pose proof (bounds_1_128 _ E0 E1) as Hb. assert (out_of_bounds artifacts 1 128 = false) as Hb'.
  { unfold out_of_bounds in *. by apply imap_res_from_ok in Ha as [-> _]. }
  apply good_artifacts in Ha. apply res_bind_ok in H as (hashes & Hp & H). pose proof (artifacts_pass _ _ _ Ha Hp) as Hpass.
  clear Hp. inv_steps H.
  check_created H; first [reads_back|exact Hb'|apply Hpass|eapply listing_passes; read_fields Hg; first [reflexivity|eassumption]].
Qed.
End listed.

(** ** The artifacts of the package *)
Section guarantees.
Context {C : Crypto} {CL : CryptoLaws C} {Hst : Host} {Loc : Locale} {LL : LocaleLaws Loc} {P : Platform}.

(** An input and the artifact one of the seven creations makes of it.  The entries of a
    registry batch are an array without holes. *)
Inductive created (input a : jsval) : Prop :=
  | created_by_anchor : createProofNetworkAnchorBatch input = Ok a -> created input a
  | created_by_grant : createCapabilityGrant input = Ok a -> created input a
  | created_by_revocation : createCapabilityRevocation input = Ok a -> created input a
  | created_by_attestation : createBenchmarkAttestation input = Ok a -> created input a
  | created_by_entry : createRegistryEntry input = Ok a -> created input a
  | created_by_batch : VHole ∉ arrayInput (entries_field input) -> createRegistryBatch input = Ok a -> created input a
  | created_by_packet : createProofNetworkPacket input = Ok a -> created input a.

Lemma header_inv a path schema : passed (validate_header a path schema) tt ->
  is_record a = true /\ no_private a = true /\ vget a "schema" = VStr schema /\
  requireSafeBoundaries a path = checked [] (Ok tt).
Proof.
  intros H. apply passed_bind in H as ([] & Hr%passed_chk & H). apply passed_bind in H as ([] & Hn%passed_chk%scan_spec & H).
  apply passed_bind in H as ([] & Hs%passed_push%negb_false_iff%seq_str & H). split_and!; try done.
  unfold requiredObject in Hr. by destruct (is_record a).
Qed.

(** What comes after the header of a validator. *)
Lemma accepted_header a path schema k :
  v_ok (collectValidation (chk! _ := validate_header a path schema in k)) = true ->
  is_record a = true /\ no_private a = true /\ vget a "schema" = VStr schema.
Proof. intros ([] & Hh & _)%collect_ok%passed_bind. apply header_inv in Hh. tauto. Qed.

Lemma schema_is_text a s t : vget a "schema" = VStr s -> schema_is a t = (s =s= t).
Proof. unfold schema_is. by intros ->. Qed.

(** The validator a schema selects. *)
Ltac dispatch Hs :=
  unfold validateSupportedArtifact, validateOtherArtifact; rewrite !(schema_is_text _ _ _ Hs);
  repeat match goal with
    | |- context [str_eqb ?s ?t] =>
        first [replace (str_eqb s t) with false by (vm_compute; reflexivity) | replace (str_eqb s t) with true by (vm_compute; reflexivity)]
    end; cbn iota.

Lemma accepted_ok v : v = verificationResult [] -> v_ok v = true.
Proof. by intros ->. Qed.

(** C31 Every artifact that one of the seven creations makes, of whatever input, is accepted
    without an error by the validator that its schema selects.  The one input left out is a
    registry batch of a sparse array of entries, whose holes the creation does not look at
    and the validator refuses ([sparse_batch_refused]). *)
Theorem created_artifacts_accepted input a : created input a -> validateSupportedArtifact a = verificationResult [].
Proof.
  intros [H|H|H|H|H|Hh H|H];
    [apply created_anchor in H|apply created_grant in H|apply created_revocation in H|apply created_attestation in H
    |apply created_entry in H|apply created_batch in H; [|done]|apply created_packet in H];
    pose proof (accepted_ok _ H) as Hok; apply accepted_header in Hok as (_ & _ & Hs); dispatch Hs; exact H.
Qed.

(** ** Packets *)
Lemma hashes_index l hs n k : imap_res_from k artifactHash l = Ok hs -> imap_res_from n artifactHash l = Ok hs.
Proof.
  revert hs n k. induction l as [|x l IH]; intros hs n k H; [done|].
  cbn [imap_res_from] in H |- *. apply res_bind_ok in H as (h & Hh & H). apply res_bind_ok in H as (t & Ht & H).
  rewrite (artifactHash_index _ _ _ _ Hh). cbn [res_bind]. by rewrite (IH _ (S n) (S k) Ht).
Qed.

Lemma check_artifacts_inv i l hs : passed (check_artifacts i l) hs ->
  Forall (λ a, good_artifact a) l /\ exists k, imap_res_from k artifactHash l = Ok hs.
Proof.
  revert i hs. induction l as [|a l IH]; intros i hs H.
  - apply passed_chk, Ok_inj in H as <-. split; [constructor|by exists 0].
  - cbn [check_artifacts] in H. apply passed_bind in H as ([] & Hr%passed_chk & H).
    destruct (schema_is (elem a) PROOF_NETWORK_PACKET_SCHEMA) eqn:Es.
    { apply passed_bind in H as ([] & Hp%passed_push & _). done. }
    apply passed_bind in H as ([] & Hv%passed_push%negb_false_iff & H). apply passed_bind in H as (h & Hh%passed_chk & H).
    apply passed_bind in H as (hs' & Hp & H%passed_chk%Ok_inj). subst hs. apply IH in Hp as (Hg & k & Hk).
    unfold requiredObject in Hr. destruct (is_record (elem a)) eqn:Er; [|done].
    assert (elem a = a) as He by by destruct a. rewrite He in *. split; [by constructor|].
    exists 0. cbn [imap_res_from]. rewrite (artifactHash_index _ _ _ _ Hh). cbn [res_bind].
    by rewrite (hashes_index _ _ 1 _ Hk).
Qed.

(** C32 A packet that is accepted lists between 1 and 128 artifacts, none of them a packet and
    each accepted by the validator its schema selects; its count is their number, and its
    hashes and its root are those of their sorted hash fields. *)
Theorem accepted_packet_sound packet : v_ok (validateProofNetworkPacket packet) = true ->
  exists artifacts hashes, vget packet "artifacts" = VArr artifacts /\ 1 <= length artifacts <= 128 /\
    Forall (λ a, schema_is a PROOF_NETWORK_PACKET_SCHEMA = false /\ v_ok (validateSupportedArtifact a) = true) artifacts /\
    imap_res artifactHash artifacts = Ok hashes /\
    (vget packet "artifact_count" === vnat (length artifacts)) = true /\
    json_stringify (vget packet "artifact_hashes") = json_stringify (VArr (text_values (sort_strings hashes))) /\
    exists root, sha256Json (VArr (text_values (sort_strings hashes))) = Ok root /\ vget packet "artifact_root" = VStr root.
Proof.
  intros H%collect_ok. apply passed_bind in H as ([] & _ & H). apply passed_bind in H as (? & _ & H).
  apply passed_bind in H as (? & _ & H). set (artifacts := items_of _) in H.
  apply passed_bind in H as ([] & Hb%passed_push & H). apply passed_bind in H as (hs & Hp & H).
  apply passed_bind in H as ([] & Hl & _). apply orb_false_iff in Hb as [H1%Nat.ltb_ge H2%Nat.ltb_ge].
  exists artifacts, hs. apply passed_bind in Hl as ([] & Hc%passed_push%negb_false_iff & Hl).
  apply passed_bind in Hl as (root & Hroot%passed_chk & Hl). apply passed_bind in Hl as ([] & Hr%passed_push%negb_false_iff & Hl).
  apply passed_bind in Hl as (differs & Hd%passed_chk & Hl%passed_push). subst differs.
  apply check_artifacts_inv in Hp as (Hg & k & Hk). split_and!; [|lia|lia| | |done| |].
  - unfold artifacts in *. destruct (vget packet "artifacts"); cbn in H1; try lia. done.
  - eapply Forall_impl; [exact Hg|]. intros a (_ & Hs & Hv). unfold validateSupportedArtifact. by rewrite Hs.
  - by eapply hashes_index.
  - unfold json_differs in Hd. apply res_bind_ok in Hd as (s & Hs & Hd). apply res_bind_ok in Hd as (t & Ht & Hd).
    apply Ok_inj, negb_false_iff, bool_decide_eq_true in Hd. rewrite Hs, Ht. by subst.
  - exists root. split; [done|]. by apply seq_str.
Qed.

(** ** Privacy *)

(** [w] is [v] or a value inside it. *)
Inductive nested (w : jsval) : jsval -> Prop :=
  | nested_self : nested w w
  | nested_item x items : x ∈ items -> nested w x -> nested w (VArr items)
  | nested_field k x v : (k, x) ∈ own_fields v -> nested w x -> nested w v.

Lemma no_private_fields v : no_private v = true -> Forall (λ kv : jstr * jsval,
  (is_forbidden_key kv.1 = true -> kv.1 ∈ SAFE_FIELD_NAMES) /\ (kv.1 ∈ SAFE_FIELD_NAMES -> kv.2 = VBool false) /\
  no_private kv.2 = true) (own_fields v).
Proof.
  intros H. apply Forall_forall. intros kv Hin.
  assert (negb (is_forbidden_key kv.1 && negb (mem_str kv.1 SAFE_FIELD_NAMES))
    && negb (mem_str kv.1 SAFE_FIELD_NAMES && (kv.2 !== VBool false)) && no_private kv.2 = true) as Hf.
  { destruct v; cbn [own_fields] in Hin; try (by apply elem_of_nil in Hin); cbn [no_private] in H;
      rewrite forallb_forall in H; by apply H, list_elem_of_In. }
  rewrite !andb_true_iff, !negb_true_iff, !andb_false_iff, !negb_false_iff in Hf. destruct Hf as [[H1 H2] H3]. split_and!; [| |done].
  - intros Hk. destruct H1 as [H1|H1]; [by rewrite Hk in H1|by apply mem_str_true].
  - intros Hk%mem_str_true. destruct H2 as [H2|H2]; [by rewrite Hk in H2|]. clear -H2. destruct kv as [k' v']. cbn [snd] in *.
    destruct v' as [| |[]| | | | | | | | | |]; try discriminate H2. done.
Qed.

Lemma no_private_nested v w : no_private v = true -> nested w v -> no_private w = true.
Proof.
  intros Hv H. induction H as [|x items Hx _ IH|k x v Hx _ IH]; [done| |].
  - apply IH. cbn [no_private] in Hv. rewrite forallb_forall in Hv. by apply Hv, list_elem_of_In.
  - apply IH. apply no_private_fields in Hv. rewrite Forall_forall in Hv. by apply (Hv _ Hx).
Qed.

Lemma accepted_no_private a : v_ok (validateSupportedArtifact a) = true -> no_private a = true.
Proof.
  unfold validateSupportedArtifact, validateOtherArtifact. intros H.
  repeat match type of H with context [if ?b then _ else _] => destruct b; [by apply accepted_header in H as (_ & H & _)|] end. done.
Qed.

(** C33 Nothing inside an accepted artifact, at any depth, is a text that looks like a secret
    or like private content, and a property with a private name is one of the five
    declarations that such data is absent, with the value [false]. *)
Theorem accepted_artifact_private_free a w :
  v_ok (validateSupportedArtifact a) = true -> nested w a ->
  (forall s, w = VStr s -> re_search SECRET_VALUE_RE s = false) /\
  (forall k v, (k, v) ∈ own_fields w ->
     (is_forbidden_key k = true -> k ∈ SAFE_FIELD_NAMES) /\ (k ∈ SAFE_FIELD_NAMES -> v = VBool false)).
Proof.
  intros Ha%accepted_no_private Hw. pose proof (no_private_nested _ _ Ha Hw) as Hn. split.
  - intros s ->. by apply negb_true_iff in Hn.
  - intros k v Hin. apply no_private_fields in Hn. rewrite Forall_forall in Hn. specialize (Hn _ Hin). tauto.
Qed.

(** ** A property that is not hashed *)
Lemma json_fields_app b k w path : json_value w = true -> is_undef w = false ->
  assertJsonValue (VObj (b ++ [(k, w)])) path = assertJsonValue (VObj b) path.
Proof.
  intros Hw Hu. induction b as [|kv b IH].
  - cbn [assertJsonValue app fst snd]. rewrite Hu. by rewrite (proj2 (json_spec w _) Hw).
  - cbn [assertJsonValue app] in IH |- *. destruct (is_undef kv.2); [done|].
    destruct (assertJsonValue kv.2 _); cbn [res_bind]; [exact IH|done].
Qed.

Lemma scan_fields_app b k w path : no_private w = true -> is_forbidden_key k = false -> mem_str k SAFE_FIELD_NAMES = false ->
  assertNoPrivateProofPayload (VObj (b ++ [(k, w)])) path = assertNoPrivateProofPayload (VObj b) path.
Proof.
  intros Hw Hk Hs. induction b as [|kv b IH].
  - cbn [assertNoPrivateProofPayload app fst snd]. rewrite Hk, Hs. cbn [andb]. by rewrite (proj2 (scan_spec w _) Hw).
  - cbn [assertNoPrivateProofPayload app] in IH |- *. destruct (is_forbidden_key kv.1 && _); [done|].
    destruct (mem_str kv.1 SAFE_FIELD_NAMES && _); [done|].
    destruct (assertNoPrivateProofPayload kv.2 _); cbn [res_bind]; [exact IH|done].
Qed.

Lemma proto_public : is_forbidden_key PROTO = false /\ mem_str PROTO SAFE_FIELD_NAMES = false.
Proof. split; by vm_compute. Qed.

Lemma proto_unhashed b w : no_private w = true -> json_value w = true -> is_undef w = false ->
  sha256Json (VObj (b ++ [(PROTO, w)])) = sha256Json (VObj b).
Proof.
  intros Hn Hj Hu. destruct proto_public as [Hf Hs]. unfold sha256Json, canonicalize.
  rewrite (scan_fields_app _ _ _ _ Hn Hf Hs), (json_fields_app _ _ _ _ Hj Hu). do 2 f_equal.
  assert (canonical_value (VObj (b ++ [(PROTO, w)])) = canonical_value (VObj b)) as ->; [|done].
  cbn [canonical_value]. rewrite map_app, fdelete_app. cbn [map fst snd]. unfold fdelete at 2.
  rewrite filter_cons_False by (cbn; auto). by rewrite filter_nil, app_nil_r.
Qed.

(** What a validator reads of an artifact: it does not see [__proto__]. *)
Record same_checks (a a' : jsval) : Prop := {
  sc_get : forall k, (PROTO =s= k) = false -> vget a' k = vget a k;
  sc_record : is_record a' = is_record a;
  sc_scan : forall path, assertNoPrivateProofPayload a' path = assertNoPrivateProofPayload a path;
  sc_identity : forall idField hashField prefix, (PROTO =s= idField) = false -> (PROTO =s= hashField) = false ->
    validateIdentity a' idField hashField prefix = validateIdentity a idField hashField prefix
}.

Lemma fdelete_other b k w i : k <> i -> fdelete (b ++ [(k, w)]) i = fdelete b i ++ [(k, w)].
Proof. intros H. rewrite fdelete_app. f_equal. unfold fdelete. by rewrite filter_cons_True, filter_nil. Qed.

Lemma proto_same_checks fs w : no_private w = true -> json_value w = true -> is_undef w = false ->
  same_checks (VObj fs) (VObj (fs ++ [(PROTO, w)])).
Proof.
  intros Hn Hj Hu. destruct proto_public as [Hf Hs].
  assert (forall k, (PROTO =s= k) = false -> fget (fs ++ [(PROTO, w)]) k = fget fs k) as Hv.
  { intros k Hk. apply fget_app_left. cbn. rewrite list_elem_of_singleton. intros ->. by rewrite str_eqb_refl in Hk. }
  split; [exact Hv|done|intros path; by apply scan_fields_app|].
  intros idField hashField prefix Hi Hh. unfold validateIdentity, vget. cbn [own_fields]. rewrite !Hv by done. f_equal.
  unfold bodyWithoutIdentity. cbn [spread_of own_fields].
  apply str_eqb_neq in Hi, Hh. rewrite (fdelete_other _ _ _ _ Hi), (fdelete_other _ _ _ _ Hh). f_equal. by apply proto_unhashed.
Qed.

Lemma same_header a a' path schema : same_checks a a' -> validate_header a' path schema = validate_header a path schema.
Proof.
  intros H. unfold validate_header, requiredObject, requireSafeBoundaries, SAFE_BOOLEAN_BOUNDARIES.
  cbn [flat_map fst snd]. rewrite (sc_record _ _ H), (sc_scan _ _ H), !(sc_get _ _ H) by (by vm_compute). reflexivity.
Qed.

Lemma same_validation a a' : same_checks a a' -> validateSupportedArtifact a' = validateSupportedArtifact a.
Proof.
  intros H. unfold validateSupportedArtifact, validateOtherArtifact, schema_is. rewrite (sc_get _ _ H "schema") by (by vm_compute).
  repeat match goal with |- (if ?b then _ else _) = _ => destruct b end; try done;
    unfold validateProofNetworkPacket, validateProofNetworkAnchorBatch, validateCapabilityGrant, validateCapabilityRevocation,
      validateBenchmarkAttestation, validateRegistryEntry, validateRegistryBatch, check_signature, check_listing;
    rewrite (same_header _ _ _ _ H); rewrite ?(sc_get _ _ H) by (by vm_compute);
    rewrite (sc_identity _ _ H) by (by vm_compute); reflexivity.
Qed.

(** C38 An own property called [__proto__], which the canonical copy loses, is not covered by the
    hash of an artifact: with any JSON value in it that passes the scan, an artifact is
    accepted or refused exactly as without it. *)
Theorem proto_property_not_hashed fs w :
  no_private w = true -> json_value w = true -> is_undef w = false ->
  validateSupportedArtifact (VObj (fs ++ [(PROTO, w)])) = validateSupportedArtifact (VObj fs).
Proof. intros Hn Hj Hu. by apply same_validation, proto_same_checks. Qed.

(** ** References and roots *)
Lemma sorted_pair a b : str_ltb a b = true -> sort_strings [b; a] = [a; b].
Proof.
  intros H. rewrite (sort_strings_proper [b; a] [a; b]) by constructor. apply sort_strings_id.
  repeat constructor. unfold str_le. by apply str_ltb_asym.
Qed.

(** The references are sorted before they are paired with the roots: of two roots with
    references in descending order, the first root gets the reference of the second. *)
Lemma refs_are_reordered r1 r2 a b l :
  re_full ROOT_RE r1 = true -> ref_text a = true -> ref_text b = true -> str_ltb a b = true ->
  normalizeCommitments [("roots" : jstr, VArr [VStr r1; VStr r2]); ("refs" : jstr, VArr [VStr b; VStr a])] = Ok l ->
  commitment_obj "memory_root" r1 (Some a) None ∈ l.
Proof.
  intros H1 Ha Hb Hlt. unfold normalizeCommitments, field_of, COMMITMENT_FIELDS. read_listed. unfold coalesce. cbn [is_nullish].
  assert (publicRefArray (VArr [VStr b; VStr a]) "refs" 0 64 = Ok [VStr a; VStr b]) as ->.
  { unfold publicRefArray. cbn [arrayInput is_nullish array_or_one].
    replace (out_of_bounds [VStr b; VStr a] 0 64) with false by (by vm_compute).
    unfold map_items, imap_res. cbn [imap_res_from]. unfold as_string.
    rewrite (ref_text_publicRef _ _ Ha), (ref_text_publicRef _ _ Hb). cbn [res_bind].
    change [VStr b; VStr a] with (text_values [b; a]). rewrite default_sort_texts, sorted_pair by done. done. }
  cbn [res_bind arrayInput is_nullish array_or_one]. intros H. match type of H with (if ?b then _ else _) = _ => destruct b; [done|] end.
  apply res_bind_ok in H as (items & Hi & <-%Ok_inj). rewrite sort_commitments_perm.
  change (imap _ _) with [commitment_obj "memory_root" r1 (Some a) None; commitment_obj "memory_root" r2 (Some b) None] in Hi.
  unfold map_items, imap_res in Hi. cbn [imap_res_from commitment_obj] in Hi. apply res_bind_ok in Hi as (x & Hx & Hi).
  apply res_bind_ok in Hi as (xs & _ & <-%Ok_inj).
  change (normalizeCommitment 0 (commitment_obj "memory_root" r1 (Some a) None) = Ok x) in Hx.
  rewrite commitment_normal in Hx; [apply Ok_inj in Hx as <-; by left|by vm_compute|done| |done].
  intros r [= <-] g. by apply ref_text_publicRef.
Qed.
End guarantees.

(** ** Concrete artifacts *)
#[export] Instance SampleLocaleLaws : LocaleLaws SampleLocale.
Proof.
  split. intros a b. cbn. rewrite !negb_true_iff. destruct (str_ltb b a) eqn:E; [right; by apply str_ltb_asym|by left].
Qed.

Definition sample_hash : jstr := SHA256_PREFIX +s+ replicate 64 97%N.

Definition grant_input : jsval := VObj [
  ("issuer_ref" : jstr, vstr "issuer:alice"); ("subject_ref" : jstr, vstr "agent:bob");
  ("scopes" : jstr, VArr [vstr "write"; vstr "read"; vstr "write"]); ("policy_hash" : jstr, VStr sample_hash);
  ("maxUses" : jstr, vint 3)].

Definition value_or_null (r : res jsval) : jsval := match r with Ok a => a | Throw _ => VNull end.

Definition sample_grant : jsval := value_or_null (createCapabilityGrant grant_input).
Definition packet_input : jsval := VObj [("grants" : jstr, sample_grant)].
Definition sample_packet : jsval := value_or_null (createProofNetworkPacket packet_input).

Lemma created_artifacts_accepted_witness :
  created grant_input sample_grant /\ validateSupportedArtifact sample_grant = verificationResult [] /\
  created packet_input sample_packet /\ validateSupportedArtifact sample_packet = verificationResult [].
Proof.
  assert (created grant_input sample_grant) as H1 by (apply created_by_grant; vm_compute; reflexivity).
  assert (created packet_input sample_packet) as H2 by (apply created_by_packet; vm_compute; reflexivity).
  exact (conj H1 (conj (created_artifacts_accepted (CL := SampleLaws) _ _ H1)
    (conj H2 (created_artifacts_accepted (CL := SampleLaws) _ _ H2)))).
Defined.

Lemma accepted_packet_sound_witness : v_ok (validateProofNetworkPacket sample_packet) = true /\
  exists artifacts hashes, vget sample_packet "artifacts" = VArr artifacts /\ 1 <= length artifacts <= 128 /\
    Forall (λ a, schema_is a PROOF_NETWORK_PACKET_SCHEMA = false /\ v_ok (validateSupportedArtifact a) = true) artifacts /\
    imap_res artifactHash artifacts = Ok hashes /\
    (vget sample_packet "artifact_count" === vnat (length artifacts)) = true /\
    json_stringify (vget sample_packet "artifact_hashes") = json_stringify (VArr (text_values (sort_strings hashes))) /\
    exists root, sha256Json (VArr (text_values (sort_strings hashes))) = Ok root /\ vget sample_packet "artifact_root" = VStr root.
Proof.
  assert (v_ok (validateProofNetworkPacket sample_packet) = true) as H by (vm_compute; reflexivity).
  exact (conj H (accepted_packet_sound _ H)).
Defined.

Lemma accepted_artifact_private_free_witness : v_ok (validateSupportedArtifact sample_grant) = true /\
  (forall s, vget sample_grant "audience_ref" = VStr s -> re_search SECRET_VALUE_RE s = false).
Proof.
  assert (v_ok (validateSupportedArtifact sample_grant) = true) as H by (vm_compute; reflexivity).
  assert (nested (vget sample_grant "audience_ref") sample_grant) as Hn.
  { apply (nested_field _ ("audience_ref" : jstr) (vget sample_grant "audience_ref")); [|constructor].
    apply list_elem_of_lookup_2 with (i := 6). vm_compute. reflexivity. }
  split; [exact H|]. exact (proj1 (accepted_artifact_private_free sample_grant _ H Hn)).
Defined.

Lemma proto_property_not_hashed_witness :
  let w := VObj [("admin" : jstr, VBool true)] in
  no_private w = true /\ json_value w = true /\
  validateSupportedArtifact (VObj (own_fields sample_grant ++ [(PROTO, w)])) =
    validateSupportedArtifact (VObj (own_fields sample_grant)).
Proof.
  intros w. assert (no_private w = true) as Hn by (vm_compute; reflexivity). assert (json_value w = true) as Hj by reflexivity.
  exact (conj Hn (conj Hj (proto_property_not_hashed _ w Hn Hj eq_refl))).
Defined.

(** A grant that never says when it was issued or expires: the validator reads absent times
    as the default. *)
Definition timeless_grant : jsval :=
  let body := fdelete (fdelete (bodyWithoutIdentity sample_grant "capability_grant_id" "capability_grant_hash") "issued_at") "expires_at" in
  value_or_null (freezeArtifact body "capability_grant_id" "capability_grant_hash" "png").

Lemma timeless_grant_accepted :
  vget timeless_grant "expires_at" = VUndef /\ vget timeless_grant "issued_at" = VUndef /\
  validateCapabilityGrant timeless_grant = verificationResult [].
Proof. vm_compute. split_and!; reflexivity. Qed.

(** The holes of a sparse array of entries are not looked at when a batch is made of it. *)
Lemma sparse_batch_refused :
  match createRegistryBatch (VObj [("entries" : jstr, VArr [VHole])]) with
  | Ok batch => v_errors (validateSupportedArtifact batch) = ["entries[0] must be an object" : jstr]
  | Throw _ => False
  end.
Proof. vm_compute. reflexivity. Qed.
