(* ===== verification/Metering.v ===== *)
(** * Metering

    [src/packages/metering/src/index.js]: usage events with their token counts and
    estimated costs, and the aggregate of a list of events with its totals per pair of
    provider and model.  Nothing is stored: an event and an aggregate are values that
    carry a hash of themselves.  The text functions and the hash are those of
    [Settlement], which the package has copies of. *)

From S2P Require Import Prelude JsValue Doubles Rounding Regex Canonical Hashing Dates VaultPublic Vault Settlement.

Definition USAGE_EVENT_SCHEMA : jstr := "enigma.usage_event.v1".
Definition USAGE_AGGREGATE_SCHEMA : jstr := "enigma.usage_aggregate.v1".
Definition USAGE_METERING_PRODUCT_THESIS : jstr :=
  "Centralized high-performance memory service with permissionless access and settlement receipts; usage metering is deterministic, content-minimized, and does not claim token ROI or provider invoice savings.".

Definition SAFE_METRIC_KEYS : list jstr :=
  ["prompt_tokens" : jstr; "completion_tokens" : jstr; "input_tokens" : jstr; "output_tokens" : jstr;
   "baseline_prompt_tokens" : jstr; "optimized_prompt_tokens" : jstr; "memory_baseline_tokens" : jstr;
   "memory_optimized_tokens" : jstr; "memory_savings_tokens" : jstr; "billable_prompt_tokens" : jstr;
   "billable_completion_tokens" : jstr; "total_prompt_tokens" : jstr; "total_completion_tokens" : jstr;
   "total_memory_baseline_tokens" : jstr; "total_memory_optimized_tokens" : jstr;
   "total_memory_savings_tokens" : jstr].

(** The words of [Settlement] without [seed] and [mnemonic]. *)
Definition FORBIDDEN_WORDS : re :=
  rwords ["raw"%string; "plaintext"%string; "plain_text"%string; "prompt"%string; "prompts"%string;
          "message"%string; "messages"%string; "text"%string; "content"%string; "document"%string;
          "documents"%string; "transcript"%string; "response"%string; "responses"%string;
          "provider_response"%string; "response_body"%string; "credential"%string; "credentials"%string;
          "api_key"%string; "secret"%string; "password"%string; "private_key"%string].

Definition FORBIDDEN_KEY_RE : re := re_iu (rseqs [rlit "_"; FORBIDDEN_WORDS; rlit "_"]).
Definition is_forbidden_key (key : jstr) : bool := re_search FORBIDDEN_KEY_RE ("_" +s+ key +s+ "_").

(** The same source text in both packages. *)
Definition SECRET_VALUE_RE : re := Settlement.SECRET_VALUE_RE.

(** [/\.claim_boundary\[\d+\]$/.test(path)]. *)
Definition is_claim_path (path : jstr) : bool :=
  re_suffix (rseqs [rlit ".claim_boundary["; rplus rdigit; rlit "]"]) path.

Fixpoint assertNoSensitivePayload (value : jsval) (path : jstr) : res unit :=
  match value with
  | VStr s =>
      throw_if negb (is_claim_path path) && re_search SECRET_VALUE_RE s
        with TypeError (path +s+ " contains secret-looking data");
      Ok tt
  | VArr items =>
      (fix go (index : nat) (items : list jsval) : res unit :=
         match items with
         | [] => Ok tt
         | item :: items' =>
             let! _ := assertNoSensitivePayload item (path +s+ "[" +s+ nat_str index +s+ "]") in
             go (S index) items'
         end) 0%nat items
  | VObj fields | VInst _ fields =>
      (fix go (fields : list (jstr * jsval)) : res unit :=
         match fields with
         | [] => Ok tt
         | kv :: fields' =>
             throw_if is_forbidden_key kv.1 && negb (mem_str kv.1 SAFE_METRIC_KEYS)
               with TypeError (path +s+ "." +s+ kv.1 +s+ " is not allowed in metering artifacts");
             let! _ := assertNoSensitivePayload kv.2 (path +s+ "." +s+ kv.1) in go fields'
         end) fields
  | _ => Ok tt
  end.

(** [Number.isSafeInteger(n)]: a whole number below 2^53 is an [NInt] or [-0]. *)
Definition num_is_safe (n : jsnum) : bool :=
  match n with NInt z => (Z.abs z <? 2 ^ 53)%Z | NNegZero => true | _ => false end.

(** A template literal: [`${v}`] throws on a symbol. *)
Definition template (v : jsval) : res jstr :=
  match v with
  | VOpaque OSymbol _ => Throw (TypeError "Cannot convert a Symbol value to a string")
  | _ => Ok (to_str v)
  end.

Section metering.
Context {C : Crypto} {Hst : Host} {Loc : Locale} {P : Platform}.

(** ** Arguments *)
Definition stringOrDefault (value fallback : jsval) : res jsval := optionalString value fallback.

Definition nonNegativeInteger (value : jsval) (name : jstr) : res jsnum :=
  let! n := to_number (value ?? vint 0) in
  throw_if negb (num_is_safe n) || num_ltb n (NInt 0)
    with TypeError (name +s+ " must be a non-negative integer");
  Ok n.

Definition nonNegativeNumber (value : jsval) (name : jstr) : res jsnum :=
  let! n := to_number (value ?? vint 0) in
  throw_if negb (num_is_finite n) || num_ltb n (NInt 0)
    with TypeError (name +s+ " must be a non-negative number");
  Ok n.

Definition isoTimestamp (value : jsval) : res jsval :=
  let! timestamp := stringOrDefault value (VStr EPOCH) in
  match date_parse (to_str timestamp) with
  | None => Throw (TypeError "timestamp must be ISO-parseable")
  | Some _ => Ok timestamp
  end.

(** ** Hashes *)
Definition hashValue (value : jsval) : res jstr := digest value.
Definition eventIdFrom : jsval -> res jstr := id_from "uevt_".
Definition aggregateIdFrom : jsval -> res jstr := id_from "uagg_".

(** ** Prices *)
Record pricing := {
  p_currency : jsval;
  p_input : jsnum;
  p_output : jsnum
}.

Definition pricing_value (p : pricing) : jsval :=
  VObj [("currency" : jstr, p_currency p); ("input_price_per_million_tokens" : jstr, VNum (p_input p));
        ("output_price_per_million_tokens" : jstr, VNum (p_output p))].

Definition normalizePricing (input : jsval) : res pricing :=
  let! given := getx input "pricing" in
  let pricing := if is_record given then given else input in
  let shared := vget pricing "price_per_million_tokens" ?? vget pricing "pricePerMillionTokens" in
  let! inputPrice := nonNegativeNumber
    (vget pricing "input_price_per_million_tokens" ?? vget pricing "inputPricePerMillionTokens" ?? shared)
    "input_price_per_million_tokens" in
  let! outputPrice := nonNegativeNumber
    (vget pricing "output_price_per_million_tokens" ?? vget pricing "outputPricePerMillionTokens" ?? shared)
    "output_price_per_million_tokens" in
  let! currency := stringOrDefault (vget pricing "currency") (vstr "USD") in
  Ok {| p_currency := currency; p_input := inputPrice; p_output := outputPrice |}.

Definition MILLION : jsnum := NInt 1000000.

Definition costFor (promptTokens completionTokens : jsnum) (p : pricing) : jsnum :=
  num_plus (num_times (num_quot promptTokens MILLION) (p_input p))
           (num_times (num_quot completionTokens MILLION) (p_output p)).

(** ** Events *)

(** The counts that an event is made of. *)
Record counts := {
  c_prompt : jsnum;
  c_completion : jsnum;
  c_baseline : jsnum;
  c_optimized : jsnum
}.

(** Reads the counts of the input: the memory counts default to the prompt tokens. *)
Definition read_counts (o : obj) : res counts :=
  let! promptTokens := nonNegativeInteger
    (fget o "prompt_tokens" ?? fget o "promptTokens" ?? fget o "input_tokens" ?? fget o "inputTokens")
    "prompt_tokens" in
  let! completionTokens := nonNegativeInteger
    (fget o "completion_tokens" ?? fget o "completionTokens" ?? fget o "output_tokens" ?? fget o "outputTokens")
    "completion_tokens" in
  let! memoryBaselineTokens := nonNegativeInteger
    (fget o "memory_baseline_tokens" ?? fget o "memoryBaselineTokens" ?? fget o "baseline_prompt_tokens"
     ?? fget o "baselinePromptTokens" ?? VNum promptTokens) "memory_baseline_tokens" in
  let! memoryOptimizedTokens := nonNegativeInteger
    (fget o "memory_optimized_tokens" ?? fget o "memoryOptimizedTokens" ?? fget o "optimized_prompt_tokens"
     ?? fget o "optimizedPromptTokens" ?? VNum promptTokens) "memory_optimized_tokens" in
  throw_if num_ltb memoryBaselineTokens memoryOptimizedTokens
    with RangeError "memory_optimized_tokens must be <= memory_baseline_tokens";
  Ok {| c_prompt := promptTokens; c_completion := completionTokens; c_baseline := memoryBaselineTokens;
        c_optimized := memoryOptimizedTokens |}.

Definition usage_of (c : counts) : obj :=
  [("prompt_tokens" : jstr, VNum (c_prompt c)); ("completion_tokens" : jstr, VNum (c_completion c));
   ("memory_baseline_tokens" : jstr, VNum (c_baseline c));
   ("memory_optimized_tokens" : jstr, VNum (c_optimized c));
   ("memory_savings_tokens" : jstr, VNum (num_minus (c_baseline c) (c_optimized c)));
   ("billable_prompt_tokens" : jstr, VNum (c_optimized c));
   ("billable_completion_tokens" : jstr, VNum (c_completion c))].

Definition cost_of (c : counts) (p : pricing) : obj :=
  let costBeforeMemory := costFor (c_baseline c) (c_completion c) p in
  let costAfterMemory := costFor (c_optimized c) (c_completion c) p in
  [("currency" : jstr, p_currency p); ("cost_before_memory" : jstr, VNum costBeforeMemory);
   ("cost_after_memory" : jstr, VNum costAfterMemory);
   ("estimated_memory_credit" : jstr, VNum (num_minus costBeforeMemory costAfterMemory))].

Definition EVENT_BOUNDARY : obj :=
  [("permissionless_access" : jstr, VBool true);
   ("settlement" : jstr, vstr "external_or_offline_receipt_settlement");
   ("proof_anchor" : jstr, vstr "usage_hash_and_memory_commitments_only");
   ("decentralized_inference_claim" : jstr, VBool false); ("token_roi_claim" : jstr, VBool false);
   ("provider_invoice_savings_claim" : jstr, VBool false)].

(** [{ ...body, [id]: ..., [hash]: hashValue(body) }], scanned once more. *)
Definition sealed (body : obj) (id_field hash_field : jstr) (idFrom : jsval -> res jstr) (path : jstr) : res jsval :=
  let! id := idFrom (VObj body) in
  let! hash := hashValue (VObj body) in
  let value := VObj (spread body [(id_field, VStr id); (hash_field, VStr hash)]) in
  let! _ := assertNoSensitivePayload value path in
  Ok value.

Definition createUsageEvent (input : jsval) : res jsval :=
  let value := if is_undef input then VObj [] else input in
  throw_if negb (is_record value) with TypeError "createUsageEvent requires an options object";
  let! _ := assertNoSensitivePayload value "input" in
  let o := own_fields value in
  let! tenantId := requiredString (field2 o "tenant_id" "tenantId") "tenant_id" in
  let! meterId := requiredString (fget o "meter_id" ?? fget o "meterId" ?? vstr "default") "meter_id" in
  let! provider := requiredString (fget o "provider") "provider" in
  let! model := requiredString (fget o "model") "model" in
  let! operation := requiredString (fget o "operation" ?? vstr "memory.inference") "operation" in
  let! timestamp := isoTimestamp (fget o "timestamp" ?? fget o "created_at" ?? fget o "createdAt") in
  let! c := read_counts o in
  let! p := normalizePricing (fget o "pricing" ?? value) in
  let eventBody := [
    ("schema" : jstr, VStr USAGE_EVENT_SCHEMA);
    ("product_thesis" : jstr, VStr USAGE_METERING_PRODUCT_THESIS);
    ("tenant_id" : jstr, VStr tenantId); ("meter_id" : jstr, VStr meterId);
    ("provider" : jstr, VStr provider); ("model" : jstr, VStr model);
    ("operation" : jstr, VStr operation); ("timestamp" : jstr, timestamp);
    ("usage" : jstr, VObj (usage_of c)); ("pricing" : jstr, pricing_value p);
    ("estimated_cost" : jstr, VObj (cost_of c p));
    ("settlement_boundary" : jstr, VObj EVENT_BOUNDARY)] in
  sealed eventBody "event_id" "event_hash" eventIdFrom "event".

(** ** Totals *)
Definition requireUsageEvent (index : nat) (event : jsval) : res jsval :=
  let path := "events[" +s+ nat_str index +s+ "]" in
  throw_if negb (has_schema event USAGE_EVENT_SCHEMA)
    with TypeError (path +s+ " must be an enigma usage event");
  let! _ := assertNoSensitivePayload event path in
  Ok event.

Definition USAGE_TOTALS : list jstr :=
  ["prompt_tokens" : jstr; "completion_tokens" : jstr; "memory_baseline_tokens" : jstr;
   "memory_optimized_tokens" : jstr; "memory_savings_tokens" : jstr].
Definition COST_TOTALS : list jstr :=
  ["cost_before_memory" : jstr; "cost_after_memory" : jstr; "estimated_memory_credit" : jstr].

(** [target[key] += source[key]]. *)
Definition add_field (source : jsval) (target : obj) (key : jstr) : res obj :=
  let! x := getx source key in
  let! sum := plus (fget target key) x in
  Ok (fset target key sum).

Definition addTotals (target : obj) (usage cost : jsval) : res obj :=
  let! target' := foldl_res (add_field usage) target USAGE_TOTALS in
  foldl_res (add_field cost) target' COST_TOTALS.

Definition emptyTotals (currency : jsval) : obj :=
  ("currency" : jstr, currency) :: map (λ key : jstr, (key, vint 0)) (USAGE_TOTALS ++ COST_TOTALS).

(** ** Groups *)
Record group := {
  g_provider : jsval;
  g_model : jsval;
  g_count : nat;
  g_totals : obj
}.

(** [`${event.provider}\u0000${event.model}`]. *)
Definition group_key (event : jsval) : res jstr :=
  let! provider := template (vget event "provider") in
  let! model := template (vget event "model") in
  Ok (provider +s+ [0%N] +s+ model).

Definition new_group (currency event : jsval) : group :=
  {| g_provider := vget event "provider"; g_model := vget event "model"; g_count := 0;
     g_totals := emptyTotals currency |}.

(** The totals of all events and the groups, in the order their keys were first seen. *)
Definition aggregation : Type := obj * list (jstr * group).

(** One turn of the loop. *)
Definition add_event (currency : jsval) (state : aggregation) (event : jsval) : res aggregation :=
  let! cost := getx event "estimated_cost" in
  let! c := getx cost "currency" in
  throw_if c !== currency with TypeError "all events must use the same currency";
  let! totals := addTotals state.1 (vget event "usage") cost in
  let! key := group_key event in
  let group := default (new_group currency event) (map_get state.2 key) in
  let! group_totals := addTotals (g_totals group) (vget event "usage") cost in
  Ok (totals, map_set state.2 key
    {| g_provider := g_provider group; g_model := g_model group; g_count := S (g_count group);
       g_totals := group_totals |}).

(** A stable sort by [(a.provider + a.model).localeCompare(b.provider + b.model)]. *)
Fixpoint group_insert (g : jsval * group) (l : list (jsval * group)) : list (jsval * group) :=
  match l with
  | [] => [g]
  | h :: l' => if locale_leb (str_of g.1) (str_of h.1) then g :: l else h :: group_insert g l'
  end.

(** With two groups or more every sum is compared and has to be a text. *)
Definition sorted_groups (groups : list group) : res (list group) :=
  if (length groups <=? 1)%nat then Ok groups
  else
    let! keyed := map_res (λ g, let! k := plus (g_provider g) (g_model g) in Ok (k, g)) groups in
    throw_if negb (forallb (λ g : jsval * group, is_string g.1) keyed)
      with TypeError "localeCompare is not a function";
    Ok (foldr group_insert [] keyed).*2.

Definition group_value (g : group) : jsval :=
  VObj [("provider" : jstr, g_provider g); ("model" : jstr, g_model g); ("event_count" : jstr, vnat (g_count g));
        ("totals" : jstr, VObj (g_totals g))].

(** ** Aggregates *)
Definition AGGREGATE_CLAIM_BOUNDARY : list jsval :=
  [vstr "Estimated memory credit is deterministic metering math over supplied usage events, not a provider invoice guarantee.";
   vstr "No token ROI, token profit, decentralized inference, provider-side deletion, model forgetting, or compliance certification claim is made.";
   vstr "Usage events contain counts, commitments, and hashes only; raw prompts, completions, provider responses, transcripts, credentials, and decrypted memory are forbidden."].

(** [events.every((event) => event.tenant_id === events[0].tenant_id)], which skips holes. *)
Definition same_tenant (events : list jsval) : bool :=
  let first := vget (elem (hd VUndef events)) "tenant_id" in
  forallb (λ event, match event with VHole => true | _ => vget event "tenant_id" === first end) events.

Definition aggregateUsageEvents (input : jsval) : res jsval :=
  let args := match input with VArr _ => VObj [("events" : jstr, input)] | VUndef | VHole => VObj [] | _ => input end in
  throw_if negb (is_record args) with TypeError "aggregateUsageEvents requires an options object or event array";
  let o := own_fields args in
  let! events := map_items requireUsageEvent (items_of (fget o "events")) in
  throw_if (length events =? 0)%nat with TypeError "events must be non-empty";
  let first := elem (hd VUndef events) in
  let! cost := getx first "estimated_cost" in
  let! currency := getx cost "currency" in
  let tenantId := fget o "tenant_id" ?? fget o "tenantId"
    ?? (if same_tenant events then vget first "tenant_id" else vstr "mixed") in
  let! state := foldl_res (add_event currency) (emptyTotals currency, []) (map elem events) in
  let! tenant_id := requiredString tenantId "tenant_id" in
  let! meter_id := stringOrDefault (field2 o "meter_id" "meterId") (vstr "aggregate") in
  let! generated_at := isoTimestamp (field2 o "generated_at" "generatedAt") in
  let! groups := sorted_groups state.2.*2 in
  let aggregateBody := [
    ("schema" : jstr, VStr USAGE_AGGREGATE_SCHEMA);
    ("product_thesis" : jstr, VStr USAGE_METERING_PRODUCT_THESIS);
    ("tenant_id" : jstr, VStr tenant_id); ("meter_id" : jstr, meter_id);
    ("generated_at" : jstr, generated_at); ("event_count" : jstr, vnat (length events));
    ("event_hashes" : jstr, VArr (map (λ event, vget event "event_hash") events));
    ("totals" : jstr, VObj state.1);
    ("by_provider_model" : jstr, VArr (map group_value groups));
    ("claim_boundary" : jstr, VArr AGGREGATE_CLAIM_BOUNDARY)] in
  sealed aggregateBody "aggregate_id" "aggregate_hash" aggregateIdFrom "aggregate".
End metering.
