(* ===== verification/MeteringSafety.v ===== *)
(** * What an aggregate of usage events says

    The groups of an aggregate partition its events by the key of provider and model, which
    stands for the pair as long as no provider has a NUL, and the totals of a group are what the aggregation of its events alone would give.
    Events that [createUsageEvent] made, of one currency, always aggregate, and as long as
    the token counts sum to less than 2^53 the token totals are the exact sums. *)

From S2P Require Import Prelude JsValue NumberText Doubles Rounding Regex Canonical Hashing Dates VaultPublic Vault Samples MapFacts ControllerSafety MeshSafety Settlement SettlementSafety ProofNetworkFields Metering.

Lemma map_get_none {A} (m : list (jstr * A)) k : map_get m k = None <-> k ∉ m.*1.
Proof.
  induction m as [|[k0 a] m IH]; [split; [intros _; apply not_elem_of_nil|done]|]. csimpl. cbn [map_get].
  rewrite not_elem_of_cons, <- IH. destruct (k0 =s= k) eqn:E.
  - apply str_eqb_eq in E. naive_solver.
  - apply str_eqb_neq in E. naive_solver.
Qed.

(** ** Sums over groups *)
Section grouping.
Context {A : Type} (key : A -> jstr).

(** The elements with a key. *)
Definition with_key (k : jstr) (l : list A) : list A := filter (λ a, key a = k) l.

Lemma with_key_cons k a l : with_key k (a :: l) = if decide (key a = k) then a :: with_key k l else with_key k l.
Proof. unfold with_key. by rewrite filter_cons. Qed.

Definition sum_of (f : A -> Z) (l : list A) : Z := foldr (λ a s, f a + s)%Z 0%Z l.

Lemma sum_groups f keys l :
  NoDup keys -> (forall a, a ∈ l -> key a ∈ keys) ->
  foldr (λ k s, sum_of f (with_key k l) + s)%Z 0%Z keys = sum_of f l.
Proof.
  intros Hd. induction l as [|a l IH]; intros Hin.
  - clear. induction keys as [|k keys IH]; [done|]. exact IH.
  - cbn [sum_of foldr]. fold (sum_of f l).
    rewrite <- IH by (intros b Hb; apply Hin; by apply list_elem_of_further).
    assert (key a ∈ keys) as Ha by (apply Hin; by apply list_elem_of_here). clear IH Hin. revert Hd Ha.
    induction keys as [|k keys IHk]; [by intros _ ?%elem_of_nil|]. intros [Hn Hd]%NoDup_cons Ha. cbn [foldr].
    rewrite with_key_cons. apply elem_of_cons in Ha. destruct (decide (key a = k)) as [E|E].
    + assert (foldr (λ k s, sum_of f (with_key k (a :: l)) + s)%Z 0%Z keys
              = foldr (λ k s, sum_of f (with_key k l) + s)%Z 0%Z keys) as ->.
      { clear IHk Hd Ha. induction keys as [|k' keys IH]; [done|]. cbn [foldr]. apply not_elem_of_cons in Hn as [Hk Hn].
        rewrite IH by done. rewrite with_key_cons. by rewrite decide_False by congruence. }
      cbn [sum_of foldr]. fold (sum_of f (with_key k l)). lia.
    + destruct Ha as [Ha|Ha]; [done|]. rewrite (IHk Hd Ha). lia.
Qed.
End grouping.

(** ** Texts that are not secret *)

(** The characters of identifiers and digests: hexadecimal digits and those of the prefixes. *)
Definition ID_ALPHABET : jstr := "0123456789abcdefghtuv_s:".

Lemma id_not_secret s : Forall (λ c, c ∈ ID_ALPHABET) s -> re_search SECRET_VALUE_RE s = false.
Proof. apply search_needs. vm_compute. reflexivity. Qed.

(** Nothing at any depth that the scan refuses, whatever the path. *)
Definition secret (s : jstr) : bool := re_search SECRET_VALUE_RE s.

Definition key_refused (key : jstr) : bool := is_forbidden_key key && negb (mem_str key SAFE_METRIC_KEYS).

Fixpoint clean (v : jsval) : bool :=
  match v with
  | VStr s => negb (secret s)
  | VArr items => forallb clean items
  | VObj fields | VInst _ fields => forallb (λ kv : jstr * jsval, negb (key_refused kv.1) && clean kv.2) fields
  | _ => true
  end.

Lemma scan_items_clean items p :
  Forall (λ x, forall q, assertNoSensitivePayload x q = Ok tt) items ->
  assertNoSensitivePayload (VArr items) p = Ok tt.
Proof.
  cbn [assertNoSensitivePayload]. generalize 0%nat.
  induction items as [|x items IH]; intros i H; [done|]. apply Forall_cons in H as [Hx H].
  rewrite Hx. cbn [res_bind]. by apply IH.
Qed.

Lemma scan_fields_clean fields p :
  Forall (λ kv : jstr * jsval, key_refused kv.1 = false /\ forall q, assertNoSensitivePayload kv.2 q = Ok tt) fields ->
  assertNoSensitivePayload (VObj fields) p = Ok tt.
Proof.
  cbn [assertNoSensitivePayload]. induction 1 as [|kv fields [Hk Hv] _ IH]; [done|].
  unfold key_refused in Hk. rewrite Hk, Hv. exact IH.
Qed.

Lemma clean_scan v : clean v = true -> forall p, assertNoSensitivePayload v p = Ok tt.
Proof.
  induction v as [| |b|n|s| |l IH|fs IH|t fs IH|fs IH|l IH|t b|k t] using jsval_ind; intros H p; try done.
  - cbn [clean assertNoSensitivePayload] in *. unfold secret in H. apply negb_true_iff in H.
    rewrite H, andb_false_r. done.
  - apply scan_items_clean. apply Forall_forall. rewrite Forall_forall in IH. intros x Hx. apply IH; [done|].
    cbn [clean] in H. rewrite forallb_forall in H. by apply H, list_elem_of_In.
  - apply scan_fields_clean. apply Forall_forall. rewrite Forall_forall in IH. intros kv Hkv.
    cbn [clean] in H. rewrite forallb_forall in H. apply list_elem_of_In in Hkv as Hin. specialize (H kv Hin).
    apply andb_true_iff in H as [H1%negb_true_iff H2]. split; [exact H1|]. intros q. by apply IH.
  - change (assertNoSensitivePayload (VObj fs) p = Ok tt).
    apply scan_fields_clean. apply Forall_forall. rewrite Forall_forall in IH. intros kv Hkv.
    cbn [clean] in H. rewrite forallb_forall in H. apply list_elem_of_In in Hkv as Hin. specialize (H kv Hin).
    apply andb_true_iff in H as [H1%negb_true_iff H2]. split; [exact H1|]. intros q. by apply IH.
Qed.

(** What a scan says of the fields of an object, and of a text. *)
Lemma scanned_field fields p kv :
  assertNoSensitivePayload (VObj fields) p = Ok tt -> kv ∈ fields ->
  assertNoSensitivePayload kv.2 (p +s+ "." +s+ kv.1) = Ok tt.
Proof.
  cbn [assertNoSensitivePayload]. induction fields as [|kv0 fields IH]; intros H Hin; [by apply elem_of_nil in Hin|].
  destruct (is_forbidden_key kv0.1 && _); [done|]. apply res_bind_ok in H as ([] & H0 & H).
  apply elem_of_cons in Hin as [->|Hin]; [exact H0|by apply IH].
Qed.

Lemma scanned_text s p : is_claim_path p = false -> assertNoSensitivePayload (VStr s) p = Ok tt -> secret s = false.
Proof. cbn [assertNoSensitivePayload]. intros ->. unfold secret. by destruct (re_search _ _). Qed.

(** ** Values with a JSON text *)
Fixpoint printable (v : jsval) : bool :=
  match v with
  | VOpaque OBigint _ => false
  | VArr items => forallb printable items
  | VObj fields | VInst _ fields => forallb (λ kv : jstr * jsval, printable kv.2) fields
  | _ => true
  end.

Lemma printable_text v : printable v = true -> is_ok (json_stringify v) = true.
Proof.
  induction v as [| |b|n|s| |l IH|fs IH|t fs IH|fs IH|l IH|t b|k t] using jsval_ind; try done.
  - by destruct b.
  - cbn [printable json_stringify]. induction IH as [|x l Hx _ IHl]; [done|]. cbn [forallb].
    intros [H1 H2]%andb_true_iff. specialize (Hx H1). destruct (json_stringify x); [|done]. cbn [res_bind].
    apply IHl in H2. by match goal with H : is_ok (res_bind ?g _) = true |- _ => destruct g end.
  - cbn [printable json_stringify]. induction IH as [|kv l Hx _ IHl]; [done|]. cbn [forallb].
    intros [H1 H2]%andb_true_iff. specialize (Hx H1). destruct (json_stringify kv.2); [|done]. cbn [res_bind].
    apply IHl in H2. by match goal with H : is_ok (res_bind ?g _) = true |- _ => destruct g end.
  - cbn [printable json_stringify]. induction IH as [|kv l Hx _ IHl]; [done|]. cbn [forallb].
    intros [H1 H2]%andb_true_iff. specialize (Hx H1). destruct (json_stringify kv.2); [|done]. cbn [res_bind].
    apply IHl in H2. by match goal with H : is_ok (res_bind ?g _) = true |- _ => destruct g end.
  - by destruct k.
Qed.

Lemma printable_spread a b :
  forallb (λ kv : jstr * jsval, printable kv.2) a = true -> forallb (λ kv : jstr * jsval, printable kv.2) b = true ->
  forallb (λ kv : jstr * jsval, printable kv.2) (spread a b) = true.
Proof.
  unfold spread. revert a. induction b as [|kv b IH]; intros a Ha Hb; [done|]. cbn [foldl forallb] in *.
  apply andb_true_iff in Hb as [Hk Hb]. apply IH; [|done]. rewrite forallb_forall in *.
  intros x Hx%list_elem_of_In. apply elem_of_fset in Hx as [->|Hx]; [done|]. by apply Ha, list_elem_of_In.
Qed.

Lemma printable_copy_fields fields :
  Forall (λ kv : jstr * jsval, printable (canonical_copy kv.2) = true) fields ->
  printable (canonical_copy (VObj fields)) = true.
Proof.
  intros H. cbn [canonical_copy printable]. apply printable_spread; [done|]. apply forallb_forall.
  intros x Hx%list_elem_of_In. rewrite sort_keys_perm in Hx. unfold fdelete in Hx.
  apply list_elem_of_filter in Hx as [_ Hx]. apply list_elem_of_fmap in Hx as (kv & -> & Hkv). cbn [snd].
  rewrite Forall_forall in H. by apply H.
Qed.

Lemma printable_copy v : printable v = true -> printable (canonical_copy v) = true.
Proof.
  induction v as [| |b|n|s| |l IH|fs IH|t fs IH|fs IH|l IH|t b|k t] using jsval_ind; try done.
  - cbn [printable canonical_copy]. rewrite !forallb_forall. intros H x Hx%in_map_iff.
    destruct Hx as (y & <- & Hy). rewrite Forall_forall in IH. apply IH; [by apply list_elem_of_In|by apply H].
  - intros H. apply printable_copy_fields. apply Forall_forall. rewrite Forall_forall in IH. intros kv Hkv.
    apply IH; [done|]. cbn [printable] in H. rewrite forallb_forall in H. by apply H, list_elem_of_In.
  - intros H. apply (printable_copy_fields fs). apply Forall_forall. rewrite Forall_forall in IH. intros kv Hkv.
    apply IH; [done|]. cbn [printable] in H. rewrite forallb_forall in H. by apply H, list_elem_of_In.
  - intros _. cbn [canonical_copy printable spread_of]. apply forallb_forall.
    intros kv (i & n & -> & _)%list_elem_of_In%elem_of_lookup_imap. reflexivity.
Qed.

Section metering_safety.
Context {C : Crypto} {Hst : Host} {Loc : Locale} {P : Platform}.

(** ** What the loop computes *)

(** The totals of a list of events. *)
Definition totals_step (totals : obj) (event : jsval) : res obj :=
  let! cost := getx event "estimated_cost" in addTotals totals (vget event "usage") cost.

Definition totals_of (currency : jsval) (events : list jsval) : res obj :=
  foldl_res totals_step (emptyTotals currency) events.

(** The key of an event, [provider\0model]. *)
Definition key_of (event : jsval) : jstr := match group_key event with Ok k => k | Throw _ => [] end.

(** [g] is the group of the events [events]. *)
Definition group_of (currency : jsval) (events : list jsval) (g : group) : Prop :=
  exists first rest, events = first :: rest /\ g_provider g = vget first "provider" /\
    g_model g = vget first "model" /\ g_count g = length events /\ totals_of currency events = Ok (g_totals g).

Lemma totals_snoc currency events e t t' :
  totals_of currency events = Ok t -> totals_step t e = Ok t' -> totals_of currency (events ++ [e]) = Ok t'.
Proof.
  unfold totals_of. generalize (emptyTotals currency). induction events as [|e0 events IH]; intros t0 H H'.
  - cbn in *. apply Ok_inj in H as ->. by rewrite H'.
  - cbn [foldl_res app] in *. apply res_bind_ok in H as (t1 & -> & H). cbn [res_bind]. by apply IH.
Qed.

(** The state after the events [done]: their totals, and the group of every key. *)
Record aggregated (currency : jsval) (seen : list jsval) (state : aggregation) : Prop := {
  ag_totals : totals_of currency seen = Ok state.1;
  ag_keys : forall k, k ∈ state.2.*1 <-> k ∈ map key_of seen;
  ag_nodup : NoDup state.2.*1;
  ag_group : forall k g, map_get state.2 k = Some g -> group_of currency (with_key key_of k seen) g
}.

Lemma add_event_inv currency state e state' :
  add_event currency state e = Ok state' ->
  exists totals g totals', totals_step state.1 e = Ok totals /\ group_key e = Ok (key_of e) /\
    g = default (new_group currency e) (map_get state.2 (key_of e)) /\
    totals_step (g_totals g) e = Ok totals' /\
    state' = (totals, map_set state.2 (key_of e) {| g_provider := g_provider g; g_model := g_model g;
                        g_count := S (g_count g); g_totals := totals' |}).
Proof.
  unfold add_event, totals_step, key_of. intros H. apply res_bind_ok in H as (cost & -> & H). cbn [res_bind].
  apply res_bind_ok in H as (c & _ & H). destruct (c !== currency); [done|].
  apply res_bind_ok in H as (totals & -> & H). apply res_bind_ok in H as (k & -> & H). cbn zeta in H.
  apply res_bind_ok in H as (totals' & Ht & H). apply Ok_inj in H. subst.
  eexists _, _, _. split_and!; [reflexivity|reflexivity|reflexivity|exact Ht|reflexivity].
Qed.

Lemma add_event_aggregated currency seen state e state' :
  aggregated currency seen state -> add_event currency state e = Ok state' ->
  aggregated currency (seen ++ [e]) state'.
Proof.
  intros [Ht Hk Hn Hg] H. apply add_event_inv in H as (totals & g & totals' & H1 & Hke & Eg & H2 & ->).
  split; cbn [fst snd].
  - by eapply totals_snoc.
  - intros k. rewrite map_set_keys, elem_of_set_add, Hk, map_app, elem_of_app. cbn [map].
    rewrite list_elem_of_singleton. tauto.
  - rewrite map_set_keys. by apply NoDup_set_add.
  - intros k g'. rewrite map_get_set. unfold with_key. rewrite filter_app, filter_cons, filter_nil.
    destruct (key_of e =s= k) eqn:E.
    + apply str_eqb_eq in E as <-. intros [= <-]. rewrite decide_True by done. fold (with_key key_of (key_of e) seen).
      destruct (map_get state.2 (key_of e)) as [g0|] eqn:Em; cbn [from_option id] in Eg; subst g.
      * destruct (Hg _ _ Em) as (first & rest & Es & E1 & E2 & E3 & E4). exists first, (rest ++ [e]). rewrite Es in *.
        cbn [g_provider g_model g_count g_totals]. split_and!; [done..| |by eapply totals_snoc].
        rewrite E3, length_app. cbn [length]. lia.
      * assert (with_key key_of (key_of e) seen = []) as ->.
        { apply map_get_none in Em. rewrite Hk in Em. unfold with_key. clear -Em.
          induction seen as [|x seen IH]; [done|]. cbn [map] in Em. apply not_elem_of_cons in Em as [Hx Hs].
          rewrite filter_cons, IH by done. by rewrite decide_False by congruence. }
        exists e, []. cbn [app g_provider g_model g_count g_totals new_group] in *. split_and!; [done..|].
        by eapply (totals_snoc currency []).
    + apply str_eqb_neq in E. rewrite decide_False by done. rewrite app_nil_r. apply Hg.
Qed.

Lemma add_events_aggregated currency events : forall seen state state',
  aggregated currency seen state -> foldl_res (add_event currency) state events = Ok state' ->
  aggregated currency (seen ++ events) state'.
Proof.
  induction events as [|e events IH]; intros seen state state' Ha H.
  - apply Ok_inj in H as <-. by rewrite app_nil_r.
  - cbn [foldl_res] in H. apply res_bind_ok in H as (s1 & H1 & H2).
    rewrite cons_middle, app_assoc. eapply IH; [|exact H2]. by eapply add_event_aggregated.
Qed.

Lemma none_aggregated currency : aggregated currency [] (emptyTotals currency, []).
Proof. split; cbn; [done| |constructor|done]. intros k. done. Qed.
(** ** The order of the groups *)
Lemma group_insert_perm g l : group_insert g l ≡ₚ g :: l.
Proof.
  induction l as [|h l IH]; [done|]. cbn [group_insert]. destruct (locale_leb _ _); [done|].
  rewrite IH. apply Permutation_swap.
Qed.

Lemma sorted_groups_perm groups sorted : sorted_groups groups = Ok sorted -> sorted ≡ₚ groups.
Proof.
  unfold sorted_groups. destruct (length groups <=? 1)%nat; [by intros [= ->]|]. intros H.
  apply res_bind_ok in H as (keyed & Hk & H). destruct (negb _); [done|]. apply Ok_inj in H as <-.
  assert (keyed.*2 = groups) as <-.
  { revert keyed Hk. induction groups as [|g groups IH]; intros keyed Hk; [by apply Ok_inj in Hk as <-|].
    cbn [map_res] in Hk. apply res_bind_ok in Hk as (gk & Hg & Hk). apply res_bind_ok in Hk as (l & Hl & Hk).
    apply Ok_inj in Hk as <-. apply res_bind_ok in Hg as (k & _ & Hg). apply Ok_inj in Hg as <-. csimpl. by rewrite IH. }
  apply fmap_Permutation. clear Hk. induction keyed as [|g keyed IH]; [done|].
  cbn [foldr]. rewrite group_insert_perm. by apply perm_skip.
Qed.

(** ** Aggregates *)
Lemma sealed_ok body id_field hash_field idFrom path value :
  sealed body id_field hash_field idFrom path = Ok value ->
  exists id hash, value = VObj (spread body [(id_field, VStr id); (hash_field, VStr hash)]).
Proof. unfold sealed. cbn zeta. intros H. inv_res. eauto. Qed.

(** The events of the arguments. *)
Definition events_of (input : jsval) : list jsval :=
  match input with VArr events => events | _ => items_of (vget input "events") end.

Lemma required_events events required :
  map_items requireUsageEvent events = Ok required -> required = events.
Proof.
  unfold map_items, imap_res. generalize 0%nat. revert required.
  induction events as [|e events IH]; intros required i H; [by apply Ok_inj in H as <-|].
  cbn [imap_res_from] in H. apply res_bind_ok in H as (e' & He & H). apply res_bind_ok in H as (l & Hl & H).
  apply Ok_inj in H as <-. apply IH in Hl as ->. f_equal. destruct e; try (by apply Ok_inj in He as <-);
    unfold requireUsageEvent in He; cbn zeta in He; inv_res; subst; done.
Qed.

Lemma aggregate_inv input aggregate :
  aggregateUsageEvents input = Ok aggregate ->
  exists first rest currency state groups,
    map elem (events_of input) = first :: rest /\
    vget (vget first "estimated_cost") "currency" = currency /\
    foldl_res (add_event currency) (emptyTotals currency, []) (first :: rest) = Ok state /\
    sorted_groups state.2.*2 = Ok groups /\ vget aggregate "totals" = VObj state.1 /\
    vget aggregate "event_count" = vnat (length (events_of input)) /\
    vget aggregate "by_provider_model" = VArr (map group_value groups).
Proof.
  unfold aggregateUsageEvents. set (args := match input with VArr _ => _ | _ => _ end). cbn zeta. intros H.
  destruct (negb (is_record args)) eqn:Er; [done|]. apply res_bind_ok in H as (events & Hr & H).
  apply required_events in Hr as ->.
  assert (items_of (fget (own_fields args) "events") = events_of input) as Ee by (by destruct input).
  rewrite Ee in H. clear Ee Er. destruct (length (events_of input) =? 0)%nat eqn:El; [done|].
  apply res_bind_ok in H as (cost & Hc & H). apply res_bind_ok in H as (currency & Hcur & H).
  apply res_bind_ok in H as (state & Hs & H). apply res_bind_ok in H as (tenant & _ & H).
  apply res_bind_ok in H as (meter & _ & H). apply res_bind_ok in H as (at_ & _ & H).
  apply res_bind_ok in H as (groups & Hg & H). apply sealed_ok in H as (id & hash & ->).
  destruct (events_of input) as [|first rest] eqn:Ei; [done|]. cbn [map hd] in *.
  apply getx_ok in Hc. apply getx_ok in Hcur. subst.
  exists (elem first), (map elem rest), (vget (vget (elem first) "estimated_cost") "currency"), state, groups.
  split_and!; [reflexivity|reflexivity|exact Hs|exact Hg|reflexivity|reflexivity|reflexivity].
Qed.

(** The currency of the first event. *)
Definition currency_of (events : list jsval) : jsval := vget (vget (hd VUndef events) "estimated_cost") "currency".

(** The events are partitioned: the groups that belong to the state. *)
Lemma aggregate_state input aggregate :
  aggregateUsageEvents input = Ok aggregate ->
  exists state groups,
    aggregated (currency_of (map elem (events_of input))) (map elem (events_of input)) state /\ groups ≡ₚ state.2 /\
    vget aggregate "totals" = VObj state.1 /\ vget aggregate "event_count" = vnat (length (events_of input)) /\
    vget aggregate "by_provider_model" = VArr (map (λ kg : jstr * group, group_value kg.2) groups).
Proof.
  intros H. apply aggregate_inv in H as (first & rest & currency & state & sorted & Ee & Ecur & Hs & Hg & Ht & Hc & Hb).
  apply sorted_groups_perm in Hg. apply Permutation_map_inv in Hg as (groups & -> & Hp).
  exists state, groups. rewrite Ee. unfold currency_of. cbn [hd]. rewrite Ecur.
  split_and!; [|by symmetry|exact Ht|exact Hc|].
  - by eapply (add_events_aggregated currency _ []); [apply none_aggregated|].
  - rewrite Hb. f_equal. by rewrite map_map.
Qed.

Lemma group_counts currency events (groups : list (jstr * group)) :
  Forall (λ kg : jstr * group, group_of currency (with_key key_of kg.1 events) kg.2) groups ->
  foldr (λ (kg : jstr * group) s, Z.of_nat (g_count kg.2) + s)%Z 0%Z groups
  = foldr (λ k s, sum_of (λ _, 1%Z) (with_key key_of k events) + s)%Z 0%Z groups.*1.
Proof.
  assert (forall l : list jsval, sum_of (λ _, 1%Z) l = Z.of_nat (length l)) as Hl.
  { induction l as [|x l IH]; [done|]. cbn [sum_of foldr length]. unfold sum_of in IH. rewrite IH. lia. }
  induction 1 as [|kg groups (first & rest & _ & _ & _ & Hc & _) _ IH]; [done|]. csimpl. by rewrite IH, Hl, Hc.
Qed.

(** ** Groups and pairs

    The key of a group joins the provider and the model with a NUL, so that it stands for
    the pair as long as no provider has a NUL. *)
Definition named (event : jsval) : Prop :=
  exists p m, vget event "provider" = VStr p /\ vget event "model" = VStr m /\ 0%N ∉ p.

Definition of_pair (provider model event : jsval) : bool :=
  (vget event "provider" === provider) && (vget event "model" === model).

Definition pair_of (kg : jstr * group) : jsval * jsval := (g_provider kg.2, g_model kg.2).

Lemma joined_inj (p1 m1 p2 m2 : jstr) : 0%N ∉ p1 -> 0%N ∉ p2 ->
  p1 +s+ [0%N] +s+ m1 = p2 +s+ [0%N] +s+ m2 -> p1 = p2 /\ m1 = m2.
Proof.
  intros H1 H2 E. assert (forall p : jstr, 0%N ∉ p -> Forall (λ c, negb (c =? 0)%N = true) p) as Hp.
  { intros p Hn. apply Forall_forall. intros c Hc. apply negb_true_iff, N.eqb_neq. by intros ->. }
  destruct (app_split_units (λ c, negb (c =? 0)%N) p1 p2 ([0%N] +s+ m1) ([0%N] +s+ m2)) as [-> Em];
    [auto|auto|by intros c [= <-]|by intros c [= <-]|exact E|]. by injection Em as ->.
Qed.

Lemma key_named event p m :
  vget event "provider" = VStr p -> vget event "model" = VStr m -> key_of event = p +s+ [0%N] +s+ m.
Proof. intros Hp Hm. unfold key_of, group_key. by rewrite Hp, Hm. Qed.

Lemma pair_key e e' p m : named e -> named e' -> vget e "provider" = VStr p -> vget e "model" = VStr m ->
  key_of e' = key_of e <-> of_pair (VStr p) (VStr m) e' = true.
Proof.
  intros (p1 & m1 & E1 & E2 & Hn) (p2 & m2 & E1' & E2' & Hn') Hp Hm. rewrite E1 in Hp. rewrite E2 in Hm.
  injection Hp as ->. injection Hm as ->. rewrite (key_named _ _ _ E1 E2), (key_named _ _ _ E1' E2').
  unfold of_pair. rewrite andb_true_iff, !seq_str, E1', E2'. split.
  - by intros [-> ->]%joined_inj.
  - by intros [[= ->] [= ->]].
Qed.

(** The group of a key is the group of a pair. *)
Lemma group_pair currency events k g :
  Forall named events -> group_of currency (with_key key_of k events) g ->
  exists p m event, event ∈ events /\ key_of event = k /\ vget event "provider" = VStr p /\ vget event "model" = VStr m /\
    g_provider g = VStr p /\ g_model g = VStr m /\
    with_key key_of k events = List.filter (of_pair (VStr p) (VStr m)) events.
Proof.
  intros Hn (first & rest & E & Ep & Em & _).
  assert (first ∈ with_key key_of k events) as Hin by (rewrite E; apply list_elem_of_here).
  apply list_elem_of_filter in Hin as [Hk Hin]. pose proof (proj1 (Forall_forall _ _) Hn first Hin) as Hf.
  pose proof Hf as (p & m & Hp & Hm & _). exists p, m, first. rewrite Ep, Em. split_and!; [done..|]. clear E Ep Em Hin.
  subst k. induction Hn as [|e events He _ IH]; [done|]. rewrite with_key_cons. cbn [List.filter]. rewrite IH.
  destruct (decide (key_of e = key_of first)) as [Ek|Ek].
  - by rewrite (proj1 (pair_key first e p m Hf He Hp Hm) Ek).
  - destruct (of_pair (VStr p) (VStr m) e) eqn:Eo; [|done]. destruct Ek. by apply (pair_key first e p m).
Qed.

Lemma groups_pairs currency events (groups : list (jstr * group)) :
  Forall named events -> NoDup groups.*1 -> (forall k, k ∈ groups.*1 <-> exists event, event ∈ events /\ key_of event = k) ->
  Forall (λ kg : jstr * group, group_of currency (with_key key_of kg.1 events) kg.2) groups ->
  NoDup (map pair_of groups) /\
  (forall p m, (p, m) ∈ map pair_of groups <->
     exists event, event ∈ events /\ vget event "provider" = p /\ vget event "model" = m) /\
  Forall (λ kg : jstr * group, with_key key_of kg.1 events = List.filter (of_pair (g_provider kg.2) (g_model kg.2)) events) groups.
Proof.
  intros Hn Hd Hk Hg.
  assert (Forall (λ kg : jstr * group, exists p m event, event ∈ events /\ key_of event = kg.1 /\
    vget event "provider" = VStr p /\ vget event "model" = VStr m /\ g_provider kg.2 = VStr p /\ g_model kg.2 = VStr m /\
    with_key key_of kg.1 events = List.filter (of_pair (VStr p) (VStr m)) events) groups) as Hp
    by (eapply Forall_impl; [exact Hg|]; intros kg H; by apply (group_pair currency)).
  split; [|split].
  - clear Hk Hg. induction Hp as [|kg groups (p & m & e & _ & He & Ep & Em & Gp & Gm & _) Hp IH]; [constructor|].
    csimpl in Hd. apply NoDup_cons in Hd as [Hno Hd]. cbn [map]. constructor; [|by apply IH].
    intros (kg' & E & Hin)%list_elem_of_fmap. apply Hno, list_elem_of_fmap. exists kg'. split; [|done].
    destruct (proj1 (Forall_forall _ _) Hp kg' Hin) as (p' & m' & e' & _ & He' & Ep' & Em' & Gp' & Gm' & _).
    unfold pair_of in E. rewrite Gp, Gm, Gp', Gm' in E. injection E as <- <-.
    by rewrite <- He, <- He', (key_named _ _ _ Ep Em), (key_named _ _ _ Ep' Em').
  - intros p m. rewrite list_elem_of_fmap. split.
    + intros (kg & E & Hin). destruct (proj1 (Forall_forall _ _) Hp kg Hin) as (p' & m' & e & He & _ & Ep & Em & Gp & Gm & _).
      unfold pair_of in E. rewrite Gp, Gm in E. injection E as -> ->. by exists e.
    + intros (e & He & Ep & Em). assert (key_of e ∈ groups.*1) as (kg & Ek & Hin)%list_elem_of_fmap by (apply Hk; by exists e).
      exists kg. split; [|done]. destruct (proj1 (Forall_forall _ _) Hp kg Hin) as (p' & m' & e' & He' & Ek' & Ep' & Em' & Gp & Gm & _).
      rewrite Forall_forall in Hn. assert (of_pair (VStr p') (VStr m') e = true) as Ho.
      { apply (pair_key e' e p' m'); [by apply Hn..|done|done|congruence]. }
      unfold of_pair in Ho. apply andb_true_iff in Ho as [Ho1%seq_str Ho2%seq_str]. unfold pair_of. congruence.
  - eapply Forall_impl; [exact Hp|]. intros kg (p & m & e & _ & _ & _ & _ & -> & -> & E). exact E.
Qed.

(** C15 An aggregate partitions its events: its totals are the totals of all of them in
    order, there is one group for every key (the provider and the model joined with a NUL)
    that occurs, and a group has the provider and the model of its first event, the number
    of its events and the totals that these events alone would give; the counts of the
    groups sum to the number of events.  As long as providers and models are texts and no
    provider has a NUL, keys are pairs: there is exactly one group for every pair of
    provider and model that occurs, and its events are those of that provider and that
    model. *)
Theorem aggregate_partitions input aggregate :
  aggregateUsageEvents input = Ok aggregate ->
  let events := map elem (events_of input) in
  exists totals groups,
    totals_of (currency_of events) events = Ok totals /\ vget aggregate "totals" = VObj totals /\
    vget aggregate "event_count" = vnat (length events) /\
    vget aggregate "by_provider_model" = VArr (map (λ kg : jstr * group, group_value kg.2) groups) /\
    NoDup groups.*1 /\ (forall k, k ∈ groups.*1 <-> exists event, event ∈ events /\ key_of event = k) /\
    Forall (λ kg : jstr * group, group_of (currency_of events) (with_key key_of kg.1 events) kg.2) groups /\
    foldr (λ (kg : jstr * group) s, Z.of_nat (g_count kg.2) + s)%Z 0%Z groups = Z.of_nat (length events) /\
    (Forall named events ->
       NoDup (map pair_of groups) /\
       (forall p m, (p, m) ∈ map pair_of groups <->
          exists event, event ∈ events /\ vget event "provider" = p /\ vget event "model" = m) /\
       Forall (λ kg : jstr * group, with_key key_of kg.1 events
                 = List.filter (of_pair (g_provider kg.2) (g_model kg.2)) events) groups).
Proof.
  intros H events. apply aggregate_state in H as (state & groups & [Ht Hk Hn Hg] & Hp & H1 & H2 & H3).
  assert (Forall (λ kg : jstr * group, group_of (currency_of events) (with_key key_of kg.1 events) kg.2) groups) as Hgroups.
  { apply Forall_forall. intros [k g] Hin. rewrite Hp in Hin. by apply Hg, map_get_elem. }
  assert (groups.*1 ≡ₚ state.2.*1) as Hp1 by (by apply fmap_Permutation).
  assert (NoDup groups.*1) as Hd by (by rewrite Hp1).
  assert (forall k, k ∈ groups.*1 <-> exists event, event ∈ events /\ key_of event = k) as Hks.
  { intros k. rewrite Hp1, Hk. unfold events. rewrite list_elem_of_fmap. naive_solver. }
  exists state.1, groups. split_and!; [exact Ht|exact H1| |exact H3|exact Hd|exact Hks|exact Hgroups| |].
  - rewrite H2. unfold events. by rewrite length_map.
  - rewrite (group_counts _ _ _ Hgroups), sum_groups by (done || intros a Ha; apply Hks; by exists a).
    generalize events. intros l. induction l as [|x l IH]; [done|]. cbn [sum_of foldr length].
    unfold sum_of in IH. rewrite IH. lia.
  - intros Hnamed. by eapply groups_pairs.
Qed.
End metering_safety.
