(* ===== verification/MeteringTotals.v ===== *)
(** * Created usage events always aggregate

    Events that [createUsageEvent] made, all of one currency, aggregate without an error,
    and the token totals are the exact sums as long as these stay below 2^53. *)

From S2P Require Import Prelude JsValue Doubles Rounding Regex Canonical Hashing Objects Dates VaultPublic Vault Samples MapFacts ControllerSafety MeshSafety Settlement SettlementSafety ProofNetworkFields Metering MeteringSafety.

(** ** Whole numbers *)

(** [n] is the whole number [z], possibly as [-0]. *)
Definition whole (n : jsnum) (z : Z) : Prop := (n = NInt z \/ (n = NNegZero /\ z = 0%Z)) /\ (0 <= z < 2 ^ 53)%Z.

(** The whole number that [n] is. *)
Definition whole_of (n : jsnum) : Z := match n with NInt z => z | _ => 0%Z end.

Lemma whole_eq n z : whole n z -> z = whole_of n.
Proof. by intros [[->|[-> ->]] _]. Qed.

Lemma whole_self n z : whole n z -> whole n (whole_of n).
Proof. intros H. by rewrite <- (whole_eq n z H). Qed.

Lemma plus_whole x n z : whole n z -> (0 <= x)%Z -> (x + z < 2 ^ 53)%Z -> num_plus (NInt x) n = NInt (x + z).
Proof.
  intros [[->|[-> ->]] Hz] Hx Hs; cbn [num_plus]; [|by rewrite Z.add_0_r].
  unfold int_result. by rewrite (proj2 (Z.ltb_lt _ _)) by lia.
Qed.

Lemma ltb_ints x y : dec_ltb (x, 0%Z) (y, 0%Z) = (x <? y)%Z.
Proof. unfold dec_ltb. cbn [fst snd Z.min]. by rewrite Z.sub_diag, !Z.mul_1_r. Qed.

Lemma nonNegativeInteger_whole {P : Platform} v name n :
  nonNegativeInteger v name = Ok n -> exists z, whole n z.
Proof.
  unfold nonNegativeInteger. intros E. apply res_bind_ok in E as (m & _ & E).
  destruct (negb (num_is_safe m) || num_ltb m (NInt 0)) eqn:Eb; [done|]. apply Ok_inj in E as ->.
  apply orb_false_iff in Eb as [Es%negb_false_iff En]. destruct n as [z| |m e|neg|]; try done.
  - cbn [num_is_safe] in Es. apply Z.ltb_lt in Es. cbn [num_ltb num_decimal] in En. rewrite ltb_ints in En.
    apply Z.ltb_ge in En. exists z. split; [by left|lia].
  - exists 0%Z. split; [by right|lia].
Qed.

(** What is saved is the difference, without a rounding. *)
Lemma minus_whole b o x y :
  whole b x -> whole o y -> num_ltb b o = false -> whole (num_minus b o) (x - y).
Proof.
  intros [Hb Hx] [Ho Hy] Hlt.
  assert ((x <? y)%Z = false) as Hle.
  { rewrite <- ltb_ints. destruct Hb as [->|[-> ->]], Ho as [->|[-> ->]]; exact Hlt. }
  apply Z.ltb_ge in Hle. split; [|lia]. unfold num_minus.
  destruct Hb as [->|[-> ->]], Ho as [->|[-> ->]].
  - left. destruct (decide (y = 0%Z)) as [->|Hn].
    + cbn. by rewrite Z.sub_0_r; destruct x.
    + assert (num_neg (NInt y) = NInt (- y)) as -> by (by destruct y). cbn [num_plus]. unfold int_result.
      rewrite (proj2 (Z.ltb_lt _ _)) by lia. f_equal; lia.
  - left. cbn [num_neg num_plus]. unfold int_result. rewrite (proj2 (Z.ltb_lt _ _)) by lia. f_equal; lia.
  - assert (y = 0%Z) as -> by lia. right. by split.
  - left. reflexivity.
Qed.

(** ** What a created event says *)

(** The number that an event adds to a total. *)
Definition amount (event : jsval) (key : jstr) : jsnum :=
  match vget (vget event (if mem_str key USAGE_TOTALS then "usage" else "estimated_cost")) key with
  | VNum n => n
  | _ => NNaN
  end.

(** The whole number of tokens. *)
Definition tokens (key : jstr) (event : jsval) : Z := whole_of (amount event key).

Record metered (currency : jstr) (e : jsval) : Prop := {
  mt_schema : has_schema e USAGE_EVENT_SCHEMA = true;
  mt_clean : clean e = true;
  mt_usage : exists u, vget e "usage" = VObj u /\
    forall k, k ∈ USAGE_TOTALS -> fget u k = VNum (amount e k) /\ whole (amount e k) (tokens k e);
  mt_cost : exists c, vget e "estimated_cost" = VObj c /\ fget c "currency" = VStr currency /\
    forall k, k ∈ COST_TOTALS -> fget c k = VNum (amount e k);
  mt_savings : (tokens "memory_savings_tokens" e
                = tokens "memory_baseline_tokens" e - tokens "memory_optimized_tokens" e)%Z;
  mt_names : exists p m, vget e "provider" = VStr p /\ vget e "model" = VStr m /\ secret p = false /\ secret m = false;
  mt_tenant : exists t, vget e "tenant_id" = VStr t /\ trim t = t /\ t <> [] /\ secret t = false;
  mt_hash : exists h, vget e "event_hash" = VStr h /\ secret h = false;
  mt_currency : secret currency = false
}.

(** ** Clean objects *)
Lemma clean_cons k v fs :
  key_refused k = false -> clean v = true -> clean (VObj fs) = true -> clean (VObj ((k, v) :: fs)) = true.
Proof. cbn [clean forallb fst snd]. intros -> -> ->. done. Qed.

Lemma clean_text s : secret s = false -> clean (VStr s) = true.
Proof. cbn [clean]. by intros ->. Qed.

(** Cleanness of a given object, field by field. *)
Ltac clean_fields :=
  repeat lazymatch goal with
    | |- clean (VObj (_ :: _)) = true => apply clean_cons; [vm_compute; reflexivity| |]
    | |- clean (VObj []) = true => reflexivity
    | |- clean (VNum _) = true => reflexivity
    | |- clean (VStr _) = true => apply clean_text
    end.

(** A field of a list of fields. *)
Ltac in_fields := first [apply list_elem_of_here | apply list_elem_of_further; in_fields].

Section created.
Context {C : Crypto} {Hst : Host} {Loc : Locale} {P : Platform}.

Lemma required_trimmed v f s : Settlement.requiredString v f = Ok s -> trim s = s /\ s <> [].
Proof.
  destruct v; try done. cbn [Settlement.requiredString]. intros H.
  destruct (trim s0 =s= []) eqn:E; [done|]. apply Ok_inj in H as <-. split; [apply trim_again|by apply str_eqb_neq].
Qed.

Lemma default_text v fb w : stringOrDefault v (VStr fb) = Ok w -> exists s, w = VStr s.
Proof.
  unfold stringOrDefault, optionalString. destruct (is_nullish v || _); [intros <-%Ok_inj; eauto|].
  intros H. apply res_bind_ok in H as (s & _ & <-%Ok_inj). eauto.
Qed.

Lemma read_counts_whole o c :
  read_counts o = Ok c ->
  (exists a, whole (c_prompt c) a) /\ (exists a, whole (c_completion c) a) /\
  exists x y, whole (c_baseline c) x /\ whole (c_optimized c) y /\
    whole (num_minus (c_baseline c) (c_optimized c)) (x - y).
Proof.
  unfold read_counts. intros H. apply res_bind_ok in H as (p & Hp & H). apply res_bind_ok in H as (k & Hk & H).
  apply res_bind_ok in H as (b & Hb & H). apply res_bind_ok in H as (r & Hr & H).
  destruct (num_ltb b r) eqn:E; [done|]. apply Ok_inj in H as <-. cbn [c_prompt c_completion c_baseline c_optimized].
  apply nonNegativeInteger_whole in Hp, Hk, Hb as [x Hx], Hr as [y Hy].
  split_and!; [done|done|]. exists x, y. split_and!; [done|done|]. by apply minus_whole.
Qed.

Lemma amount_usage e k u :
  k ∈ USAGE_TOTALS -> vget e "usage" = VObj u -> amount e k = match fget u k with VNum n => n | _ => NNaN end.
Proof. intros Hk Hu. unfold amount. by rewrite (proj2 (mem_str_true _ _) Hk), Hu. Qed.

Lemma amount_cost e k c :
  mem_str k USAGE_TOTALS = false -> vget e "estimated_cost" = VObj c ->
  amount e k = match fget c k with VNum n => n | _ => NNaN end.
Proof. intros Hk Hc. unfold amount. by rewrite Hk, Hc. Qed.

Lemma usage_reads c o e :
  read_counts o = Ok c -> vget e "usage" = VObj (usage_of c) ->
  forall k, k ∈ USAGE_TOTALS -> fget (usage_of c) k = VNum (amount e k) /\ whole (amount e k) (tokens k e).
Proof.
  intros Hc Hu. destruct (read_counts_whole _ _ Hc) as ((p & Hp) & (q & Hq) & x & y & Hx & Hy & Hs).
  intros k Hk. unfold tokens. rewrite (amount_usage e k _ Hk Hu). clear Hu.
  apply elem_of_cons in Hk as [->|Hk]; [exact (conj eq_refl (whole_self _ _ Hp))|].
  apply elem_of_cons in Hk as [->|Hk]; [exact (conj eq_refl (whole_self _ _ Hq))|].
  apply elem_of_cons in Hk as [->|Hk]; [exact (conj eq_refl (whole_self _ _ Hx))|].
  apply elem_of_cons in Hk as [->|Hk]; [exact (conj eq_refl (whole_self _ _ Hy))|].
  apply elem_of_cons in Hk as [->|Hk]; [exact (conj eq_refl (whole_self _ _ Hs))|].
  by apply elem_of_nil in Hk.
Qed.

Lemma usage_savings c o e :
  read_counts o = Ok c -> vget e "usage" = VObj (usage_of c) ->
  (tokens "memory_savings_tokens" e = tokens "memory_baseline_tokens" e - tokens "memory_optimized_tokens" e)%Z.
Proof.
  intros Hc Hu. destruct (read_counts_whole _ _ Hc) as (_ & _ & x & y & Hx & Hy & Hs).
  apply whole_eq in Hx, Hy, Hs. unfold tokens.
  rewrite !(fun k Hk => amount_usage e k _ Hk Hu) by (apply mem_str_true; vm_compute; reflexivity).
  change (whole_of (num_minus (c_baseline c) (c_optimized c)) = whole_of (c_baseline c) - whole_of (c_optimized c))%Z. lia.
Qed.

Lemma cost_reads c p e :
  vget e "estimated_cost" = VObj (cost_of c p) ->
  forall k, k ∈ COST_TOTALS -> fget (cost_of c p) k = VNum (amount e k).
Proof.
  intros Hc k Hk.
  repeat (apply elem_of_cons in Hk as [->|Hk]; [rewrite (amount_cost e _ (cost_of c p)); [reflexivity|reflexivity|exact Hc]|]). by apply elem_of_nil in Hk.
Qed.

Lemma clean_usage c : clean (VObj (usage_of c)) = true.
Proof. unfold usage_of. clean_fields. Qed.

Lemma clean_boundary : clean (VObj EVENT_BOUNDARY) = true.
Proof. vm_compute. reflexivity. Qed.

Lemma scanned_text_field fs p k s :
  assertNoSensitivePayload (VObj fs) p = Ok tt -> (k, VStr s) ∈ fs -> is_claim_path (p +s+ "." +s+ k) = false ->
  secret s = false.
Proof. intros H Hin Hp. eapply scanned_text; [exact Hp|]. by apply (scanned_field fs p (k, VStr s)). Qed.

Lemma created_metered input e :
  createUsageEvent input = Ok e -> exists currency, metered currency e.
Proof.
  unfold createUsageEvent. cbn zeta. intros H. destruct (negb _); [done|].
  apply res_bind_ok in H as (_ & _ & H). apply res_bind_ok in H as (tenant & Ht & H).
  apply res_bind_ok in H as (meter & _ & H). apply res_bind_ok in H as (provider & _ & H).
  apply res_bind_ok in H as (model & _ & H). apply res_bind_ok in H as (operation & _ & H).
  apply res_bind_ok in H as (timestamp & Hts & H). apply res_bind_ok in H as (c & Hc & H).
  apply res_bind_ok in H as (p & Hp & H).
  assert (exists s, timestamp = VStr s) as [stamp ->].
  { unfold isoTimestamp in Hts. apply res_bind_ok in Hts as (w & Hw & Hts). apply default_text in Hw as [s ->].
    cbn [to_str] in Hts. destruct (date_parse s); [|done]. apply Ok_inj in Hts as <-. eauto. }
  assert (exists s, p_currency p = VStr s) as [currency Hcur].
  { unfold normalizePricing in Hp. apply res_bind_ok in Hp as (g & _ & Hp). cbn zeta in Hp.
    apply res_bind_ok in Hp as (a & _ & Hp). apply res_bind_ok in Hp as (b & _ & Hp).
    apply res_bind_ok in Hp as (w & Hw & Hp). apply Ok_inj in Hp as <-. by apply default_text in Hw. }
  clear Hts Hp. apply required_trimmed in Ht as [Ht Hne]. revert Hc. generalize (own_fields (if is_undef input then VObj [] else input)). intros o Hc.
  unfold sealed in H. apply res_bind_ok in H as (id & _ & H). apply res_bind_ok in H as (hash & _ & H). cbn zeta in H.
  apply res_bind_ok in H as ([] & Hscan & H). apply Ok_inj in H as <-.
  rewrite spread_append in * by (vm_compute; reflexivity). cbn [app] in *.
  set (fs := [_; _; _; _; _; _; _; _; _; _; _; _; _; _]) in *. exists currency.
  assert (forall k s, (k, VStr s) ∈ fs -> is_claim_path ("event" +s+ "." +s+ k) = false -> secret s = false) as Htext
    by (intros k s; by apply scanned_text_field).
  assert (forall k v, (k, v) ∈ fs -> assertNoSensitivePayload v ("event" +s+ "." +s+ k) = Ok tt) as Hfield
    by (intros k v Hin; by apply (scanned_field fs "event" (k, v))).
  assert (secret currency = false) as Hsec.
  { eapply (scanned_text_field (cost_of c p) ("event" +s+ "." +s+ "estimated_cost") "currency").
    - apply Hfield. in_fields.
    - unfold cost_of. rewrite Hcur. apply list_elem_of_here.
    - vm_compute. reflexivity. }
  assert (clean (VObj (cost_of c p)) = true /\ clean (pricing_value p) = true) as [Hcost Hprice].
  { unfold cost_of, pricing_value. rewrite Hcur. split; clean_fields; exact Hsec. }
  split.
  - reflexivity.
  - unfold fs. clean_fields;
      lazymatch goal with
      | |- secret _ = false => eapply Htext; [in_fields|vm_compute; reflexivity]
      | |- clean (VObj (usage_of _)) = true => apply clean_usage
      | |- clean (VObj EVENT_BOUNDARY) = true => apply clean_boundary
      | |- _ => assumption
      end.
  - exists (usage_of c). split; [reflexivity|]. by apply (usage_reads c o).
  - exists (cost_of c p). split_and!; [reflexivity|exact Hcur|]. by apply (cost_reads c p).
  - by apply (usage_savings c o).
  - exists provider, model. split_and!; [reflexivity|reflexivity| |]; (eapply Htext; [in_fields|vm_compute; reflexivity]).
  - exists tenant. split_and!; [reflexivity|exact Ht|exact Hne|]. eapply Htext; [in_fields|vm_compute; reflexivity].
  - exists hash. split; [reflexivity|]. eapply Htext; [in_fields|vm_compute; reflexivity].
  - exact Hsec.
Qed.

(** ** Totals of created events *)

(** The totals object with the numbers [f]. *)
Definition tot (currency : jstr) (f : jstr -> jsnum) : obj :=
  ("currency" : jstr, VStr currency) :: map (λ key : jstr, (key, VNum (f key))) (USAGE_TOTALS ++ COST_TOTALS).

Lemma empty_tot currency : emptyTotals (VStr currency) = tot currency (λ _, NInt 0).
Proof. reflexivity. Qed.

Lemma add_field_num source target key a n :
  fget target key = VNum a -> fget source key = VNum n ->
  add_field (VObj source) target key = Ok (fset target key (VNum (num_plus a n))).
Proof. intros Ha Hn. unfold add_field.
  change (getx (VObj source) key) with (Ok (fget source key)). cbn [res_bind]. by rewrite Hn, Ha. Qed.

Lemma addTotals_tot currency f u c n :
  (forall k, k ∈ USAGE_TOTALS -> fget u k = VNum (n k)) -> (forall k, k ∈ COST_TOTALS -> fget c k = VNum (n k)) ->
  addTotals (tot currency f) (VObj u) (VObj c) = Ok (tot currency (λ k, num_plus (f k) (n k))).
Proof.
  intros Hu Hc. unfold addTotals. unfold USAGE_TOTALS, COST_TOTALS in Hu, Hc |- *. cbn [foldl_res].
  repeat (erewrite add_field_num; [cbn [res_bind]|reflexivity|first [apply Hu|apply Hc]; in_fields]).
  reflexivity.
Qed.

Lemma totals_step_tot currency f e :
  metered currency e -> totals_step (tot currency f) e = Ok (tot currency (λ k, num_plus (f k) (amount e k))).
Proof.
  intros H. destruct (mt_usage _ _ H) as (u & Eu & Hu). destruct (mt_cost _ _ H) as (c & Ec & _ & Hc).
  unfold totals_step. assert (getx e "estimated_cost" = Ok (VObj c)) as ->.
  { destruct e; try discriminate Ec; by apply (f_equal Ok) in Ec. }
  cbn [res_bind]. rewrite Eu. apply addTotals_tot; [intros k Hk; by apply Hu|exact Hc].
Qed.

(** The number of a total. *)
Definition total (events : list jsval) (key : jstr) : jsnum :=
  foldl (λ a e, num_plus a (amount e key)) (NInt 0) events.

Lemma totals_metered currency events :
  Forall (metered currency) events -> totals_of (VStr currency) events = Ok (tot currency (total events)).
Proof.
  intros H. unfold totals_of. rewrite empty_tot.
  enough (forall f, foldl_res totals_step (tot currency f) events
            = Ok (tot currency (λ k, foldl (λ a e, num_plus a (amount e k)) (f k) events))) as E by apply E.
  induction H as [|e events He _ IH]; intros f; [done|]. cbn [foldl_res].
  rewrite (totals_step_tot _ _ _ He). cbn [res_bind]. by rewrite IH.
Qed.

(** Sums below 2^53 are exact. *)
Lemma total_exact currency events key :
  Forall (metered currency) events -> key ∈ USAGE_TOTALS -> (sum_of (tokens key) events < 2 ^ 53)%Z ->
  total events key = NInt (sum_of (tokens key) events).
Proof.
  intros H Hk. unfold total.
  enough (forall x, (0 <= x)%Z -> (x + sum_of (tokens key) events < 2 ^ 53)%Z ->
    foldl (λ a e, num_plus a (amount e key)) (NInt x) events = NInt (x + sum_of (tokens key) events)) as E
    by (intros Hs; by rewrite E).
  induction H as [|e events He H IH]; intros x Hx; cbn [sum_of foldr foldl]; intros Hs; [by rewrite Z.add_0_r|].
  destruct (mt_usage _ _ He) as (u & _ & Hu). destruct (Hu key Hk) as [_ Hw]. pose proof Hw as [_ Hz].
  fold (sum_of (tokens key) events) in *.
  assert (0 <= sum_of (tokens key) events)%Z as Hn.
  { clear -H Hk. induction H as [|e events He _ IH]; [done|]. cbn [sum_of foldr]. fold (sum_of (tokens key) events).
    destruct (mt_usage _ _ He) as (u & _ & Hu). destruct (Hu key Hk) as [_ [_ Hz]]. lia. }
  rewrite (plus_whole _ _ _ Hw) by lia. rewrite IH by lia. f_equal; lia.
Qed.

(** ** The loop on created events *)
Lemma with_key_metered currency k events : Forall (metered currency) events -> Forall (metered currency) (with_key key_of k events).
Proof.
  rewrite !Forall_forall. intros H e [_ He]%list_elem_of_filter. by apply H.
Qed.

(** The totals of a group of created events. *)
Lemma group_totals currency seen k g :
  Forall (metered currency) seen -> group_of (VStr currency) (with_key key_of k seen) g ->
  g_totals g = tot currency (total (with_key key_of k seen)).
Proof.
  intros H (first & rest & _ & _ & _ & _ & Ht). rewrite totals_metered in Ht by by apply with_key_metered.
  by apply Ok_inj in Ht.
Qed.

Lemma add_event_ok currency seen state e :
  aggregated (VStr currency) seen state -> Forall (metered currency) seen -> metered currency e ->
  is_ok (add_event (VStr currency) state e) = true.
Proof.
  intros [Ht _ _ Hg] Hs He. rewrite totals_metered in Ht by done. apply Ok_inj in Ht.
  destruct (mt_cost _ _ He) as (c & Ec & Hcur & _). destruct (mt_names _ _ He) as (p & m & Ep & Em & _).
  pose proof (fun f => totals_step_tot currency f e He) as Hstep. unfold totals_step in Hstep.
  unfold add_event. assert (getx e "estimated_cost" = Ok (VObj c)) as E.
  { destruct e; try discriminate Ec; by apply (f_equal Ok) in Ec. }
  rewrite E in *. cbn [res_bind] in *. change (getx (VObj c) "currency") with (Ok (fget c "currency")).
  cbn [res_bind]. rewrite Hcur. cbn [seq]. rewrite str_eqb_refl. cbn [negb]. rewrite <- Ht, Hstep. cbn [res_bind].
  unfold group_key. rewrite Ep, Em. cbn [template res_bind to_str]. set (k := _ +s+ _).
  destruct (map_get state.2 k) as [g|] eqn:Eg; cbn [from_option id].
  - rewrite (group_totals _ _ _ _ Hs (Hg _ _ Eg)), Hstep. done.
  - cbn [g_totals new_group]. rewrite empty_tot, Hstep. done.
Qed.

Lemma add_events_ok currency events : forall seen state,
  aggregated (VStr currency) seen state -> Forall (metered currency) seen -> Forall (metered currency) events ->
  exists state', foldl_res (add_event (VStr currency)) state events = Ok state'.
Proof.
  induction events as [|e events IH]; intros seen state Ha Hs H; [by eexists|]. apply Forall_cons in H as [He H].
  pose proof (add_event_ok _ _ _ _ Ha Hs He) as Hok. cbn [foldl_res].
  destruct (add_event (VStr currency) state e) as [s1|] eqn:E; [|done]. cbn [res_bind].
  apply (IH (seen ++ [e])); [by eapply add_event_aggregated| |done]. apply Forall_app. by split; [|apply Forall_cons].
Qed.

(** Groups with texts for provider and model are sorted without an error. *)
Lemma sorted_groups_ok groups :
  Forall (λ g, exists p m, g_provider g = VStr p /\ g_model g = VStr m) groups ->
  exists sorted, sorted_groups groups = Ok sorted.
Proof.
  intros H. unfold sorted_groups. destruct (length groups <=? 1)%nat; [by eexists|].
  assert (exists keyed, map_res (λ g, let! k := plus (g_provider g) (g_model g) in Ok (k, g)) groups = Ok keyed /\
            forallb (λ g : jsval * group, is_string g.1) keyed = true) as (keyed & -> & Hk).
  { induction H as [|g groups (p & m & Ep & Em) _ (keyed & Hk & Hs)]; [by exists []|]. cbn [map_res].
    rewrite Ep, Em, Hk. cbn. by eexists. }
  cbn [res_bind]. rewrite Hk. by eexists.
Qed.

Lemma groups_named currency seen state :
  aggregated (VStr currency) seen state -> Forall (metered currency) seen ->
  Forall (λ g, exists p m, g_provider g = VStr p /\ g_model g = VStr m /\ secret p = false /\ secret m = false /\
              g_totals g = tot currency (total (with_key key_of (p +s+ [0%N] +s+ m) seen))) state.2.*2.
Proof.
  intros [_ _ Hn Hg] Hs. apply Forall_forall. intros g ([k g'] & -> & Hin)%list_elem_of_fmap. cbn [snd].
  apply map_get_elem in Hin; [|done]. pose proof (Hg _ _ Hin) as Hgo. pose proof (group_totals _ _ _ _ Hs Hgo) as Ht.
  destruct Hgo as (first & rest & E & Ep & Em & _).
  assert (first ∈ with_key key_of k seen) as Hin' by (rewrite E; apply list_elem_of_here).
  apply list_elem_of_filter in Hin' as [Hk Hf]. rewrite Forall_forall in Hs.
  destruct (mt_names _ _ (Hs _ Hf)) as (p & m & Ep' & Em' & Hp & Hm). exists p, m.
  rewrite Ep, Em. split_and!; [done|done|done|done|]. rewrite Ht. do 3 f_equal. rewrite <- Hk.
  unfold key_of, group_key. by rewrite Ep', Em'.
Qed.

(** ** The aggregate of created events *)
Lemma metered_record currency e : metered currency e -> is_record e = true.
Proof. intros H. pose proof (mt_schema _ _ H) as Hs. unfold has_schema in Hs. by apply andb_true_iff in Hs as [? _]. Qed.

Lemma metered_required currency events :
  Forall (metered currency) events -> map_items requireUsageEvent events = Ok events.
Proof.
  unfold map_items, imap_res. generalize 0%nat. intros i H. revert i.
  induction H as [|e events He _ IH]; intros i; [done|]. cbn [imap_res_from].
  assert ((match e with VHole => Ok VHole | _ => requireUsageEvent i e end) = Ok e) as ->.
  { assert (requireUsageEvent i e = Ok e) as E.
    { unfold requireUsageEvent. cbn zeta. rewrite (mt_schema _ _ He). cbn [negb].
      by rewrite (clean_scan e (mt_clean _ _ He)). }
    pose proof (metered_record _ _ He). by destruct e. }
  cbn [res_bind]. by rewrite IH.
Qed.

Lemma metered_elem currency events : Forall (metered currency) events -> map elem events = events.
Proof.
  induction 1 as [|e events He _ IH]; [done|]. cbn [map]. rewrite IH. pose proof (metered_record _ _ He). by destruct e.
Qed.

Lemma clean_tot currency f : secret currency = false -> clean (VObj (tot currency f)) = true.
Proof. intros H. unfold tot, USAGE_TOTALS, COST_TOTALS. cbn [map app]. clean_fields. exact H. Qed.

Lemma clean_group currency g p m f :
  secret currency = false -> g_provider g = VStr p -> g_model g = VStr m -> secret p = false -> secret m = false ->
  g_totals g = tot currency f -> clean (group_value g) = true /\ printable (group_value g) = true.
Proof.
  intros Hc Ep Em Hp Hm Et. unfold group_value. rewrite Ep, Em, Et. split; [|reflexivity].
  clean_fields; [exact Hp|exact Hm|reflexivity|by apply clean_tot].
Qed.
End created.

(** Identifiers and digests are not secret. *)
Section sealing.
Context {C : Crypto} {L : CryptoLaws C} {Hst : Host} {Loc : Locale} {P : Platform}.

Lemma digest_text body :
  printable (VObj body) = true -> exists h, digest (VObj body) = Ok (SHA256_PREFIX +s+ h) /\ Forall (λ c, c ∈ ID_ALPHABET) h.
Proof.
  intros H. apply printable_copy, printable_text in H. unfold digest.
  destruct (json_stringify (canonical_copy (VObj body))) as [[t|]|] eqn:E; [|exfalso|done].
  - cbn [res_bind]. eexists. split; [reflexivity|]. destruct (sha256_hex (HText t)) as [_ Hh].
    eapply Forall_impl; [exact Hh|]. intros c. apply hex_alphabet. vm_compute. reflexivity.
  - cbn [canonical_copy json_stringify] in E. by apply res_bind_ok in E as (x & _ & [=]).
Qed.

Lemma sealed_clean body id_field hash_field prefix path :
  appended_keys (keys body) [id_field; hash_field] = true ->
  key_refused id_field = false -> key_refused hash_field = false -> Forall (λ c, c ∈ ID_ALPHABET) prefix ->
  printable (VObj body) = true -> clean (VObj body) = true ->
  exists value, sealed body id_field hash_field (id_from prefix) path = Ok value.
Proof.
  intros Hk Hi Hh Hp Hpr Hc. destruct (digest_text body Hpr) as (h & E & Hhex).
  unfold sealed, id_from, hashValue. rewrite E. cbn [res_bind]. cbn zeta. rewrite spread_append by exact Hk.
  assert (clean (VObj (body ++ [(id_field, VStr (prefix +s+ slice_to 32 (slice_from 7 (SHA256_PREFIX +s+ h))));
            (hash_field, VStr (SHA256_PREFIX +s+ h))])) = true) as Hclean.
  { cbn [clean] in *. rewrite forallb_app, Hc. cbn [forallb fst snd andb clean]. rewrite Hi, Hh.
    assert (forall s, Forall (λ c, c ∈ ID_ALPHABET) s -> secret s = false) as Hid by (intros s; apply id_not_secret).
    rewrite !Hid; [done| |].
    - apply Forall_app. split; [|exact Hhex]. apply in_alphabet. vm_compute. reflexivity.
    - apply Forall_app. split; [exact Hp|]. by apply Forall_take. }
  rewrite (clean_scan _ Hclean). cbn [res_bind]. by eexists.
Qed.

(** ** Created events aggregate *)
Lemma aggregate_exists currency events :
  events <> [] -> Forall (metered currency) events -> exists aggregate, aggregateUsageEvents (VArr events) = Ok aggregate.
Proof.
  intros Hne H. unfold aggregateUsageEvents. cbn [is_record negb own_fields]. cbn zeta.
  change (fget [("events" : jstr, VArr events)] "events") with (VArr events). cbn [items_of].
  rewrite (metered_required _ _ H). cbn [res_bind]. destruct (length events =? 0)%nat eqn:El.
  { apply Nat.eqb_eq in El. by destruct events. }
  rewrite (metered_elem _ _ H). assert (exists first, elem (hd VUndef events) = first /\ metered currency first) as (first & -> & Hf).
  { destruct events as [|e events]; [done|]. apply Forall_cons in H as [He _]. exists e. split; [|done].
    pose proof (metered_record _ _ He). by destruct e. }
  destruct (mt_cost _ _ Hf) as (c & Ec & Hcur & _). assert (getx first "estimated_cost" = Ok (VObj c)) as ->.
  { destruct first; try discriminate Ec; by apply (f_equal Ok) in Ec. }
  cbn [res_bind]. change (getx (VObj c) "currency") with (Ok (fget c "currency")). cbn [res_bind]. rewrite Hcur.
  destruct (add_events_ok currency events [] _ (none_aggregated _) (Forall_nil_2 _) H) as (state & Hs). rewrite Hs.
  cbn [res_bind]. pose proof (add_events_aggregated _ _ _ _ _ (none_aggregated _) Hs) as Ha. cbn [app] in Ha.
  destruct (mt_tenant _ _ Hf) as (t & Et & Htrim & Htne & Htsec).
  assert (exists w, Settlement.requiredString (fget [("events" : jstr, VArr events)] "tenant_id"
      ?? fget [("events" : jstr, VArr events)] "tenantId"
      ?? (if same_tenant events then vget first "tenant_id" else vstr "mixed")) "tenant_id" = Ok w /\ secret w = false)
    as (tenant & -> & Htenant).
  { change (fget [("events" : jstr, VArr events)] "tenant_id") with VUndef.
    change (fget [("events" : jstr, VArr events)] "tenantId") with VUndef. cbn [coalesce is_nullish].
    destruct (same_tenant events); [rewrite Et|].
    - exists t. split; [|exact Htsec]. apply required_text; [exact Htrim|exact Htne].
    - exists ("mixed" : jstr). split; vm_compute; reflexivity. }
  cbn [res_bind]. change (stringOrDefault (field2 [("events" : jstr, VArr events)] "meter_id" "meterId") (vstr "aggregate"))
    with (Ok (vstr "aggregate") : res jsval). cbn [res_bind].
  change (field2 [("events" : jstr, VArr events)] "generated_at" "generatedAt") with VUndef.
  assert (isoTimestamp VUndef = Ok (VStr EPOCH)) as -> by (vm_compute; reflexivity). cbn [res_bind].
  pose proof (groups_named _ _ _ Ha H) as Hg. destruct (sorted_groups_ok state.2.*2) as (groups & Hsg).
  { eapply Forall_impl; [exact Hg|]. intros g (p & m & Ep & Em & _). eauto. }
  rewrite Hsg. cbn [res_bind]. apply sorted_groups_perm in Hsg. pose proof (mt_currency _ _ Hf) as Hcs.
  assert (Forall (λ g, clean (group_value g) = true /\ printable (group_value g) = true) groups) as Hgc.
  { rewrite Hsg. eapply Forall_impl; [exact Hg|]. intros g (p & m & Ep & Em & Hp & Hm & Ht).
    exact (clean_group currency g p m _ Hcs Ep Em Hp Hm Ht). }
  apply ag_totals in Ha. rewrite totals_metered in Ha by exact H. apply Ok_inj in Ha. rewrite <- Ha.
  apply sealed_clean; [vm_compute; reflexivity|vm_compute; reflexivity|vm_compute; reflexivity| | |].
  - apply in_alphabet. vm_compute. reflexivity.
  - cbn [printable forallb snd]. rewrite !andb_true_iff. split_and!; try reflexivity.
    + apply forallb_forall. intros v (e & <- & He%list_elem_of_In)%in_map_iff. rewrite Forall_forall in H.
      destruct (mt_hash _ _ (H e He)) as (h & -> & _). reflexivity.
    + apply forallb_forall. intros v (g & <- & Hin%list_elem_of_In)%in_map_iff. rewrite Forall_forall in Hgc.
      by apply Hgc.
  - clean_fields;
      lazymatch goal with
      | |- secret tenant = false => exact Htenant
      | |- clean (VObj (tot _ _)) = true => apply clean_tot; exact Hcs
      | |- clean (VArr (map _ _)) = true => idtac
      | |- clean (vnat _) = true => reflexivity
      | |- _ => vm_compute; reflexivity
      end.
    + cbn [clean]. apply forallb_forall. intros v (e & <- & He%list_elem_of_In)%in_map_iff. rewrite Forall_forall in H.
      destruct (mt_hash _ _ (H e He)) as (h & -> & Hh). exact (clean_text h Hh).
    + cbn [clean]. apply forallb_forall. intros v (g & <- & Hin%list_elem_of_In)%in_map_iff.
      rewrite Forall_forall in Hgc. exact (proj1 (Hgc g Hin)).
Qed.

(** ** Exact totals *)
Lemma tokens_nonneg currency events key :
  Forall (metered currency) events -> key ∈ USAGE_TOTALS -> (0 <= sum_of (tokens key) events)%Z.
Proof.
  intros H Hk. induction H as [|e events He _ IH]; [done|]. cbn [sum_of foldr]. fold (sum_of (tokens key) events).
  destruct (mt_usage _ _ He) as (u & _ & Hu). destruct (Hu key Hk) as [_ [_ Hz]]. lia.
Qed.

Lemma group_tokens_le currency events key k :
  Forall (metered currency) events -> key ∈ USAGE_TOTALS ->
  (sum_of (tokens key) (with_key key_of k events) <= sum_of (tokens key) events)%Z.
Proof.
  intros H Hk. induction H as [|e events He H IH]; [done|]. rewrite with_key_cons.
  destruct (mt_usage _ _ He) as (u & _ & Hu). destruct (Hu key Hk) as [_ [_ Hz]].
  destruct (decide _); cbn [sum_of foldr]; fold (sum_of (tokens key) events);
    fold (sum_of (tokens key) (with_key key_of k events)); lia.
Qed.

Lemma savings_sum currency events :
  Forall (metered currency) events ->
  (sum_of (tokens "memory_savings_tokens") events
   = sum_of (tokens "memory_baseline_tokens") events - sum_of (tokens "memory_optimized_tokens") events)%Z.
Proof.
  induction 1 as [|e events He _ IH]; [done|]. pose proof (mt_savings _ _ He). unfold sum_of in *. cbn [foldr]. lia.
Qed.

Lemma fget_tot currency f key : key ∈ USAGE_TOTALS -> fget (tot currency f) key = VNum (f key).
Proof.
  intros Hk. repeat (apply elem_of_cons in Hk as [->|Hk]; [reflexivity|]). by apply elem_of_nil in Hk.
Qed.

(** Made by [createUsageEvent], in the given currency. *)
Definition created_in (currency : jstr) (e : jsval) : Prop :=
  (exists input, createUsageEvent input = Ok e) /\ vget (vget e "estimated_cost") "currency" = VStr currency.

Lemma created_in_metered currency e : created_in currency e -> metered currency e.
Proof.
  intros [[input H] Hc]. apply created_metered in H as [c Hm]. destruct (mt_cost _ _ Hm) as (co & E & Ec & _).
  rewrite E in Hc. unfold vget in Hc. cbn [own_fields] in Hc. rewrite Ec in Hc. injection Hc as ->. exact Hm.
Qed.

(** C14 Created events always aggregate: a non-empty list of events that
    [createUsageEvent] made in one currency is aggregated without an error, whatever their
    texts.  As long as no token count sums to 2^53 or more, every token total is the exact
    sum over the events, the total of every group is the exact sum over its events, the
    groups sum to the totals, and the saved tokens are the baseline tokens less the
    optimized ones, which is never negative. *)
Theorem created_events_aggregate currency events :
  events <> [] -> Forall (created_in currency) events ->
  exists aggregate, aggregateUsageEvents (VArr events) = Ok aggregate /\
    ((forall k, k ∈ USAGE_TOTALS -> (sum_of (tokens k) events < 2 ^ 53)%Z) ->
     exists groups,
       vget aggregate "by_provider_model" = VArr (map (λ kg : jstr * group, group_value kg.2) groups) /\
       (forall k, k ∈ USAGE_TOTALS ->
          vget (vget aggregate "totals") k = vint (sum_of (tokens k) events) /\
          Forall (λ kg : jstr * group, fget (g_totals kg.2) k = vint (sum_of (tokens k) (with_key key_of kg.1 events))) groups /\
          foldr (λ key s, sum_of (tokens k) (with_key key_of key events) + s)%Z 0%Z groups.*1 = sum_of (tokens k) events) /\
       (sum_of (tokens "memory_savings_tokens") events
        = sum_of (tokens "memory_baseline_tokens") events - sum_of (tokens "memory_optimized_tokens") events)%Z /\
       (0 <= sum_of (tokens "memory_savings_tokens") events)%Z).
Proof.
  intros Hne H. assert (Forall (metered currency) events) as Hm
    by (eapply Forall_impl; [exact H|]; intros e; apply created_in_metered). clear H.
  destruct (aggregate_exists _ _ Hne Hm) as (aggregate & Ha). exists aggregate. split; [exact Ha|]. intros Hs.
  apply aggregate_state in Ha as (state & groups & Hag & Hp & Ht & _ & Hb). cbn [events_of] in *.
  rewrite (metered_elem _ _ Hm) in *. assert (currency_of events = VStr currency) as Ec.
  { destruct events as [|e events]; [done|]. apply Forall_cons in Hm as [He _].
    destruct (mt_cost _ _ He) as (co & E & Ec & _). unfold currency_of. cbn [hd]. by rewrite E. }
  rewrite Ec in Hag. exists groups. split; [exact Hb|].
  assert (groups.*1 ≡ₚ state.2.*1) as Hp1 by (by apply fmap_Permutation). split_and!.
  - intros k Hk. split_and!.
    + apply ag_totals in Hag. rewrite totals_metered in Hag by exact Hm. apply Ok_inj in Hag. rewrite Ht, <- Hag.
      unfold vget. cbn [own_fields]. rewrite fget_tot, (total_exact currency) by auto. reflexivity.
    + apply Forall_forall. intros [key g] Hin. rewrite Hp in Hin. cbn [fst snd].
      apply map_get_elem in Hin; [|by apply (ag_nodup _ _ _ Hag)].
      rewrite (group_totals _ _ _ _ Hm (ag_group _ _ _ Hag _ _ Hin)), fget_tot by done.
      rewrite (total_exact currency); [reflexivity|by apply with_key_metered|done|].
      pose proof (group_tokens_le currency events k key Hm Hk). specialize (Hs k Hk). lia.
    + apply sum_groups; [rewrite Hp1; by apply (ag_nodup _ _ _ Hag)|]. intros a Hin.
      rewrite Hp1, (ag_keys _ _ _ Hag). apply list_elem_of_fmap. by exists a.
  - by eapply savings_sum.
  - eapply tokens_nonneg; [exact Hm|]. apply mem_str_true. vm_compute. reflexivity.
Qed.
End sealing.

(** ** Samples *)
Definition sample_usage (model : jstr) (prompt optimized : Z) : obj :=
  [("tenant_id" : jstr, vstr "tenant"); ("provider" : jstr, vstr "openai"); ("model" : jstr, VStr model);
   ("prompt_tokens" : jstr, vint prompt); ("completion_tokens" : jstr, vint 10);
   ("memory_optimized_tokens" : jstr, vint optimized); ("price_per_million_tokens" : jstr, vint 2)].

Definition sample_event (model : jstr) (prompt optimized : Z) : jsval :=
  match createUsageEvent (VObj (sample_usage model prompt optimized)) with Ok e => e | Throw _ => VNull end.

Definition sample_events : list jsval :=
  [sample_event "m1" 100 40; sample_event "m2" 50 50; sample_event "m1" 30 0].

Lemma ok_value {A} (m : res A) d : is_ok m = true -> m = Ok match m with Ok a => a | Throw _ => d end.
Proof. by destruct m. Qed.

Lemma sample_events_created : Forall (created_in "USD") sample_events.
Proof.
  assert (forall model prompt optimized, is_ok (createUsageEvent (VObj (sample_usage model prompt optimized))) = true ->
    vget (vget (sample_event model prompt optimized) "estimated_cost") "currency" = vstr "USD" ->
    created_in "USD" (sample_event model prompt optimized)) as H.
  { intros model prompt optimized Hok Hc. split; [|exact Hc]. eexists. exact (ok_value _ VNull Hok). }
  repeat (apply Forall_cons; split; [apply H; vm_compute; reflexivity|]). apply Forall_nil_2.
Qed.

Lemma created_events_aggregate_witness :
  exists aggregate, aggregateUsageEvents (VArr sample_events) = Ok aggregate /\
    vget (vget aggregate "totals") "memory_savings_tokens" = vint 90.
Proof.
  destruct (created_events_aggregate (L := SampleLaws) "USD" sample_events ltac:(discriminate) sample_events_created)
    as (aggregate & Ha & Hs). exists aggregate. split; [exact Ha|]. destruct Hs as (groups & _ & Ht & _).
  - intros k Hk. repeat (apply elem_of_cons in Hk as [->|Hk]; [vm_compute; reflexivity|]). destruct (proj1 (elem_of_nil _) Hk).
  - destruct (Ht "memory_savings_tokens") as [E _]; [apply mem_str_true; vm_compute; reflexivity|].
    rewrite E. vm_compute. reflexivity.
Defined.

Lemma sample_events_named : Forall named (map elem (events_of (VArr sample_events))).
Proof.
  assert (forall e p m, vget e "provider" = VStr p -> vget e "model" = VStr m -> forallb (λ c, negb (c =? 0)%N) p = true -> named e) as H.
  { intros e p m Hp Hm Hf. exists p, m. split_and!; [done..|]. intros Hin%list_elem_of_In. rewrite forallb_forall in Hf.
    by specialize (Hf _ Hin). }
  repeat (apply Forall_cons; split); [eapply H; vm_compute; reflexivity..|apply Forall_nil; exact I].
Qed.

Lemma aggregate_partitions_witness :
  exists aggregate totals groups, aggregateUsageEvents (VArr sample_events) = Ok aggregate /\
    vget aggregate "totals" = VObj totals /\ vget aggregate "event_count" = vint 3 /\
    fget totals "prompt_tokens" = vint 180 /\
    vget aggregate "by_provider_model" = VArr (map (λ kg : jstr * group, group_value kg.2) groups) /\
    NoDup (map pair_of groups) /\ (vstr "openai", vstr "m1") ∈ map pair_of groups.
Proof.
  assert (is_ok (aggregateUsageEvents (VArr sample_events)) = true) as Hok by (vm_compute; reflexivity).
  destruct (aggregateUsageEvents (VArr sample_events)) as [aggregate|] eqn:E; [|discriminate Hok].
  destruct (aggregate_partitions _ _ E) as (totals & groups & Ht & H1 & H2 & H3 & _ & _ & _ & _ & Hpairs).
  destruct (Hpairs sample_events_named) as (Hd & Hin & _).
  exists aggregate, totals, groups. split; [reflexivity|]. split; [exact H1|]. split; [exact H2|]. split; [|split; [exact H3|split; [exact Hd|]]].
  - vm_compute in Ht. injection Ht as <-. reflexivity.
  - apply Hin. exists (sample_event "m1" 100 40). split; [apply list_elem_of_here|]. split; vm_compute; reflexivity.
Defined.
