(* ===== verification/Connectors.v ===== *)
(** * Connectors

    [src/packages/connectors/src/index.js] as far as it edits the configuration of a
    client: the profile of a client, the entry of the memory server, the plans that add
    and remove it, how a plan is written to disk, and what a configuration says of the
    installation.  The file system is a map from paths to texts; a call on it may fail,
    and a text may be half written when the process stops. *)

From S2P Require Import Prelude JsValue Regex Canonical Hashing Dates VaultPublic Vault Settlement.

Definition PROFILE_SCHEMA : jstr := "enigma.connector_profile.v1".
Definition DEFAULT_SERVER_NAME : jstr := "enigma".
Definition MCP_COMMAND : jstr := "enigma-mcp".
Definition MCP_CONTAINER_PATH : list jstr := ["mcpServers" : jstr].
Definition SUPPORTED_PLATFORMS : list jstr := ["win32" : jstr; "darwin" : jstr; "linux" : jstr].

(** What the package takes from Node: [process], [os.homedir] and [path]; [path_join] and
    [path_dirname] are those of [win32] or of [posix]. *)
Class Node := {
  process_platform : jstr;
  process_env : jsval;
  homedir : jstr;
  path_join : bool -> list jstr -> jstr;
  path_dirname : bool -> jstr -> jstr
}.

(** ** Clients *)
Record client := {
  cl_id : jstr;
  cl_display_name : jstr;
  cl_description : jstr;
  cl_win32 : jstr;
  cl_darwin : jstr;
  cl_linux : jstr
}.

Definition CLIENT_DEFINITIONS : list client :=
  [{| cl_id := "claude-desktop"; cl_display_name := "Claude Desktop";
      cl_description := "Anthropic Claude Desktop MCP server configuration.";
      cl_win32 := "%APPDATA%\Claude\claude_desktop_config.json";
      cl_darwin := "$HOME/Library/Application Support/Claude/claude_desktop_config.json";
      cl_linux := "$HOME/.config/Claude/claude_desktop_config.json" |};
   {| cl_id := "cursor"; cl_display_name := "Cursor"; cl_description := "Cursor global MCP configuration.";
      cl_win32 := "%USERPROFILE%\.cursor\mcp.json"; cl_darwin := "$HOME/.cursor/mcp.json";
      cl_linux := "$HOME/.cursor/mcp.json" |};
   {| cl_id := "kimi-code"; cl_display_name := "Kimi Code"; cl_description := "Kimi Code MCP configuration.";
      cl_win32 := "%APPDATA%\Kimi Code\mcp.json";
      cl_darwin := "$HOME/Library/Application Support/Kimi Code/mcp.json";
      cl_linux := "$HOME/.config/kimi-code/mcp.json" |};
   {| cl_id := "vscode-cline"; cl_display_name := "VS Code Cline";
      cl_description := "Cline extension MCP settings for VS Code.";
      cl_win32 := "%APPDATA%\Code\User\globalStorage\saoudrizwan.claude-dev\settings\cline_mcp_settings.json";
      cl_darwin := "$HOME/Library/Application Support/Code/User/globalStorage/saoudrizwan.claude-dev/settings/cline_mcp_settings.json";
      cl_linux := "$HOME/.config/Code/User/globalStorage/saoudrizwan.claude-dev/settings/cline_mcp_settings.json" |};
   {| cl_id := "roo"; cl_display_name := "Roo Code"; cl_description := "Roo Code extension MCP settings for VS Code.";
      cl_win32 := "%APPDATA%\Code\User\globalStorage\rooveterinaryinc.roo-cline\settings\mcp_settings.json";
      cl_darwin := "$HOME/Library/Application Support/Code/User/globalStorage/rooveterinaryinc.roo-cline/settings/mcp_settings.json";
      cl_linux := "$HOME/.config/Code/User/globalStorage/rooveterinaryinc.roo-cline/settings/mcp_settings.json" |};
   {| cl_id := "opencode"; cl_display_name := "OpenCode"; cl_description := "OpenCode local MCP configuration.";
      cl_win32 := "%APPDATA%\opencode\opencode.json";
      cl_darwin := "$HOME/Library/Application Support/opencode/opencode.json";
      cl_linux := "$HOME/.config/opencode/opencode.json" |};
   {| cl_id := "generic-mcp"; cl_display_name := "Generic MCP Client";
      cl_description := "Portable MCP config using the standard mcpServers object.";
      cl_win32 := "%APPDATA%\Enigma\mcp.json";
      cl_darwin := "$HOME/Library/Application Support/Enigma/mcp.json";
      cl_linux := "$HOME/.config/enigma/mcp.json" |}].

Definition supportedClients : list jstr := map cl_id CLIENT_DEFINITIONS.

Definition find_client (clientId : jstr) : option client :=
  List.find (λ c, cl_id c =s= clientId) CLIENT_DEFINITIONS.

(** ** Values *)

(** [out[key] = value]: with the name [__proto__] a text is ignored and an object becomes
    the prototype, so there is no property either way. *)
Definition assign (out : obj) (key : jstr) (value : jsval) : obj :=
  if key =s= PROTO then out else fset out key value.

(** [JSON.parse(JSON.stringify(value))]: [None] where there is no text.  Properties
    without a text are dropped, items without one are [null], and so are numbers that are
    not finite; [-0] is written [0]. *)
Fixpoint cloneJson (value : jsval) : res (option jsval) :=
  match value with
  | VUndef | VHole => Ok None
  | VOpaque OBigint _ => Throw (TypeError "Do not know how to serialize a BigInt")
  | VOpaque _ _ => Ok None
  | VNum n => Ok (Some (if num_is_finite n then VNum (match n with NNegZero => NInt 0 | _ => n end) else VNull))
  | VNull | VBool _ | VStr _ => Ok (Some value)
  | VArr items =>
      let! items' := (fix go (items : list jsval) : res (list jsval) :=
         match items with
         | [] => Ok []
         | x :: l =>
             let! y := cloneJson x in
             let! ys := go l in
             Ok (default VNull y :: ys)
         end) items in
      Ok (Some (VArr items'))
  | VObj fields | VInst _ fields =>
      let! fields' := (fix go (fields : list (jstr * jsval)) : res obj :=
         match fields with
         | [] => Ok []
         | kv :: l =>
             let! y := cloneJson kv.2 in
             let! ys := go l in
             Ok (match y with Some v => (kv.1, v) :: ys | None => ys end)
         end) fields in
      Ok (Some (VObj fields'))
  | VMap _ | VSet _ => Ok (Some (VObj []))
  | VBytes _ b =>
      Ok (Some (VObj [("type" : jstr, vstr "Buffer");
                      ("data" : jstr, VArr (map (λ n, VNum (NInt (Z.of_N n))) b))]))
  end.

(** [Object.is(left, right)] on values that are not objects; two objects are taken for
    different, which the comparison that follows decides. *)
Definition object_is (left right : jsval) : bool :=
  match left, right with
  | VUndef, VUndef | VNull, VNull => true
  | VBool a, VBool b => Bool.eqb a b
  | VNum a, VNum b => bool_decide (a = b)
  | VStr a, VStr b => a =s= b
  | _, _ => false
  end.

(** Two values of JSON; the keys of a [Map], [Set] or [Buffer] are not looked at. *)
Fixpoint jsonEqual (left right : jsval) : bool :=
  object_is left right ||
  match left, right with
  | VArr l, VArr r =>
      (fix go (l r : list jsval) : bool :=
         match l, r with
         | [], [] => true
         | x :: l', y :: r' => jsonEqual x y && go l' r'
         | _, _ => false
         end) l r
  | VArr _, _ | _, VArr _ => false
  | (VObj l | VInst _ l), _ =>
      is_record right && (length l =? length (own_fields right))%nat &&
      (fix go (l : list (jstr * jsval)) : bool :=
         match l with
         | [] => true
         | kv :: l' => fhas (own_fields right) kv.1 && jsonEqual kv.2 (vget right kv.1) && go l'
         end) l
  | _, _ => false
  end.

(** [JSON.stringify(value, null, 2)] on the value that a plan holds: a value without a
    text is dropped or [null], as in [json_stringify]. *)
Fixpoint pretty_json (indent : jstr) (value : jsval) : option jstr :=
  let deeper := indent +s+ "  " in
  let lines (opening closing : jstr) (parts : list jstr) : jstr :=
    match parts with
    | [] => opening +s+ closing
    | _ => opening +s+ [10%N] +s+ join ("," +s+ [10%N]) (map (λ p, deeper +s+ p) parts) +s+ [10%N] +s+ indent +s+ closing
    end in
  match value with
  | VUndef | VHole | VOpaque _ _ => None
  | VNull => Some ("null" : jstr)
  | VBool b => Some (if b then "true" : jstr else "false" : jstr)
  | VNum n => Some (if num_is_finite n then num_text n else "null")
  | VStr s => Some (json_quote s)
  | VArr items => Some (lines "[" "]" (map (λ x, default ("null" : jstr) (pretty_json deeper x)) items))
  | VObj fields | VInst _ fields =>
      Some (lines "{" "}" (flat_map (λ kv : jstr * jsval,
        match pretty_json deeper kv.2 with
        | Some t => [json_quote kv.1 +s+ ": " +s+ t]
        | None => []
        end) fields))
  | VMap _ | VSet _ => Some ("{}" : jstr)
  | VBytes _ b => Some (lines "{" "}" [json_quote "type" +s+ ": " +s+ json_quote "Buffer";
      json_quote "data" +s+ ": " +s+
        match b with
        | [] => "[]"
        | _ => "[" +s+ [10%N] +s+ join ("," +s+ [10%N]) (map (λ n, deeper +s+ "  " +s+ units_of_string (pretty n)) b)
               +s+ [10%N] +s+ deeper +s+ "]"
        end])
  end.

Definition stringifyConfig (config : jsval) : jstr := default ("undefined" : jstr) (pretty_json [] config) +s+ [10%N].

(** ** Options *)
Definition normalizeOptions (clientIdOrOptions maybeOptions : jsval) : obj :=
  match clientIdOrOptions with
  | VStr _ => fset (spread_of maybeOptions) "clientId" clientIdOrOptions
  | _ => spread_of clientIdOrOptions
  end.

(** The default of a first parameter. *)
Definition given_client (clientIdOrOptions : jsval) : jsval :=
  if is_undef clientIdOrOptions then vstr "generic-mcp" else clientIdOrOptions.

Definition normalizeClientId (value : jsval) : res jstr :=
  let clientId := to_str (value ?? vstr "generic-mcp") in
  throw_if negb (mem_str clientId supportedClients)
    with PlainError ("Unsupported Enigma connector client: " +s+ clientId);
  Ok clientId.

(** [env?.[name]] if it is a text that is not empty. *)
Definition envValue (env : jsval) (name : jstr) : option jstr :=
  match vget env name with VStr (c :: s) => Some (c :: s) | _ => None end.

Section connectors.
Context {Hst : Host} {N : Node}.

Definition normalizePlatform (value : jsval) : res jstr :=
  let platform := to_str (if is_undef value then VStr process_platform else value) in
  throw_if negb (mem_str platform SUPPORTED_PLATFORMS)
    with PlainError ("Unsupported connector platform: " +s+ platform);
  Ok platform.

Definition option_platform (options : obj) : res jstr :=
  normalizePlatform (fget options "platform" ?? VStr process_platform).

Definition mcpCommandFromOptions (options : obj) : jstr :=
  to_str (fget options "mcpCommand" ?? fget options "mcp_command" ?? fget options "command" ?? VStr MCP_COMMAND).

Definition is_win32 (platform : jstr) : bool := platform =s= "win32".

Definition homeForPlatform (platform : jstr) (options : obj) : res jstr :=
  match fget options "homeDir" with
  | VStr (c :: s) => Ok (c :: s)
  | _ =>
      let env := fget options "env" ?? process_env in
      let from_env :=
        if is_win32 platform then
          match envValue env "USERPROFILE" with
          | Some userProfile => Some userProfile
          | None =>
              match envValue env "HOMEDRIVE", envValue env "HOMEPATH" with
              | Some homeDrive, Some homePath => Some (homeDrive +s+ homePath)
              | _, _ => None
              end
          end
        else envValue env "HOME" in
      match from_env with
      | Some home => Ok home
      | None =>
          throw_if homedir =s= []
            with PlainError ("Cannot resolve home directory for " +s+ platform
                             +s+ ". Pass homeDir or configPath explicitly.");
          Ok homedir
      end
  end.

Definition appDataForPlatform (platform : jstr) (options : obj) : res jstr :=
  let env := fget options "env" ?? process_env in
  let! home := homeForPlatform platform options in
  Ok (if is_win32 platform then
        match envValue env "APPDATA" with
        | Some appData => appData
        | None => path_join true [home; "AppData" : jstr; "Roaming" : jstr]
        end
      else if platform =s= "darwin" then path_join false [home; "Library" : jstr; "Application Support" : jstr]
      else path_join false [home; ".config" : jstr]).

Definition joinForPlatform (platform : jstr) (segments : list jstr) : jstr :=
  path_join (is_win32 platform) segments.

Definition defaultBundlePath (options : obj) : res jstr :=
  let! platform := option_platform options in
  let! home := homeForPlatform platform options in
  Ok (joinForPlatform platform [home; ".enigma" : jstr; "bundle.json" : jstr]).

(** [/^[A-Za-z]:[\\/]/.test(path) || path.includes('\\')]; the directory is otherwise that
    of the running platform. *)
Definition DRIVE_RE : re := rseqs [cset "A-Za-z"; rlit ":"; RAlt (rlit "\") (rlit "/")].

Definition pathDirectory (path : jstr) : jstr :=
  path_dirname (re_prefix DRIVE_RE path || includes_str "\" path || is_win32 process_platform) path.

Definition defaultConfigPathFor (clientId platform : jstr) (options : obj) : res jstr :=
  let! home := homeForPlatform platform options in
  let! appData := appDataForPlatform platform options in
  let codeStorage := joinForPlatform platform [appData; "Code" : jstr; "User" : jstr; "globalStorage" : jstr] in
  let join := joinForPlatform platform in
  let linux := platform =s= "linux" in
  if clientId =s= "claude-desktop" then Ok (join [appData; "Claude" : jstr; "claude_desktop_config.json" : jstr])
  else if clientId =s= "cursor" then Ok (join [home; ".cursor" : jstr; "mcp.json" : jstr])
  else if clientId =s= "kimi-code" then
    Ok (join [appData; if linux then "kimi-code" : jstr else "Kimi Code" : jstr; "mcp.json" : jstr])
  else if clientId =s= "vscode-cline" then
    Ok (join [codeStorage; "saoudrizwan.claude-dev" : jstr; "settings" : jstr; "cline_mcp_settings.json" : jstr])
  else if clientId =s= "roo" then
    Ok (join [codeStorage; "rooveterinaryinc.roo-cline" : jstr; "settings" : jstr; "mcp_settings.json" : jstr])
  else if clientId =s= "opencode" then Ok (join [appData; "opencode" : jstr; "opencode.json" : jstr])
  else if clientId =s= "generic-mcp" then
    Ok (join [appData; if linux then "enigma" : jstr else "Enigma" : jstr; "mcp.json" : jstr])
  else Throw (PlainError ("Unsupported Enigma connector client: " +s+ clientId)).

Definition platformDefaultConfigPath (clientIdOrOptions maybeOptions : jsval) : res jstr :=
  let options := normalizeOptions (given_client clientIdOrOptions) maybeOptions in
  let! clientId := normalizeClientId (fget options "clientId" ?? fget options "client_id") in
  let! platform := option_platform options in
  defaultConfigPathFor clientId platform options.

(** ** Profiles *)
Record profile := {
  pr_client : client;
  pr_default_config_path : jstr;
  pr_server_container_path : list jstr;
  pr_server_name : jstr;
  pr_command : jstr;
  pr_platform : jstr
}.

Definition getClientProfile (clientIdOrOptions maybeOptions : jsval) : res profile :=
  let options := normalizeOptions (given_client clientIdOrOptions) maybeOptions in
  let! clientId := normalizeClientId (fget options "clientId" ?? fget options "client_id") in
  let! platform := option_platform options in
  match find_client clientId with
  | None => Throw (PlainError ("Unsupported Enigma connector client: " +s+ clientId))
  | Some definition =>
      let! path := platformDefaultConfigPath (VStr clientId) (VObj options) in
      Ok {| pr_client := definition; pr_default_config_path := path;
            pr_server_container_path := MCP_CONTAINER_PATH; pr_server_name := DEFAULT_SERVER_NAME;
            pr_command := MCP_COMMAND; pr_platform := platform |}
  end.

(** ** The entry of the server *)
Definition serverEnvFromOptions (options : obj) : jsval :=
  let or a b := if is_nullish a then b else a in
  or (fget options "serverEnv") (or (fget options "server_env") (or (fget options "mcpEnv") (fget options "mcp_env"))).

(** The texts of the entries that are given. *)
Definition env_texts (env : jsval) : obj :=
  if is_record env then
    foldl (λ out (kv : jstr * jsval), if is_nullish kv.2 then out else assign out kv.1 (VStr (to_str kv.2))) []
      (spread_of env)
  else [].

Definition array_texts (args : jsval) : jsval :=
  match args with VArr l => VArr (map (λ x, VStr (to_str (elem x))) l) | _ => VArr [] end.

Definition serverEntryFromOptions (options : obj) : res jsval :=
  let env := env_texts (serverEnvFromOptions options) in
  let! bundlePath := fget options "bundlePath" ??! (fget options "bundle_path" ??! (fget env "ENIGMA_BUNDLE" ??!
    (vget (fget options "env") "ENIGMA_BUNDLE" ??! (let! p := defaultBundlePath options in Ok (VStr p))))) in
  Ok (VObj [("command" : jstr, VStr (mcpCommandFromOptions options)); ("args" : jstr, array_texts (fget options "args"));
            ("env" : jstr, VObj (assign env "ENIGMA_BUNDLE" (VStr (to_str bundlePath))))]).

(** ** Edits of a configuration *)

(** [ensureContainer(config, path, create)]: the container with the function that puts
    another one in its place; [None] is [undefined]. *)
Fixpoint ensureContainer (cursor : jsval) (path : list jstr) (create : bool)
    : res (option (jsval * (jsval -> jsval))) :=
  match path with
  | [] => Ok (Some (cursor, λ c, c))
  | segment :: path' =>
      throw_if negb (is_record cursor)
        with PlainError ("Invalid connector config: " +s+ segment +s+ " parent is not an object.");
      let found := vget cursor segment in
      if is_undef found && negb create then Ok None
      else
        let child := if is_undef found then VObj [] else found in
        throw_if negb (is_record child)
          with PlainError ("Invalid connector config: " +s+ segment +s+ " is not an object.");
        let! inner := ensureContainer child path' create in
        Ok (match inner with
            | None => None
            | Some (container, put) => Some (container, λ c, VObj (assign (own_fields cursor) segment (put c)))
            end)
  end.

(** A clone of a value that has one. *)
Definition clone (value : jsval) : res jsval := let! c := cloneJson value in Ok (default VUndef c).

Definition applyServer (config : jsval) (path : list jstr) (serverName : jstr) (serverEntry : jsval) : res jsval :=
  let! next := clone config in
  let! found := ensureContainer next path true in
  let! entry := clone serverEntry in
  Ok (match found with
      | None => next
      | Some (container, put) => put (VObj (assign (own_fields container) serverName entry))
      end).

Definition removeServer (config : jsval) (path : list jstr) (serverName : jstr) : res jsval :=
  let! next := clone config in
  let! found := ensureContainer next path false in
  Ok (match found with
      | None => next
      | Some (container, put) =>
          if fhas (own_fields container) serverName then put (VObj (fdelete (own_fields container) serverName)) else next
      end).

(** ** Plans *)
Inductive plan_action := Connect | Disconnect.

(** An entry of [plannedWrites]. *)
Inductive planned_write :=
  | PlannedBackup (from path : jstr)
  | PlannedWrite (path content : jstr).

Record plan := {
  pl_action : plan_action;
  pl_client_id : jstr;
  pl_configPath : jstr;
  pl_serverName : jstr;
  pl_changed : bool;
  pl_dryRun : bool;
  pl_backupPath : option jstr;
  pl_plannedWrites : list planned_write;
  pl_config : jsval;
  pl_generatedJson : jstr
}.

Definition plannedWritesFor (dryRun exists_ changed : bool) (backupPath : option jstr) (configPath : jstr)
    (nextConfig : jsval) : list planned_write :=
  if negb dryRun || negb changed then []
  else (match backupPath with Some backup => if exists_ then [PlannedBackup configPath backup] else [] | None => [] end)
       ++ [PlannedWrite configPath (stringifyConfig nextConfig)].

Definition serverNameFor (options : obj) (profile : profile) : jstr :=
  to_str (fget options "serverName" ?? fget options "server_name" ?? VStr (pr_server_name profile)).

Definition configPathIn (options : obj) (profile : profile) : jstr :=
  to_str (fget options "configPath" ?? fget options "config_path" ?? VStr (pr_default_config_path profile)).

Definition is_dry_run (options : obj) : bool :=
  (fget options "dryRun" === VBool true) || (fget options "dry_run" === VBool true).

(** What [connectPlan] and [disconnectPlan] make of the next configuration. *)
Definition plan_for (action : plan_action) (profile : profile) (options : obj) (exists_ : bool)
    (existingConfig nextConfig : jsval) (backupPath : option jstr) : plan :=
  let changed := negb (jsonEqual existingConfig nextConfig) in
  let dryRun := is_dry_run options in
  let configPath := configPathIn options profile in
  let effectiveBackupPath := if exists_ && changed then backupPath else None in
  {| pl_action := action; pl_client_id := cl_id (pr_client profile); pl_configPath := configPath;
     pl_serverName := serverNameFor options profile; pl_changed := changed; pl_dryRun := dryRun;
     pl_backupPath := effectiveBackupPath;
     pl_plannedWrites := plannedWritesFor dryRun exists_ changed effectiveBackupPath configPath nextConfig;
     pl_config := nextConfig; pl_generatedJson := stringifyConfig nextConfig |}.

Definition connectPlan (clientId : jstr) (options : obj) (exists_ : bool) (existingConfig : jsval)
    (backupPath : option jstr) : res plan :=
  let! profile := getClientProfile (VStr clientId) (VObj options) in
  let! serverEntry := serverEntryFromOptions options in
  let! nextConfig :=
    applyServer existingConfig (pr_server_container_path profile) (serverNameFor options profile) serverEntry in
  Ok (plan_for Connect profile options exists_ existingConfig nextConfig backupPath).

Definition disconnectPlan (clientId : jstr) (options : obj) (exists_ : bool) (existingConfig : jsval)
    (backupPath : option jstr) : res plan :=
  let! profile := getClientProfile (VStr clientId) (VObj options) in
  let! nextConfig :=
    removeServer existingConfig (pr_server_container_path profile) (serverNameFor options profile) in
  Ok (plan_for Disconnect profile options exists_ existingConfig nextConfig backupPath).

Definition renderMcpConfig (clientIdOrOptions maybeOptions : jsval) : res jsval :=
  let options := normalizeOptions (given_client clientIdOrOptions) maybeOptions in
  let! profile := getClientProfile
    (fget options "clientId" ?? fget options "client_id" ?? vstr "generic-mcp") (VObj options) in
  let! found := ensureContainer (VObj []) (pr_server_container_path profile) true in
  let! entry := serverEntryFromOptions options in
  Ok (match found with
      | None => VObj []
      | Some (container, put) => put (VObj (assign (own_fields container) (serverNameFor options profile) entry))
      end).

(** ** The state of an installation *)
Record installed_state := {
  is_installed : bool;
  is_commandOk : bool;
  is_argsOk : bool;
  is_bundleEnvPresent : bool;
  is_bundleEnvOk : bool;
  is_envOk : bool
}.

Definition emptyInstalledState : installed_state :=
  {| is_installed := false; is_commandOk := false; is_argsOk := false; is_bundleEnvPresent := false;
     is_bundleEnvOk := false; is_envOk := false |}.

Definition installedState (config : jsval) (profile : profile) (serverName : jstr) (options : obj)
    : res installed_state :=
  let! found := ensureContainer config (pr_server_container_path profile) false in
  let entry := match found with Some (container, _) => vget container serverName | None => VUndef end in
  if negb (is_record entry) then Ok emptyInstalledState
  else
    let! expectedEntry := serverEntryFromOptions options in
    let actualEnv := env_texts (vget entry "env") in
    let expectedBundle := vget (vget expectedEntry "env") "ENIGMA_BUNDLE" in
    let actualBundlePath := match fget actualEnv "ENIGMA_BUNDLE" with VStr s => s | _ => [] end in
    Ok {| is_installed := true;
          is_commandOk := vget entry "command" === vget expectedEntry "command";
          is_argsOk := jsonEqual (array_texts (vget entry "args")) (vget expectedEntry "args");
          is_bundleEnvPresent := negb (actualBundlePath =s= []);
          is_bundleEnvOk := VStr actualBundlePath === expectedBundle;
          is_envOk := jsonEqual (VObj actualEnv) (vget expectedEntry "env") |}.

(** An error and its [code]. *)
Record failure := {
  f_exn : exn;
  f_code : option jstr
}.

Definition has_code (code : jstr) (error : failure) : bool :=
  match f_code error with Some c => c =s= code | None => false end.

Definition recommendedConnectorAction (exists_ : bool) (state : installed_state) (error : option failure) : jstr :=
  match error with
  | Some _ => "repair"
  | None =>
      if negb exists_ then "missing_client_config"
      else if negb (is_installed state) then "connect"
      else if is_commandOk state && is_argsOk state && is_envOk state then "already_configured" else "repair"
  end.

Definition connectorRepairReasons (exists_ : bool) (state : installed_state) (error : option failure) : list jstr :=
  match error with
  | Some e =>
      if has_code "EJSONPARSE" e then ["config_json_invalid" : jstr]
      else if has_code "EJSONTYPE" e then ["config_json_not_object" : jstr]
      else ["config_unreadable" : jstr]
  | None =>
      if negb exists_ then ["client_config_missing" : jstr]
      else if negb (is_installed state) then ["enigma_server_missing" : jstr]
      else
        (if is_commandOk state then [] else ["command_mismatch" : jstr])
        ++ (if is_argsOk state then [] else ["args_mismatch" : jstr])
        ++ (if negb (is_bundleEnvPresent state) then ["bundle_env_missing" : jstr]
            else if negb (is_bundleEnvOk state) then ["bundle_env_mismatch" : jstr]
            else if negb (is_envOk state) then ["env_mismatch" : jstr] else [])
  end.

(** ** Paths in messages *)
Definition shouldRedactPaths (options : obj) : bool :=
  (fget options "redactPaths" === VBool true) || (fget options "redact_paths" === VBool true)
  || (fget options "redact" === VBool true).

Definition redactedPath (path label : jstr) (options : obj) : jstr :=
  if shouldRedactPaths options then "[redacted:" +s+ label +s+ "]" else path.
End connectors.
