(* ===== verification/ConnectorPublic.v ===== *)
(** * Connectors: what is shown of them

    The artifacts of [src/packages/connectors/src/index.js] that are not written to a
    configuration: the steps of the wizard, the manifest, the connection plan and the health
    of the Claude Desktop extension, and the trust cards. *)

From S2P Require Import Prelude JsValue Regex Canonical Hashing Merkle Dates VaultPublic Vault Settlement Connectors.

Definition TRUST_CARD_SCHEMA : jstr := "enigma.trust_card.v1".
Definition CLAUDE_DESKTOP_MCPB_SCHEMA : jstr := "enigma.claude_desktop_mcpb_manifest.v1".
Definition CLAUDE_DESKTOP_MCPB_PLAN_SCHEMA : jstr := "enigma.claude_desktop_mcpb_connection_plan.v1".
Definition CLAUDE_DESKTOP_MCPB_HEALTH_SCHEMA : jstr := "enigma.claude_desktop_mcpb_health.v1".
Definition CLAUDE_DESKTOP_MCPB_ENVIRONMENT_NAMES : list jstr := ["ENIGMA_BUNDLE" : jstr].
Definition CLAUDE_DESKTOP_MCPB_STATES : list jstr :=
  ["detect" : jstr; "preview" : jstr; "consent" : jstr; "install_handoff" : jstr; "restart" : jstr;
   "test" : jstr; "ready" : jstr].

(** The states of the health of the extension. *)
Inductive mcpb_status :=
  | NotInstalled
  | McpbReady
  | RestartRequired
  | Testing
  | Ready
  | RepairRequired
  | AdvancedFallback.

#[export] Instance mcpb_status_eq_dec : EqDecision mcpb_status.
Proof. solve_decision. Defined.

Definition mcpb_text (status : mcpb_status) : jstr :=
  match status with
  | NotInstalled => "not_installed"
  | McpbReady => "mcpb_ready"
  | RestartRequired => "restart_required"
  | Testing => "testing"
  | Ready => "ready"
  | RepairRequired => "repair_required"
  | AdvancedFallback => "advanced_fallback"
  end.

Definition CLAUDE_DESKTOP_MCPB_HEALTH_STATES : list jstr :=
  map mcpb_text [NotInstalled; McpbReady; RestartRequired; Testing; Ready; RepairRequired; AdvancedFallback].

Definition texts (l : list jstr) : jsval := VArr (map VStr l).
Definition flag (name : jstr) (b : bool) : jstr * jsval := (name, VBool b).
Definition text (name : jstr) (s : jstr) : jstr * jsval := (name, VStr s).
Definition quoted (s : jstr) : jstr := [34%N] +s+ s +s+ [34%N].
(** The arrow of the texts. *)
Definition ARROW : jstr := [32%N; 8594%N; 32%N].

(** ** Commands *)
Definition CLAUDE : jstr := "claude-desktop".

Definition default_path_of (c : client) (platform : jstr) : jstr :=
  if platform =s= "win32" then cl_win32 c else if platform =s= "darwin" then cl_darwin c else cl_linux c.

Definition publicDefaultConfigPath (c : client) (platform : jstr) : jstr := default_path_of c platform.

Definition publicBundlePlaceholder (platform : jstr) : jstr :=
  if is_win32 platform then "%USERPROFILE%\.enigma\bundle.json" else "$HOME/.enigma/bundle.json".

Definition connectCommandFor (clientId platform : jstr) (dryRun : bool) : jstr :=
  "enigma connect " +s+ clientId +s+ " --bundle " +s+ quoted (publicBundlePlaceholder platform)
  +s+ (if dryRun then " --dry-run" : jstr else "" : jstr).

Definition claudeMcpbPackageCommand : jstr := "enigma claude-mcpb package --plain".

Definition previewConnectCommandFor (clientId platform : jstr) : jstr := connectCommandFor clientId platform true.

Definition preferredConnectCommandFor (clientId platform : jstr) : jstr :=
  if clientId =s= CLAUDE then claudeMcpbPackageCommand else previewConnectCommandFor clientId platform.

Definition setupPreferredConnectCommandFor (clientId platform : jstr) : jstr :=
  "enigma quickstart --bundle " +s+ quoted (publicBundlePlaceholder platform) +s+ " && "
  +s+ preferredConnectCommandFor clientId platform.

Definition installPreferredConnectCommandFor (clientId platform : jstr) : jstr :=
  "npm install -g enigma-memory && " +s+ setupPreferredConnectCommandFor clientId platform.

(** ** The wizard *)
Definition step (order : nat) (id title : jstr) (rest : obj) : obj :=
  ("order" : jstr, vnat order) :: text "id" id :: text "title" title :: rest.

Definition NO_WRITES : jstr * jsval := flag "writes" false.

Definition first_steps (platform : jstr) : list obj :=
  [step 1 "install_package" "Install the published package first."
     [text "command" "npm install -g enigma-memory"; text "writes" "global_npm_package"];
   step 2 "create_local_bundle" "Create and verify the local Memory Drive."
     [("commands" : jstr, texts ["enigma quickstart --bundle " +s+ quoted (publicBundlePlaceholder platform);
                                 "enigma verify --bundle " +s+ quoted (publicBundlePlaceholder platform)]);
      text "writes" "local_enigma_bundle"]].

Definition claude_steps (clientId platform : jstr) : list obj :=
  [step 3 "package_claude_mcpb" "Build the Claude Desktop Extension package."
     [text "command" claudeMcpbPackageCommand; text "writes" "local_mcpb_package"];
   step 4 "install_claude_mcpb"
     ("Open Claude Desktop Settings" +s+ ARROW +s+ "Extensions and drag in the Enigma .mcpb package.") [NO_WRITES];
   step 5 "select_memory_drive" "When Claude asks, select the local Memory Drive file for Enigma." [NO_WRITES];
   step 6 "test_claude_mcpb"
     "Ask Claude to run read-only enigma_support_summary or enigma_next_action; success is a public-safe Enigma schema response."
     [NO_WRITES];
   step 7 "advanced_config_fallback" "Only if support asks: preview manual Claude settings."
     [text "command" (previewConnectCommandFor clientId platform); NO_WRITES; flag "advanced_only" true]].

Definition config_steps (clientId platform : jstr) : list obj :=
  [step 3 "doctor_client" "Inspect the client config before changing it."
     [text "command" ("enigma doctor --client " +s+ clientId); NO_WRITES];
   step 4 "connect_client" "Preview the app connection before writing settings."
     [text "command" (previewConnectCommandFor clientId platform); NO_WRITES];
   step 5 "restart_client" "Restart or reload the client so it re-reads MCP settings." [NO_WRITES]].

Definition kimi_step (clientId platform : jstr) : obj :=
  step 5 "kimi_gui_path_caveat"
    "If Kimi Code was launched from the GUI and cannot find enigma-mcp, reconnect with an absolute command path."
    [text "command" (previewConnectCommandFor clientId platform +s+ " --mcp-command "
                     +s+ quoted "/absolute/path/to/enigma-mcp"); NO_WRITES].

Definition wizardStepsForClient (clientId platform : jstr) : list obj :=
  if clientId =s= CLAUDE then first_steps platform ++ claude_steps clientId platform
  else
    let steps := first_steps platform ++ config_steps clientId platform in
    if clientId =s= "kimi-code" then
      imap (λ index s, if (5 <=? index)%nat then fset s "order" (vnat (S index)) else s)
        (take 4 steps ++ kimi_step clientId platform :: drop 4 steps)
    else steps.

(** ** Boundaries *)
Definition connectorTrustBoundary : obj :=
  [flag "public_payload_only" true; flag "raw_memory_included" false; flag "raw_prompt_included" false;
   flag "raw_transcript_included" false; flag "raw_embedding_included" false; flag "private_key_included" false;
   flag "credential_included" false; flag "local_path_included" false; flag "provider_deletion_claim" false;
   flag "model_forgetting_claim" false; flag "hosted_saas_ready_claim" false].

Definition claudeDesktopMcpbClaimBoundary : obj :=
  spread connectorTrustBoundary
    [flag "provider_native_memory_control_claim" false; flag "compliance_certification_claim" false;
     flag "benchmark_superiority_claim" false; flag "legal_or_patent_conclusion_claim" false;
     flag "chain_submission_claim" false; flag "tamper_proof_claim" false].

(** ** The extension of Claude Desktop *)
Definition RUNTIME_NOTE : jstr :=
  "Requires Enigma Desktop bundled runtime or an Enigma-managed MCP bridge; the public manifest does not carry local paths or config bodies.".

Definition createClaudeDesktopMcpbManifest (options : obj) : obj :=
  [flag "ok" true; text "schema" CLAUDE_DESKTOP_MCPB_SCHEMA; text "manifest_version" "0.3";
   text "name" "enigma-memory"; text "display_name" "Enigma Memory";
   text "version" (to_str (fget options "version" ?? fget options "manifestVersion" ?? fget options "manifest_version"
                           ?? vstr "0.0.0"));
   ("author" : jstr, VObj [text "name" "Enigma Memory"]);
   text "description" "Claude Desktop extension contract for the local Enigma Memory MCP bridge.";
   ("server" : jstr, VObj [
      text "type" "node"; text "entry_point" "packages/mcp-server/bin/enigma-mcp.mjs";
      ("mcp_config" : jstr, VObj [
         text "command" "node"; ("args" : jstr, texts ["${__dirname}/packages/mcp-server/bin/enigma-mcp.mjs" : jstr]);
         ("env" : jstr, VObj [text "ENIGMA_BUNDLE" "${user_config.enigma_bundle}"])])]);
   ("user_config" : jstr, VObj [("enigma_bundle" : jstr, VObj [
      text "type" "file"; text "title" "Enigma Memory bundle";
      text "description" "Select the Memory Drive file created by Enigma. Claude stores this choice in its extension settings and passes it only to the local Enigma bridge.";
      flag "required" true])]);
   ("repository" : jstr, VObj [text "type" "git"; text "url" "https://github.com/Enigma-Memory/enigma-memory"]);
   text "documentation" "https://github.com/Enigma-Memory/enigma-memory/tree/main/docs";
   text "support" "https://github.com/Enigma-Memory/enigma-memory/issues";
   ("keywords" : jstr, texts ["memory" : jstr; "mcp" : jstr; "claude-desktop" : jstr; "local-first" : jstr]);
   ("environment_names" : jstr, texts CLAUDE_DESKTOP_MCPB_ENVIRONMENT_NAMES);
   ("supported_platforms" : jstr, texts SUPPORTED_PLATFORMS);
   ("compatibility" : jstr, VObj [("platforms" : jstr, texts SUPPORTED_PLATFORMS);
      ("runtimes" : jstr, VObj [text "enigma_desktop" "bundled-runtime-required"])]);
   ("required_runtime" : jstr, VObj [text "note" RUNTIME_NOTE]);
   text "required_runtime_note" RUNTIME_NOTE;
   ("runtime_package_scope" : jstr, VObj [
      flag "package_json_included" true; text "package_json_path" "package.json"; text "module_type" "module";
      flag "scripts_included" false; flag "dependencies_included" false]);
   ("spec_reference" : jstr, VObj [
      text "manifest_spec" "modelcontextprotocol/mcpb MANIFEST.md"; text "package_shape" "zip_with_manifest_json";
      text "server_type" "node"]);
   ("claim_boundary" : jstr, VObj claudeDesktopMcpbClaimBoundary);
   ("public_safety" : jstr, VObj [
      flag "public_payload_only" true; flag "raw_config_body_included" false; flag "local_absolute_path_included" false;
      flag "credential_included" false; flag "token_included" false; flag "signing_secret_included" false])].

Definition display_name_of (clientId : jstr) : jstr :=
  match find_client clientId with Some c => cl_display_name c | None => [] end.

Section public.
Context {C : Crypto} {Hst : Host} {N : Node}.

Definition createClaudeDesktopMcpbConnectionPlan (options : obj) : res obj :=
  let! platform := option_platform options in
  Ok [flag "ok" true; text "schema" CLAUDE_DESKTOP_MCPB_PLAN_SCHEMA; text "client_id" CLAUDE;
      text "display_name" (display_name_of CLAUDE); text "platform" platform; text "preferred_path" "mcpb_extension";
      flag "writes_performed" false; flag "writesPerformed" false; flag "automatic_config_write" false;
      flag "default_manual_json_fallback" false;
      ("states" : jstr, VArr (imap (λ index id,
         VObj [("order" : jstr, vnat (S index)); text "id" id; flag "write" false]) CLAUDE_DESKTOP_MCPB_STATES));
      ("install_handoff" : jstr, VObj [
         text "artifact" ".mcpb"; flag "user_confirms_in_claude" true; flag "enigma_writes_claude_config" false]);
      ("bridge_pairing" : jstr, VObj [
         text "scope" "current_os_user"; flag "local_service_required" true; flag "public_payload_only" true;
         flag "pairing_secret_in_manifest" false; flag "pairing_secret_in_support_export" false;
         flag "raw_local_service_endpoint_included" false]);
      ("repair_boundaries" : jstr, VObj [
         flag "primary_action_per_state" true; flag "writes_only_after_explicit_consent" true;
         flag "public_logs_redacted" true; flag "raw_config_body_included" false]);
      ("disconnect_boundaries" : jstr, VObj [
         text "mcpb_path" "Guide the user to remove or disable the Enigma Memory extension in Claude Desktop.";
         text "fallback_path" "Remove only the Enigma MCP server entry after advanced-user consent.";
         flag "automatic_config_write" false]);
      ("fallback_boundaries" : jstr, VObj [("manual_json" : jstr, VObj [
         flag "available" true; flag "default" false; text "audience" "advanced";
         flag "requires_explicit_selection" true; flag "automatic_config_write" false])]);
      ("manual_json_fallback" : jstr, VObj [
         flag "available" true; flag "default" false; text "audience" "advanced"; flag "advanced_only" true;
         flag "requires_explicit_selection" true; flag "automatic_config_write" false]);
      ("test_boundary" : jstr, VObj [
         flag "ready_requires_test_evidence" true; flag "local_checks_only_before_user_test" true]);
      ("claim_boundary" : jstr, VObj claudeDesktopMcpbClaimBoundary)].

(** ** Its health *)
Definition hasPassingClaudeMcpbTestEvidence (evidence : jsval) : bool :=
  (evidence === VBool true)
  || is_record evidence && ((vget evidence "passed" === VBool true) || (vget evidence "ok" === VBool true)
                            || (vget evidence "status" === vstr "passed")).

Definition hasFailingClaudeMcpbTestEvidence (evidence : jsval) : bool :=
  (evidence === VBool false)
  || is_record evidence && ((vget evidence "passed" === VBool false) || (vget evidence "ok" === VBool false)
                            || (vget evidence "status" === vstr "failed")).

Definition uniqueSortedStrings (values : list jsval) : list jstr :=
  sort_strings (set_of_list (List.filter (λ s, negb (s =s= [])) (map to_str values))).

(** [/^[a-z0-9_.:-]+$/i]. *)
Definition REASON_CODE_RE : re := re_ci (rplus (cset "a-z0-9_.:-")).

Definition publicReasonCodes (values : jsval) : list jstr :=
  match values with
  | VArr items => uniqueSortedStrings (List.filter
      (λ v, match v with VHole => false | _ => re_full REASON_CODE_RE (to_str v) end) items)
  | _ => []
  end.

(** An action of the user: its id, label, description and kind. *)
Definition mcpb_action (status : mcpb_status) : jstr * jstr * jstr * jstr :=
  let restart := ("restart_claude" : jstr, "Restart Claude Desktop" : jstr,
    "Fully quit and reopen Claude Desktop, choose the Memory Drive if prompted, then ask Claude to run read-only enigma_support_summary or enigma_next_action." : jstr,
    "user_action" : jstr) in
  match status with
  | NotInstalled => ("install_mcpb" : jstr, "Install Claude extension" : jstr,
      "Open the Enigma Claude extension package in Claude Desktop and confirm install." : jstr, "user_action" : jstr)
  | McpbReady | RestartRequired => restart
  | Testing => ("wait_for_connection_test" : jstr, "Wait for connection test" : jstr,
      "Keep Claude Desktop open while Enigma waits for a read-only public-safe schema response." : jstr, "status" : jstr)
  | Ready => ("open_claude_desktop" : jstr, "Open Claude Desktop" : jstr,
      "Claude Desktop is connected to the local Enigma bridge." : jstr, "status" : jstr)
  | RepairRequired => ("repair_claude_extension" : jstr, "Repair Claude connection" : jstr,
      "Enable or reinstall Enigma Memory in Claude Settings" +s+ ARROW
      +s+ "Extensions, reselect the Memory Drive, fully quit and reopen Claude, then use the dry-run fallback only if support asks.",
      "repair" : jstr)
  | AdvancedFallback => ("use_advanced_config_fallback" : jstr, "Use advanced config fallback" : jstr,
      "Review and approve the manual MCP config fallback only if the extension path is unavailable." : jstr, "advanced" : jstr)
  end.

Definition claudeDesktopMcpbPrimaryAction (status : mcpb_status) : obj :=
  let '(id, label, description, kind) := mcpb_action status in
  [text "id" id; text "label" label; text "description" description; text "kind" kind;
   flag "writes_config" false; flag "public_safe" true].

Definition is_set (options : obj) (name : jstr) : bool := fget options name === VBool true.

Definition mcpb_installed (options : obj) : bool :=
  is_set options "mcpbInstalled" || is_set options "mcpb_installed" || is_set options "extensionInstalled"
  || is_set options "extension_installed" || is_set options "installed".

Definition test_evidence (options : obj) : jsval := fget options "testEvidence" ?? fget options "test_evidence".

Definition mcpb_status_of (options : obj) : mcpb_status :=
  let testEvidence := test_evidence options in
  if is_set options "advancedFallback" || is_set options "advanced_fallback" then AdvancedFallback
  else if is_set options "testing" then Testing
  else if is_set options "repairRequired" || is_set options "repair_required"
          || hasFailingClaudeMcpbTestEvidence testEvidence then RepairRequired
  else if negb (mcpb_installed options) then NotInstalled
  else if is_set options "restartRequired" || is_set options "restart_required" then RestartRequired
  else if hasPassingClaudeMcpbTestEvidence testEvidence then Ready
  else McpbReady.

Definition createClaudeDesktopMcpbHealth (options : obj) : obj :=
  let testEvidence := test_evidence options in
  let status := mcpb_status_of options in
  let ready := bool_decide (status = Ready) in
  let primaryAction := claudeDesktopMcpbPrimaryAction status in
  [flag "ok" ready; text "schema" CLAUDE_DESKTOP_MCPB_HEALTH_SCHEMA; text "client_id" CLAUDE;
   text "display_name" (display_name_of CLAUDE); text "status" (mcpb_text status); text "state" (mcpb_text status);
   text "health_status" (mcpb_text status); ("supported_statuses" : jstr, texts CLAUDE_DESKTOP_MCPB_HEALTH_STATES);
   flag "installed" (mcpb_installed options); flag "connected" ready; flag "ready" ready;
   flag "test_evidence_present" (negb (is_undef testEvidence));
   flag "test_passed" (hasPassingClaudeMcpbTestEvidence testEvidence); flag "ready_requires_test_evidence" true;
   ("repair_reasons" : jstr, texts (if bool_decide (status = RepairRequired)
      then publicReasonCodes (fget options "repairReasons" ?? fget options "repair_reasons"
                              ?? texts ["test_failed_or_repair_required" : jstr])
      else []));
   flag "advanced_fallback" (is_set options "advancedFallback" || is_set options "advanced_fallback");
   flag "automatic_config_write" false; ("primary_action" : jstr, VObj primaryAction);
   ("next_action_id" : jstr, fget primaryAction "id"); ("claim_boundary" : jstr, VObj claudeDesktopMcpbClaimBoundary)].

(** ** The plan of the wizard *)
Definition selected_clients (selected : jsval) : res (list jstr) :=
  if truthy selected then let! clientId := normalizeClientId selected in Ok [clientId] else Ok supportedClients.

Definition wizard_client (platform clientId : jstr) : res jsval :=
  match find_client clientId with
  | None => Throw (PlainError ("Unsupported Enigma connector client: " +s+ clientId))
  | Some c =>
      let claude := clientId =s= CLAUDE in
      let! preview := (if claude then Ok VNull
        else renderMcpConfig (VStr clientId)
               (VObj [text "platform" platform; text "bundlePath" (publicBundlePlaceholder platform)])) in
      let! connection := (if claude then let! p := createClaudeDesktopMcpbConnectionPlan [text "platform" platform] in Ok (VObj p)
        else Ok VNull) in
      Ok (VObj [text "client_id" clientId; text "display_name" (cl_display_name c);
                text "default_config_path" (publicDefaultConfigPath c platform);
                ("steps" : jstr, VArr (map VObj (wizardStepsForClient clientId platform)));
                text "one_command_install_connect" (installPreferredConnectCommandFor clientId platform);
                text "setup_connect_command" (setupPreferredConnectCommandFor clientId platform);
                text "connect_command" (preferredConnectCommandFor clientId platform);
                ("advanced_fallback_connect_command" : jstr,
                 if claude then VStr (previewConnectCommandFor clientId platform) else VNull);
                ("mcp_config_preview" : jstr, preview); ("mcpb_connection_plan" : jstr, connection)])
  end.

Definition planConnectWizard (clientIdOrOptions maybeOptions : jsval) : res jsval :=
  let options := normalizeOptions clientIdOrOptions maybeOptions in
  let! clientIds := selected_clients (fget options "clientId" ?? fget options "client_id") in
  let! platform := option_platform options in
  let! clients := map_res (wizard_client platform) clientIds in
  Ok (VObj [flag "ok" true; text "schema" "enigma.connect_wizard_plan.v1"; text "platform" platform;
            flag "writes_performed" false; flag "writesPerformed" false; ("clients" : jstr, VArr clients)]).

(** [planConnectWizard(clientId, { platform }).clients[0]]. *)
Definition wizard_of (clientId platform : jstr) : res jsval :=
  let! plan := planConnectWizard (VStr clientId) (VObj [text "platform" platform]) in
  Ok (match vget plan "clients" with VArr (c :: _) => c | _ => VUndef end).

(** ** Trust cards *)
Definition hash_text (value : jsval) : res jstr :=
  match value with
  | VStr _ => sha256Hex value
  | _ => let! s := canonicalize value in sha256Hex (VStr s)
  end.

Definition sha256Root (value : jsval) : res jstr := let! h := hash_text value in Ok ("sha256:" +s+ h).

Definition publicTrustRef (kind : jstr) (value : jsval) : res jstr :=
  let! h := hash_text value in Ok ("ref:" +s+ kind +s+ ":" +s+ take 32 h).

Definition connectorTrustEvidenceRefs (clientId : jstr) (p : profile) : res (list jstr) :=
  let! profile_ref := publicTrustRef "connector_profile"
    (VObj [text "schema" PROFILE_SCHEMA; text "client_id" clientId;
           text "display_name" (cl_display_name (pr_client p)); text "command" (pr_command p);
           text "server_name" (pr_server_name p); ("server_container_path" : jstr, texts (pr_server_container_path p))]) in
  let! command_ref := publicTrustRef "mcp_command"
    (VObj [text "command" (pr_command p); text "server_name" (pr_server_name p)]) in
  Ok (uniqueSortedStrings [VStr profile_ref; VStr command_ref]).

(** [values[i]] as a list of one. *)
Definition nth_ref (refs : list jstr) (i : nat) : jsval := VArr [match refs !! i with Some r => VStr r | None => VUndef end].

Definition trust_claims (refs : list jstr) : list obj :=
  [[text "claim_id" "claim:connector.local_mcp_profile"; text "claim_type" PROFILE_SCHEMA; text "status" "supported";
    ("evidence_refs" : jstr, nth_ref refs 0)];
   [text "claim_id" "claim:connector.public_payload_only"; text "claim_type" "enigma.trust_boundary.v1";
    text "status" "supported"; ("evidence_refs" : jstr, nth_ref refs 1)]].

Definition set_root (values : list jsval) : res jstr := let! m := ms_new values in Ok (ms_root m).

(** [clock] is the text of the current time. *)
Definition createConnectorTrustCard (clock : jstr) (clientIdOrOptions maybeOptions : jsval) : res obj :=
  let options := normalizeOptions (given_client clientIdOrOptions) maybeOptions in
  let! clientId := normalizeClientId (fget options "clientId" ?? fget options "client_id" ?? vstr "generic-mcp") in
  let! profile := getClientProfile (VStr clientId) (VObj options) in
  let generatedAt := to_str (fget options "generated_at" ?? fget options "generatedAt" ?? fget options "now" ?? VStr clock) in
  let! evidenceRefs := connectorTrustEvidenceRefs clientId profile in
  let claims := trust_claims evidenceRefs in
  let claimIds := map (λ claim, fget claim "claim_id") claims in
  let! subject_hash := sha256Root (VObj [text "schema" "enigma.connector_trust_subject.v1"; text "client_id" clientId;
    text "command" (pr_command profile); text "server_name" (pr_server_name profile)]) in
  let! claim_root := set_root claimIds in
  let! evidence_root := set_root (map VStr evidenceRefs) in
  let! receipt_chain_root := fget options "receipt_chain_root" ??! (fget options "receiptChainRoot" ??!
    (let! r := sha256Root (VObj [text "schema" "enigma.connector_trust_card.empty_receipt_chain.v1";
                                 text "client_id" clientId]) in Ok (VStr r))) in
  Ok [text "schema" TRUST_CARD_SCHEMA; text "trust_card_id" ("trustcard:connector:" +s+ clientId);
      text "generated_at" generatedAt;
      ("subject" : jstr, VObj [text "subject_type" "connector"; text "subject_id" ("connector:" +s+ clientId);
         text "subject_ref" ("ref:connector:" +s+ clientId); text "subject_hash" subject_hash]);
      ("posture" : jstr, fget options "posture" ?? vstr "reviewed"); ("claim_ids" : jstr, VArr claimIds);
      ("claims" : jstr, VArr (map VObj claims)); ("evidence_refs" : jstr, texts evidenceRefs);
      ("roots" : jstr, VObj [text "claim_root" claim_root; text "evidence_root" evidence_root;
         ("receipt_chain_root" : jstr, receipt_chain_root)]);
      ("boundary" : jstr, VObj connectorTrustBoundary)].

Definition createConnectorTrustCards (clock : jstr) (options : obj) : res (list obj) :=
  let given := fget options "clientId" ?? fget options "client_id" in
  let! selected := selected_clients given in
  map_res (λ clientId, createConnectorTrustCard clock (VObj (fset options "clientId" (VStr clientId))) VUndef) selected.

End public.
