(* ===== verification/ConnectorFiles.v ===== *)
(** * Connectors: the file system

    The operations of [src/packages/connectors/src/index.js] that read and write the
    configuration of a client.  The file system is a map from paths to texts.  A call on
    it may fail, and one that writes may leave a prefix of its text behind; every state
    that the files pass through is recorded, so that what a crash leaves is one of them.
    Directories are not modelled: making them succeeds or fails. *)

From stdpp Require Import gmap.
From S2P Require Import Prelude JsValue Regex Canonical Hashing Dates VaultPublic Vault Settlement Connectors ConnectorPublic.

(** ** Calls on the file system *)
Abbreviation files :=
  (@gmap (list N) (@list_eq_dec N numbers.N.eq_dec) (@list_countable N numbers.N.eq_dec N_countable) (list N)).

(** How a call ends: as it should, or with an error, after it has written the given
    number of units or nothing at all. *)
Inductive outcome :=
  | Done
  | Fails (error : failure) (written : option nat).

(** The files, the states they have been in, and how the next calls end; the calls after
    those succeed. *)
Record disk := {
  dk_files : files;
  dk_seen : list files;
  dk_outcomes : list outcome
}.

Definition IO (A : Type) : Type := disk -> (A + failure) * disk.

Definition io_ret {A} (a : A) : IO A := λ d, (inl a, d).

Definition io_throw {A} (e : failure) : IO A := λ d, (inr e, d).

Definition io_bind {A B} (m : IO A) (k : A -> IO B) : IO B :=
  λ d, match m d with (inl a, d') => k a d' | (inr e, d') => (inr e, d') end.
Notation "'io!' x := m 'in' k" := (io_bind m (λ x, k)) (at level 10, x pattern, m at level 100, k at level 200) : js_scope.

(** [try { m } catch (error) { handler }]. *)
Definition io_catch {A} (m : IO A) (handler : failure -> IO A) : IO A :=
  λ d, match m d with (inl a, d') => (inl a, d') | (inr e, d') => handler e d' end.

(** A computation without a call; its errors have no code. *)
Definition io_lift {A} (m : res A) : IO A :=
  match m with Ok a => io_ret a | Throw e => io_throw {| f_exn := e; f_code := None |} end.

Definition coded (code message : jstr) : failure := {| f_exn := PlainError message; f_code := Some code |}.

Definition no_entry (path : jstr) : failure := coded "ENOENT" ("ENOENT: no such file or directory: " +s+ path).

(** The outcome of the next call. *)
Definition next_outcome : IO outcome := λ d,
  match dk_outcomes d with
  | [] => (inl Done, d)
  | o :: l => (inl o, {| dk_files := dk_files d; dk_seen := dk_seen d; dk_outcomes := l |})
  end.

Definition get_files : IO files := λ d, (inl (dk_files d), d).

(** The files pass through the states in [through] to [m]. *)
Definition pass (through : list files) (m : files) : IO unit := λ d,
  (inl tt, {| dk_files := m; dk_seen := dk_seen d ++ through ++ [m]; dk_outcomes := dk_outcomes d |}).

(** Writes the first [n] units of a text into a file, one state per unit. *)
Definition write_units (path text : jstr) (n : nat) : IO unit :=
  io! m := get_files in
  pass (map (λ k, <[path := take k text]> m) (List.seq 0 n)) (<[path := take n text]> m).

(** A call that writes a text. *)
Definition fs_put (path text : jstr) : IO unit :=
  io! o := next_outcome in
  match o with
  | Done => write_units path text (length text)
  | Fails e (Some n) => io! _ := write_units path text n in io_throw e
  | Fails e None => io_throw e
  end.

(** A call that writes nothing: [k] is what it does if it does not fail. *)
Definition fs_call {A} (k : IO A) : IO A :=
  io! o := next_outcome in match o with Done => k | Fails e _ => io_throw e end.

(** The text of a file. *)
Definition contents (path : jstr) : IO jstr :=
  io! m := get_files in match m !! path with Some text => io_ret text | None => io_throw (no_entry path) end.

Definition fs_access (path : jstr) : IO unit := fs_call (io! _ := contents path in io_ret tt).
Definition fs_readFile (path : jstr) : IO jstr := fs_call (contents path).
Definition fs_mkdir (path : jstr) : IO unit := fs_call (io_ret tt).
Definition fs_writeFile (path text : jstr) : IO unit := fs_put path text.

Definition fs_copyFile (from path : jstr) : IO unit := io! text := contents from in fs_put path text.

(** A rename replaces the file at once. *)
Definition fs_rename (from path : jstr) : IO unit :=
  fs_call (io! text := contents from in io! m := get_files in pass [] (<[path := text]> (delete from m))).

(** [rm(path, { force: true })]. *)
Definition fs_rm (path : jstr) : IO unit := fs_call (io! m := get_files in pass [] (delete path m)).

(** What a call draws from its host: the time, the process and [Math.random()] in base 16
    without its first two characters. *)
Record moment := {
  t_now : Z;
  t_pid : Z;
  t_random : jstr
}.

(** What a function that the caller gives to read files gives for a path. *)
Class Readers := { call_reader : jsval -> jstr -> jstr + failure }.

(** ** Messages without paths *)

(** [text.split(pattern).join(replacement)] for a pattern that is not empty; a text has no
    more occurrences than units. *)
Fixpoint replace_from (fuel : nat) (pattern replacement s : jstr) : jstr :=
  match fuel, s with
  | S fuel', c :: s' =>
      if starts_with pattern s then replacement +s+ replace_from fuel' pattern replacement (drop (length pattern) s)
      else c :: replace_from fuel' pattern replacement s'
  | _, _ => s
  end.

Definition replace_all (pattern replacement s : jstr) : jstr := replace_from (length s) pattern replacement s.

Definition redaction_candidates (configPath : jstr) (options : obj) : list jstr :=
  let env := fget options "env" in
  flat_map (λ v, match v with VStr (c :: s) => [c :: s] | _ => [] end)
    [VStr configPath; fget options "homeDir"; fget options "home_dir"; fget options "bundlePath";
     fget options "bundle_path"; vget env "HOME"; vget env "USERPROFILE"; vget env "APPDATA"].

Definition redactErrorMessage (message configPath : jstr) (options : obj) : jstr :=
  if negb (shouldRedactPaths options) then message
  else
    let redacted := foldl (λ s candidate, replace_all candidate "[redacted:path]" s) message
                          (redaction_candidates configPath options) in
    replace_all "[redacted:path]" (redactedPath configPath "config_path" options) redacted.

(** What the inspection of a client reports. *)
Record detection := {
  dt_client : client;
  dt_platform : jstr;
  dt_configPath : jstr;
  dt_public_default_config_path : jstr;
  dt_serverName : jstr;
  dt_ok : bool;
  dt_exists : bool;
  dt_state : installed_state;
  dt_action : jstr;
  dt_repairReasons : list jstr;
  dt_parseError : option bool;
  dt_error : option jstr;
  dt_wizard : jsval
}.

(** The plans of the demonstration. *)
Record demo := {
  dm_sampleConfig : jsval;
  dm_firstConnect : plan;
  dm_idempotentReconnect : plan;
  dm_disconnectResult : plan;
  dm_generatedJson : jstr;
  dm_wizardPlan : jsval
}.

Section files.
Context {C : Crypto} {Hst : Host} {P : Platform} {N : Node} {R : Readers}.

(** ** Backups *)
Definition number_time (n : jsnum) : option Z :=
  match n with
  | NInt z => time_clip z
  | NNegZero => Some 0%Z
  | NDec m e => if (e <? 0)%Z then time_clip (Z.quot m (10 ^ (- e))) else None
  | _ => None
  end.

(** [new Date(value).getTime()] where [None] is [NaN]; a [Date] is given by its text. *)
Definition date_time (clock : Z) (value : jsval) : res (option Z) :=
  match value with
  | VUndef | VHole => Ok (Some clock)
  | VNull | VBool _ | VNum _ => let! n := to_number value in Ok (number_time n)
  | VOpaque OBigint _ => Throw (TypeError "Cannot convert a BigInt value to a number")
  | VOpaque OSymbol _ => Throw (TypeError "Cannot convert a Symbol value to a number")
  | _ => Ok (date_parse (to_str value))
  end.

(** [replace(/[:.]/g, '')]. *)
Definition without_marks (text : jstr) : jstr :=
  List.filter (λ c, negb ((c =? 58)%N || (c =? 46)%N)) text.

Definition timestampSuffix (t : moment) (now : jsval) : res jstr :=
  let! value := date_time (t_now t) now in
  match value with
  | None => Throw (PlainError "Invalid connector backup timestamp.")
  | Some ms => let! text := toISOString ms in Ok (without_marks text)
  end.

Definition backupPathFor (configPath : jstr) (t : moment) (now : jsval) : res jstr :=
  let! suffix := timestampSuffix t now in Ok (configPath +s+ ".bak." +s+ suffix).

Definition backup_candidate (base : jstr) (index : nat) : jstr :=
  if (index =? 0)%nat then base else base +s+ "." +s+ nat_str index.

(** The loop of [unusedBackupPath], for the given number of turns. *)
Fixpoint first_unused (configPath base : jstr) (index turns : nat) : IO jstr :=
  match turns with
  | 0 => io_throw {| f_exn := PlainError ("Cannot allocate backup path for " +s+ configPath +s+ "."); f_code := None |}
  | S turns' =>
      let candidate := backup_candidate base index in
      io! free := io_catch (io! _ := fs_access candidate in io_ret false)
        (λ error, if has_code "ENOENT" error then io_ret true else io_throw error) in
      if free : bool then io_ret candidate else first_unused configPath base (S index) turns'
  end.

Definition BACKUP_ATTEMPTS : nat := 1000.

Definition unusedBackupPath (configPath : jstr) (t : moment) (now : jsval) : IO jstr :=
  io! base := io_lift (backupPathFor configPath t now) in
  first_unused configPath base 0 BACKUP_ATTEMPTS.

(** ** Reading *)

(** The reader that the options name; [None] is that of Node. *)
Definition optionFileReader (options : obj) : res (option jsval) :=
  let reader := fget options "readFile" ?? fget options "read_file" ?? vget (fget options "fs") "readFile"
    ?? vget (fget options "fileSystem") "readFile" in
  match reader with
  | VUndef | VHole => Ok None
  | VOpaque OFunction _ => Ok (Some reader)
  | _ => Throw (PlainError "Connector readFile option must be a function.")
  end.

Definition read_text (configPath : jstr) (options : obj) : IO jstr :=
  io! reader := io_lift (optionFileReader options) in
  match reader with
  | None => fs_readFile configPath
  | Some f => match call_reader f configPath with inl text => io_ret text | inr e => io_throw e end
  end.

(** Whether there is a configuration, and which. *)
Definition readJsonConfig (configPath : jstr) (options : obj) : IO (bool * jsval) :=
  io! text := io_catch (io! text := read_text configPath options in io_ret (Some text))
    (λ error, if has_code "ENOENT" error then io_ret None else io_throw error) in
  match text with
  | None => io_ret (false, VObj [])
  | Some text =>
      match json_parse text with
      | Throw error => io_throw (coded "EJSONPARSE"
          ("Cannot parse JSON connector config at " +s+ configPath +s+ ": " +s+ exn_message error))
      | Ok config =>
          if is_record config then io_ret (true, config)
          else io_throw (coded "EJSONTYPE" ("Connector config at " +s+ configPath +s+ " must be a JSON object."))
      end
  end.

(** ** Writing *)
Definition tempPathFor (configPath : jstr) (t : moment) : jstr :=
  configPath +s+ ".tmp." +s+ units_of_string (pretty (t_pid t)) +s+ "." +s+ units_of_string (pretty (t_now t))
  +s+ "." +s+ t_random t.

(** The text goes to a new file, which then takes the place of the configuration. *)
Definition replace_config (p : plan) (originalExists : bool) (tempPath : jstr) : IO unit :=
  io! _ := fs_writeFile tempPath (pl_generatedJson p) in
  io! _ := match pl_backupPath p with
           | Some backup => if originalExists then fs_copyFile (pl_configPath p) backup else io_ret tt
           | None => io_ret tt
           end in
  fs_rename tempPath (pl_configPath p).

Definition writePlan (t : moment) (p : plan) (originalExists : bool) : IO plan :=
  if negb (pl_changed p) || pl_dryRun p then io_ret p
  else
    io! _ := fs_mkdir (pathDirectory (pl_configPath p)) in
    let tempPath := tempPathFor (pl_configPath p) t in
    io! _ := io_catch (replace_config p originalExists tempPath)
      (λ error, io! _ := fs_rm tempPath in io_throw error) in
    io_ret p.

(** ** Connecting and disconnecting *)
Definition with_backup (p : plan) (exists_ : bool) (backupPath : jstr) : plan :=
  {| pl_action := pl_action p; pl_client_id := pl_client_id p; pl_configPath := pl_configPath p;
     pl_serverName := pl_serverName p; pl_changed := pl_changed p; pl_dryRun := pl_dryRun p;
     pl_backupPath := Some backupPath;
     pl_plannedWrites := plannedWritesFor (pl_dryRun p) exists_ (pl_changed p) (Some backupPath) (pl_configPath p) (pl_config p);
     pl_config := pl_config p; pl_generatedJson := pl_generatedJson p |}.

(** The two functions differ in the plan they make. *)
Definition plan_of (action : plan_action) :=
  match action with Connect => connectPlan | Disconnect => disconnectPlan end.

(** The client, the path and the options of a call. *)
Definition target (clientIdOrOptions maybeOptions : jsval) : res (jstr * jstr * obj) :=
  let options := normalizeOptions (given_client clientIdOrOptions) maybeOptions in
  let! clientId := normalizeClientId (fget options "clientId" ?? fget options "client_id") in
  let! configPath := fget options "configPath" ??! (fget options "config_path" ??!
    (let! path := platformDefaultConfigPath (VStr clientId) (VObj options) in Ok (VStr path))) in
  Ok (clientId, to_str configPath, options).

(** What is planned, and whether there is a configuration. *)
Definition plannedChange (action : plan_action) (t : moment) (clientIdOrOptions maybeOptions : jsval) : IO (plan * bool) :=
  io! (clientId, configPath, options) := io_lift (target clientIdOrOptions maybeOptions) in
  io! (exists_, config) := readJsonConfig configPath options in
  io! p := io_lift (plan_of action clientId (fset options "configPath" (VStr configPath)) exists_ config None) in
  if exists_ && pl_changed p
  then io! backup := unusedBackupPath configPath t (fget options "now") in io_ret (with_backup p exists_ backup, exists_)
  else io_ret (p, exists_).

Definition changeClient (action : plan_action) (t : moment) (clientIdOrOptions maybeOptions : jsval) : IO plan :=
  io! (p, exists_) := plannedChange action t clientIdOrOptions maybeOptions in
  writePlan t p exists_.

Definition connectClient : moment -> jsval -> jsval -> IO plan := changeClient Connect.
Definition disconnectClient : moment -> jsval -> jsval -> IO plan := changeClient Disconnect.

(** ** Inspecting *)
Definition detection_of (p : profile) (options : obj) (ok exists_ : bool) (state : installed_state)
    (error : option failure) (wizard : jsval) : detection :=
  let configPath := configPathIn options p in
  {| dt_client := pr_client p; dt_platform := pr_platform p;
     dt_configPath := redactedPath configPath "config_path" options;
     dt_public_default_config_path := publicDefaultConfigPath (pr_client p) (pr_platform p);
     dt_serverName := serverNameFor options p; dt_ok := ok; dt_exists := exists_; dt_state := state;
     dt_action := recommendedConnectorAction exists_ state error;
     dt_repairReasons := connectorRepairReasons exists_ state error;
     dt_parseError := option_map (λ e, has_code "EJSONPARSE" e || has_code "EJSONTYPE" e) error;
     dt_error := option_map (λ e, redactErrorMessage (exn_message (f_exn e)) configPath options) error;
     dt_wizard := wizard |}.

Definition inspect (p : profile) (options : obj) : IO detection :=
  io! (exists_, config) := readJsonConfig (configPathIn options p) options in
  io! state := io_lift (if exists_ then installedState config p (serverNameFor options p) options
                        else Ok emptyInstalledState) in
  let action := recommendedConnectorAction exists_ state None in
  io! wizard := io_lift (wizard_of (cl_id (pr_client p)) (pr_platform p)) in
  io_ret (detection_of p options ((action =s= "already_configured") || (action =s= "missing_client_config"))
            exists_ state None wizard).

Definition detectClientConnector (clientIdOrOptions maybeOptions : jsval) : IO detection :=
  let options := normalizeOptions (given_client clientIdOrOptions) maybeOptions in
  io! clientId := io_lift (normalizeClientId (fget options "clientId" ?? fget options "client_id" ?? vstr "generic-mcp")) in
  io! p := io_lift (getClientProfile (VStr clientId) (VObj options)) in
  io_catch (inspect p options)
    (λ error,
       io! wizard := io_lift (wizard_of (cl_id (pr_client p)) (pr_platform p)) in
       io_ret (detection_of p options false true emptyInstalledState (Some error) wizard)).

Fixpoint detect_all (options : obj) (clientIds : list jstr) : IO (list detection) :=
  match clientIds with
  | [] => io_ret []
  | clientId :: l =>
      io! client := detectClientConnector (VStr clientId) (VObj options) in
      io! clients := detect_all options l in
      io_ret (client :: clients)
  end.

Definition detectConnectors (clientIdOrOptions maybeOptions : jsval) : IO (bool * list detection) :=
  let options := normalizeOptions clientIdOrOptions maybeOptions in
  io! clientIds := io_lift (selected_clients (fget options "clientId" ?? fget options "client_id")) in
  io! clients := detect_all options clientIds in
  io_ret (forallb dt_ok clients, clients).

Definition doctorConnectors : jsval -> jsval -> IO (bool * list detection) := detectConnectors.

(** ** The demonstration *)
Definition runConnectorDemo (t : moment) (input : obj) : res demo :=
  let options := fset input "clientId" (fget input "clientId" ?? fget input "client_id" ?? vstr "generic-mcp") in
  let! clientId := normalizeClientId (fget options "clientId") in
  let! profile := getClientProfile (VStr clientId) (VObj options) in
  let demo_path (name : jstr) : res jsval :=
    let! home := homeForPlatform (pr_platform profile) options in
    Ok (VStr (joinForPlatform (pr_platform profile) [home; ".enigma-demo" : jstr; name])) in
  let! bundlePath := fget options "bundlePath" ??! (fget options "bundle_path" ??! demo_path "bundle.json") in
  let! configPath := fget options "configPath" ??! (fget options "config_path" ??! demo_path (clientId +s+ ".json")) in
  let now := fget options "now" ?? vstr "2026-01-01T00:00:00.000Z" in
  let demoOptions := spread options [("bundlePath" : jstr, VStr (to_str bundlePath)); ("configPath" : jstr, configPath);
                                     ("now" : jstr, now)] in
  let! sampleConfig := renderMcpConfig (VStr clientId) (VObj demoOptions) in
  let! firstConnect := connectPlan clientId demoOptions false (VObj []) None in
  let! backup := backupPathFor (to_str configPath) t now in
  let! idempotentReconnect := connectPlan clientId demoOptions true (pl_config firstConnect) (Some backup) in
  let! disconnectResult := disconnectPlan clientId demoOptions true (pl_config firstConnect) (Some backup) in
  let! wizardPlan := wizard_of clientId (pr_platform profile) in
  Ok {| dm_sampleConfig := sampleConfig; dm_firstConnect := firstConnect; dm_idempotentReconnect := idempotentReconnect;
        dm_disconnectResult := disconnectResult; dm_generatedJson := stringifyConfig sampleConfig;
        dm_wizardPlan := wizardPlan |}.
End files.
