(* ===== verification/ConnectorsSafety.v ===== *)
(** * Connectors: theorems on configurations

    Connecting a client adds the server and nothing else, a second time changes nothing,
    and disconnecting takes the server away again: a configuration with a list of servers
    comes back as it was, one without it keeps an empty list. *)

From S2P Require Import Prelude JsValue Objects Regex Canonical Hashing Dates VaultPublic Vault Settlement Connectors.

(** ** JSON values *)

(** What [JSON.parse] makes, without [-0], which [JSON.stringify] does not keep. *)
Fixpoint json_tree (v : jsval) : bool :=
  match v with
  | VNull | VBool _ | VStr _ => true
  | VNum n => num_is_finite n && negb (bool_decide (n = NNegZero))
  | VArr l => forallb json_tree l
  | VObj fs => bool_decide (NoDup (keys fs)) && forallb (λ kv : jstr * jsval, json_tree kv.2) fs
  | _ => false
  end.

Lemma tree_obj fs : json_tree (VObj fs) = true <-> NoDup (keys fs) /\ Forall (λ kv : jstr * jsval, json_tree kv.2 = true) fs.
Proof.
  cbn [json_tree]. rewrite andb_true_iff, bool_decide_eq_true, forallb_forall, Forall_forall.
  split; intros [H1 H2]; (split; [done|]); intros kv Hin; by apply H2, list_elem_of_In.
Qed.

Lemma clone_tree v : json_tree v = true -> cloneJson v = Ok (Some v).
Proof.
  induction v as [| |b|n|s| |items IH|fields IH|t fields IH|fs _|l _|t b|k t] using jsval_ind; intros H; try discriminate H; try reflexivity.
  - cbn [json_tree] in H. apply andb_true_iff in H as [H1 H2]. cbn [cloneJson]. rewrite H1. by destruct n.
  - cbn [json_tree] in H. cbn [cloneJson].
    assert (forall l, Forall (λ v, json_tree v = true -> cloneJson v = Ok (Some v)) l -> forallb json_tree l = true ->
      (fix go (items : list jsval) : res (list jsval) :=
         match items with [] => Ok [] | x :: l => let! y := cloneJson x in let! ys := go l in Ok (default VNull y :: ys) end) l = Ok l) as Hl.
    { induction 1 as [|x l Hx _ IHl]; [done|]. cbn [forallb]. intros [Hx' Hl]%andb_true_iff. by rewrite Hx, IHl. }
    by rewrite Hl.
  - apply tree_obj in H as [_ H]. cbn [cloneJson].
    assert (forall l, Forall (λ kv : jstr * jsval, json_tree kv.2 = true -> cloneJson kv.2 = Ok (Some kv.2)) l ->
      Forall (λ kv : jstr * jsval, json_tree kv.2 = true) l ->
      (fix go (fields : list (jstr * jsval)) : res obj :=
         match fields with
         | [] => Ok []
         | kv :: l => let! y := cloneJson kv.2 in let! ys := go l in Ok (match y with Some v => (kv.1, v) :: ys | None => ys end)
         end) l = Ok l) as Hl.
    { induction 1 as [|[k x] l Hx _ IHl]; [done|]. intros [Hx' Hl]%Forall_cons. cbn [fst snd] in *. by rewrite Hx, IHl. }
    by rewrite Hl.
Qed.

Lemma clone_ok v : json_tree v = true -> clone v = Ok v.
Proof. intros H. unfold clone. by rewrite clone_tree. Qed.

Lemma fget_in fs kv : NoDup (keys fs) -> kv ∈ fs -> fget fs kv.1 = kv.2.
Proof.
  induction fs as [|[k v] fs IH]; [by intros _ ?%elem_of_nil|]. unfold keys in *. rewrite fmap_cons. cbn [fst].
  intros [Hn Hd]%NoDup_cons [->|Hin]%elem_of_cons; cbn [fget]; [by rewrite str_eqb_refl|].
  rewrite (proj2 (str_eqb_neq k kv.1)); [by apply IH|]. intros ->. apply Hn, list_elem_of_fmap. by exists kv.
Qed.

(** Objects with the same keys and equal values are equal, in any order. *)
Lemma equal_fields l r :
  length l = length r ->
  Forall (λ kv : jstr * jsval, fhas r kv.1 = true /\ jsonEqual kv.2 (fget r kv.1) = true) l ->
  jsonEqual (VObj l) (VObj r) = true.
Proof.
  intros Hlen H. cbn [jsonEqual object_is is_record own_fields orb andb]. rewrite Hlen, Nat.eqb_refl. cbn [andb]. clear Hlen.
  induction H as [|kv l [H1 H2] _ IH]; [done|]. unfold vget at 1. cbn [own_fields]. by rewrite H1, H2.
Qed.

Lemma equal_refl v : json_tree v = true -> jsonEqual v v = true.
Proof.
  induction v as [| |b|n|s| |items IH|fields IH|t fields IH|fs _|l _|t b|k t] using jsval_ind; intros H; try discriminate H; try reflexivity.
  - cbn. by rewrite eqb_reflx.
  - cbn. by rewrite bool_decide_eq_true_2.
  - cbn. by rewrite str_eqb_refl.
  - cbn [json_tree] in H. cbn [jsonEqual object_is orb].
    induction IH as [|x l Hx _ IHl]; [done|]. cbn [forallb] in H. apply andb_true_iff in H as [H1 H2]. by rewrite Hx, IHl.
  - apply tree_obj in H as [Hn H]. apply equal_fields; [done|]. apply Forall_forall. intros kv Hin.
    rewrite (fget_in _ _ Hn Hin). rewrite Forall_forall in IH, H. split; [|by apply IH, H].
    apply fhas_elem, list_elem_of_fmap. by exists kv.
Qed.

Lemma tree_fget fs k : json_tree (VObj fs) = true -> fhas fs k = true -> json_tree (fget fs k) = true.
Proof.
  rewrite tree_obj, fhas_elem. intros [Hn H] (kv & -> & Hin)%list_elem_of_fmap. rewrite (fget_in _ _ Hn Hin).
  rewrite Forall_forall in H. by apply H.
Qed.

Lemma Forall_fset (Q : jsval -> Prop) fs k v :
  Forall (λ kv : jstr * jsval, Q kv.2) fs -> Q v -> Forall (λ kv : jstr * jsval, Q kv.2) (fset fs k v).
Proof.
  intros H Hv. unfold fset. destruct (fhas fs k); [|rewrite finsert_perm; by apply Forall_cons].
  induction H as [|[k' v'] fs H1 H2 IH]; [done|]. cbn [freplace]. by destruct (k' =s= k); apply Forall_cons.
Qed.

Lemma tree_fset fs k v : json_tree (VObj fs) = true -> json_tree v = true -> json_tree (VObj (fset fs k v)) = true.
Proof.
  rewrite !tree_obj. intros [Hn H] Hv. split; [by apply NoDup_keys_fset|].
  by apply (Forall_fset (λ v, json_tree v = true)).
Qed.

Lemma tree_fdelete fs k : json_tree (VObj fs) = true -> json_tree (VObj (fdelete fs k)) = true.
Proof.
  rewrite !tree_obj. intros [Hn H]. split; [by apply NoDup_keys_fdelete|].
  apply Forall_forall. intros kv [_ Hin]%list_elem_of_filter. rewrite Forall_forall in H. by apply H.
Qed.

(** Setting a property again, or deleting what was set. *)
Lemma freplace_twice fs k v w : freplace (freplace fs k v) k w = freplace fs k w.
Proof.
  induction fs as [|[k' v'] fs IH]; [done|]. cbn [freplace]. destruct (k' =s= k) eqn:E; cbn [freplace]; rewrite E; [done|by rewrite IH].
Qed.

Lemma freplace_finsert fs k v w : fhas fs k = false -> freplace (finsert fs k v) k w = finsert fs k w.
Proof.
  induction fs as [|[k' v'] fs IH]; cbn [fhas finsert]; intros H; [cbn [freplace]; by rewrite str_eqb_refl|].
  apply orb_false_iff in H as [E H]. destruct (key_precedes k k'); cbn [freplace]; [by rewrite str_eqb_refl|].
  by rewrite E, IH.
Qed.

Lemma fhas_fset fs k v : fhas (fset fs k v) k = true.
Proof. apply fhas_elem, elem_of_keys_fset. by left. Qed.

Lemma fset_twice fs k v w : fset (fset fs k v) k w = fset fs k w.
Proof.
  unfold fset at 1. rewrite fhas_fset. unfold fset. destruct (fhas fs k) eqn:E; [apply freplace_twice|by apply freplace_finsert].
Qed.

Lemma fset_same fs k : fhas fs k = true -> fset fs k (fget fs k) = fs.
Proof.
  intros H. unfold fset. rewrite H. induction fs as [|[k' v'] fs IH]; [done|]. cbn [fhas fget freplace] in *.
  destruct (k' =s= k); [done|]. by rewrite IH.
Qed.

Lemma fdelete_cons k' v fs k : fdelete ((k', v) :: fs) k = if k' =s= k then fdelete fs k else (k', v) :: fdelete fs k.
Proof.
  unfold fdelete. rewrite filter_cons. cbn [fst]. destruct (k' =s= k) eqn:E.
  - apply str_eqb_eq in E as ->. by case_decide.
  - apply str_eqb_neq in E. by case_decide.
Qed.

Lemma fdelete_fset fs k v : fdelete (fset fs k v) k = fdelete fs k.
Proof.
  unfold fset. destruct (fhas fs k) eqn:H.
  - induction fs as [|[k' v'] fs IH]; [done|]. cbn [fhas freplace] in *. destruct (k' =s= k) eqn:E; rewrite !fdelete_cons, E; [done|].
    by rewrite IH.
  - clear H. induction fs as [|[k' v'] fs IH]; cbn [finsert]; [by rewrite fdelete_cons, str_eqb_refl|].
    destruct (key_precedes k k'); rewrite !fdelete_cons; [by rewrite str_eqb_refl|]. by rewrite IH.
Qed.

(** ** The servers of a configuration *)
Definition servers (config : jsval) : jsval := vget config "mcpServers".

(** There is no list of servers, or it is an object. *)
Definition servers_ok (config : jsval) : bool := is_undef (servers config) || is_record (servers config).

Lemma ensure_servers fs create :
  ensureContainer (VObj fs) MCP_CONTAINER_PATH create =
  let found := fget fs "mcpServers" in
  if is_undef found && negb create then Ok None
  else
    let child := if is_undef found then VObj [] else found in
    throw_if negb (is_record child)
      with PlainError "Invalid connector config: mcpServers is not an object.";
    Ok (Some (child, λ c, VObj (fset fs "mcpServers" c))).
Proof. reflexivity. Qed.

Lemma undef_fields v : is_undef v = true -> own_fields v = [].
Proof. by destruct v. Qed.

Lemma tree_servers fs : json_tree (VObj fs) = true -> json_tree (VObj (own_fields (fget fs "mcpServers"))) = true.
Proof.
  intros H. destruct (fhas fs "mcpServers") eqn:E; [|by rewrite (fhas_false_fget _ _ E)].
  pose proof (tree_fget _ _ H E) as Ht. destruct (fget fs "mcpServers") as [| | | | | | | |? ?|? | | |]; done.
Qed.

(** The container of a tree is a plain object. *)
Lemma tree_container fs : json_tree (VObj fs) = true -> is_record (fget fs "mcpServers") = true ->
  fget fs "mcpServers" = VObj (own_fields (fget fs "mcpServers")) /\ fhas fs "mcpServers" = true.
Proof.
  intros H Hr. destruct (fhas fs "mcpServers") eqn:E; [|by rewrite (fhas_false_fget _ _ E) in Hr].
  pose proof (tree_fget _ _ H E) as Ht. split; [|done].
  destruct (fget fs "mcpServers") as [| | | | | | | |? ?|? | | |]; try discriminate Ht; try discriminate Hr. done.
Qed.

Lemma apply_server fs name entry next :
  json_tree (VObj fs) = true -> json_tree entry = true -> name <> PROTO ->
  (applyServer (VObj fs) MCP_CONTAINER_PATH name entry = Ok next) <->
  servers_ok (VObj fs) = true /\
  next = VObj (fset fs "mcpServers" (VObj (fset (own_fields (fget fs "mcpServers")) name entry))).
Proof.
  intros Hf He Hn. unfold applyServer. rewrite !clone_ok by done. cbn [res_bind]. rewrite ensure_servers. cbn zeta.
  cbn [negb]. rewrite andb_false_r. unfold servers_ok, servers, vget. cbn [own_fields].
  destruct (is_undef (fget fs "mcpServers")) eqn:E.
  - rewrite (undef_fields _ E). cbn [is_record negb orb res_bind own_fields]. unfold assign.
    rewrite (proj2 (str_eqb_neq _ _) Hn). split; [by intros [= <-]|by intros [_ ->]].
  - cbn [orb]. destruct (is_record (fget fs "mcpServers")); cbn [negb res_bind]; [|split; [done|by intros [? _]]].
    unfold assign. rewrite (proj2 (str_eqb_neq _ _) Hn). split; [by intros [= <-]|by intros [_ ->]].
Qed.

Lemma remove_server fs name :
  json_tree (VObj fs) = true -> servers_ok (VObj fs) = true ->
  removeServer (VObj fs) MCP_CONTAINER_PATH name =
  Ok (if fhas (own_fields (fget fs "mcpServers")) name
      then VObj (fset fs "mcpServers" (VObj (fdelete (own_fields (fget fs "mcpServers")) name))) else VObj fs).
Proof.
  intros Hf Hs. unfold removeServer. rewrite clone_ok by done. cbn [res_bind]. rewrite ensure_servers. cbn zeta.
  cbn [negb]. rewrite andb_true_r. unfold servers_ok, servers, vget in Hs. cbn [own_fields] in Hs.
  destruct (is_undef (fget fs "mcpServers")) eqn:E; [by rewrite (undef_fields _ E)|]. cbn [orb] in Hs. rewrite Hs.
  cbn [negb res_bind]. by destruct (fhas _ _).
Qed.

(** ** The entry of the server *)

(** Properties that are texts, under names that are no prototype. *)
Definition text_fields (fs : obj) : Prop :=
  NoDup (keys fs) /\ (PROTO ∉ keys fs) /\ Forall (λ kv : jstr * jsval, (exists s, kv.2 = VStr s)) fs.

Lemma text_assign fs k s : text_fields fs -> text_fields (assign fs k (VStr s)).
Proof.
  intros (H1 & H2 & H3). unfold assign. destruct (k =s= PROTO) eqn:E; [done|]. apply str_eqb_neq in E. split_and!.
  - by apply NoDup_keys_fset.
  - rewrite elem_of_keys_fset. intros [Hk|]; [by apply E|done].
  - apply (Forall_fset (λ v, exists s, v = VStr s)); [done|by exists s].
Qed.

Lemma text_env env : text_fields (env_texts env).
Proof.
  unfold env_texts. destruct (is_record env); [|by split_and!; [apply NoDup_nil_2|apply not_elem_of_nil|]].
  assert (text_fields []) as H by (split_and!; [apply NoDup_nil_2|apply not_elem_of_nil|done]). revert H.
  generalize ([] : obj). induction (spread_of env) as [|kv l IH]; intros out H; [done|]. cbn [foldl]. apply IH.
  destruct (is_nullish kv.2); [done|by apply text_assign].
Qed.

Lemma text_tree fs : text_fields fs -> json_tree (VObj fs) = true.
Proof.
  intros (H1 & _ & H3). apply tree_obj. split; [done|]. eapply Forall_impl; [exact H3|]. by intros kv [s ->].
Qed.

(** Reading the texts of an environment again gives the same texts. *)
Lemma env_texts_spread fs : text_fields fs -> env_texts (VObj fs) = spread [] fs.
Proof.
  intros (_ & Hp & H). unfold env_texts, spread. cbn [is_record spread_of own_fields]. generalize ([] : obj).
  induction H as [|[k v] fs [s Hs] _ IH]; intros out; [done|]. cbn [fst snd] in *. subst v. cbn [foldl is_nullish to_str fst snd].
  unfold keys in Hp. rewrite fmap_cons, not_elem_of_cons in Hp. destruct Hp as [Hk Hp]. unfold assign at 2. cbn [fst] in Hk.
  rewrite (proj2 (str_eqb_neq k PROTO)) by congruence. by apply IH.
Qed.

Lemma flast_nodup fs k : NoDup (keys fs) -> default VUndef (flast fs k) = fget fs k.
Proof.
  induction fs as [|[k' v] fs IH]; [done|]. unfold keys in *. rewrite fmap_cons. intros [Hn Hd]%NoDup_cons.
  cbn [flast fget]. specialize (IH Hd). destruct (k' =s= k) eqn:E.
  - apply str_eqb_eq in E as ->. rewrite fhas_false_flast; [done|]. apply not_true_iff_false. by rewrite fhas_elem.
  - by destruct (flast fs k).
Qed.

Lemma env_texts_again fs : text_fields fs -> jsonEqual (VObj (env_texts (VObj fs))) (VObj fs) = true.
Proof.
  intros H. rewrite env_texts_spread by done. pose proof H as (Hn & _ & Ht).
  assert (NoDup (keys (spread [] fs))) as Hn' by (apply NoDup_keys_spread, NoDup_nil_2).
  assert (keys (spread [] fs) ≡ₚ keys fs) as Hp.
  { apply NoDup_Permutation; [done|done|]. intros k. rewrite elem_of_keys_spread. split; [by intros [?%elem_of_nil|]|by right]. }
  apply equal_fields.
  - apply Permutation_length in Hp. unfold keys in Hp. by rewrite !length_fmap in Hp.
  - apply Forall_forall. intros kv Hin. assert (kv.1 ∈ keys fs) as Hk.
    { rewrite <- Hp. apply list_elem_of_fmap. by exists kv. }
    split; [by apply fhas_elem|]. rewrite <- (fget_in _ _ Hn' Hin), fget_spread. cbn [fget]. rewrite flast_nodup by done.
    apply equal_refl. apply tree_fget; [by apply text_tree|by apply fhas_elem].
Qed.

Lemma array_texts_tree v : exists l, array_texts v = VArr l /\ json_tree (VArr l) = true /\ array_texts (VArr l) = VArr l.
Proof.
  destruct v as [| | | | | |items| | | | | |]; try (by exists []). eexists. split; [reflexivity|]. split.
  - cbn [json_tree]. apply forallb_forall. by intros x (y & <- & _)%in_map_iff.
  - cbn [array_texts]. f_equal. rewrite map_map. by apply map_ext.
Qed.

Section plans.
Context {Hst : Host} {N : Node}.

Lemma entry_shape options entry :
  serverEntryFromOptions options = Ok entry ->
  exists command args env bundle,
    entry = VObj [("command" : jstr, VStr command); ("args" : jstr, VArr args); ("env" : jstr, VObj env)] /\
    json_tree (VArr args) = true /\ array_texts (VArr args) = VArr args /\ text_fields env /\
    fget env "ENIGMA_BUNDLE" = VStr bundle.
Proof.
  unfold serverEntryFromOptions. cbn zeta. intros H. inv_res. subst.
  destruct (array_texts_tree (fget options "args")) as (args & -> & H1 & H2).
  do 4 eexists. split; [reflexivity|]. split_and!; [done|done|apply text_assign, text_env|].
  unfold assign. change (("ENIGMA_BUNDLE" : jstr) =s= PROTO) with false. cbn iota. rewrite fget_fset, str_eqb_refl. reflexivity.
Qed.

Lemma entry_tree options entry : serverEntryFromOptions options = Ok entry -> json_tree entry = true.
Proof.
  intros (command & args & env & bundle & -> & H1 & _ & H2 & _)%entry_shape.
  apply tree_obj. split; [by apply (bool_decide_eq_true _)|]. apply Forall_cons; split; [done|].
  apply Forall_cons; split; [done|]. apply Forall_cons; split; [by apply text_tree|apply Forall_nil_2].
Qed.

(** What an entry that was just made says of itself. *)
Lemma entry_configured fs profile name options entry :
  pr_server_container_path profile = MCP_CONTAINER_PATH -> serverEntryFromOptions options = Ok entry ->
  is_record (fget fs "mcpServers") = true -> vget (fget fs "mcpServers") name = entry ->
  exists st, installedState (VObj fs) profile name options = Ok st /\
    recommendedConnectorAction true st None = "already_configured" /\
    (vget (vget entry "env") "ENIGMA_BUNDLE" <> VStr [] -> connectorRepairReasons true st None = []).
Proof.
  intros Hp He Hr Hg. unfold installedState. rewrite Hp, ensure_servers. cbn zeta. cbn [negb]. rewrite andb_true_r.
  assert (is_undef (fget fs "mcpServers") = false) as -> by by destruct (fget fs "mcpServers").
  rewrite Hr. cbn [negb res_bind]. rewrite Hg, He. apply entry_shape in He as (command & args & env & bundle & -> & H1 & H2 & H3 & H4).
  cbn [is_record negb res_bind]. eexists. split; [reflexivity|].
  change (vget (VObj _) "command") with (VStr command). change (vget (VObj _) "args") with (VArr args).
  change (vget (VObj _) "env") with (VObj env). rewrite H2, env_texts_again, equal_refl by done.
  unfold recommendedConnectorAction, connectorRepairReasons. cbn [negb is_installed is_commandOk is_argsOk is_envOk andb app
    is_bundleEnvPresent is_bundleEnvOk]. cbn [JsValue.seq]. rewrite str_eqb_refl. cbn [andb]. split; [done|].
  unfold vget. cbn [own_fields]. rewrite env_texts_spread, fget_spread by done. cbn [fget]. pose proof H3 as (Hn & _).
  rewrite flast_nodup, H4 by done. intros Hb. rewrite (proj2 (str_eqb_neq bundle [])) by congruence. by rewrite str_eqb_refl.
Qed.

Lemma profile_container id options profile :
  getClientProfile id options = Ok profile -> pr_server_container_path profile = MCP_CONTAINER_PATH.
Proof. unfold getClientProfile. cbn zeta. intros H. inv_res. destruct (find_client _); inv_res. by subst. Qed.

Lemma plan_unchanged action profile options exists_ config backup :
  json_tree config = true ->
  let p := plan_for action profile options exists_ config config backup in
  pl_changed p = false /\ pl_plannedWrites p = [].
Proof.
  intros H. cbn. rewrite equal_refl by done. cbn [negb]. split; [done|]. unfold plannedWritesFor. by rewrite orb_true_r.
Qed.

(** ** A plan to connect *)
Section connect.
Context (clientId : jstr) (options : obj) (exists_ : bool) (config : jsval) (backup : option jstr) (p : plan).
Hypothesis config_tree : json_tree config = true.
Hypothesis config_record : is_record config = true.
Hypothesis connected : connectPlan clientId options exists_ config backup = Ok p.
Hypothesis name_ok : pl_serverName p <> PROTO.

(** The next configuration. *)
Lemma connect_shape :
  exists fs profile entry,
    config = VObj fs /\ getClientProfile (VStr clientId) (VObj options) = Ok profile /\
    serverEntryFromOptions options = Ok entry /\ pl_serverName p = serverNameFor options profile /\
    pl_config p = VObj (fset fs "mcpServers" (VObj (fset (own_fields (fget fs "mcpServers")) (pl_serverName p) entry))) /\
    json_tree (pl_config p) = true.
Proof.
  destruct config as [| | | | | | |fs|? ?| | | |]; try discriminate config_tree; try discriminate config_record.
  pose proof connected as H. unfold connectPlan in H. inv_res. rename x into profile, x0 into entry, x1 into next.
  cbn [plan_for pl_serverName pl_config] in *. rewrite (profile_container _ _ _ H0) in *.
  pose proof (entry_tree _ _ H1) as He. apply apply_server in H2 as [_ ->]; [|done..].
  exists fs, profile, entry. split_and!; [done..|]. by apply tree_fset; [|apply tree_fset; [apply tree_servers|]].
Qed.

(** Connecting once more. *)
Lemma connect_again ex b :
  exists p', connectPlan clientId options ex (pl_config p) b = Ok p' /\
    pl_config p' = pl_config p /\ pl_changed p' = false /\ pl_plannedWrites p' = [].
Proof.
  destruct connect_shape as (fs & profile & entry & _ & Hp & He & En & Ec & Hj). unfold connectPlan. rewrite Hp, He.
  cbn [res_bind]. rewrite (profile_container _ _ _ Hp), <- En.
  assert (applyServer (pl_config p) MCP_CONTAINER_PATH (pl_serverName p) entry = Ok (pl_config p)) as ->.
  { rewrite Ec in Hj |- *. apply apply_server; [done|by eapply entry_tree|done|]. unfold servers_ok, servers, vget.
    cbn [own_fields]. rewrite fget_fset, str_eqb_refl. cbn [own_fields]. by rewrite !fset_twice. }
  cbn [res_bind]. eexists. split; [reflexivity|]. split; [done|]. by apply plan_unchanged.
Qed.

(** The state of the installation. *)
Lemma connect_state :
  exists profile entry st,
    getClientProfile (VStr clientId) (VObj options) = Ok profile /\ serverEntryFromOptions options = Ok entry /\
    installedState (pl_config p) profile (pl_serverName p) options = Ok st /\
    recommendedConnectorAction true st None = "already_configured" /\
    (vget (vget entry "env") "ENIGMA_BUNDLE" <> VStr [] -> connectorRepairReasons true st None = []).
Proof.
  destruct connect_shape as (fs & profile & entry & _ & Hp & He & _ & Ec & _). exists profile, entry. rewrite Ec.
  edestruct (entry_configured (fset fs "mcpServers" (VObj (fset (own_fields (fget fs "mcpServers")) (pl_serverName p) entry)))
    profile (pl_serverName p)) as (st & H); [by eapply profile_container|done| | |by exists st].
  - by rewrite fget_fset, str_eqb_refl.
  - rewrite fget_fset, str_eqb_refl. unfold vget. cbn [own_fields]. by rewrite fget_fset, str_eqb_refl.
Qed.

(** The list of servers of a configuration that was connected is a record or missing. *)
Lemma connected_servers : servers_ok config = true.
Proof.
  destruct connect_shape as (fs & profile & entry & Hc & Hp & He & En & _). pose proof connected as H.
  unfold connectPlan in H. rewrite Hp, He in H. cbn [res_bind] in H. apply res_bind_ok in H as (next & Hn & _).
  rewrite (profile_container _ _ _ Hp) in Hn. rewrite Hc in *. apply apply_server in Hn as [Hs _]; [done|done|by eapply entry_tree|].
  by rewrite <- En.
Qed.
End connect.

Lemma servers_back config :
  json_tree config = true -> is_record config = true -> servers_ok config = true ->
  VObj (fset (own_fields config) "mcpServers" (VObj (own_fields (servers config))))
  = if fhas (own_fields config) "mcpServers" then config else VObj (fset (own_fields config) "mcpServers" (VObj [])).
Proof.
  intros Hj Hr Hs. destruct config as [| | | | | | |fs|? ?| | | |]; try discriminate Hj; try discriminate Hr.
  unfold servers_ok, servers, vget in *. cbn [own_fields] in *. destruct (fhas fs "mcpServers") eqn:E.
  - assert (is_record (fget fs "mcpServers") = true) as Hrec.
    { pose proof (tree_fget _ _ Hj E) as Ht. by destruct (fget fs "mcpServers"). }
    destruct (tree_container _ Hj Hrec) as [Hc _]. rewrite <- Hc. f_equal. by apply fset_same.
  - by rewrite (fhas_false_fget _ _ E).
Qed.

(** C7 Connecting a client does what it says and can be undone.  The plan puts the entry of
    the options under the name of the server and leaves every other property and every
    other server as it was; connecting once more with the same options plans no change, and
    the state of the installation is [already_configured].  Disconnecting then removes the
    entry under that name, and leaves every other property and every other server as it
    was before connecting.  If there was no entry under the name, the configuration that
    results is the one before connecting when it had a list of servers, and that
    configuration with an empty list of servers when it had none. *)
Theorem connect_disconnect_restores clientId options exists_ config backup p :
  json_tree config = true -> is_record config = true ->
  connectPlan clientId options exists_ config backup = Ok p -> pl_serverName p <> PROTO ->
  exists profile entry,
    getClientProfile (VStr clientId) (VObj options) = Ok profile /\ serverEntryFromOptions options = Ok entry /\
    vget (servers (pl_config p)) (pl_serverName p) = entry /\
    (forall k : jstr, k <> "mcpServers" -> vget (pl_config p) k = vget config k) /\
    (forall k, k <> pl_serverName p -> vget (servers (pl_config p)) k = vget (servers config) k) /\
    (forall ex b, exists p', connectPlan clientId options ex (pl_config p) b = Ok p' /\
       pl_config p' = pl_config p /\ pl_changed p' = false /\ pl_plannedWrites p' = []) /\
    (exists st, installedState (pl_config p) profile (pl_serverName p) options = Ok st /\
       recommendedConnectorAction true st None = "already_configured") /\
    (forall ex b, exists p', disconnectPlan clientId options ex (pl_config p) b = Ok p' /\
       pl_config p' = VObj (fset (own_fields config) "mcpServers"
                              (VObj (fdelete (own_fields (servers config)) (pl_serverName p)))) /\
       (forall k : jstr, k <> "mcpServers" -> vget (pl_config p') k = vget config k) /\
       fhas (own_fields (servers (pl_config p'))) (pl_serverName p) = false /\
       (forall k, k <> pl_serverName p -> vget (servers (pl_config p')) k = vget (servers config) k) /\
       (fhas (own_fields (servers config)) (pl_serverName p) = false ->
          pl_config p' = if fhas (own_fields config) "mcpServers" then config
                         else VObj (fset (own_fields config) "mcpServers" (VObj [])))).
Proof.
  intros Hj Hr H Hproto. destruct (connect_shape _ _ _ _ _ _ Hj Hr H Hproto) as (fs & profile & entry & -> & Hp & He & En & Ec & Hj').
  destruct (connect_state _ _ _ _ _ _ Hj Hr H Hproto) as (profile' & entry' & st & Hp' & _ & Hi & Ha & _).
  rewrite Hp in Hp'. injection Hp' as <-. exists profile, entry. set (name := pl_serverName p) in *.
  split; [done|]. split; [done|]. assert (servers (pl_config p) = VObj (fset (own_fields (fget fs "mcpServers")) name entry)) as Hl.
  { rewrite Ec. unfold servers, vget. cbn [own_fields]. by rewrite fget_fset, str_eqb_refl. }
  rewrite Hl. unfold servers, vget. cbn [own_fields]. split_and!.
  - by rewrite fget_fset, str_eqb_refl.
  - intros k Hk. rewrite Ec. cbn [own_fields]. rewrite fget_fset. by rewrite (proj2 (str_eqb_neq _ k)) by congruence.
  - intros k Hk. rewrite fget_fset. by rewrite (proj2 (str_eqb_neq name k)) by congruence.
  - exact (connect_again _ _ _ _ _ _ Hj Hr H Hproto).
  - by exists st.
  - intros ex b. unfold disconnectPlan. rewrite Hp. cbn [res_bind]. rewrite (profile_container _ _ _ Hp), <- En. fold name.
    rewrite Ec in Hj' |- *. rewrite remove_server; [|done|unfold servers_ok, servers, vget; cbn [own_fields]; by rewrite fget_fset, str_eqb_refl].
    rewrite fget_fset, str_eqb_refl. cbn [own_fields]. rewrite fhas_fset, fdelete_fset, fset_twice. cbn [res_bind].
    eexists. split; [reflexivity|]. cbn [plan_for pl_config]. split; [done|]. split; [|split; [|split]].
    + intros k Hk. unfold vget. cbn [own_fields]. rewrite fget_fset. by rewrite (proj2 (str_eqb_neq _ k)) by congruence.
    + cbn [own_fields]. rewrite fget_fset, str_eqb_refl. cbn [own_fields].
      destruct (fhas (fdelete _ _) name) eqn:E; [|done]. apply fhas_elem, elem_of_keys_fdelete in E as [_ []]. done.
    + intros k Hk. cbn [own_fields]. rewrite fget_fset, str_eqb_refl. cbn [own_fields].
      rewrite fget_fdelete. by rewrite (proj2 (str_eqb_neq name k)) by congruence.
    + intros Hn. rewrite fdelete_absent by by rewrite <- fhas_elem, Hn.
      apply (servers_back (VObj fs)); [done|done|]. eapply connected_servers; eassumption.
Qed.
End plans.
