(* ===== verification/ConnectorFilesSafety.v ===== *)
(** * Connectors: what a crash leaves

    However the calls on the file system end, and wherever the process stops, the
    configuration of a client is the old one or the new one as a whole, and no other file
    that was there is touched but the temporary one; a call that returns has kept the old
    text under a name that was free.  The proofs run the calls by Hoare triples that speak of
    every state on the way. *)

From stdpp Require Import gmap.
From S2P Require Import Prelude JsValue Regex Canonical Hashing Dates VaultPublic Vault Settlement Connectors ConnectorFiles.

(** ** Triples *)

(** A call fails for want of a file only when there is none. *)
Definition honest (d : disk) : Prop :=
  Forall (λ o, match o with Done => True | Fails e _ => has_code "ENOENT" e = false end) (dk_outcomes d).

(** From the files [f], [m] passes through states in [I] and ends in [Q]. *)
Definition triple {A : Type} (f : files) (m : IO A) (I : files -> Prop) (Q : A + failure -> files -> Prop) : Prop :=
  forall d, honest d -> dk_files d = f ->
    honest (m d).2 /\ Q (m d).1 (dk_files (m d).2) /\
    exists l, dk_seen (m d).2 = dk_seen d ++ l /\ Forall I l.

Section triples.
Context (I : files -> Prop).

Lemma t_ret {A : Type} f (a : A) (Q : A + failure -> files -> Prop) : Q (inl a) f -> triple f (io_ret a) I Q.
Proof. intros H d Hd <-. split_and!; [done|done|]. exists []. by rewrite app_nil_r. Qed.

Lemma t_throw {A : Type} f e (Q : A + failure -> files -> Prop) : Q (inr e) f -> triple f (io_throw e) I Q.
Proof. intros H d Hd <-. split_and!; [done|done|]. exists []. by rewrite app_nil_r. Qed.

Lemma t_lift {A : Type} f (m : res A) (Q : A + failure -> files -> Prop) :
  (forall a, m = Ok a -> Q (inl a) f) -> (forall e, m = Throw e -> Q (inr {| f_exn := e; f_code := None |}) f) ->
  triple f (io_lift m) I Q.
Proof. intros Ha He. destruct m; [apply t_ret|apply t_throw]; auto. Qed.

Lemma t_bind {A B : Type} f (m : IO A) (k : A -> IO B) R (Q : B + failure -> files -> Prop) :
  triple f m I R -> (forall a f', R (inl a) f' -> triple f' (k a) I Q) ->
  (forall e f', R (inr e) f' -> Q (inr e) f') -> triple f (io_bind m k) I Q.
Proof.
  intros Hm Hk He d Hd Hf. destruct (Hm d Hd Hf) as (H1 & H2 & l & H3 & H4). unfold io_bind.
  destruct (m d) as [[a|e] d'] eqn:E; cbn [fst snd] in *; [|by eauto 6].
  destruct (Hk _ _ H2 d' H1 eq_refl) as (K1 & K2 & l' & K3 & K4). split_and!; [done|done|].
  exists (l ++ l'). by rewrite K3, H3, app_assoc, Forall_app.
Qed.

Lemma t_catch {A : Type} f (m : IO A) h R (Q : A + failure -> files -> Prop) :
  triple f m I R -> (forall a f', R (inl a) f' -> Q (inl a) f') ->
  (forall e f', R (inr e) f' -> triple f' (h e) I Q) -> triple f (io_catch m h) I Q.
Proof.
  intros Hm Ha Hh d Hd Hf. destruct (Hm d Hd Hf) as (H1 & H2 & l & H3 & H4). unfold io_catch.
  destruct (m d) as [[a|e] d'] eqn:E; cbn [fst snd] in *; [by eauto 6|].
  destruct (Hh _ _ H2 d' H1 eq_refl) as (K1 & K2 & l' & K3 & K4). split_and!; [done|done|].
  exists (l ++ l'). by rewrite K3, H3, app_assoc, Forall_app.
Qed.

Lemma t_conseq {A : Type} f (m : IO A) (R Q : A + failure -> files -> Prop) :
  triple f m I R -> (forall r f', R r f' -> Q r f') -> triple f m I Q.
Proof. intros Hm H d Hd Hf. destruct (Hm d Hd Hf) as (H1 & H2 & H3). eauto. Qed.

Lemma t_get f (Q : files + failure -> files -> Prop) : Q (inl f) f -> triple f get_files I Q.
Proof. intros H d Hd <-. split_and!; [done|done|]. exists []. by rewrite app_nil_r. Qed.

Lemma t_pass f through f' (Q : unit + failure -> files -> Prop) :
  Forall I through -> I f' -> Q (inl tt) f' -> triple f (pass through f') I Q.
Proof.
  intros H1 H2 H d Hd _. split_and!; [done|done|]. exists (through ++ [f']). split; [done|].
  apply Forall_app. split; [done|by apply Forall_singleton].
Qed.

(** The next call. *)
Lemma t_outcome {A : Type} f (k : outcome -> IO A) (Q : A + failure -> files -> Prop) :
  triple f (k Done) I Q -> (forall e n, has_code "ENOENT" e = false -> triple f (k (Fails e n)) I Q) ->
  triple f (io_bind next_outcome k) I Q.
Proof.
  intros H1 H2. apply t_bind with (λ r f', f' = f /\ match r with
    | inl Done => True | inl (Fails e _) => has_code "ENOENT" e = false | inr _ => False end).
  - intros d Hd Hf. unfold next_outcome. destruct (dk_outcomes d) as [|o l] eqn:E; cbn [fst snd].
    + split_and!; [done|done|done|]. exists []. by rewrite app_nil_r.
    + unfold honest in Hd. rewrite E in Hd. apply Forall_cons in Hd as [Ho Hl].
      split_and!; [done|done|by destruct o|]. exists []. by rewrite app_nil_r.
  - intros [|e n] f' [-> H]; auto.
  - by intros e f' [_ []].
Qed.

Lemma t_call {A : Type} f (k : IO A) (Q : A + failure -> files -> Prop) :
  triple f k I Q -> (forall e, has_code "ENOENT" e = false -> Q (inr e) f) -> triple f (fs_call k) I Q.
Proof. intros Hk He. apply t_outcome; [done|]. intros e n H. by apply t_throw, He. Qed.

Lemma t_contents f path (Q : jstr + failure -> files -> Prop) :
  (forall text, f !! path = Some text -> Q (inl text) f) -> (f !! path = None -> Q (inr (no_entry path)) f) ->
  triple f (contents path) I Q.
Proof.
  intros H1 H2. unfold contents. apply t_bind with (λ r f', r = inl f /\ f' = f); [by apply t_get| |by intros ? ? []].
  intros ? ? [[= ->] ->]. destruct (f !! path); [apply t_ret|apply t_throw]; auto.
Qed.

(** A call that writes: every prefix of the text may be left. *)
Lemma t_put f path text (Q : unit + failure -> files -> Prop) :
  (forall n, I (<[path := take n text]> f)) -> Q (inl tt) (<[path := text]> f) ->
  (forall e, Q (inr e) f) -> (forall e n, Q (inr e) (<[path := take n text]> f)) ->
  triple f (fs_put path text) I Q.
Proof.
  intros HI Hd He Hn. assert (forall n (R : unit + failure -> files -> Prop), R (inl tt) (<[path := take n text]> f) ->
    triple f (write_units path text n) I R) as Hw.
  { intros n R HR. unfold write_units. apply t_bind with (λ r f', r = inl f /\ f' = f); [by apply t_get| |by intros ? ? []].
    intros ? ? [[= ->] ->]. apply t_pass; [|done|done]. apply Forall_forall. intros m (k & <- & _)%list_elem_of_In%in_map_iff. apply HI. }
  apply t_outcome; [apply Hw; by rewrite firstn_all|]. intros e [n|] _; [|by apply t_throw].
  apply t_bind with (λ r f', r = inl tt /\ f' = <[path := take n text]> f); [by apply Hw| |by intros ? ? []].
  intros ? ? [_ ->]. by apply t_throw.
Qed.

Lemma t_rm f path (Q : unit + failure -> files -> Prop) :
  I (delete path f) -> Q (inl tt) (delete path f) -> (forall e, Q (inr e) f) -> triple f (fs_rm path) I Q.
Proof.
  intros HI H He. apply t_call; [|auto]. apply t_bind with (λ r f', r = inl f /\ f' = f); [by apply t_get| |by intros ? ? []].
  intros ? ? [[= ->] ->]. by apply t_pass.
Qed.

Lemma t_rename f from path text (Q : unit + failure -> files -> Prop) :
  f !! from = Some text -> I (<[path := text]> (delete from f)) -> Q (inl tt) (<[path := text]> (delete from f)) ->
  (forall e, Q (inr e) f) -> triple f (fs_rename from path) I Q.
Proof.
  intros Hf HI H He. apply t_call; [|auto].
  apply t_bind with (λ r f', r = inl text /\ f' = f); [apply t_contents; [|congruence]| |by intros ? ? []].
  { intros t. rewrite Hf. by intros [= ->]. }
  intros ? ? [[= ->] ->]. apply t_bind with (λ r f', r = inl f /\ f' = f); [by apply t_get| |by intros ? ? []].
  intros ? ? [[= ->] ->]. by apply t_pass.
Qed.
End triples.

(** ** Paths *)
Lemma app_longer (s a b : jstr) : a <> [] -> s <> s ++ a ++ b.
Proof. intros Ha E%(f_equal length). rewrite !length_app in E. destruct a; [done|]. cbn [length] in E. lia. Qed.

Section paths.
Context {C : Crypto} {Hst : Host} {P : Platform} {N : Node} {R : Readers}.

(** A name that a backup may get. *)
Definition backup_name (configPath backup : jstr) : Prop := exists s : jstr, backup = configPath +s+ ".bak." +s+ s.

Lemma temp_not_config configPath t : tempPathFor configPath t <> configPath.
Proof. intros E. by apply (app_longer configPath ".tmp." (units_of_string (pretty (t_pid t)) +s+ "." +s+ units_of_string (pretty (t_now t)) +s+ "." +s+ t_random t)). Qed.

Lemma backup_not_config configPath backup : backup_name configPath backup -> backup <> configPath.
Proof. intros [s ->] E. by apply (app_longer configPath ".bak." s). Qed.

Lemma backup_not_temp configPath backup t : backup_name configPath backup -> backup <> tempPathFor configPath t.
Proof. intros [s ->]. unfold tempPathFor. by intros H%app_inv_head. Qed.

Lemma candidate_name configPath t now base index :
  backupPathFor configPath t now = Ok base -> backup_name configPath (backup_candidate base index).
Proof.
  unfold backupPathFor. destruct (timestampSuffix t now) as [suffix|]; [|done]. intros [= <-].
  unfold backup_candidate. destruct (index =? 0)%nat; [by exists suffix|].
  eexists. by rewrite <- !app_assoc.
Qed.

(** ** Backups *)
Lemma t_first_unused I f configPath base turns : forall index,
  triple f (first_unused configPath base index turns) I (λ r f', f' = f /\ match r with
    | inl backup => f !! backup = None /\ exists i, backup = backup_candidate base i | inr _ => True end).
Proof.
  induction turns as [|turns IH]; intros index; [by apply t_throw|]. cbn [first_unused].
  set (candidate := backup_candidate base index).
  apply t_bind with (λ r f', f' = f /\ match r with inl true => f !! candidate = None | _ => True end).
  - apply t_catch with (λ r f', f' = f /\ match r with
      | inl free => free = false | inr e => has_code "ENOENT" e = true -> f !! candidate = None end).
    + apply t_bind with (λ r f', f' = f /\ match r with
        | inl _ => True | inr e => has_code "ENOENT" e = true -> f !! candidate = None end).
      * apply t_call; [|intros e ->; done]. apply t_bind with (λ r f', f' = f /\ match r with
          | inl _ => True | inr _ => f !! candidate = None end).
        -- by apply t_contents.
        -- intros text f' [-> _]. by apply t_ret.
        -- intros e f' [-> H]. done.
      * intros _ f' [-> _]. by apply t_ret.
      * done.
    + by intros a f' [-> ->].
    + intros e f' [-> H]. destruct (has_code "ENOENT" e); [apply t_ret|apply t_throw]; auto.
  - intros [] f' [-> H]; [|apply IH]. apply t_ret. split_and!; [done|done|by eexists].
  - by intros e f' [-> _].
Qed.

Lemma t_unusedBackupPath I f configPath t now :
  triple f (unusedBackupPath configPath t now) I (λ r f', f' = f /\ match r with
    | inl backup => f !! backup = None /\ backup_name configPath backup | inr _ => True end).
Proof.
  unfold unusedBackupPath. apply t_bind with (λ r f', f' = f /\ match r with
    | inl base => backupPathFor configPath t now = Ok base | inr _ => True end).
  - by apply t_lift.
  - intros base f' [-> Hb]. eapply t_conseq; [apply t_first_unused|]. intros [backup|e] f' [-> H]; [|done].
    destruct H as (H & i & ->). split_and!; [done|done|by eapply candidate_name].
  - by intros e f' [-> _].
Qed.

(** ** Reading *)
Lemma t_readJsonConfig I f configPath options :
  triple f (readJsonConfig configPath options) I (λ r f', f' = f /\ match r with
    | inl (exists_, config) => is_record config = true /\ (optionFileReader options = Ok None ->
        match f !! configPath with
        | Some text => exists_ = true /\ json_parse text = Ok config
        | None => exists_ = false /\ config = VObj []
        end)
    | inr _ => True end).
Proof.
  unfold readJsonConfig. apply t_bind with (λ r f', f' = f /\ match r with
    | inl text => optionFileReader options = Ok None -> text = f !! configPath | inr _ => True end).
  - apply t_catch with (λ r f', f' = f /\ (optionFileReader options = Ok None -> match r with
      | inl text => text = f !! configPath | inr e => has_code "ENOENT" e = true -> f !! configPath = None end)).
    + unfold read_text. apply t_bind with (λ r f', f' = f /\ (optionFileReader options = Ok None -> match r with
        | inl text => Some text = f !! configPath | inr e => has_code "ENOENT" e = true -> f !! configPath = None end)).
      * apply t_bind with (λ r f', f' = f /\ match r with
          | inl reader => optionFileReader options = Ok reader | inr _ => optionFileReader options <> Ok None end).
        -- apply t_lift; [done|]. intros e ->. done.
        -- intros [g|] f' [-> Hg].
           ++ rewrite Hg. destruct (call_reader g configPath) as [text|e]; [apply t_ret|apply t_throw]; done.
           ++ apply t_call; [|intros e ->; done]. apply t_contents; [|done]. intros text ->. done.
        -- intros e f' [-> H]. split; [done|]. intros E. contradiction.
      * intros text f' [-> H]. by apply t_ret.
      * done.
    + intros text f' [-> H]. done.
    + intros e f' [-> H]. destruct (has_code "ENOENT" e) eqn:E; [apply t_ret|by apply t_throw].
      split; [done|]. intros Ho. by rewrite (H Ho).
  - intros [text|] f' [-> H].
    + destruct (json_parse text) as [config|] eqn:E; [|by apply t_throw].
      destruct (is_record config) eqn:Er; [|by apply t_throw]. apply t_ret. split_and!; [done|done|].
      intros Ho. by rewrite <- (H Ho).
    + apply t_ret. split_and!; [done|done|]. intros Ho. by rewrite <- (H Ho).
  - by intros e f' [-> _].
Qed.

(** ** Writing *)

(** The configuration is the old one or the new one as a whole, and every other file that
    was there is as it was, but for the temporary one. *)
Definition intact (before : files) (configPath tempPath json : jstr) (m : files) : Prop :=
  (m !! configPath = before !! configPath \/ m !! configPath = Some json) /\
  forall path text, path <> configPath -> path <> tempPath -> before !! path = Some text -> m !! path = Some text.

(** The files after a plan was written. *)
Definition installed (before : files) (tempPath : jstr) (p : plan) (after : files) : Prop :=
  match pl_backupPath p with
  | Some backup => exists old, before !! pl_configPath p = Some old /\ before !! backup = None /\
      after = <[pl_configPath p := pl_generatedJson p]> (<[backup := old]> (delete tempPath before))
  | None => after = <[pl_configPath p := pl_generatedJson p]> (delete tempPath before)
  end.

Section write.
Context (before : files) (p : plan) (t : moment).
Let configPath := pl_configPath p.
Let tempPath := tempPathFor configPath t.
Let json := pl_generatedJson p.

Lemma intact_before : intact before configPath tempPath json before.
Proof. split; [by left|done]. Qed.

Lemma intact_temp m text : intact before configPath tempPath json m -> intact before configPath tempPath json (<[tempPath := text]> m).
Proof.
  intros [H1 H2]. split; [by rewrite lookup_insert_ne by apply temp_not_config|].
  intros path x Hc Ht Hx. rewrite lookup_insert_ne by congruence. eauto.
Qed.

Lemma intact_rm m : intact before configPath tempPath json m -> intact before configPath tempPath json (delete tempPath m).
Proof.
  intros [H1 H2]. split; [by rewrite lookup_delete_ne by apply temp_not_config|].
  intros path x Hc Ht Hx. rewrite lookup_delete_ne by congruence. eauto.
Qed.

Lemma intact_backup m backup text : backup_name configPath backup -> before !! backup = None ->
  intact before configPath tempPath json m -> intact before configPath tempPath json (<[backup := text]> m).
Proof.
  intros Hb Hn [H1 H2]. split; [by rewrite lookup_insert_ne by by apply backup_not_config|].
  intros path x Hc Ht Hx. rewrite lookup_insert_ne by congruence. eauto.
Qed.

Lemma intact_config m : intact before configPath tempPath json m -> intact before configPath tempPath json (<[configPath := json]> m).
Proof.
  intros [H1 H2]. split; [right; by rewrite lookup_insert_eq|].
  intros path x Hc Ht Hx. rewrite lookup_insert_ne by congruence. eauto.
Qed.

Let I := intact before configPath tempPath json.

(** Nothing was installed: the configuration is the old one. *)
Definition unharmed (m : files) : Prop := I m /\ m !! configPath = before !! configPath.

Lemma unharmed_temp m text : unharmed m -> unharmed (<[tempPath := text]> m).
Proof. intros [H1 H2]. split; [by apply intact_temp|]. by rewrite lookup_insert_ne by apply temp_not_config. Qed.

Lemma unharmed_rm m : unharmed m -> unharmed (delete tempPath m).
Proof. intros [H1 H2]. split; [by apply intact_rm|]. by rewrite lookup_delete_ne by apply temp_not_config. Qed.

Lemma unharmed_backup m backup text : backup_name configPath backup -> before !! backup = None ->
  unharmed m -> unharmed (<[backup := text]> m).
Proof. intros Hb Hn [H1 H2]. split; [by apply intact_backup|]. by rewrite lookup_insert_ne by by apply backup_not_config. Qed.

(** Replacing the configuration, of which a backup is made exactly if it was there. *)
Lemma t_replace_config exists_ :
  (forall backup, pl_backupPath p = Some backup -> exists_ = true /\ backup_name configPath backup /\ before !! backup = None) ->
  triple before (replace_config p exists_ tempPath) I (λ r m, match r with
    | inl _ => installed before tempPath p m /\ I m | inr _ => unharmed m end).
Proof.
  intros Hb. assert (unharmed before) as H0 by (split; [apply intact_before|done]).
  unfold replace_config. fold configPath json. apply t_bind with (λ r m, match r with
    | inl _ => m = <[tempPath := json]> before | inr _ => unharmed m end).
  { apply t_put; [|done|done|]; intros; by apply unharmed_temp. }
  2: done. intros _ m1 ->. set (m1 := <[tempPath := json]> before).
  assert (m1 !! tempPath = Some json) as Hm1 by apply lookup_insert_eq.
  assert (unharmed m1) as H1 by by apply unharmed_temp.
  apply t_bind with (λ r m, match r with
    | inl _ => m !! tempPath = Some json /\ unharmed m /\ forall m', m' = <[configPath := json]> (delete tempPath m) -> installed before tempPath p m'
    | inr _ => unharmed m end); [| |done].
  - unfold installed. fold configPath json. destruct (pl_backupPath p) as [backup|] eqn:E.
    + destruct (Hb _ eq_refl) as (-> & Hn & Hf). assert (backup <> tempPath) as Hne by by apply backup_not_temp.
      apply t_bind with (λ r m, m = m1 /\ match r with inl old => before !! configPath = Some old | inr _ => True end).
      { apply t_contents; [|done]. intros old. unfold m1. by rewrite lookup_insert_ne by apply temp_not_config. }
      2: by intros e m [-> _]. intros old m [-> Ho].
      apply t_put; [intros n; by apply unharmed_backup|refine (conj _ (conj _ _))|done|intros; by apply unharmed_backup].
      * by rewrite lookup_insert_ne.
      * by apply unharmed_backup.
      * intros m' ->. refine (ex_intro _ old (conj Ho (conj Hf _))). unfold m1.
        by rewrite delete_insert_ne, delete_insert_eq by done.
    + apply t_ret. refine (conj Hm1 (conj H1 _)). intros m' ->. unfold m1. by rewrite delete_insert_eq.
  - intros _ m2 (Ht & H2 & Hi). assert (I (<[configPath := json]> (delete tempPath m2))) as Hm
      by (apply intact_config, intact_rm, H2). eapply t_rename; [exact Ht|exact Hm| |done]. split; [by apply Hi|exact Hm].
Qed.

Lemma t_writePlan exists_ :
  (pl_changed p = true -> forall backup, pl_backupPath p = Some backup ->
     exists_ = true /\ backup_name configPath backup /\ before !! backup = None) ->
  triple before (writePlan t p exists_) I (λ r m, match r with
    | inl p' => p' = p /\ I m /\ if pl_changed p && negb (pl_dryRun p) then installed before tempPath p m else m = before
    | inr _ => unharmed m end).
Proof.
  intros Hb. unfold writePlan. destruct (pl_changed p); cbn [negb orb andb]; [|by apply t_ret; split; [|split; [apply intact_before|]]].
  destruct (pl_dryRun p); cbn [negb]; [by apply t_ret; split; [|split; [apply intact_before|]]|].
  assert (unharmed before) as H0 by (split; [apply intact_before|done]).
  apply t_bind with (λ r m, m = before); [by apply t_call; [apply t_ret|]| |by intros e m ->].
  intros _ m ->. apply t_bind with (λ r m, match r with inl _ => installed before tempPath p m /\ I m | inr _ => unharmed m end);
    [|by intros _ m [H1 H2]; apply t_ret|done].
  eapply t_catch; [by apply t_replace_config, Hb|done|]. intros e m Hm.
  apply t_bind with (λ _ m, unharmed m); [|by intros _ m' Hm'; apply t_throw|done].
  apply t_rm; [by apply unharmed_rm|by apply unharmed_rm|done].
Qed.
End write.

(** ** Changing a configuration *)
Lemma plan_of_facts action clientId options configPath exists_ config p :
  plan_of action clientId (fset options "configPath" (VStr configPath)) exists_ config None = Ok p ->
  pl_configPath p = configPath /\ pl_backupPath p = None /\ pl_generatedJson p = stringifyConfig (pl_config p) /\
  pl_changed p = negb (jsonEqual config (pl_config p)).
Proof.
  assert (forall profile next a, let p := plan_for a profile (fset options "configPath" (VStr configPath)) exists_ config next None in
    pl_configPath p = configPath /\ pl_backupPath p = None /\ pl_generatedJson p = stringifyConfig (pl_config p) /\
    pl_changed p = negb (jsonEqual config (pl_config p))) as H.
  { intros profile next a. cbn. split_and!; [|by destruct (exists_ && _)|done|done].
    unfold configPathIn. by rewrite fget_fset, str_eqb_refl. }
  destruct action; cbn [plan_of]; unfold connectPlan, disconnectPlan; intros Hp; inv_res; subst; apply H.
Qed.

(** The plan was made for the configuration that was read, and only a backup was added. *)
Definition planned_from (before : files) (action : plan_action) (clientId : jstr) (options : obj) (configPath : jstr) (p : plan) : Prop :=
  exists exists_ config p0,
    plan_of action clientId (fset options "configPath" (VStr configPath)) exists_ config None = Ok p0 /\
    pl_config p = pl_config p0 /\ pl_serverName p = pl_serverName p0 /\ is_record config = true /\
    (optionFileReader options = Ok None ->
       match before !! configPath with Some text => json_parse text = Ok config | None => config = VObj [] end).

(** The plan of a change; nothing is written yet. *)
Definition planned (before : files) (options : obj) (configPath : jstr) (p : plan) (exists_ : bool) : Prop :=
  pl_configPath p = configPath /\ pl_generatedJson p = stringifyConfig (pl_config p) /\
  (forall backup, pl_backupPath p = Some backup -> exists_ = true /\ backup_name configPath backup /\ before !! backup = None) /\
  (optionFileReader options = Ok None -> pl_changed p = true -> pl_backupPath p = None -> before !! configPath = None).

Lemma t_plannedChange before action t a b :
  triple before (plannedChange action t a b) (λ _, False) (λ r m, m = before /\ match r with
    | inl (p, exists_) => exists clientId configPath options,
        target a b = Ok (clientId, configPath, options) /\ planned before options configPath p exists_ /\
        planned_from before action clientId options configPath p
    | inr _ => True end).
Proof.
  unfold plannedChange. eapply t_bind; [apply (t_lift _ _ _ (λ r m, m = before /\ match r with inl x => target a b = Ok x | inr _ => True end)); done| |by intros e m [-> _]].
  intros [[clientId configPath] options] m [-> Ht]. eapply t_bind; [apply t_readJsonConfig| |by intros e m [-> _]].
  intros [exists_ config] m [-> [Hrec Hr]].
  eapply t_bind; [apply (t_lift _ _ _ (λ r m, m = before /\ match r with
    | inl p => plan_of action clientId (fset options "configPath" (VStr configPath)) exists_ config None = Ok p | inr _ => True end)); done| |by intros e m [-> _]].
  intros p m [-> Hp]. pose proof Hp as (P1 & P2 & P3 & _)%plan_of_facts.
  assert (optionFileReader options = Ok None ->
    match before !! configPath with Some text => json_parse text = Ok config | None => config = VObj [] end) as Hc
    by (intros Ho; specialize (Hr Ho); destruct (before !! configPath); apply Hr).
  destruct (exists_ && pl_changed p) eqn:E.
  - apply andb_true_iff in E as [-> _]. eapply t_bind; [apply t_unusedBackupPath| |by intros e m [-> _]].
    intros backup m [-> [Hf Hn]]. apply t_ret. split; [done|]. exists clientId, configPath, options. split; [done|].
    split; [split_and!; [done|done|by intros ? [= <-]|done]|]. by exists true, config, p.
  - apply t_ret. split; [done|]. exists clientId, configPath, options. split; [done|].
    split; [|by exists exists_, config, p]. split_and!; [done|done|by rewrite P2|]. intros Ho Hch _. rewrite Hch, andb_true_r in E. specialize (Hr Ho).
    destruct (before !! configPath); [|done]. by destruct Hr as [-> _].
Qed.

(** A change plans first and then writes its plan. *)
Lemma change_runs action t a b d r d' :
  honest d -> changeClient action t a b d = (r, d') ->
  (exists e, r = inr e /\ dk_seen d' = dk_seen d /\ dk_files d' = dk_files d) \/
  exists p exists_ clientId configPath options l,
    target a b = Ok (clientId, configPath, options) /\ planned (dk_files d) options configPath p exists_ /\
    planned_from (dk_files d) action clientId options configPath p /\
    dk_seen d' = dk_seen d ++ l /\
    Forall (intact (dk_files d) configPath (tempPathFor configPath t) (pl_generatedJson p)) (l ++ [dk_files d']) /\
    match r with
    | inl p' => p' = p /\
        if pl_changed p && negb (pl_dryRun p) then installed (dk_files d) (tempPathFor configPath t) p (dk_files d')
        else dk_files d' = dk_files d
    | inr _ => dk_files d' !! configPath = dk_files d !! configPath
    end.
Proof.
  intros Hd H. unfold changeClient, io_bind in H. pose proof (t_plannedChange (dk_files d) action t a b d Hd eq_refl) as Hp.
  destruct (plannedChange action t a b d) as [[[p exists_]|e] d1]; cbn [fst snd] in Hp;
    destruct Hp as (Hd1 & [Hf Hp] & l1 & Hl1 & Hn);
    assert (l1 = []) as -> by (destruct l1; [done|by apply Forall_cons in Hn as [[] _]]); rewrite app_nil_r in Hl1.
  - right. destruct Hp as (clientId & configPath & options & Ht & Hp & Hfrom). exists p, exists_, clientId, configPath, options.
    pose proof Hp as (P1 & _ & P3 & _). pose proof (t_writePlan (dk_files d) p t exists_) as Hw. rewrite P1 in Hw.
    destruct (Hw (λ _, P3) d1 Hd1 Hf) as (_ & Hq & l & Hl & Hi). clear Hw. rewrite H in Hq, Hl. cbn [fst snd] in Hq, Hl.
    exists l. rewrite Hl1 in Hl. do 4 (split; [done|]). rewrite Forall_app, Forall_singleton.
    destruct r as [p'|e]; [by destruct Hq as (-> & Hm & Hq)|]. destruct Hq as [Hm Hq]. by rewrite P1 in Hm, Hq.
  - left. injection H as <- <-. by exists e.
Qed.

(** C6 Connecting and disconnecting a client is atomic.  Whatever calls on the file system
    fail and whatever they leave half written, every state the files pass through, so also
    the one a crash leaves, holds the configuration as it was or as the plan has it, and
    every other file that was there unchanged, but for the temporary one.  When the
    operation throws the configuration is the old one.  When it returns, a changed plan was
    installed: the configuration is the generated text, the temporary file is gone, and the
    old text is kept under a name that was free, unless there was no configuration; a plan
    that is unchanged or a dry run leaves the files as they were. *)
Theorem config_change_atomic action t a b d r d' :
  honest d -> changeClient action t a b d = (r, d') ->
  exists configPath json l,
    (forall x, target a b = Ok x -> x.1.2 = configPath) /\
    dk_seen d' = dk_seen d ++ l /\
    Forall (intact (dk_files d) configPath (tempPathFor configPath t) json) (l ++ [dk_files d']) /\
    match r with
    | inr _ => dk_files d' !! configPath = dk_files d !! configPath
    | inl p =>
        pl_configPath p = configPath /\ pl_generatedJson p = json /\ json = stringifyConfig (pl_config p) /\
        if pl_changed p && negb (pl_dryRun p) then
          installed (dk_files d) (tempPathFor configPath t) p (dk_files d') /\
          (forall x, target a b = Ok x -> optionFileReader x.2 = Ok None ->
             pl_backupPath p = None -> dk_files d !! configPath = None)
        else dk_files d' = dk_files d
    end.
Proof.
  intros Hd H. destruct (change_runs _ _ _ _ _ _ _ Hd H) as [(e & -> & Hs & Hf)|Hr].
  - exists (match target a b with Ok x => x.1.2 | Throw _ => [] end), [], []. rewrite Hf, app_nil_r.
    split; [by intros x ->|]. split; [done|]. split; [|done]. apply Forall_singleton. by split; [left|].
  - destruct Hr as (p & exists_ & clientId & configPath & options & l & Ht & (P1 & P2 & P3 & P4) & _ & Hl & Hi & Hq).
    exists configPath, (pl_generatedJson p), l. rewrite Ht. split; [by intros ? [= <-]|]. split; [done|]. split; [done|].
    destruct r as [p'|e]; [|done]. destruct Hq as [-> Hq]. split_and!; [done..|].
    destruct (pl_changed p) eqn:Ec; cbn [andb] in *; [|done]. destruct (pl_dryRun p); cbn [negb] in *; [done|].
    split; [done|]. intros ? [= <-] Ho. by apply P4.
Qed.
End paths.
