(* ===== verification/ConnectorLifecycle.v ===== *)
(** * Connectors: from the file to the diagnosis

    What connecting a client wrote is what inspecting it reads: the files, the plans and the
    states of an installation put together. *)

From stdpp Require Import gmap.
From S2P Require Import Prelude JsValue Objects Regex Canonical Hashing Merkle Dates VaultPublic Vault Settlement Samples Connectors ConnectorPublic ConnectorFiles ConnectorsSafety ConnectorFilesSafety.

Section lifecycle.
Context {C : Crypto} {Hst : Host} {P : Platform} {N : Node} {R : Readers}.

(** ** The path among the options *)

(** Two lists of options that differ at most in [configPath]. *)
Definition same_options (a b : obj) : Prop := forall k : jstr, k <> "configPath" -> fget a k = fget b k.

Lemma same_set a v : same_options (fset a "configPath" v) a.
Proof. intros k Hk. rewrite fget_fset. by rewrite (proj2 (str_eqb_neq _ k)) by congruence. Qed.

Lemma same_fset a b k v : same_options a b -> same_options (fset a k v) (fset b k v).
Proof. intros H k' Hk. rewrite !fget_fset. destruct (k =s= k'); [done|by apply H]. Qed.

Lemma same_home a b platform : same_options a b -> homeForPlatform platform a = homeForPlatform platform b.
Proof. intros H. unfold homeForPlatform. by rewrite (H "homeDir"), (H "env"). Qed.

Lemma same_platform a b : same_options a b -> option_platform a = option_platform b.
Proof. intros H. unfold option_platform. by rewrite (H "platform"). Qed.

Lemma same_bundle a b : same_options a b -> defaultBundlePath a = defaultBundlePath b.
Proof. intros H. unfold defaultBundlePath. rewrite (same_platform a b H). destruct (option_platform b); cbn [res_bind]; [|done]. by rewrite (same_home a b). Qed.

Lemma same_entry a b : same_options a b -> serverEntryFromOptions a = serverEntryFromOptions b.
Proof.
  intros H. unfold serverEntryFromOptions, serverEnvFromOptions, mcpCommandFromOptions.
  rewrite (same_bundle a b H), !(H _) by discriminate. done.
Qed.

Lemma same_default a b clientId platform : same_options a b -> defaultConfigPathFor clientId platform a = defaultConfigPathFor clientId platform b.
Proof.
  intros H. unfold defaultConfigPathFor, appDataForPlatform. rewrite (same_home a b _ H). by rewrite (H "env").
Qed.

Lemma same_profile a b clientId : same_options a b ->
  getClientProfile (VStr clientId) (VObj a) = getClientProfile (VStr clientId) (VObj b).
Proof.
  intros H. unfold getClientProfile, platformDefaultConfigPath, normalizeOptions. cbn [given_client is_undef spread_of own_fields].
  pose proof (same_fset _ _ "clientId" (VStr clientId) H) as H1.
  assert (forall x, same_options (fset (fset a "clientId" (VStr clientId)) "clientId" x) (fset (fset b "clientId" (VStr clientId)) "clientId" x)) as H2
    by (intros x; by apply same_fset).
  rewrite !(H1 _) by discriminate. rewrite (same_platform _ _ H1).
  destruct (normalizeClientId _) as [id|]; cbn [res_bind]; [|done]. destruct (option_platform _) as [pl|]; cbn [res_bind]; [|done].
  destruct (find_client id); [|done]. rewrite (same_platform _ _ (H2 _)), !(H2 _ _) by discriminate.
  destruct (normalizeClientId _); cbn [res_bind]; [|done]. destruct (option_platform _); cbn [res_bind]; [|done].
  by rewrite (same_default _ _ _ _ (H2 _)).
Qed.

Lemma normalize_text (c : jstr) v id : normalizeClientId (VStr c ?? v) = Ok id -> id = c.
Proof. unfold normalizeClientId. cbn zeta. intros H. by inv_res. Qed.

Lemma normalize_default v : normalizeClientId (v ?? vstr "generic-mcp") = normalizeClientId v.
Proof. unfold normalizeClientId, coalesce. by destruct v. Qed.

Lemma profile_inv clientId options profile :
  getClientProfile (VStr clientId) (VObj options) = Ok profile ->
  cl_id (pr_client profile) = clientId /\
  platformDefaultConfigPath (VStr clientId) (VObj options) = Ok (pr_default_config_path profile).
Proof.
  unfold getClientProfile. cbn zeta. cbn [given_client is_undef normalizeOptions spread_of own_fields]. intros H. inv_res.
  rewrite fget_fset, str_eqb_refl in H0. apply normalize_text in H0 as ->.
  destruct (find_client clientId) as [c|] eqn:E; [|done]. inv_res. cbn [pr_client pr_default_config_path]. split.
  - unfold find_client in E. apply List.find_some in E as [_ E]. by apply str_eqb_eq.
  - revert H0. unfold platformDefaultConfigPath. cbn [given_client is_undef normalizeOptions spread_of own_fields]. by rewrite fset_twice.
Qed.

Lemma target_path a b clientId configPath options profile :
  target a b = Ok (clientId, configPath, options) -> getClientProfile (VStr clientId) (VObj options) = Ok profile ->
  options = normalizeOptions (given_client a) b /\ configPath = configPathIn options profile /\
  normalizeClientId (fget options "clientId" ?? fget options "client_id" ?? vstr "generic-mcp") = Ok clientId.
Proof.
  intros Ht [_ Hp]%profile_inv. unfold target in Ht. cbn zeta in Ht. inv_res. injection Ht as -> <- <-.
  set (options := normalizeOptions (given_client a) b) in *. split; [done|]. split.
  - unfold configPathIn. unfold coalesce_res in *. unfold coalesce.
    destruct (is_nullish (fget options "configPath")); [|by inv_res].
    destruct (is_nullish (fget options "config_path")); [|by inv_res]. rewrite Hp in H0. by inv_res.
  - rewrite <- H. unfold coalesce. destruct (is_nullish (fget options "clientId")); [|done].
    apply normalize_default.
Qed.

Lemma same_name a b profile : same_options a b -> serverNameFor a profile = serverNameFor b profile.
Proof. intros H. unfold serverNameFor. by rewrite (H "serverName"), (H "server_name"). Qed.

Lemma same_state a b config profile name : same_options a b ->
  installedState config profile name a = installedState config profile name b.
Proof. intros H. unfold installedState. by rewrite (same_entry a b H). Qed.

(** ** Running *)
Lemma run_bind {A B} (m : IO A) (k : A -> IO B) d a d' : m d = (inl a, d') -> io_bind m k d = k a d'.
Proof. intros H. unfold io_bind. by rewrite H. Qed.

Lemma run_lift {A B} (m : res A) (k : A -> IO B) d a : m = Ok a -> io_bind (io_lift m) k d = k a d.
Proof. by intros ->. Qed.

(** ** Reading what was written *)
Lemma read_back d configPath options text config :
  dk_outcomes d = [] -> optionFileReader options = Ok None -> dk_files d !! configPath = Some text ->
  json_parse text = Ok config -> is_record config = true ->
  readJsonConfig configPath options d = (inl (true, config), d).
Proof.
  intros Hd Ho Hf Hp Hr. unfold readJsonConfig, read_text. unfold io_bind at 1, io_catch, io_bind at 1 2.
  rewrite Ho. cbn [io_lift io_ret]. unfold fs_readFile, fs_call, io_bind, next_outcome. rewrite Hd.
  unfold contents, io_bind, get_files. rewrite Hf. cbn [io_ret]. rewrite Hp, Hr. reflexivity.
Qed.

(** A change that was written: its plan, and the configuration it was made for. *)
Lemma change_written action t a b d p d' clientId configPath options :
  honest d -> changeClient action t a b d = (inl p, d') -> pl_changed p = true -> pl_dryRun p = false ->
  target a b = Ok (clientId, configPath, options) ->
  dk_files d' !! configPath = Some (pl_generatedJson p) /\ planned_from (dk_files d) action clientId options configPath p.
Proof.
  intros Hd H Hc Hn Ht. destruct (change_runs _ _ _ _ _ _ _ Hd H) as [(e & He & _)|Hr]; [done|].
  destruct Hr as (p' & ex & clientId' & configPath' & options' & l & Ht' & (P1 & _) & Hfrom & _ & _ & -> & Hi).
  rewrite Ht in Ht'. injection Ht' as <- <- <-. rewrite Hc, Hn in Hi. cbn [andb negb] in Hi. split; [|done].
  unfold installed in Hi. rewrite P1 in Hi. destruct (pl_backupPath p').
  - destruct Hi as (old & _ & _ & ->). by rewrite lookup_insert_eq.
  - subst. by rewrite Hi, lookup_insert_eq.
Qed.

(** C8 What connecting wrote is recognised.  Of a connection that changed a configuration,
    made for options without a reader of their own and whose text is read back as its value,
    an inspection with the same options reads the file and reports the server as
    [already_configured], and connecting once more plans no change and writes nothing. *)
Theorem connection_recognised t a b d p d' clientId configPath options wizard :
  honest d -> connectClient t a b d = (inl p, d') -> pl_changed p = true -> pl_dryRun p = false ->
  target a b = Ok (clientId, configPath, options) -> optionFileReader options = Ok None -> pl_serverName p <> PROTO ->
  (forall text config, dk_files d !! configPath = Some text -> json_parse text = Ok config -> json_tree config = true) ->
  json_parse (pl_generatedJson p) = Ok (pl_config p) ->
  (forall profile, getClientProfile (VStr clientId) (VObj options) = Ok profile ->
     wizard_of (cl_id (pr_client profile)) (pr_platform profile) = Ok wizard) ->
  dk_outcomes d' = [] ->
  (exists x, detectClientConnector a b d' = (inl x, d') /\ dt_ok x = true /\ dt_exists x = true /\
     dt_action x = "already_configured" /\ dt_error x = None) /\
  (forall t', exists p', connectClient t' a b d' = (inl p', d') /\ pl_changed p' = false /\ pl_config p' = pl_config p).
Proof.
  intros Hd H Hc Hn Ht Ho Hproto Htree Hback Hw Hd'.
  destruct (change_written _ _ _ _ _ _ _ _ _ _ Hd H Hc Hn Ht) as [Hf (ex & config & p0 & Hp & Ec & En & Hr & Hconf)].
  assert (json_tree config = true) as Hj.
  { specialize (Hconf Ho). destruct (dk_files d !! configPath) as [text|] eqn:E; [by eapply Htree|by subst]. }
  rewrite En in Hproto. cbn [plan_of] in Hp. pose proof (same_set options (VStr configPath)) as Hsame.
  destruct (connect_state _ _ _ _ _ _ Hj Hr Hp Hproto) as (profile & entry & st & Hprof & _ & Hi & Ha & _).
  destruct (connect_shape _ _ _ _ _ _ Hj Hr Hp Hproto) as (fs & profile' & entry' & _ & Hprof' & _ & Es & Erec & _).
  rewrite Hprof in Hprof'. injection Hprof' as <-. rewrite (same_profile _ _ _ Hsame) in Hprof.
  rewrite (same_name _ _ _ Hsame) in Es. rewrite Es, (same_state _ _ _ _ _ Hsame) in Hi.
  destruct (target_path _ _ _ _ _ _ Ht Hprof) as (Hopt & Hpath & Hid).
  assert (readJsonConfig configPath options d' = (inl (true, pl_config p), d')) as Hread.
  { eapply read_back; [done..|]. by rewrite Ec, Erec. }
  split.
  - exists (detection_of profile options true true st None wizard).
    split; [|by split_and!; [| |unfold detection_of; cbn [dt_action]|]].
    unfold detectClientConnector. cbn zeta. rewrite <- Hopt, (run_lift _ _ _ _ Hid), (run_lift _ _ _ _ Hprof).
    unfold io_catch, inspect. rewrite <- Hpath. rewrite (run_bind _ _ _ _ _ Hread), Ec, (run_lift _ _ _ _ Hi).
    cbn zeta. by rewrite Ha, (run_lift _ _ _ _ (Hw _ Hprof)).
  - intros t'. destruct (connect_again _ _ _ _ _ _ Hj Hr Hp Hproto true None) as (p' & Hp' & Ec' & Hch & _).
    exists p'. split; [|by rewrite Ec]. unfold connectClient, changeClient.
    assert (plannedChange Connect t' a b d' = (inl (p', true), d')) as Hplan; [|by rewrite (run_bind _ _ _ _ _ Hplan); unfold writePlan; rewrite Hch].
    unfold plannedChange. rewrite (run_lift _ _ _ _ Ht), (run_bind _ _ _ _ _ Hread), Ec. cbn [plan_of].
    by rewrite (run_lift _ _ _ _ Hp'), Hch.
Qed.
End lifecycle.

(** ** Samples *)

(** A reader of JSON texts without escapes and with whole numbers only. *)
Definition blank (c : N) : bool := (c =? 32)%N || (c =? 10)%N.

Fixpoint skip_blanks (s : jstr) : jstr :=
  match s with c :: s' => if blank c then skip_blanks s' else s | [] => [] end.

Fixpoint read_string (s : jstr) : option (jstr * jstr) :=
  match s with
  | [] => None
  | 34%N :: s' => Some ([], s')
  | 92%N :: _ => None
  | c :: s' => '(t, rest) ← read_string s'; Some (c :: t, rest)
  end.

Fixpoint read_number (acc : Z) (s : jstr) : Z * jstr :=
  match s with
  | c :: s' => if is_digit c then read_number (acc * 10 + Z.of_N (c - 48)) s' else (acc, s)
  | [] => (acc, s)
  end.

(** The constants. *)
Definition read_word (s : jstr) : option (jsval * jstr) :=
  if starts_with "true" s then Some (VBool true, drop 4 s)
  else if starts_with "false" s then Some (VBool false, drop 5 s)
  else if starts_with "null" s then Some (VNull, drop 4 s)
  else match s with
       | c :: _ => if is_digit c then let '(n, rest) := read_number 0 s in Some (vint n, rest) else None
       | [] => None
       end.

Fixpoint read_value (fuel : nat) (s : jstr) : option (jsval * jstr) :=
  match fuel with
  | 0 => None
  | S fuel' =>
      match skip_blanks s with
      | 34%N :: s' => '(t, rest) ← read_string s'; Some (VStr t, rest)
      | 91%N :: s' =>
          match skip_blanks s' with
          | 93%N :: rest => Some (VArr [], rest)
          | _ => '(items, rest) ← read_items fuel' s'; Some (VArr items, rest)
          end
      | 123%N :: s' =>
          match skip_blanks s' with
          | 125%N :: rest => Some (VObj [], rest)
          | _ => '(fields, rest) ← read_members fuel' s'; Some (VObj (spread [] fields), rest)
          end
      | s' => read_word s'
      end
  end
with read_items (fuel : nat) (s : jstr) : option (list jsval * jstr) :=
  match fuel with
  | 0 => None
  | S fuel' =>
      '(v, s1) ← read_value fuel' s;
      match skip_blanks s1 with
      | 44%N :: s2 => '(items, rest) ← read_items fuel' s2; Some (v :: items, rest)
      | 93%N :: rest => Some ([v], rest)
      | _ => None
      end
  end
with read_members (fuel : nat) (s : jstr) : option (obj * jstr) :=
  match fuel with
  | 0 => None
  | S fuel' =>
      match skip_blanks s with
      | 34%N :: s0 =>
          '(k, s1) ← read_string s0;
          match skip_blanks s1 with
          | 58%N :: s2 =>
              '(v, s3) ← read_value fuel' s2;
              match skip_blanks s3 with
              | 44%N :: s4 => '(fields, rest) ← read_members fuel' s4; Some ((k, v) :: fields, rest)
              | 125%N :: rest => Some ([(k, v)], rest)
              | _ => None
              end
          | _ => None
          end
      | _ => None
      end
  end.

Definition read_json (s : jstr) : res jsval :=
  match read_value (2 * length s) s with
  | Some (v, rest) => throw_if negb (skip_blanks rest =s= []) with PlainError "Unexpected token"; Ok v
  | None => Throw (PlainError "Unexpected token")
  end.

Definition SampleJson : Platform :=
  let P := SamplePlatform in
  {| aead_seal := aead_seal; aead_open := aead_open; b64_encode := b64_encode; b64_decode := b64_decode;
     derive_master := derive_master; ed25519_from_seed := ed25519_from_seed; key_export := key_export;
     json_parse := read_json; string_number := string_number |}.

Definition SampleNode : Node :=
  {| process_platform := "linux"; process_env := VUndef; homedir := "/home/user";
     path_join _ segments := join "/" segments; path_dirname _ path := path |}.

Definition SampleReaders : Readers := {| call_reader _ _ := inr (no_entry []) |}.

Definition sample_moment (now : Z) : moment := {| t_now := now; t_pid := 7; t_random := "8f" |}.

(** The configuration of a client that has another server, and its file. *)
Definition sample_config : jsval :=
  VObj [("theme" : jstr, vstr "dark");
        ("mcpServers" : jstr, VObj [("files" : jstr, VObj [("command" : jstr, vstr "files-mcp"); ("port" : jstr, vint 70)])])].

Definition sample_path : jstr := "/home/user/.cursor/mcp.json".
Definition sample_options : obj := [("bundlePath" : jstr, vstr "/home/user/bundle.json"); ("now" : jstr, vint 0)].

Definition sample_disk (outcomes : list outcome) : disk :=
  {| dk_files := {[ sample_path := stringifyConfig sample_config ]}; dk_seen := []; dk_outcomes := outcomes |}.

(** The last call, the rename, fails. *)
Definition rename_fails : list outcome :=
  [Done; Done; Done; Done; Done; Fails (coded "EBUSY" "resource busy") None].

Example sample_read_back : read_json (stringifyConfig sample_config) = Ok sample_config.
Proof. vm_compute. reflexivity. Qed.

Definition sample_connect (outcomes : list outcome) : (plan + failure) * disk :=
  connectClient (N := SampleNode) (P := SampleJson) (R := SampleReaders)
    (sample_moment 0) (vstr "cursor") (VObj sample_options) (sample_disk outcomes).

(** A test of the plan that a run returns. *)
Definition on_plan (test : plan -> bool) (r : plan + failure) : bool :=
  match r with inl p => test p | inr _ => false end.

Lemma config_change_atomic_witness :
  exists e d', sample_connect rename_fails = (inr e, d') /\ dk_files d' !! sample_path = Some (stringifyConfig sample_config) /\
    Forall (λ m : files, m !! sample_path <> None) (dk_seen d').
Proof.
  destruct (sample_connect rename_fails) as [r d'] eqn:E.
  assert (honest (sample_disk rename_fails)) as Hd by (by repeat constructor).
  destruct (config_change_atomic (N := SampleNode) (P := SampleJson) (R := SampleReaders) Connect _ _ _ _ _ _ Hd E)
    as (configPath & json & l & Ht & Hl & Hi & Hr).
  assert (configPath = sample_path) as ->.
  { symmetry. refine (Ht ("cursor" : jstr, sample_path, normalizeOptions (vstr "cursor") (VObj sample_options)) _).
    vm_compute. reflexivity. }
  assert (on_plan (λ _, true) (sample_connect rename_fails).1 = false) as Hf by (vm_compute; reflexivity). rewrite E in Hf.
  destruct r as [p|e]; [discriminate Hf|]. exists e, d'. split; [reflexivity|].
  split; [rewrite Hr; vm_compute; reflexivity|]. rewrite Hl. cbn [sample_disk dk_seen app].
  apply Forall_app in Hi as [Hi _]. eapply Forall_impl; [exact Hi|]. intros m [[H|H] _]; rewrite H; [|discriminate].
  vm_compute. discriminate.
Defined.

Lemma connect_disconnect_restores_witness :
  exists p p', connectPlan (N := SampleNode) "cursor" sample_options true sample_config None = Ok p /\ pl_changed p = true /\
    disconnectPlan (N := SampleNode) "cursor" sample_options true (pl_config p) None = Ok p' /\ pl_config p' = sample_config.
Proof.
  destruct (connectPlan (N := SampleNode) "cursor" sample_options true sample_config None) as [p|] eqn:E; [|vm_compute in E; discriminate E].
  assert (pl_changed p = true /\ pl_serverName p = "enigma") as [Hch Hn].
  { vm_compute in E. injection E as <-. split; reflexivity. }
  destruct (connect_disconnect_restores (N := SampleNode) "cursor" sample_options true sample_config None p)
    as (profile & entry & _ & _ & _ & _ & _ & _ & _ & Hd); [vm_compute; reflexivity|reflexivity|exact E|rewrite Hn; discriminate|].
  destruct (Hd true None) as (p' & Hp' & _ & _ & _ & _ & Hc). exists p, p'. split_and!; [reflexivity|exact Hch|exact Hp'|].
  apply Hc. rewrite Hn. vm_compute. reflexivity.
Defined.

(** With an empty path of the bundle the two reports on one state disagree: nothing is to be
    done, and the bundle is missing. *)
Example empty_bundle_reports :
  (let options := [("bundlePath" : jstr, vstr "")] in
   let! p := connectPlan (N := SampleNode) "cursor" options false (VObj []) None in
   let! profile := getClientProfile (N := SampleNode) (vstr "cursor") (VObj options) in
   let! st := installedState (N := SampleNode) (pl_config p) profile "enigma" options in
   Ok (recommendedConnectorAction true st None, connectorRepairReasons true st None))
  = Ok ("already_configured" : jstr, ["bundle_env_missing" : jstr]).
Proof. vm_compute. reflexivity. Qed.

(** What holds of the run without failures. *)
Lemma sample_target :
  target (N := SampleNode) (vstr "cursor") (VObj sample_options)
  = Ok ("cursor" : jstr, sample_path, normalizeOptions (vstr "cursor") (VObj sample_options)).
Proof. vm_compute. reflexivity. Qed.

Lemma sample_wizard : exists wizard, forall profile,
  getClientProfile (N := SampleNode) (VStr "cursor") (VObj (normalizeOptions (vstr "cursor") (VObj sample_options))) = Ok profile ->
  wizard_of (N := SampleNode) (cl_id (pr_client profile)) (pr_platform profile) = Ok wizard.
Proof.
  destruct (wizard_of (N := SampleNode) "cursor" "linux") as [wizard|] eqn:Ew; [|vm_compute in Ew; discriminate Ew].
  exists wizard. intros profile Hp.
  assert (cl_id (pr_client profile) = "cursor" /\ pr_platform profile = "linux") as [-> ->]; [|exact Ew].
  vm_compute in Hp. injection Hp as <-. split; reflexivity.
Qed.

Lemma sample_tree text config :
  dk_files (sample_disk []) !! sample_path = Some text -> read_json text = Ok config -> json_tree config = true.
Proof.
  intros Hf Hp. cbn [dk_files sample_disk] in Hf. rewrite lookup_singleton_eq in Hf. injection Hf as <-.
  rewrite sample_read_back in Hp. injection Hp as <-. vm_compute. reflexivity.
Qed.

Lemma sample_run p d' : sample_connect [] = (inl p, d') ->
  pl_changed p = true /\ pl_dryRun p = false /\ pl_serverName p = "enigma" /\
  read_json (pl_generatedJson p) = Ok (pl_config p) /\ dk_outcomes d' = [].
Proof.
  assert (match (sample_connect []).1 with
    | inl p => pl_changed p = true /\ pl_dryRun p = false /\ pl_serverName p = "enigma" /\
        read_json (pl_generatedJson p) = Ok (pl_config p)
    | inr _ => True end) as Hp by (vm_compute; tauto).
  assert (dk_outcomes (sample_connect []).2 = []) as Ho by (vm_compute; reflexivity).
  intros E. rewrite E in Hp, Ho. cbn [fst snd] in Hp, Ho. tauto.
Qed.

Lemma sample_returns : exists p d', sample_connect [] = (inl p, d').
Proof.
  assert (on_plan (λ _, true) (sample_connect []).1 = true) as Hp by (vm_compute; reflexivity).
  destruct (sample_connect []) as [[p|e] d']; [by exists p, d'|discriminate Hp].
Qed.

Lemma connection_recognised_witness :
  exists p d' x, sample_connect [] = (inl p, d') /\
    detectClientConnector (N := SampleNode) (P := SampleJson) (R := SampleReaders) (vstr "cursor") (VObj sample_options) d' = (inl x, d') /\
    dt_action x = "already_configured".
Proof.
  destruct sample_returns as (p & d' & E), sample_wizard as (wizard & Hw).
  destruct (sample_run p d' E) as (Hc & Hd & Hn & Hb & Ho).
  destruct (connection_recognised (N := SampleNode) (P := SampleJson) (R := SampleReaders)
    (sample_moment 0) (vstr "cursor") (VObj sample_options) (sample_disk []) p d' "cursor" sample_path
    (normalizeOptions (vstr "cursor") (VObj sample_options)) wizard ltac:(constructor) E Hc Hd sample_target eq_refl
    ltac:(rewrite Hn; discriminate) sample_tree Hb Hw Ho) as [(x & Hx & _ & _ & Ha & _) _].
  exists p, d', x. split_and!; [exact E|exact Hx|exact Ha].
Defined.
